(* ===== verification/_CoqProject ===== *)
-Q . S2P
Prelude.v
CLayout.v
FfTypes.v
MemPool.v
WrQueue.v
Verbs.v
CtrlShm.v
Client.v
PostSend.v
Router.v
RouterSpec.v
PostRecv.v
PollCq.v
DataPath.v
DataPathSpec.v
Wire.v
ReqRouter.v
CmdCtrl.v
CmdLocal.v
CmdQuery.v
CmdSpec.v
CqEvents.v
FlowSpec.v
Indexer.v
Marshall.v
MemTree.v
ForkMem.v
ForkSpec.v
ForkRanges.v
ForkUndo.v
Bitmap.v
TokenBucket.v
RouterCtl.v
RouterServe.v
RouterInv.v
RouterNames.v
RouterRegion.v
RouterQueues.v
RouterFlow.v
CmTypes.v
CmVip.v
CmResp.v
RouterCm.v
CmRequest.v
CmIds.v
CmRoute.v
CmEvents.v
CmQp.v
CmForward.v
CmServed.v
CmStream.v
CmWell.v
CmFaults.v
RouterSock.v
RsTypes.v
RsPost.v
RsStream.v
RsWorld.v
RsInv.v
RsRing.v
RsBytes.v
RsRoom.v
RsOwn.v
RsSend.v
RsKept.v
RsTaken.v
RsWire.v
RsOpen.v
RsCalls.v
RsConn.v
RsStreams.v
RsConnect.v
RsJoin.v
RsPoll.v
RsPolls.v
RsSvc.v
RsOptions.v
RsIomap.v
RsDgram.v
RsFaults.v
