(* ===== verification/Prelude.v ===== *)
(** * FreeFlow: a verification library

    FreeFlow gives containers RDMA through a router process on their host.  The
    application is linked against a changed libibverbs; its verbs do not reach the
    kernel but the router, which owns the device and the memory shared with its
    clients.  This library models the client side and the router's branches for
    data and control, and proves what the two do together.

    ** The program

    Paths below are relative to freeflow/; "libibverbs" is
    libraries/libibverbs-1.2.1mlnx1, "librdmacm" is libraries/librdmacm-1.1.0mlnx.

    - libibverbs/src/freeflow.c is the client's transport.  Control verbs open a
      Unix socket to the router per request ([request_router]); posts and polls go
      through a piece of shared memory per queue, a state word with a request and a
      response area ([request_router_shm]).
    - libibverbs/src/cmd.c implements the verbs on top of it.  Memory regions are
      shared with the router; a key map (libmempool) takes the key of a region to
      its two addresses; posted receives are remembered in a ring per completion
      queue or shared receive queue, so that a completion can copy the data out.
    - libibverbs/src/verbs.c is what the application calls; it keeps the map from
      the router's handles to the queue objects and fetches completion events.
    - ffrouter/ffrouter.cpp serves the pieces ([CtrlChannelLoop]) and the sockets
      ([HandleRequest]): it rewrites the work requests in place and hands them to
      the device, and it creates and destroys the objects the clients ask for, keeps
      them in tables by handle, and tells the routers of the other hosts where a
      region lies.  ffrouter/tokenbucket.h limits the rate of a queue pair,
      ffrouter/verbs_cmd.cpp writes commands to the kernel.
    - libibverbs/src/memory.c keeps registered pages out of forked children: a
      red-black tree of ranges with reference counts.
    - libmlx4 (libraries/libmlx4-1.2.1mlnx1) is a provider; its src/bitmap.h allocates
      chunks of huge pages.
    - libibverbs/src/marshall.c, the rate conversions of verbs.c and the indexer of
      librdmacm (src/indexer.c) are parts of their own.
    - librdmacm/src/cma.c manages connections: identifiers, event channels, addresses
      and routes, listening, connecting, accepting.  Its commands go through
      librdmacm/src/freeflow.c to the router, which maps the addresses of containers to
      those of hosts and passes them to the kernel with functions of its own copy of
      librdmacm (libraries-router/librdmacm-1.1.0mlnx/src/cma.c).  For programs that use
      plain sockets the router makes, binds, accepts and connects sockets of the host
      and passes their descriptors.
    - librdmacm/src/rsocket.c implements sockets over RDMA.  A stream socket writes into a
      ring in its peer's memory, in pieces that the peer grants ("credits"); the ring, the
      grants and the messages in both directions share one queue pair.

    ** The files

    - Prelude: machine integers, the result monad [res] ([Ok]; [Ub], undefined
      behaviour; [Exit], the process ends; [Spin], a loop that has not ended),
      memory as a function from addresses to bytes, tactics, hint databases.
    - CLayout, FfTypes: C struct layout (size, alignment, offset of a type) and the
      structs and constants of freeflow-types.h, verbs.h and kern-abi.h.
    - Wire: struct values, their bytes in memory, and that reading what was written
      gives the value back.
    - MemPool: Module [Pool] is MemoryPool.tcc, Module [Map] is libmempool.cpp.  The
      class [LkeyMap] with its laws [LkeyMapLaws] is what the verbs need of it; the
      library's map is an instance, and so is a plain finite map.
    - WrQueue: [struct wr_queue], with its 16-bit indices.
    - Verbs: work requests, completions, and the class [WorkRequest] by which one
      walk of a chain serves sends and receives.
    - CtrlShm: [request_router_shm], a turn of the router, and Module [Handshake],
      the protocol as a step relation of any number of client threads and the
      router.
    - Client, PostSend, PostRecv, PollCq: the state of a client process and
      [ibv_cmd_post_send], [ibv_cmd_post_recv], [ibv_cmd_post_srq_recv] and
      [ibv_cmd_poll_cq] of cmd.c.
    - Router, RouterSpec: the branches of [CtrlChannelLoop], the send branch of
      [HandleRequest], and what they make of a chain.
    - DataPath, DataPathSpec: client and router together, through the piece.
    - ReqRouter: [connect_router], [request_router], [recv_fd] of freeflow.c.
    - CmdCtrl, CmdLocal, CmdQuery, CmdSpec: the control verbs of cmd.c: those that
      ask the router, those whose write to the kernel is commented out, the queries,
      and what they do.
    - FlowSpec: flow steering, from [buffer_is_zero] to [cmd_destroy_flow].
    - CqEvents: completion channels, queues and events of verbs.c, over a record
      [cq_ops] of the provider's operations.
    - Indexer: the index allocator and index map of librdmacm.
    - Marshall: marshall.c and the rate conversions.
    - MemTree: the red-black tree of memory.c; a place in the tree is a subtree with
      the path to the root ([ctx]), which stands for the parent pointers.
    - ForkMem, ForkSpec, ForkRanges, ForkUndo: the other functions of memory.c, the
      view of the tree as a count per address, runs of calls that succeed, and calls
      that fail and are rolled back.
    - Bitmap: bitmap.h of libmlx4.
    - TokenBucket: tokenbucket.h and the loop of the send branch that waits for it.
    - RouterCtl: the router's tables ([router], around the record [ffrouter] of
      Router), shared_memory.cpp, one definition [do_...] per control branch of
      [HandleRequest], verbs_cmd.cpp.  The host's verbs are a record [device].
    - RouterServe: the loop of [HandleRequest] with its reads and writes; [UDPServer].
    - RouterInv: the class [DeviceLaws], what the router needs of the device's
      handles, and the states the router reaches.
    - RouterNames: the names of segments.  RouterRegion: registration, end to end.
      RouterQueues: queue pairs, and requests that go astray.  RouterFlow: flow
      commands on their way to the kernel.
    - CmTypes: the commands of rdma_cma_abi.h and the structs that carry them.  CmVip:
      [map_vip] with the decimal notation of addresses.  CmResp: the [..._resp] functions
      of the router's librdmacm, over a record [ucma] of the kernel's operations.
    - RouterCm: the CM_ branches of [HandleRequest], one [do_...] each, in the loop of a
      thread.  RouterSock: the SOCKET_ branches, over a record [host] of the host's
      sockets with its laws [HostLaws].
    - CmRequest: freeflow.c of librdmacm.  CmIds, CmRoute, CmEvents, CmQp: cma.c, over
      the state [cm_proc] of a process: identifiers, channels and devices; addresses,
      routes and states of queue pairs; events and calls that wait for one; creation of
      queue pairs.  The verbs it calls are records ([verbs], [qverbs]).
    - CmForward, CmServed, CmStream, CmWell, CmFaults: commands on their way to the
      kernel, requests served end to end, the events of a channel, commands of the client
      with addresses, and calls that go wrong.
    - RsTypes, RsPost, RsStream: rsocket.c for streams: the socket by who changes which
      field, posting, credits and completions, [rsend], [rrecv], peeking and shutting down.
      The queue pair is a record [rs_dev] of operations.
    - RsWorld: two sockets with a device between them ([port]), and the steps of both ends
      and of the device.  RsInv is the invariant of such a pair, by direction; RsRing,
      RsBytes, RsRoom, RsOwn, RsSend, RsKept, RsTaken and RsWire show that the steps keep it:
      the rings, the bytes in them, the room that is granted, the requests under way,
      sending, completions, receiving, and the device.
    - RsOpen, RsConnect: [rs_alloc], [rs_create_ep], the exchange of the connection data,
      [rs_do_connect] as the machine it is, and [raccept].  RsCalls, RsConn: the calls of
      the application on a connection.  RsStreams, RsJoin: the theorems on connections, and
      that connecting and accepting make one.  RsFaults: what goes wrong.
    - RsPoll, RsPolls: [rpoll] and [rselect].  RsSvc: the service thread that sends
      keep-alive messages.  RsOptions: [rsetsockopt], [rgetsockopt], [rfcntl].  RsIomap:
      [riomap], [riounmap] and [riowrite].  RsDgram: datagrams, from [ds_format_hdr] to
      [dsend] and [ds_recvfrom], over a record [ds_dev] of the queue pairs' operations.

    ** What the theorems show

    - The data path is correct end to end: a posted chain reaches the device as it
      was posted, with every address translated (sends, receives, shared receives);
      staged payloads and delivered data are at their places and nothing else is
      touched; completions retire receives in order (DataPathSpec).
    - The shared-memory channel executes each request once, gives each call its own
      response and keeps the two sides apart, for any interleaving; the client's loop
      and the router's turns are steps of that protocol (CtrlShm).
    - Containers meet their abstract specifications: the key map is a finite map and
      its allocator hands out disjoint slots, the ring is a queue, the indexer and
      the index map are maps (MemPool, WrQueue, Indexer).
    - The control channel transmits structs faithfully in any segmentation, and the
      verbs keep the client's tables: registration, deregistration, creation of
      queues, events in order at their owners (ReqRouter, CmdSpec, CqEvents).
    - Translations stay in bounds or are inverse to each other (FlowSpec, Marshall),
      and the extended verbs accept exactly the sensible attribute masks (CmdLocal).
    - Registering memory is correct end to end: the client's verb against the router's
      threads, with the bytes that go over the socket, leaves keys and bases with which
      the data path names the same byte on both sides, and on the other hosts for regions
      whose two keys are equal (RouterRegion); segments of different regions have different names
      (RouterNames).
    - The router's tables, pieces and polling vectors stay in step in every state it
      reaches between two requests (RouterInv); creating and destroying a queue pair cancel (RouterQueues);
      flow commands reach the kernel as the client built them (RouterFlow).
    - Fork support: the tree stays a balanced red-black tree (MemTree), the counts are
      the numbers of registrations and the kernel's marks agree with them
      (ForkRanges, for runs in which malloc and madvise succeed), a registration the kernel
      refuses changes nothing (ForkUndo).
    - The bitmap allocator finds the first fitting run, and allocation and freeing
      cancel, for a power of two of chunks (Bitmap).  The rate limit holds, and senders
      whose entries fit the burst are served (TokenBucket).
    - Connection management: the router passes the clients' commands to the kernel in
      order and unchanged but for the mapped addresses (CmForward, for the commands it
      answers with a fixed struct); an identifier is created end to end (CmServed); the
      events of a channel that need no change on the way arrive in order (CmStream); a
      queue pair with queues on both sides that cannot be created leaves nothing behind
      (CmQp); socket requests leave no descriptor open but those of a message that passes
      several (RouterSock).
    - Stream sockets: in every interleaving of the two ends and the device what one
      application receives is a prefix of what the other sent; requests write only into the
      buffers of the peer and never exceed the send queue; a drained connection can send;
      calls that must not block return and say what they did (RsStreams).  rconnect and
      raccept whose messages reach each other give such a connection, and an attempt ends
      connected, failed, or waiting for the operation it has begun (RsJoin).  What rpoll reports holds in the next call, and rselect is rpoll on sets
      (RsPolls).  The keep-alive table is a map, and a round serves who is due (RsSvc);
      options read back (RsOptions); mappings own their places in the peer's table, and each
      transfer of a write ends inside of the mapping it looked up (RsIomap).  Datagrams that
      fit their slots keep them to themselves, and arrive with their data and their sender;
      polling for them ends (RsDgram).
    - Where the code does not do what it should, the theorem says what it does: the
      failed request reported one too early, address handles of datagrams, the ring
      at 65536 entries, end of file, unreachable routers, error codes not looked at,
      counts lost when giving pages back fails, three huge pages, entries larger than
      the burst, the shared queue of handle 0, names that are gone, reads that fail,
      handles nobody has, binds that are never answered, refusals taken for success,
      channels that are created in place of destroyed, buffers of odd size, results that
      are not initialised, routes that reading overwrites, descriptor 0, the end of a
      mapping, datagrams that are too long or too short, descriptors passed in pairs, a
      socket's path that fills its buffer.

    ** Conventions, bounds and fuel

    A C integer is a [Z] in its range, and every store, sum and conversion that can
    leave the range is wrapped explicitly ([u8] .. [u64], [s32]).  An out-of-range
    index, a null pointer that is used and a read of memory that was never written
    are [Ub].  Uninitialised stack memory has a value, the parameter [os_junk].

    Loops that wait are driven by lists: the router's turns between two looks at the
    state word, the chunks [read] returns, the connections the router accepts; a
    list that ends gives [Spin].  Theorems about a call that returns supply the list
    and prove [Ok]; they never assume that the call returned.  [rkey_wait] has fuel
    6: its counter ends the loop at the sixth look at the latest.  [walk_chain] has
    fuel one more than the number of work requests, enough for a chain that visits
    each once and ends.  The loops of memory.c that go up a path have fuel two more
    than its length, those over ranges three more than the number of nodes, and the
    two passes of a roll-back fuel 2; the search of the bitmap has fuel two more than
    the number of bits.  The theorems show that these never run out.  The loop of
    [HandleRequest] has fuel one more than its reads, each turn reading at least once.
    [rdma_get_cm_event] has its number of rounds as an argument; the theorem about it
    asks for one more than the events it drops.  The search for a partition key looks
    at 65537 indices, more than a port has.  The calls on stream sockets have one number
    of rounds for their loops; theorems ask for as much as there are completions and bytes,
    or show that a call which must not block needs no more.  [rs_poll_rs] has fuel 2, since
    a socket leaves the states of opening in the first round; [rpoll] has its number of
    rounds as an argument, and needs one for a timeout of 0.

    Parameters stand for what is not in the repository: the device verbs of the
    host's libibverbs, [operator new], [mmap], sockets and [getenv].

    ** What is not modelled

    Memory barriers and caches (the step relation is sequentially consistent),
    logging, the scan of the router over its vectors of pieces, and the interleaving
    of two of its threads inside of a control branch (a turn is one step, although
    DESTROY_QP clears an entry of the tables before it takes the handle out of the vector
    that the polling thread reads).  The early return of [ibv_cmd_poll_cq] on an error is
    in PollCq, but not a step of [Handshake].  During a call on a stream socket of RsStreams
    nothing arrives: arrivals are steps between the calls.  The queue pair there accepts
    every request, so that the bound on the send queue is the socket's own.  Not
    modelled as a whole: the branches of [HandleRequest] for receives and polls over a
    socket (its branch for sends is), the set-up of the router and its use of etcd, the
    rest of verbs.c, the provider library libmlx4 but for its bitmap, and of librdmacm
    multicast groups, shared receive queues, endpoints from address lists and the
    path-resolution service.  Of rsocket.c are left out the queue pairs, destinations and
    address handles of datagram sockets with the loop of their service thread, and the calls
    that only take and give back the objects of a socket ([rsocket], [rbind], [rlisten],
    [rclose]).  The threads of a process in one socket are taken
    one call at a time, as its locks let them; the service thread's round is one step. *)

From stdpp Require Export base list numbers gmap strings.
From Stdlib Require Export ZArith Lia.

#[global] Open Scope Z_scope.

(** ** Machine-width integers *)

Definition u8 (x : Z) : Z := x mod 2 ^ 8.
Definition u16 (x : Z) : Z := x mod 2 ^ 16.
Definition u32 (x : Z) : Z := x mod 2 ^ 32.
Definition u64 (x : Z) : Z := x mod 2 ^ 64.
(** Conversion to a 32-bit two's complement [int]. *)
Definition s32 (x : Z) : Z :=
  let y := u32 x in if y <? 2 ^ 31 then y else y - 2 ^ 32.

Create HintDb ff discriminated.
Create Rewrite HintDb ff.

Ltac unfold_ints := unfold u8, u16, u32, u64 in *.

Lemma u16_range x : 0 <= u16 x < 2 ^ 16.
Proof. unfold_ints. apply Z.mod_pos_bound. lia. Qed.
Lemma u32_range x : 0 <= u32 x < 2 ^ 32.
Proof. unfold_ints. apply Z.mod_pos_bound. lia. Qed.
Lemma u64_range x : 0 <= u64 x < 2 ^ 64.
Proof. unfold_ints. apply Z.mod_pos_bound. lia. Qed.
Lemma u8_range x : 0 <= u8 x < 2 ^ 8.
Proof. unfold_ints. apply Z.mod_pos_bound. lia. Qed.

Lemma u8_small x : 0 <= x < 2 ^ 8 -> u8 x = x.
Proof. intros; unfold_ints. by apply Z.mod_small. Qed.
Lemma u16_small x : 0 <= x < 2 ^ 16 -> u16 x = x.
Proof. intros; unfold_ints. by apply Z.mod_small. Qed.
Lemma u32_small x : 0 <= x < 2 ^ 32 -> u32 x = x.
Proof. intros; unfold_ints. by apply Z.mod_small. Qed.
Lemma u64_small x : 0 <= x < 2 ^ 64 -> u64 x = x.
Proof. intros; unfold_ints. by apply Z.mod_small. Qed.
Lemma u64_u64 x : u64 (u64 x) = u64 x.
Proof. apply u64_small, u64_range. Qed.

(** Relocating an address by [- a] and then by [+ b] modulo 2^64 is relocating
    it by the difference. *)
Lemma u64_add_u64 a b : u64 (a + u64 b) = u64 (a + b).
Proof. unfold_ints. by rewrite Zplus_mod_idemp_r. Qed.
Lemma u64_sub_u64 a b : u64 (u64 a - b) = u64 (a - b).
Proof. unfold_ints. by rewrite Zminus_mod_idemp_l. Qed.

Lemma s32_small x : 0 <= x < 2 ^ 31 -> s32 x = x.
Proof.
  intros Hx. unfold s32. rewrite u32_small by lia.
  destruct (Z.ltb_spec x (2 ^ 31)); lia.
Qed.
Lemma s32_u32 x : - 2 ^ 31 <= x < 2 ^ 31 -> s32 (u32 x) = x.
Proof.
  intros Hx. unfold s32. rewrite (u32_small (u32 x)) by apply u32_range.
  unfold u32. destruct (Z.le_gt_cases 0 x).
  - rewrite Z.mod_small by lia. destruct (Z.ltb_spec x (2 ^ 31)); lia.
  - rewrite <- (Z.mod_unique x (2 ^ 32) (-1) (x + 2 ^ 32)) by lia.
    destruct (Z.ltb_spec (x + 2 ^ 32) (2 ^ 31)); lia.
Qed.

Lemma u32_s32 x : 0 <= x < 2 ^ 32 -> u32 (s32 x) = x.
Proof.
  intros Hx. unfold s32. rewrite (u32_small x) by lia.
  destruct (Z.ltb_spec x (2 ^ 31)); [apply u32_small; lia|].
  unfold u32. rewrite <- (Z.mod_unique (x - 2 ^ 32) (2 ^ 32) (-1) x); lia.
Qed.

Lemma s32_id x : - 2 ^ 31 <= x < 2 ^ 31 -> s32 x = x.
Proof. intros Hx. rewrite <- (s32_u32 x Hx) at 2. unfold s32. by rewrite (u32_small (u32 x)) by apply u32_range. Qed.

(** [x & ~(size - 1)], the largest multiple of a power of two not above [x]. *)
Definition align_down (size x : Z) : Z := Z.land x (u64 (Z.lnot (u64 (size - 1)))).

Lemma land_u64 x y : 0 <= x < 2 ^ 64 -> Z.land x (u64 y) = Z.land x y.
Proof.
  intros Hx. unfold u64. rewrite <- Z.land_ones, (Z.land_comm y), Z.land_assoc by lia.
  by rewrite Z.land_ones, Z.mod_small by lia.
Qed.

Lemma align_down_spec k x :
  0 <= k < 64 -> 0 <= x < 2 ^ 64 -> align_down (2 ^ k) x = x - x mod 2 ^ k.
Proof.
  intros Hk Hx. unfold align_down. rewrite land_u64 by done.
  assert (0 < 2 ^ k < 2 ^ 64) by (split; [lia|apply Z.pow_lt_mono_r; lia]).
  rewrite u64_small by lia.
  replace (2 ^ k - 1) with (Z.ones k) by (rewrite Z.ones_equiv; lia).
  rewrite <- Z.ldiff_land, Z.ldiff_ones_r by lia.
  rewrite Z.shiftl_mul_pow2, Z.shiftr_div_pow2 by lia.
  pose proof (Z.div_mod x (2 ^ k)). lia.
Qed.

(** [align] of the providers: the least multiple not below [val]. *)
Definition align (val a : Z) : Z := align_down a (u64 (val + a - 1)).

Lemma align_spec k x : 0 <= k < 64 -> 0 <= x -> x + 2 ^ k <= 2 ^ 64 ->
  x <= align x (2 ^ k) < x + 2 ^ k /\ align x (2 ^ k) mod 2 ^ k = 0.
Proof.
  intros Hk Hx Hb. assert (0 < 2 ^ k) by lia. unfold align. rewrite u64_small by lia.
  rewrite align_down_spec by lia. set (y := x + 2 ^ k - 1).
  pose proof (Z.mod_pos_bound y (2 ^ k)). split; [lia|].
  rewrite Zminus_mod_idemp_r, Z.sub_diag. by apply Z.mod_0_l; lia.
Qed.

#[export] Hint Resolve u8_range u16_range u32_range u64_range : ff.
#[export] Hint Rewrite u64_u64 u64_add_u64 u64_sub_u64 : ff.

(** ** Outcomes of C code

    [Ok]: the call returns.  [Ub]: a null or out-of-range access, that is, the
    process dies (or worse).  [Exit c]: the process calls [exit(c)].  [Spin]:
    the call is still in one of its polling or reading loops when the supplied
    schedule of environment events is used up. *)
Inductive res (A : Type) : Type :=
| Ok (a : A)
| Ub
| Exit (code : Z)
| Spin.
Arguments Ok {A} a.
Arguments Ub {A}.
Arguments Exit {A} code.
Arguments Spin {A}.

#[global] Instance res_ret : MRet res := @Ok.
#[global] Instance res_bind : MBind res := fun A B k r =>
  match r with
  | Ok a => k a
  | Ub => Ub
  | Exit c => Exit c
  | Spin => Spin
  end.

Definition is_ok {A} (r : res A) : bool :=
  match r with Ok _ => true | _ => false end.

Definition is_Ok {A} (r : res A) : Prop := exists a, r = Ok a.

Definition of_option {A} (o : option A) : res A :=
  match o with Some a => Ok a | None => Ub end.

Lemma bind_Ok {A B} (r : res A) (k : A -> res B) b :
  (r ≫= k) = Ok b -> exists a, r = Ok a /\ k a = Ok b.
Proof. destruct r; simpl; intros; naive_solver. Qed.

(** Splits a hypothesis [x ← c; k = Ok b] into its stages. *)
Ltac inv_ok :=
  repeat match goal with
  | H : (_ ≫= _) = Ok _ |- _ =>
      let a := fresh "a" in let E := fresh "E" in
      apply bind_Ok in H as (a & E & H)
  | H : Ok _ = Ok _ |- _ => injection H as H; subst
  | H : Ub = Ok _ |- _ => discriminate
  | H : Exit _ = Ok _ |- _ => discriminate
  | H : Spin = Ok _ |- _ => discriminate
  | H : of_option ?o = Ok _ |- _ =>
      let E := fresh "E" in destruct o eqn:E; simpl in H
  end.

(** Case split on the conditional or match the goal is stuck on. *)
Ltac split_if :=
  match goal with
  | |- context [if ?b then _ else _] => destruct b eqn:?
  | H : context [if ?b then _ else _] |- _ => destruct b eqn:?
  end.

(** Arithmetic with boolean comparisons in the context. *)
Ltac blia :=
  repeat match goal with
  | H : (_ <? _) = true |- _ => apply Z.ltb_lt in H
  | H : (_ <? _) = false |- _ => apply Z.ltb_ge in H
  | H : (_ <=? _) = true |- _ => apply Z.leb_le in H
  | H : (_ <=? _) = false |- _ => apply Z.leb_gt in H
  | H : (_ =? _) = true |- _ => apply Z.eqb_eq in H
  | H : (_ =? _) = false |- _ => apply Z.eqb_neq in H
  | H : (_ && _)%bool = true |- _ => apply andb_prop in H as [? ?]
  | H : (_ || _)%bool = false |- _ => apply orb_false_elim in H as [? ?]
  | H : negb _ = true |- _ => apply negb_true_iff in H
  | H : negb _ = false |- _ => apply negb_false_iff in H
  end; try lia.

(** ** Byte memory

    An address space: the byte at every address.  [memcpy] reads the whole
    source before it writes (C leaves overlapping areas undefined). *)
Definition mem := Z -> Z.

Definition memcpy (m : mem) (dst src n : Z) : mem :=
  fun a => if (dst <=? a) && (a <? dst + n) then m (src + (a - dst)) else m a.

(** [write_bytes m a bs] stores the list [bs] at [a]. *)
Definition write_bytes (m : mem) (a : Z) (bs : list Z) : mem :=
  fun x => if (a <=? x) && (x <? a + Z.of_nat (length bs))
           then nth (Z.to_nat (x - a)) bs 0 else m x.

Lemma memcpy_in m dst src n k :
  0 <= k < n -> memcpy m dst src n (dst + k) = m (src + k).
Proof.
  intros. unfold memcpy.
  destruct (Z.leb_spec dst (dst + k)); [|lia].
  destruct (Z.ltb_spec (dst + k) (dst + n)); [|lia].
  simpl. f_equal. lia.
Qed.

Lemma memcpy_out m dst src n a :
  a < dst \/ dst + n <= a -> memcpy m dst src n a = m a.
Proof.
  intros. unfold memcpy.
  destruct (Z.leb_spec dst a), (Z.ltb_spec a (dst + n)); simpl; auto; lia.
Qed.

(** ** Arrays indexed by a C integer *)

(** The element at index [i], [Ub] when [i] is outside of the array. *)
Definition array_get {A} (l : list A) (i : Z) : res A :=
  if i <? 0 then Ub else of_option (l !! Z.to_nat i).

(** [take_n n l]: the first [n] elements of the array at [l]; [Ub] when the
    array is shorter or [n] is negative. *)
Definition take_n {A} (n : Z) (l : list A) : res (list A) :=
  if (n <? 0) || (Z.of_nat (length l) <? n) then Ub
  else Ok (take (Z.to_nat n) l).

Lemma take_n_all {A} (l : list A) : take_n (Z.of_nat (length l)) l = Ok l.
Proof.
  unfold take_n.
  destruct (Z.ltb_spec (Z.of_nat (length l)) 0); [lia|].
  rewrite Z.ltb_irrefl. simpl. by rewrite Nat2Z.id, firstn_all.
Qed.

Fixpoint foldM {A B} (f : B -> A -> res B) (b : B) (l : list A) : res B :=
  match l with
  | [] => Ok b
  | x :: l' => b' ← f b x; foldM f b' l'
  end.

(** Sum of a Z-valued measure over a list. *)
Fixpoint sumZ (l : list Z) : Z :=
  match l with [] => 0 | x :: l' => x + sumZ l' end.

Lemma sumZ_app l1 l2 : sumZ (l1 ++ l2) = sumZ l1 + sumZ l2.
Proof. induction l1; simpl; lia. Qed.
