(* ===== verification/CLayout.v ===== *)
(** * C struct layout

    The layout rules of the x86-64 System V ABI for the types the wire structs
    of FreeFlow are made of.  Every [sizeof] and [offsetof] of the development
    is computed from a struct's field list by these functions, so a size is
    never a bare number. *)

From S2P Require Import Prelude.

Inductive cty : Type :=
| I8 | I16 | I32 | I64
| Ptr
| Arr (n : nat) (t : cty)
| Struct (fs : list cty)
| Union (fs : list cty).

Fixpoint alignof (t : cty) : Z :=
  match t with
  | I8 => 1 | I16 => 2 | I32 => 4 | I64 => 8 | Ptr => 8
  | Arr _ t => alignof t
  | Struct fs | Union fs => fold_right (fun f a => Z.max (alignof f) a) 1 fs
  end.

(** The least multiple of [a] that is at least [x]. *)
Definition align_up (x a : Z) : Z := (x + a - 1) / a * a.

Fixpoint sizeof (t : cty) : Z :=
  match t with
  | I8 => 1 | I16 => 2 | I32 => 4 | I64 => 8 | Ptr => 8
  | Arr n t => Z.of_nat n * sizeof t
  | Struct fs =>
      align_up
        (fold_left (fun off f => align_up off (alignof f) + sizeof f) fs 0)
        (alignof (Struct fs))
  | Union fs =>
      align_up (fold_right (fun f s => Z.max (sizeof f) s) 0 fs)
        (alignof (Union fs))
  end.

(** Offsets of the fields of a struct laid out from [off] on. *)
Fixpoint offsets_from (off : Z) (fs : list cty) : list Z :=
  match fs with
  | [] => []
  | f :: fs' =>
      let o := align_up off (alignof f) in o :: offsets_from (o + sizeof f) fs'
  end.

(** [offsetof t i]: the byte offset of field [i] of the struct [t]. *)
Definition offsetof (t : cty) (i : nat) : Z :=
  match t with
  | Struct fs => nth i (offsets_from 0 fs) 0
  | _ => 0
  end.

(** Induction that goes through the field lists. *)
Lemma cty_ind' (P : cty -> Prop) :
  P I8 -> P I16 -> P I32 -> P I64 -> P Ptr ->
  (forall n t, P t -> P (Arr n t)) ->
  (forall fs, Forall P fs -> P (Struct fs)) ->
  (forall fs, Forall P fs -> P (Union fs)) ->
  forall t, P t.
Proof.
  intros H1 H2 H3 H4 H5 HA HS HU.
  fix IH 1. intros [| | | | |n t|fs|fs]; [assumption..| | |].
  - apply HA, IH.
  - apply HS. induction fs; constructor; auto.
  - apply HU. induction fs; constructor; auto.
Qed.

Lemma max_align_pos fs : 1 <= fold_right (fun f a => Z.max (alignof f) a) 1 fs.
Proof. induction fs; simpl; lia. Qed.

Lemma alignof_pos t : 1 <= alignof t.
Proof.
  induction t using cty_ind'; simpl; try lia; apply max_align_pos.
Qed.

Lemma align_up_ge x a : 1 <= a -> x <= align_up x a < x + a.
Proof.
  intros. unfold align_up.
  pose proof (Z.div_mod (x + a - 1) a ltac:(lia)).
  pose proof (Z.mod_pos_bound (x + a - 1) a ltac:(lia)). lia.
Qed.

Lemma align_up_divide x a : (a | align_up x a).
Proof. exists ((x + a - 1) / a). reflexivity. Qed.

Lemma struct_fold_ge fs : forall off,
  Forall (fun f => 0 <= sizeof f) fs ->
  off <= fold_left (fun off f => align_up off (alignof f) + sizeof f) fs off.
Proof.
  induction fs as [|f fs IH]; intros off Hf; simpl; [lia|].
  inversion_clear Hf.
  pose proof (align_up_ge off (alignof f) (alignof_pos f)).
  etrans; [|by apply IH]. lia.
Qed.

Lemma union_fold_ge fs :
  0 <= fold_right (fun f s => Z.max (sizeof f) s) 0 fs.
Proof. induction fs; simpl; lia. Qed.

Lemma sizeof_nonneg t : 0 <= sizeof t.
Proof.
  induction t using cty_ind'; cbn [sizeof]; try lia.
  - etrans; [|apply align_up_ge, alignof_pos]. by apply struct_fold_ge.
  - etrans; [|apply align_up_ge, alignof_pos]. apply union_fold_ge.
Qed.

(** Fields lie one behind the other: field [j > i] starts at or after the end of
    field [i], and every field starts at or after [off]. *)
Lemma offsets_from_ge fs : forall off j o,
  offsets_from off fs !! j = Some o -> off <= o.
Proof.
  induction fs as [|f fs IH]; intros off [|j] o H; simpl in *; try done.
  - injection H as <-. apply align_up_ge, alignof_pos.
  - apply IH in H.
    pose proof (align_up_ge off (alignof f) (alignof_pos f)).
    pose proof (sizeof_nonneg f). lia.
Qed.

Lemma offsets_from_disjoint fs : forall off (i j : nat) f oi oj,
  (i < j)%nat -> fs !! i = Some f ->
  offsets_from off fs !! i = Some oi ->
  offsets_from off fs !! j = Some oj ->
  oi + sizeof f <= oj.
Proof.
  induction fs as [|g fs IH]; intros off i j f oi oj Hij Hf Hi Hj; [done|].
  destruct i as [|i], j as [|j]; simpl in *; try lia.
  - injection Hf as ->. injection Hi as <-.
    by apply offsets_from_ge in Hj.
  - eapply (IH _ i j); eauto. lia.
Qed.

Lemma offsets_from_end fs : forall off (i : nat) f o,
  fs !! i = Some f -> offsets_from off fs !! i = Some o ->
  o + sizeof f <=
    fold_left (fun off f => align_up off (alignof f) + sizeof f) fs off.
Proof.
  induction fs as [|g fs IH]; intros off i f o Hf Ho; [done|].
  destruct i as [|i]; simpl in *.
  - injection Hf as ->. injection Ho as <-. apply struct_fold_ge.
    apply Forall_forall. intros x _. apply sizeof_nonneg.
  - by eapply IH.
Qed.

(** A struct's fields lie inside of it. *)
Lemma offsetof_in_struct fs (i : nat) f :
  fs !! i = Some f ->
  0 <= offsetof (Struct fs) i /\
  offsetof (Struct fs) i + sizeof f <= sizeof (Struct fs).
Proof.
  intros Hf. unfold offsetof.
  assert (exists o, offsets_from 0 fs !! i = Some o) as [o Ho].
  { assert (forall l off (k : nat) x, l !! k = Some x ->
      exists o, offsets_from off l !! k = Some o) as A.
    { induction l as [|y l IH]; intros off [|k] x Hx; simpl in *; try done; eauto. }
    by eapply A. }
  rewrite (nth_lookup_Some _ _ _ _ Ho).
  split; [by eapply offsets_from_ge|].
  cbn [sizeof]. etrans; [by eapply offsets_from_end|].
  apply align_up_ge, alignof_pos.
Qed.
