(* ===== verification/FfTypes.v ===== *)
(** * Wire types of the FreeFlow control channel

    The function codes, the constants and the request and response structs of
    [infiniband/freeflow-types.h] (the client's copy) and the verbs structs
    they embed, as layouts of {CLayout}. *)

From S2P Require Import Prelude CLayout.

(** ** Constants *)

Definition CTRL_REQ_SIZE : Z := 1024 * 1024.
Definition CTRL_RSP_SIZE : Z := 1024 * 1024.
Definition MAP_SIZE : Z := 10240.
Definition WR_QUEUE_SIZE : Z := 102400.

Inductive RDMA_FUNCTION_CALL : Type :=
| IBV_GET_DEVICE_LIST | IBV_GET_CONTEXT | IBV_QUERY_DEV | IBV_EXP_QUERY_DEV
| IBV_QUERY_PORT | IBV_ALLOC_PD | IBV_DEALLOC_PD | IBV_CREATE_QP
| IBV_MODIFY_QP | IBV_QUERY_QP | IBV_DESTROY_QP
| IBV_CREATE_SRQ | IBV_MODIFY_SRQ | IBV_POST_SRQ_RECV | IBV_DESTROY_SRQ
| IBV_CREATE_CQ | IBV_DESTROY_CQ | IBV_POLL_CQ | IBV_GET_CQ_EVENT
| IBV_ACK_CQ_EVENT | IBV_REQ_NOTIFY_CQ
| IBV_REG_MR | IBV_REG_MR_MAPPING | IBV_DEREG_MR
| IBV_REG_CM | IBV_POST_SEND | IBV_POST_RECV
| IBV_CREATE_COMP_CHANNEL | IBV_DESTROY_COMP_CHANNEL
| IBV_CREATE_AH | IBV_DESTROY_AH | IBV_CREATE_FLOW | IBV_DESTROY_FLOW
| IBV_MALLOC | IBV_FREE | IBV_RESIZE_CQ
| CM_CREATE_EVENT_CHANNEL | CM_DESTROY_EVENT_CHANNEL | CM_CREATE_ID
| CM_BIND_IP | CM_BIND | CM_GET_EVENT | CM_QUERY_ROUTE | CM_LISTEN
| CM_RESOLVE_IP | CM_RESOLVE_ADDR | CM_UCMA_QUERY_ADDR | CM_UCMA_QUERY_GID
| CM_UCMA_PROCESS_CONN_RESP | CM_DESTROY_ID | CM_RESOLVE_ROUTE
| CM_UCMA_QUERY_PATH | CM_INIT_QP_ATTR | CM_CONNECT | CM_ACCEPT
| CM_SET_OPTION | CM_MIGRATE_ID | CM_DISCONNECT.

#[global] Instance RDMA_FUNCTION_CALL_eq_dec : EqDecision RDMA_FUNCTION_CALL.
Proof. solve_decision. Defined.

(** ** Headers *)

Record FfrRequestHeader : Type := mkReqHeader {
  client_id : Z;
  func : RDMA_FUNCTION_CALL;
  body_size : Z }.

Definition t_FfrRequestHeader : cty := Struct [I32; I32; I32].
Definition t_FfrResponseHeader : cty := Struct [I32].

(** ** Verbs structs (verbs.h, kern-abi.h, kern-abi_exp.h) *)

Definition t_ibv_gid : cty := Union [Arr 16 I8; Struct [I64; I64]].
Definition t_ibv_global_route : cty := Struct [t_ibv_gid; I32; I8; I8; I8].
Definition t_ibv_ah_attr : cty :=
  Struct [t_ibv_global_route; I16; I8; I8; I8; I8; I8].
Definition t_ibv_srq_attr : cty := Struct [I32; I32; I32].
Definition t_ibv_srq_init_attr : cty := Struct [Ptr; t_ibv_srq_attr].
Definition t_ibv_qp_cap : cty := Struct [I32; I32; I32; I32; I32].
Definition t_ibv_qp_attr : cty :=
  Struct ([I32; I32; I32; I32; I32; I32; I32; I32; I32;
           t_ibv_qp_cap; t_ibv_ah_attr; t_ibv_ah_attr; I16; I16]
          ++ repeat I8 11).
Definition t_ibv_device_attr : cty :=
  Struct ([Arr 64 I8; I64; I64; I64; I64] ++ repeat I32 32 ++ [I16; I8; I8]).
Definition t_ibv_port_attr : cty :=
  Struct (repeat I32 8 ++ repeat I16 3 ++ repeat I8 10).
Definition t_ibv_sge : cty := Struct [I64; I32; I32].
Definition t_ibv_mw_bind_info : cty := Struct [Ptr; I64; I64; I32].
Definition t_ibv_send_wr : cty :=
  Struct [I64; Ptr; Ptr; I32; I32; I32; I32;
          Union [Struct [I64; I32]; Struct [I64; I64; I64; I32];
                 Struct [Ptr; I32; I32]];
          Union [I32; I32];
          Struct [Ptr; I32; t_ibv_mw_bind_info]].
Definition t_ibv_recv_wr : cty := Struct [I64; Ptr; Ptr; I32].
Definition t_ibv_wc : cty :=
  Struct [I64; I32; I32; I32; I32; I32; I32; I32; I32; I16; I16; I8; I8].
(** [struct ibv_post_send]; [ibv_post_recv] and [ibv_post_srq_recv] have the
    same fields. *)
Definition t_ibv_post_send : cty :=
  Struct [I32; I16; I16; I64; I32; I32; I32; I32].
Definition t_ibv_qp_dest : cty :=
  Struct ([Arr 16 I8; I32; I16; I16] ++ repeat I8 8).
Definition t_ibv_query_qp_resp : cty :=
  Struct ([t_ibv_qp_dest; t_ibv_qp_dest] ++ repeat I32 10 ++ [I16; I16]
          ++ repeat I8 15 ++ [Arr 5 I8; Arr 0 I64]).
Definition t_ex_hdr : cty :=
  Struct [Struct [I32; I16; I16]; Struct [I64]; Struct [I16; I16; I32]].
Definition t_ibv_create_flow_resp : cty := Struct [I32; I32].
Definition t_ibv_destroy_flow : cty := Struct [t_ex_hdr; I32; I32].
Definition t_ibv_exp_query_device : cty := Struct [t_ex_hdr; I64; Arr 0 I64].
Definition t_ibv_exp_query_device_resp : cty :=
  Struct (repeat I64 6 ++ repeat I32 32 ++ [I16; I8; I8; Arr 4 I8]
          ++ repeat I64 3 ++ repeat I32 4 ++ [I64; I32; I32]
          ++ [Struct (repeat I32 4);                      (* umr_caps *)
              Struct [I64; Struct (repeat I32 6)];        (* odp_caps *)
              I32; I32;
              Struct [I32; I32; I64; I32; I8; Arr 3 I8];  (* rx_hash *)
              I32; I32;
              Struct [I32; I32; I8; I8; I8; I8; I32];     (* mp_rq_caps *)
              I16; Arr 2 I8; I32;
              Struct [I32; I32];                          (* ec_caps *)
              Struct [I32; I32; I64; I64];                (* masked_atomic_caps *)
              I16; Arr 6 I8;
              Struct [I32; I32];                          (* tso_caps *)
              Struct (repeat I32 4)]).                    (* packet_pacing_caps *)

(** ** Requests and responses (freeflow-types.h) *)

Definition t_IBV_GET_CONTEXT_RSP := Struct [I32; I32].
Definition t_IBV_QUERY_DEV_RSP := Struct [t_ibv_device_attr].
Definition t_IBV_EXP_QUERY_DEV_REQ := Struct [t_ibv_exp_query_device].
Definition t_IBV_EXP_QUERY_DEV_RSP := Struct [I32; t_ibv_exp_query_device_resp].
Definition t_IBV_QUERY_PORT_REQ := Struct [I8].
Definition t_IBV_QUERY_PORT_RSP := Struct [t_ibv_port_attr].
Definition t_IBV_ALLOC_PD_RSP := Struct [I32].
Definition t_IBV_DEALLOC_PD_REQ := Struct [I32].
Definition t_IBV_DEALLOC_PD_RSP := Struct [I32].
Definition t_IBV_CREATE_CQ_REQ := Struct [I32; I32; I32].
Definition t_IBV_CREATE_CQ_RSP := Struct [I32; I32; Arr 100 I8].
Definition t_IBV_DESTROY_CQ_REQ := Struct [I32].
Definition t_IBV_DESTROY_CQ_RSP := Struct [I32].
Definition t_IBV_REQ_NOTIFY_CQ_REQ := Struct [I32; I32].
Definition t_IBV_REQ_NOTIFY_CQ_RSP := Struct [I32].
Definition t_IBV_CREATE_QP_REQ :=
  Struct [I32; I32; I32; I32; I32; I32; t_ibv_qp_cap].
Definition t_IBV_CREATE_QP_RSP := Struct [I32; I32; t_ibv_qp_cap; Arr 100 I8].
Definition t_IBV_DESTROY_QP_REQ := Struct [I32].
Definition t_IBV_DESTROY_QP_RSP := Struct [I32].
Definition t_IBV_REG_MR_REQ := Struct [I32; I32; I32; Arr 100 I8].
Definition t_IBV_REG_MR_RSP := Struct [I32; I32; I32; Arr 100 I8].
Definition t_IBV_REG_MR_MAPPING_REQ := Struct [I32; Ptr; Ptr].
Definition t_IBV_REG_MR_MAPPING_RSP := Struct [I32].
Definition t_IBV_DEREG_MR_REQ := Struct [I32].
Definition t_IBV_DEREG_MR_RSP := Struct [I32].
Definition t_IBV_MODIFY_QP_REQ := Struct [I32; t_ibv_qp_attr; I32].
Definition t_IBV_MODIFY_QP_RSP := Struct [I32; I32].
Definition t_IBV_QUERY_QP_REQ := Struct [I32; Arr 100 I8].
Definition t_IBV_QUERY_QP_RSP := Struct [I32; t_ibv_query_qp_resp].
Definition t_IBV_POST_SEND_RSP := Struct [I32; I32].
Definition t_IBV_POST_RECV_RSP := Struct [I32; I32].
Definition t_IBV_POST_SRQ_RECV_RSP := Struct [I32; I32].
Definition t_IBV_POLL_CQ_REQ := Struct [I32; I32].
Definition t_IBV_CREATE_COMP_CHANNEL_RSP := Struct [I32].
Definition t_IBV_DESTROY_COMP_CHANNEL_REQ := Struct [I32].
Definition t_IBV_DESTROY_COMP_CHANNEL_RSP := Struct [I32].
Definition t_IBV_GET_CQ_EVENT_REQ := Struct [I32].
Definition t_IBV_GET_CQ_EVENT_RSP := Struct [I32; I32; I32].
Definition t_IBV_ACK_CQ_EVENT_REQ := Struct [I32; I32].
Definition t_IBV_ACK_CQ_EVENT_RSP := Struct [I32; I32; I32].
Definition t_IBV_CREATE_AH_REQ := Struct [I32; t_ibv_ah_attr].
Definition t_IBV_CREATE_AH_RSP := Struct [I32; I32].
Definition t_IBV_DESTROY_AH_REQ := Struct [I32].
Definition t_IBV_DESTROY_AH_RSP := Struct [I32].
Definition t_IBV_CREATE_FLOW_REQ := Struct [I32; I32; Arr 1024 I8].
Definition t_IBV_CREATE_FLOW_RSP := Struct [I32; t_ibv_create_flow_resp].
Definition t_IBV_DESTROY_FLOW_REQ := Struct [t_ibv_destroy_flow].
Definition t_IBV_DESTROY_FLOW_RSP := Struct [I32].
Definition t_IBV_CREATE_SRQ_REQ := Struct [I32; t_ibv_srq_init_attr].
Definition t_IBV_CREATE_SRQ_RSP := Struct [I32; Arr 100 I8].
Definition t_IBV_MODIFY_SRQ_REQ := Struct [I32; t_ibv_srq_attr; I32].
Definition t_IBV_MODIFY_SRQ_RSP := Struct [I32].
Definition t_IBV_DESTROY_SRQ_REQ := Struct [I32].
Definition t_IBV_DESTROY_SRQ_RSP := Struct [I32].

(** The sizes the data path depends on. *)
Lemma data_path_sizes :
  sizeof t_ibv_send_wr = 128 /\ sizeof t_ibv_recv_wr = 32 /\
  sizeof t_ibv_sge = 16 /\ sizeof t_ibv_wc = 48 /\
  sizeof t_ibv_post_send = 32 /\ sizeof t_FfrRequestHeader = 12 /\
  sizeof t_FfrResponseHeader = 4.
Proof. repeat split; vm_compute; reflexivity. Qed.
