(* ===== verification/MemPool.v ===== *)
(** * libmempool: the map from an lkey to its MR record

    [freeflow/libmempool]: the slab allocator [MemoryPool] (MemoryPool.tcc), the
    map [MemPool] built on it (libmempool.cpp), and the interface the verbs
    client sees of it.

    - Module [Pool]: [MemoryPool<PlaceHolder>].  [freeSlots_] and the chain of
      blocks are lists (the links live in the slots and blocks themselves).
    - Module [Map]: [MemPool], with [m_map] as a finite map whose value 0 is the
      null pointer that [operator[]] creates for a missing key.
    - Class [LkeyMap]: what the client relies on; [mempool_lkeymap] is the
      instance the code has. *)

From S2P Require Import Prelude.

Module Pool.

Definition SLOT : Z := 32.           (* sizeof(Slot_): PlaceHolder is char[32] *)
Definition SLOT_ALIGN : Z := 8.      (* alignof(Slot_): it holds a pointer *)
Definition BlockSize : Z := 4096000.

Record pool : Type := mkPool {
  blocks : list Z;        (* currentBlock_ and the blocks linked behind it *)
  currentSlot_ : Z;
  lastSlot_ : Z;
  freeSlots_ : list Z }.

(** The constructor: every pointer is null. *)
Definition empty_pool : pool := mkPool [] 0 0 [].

Definition padPointer (p align : Z) : Z := u64 (align - p) mod align.

(** First slot of a block: behind the link, aligned. *)
Definition body (b : Z) : Z := (b + 8) + padPointer (b + 8) SLOT_ALIGN.

Section Alloc.
(** [operator new(BlockSize)], given the blocks handed out so far; [None] when
    it throws [std::bad_alloc], which nothing catches. *)
Context (opnew : list Z -> option Z).

Definition allocateBlock (p : pool) : res pool :=
  newBlock ← of_option (opnew (blocks p));
  Ok (mkPool (newBlock :: blocks p)
             (body newBlock)
             (newBlock + BlockSize - SLOT + 1)
             (freeSlots_ p)).

Definition allocate (p : pool) : res (pool * Z) :=
  match freeSlots_ p with
  | s :: fs => Ok (mkPool (blocks p) (currentSlot_ p) (lastSlot_ p) fs, s)
  | [] =>
      p1 ← (if lastSlot_ p <=? currentSlot_ p then allocateBlock p else Ok p);
      Ok (mkPool (blocks p1) (currentSlot_ p1 + SLOT) (lastSlot_ p1) (freeSlots_ p1),
          currentSlot_ p1)
  end.

Definition deallocate (p : pool) (s : Z) : pool :=
  if s =? 0 then p
  else mkPool (blocks p) (currentSlot_ p) (lastSlot_ p) (s :: freeSlots_ p).

(** ** Invariant *)

(** Documented behaviour of [operator new]: a non-null area that does not
    overlap the areas handed out before. *)
Definition opnew_ok : Prop := forall bs a,
  opnew bs = Some a ->
  0 < a /\ a + BlockSize < 2 ^ 64 /\
  Forall (fun b => b + BlockSize <= a \/ a + BlockSize <= b) bs.

(** Slot [s] is the [k]-th slot of block [b] and lies inside of it. *)
Definition slot_of (b s : Z) : Prop :=
  exists k, 0 <= k /\ s = body b + SLOT * k /\ s + SLOT <= b + BlockSize.

(** [s] was handed out at least once. *)
Definition issued (p : pool) (s : Z) : Prop :=
  match blocks p with
  | [] => False
  | b :: bs => (slot_of b s /\ s < currentSlot_ p) \/ Exists (fun b' => slot_of b' s) bs
  end.

Fixpoint blocks_disjoint (bs : list Z) : Prop :=
  match bs with
  | [] => True
  | b :: bs' =>
      Forall (fun b' => b' + BlockSize <= b \/ b + BlockSize <= b') bs' /\
      blocks_disjoint bs'
  end.

Record inv (p : pool) (live : list Z) : Prop := {
  inv_nodup : NoDup (live ++ freeSlots_ p);
  inv_issued : Forall (issued p) (live ++ freeSlots_ p);
  inv_disjoint : blocks_disjoint (blocks p);
  inv_pos : Forall (fun b => 0 < b) (blocks p);
  inv_cur :
    match blocks p with
    | [] => currentSlot_ p = 0 /\ lastSlot_ p = 0
    | b :: _ => (exists k, 0 <= k /\ currentSlot_ p = body b + SLOT * k) /\
                lastSlot_ p = b + BlockSize - SLOT + 1
    end }.

Lemma body_range b : 0 < b -> b + BlockSize < 2 ^ 64 -> b + 8 <= body b < b + 16.
Proof.
  intros. unfold body, padPointer, SLOT_ALIGN.
  pose proof (Z.mod_pos_bound (u64 (8 - (b + 8))) 8 ltac:(lia)). lia.
Qed.

Lemma body_ge b : b + 8 <= body b.
Proof.
  unfold body, padPointer, SLOT_ALIGN.
  pose proof (Z.mod_pos_bound (u64 (8 - (b + 8))) 8 ltac:(lia)). lia.
Qed.

Lemma slot_of_range b s : slot_of b s -> b + 8 <= s /\ s + SLOT <= b + BlockSize.
Proof.
  intros (k & Hk & -> & Hle). pose proof (body_ge b). unfold SLOT in *. lia.
Qed.

(** Two different slots that were handed out do not overlap. *)
Lemma slot_of_same b s s' :
  slot_of b s -> slot_of b s' -> s <> s' -> s + SLOT <= s' \/ s' + SLOT <= s.
Proof.
  intros (k & Hk & -> & _) (k' & Hk' & -> & _) Hne. unfold SLOT in *.
  assert (k <> k') by (intros ->; done). lia.
Qed.

Lemma slot_of_blocks b bs s s' :
  Forall (fun b' => b' + BlockSize <= b \/ b + BlockSize <= b') bs ->
  slot_of b s -> Exists (fun b' => slot_of b' s') bs ->
  s + SLOT <= s' \/ s' + SLOT <= s.
Proof.
  intros Hd Hs. apply slot_of_range in Hs. intros Hex.
  apply Exists_exists in Hex as (b' & Hin & Hs'). apply slot_of_range in Hs'.
  eapply Forall_forall in Hd; [|exact Hin]. simpl in Hd. unfold SLOT in *. lia.
Qed.

Lemma exists_slots_disjoint bs s s' :
  blocks_disjoint bs ->
  Exists (fun b' => slot_of b' s) bs -> Exists (fun b' => slot_of b' s') bs ->
  s <> s' -> s + SLOT <= s' \/ s' + SLOT <= s.
Proof.
  induction bs as [|b bs IH]; intros Hd H1 H2 Hne; [by inversion H1|].
  destruct Hd as [Hd Hbs].
  apply Exists_cons in H1 as [H1|H1], H2 as [H2|H2]; auto.
  - by apply (slot_of_same b).
  - by eapply slot_of_blocks.
  - destruct (slot_of_blocks b bs s' s Hd H2 H1); auto.
Qed.

Lemma issued_exists p s : issued p s -> Exists (fun b => slot_of b s) (blocks p).
Proof.
  unfold issued. destruct (blocks p); [done|].
  intros [[? ?]|?]; [by apply Exists_cons_hd | by apply Exists_cons_tl].
Qed.

Lemma issued_disjoint p live s s' :
  inv p live -> issued p s -> issued p s' -> s <> s' ->
  s + SLOT <= s' \/ s' + SLOT <= s.
Proof.
  intros Hi Hs Hs'. apply (exists_slots_disjoint (blocks p));
    [apply Hi|by apply issued_exists..].
Qed.

Lemma issued_pos p live s : inv p live -> issued p s -> 0 < s.
Proof.
  intros Hi Hs. apply issued_exists, Exists_exists in Hs as (b & Hin & Hs).
  apply slot_of_range in Hs.
  pose proof (inv_pos _ _ Hi) as Hp.
  eapply Forall_forall in Hp; [|exact Hin]. simpl in Hp. lia.
Qed.

Lemma empty_inv : inv empty_pool [].
Proof. split; simpl; auto using NoDup_nil_2. Qed.

Lemma allocateBlock_inv p live p' :
  opnew_ok -> inv p live -> allocateBlock p = Ok p' ->
  inv p' live /\ currentSlot_ p' < lastSlot_ p' /\ freeSlots_ p' = freeSlots_ p.
Proof.
  intros Hnew Hi Ha. unfold allocateBlock in Ha. inv_ok.
  destruct (Hnew _ _ E0) as (Hpos & Htop & Hdis).
  pose proof (body_range _ Hpos Htop) as Hb.
  split; [|split; [simpl; unfold BlockSize, SLOT in *; lia|done]].
  split; simpl; try apply Hi.
  - pose proof (inv_issued _ _ Hi) as His. eapply Forall_impl; [exact His|].
    intros s Hs. unfold issued. simpl. right. by apply issued_exists.
  - split; [done|apply Hi].
  - constructor; [done|apply Hi].
  - split; [|done]. exists 0. lia.
Qed.

(** Bumping the current slot hands out a slot no live slot overlaps. *)
Lemma bump_inv p live :
  inv p live -> freeSlots_ p = [] -> currentSlot_ p < lastSlot_ p ->
  inv (mkPool (blocks p) (currentSlot_ p + SLOT) (lastSlot_ p) [])
      (currentSlot_ p :: live).
Proof.
  intros [Hnd His Hd Hp Hc] Hfree Hlt. rewrite Hfree, app_nil_r in *.
  destruct (blocks p) as [|b bs] eqn:Eb; [lia|].
  destruct Hc as [(k & Hk & Ek) El].
  assert (slot_of b (currentSlot_ p)) as Hslot.
  { exists k. unfold SLOT in *. lia. }
  split; simpl; rewrite ?app_nil_r; auto.
  - constructor; [|done]. intros Hin.
    eapply Forall_forall in His; [|exact Hin].
    unfold issued in His. rewrite Eb in His.
    destruct His as [[_ ?]|Hex]; [lia|].
    destruct Hd as [Hd _].
    destruct (slot_of_blocks b bs _ _ Hd Hslot Hex); unfold SLOT in *; lia.
  - constructor.
    + unfold issued; simpl. left. split; [done|]. unfold SLOT. lia.
    + eapply Forall_impl; [exact His|]. intros s Hs.
      unfold issued in *; simpl. rewrite Eb in Hs.
      destruct Hs as [[? ?]|?]; [left; split; [done|unfold SLOT; lia]|by right].
  - split; [|done]. exists (k + 1). unfold SLOT in *. lia.
Qed.

Lemma allocate_inv p live p' s :
  opnew_ok -> inv p live -> allocate p = Ok (p', s) -> inv p' (s :: live).
Proof.
  intros Hnew Hi. unfold allocate.
  destruct (freeSlots_ p) as [|f fs] eqn:Ef; intros Ha; inv_ok.
  - destruct (Z.leb_spec (lastSlot_ p) (currentSlot_ p)).
    + destruct (allocateBlock_inv p live a Hnew Hi E) as (Hi' & Hlt & Hfree).
      rewrite Hfree, Ef. apply bump_inv; congruence.
    + inv_ok. rewrite Ef. by apply bump_inv.
  - destruct Hi as [Hnd His Hd Hp Hc]. rewrite Ef in *.
    split; simpl; auto.
    + eapply NoDup_Permutation_proper; [|exact Hnd].
      by rewrite Permutation_middle.
    + apply Forall_app in His as [? His]. inversion_clear His.
      constructor; [done|]. by apply Forall_app.
Qed.

Lemma deallocate_inv p live s :
  inv p (s :: live) -> inv (deallocate p s) live.
Proof.
  intros Hi. unfold deallocate.
  assert (issued p s) as Hs.
  { pose proof (inv_issued _ _ Hi) as H. by inversion_clear H. }
  pose proof (issued_pos _ _ _ Hi Hs).
  destruct (Z.eqb_spec s 0); [lia|].
  destruct Hi as [Hnd His Hd Hp Hc]. split; simpl; auto.
  - eapply NoDup_Permutation_proper; [|exact Hnd].
    simpl. by rewrite <- Permutation_middle.
  - simpl in His. inversion_clear His as [|? ? _ H1].
    apply Forall_app in H1 as [? ?]. apply Forall_app. split; [done|].
    by constructor.
Qed.

End Alloc.
End Pool.

(** ** What the verbs client relies on *)

(** [struct mr_shm] of infiniband/freeflow.h: an application buffer and the
    shared memory that mirrors it. *)
Record mr_shm : Type := mkMrShm { mr : Z; shm_ptr : Z }.

#[global] Instance mr_shm_eq_dec : EqDecision mr_shm.
Proof. solve_decision. Defined.

(** The operations of [map_lkey_to_mrshm] as the client uses them:
    [lk_insert] is [mempool_insert] followed by the two stores through the
    returned pointer, [lk_get] is [mempool_get] followed by the two loads
    ([None]: the pointer is null), [lk_del] is [mempool_del]. *)
Class LkeyMap (M : Type) : Type := {
  lk_wf : M -> Prop;
  lk_insert : M -> Z -> mr_shm -> res M;
  lk_get : M -> Z -> option mr_shm;
  lk_del : M -> Z -> M }.

Class LkeyMapLaws (M : Type) `{LkeyMap M} : Prop := {
  lk_insert_wf : forall m k v m', lk_wf m -> lk_insert m k v = Ok m' -> lk_wf m';
  lk_del_wf : forall m k, lk_wf m -> lk_wf (lk_del m k);
  lk_get_insert : forall m k v m', lk_wf m -> lk_insert m k v = Ok m' ->
    lk_get m' k = Some v;
  lk_get_insert_ne : forall m k k' v m', lk_wf m -> lk_insert m k v = Ok m' ->
    k <> k' -> lk_get m' k' = lk_get m k';
  lk_get_del : forall m k, lk_wf m -> lk_get (lk_del m k) k = None;
  lk_get_del_ne : forall m k k', lk_wf m -> k <> k' ->
    lk_get (lk_del m k) k' = lk_get m k' }.

(** The reference implementation: a finite map. *)
#[global] Instance gmap_lkeymap : LkeyMap (gmap Z mr_shm) := {
  lk_wf := fun _ => True;
  lk_insert := fun m k v => Ok (<[k := v]> m);
  lk_get := fun m k => m !! k;
  lk_del := fun m k => delete k m }.

#[global] Instance gmap_lkeymap_laws : LkeyMapLaws (gmap Z mr_shm).
Proof.
  split; simpl; intros; inv_ok; [done|done|apply lookup_insert_eq
    |by apply lookup_insert_ne|apply lookup_delete_eq|by apply lookup_delete_ne].
Qed.

Module Map.
Import Pool.

Record mempool : Type := mkMemPool {
  m_map : gmap Z Z;             (* key -> PlaceHolder*, 0 is null *)
  m_pool : pool;
  contents : gmap Z mr_shm }.   (* what the placeholders hold *)

Section Ops.
Context (opnew : list Z -> option Z).

Definition mempool_create : mempool := mkMemPool ∅ empty_pool ∅.

(** [MemPool::insert] *)
Definition mempool_insert (m : mempool) (key : Z) : res (mempool * Z) :=
  '(p, r) ← allocate opnew (m_pool m);
  Ok (mkMemPool (<[key := r]> (m_map m)) p (contents m), r).

(** [m_map[key]]: a missing key is inserted with a null pointer. *)
Definition map_index (m : gmap Z Z) (key : Z) : gmap Z Z * Z :=
  match m !! key with
  | Some r => (m, r)
  | None => (<[key := 0]> m, 0)
  end.

(** [MemPool::get] *)
Definition mempool_get (m : mempool) (key : Z) : mempool * Z :=
  let '(mm, r) := map_index (m_map m) key in
  (mkMemPool mm (m_pool m) (contents m), r).

(** [MemPool::del] *)
Definition mempool_del (m : mempool) (key : Z) : mempool :=
  let '(mm, r) := map_index (m_map m) key in
  mkMemPool (delete key mm) (deallocate (m_pool m) r) (contents m).

(** [p->mr = a; p->shm_ptr = s] through a pointer to a placeholder. *)
Definition slot_write (m : mempool) (r : Z) (v : mr_shm) : mempool :=
  mkMemPool (m_map m) (m_pool m) (<[r := v]> (contents m)).

Record wf (m : mempool) : Prop := {
  wf_pool : exists live, inv (m_pool m) live /\
    forall k s, m_map m !! k = Some s -> s <> 0 -> s ∈ live;
  wf_inj : forall k k' s, m_map m !! k = Some s -> m_map m !! k' = Some s ->
    s <> 0 -> k = k' }.

Definition get_value (m : mempool) (key : Z) : option mr_shm :=
  let '(m', r) := mempool_get m key in
  if r =? 0 then None else contents m' !! r.

Definition insert_value (m : mempool) (key : Z) (v : mr_shm) : res mempool :=
  '(m', r) ← mempool_insert m key; Ok (slot_write m' r v).

Lemma create_wf : wf mempool_create.
Proof.
  split; simpl; [|done]. exists []. split; [apply empty_inv|done].
Qed.

(** The slot [insert] hands out is not null and is held by no other key. *)
Lemma insert_fresh m live p r :
  opnew_ok opnew -> inv (m_pool m) live ->
  (forall k s, m_map m !! k = Some s -> s <> 0 -> s ∈ live) ->
  allocate opnew (m_pool m) = Ok (p, r) ->
  0 < r /\ forall k, m_map m !! k <> Some r.
Proof.
  intros Hnew Hi Hl Ha. pose proof (allocate_inv _ _ _ _ _ Hnew Hi Ha) as Hi'.
  assert (0 < r) as Hpos.
  { apply (issued_pos p (r :: live)); [done|].
    pose proof (inv_issued _ _ Hi') as H. by inversion_clear H. }
  split; [done|]. intros k Hk. apply Hl in Hk; [|lia].
  pose proof (inv_nodup _ _ Hi') as Hnd. simpl in Hnd.
  apply NoDup_cons in Hnd as [Hnd _]. apply Hnd, elem_of_app. by left.
Qed.

Lemma insert_value_spec m k v m' :
  opnew_ok opnew -> wf m -> insert_value m k v = Ok m' ->
  exists p r, allocate opnew (m_pool m) = Ok (p, r) /\
    0 < r /\ (forall k', m_map m !! k' <> Some r) /\
    m' = mkMemPool (<[k := r]> (m_map m)) p (<[r := v]> (contents m)).
Proof.
  intros Hnew [[live [Hi Hl]] _] H. unfold insert_value, mempool_insert in H.
  destruct (allocate opnew (m_pool m)) as [[p r]| | |] eqn:Ha; try discriminate.
  simpl in H. inv_ok. exists p, r.
  pose proof (insert_fresh _ _ _ _ Hnew Hi Hl Ha) as [? ?]. done.
Qed.

Lemma insert_value_wf m k v m' :
  opnew_ok opnew -> wf m -> insert_value m k v = Ok m' -> wf m'.
Proof.
  intros Hnew Hwf Hins.
  destruct (insert_value_spec _ _ _ _ Hnew Hwf Hins) as (p & r & Ha & Hr & Hfresh & ->).
  destruct Hwf as [[live [Hi Hl]] Hinj].
  split; simpl.
  - exists (r :: live). split; [by eapply allocate_inv|].
    intros k' s Hk' Hs. apply elem_of_cons.
    rewrite lookup_insert in Hk'. case_decide; naive_solver.
  - intros k1 k2 s H1 H2 Hs. rewrite lookup_insert in H1, H2.
    repeat case_decide; naive_solver.
Qed.

Lemma get_insert_eq m k v m' :
  opnew_ok opnew -> wf m -> insert_value m k v = Ok m' -> get_value m' k = Some v.
Proof.
  intros Hnew Hwf Hins.
  destruct (insert_value_spec _ _ _ _ Hnew Hwf Hins) as (p & r & _ & Hr & _ & ->).
  unfold get_value, mempool_get, map_index. simpl.
  rewrite lookup_insert_eq. destruct (Z.eqb_spec r 0); [lia|].
  apply lookup_insert_eq.
Qed.

Lemma get_insert_ne m k k' v m' :
  opnew_ok opnew -> wf m -> insert_value m k v = Ok m' -> k <> k' ->
  get_value m' k' = get_value m k'.
Proof.
  intros Hnew Hwf Hins Hne.
  destruct (insert_value_spec _ _ _ _ Hnew Hwf Hins) as (p & r & _ & Hr & Hfresh & ->).
  unfold get_value, mempool_get, map_index. simpl.
  rewrite lookup_insert_ne by done.
  destruct (m_map m !! k') as [r'|] eqn:Ek; simpl; [|done].
  destruct (Z.eqb_spec r' 0); [done|].
  apply lookup_insert_ne. intros ->. by apply (Hfresh k').
Qed.

Lemma get_del_eq m k : get_value (mempool_del m k) k = None.
Proof.
  unfold get_value, mempool_get, mempool_del.
  destruct (map_index (m_map m) k) as [mm r]. unfold map_index. simpl.
  by rewrite lookup_delete_eq.
Qed.

Lemma get_del_ne m k k' :
  k <> k' -> get_value (mempool_del m k) k' = get_value m k'.
Proof.
  intros Hne. unfold get_value, mempool_get, mempool_del, map_index.
  destruct (m_map m !! k) eqn:Ek; simpl.
  - rewrite lookup_delete_ne by done. by destruct (m_map m !! k').
  - rewrite lookup_delete_ne, lookup_insert_ne by done. by destruct (m_map m !! k').
Qed.

Lemma del_wf m k : wf m -> wf (mempool_del m k).
Proof.
  intros [[live [Hi Hl]] Hinj]. unfold mempool_del, map_index.
  assert (forall mm r, (forall x, x <> k -> mm !! x = m_map m !! x) ->
    (r = 0 \/ m_map m !! k = Some r) ->
    wf (mkMemPool (delete k mm) (deallocate (m_pool m) r) (contents m))) as A.
  { intros mm r Hmm Hr. split; simpl.
    - assert (forall k' s, delete k mm !! k' = Some s ->
        k' <> k /\ m_map m !! k' = Some s) as Hsub.
      { intros k' s. rewrite lookup_delete. case_decide; [done|].
        rewrite Hmm by done. done. }
      destruct (Z.eqb_spec r 0) as [->|Hr0].
      + exists live. split; [done|]. intros k' s Hk'.
        apply Hsub in Hk' as [_ Hk']. by eapply Hl.
      + destruct Hr as [->|Hr]; [done|].
        destruct (list_elem_of_split live r) as (l1 & l2 & ->); [by eapply Hl|].
        exists (l1 ++ l2). split.
        * apply deallocate_inv.
          destruct Hi as [Hnd His Hd Hp Hc].
          assert (r :: l1 ++ l2 ≡ₚ l1 ++ r :: l2) as Hperm
            by apply Permutation_middle.
          split; auto; rewrite Hperm; done.
        * intros k' s Hk' Hs. apply Hsub in Hk' as [Hne Hk'].
          specialize (Hl _ _ Hk' Hs).
          assert (s <> r) by (intros ->; by apply Hne, (Hinj _ _ r)).
          clear -Hl H. set_solver.
    - intros k1 k2 s. rewrite !lookup_delete. repeat case_decide; try done.
      rewrite !Hmm by done. apply Hinj. }
  destruct (m_map m !! k) eqn:Ek; apply A; auto.
  intros x Hx. by apply lookup_insert_ne.
Qed.

End Ops.

(** [MemPool] implements the interface, for every allocator that behaves as
    [operator new] does. *)
Section Instance_.
Context (opnew : list Z -> option Z) (Hnew : opnew_ok opnew).

#[local] Instance mempool_lkeymap : LkeyMap mempool := {
  lk_wf := wf;
  lk_insert := insert_value opnew;
  lk_get := get_value;
  lk_del := mempool_del }.

#[local] Instance mempool_lkeymap_laws : LkeyMapLaws mempool.
Proof.
  split; simpl; intros; eauto using insert_value_wf, del_wf, get_insert_eq,
    get_insert_ne, get_del_eq, get_del_ne.
Qed.
End Instance_.

(** ** Refinement of a finite map *)

Inductive op : Type := OIns (k : Z) (v : mr_shm) | ODel (k : Z) | OGet (k : Z).

Definition run_map_op (m : gmap Z mr_shm) (o : op) : gmap Z mr_shm :=
  match o with
  | OIns k v => <[k := v]> m
  | ODel k => delete k m
  | OGet _ => m
  end.

Definition run_pool_op (opnew : list Z -> option Z) (m : mempool) (o : op)
  : res mempool :=
  match o with
  | OIns k v => insert_value opnew m k v
  | ODel k => Ok (mempool_del m k)
  | OGet k => Ok (fst (mempool_get m k))
  end.

Lemma get_step m k : forall k', get_value (fst (mempool_get m k)) k' = get_value m k'.
Proof.
  intros k'. unfold get_value, mempool_get, map_index.
  destruct (m_map m !! k) eqn:Ek; simpl; [done|].
  rewrite lookup_insert. case_decide; subst; [by rewrite Ek|].
  by destruct (m_map m !! k').
Qed.

Lemma get_step_wf m k : wf m -> wf (fst (mempool_get m k)).
Proof.
  intros [[live [Hi Hl]] Hinj]. unfold mempool_get, map_index.
  destruct (m_map m !! k) eqn:Ek; simpl; [split; eauto|].
  split; simpl.
  - exists live. split; [done|]. intros k' s. rewrite lookup_insert.
    case_decide; naive_solver.
  - intros k1 k2 s. rewrite !lookup_insert. repeat case_decide; naive_solver.
Qed.

Lemma run_op_sim opnew m (g : gmap Z mr_shm) o m' :
  opnew_ok opnew -> wf m -> (forall k, get_value m k = g !! k) ->
  run_pool_op opnew m o = Ok m' ->
  wf m' /\ forall k, get_value m' k = run_map_op g o !! k.
Proof.
  intros Hnew Hwf Hg Hrun. destruct o as [k0 v|k0|k0]; simpl in *; inv_ok.
  - split; [by eapply insert_value_wf|]. intros k.
    rewrite lookup_insert. case_decide; subst.
    + by eapply get_insert_eq.
    + rewrite <- Hg. by eapply get_insert_ne.
  - split; [by apply del_wf|]. intros k. rewrite lookup_delete.
    case_decide; subst; [by apply get_del_eq|]. rewrite <- Hg. by apply get_del_ne.
  - split; [by apply get_step_wf|]. intros k. by rewrite get_step.
Qed.

Lemma run_refines opnew (os : list op) : forall m (g : gmap Z mr_shm) m',
  opnew_ok opnew -> wf m -> (forall k, get_value m k = g !! k) ->
  foldM (run_pool_op opnew) m os = Ok m' ->
  wf m' /\ forall k, get_value m' k = foldl run_map_op g os !! k.
Proof.
  induction os as [|o os IH]; intros m g m' Hnew Hwf Hg Hrun; simpl in *; inv_ok;
    [done|].
  destruct (run_op_sim _ _ _ _ _ Hnew Hwf Hg E) as [Hwf' Hg']. by eapply IH.
Qed.

(** Only [operator new] can stop a sequence of operations. *)
Lemma run_op_total opnew m o :
  is_Ok (run_pool_op opnew m o) \/
  (run_pool_op opnew m o = Ub /\ exists bs, opnew bs = None).
Proof.
  destruct o as [k v|k|k]; simpl; [|left; by eexists..].
  unfold insert_value, mempool_insert, allocate.
  destruct (freeSlots_ (m_pool m)); [|left; by eexists].
  destruct (_ <=? _); [|left; by eexists]. unfold allocateBlock.
  destruct (opnew (blocks (m_pool m))) eqn:E; [left; by eexists|right; eauto].
Qed.

Lemma run_total opnew os : forall m,
  is_Ok (foldM (run_pool_op opnew) m os) \/
  (foldM (run_pool_op opnew) m os = Ub /\ exists bs, opnew bs = None).
Proof.
  induction os as [|o os IH]; intros m; simpl; [left; by eexists|].
  destruct (run_op_total opnew m o) as [[m' ->]|[-> ?]]; [apply IH|by right].
Qed.

(** An allocator: above everything handed out so far. *)
Definition bump_new (bs : list Z) : option Z :=
  let a := foldr Z.max 0 bs + BlockSize in
  if a + BlockSize <? 2 ^ 64 then Some a else None.

Lemma bump_new_ok : opnew_ok bump_new.
Proof.
  intros bs a. unfold bump_new.
  assert (0 <= foldr Z.max 0 bs /\ Forall (fun b => b <= foldr Z.max 0 bs) bs) as [H0 Hb].
  { induction bs as [|b bs [H0 IH]]; simpl; [done|]. split; [lia|].
    constructor; [lia|]. eapply Forall_impl; [exact IH|]. simpl; lia. }
  case_match eqn:E; [|done]. intros [= <-]. apply Z.ltb_lt in E.
  unfold BlockSize in *. split_and!; [lia|lia|].
  eapply Forall_impl; [exact Hb|]. simpl; lia.
Qed.

(** C33: The lkey map the library builds over its slab allocator behaves, over any
    sequence of insertions, deletions and lookups, as a finite map, as long as
    [operator new] hands out fresh memory; nothing but a failure of
    [operator new] stops it. *)
Theorem mempool_refines_map opnew (os : list op) :
  opnew_ok opnew ->
  (exists m', foldM (run_pool_op opnew) mempool_create os = Ok m' /\
     forall k, get_value m' k = foldl run_map_op (∅ : gmap Z mr_shm) os !! k) \/
  (foldM (run_pool_op opnew) mempool_create os = Ub /\ exists bs, opnew bs = None).
Proof.
  intros Hnew. destruct (run_total opnew os mempool_create) as [[m' E]|?]; [left|by right].
  exists m'. split; [done|].
  apply (run_refines opnew os mempool_create ∅ m' Hnew create_wf); [|done].
  intros k. unfold get_value. simpl. by rewrite !lookup_empty.
Qed.

Lemma mempool_refines_map_witness :
  let os := [OIns 1 (mkMrShm 10 20); OIns 2 (mkMrShm 30 40); ODel 1; OGet 1;
             OIns 3 (mkMrShm 50 60)] in
  exists m', foldM (run_pool_op bump_new) mempool_create os = Ok m' /\
    get_value m' 1 = None /\ get_value m' 3 = Some (mkMrShm 50 60).
Proof.
  intros os. destruct (mempool_refines_map bump_new os bump_new_ok) as [(m' & E & Hg)|[E _]].
  - exists m'. split; [done|]. by rewrite !Hg.
  - discriminate E.
Defined.

(** A slot the allocator hands out lies inside one of its blocks, overlaps no
    slot that is in use, and the allocator's invariant holds again. *)
Theorem allocate_fresh_slot opnew p live p' s :
  opnew_ok opnew -> inv p live -> allocate opnew p = Ok (p', s) ->
  inv p' (s :: live) /\
  Exists (fun b => b + 8 <= s /\ s + SLOT <= b + BlockSize) (blocks p') /\
  Forall (fun s' => s' + SLOT <= s \/ s + SLOT <= s') live.
Proof.
  intros Hnew Hi Ha. pose proof (allocate_inv _ _ _ _ _ Hnew Hi Ha) as Hi'.
  pose proof (inv_issued _ _ Hi') as His. pose proof (inv_nodup _ _ Hi') as Hnd.
  simpl in His, Hnd. apply Forall_cons in His as [Hs His]. apply NoDup_cons in Hnd as [Hnin _].
  split_and!; [done| |].
  - eapply Exists_impl; [by apply issued_exists|]. intros b. apply slot_of_range.
  - apply Forall_app in His as [His _]. rewrite Forall_forall in His |- *.
    intros s' Hs'. destruct (issued_disjoint _ _ s' s Hi'); auto.
    intros ->. apply Hnin. apply elem_of_app. by left.
Qed.

Lemma allocate_fresh_slot_witness :
  exists p', allocate bump_new empty_pool = Ok (p', 4096008) /\ inv p' [4096008].
Proof.
  eexists. split; [reflexivity|].
  eapply (allocate_fresh_slot bump_new empty_pool []);
    [apply bump_new_ok|apply empty_inv|reflexivity].
Defined.

End Map.
