(* ===== verification/WrQueue.v ===== *)
(** * The queue of posted receives

    FreeFlow keeps, per completion queue (or shared receive queue), a ring of
    the receives it has posted, so that a receive completion can copy the data
    from the shared memory to the application's buffer: [struct wr_queue] of
    infiniband/freeflow.h, filled by [ibv_cmd_post_recv] and
    [ibv_cmd_post_srq_recv] and drained by [ibv_cmd_poll_cq] (cmd.c).

    [head] and [tail] are [uint16_t], while the array has [WR_QUEUE_SIZE] =
    102400 entries: the wrap-around test of the code is kept as it is written
    (it never fires), and the ring turns at 65536. *)

From S2P Require Import Prelude FfTypes.

Record sge_record : Type := mkSgeRecord {
  r_length : Z;
  r_mr_addr : Z;
  r_shm_addr : Z }.

(** What the pointer [sge_queue] of a ring entry points to. *)
Inductive sge_queue_ptr : Type :=
| Wild                         (* never assigned *)
| Live (l : list sge_record)   (* a malloc'ed array *)
| Freed.                       (* passed to free() *)

Record wr_entry : Type := mkWr { sge_num : Z; sge_queue : sge_queue_ptr }.

(** [queue] has an entry for every index that was assigned since the malloc. *)
Record wr_queue : Type := mkWrQueue {
  queue : gmap Z wr_entry;
  head : Z;
  tail : Z }.

(** The queue as [ibv_cmd_create_cq] and [ibv_cmd_create_srq] set it up. *)
Definition wr_queue_init : wr_queue := mkWrQueue ∅ 0 0.

(** [x++; if (x >= WR_QUEUE_SIZE) x = 0;] on a [uint16_t]. *)
Definition ring_next (x : Z) : Z :=
  let x1 := u16 (x + 1) in if WR_QUEUE_SIZE <=? x1 then 0 else x1.

Definition entry_sgq (q : wr_queue) (i : Z) : sge_queue_ptr :=
  match queue q !! i with Some e => sge_queue e | None => Wild end.

(** Posting a receive with [num_sge] entries, whose records are [recs]. *)
Definition wr_push (q : wr_queue) (num_sge : Z) (recs : list sge_record)
  : wr_queue :=
  let wr_index := head q in
  mkWrQueue
    (<[wr_index :=
        mkWr (u32 num_sge)
             (if num_sge =? 0 then entry_sgq q wr_index else Live recs)]> (queue q))
    (ring_next (head q))
    (tail q).

(** Retiring the oldest receive: the records to copy, and the entry's array
    freed.  [Ub]: the entry was never filled, or its array is gone. *)
Definition wr_pop (q : wr_queue) : res (wr_queue * list sge_record) :=
  let wr_index := tail q in
  let q' := mkWrQueue (queue q) (head q) (ring_next (tail q)) in
  wr_p ← of_option (queue q !! wr_index);
  if sge_num wr_p =? 0 then Ok (q', [])
  else match sge_queue wr_p with
       | Live l =>
           recs ← take_n (sge_num wr_p) l;
           Ok (mkWrQueue (<[wr_index := mkWr (sge_num wr_p) Freed]> (queue q))
                 (head q) (ring_next (tail q)), recs)
       | _ => Ub
       end.

(** ** Refinement of a FIFO *)

Definition CAPACITY : Z := 2 ^ 16.

Definition entry_holds (e : wr_entry) (x : list sge_record) : Prop :=
  sge_num e = Z.of_nat (length x) /\ (x <> [] -> sge_queue e = Live x).

(** The ring [q] holds the outstanding receives [l], oldest first. *)
Record models (q : wr_queue) (l : list (list sge_record)) : Prop := {
  m_tail : 0 <= tail q < 2 ^ 16;
  m_head : head q = u16 (tail q + Z.of_nat (length l));
  m_size : Z.of_nat (length l) <= CAPACITY;
  m_entry : forall (i : nat) x, l !! i = Some x ->
    exists e, queue q !! u16 (tail q + Z.of_nat i) = Some e /\ entry_holds e x }.

Lemma ring_next_u16 x : 0 <= x < 2 ^ 16 -> ring_next x = u16 (x + 1).
Proof.
  intros. unfold ring_next, WR_QUEUE_SIZE.
  pose proof (u16_range (x + 1)). destruct (Z.leb_spec 102400 (u16 (x + 1))); lia.
Qed.

Lemma ring_next_range x : 0 <= ring_next x < 2 ^ 16.
Proof.
  unfold ring_next; cbv zeta. destruct (_ <=? _); [lia|apply u16_range].
Qed.

(** Ring positions: equal modulo 2^16 and less than 2^16 apart means equal. *)
Lemma u16_inj a b c : 0 <= b < 2 ^ 16 -> 0 <= c < 2 ^ 16 ->
  u16 (a + b) = u16 (a + c) -> b = c.
Proof.
  intros Hb Hc E. unfold u16 in E. change (2 ^ 16) with 65536 in *.
  Z.div_mod_to_equations. lia.
Qed.

Lemma u16_add_u16 a b : u16 (u16 a + b) = u16 (a + b).
Proof. unfold u16. by rewrite Zplus_mod_idemp_l. Qed.

Lemma init_models : models wr_queue_init [].
Proof. split; simpl; [lia|done|done|done]. Qed.

Lemma push_entry_holds q recs :
  Z.of_nat (length recs) < 2 ^ 32 ->
  entry_holds
    (mkWr (u32 (Z.of_nat (length recs)))
       (if Z.of_nat (length recs) =? 0 then entry_sgq q (head q) else Live recs))
    recs.
Proof.
  intros Hlen. split; simpl; [by rewrite u32_small by lia|].
  intros Hne. destruct recs; [done|]. simpl. done.
Qed.

Lemma push_models q l recs :
  models q l -> Z.of_nat (length l) < CAPACITY -> Z.of_nat (length recs) < 2 ^ 32 ->
  models (wr_push q (Z.of_nat (length recs)) recs) (l ++ [recs]).
Proof.
  intros [Ht Hh Hs He] Hcap Hlen. unfold CAPACITY in *.
  assert (0 <= head q < 2 ^ 16) as Hhr by (rewrite Hh; apply u16_range).
  split; simpl; auto.
  - rewrite ring_next_u16, Hh, u16_add_u16 by done.
    rewrite length_app. simpl. f_equal. lia.
  - rewrite length_app. simpl. unfold CAPACITY. lia.
  - intros i x Hi. destruct (decide (i = length l)) as [->|Hne].
    + rewrite lookup_app_r in Hi by lia. rewrite Nat.sub_diag in Hi.
      injection Hi as <-. rewrite <- Hh, lookup_insert_eq.
      eexists. split; [done|]. by apply push_entry_holds.
    + assert (i < length l)%nat as Hlt.
      { apply lookup_lt_Some in Hi. rewrite length_app in Hi. simpl in Hi. lia. }
      rewrite lookup_app_l in Hi by lia.
      destruct (He i x Hi) as (e & Hq & Hh').
      exists e. split; [|done]. rewrite lookup_insert_ne; [done|].
      rewrite Hh. intros E. apply u16_inj in E; lia.
Qed.

Lemma pop_models q x l :
  models q (x :: l) ->
  exists q', wr_pop q = Ok (q', x) /\ models q' l.
Proof.
  intros [Ht Hh Hs He]. unfold CAPACITY in *.
  destruct (He 0%nat x eq_refl) as (e & Hq & Hn & Hl).
  rewrite Z.add_0_r, u16_small in Hq by lia.
  unfold wr_pop. rewrite Hq. simpl.
  assert (forall qq, (forall i, i <> tail q -> qq !! i = queue q !! i) ->
    models (mkWrQueue qq (head q) (ring_next (tail q))) l) as A.
  { intros qq Hqq. split; simpl.
    - apply ring_next_range.
    - rewrite ring_next_u16, u16_add_u16, Hh by done. simpl length. f_equal. lia.
    - simpl in Hs. unfold CAPACITY. lia.
    - intros i y Hi. destruct (He (S i) y Hi) as (e' & Hq' & Hy).
      exists e'. split; [|done].
      rewrite ring_next_u16, u16_add_u16 by done. rewrite Hqq.
      + rewrite <- Hq'. f_equal. f_equal. lia.
      + apply lookup_lt_Some in Hi. simpl in Hs.
        rewrite <- (u16_small (tail q)), <- (Z.add_0_r (tail q)) at 2 by lia.
        rewrite <- Z.add_assoc. intros E.
        apply u16_inj in E; lia. }
  rewrite Hn. destruct (Z.eqb_spec (Z.of_nat (length x)) 0) as [E|E].
  - destruct x; simpl in E; [|lia]. eexists. split; [done|]. by apply A.
  - rewrite Hl by (intros ->; done). rewrite take_n_all. simpl.
    eexists. split; [done|]. apply A. intros i Hi. by apply lookup_insert_ne.
Qed.

(** ** Runs of posts and retirements *)

Inductive ring_op : Type := RPush (recs : list sge_record) | RPop.

Fixpoint run_ring (q : wr_queue) (ops : list ring_op)
  : res (wr_queue * list (list sge_record)) :=
  match ops with
  | [] => Ok (q, [])
  | RPush recs :: ops' => run_ring (wr_push q (Z.of_nat (length recs)) recs) ops'
  | RPop :: ops' =>
      '(q', x) ← wr_pop q;
      '(q'', xs) ← run_ring q' ops';
      Ok (q'', x :: xs)
  end.

(** The specification: a first-in first-out queue of bounded size. *)
Fixpoint run_fifo (l : list (list sge_record)) (ops : list ring_op)
  : option (list (list sge_record) * list (list sge_record)) :=
  match ops with
  | [] => Some (l, [])
  | RPush recs :: ops' =>
      if (Z.of_nat (length l) <? CAPACITY) && (Z.of_nat (length recs) <? 2 ^ 32)
      then run_fifo (l ++ [recs]) ops' else None
  | RPop :: ops' =>
      match l with
      | [] => None
      | x :: l' =>
          match run_fifo l' ops' with
          | Some (l'', xs) => Some (l'', x :: xs)
          | None => None
          end
      end
  end.

Lemma run_ring_models ops : forall q l l' outs,
  models q l -> run_fifo l ops = Some (l', outs) ->
  exists q', run_ring q ops = Ok (q', outs) /\ models q' l'.
Proof.
  induction ops as [|[recs|] ops IH]; intros q l l' outs Hm Hf; simpl in *.
  - injection Hf as <- <-. by exists q.
  - split_if; [|done]. blia. eapply IH; [|exact Hf]. by apply push_models.
  - destruct l as [|x l]; [done|].
    destruct (run_fifo l ops) as [[l1 xs]|] eqn:E; [|done]. injection Hf as <- <-.
    destruct (pop_models _ _ _ Hm) as (q1 & -> & Hm1). simpl.
    destruct (IH _ _ _ _ Hm1 E) as (q2 & -> & Hm2). simpl. by exists q2.
Qed.

Lemma iter_push_models r n :
  Z.of_nat n <= CAPACITY ->
  models (Nat.iter n (fun q => wr_push q 1 [r]) wr_queue_init) (replicate n [r]).
Proof.
  induction n as [|n IH]; intros Hn; [apply init_models|].
  rewrite replicate_S_end. simpl.
  apply (push_models _ _ [r]); [apply IH; lia|rewrite length_replicate; lia|done].
Qed.

Lemma overflow_gen (n : nat) r r' :
  Z.of_nat n = 65536 ->
  exists q',
    wr_pop (wr_push (Nat.iter n (fun q => wr_push q 1 [r]) wr_queue_init) 1 [r'])
    = Ok (q', [r']).
Proof.
  intros Hn. destruct (iter_push_models r n) as [Ht Hh Hs He];
    [unfold CAPACITY; lia|].
  set (q := Nat.iter _ _ _) in *. clearbody q. rewrite length_replicate, Hn in Hh.
  assert (head q = tail q) as E.
  { rewrite Hh. unfold u16. Z.div_mod_to_equations. lia. }
  unfold wr_pop, wr_push. cbn [tail head queue].
  rewrite E, lookup_insert_eq. cbn. eauto.
Qed.

(** ** Properties *)

(** C32: as long as at most 65536 receives are outstanding, the ring of posted
    receives is a first-in first-out queue: whatever sequence of posts and
    retirements the client performs on a fresh ring, no access is invalid, each
    retirement yields the records of the oldest outstanding post, and the ring
    is left holding the receives the queue still holds. *)
Theorem wr_queue_refines_fifo ops l outs :
  run_fifo [] ops = Some (l, outs) ->
  exists q, run_ring wr_queue_init ops = Ok (q, outs) /\ models q l.
Proof. intros H. eapply run_ring_models; [apply init_models|exact H]. Qed.

Lemma wr_queue_refines_fifo_witness :
  exists q,
    run_ring wr_queue_init
      [RPush [mkSgeRecord 8 4096 8192]; RPush []; RPop;
       RPush [mkSgeRecord 4 100 200; mkSgeRecord 5 300 400]; RPop; RPop]
    = Ok (q, [[mkSgeRecord 8 4096 8192]; [];
              [mkSgeRecord 4 100 200; mkSgeRecord 5 300 400]])
    /\ models q [].
Proof. apply wr_queue_refines_fifo. vm_compute. reflexivity. Defined.

(** the ring holds 65536 receives, not [WR_QUEUE_SIZE] = 102400: [head] and
    [tail] are 16 bits wide, so the wrap-around test against [WR_QUEUE_SIZE]
    never fires, and after 65536 posts the next one overwrites the oldest
    outstanding receive; the next retirement then returns the records of the
    newest post. *)
Theorem wr_queue_overflow_at_65536 r r' :
  exists q',
    wr_pop (wr_push (Nat.iter (Z.to_nat 65536) (fun q => wr_push q 1 [r])
                       wr_queue_init) 1 [r'])
    = Ok (q', [r']).
Proof.
  apply overflow_gen. apply Z2Nat.id. lia.
Qed.
