(* ===== verification/Verbs.v ===== *)
(** * Work requests and completions

    The verbs structs the data path copies and rewrites (infiniband/verbs.h):
    [ibv_sge], [ibv_send_wr], [ibv_recv_wr], [ibv_wc].  Integers are kept as
    [Z]; the union [wr] of a send work request keeps its words at their
    offsets, so that its members overlap as in C. *)

From S2P Require Import Prelude.

Record ibv_sge : Type := mkSge {
  sge_addr : Z;
  sge_length : Z;
  sge_lkey : Z }.

(** The pointers that occur in a work request: an address of the process that
    posts it, or an element of the request area's arrays of work requests and
    scatter/gather entries. *)
Inductive ptr : Type :=
| PNull
| PAddr (a : Z)
| PWr (i : nat)
| PSge (k : nat).

Inductive ibv_qp_type : Type :=
| IBV_QPT_RC | IBV_QPT_UC | IBV_QPT_UD | IBV_QPT_OTHER (code : Z).

Definition is_ud (t : ibv_qp_type) : bool :=
  match t with IBV_QPT_UD => true | _ => false end.

(** [union { rdma; atomic; ud; } wr] by words: offset 0 holds [remote_addr] or
    the pointer [ah], offset 8 [rdma.rkey] or [ud.remote_qpn] (and the low half
    of [compare_add]), offset 12 [remote_qkey], then [swap] and [atomic.rkey]. *)
Record wr_union : Type := mkUnion {
  u_w0 : Z; u_d8 : Z; u_d12 : Z; u_w16 : Z; u_d24 : Z }.

Definition rdma_remote_addr (u : wr_union) : Z := u_w0 u.
Definition rdma_rkey (u : wr_union) : Z := u_d8 u.
Definition set_w0 (x : Z) (u : wr_union) : wr_union :=
  mkUnion x (u_d8 u) (u_d12 u) (u_w16 u) (u_d24 u).

(** [s_rest]: the XRC number and [bind_mw], which FreeFlow only copies. *)
Record ibv_send_wr : Type := mkSendWr {
  s_wr_id : Z;
  s_next : ptr;
  s_sg_list : ptr;
  s_num_sge : Z;
  s_opcode : Z;
  s_send_flags : Z;
  s_imm_data : Z;
  s_wr : wr_union;
  s_rest : list Z }.

Definition IBV_WR_RDMA_WRITE : Z := 0.
Definition IBV_WR_RDMA_WRITE_WITH_IMM : Z := 1.
Definition IBV_WR_SEND : Z := 2.
Definition IBV_WR_RDMA_READ : Z := 4.

Definition set_s_next (p : ptr) (w : ibv_send_wr) : ibv_send_wr :=
  mkSendWr (s_wr_id w) p (s_sg_list w) (s_num_sge w) (s_opcode w)
    (s_send_flags w) (s_imm_data w) (s_wr w) (s_rest w).
Definition set_s_sg_list (p : ptr) (w : ibv_send_wr) : ibv_send_wr :=
  mkSendWr (s_wr_id w) (s_next w) p (s_num_sge w) (s_opcode w)
    (s_send_flags w) (s_imm_data w) (s_wr w) (s_rest w).
Definition set_s_wr (u : wr_union) (w : ibv_send_wr) : ibv_send_wr :=
  mkSendWr (s_wr_id w) (s_next w) (s_sg_list w) (s_num_sge w) (s_opcode w)
    (s_send_flags w) (s_imm_data w) u (s_rest w).

Record ibv_recv_wr : Type := mkRecvWr {
  v_wr_id : Z;
  v_next : ptr;
  v_sg_list : ptr;
  v_num_sge : Z }.

Definition set_v_next (p : ptr) (w : ibv_recv_wr) : ibv_recv_wr :=
  mkRecvWr (v_wr_id w) p (v_sg_list w) (v_num_sge w).
Definition set_v_sg_list (p : ptr) (w : ibv_recv_wr) : ibv_recv_wr :=
  mkRecvWr (v_wr_id w) (v_next w) p (v_num_sge w).

(** [wc_rest]: the fields behind [opcode], which FreeFlow only copies. *)
Record ibv_wc : Type := mkWc {
  wc_wr_id : Z;
  wc_status : Z;
  wc_opcode : Z;
  wc_byte_len : Z;
  wc_rest : list Z }.

Definition IBV_WC_RECV : Z := Z.shiftl 1 7.

(** What the application hands to [ibv_post_send]: a chain of work requests,
    each with the scatter/gather array its [sg_list] points to and, for a UD
    queue pair, the handle of the address handle [wr.ud.ah] points to. *)
Record app_send_wr : Type := mkAppSend {
  as_wr : ibv_send_wr;
  as_sgl : list ibv_sge;
  as_ah : option Z }.

Record app_recv_wr : Type := mkAppRecv {
  ar_wr : ibv_recv_wr;
  ar_sgl : list ibv_sge }.

(** An application request is well formed when [num_sge] is the length of its
    scatter/gather array and the array's fields have their widths. *)
Definition sge_wf (s : ibv_sge) : Prop :=
  0 <= sge_addr s < 2 ^ 64 /\ 0 <= sge_length s < 2 ^ 32 /\
  0 <= sge_lkey s < 2 ^ 32.

Definition app_send_wf (w : app_send_wr) : Prop :=
  s_num_sge (as_wr w) = Z.of_nat (length (as_sgl w)) /\ Forall sge_wf (as_sgl w).

Definition app_recv_wf (w : app_recv_wr) : Prop :=
  v_num_sge (ar_wr w) = Z.of_nat (length (ar_sgl w)) /\ Forall sge_wf (ar_sgl w).

(** ** Work requests in general

    What the rewriting loops and the device's walk use of a work request of
    either kind. *)
Class WorkRequest (W : Type) : Type := {
  wq_next : W -> ptr;
  wq_sg_list : W -> ptr;
  wq_num_sge : W -> Z;
  wq_link : ptr -> ptr -> W -> W }.   (* sets [next] and [sg_list] *)

Class WorkRequestLaws (W : Type) `{WorkRequest W} : Prop := {
  wq_next_link : forall p q w, wq_next (wq_link p q w) = p;
  wq_sg_list_link : forall p q w, wq_sg_list (wq_link p q w) = q;
  wq_num_sge_link : forall p q w, wq_num_sge (wq_link p q w) = wq_num_sge w }.

#[global] Instance send_work_request : WorkRequest ibv_send_wr := {
  wq_next := s_next; wq_sg_list := s_sg_list; wq_num_sge := s_num_sge;
  wq_link := fun p q w => set_s_sg_list q (set_s_next p w) }.
#[global] Instance recv_work_request : WorkRequest ibv_recv_wr := {
  wq_next := v_next; wq_sg_list := v_sg_list; wq_num_sge := v_num_sge;
  wq_link := fun p q w => set_v_sg_list q (set_v_next p w) }.

#[global] Instance send_work_request_laws : WorkRequestLaws ibv_send_wr.
Proof. by split. Qed.
#[global] Instance recv_work_request_laws : WorkRequestLaws ibv_recv_wr.
Proof. by split. Qed.

(** Following the links from a work request on, as a device does: each work
    request with the entries its [sg_list] points to. *)
Fixpoint walk_chain {W} `{WorkRequest W} (fuel : nat) (wrs : list W)
  (sges : list ibv_sge) (p : ptr) : res (list (W * list ibv_sge)) :=
  match p with
  | PNull => Ok []
  | PWr i =>
      match fuel with
      | O => Spin
      | S fuel' =>
          w ← of_option (wrs !! i);
          l ← (match wq_sg_list w with
               | PSge k => take_n (wq_num_sge w) (drop k sges)
               | _ => if wq_num_sge w =? 0 then Ok [] else Ub
               end);
          rest ← walk_chain fuel' wrs sges (wq_next w);
          Ok ((w, l) :: rest)
      end
  | _ => Ub
  end.
