(* ===== verification/CtrlShm.v ===== *)
(** * The shared-memory control channel

    A queue pair, completion queue or shared receive queue has one
    [struct CtrlShmPiece]: a state word, a request area and a response area in
    memory shared by the client process and the router.

    - [request_router_shm] (libibverbs, freeflow.c) is the client's side: it
      posts the request by turning the state from IDLE to REQ_DONE and spins
      until the router has turned it to RSP_DONE; its caller resets it to IDLE.
    - Module [Handshake] is the protocol of the two sides as a step relation,
      with any number of client threads behind the piece's mutex. *)

From S2P Require Import Prelude FfTypes.

Inductive CtrlChannelState : Type := IDLE | REQ_DONE | RSP_DONE.

#[global] Instance CtrlChannelState_eq_dec : EqDecision CtrlChannelState.
Proof. solve_decision. Defined.

(** [Q] and [R]: what the request area and the response area hold behind their
    headers. *)
Record CtrlShmPiece (Q R : Type) : Type := mkCsp {
  state : CtrlChannelState;
  req_header : FfrRequestHeader;
  req : Q;
  rsp_size : Z;
  rsp : R }.
Arguments mkCsp {Q R}.
Arguments state {Q R}.
Arguments req_header {Q R}.
Arguments req {Q R}.
Arguments rsp_size {Q R}.
Arguments rsp {Q R}.

Section Piece.
Context {Q R : Type}.
Implicit Types c : CtrlShmPiece Q R.

Definition set_state (s : CtrlChannelState) c : CtrlShmPiece Q R :=
  mkCsp s (req_header c) (req c) (rsp_size c) (rsp c).
Definition set_req (h : FfrRequestHeader) (q : Q) c : CtrlShmPiece Q R :=
  mkCsp (state c) h q (rsp_size c) (rsp c).
Definition set_rsp (n : Z) (r : R) c : CtrlShmPiece Q R :=
  mkCsp (state c) (req_header c) (req c) n r.

(** The client's polling loop.  [sched] is what the other side does to the
    piece before each of the client's looks at the state; the loop is still
    spinning when it is used up. *)
Fixpoint request_router_shm (sched : list (CtrlShmPiece Q R -> CtrlShmPiece Q R))
  (csp : CtrlShmPiece Q R) : res (CtrlShmPiece Q R) :=
  match sched with
  | [] => Spin
  | env :: sched' =>
      let csp := env csp in
      match state csp with
      | IDLE => request_router_shm sched' (set_state REQ_DONE csp)
      | REQ_DONE => request_router_shm sched' csp
      | RSP_DONE => Ok csp
      end
  end.

(** A turn of the router on the piece: nothing, or, when a request is posted,
    the response [answer] computes.  A router that dies on the request leaves
    the piece as it is. *)
Definition router_turn (answer : CtrlShmPiece Q R -> res (CtrlShmPiece Q R))
  (c : CtrlShmPiece Q R) : CtrlShmPiece Q R :=
  match state c with
  | REQ_DONE =>
      match answer c with Ok c' => set_state RSP_DONE c' | _ => c end
  | _ => c
  end.

(** Waiting for a router that has not looked yet. *)
Lemma request_spin_busy answer (n : nat) : forall c c' sched,
  state c = REQ_DONE -> answer c = Ok c' ->
  request_router_shm (replicate n id ++ router_turn answer :: sched) c
  = Ok (set_state RSP_DONE c').
Proof.
  induction n as [|n IH]; intros c c' sched Hs Ha; simpl; unfold id, router_turn.
  - by rewrite Hs, Ha.
  - rewrite Hs. by apply IH.
Qed.

Lemma request_spin_idle answer (n : nat) c c' sched :
  state c = IDLE -> answer (set_state REQ_DONE c) = Ok c' ->
  request_router_shm (id :: replicate n id ++ router_turn answer :: sched) c
  = Ok (set_state RSP_DONE c').
Proof.
  intros Hs Ha. simpl. unfold id at 1 2. rewrite Hs. by apply request_spin_busy.
Qed.

(** A piece left in RSP_DONE is answered at once, whatever the request. *)
Lemma request_stale (c : CtrlShmPiece Q R) sched :
  state c = RSP_DONE -> request_router_shm (id :: sched) c = Ok c.
Proof. intros Hs. simpl. unfold id. by rewrite Hs. Qed.

End Piece.

(** ** The protocol *)

Module Handshake.
Section Handshake.
Context {Q R : Type} (H : Q -> R -> Prop).   (* the router's handler *)

(** Where a client thread is: outside of the piece's critical section; about to
    write its request; in [request_router_shm]; about to read the response;
    about to release the mutex. *)
Inductive cpc : Type :=
| COut | CFill (q : Q) | CSpin (q : Q) | CRead (q : Q) | CUnlock.

Inductive rpc : Type := RPoll | RWork (q : Q).

Record sys : Type := mkSys {
  st : CtrlChannelState;
  area_req : option Q;
  area_rsp : option R;
  threads : nat -> cpc;
  mutex : option nat;
  router : rpc;
  served : list Q;              (* requests the router has executed *)
  returned : list (Q * R) }.    (* what the calls returned *)

Definition upd (f : nat -> cpc) (t : nat) (p : cpc) : nat -> cpc :=
  fun x => if Nat.eqb x t then p else f x.

Inductive step : sys -> sys -> Prop :=
| s_lock s t q :
    threads s t = COut -> mutex s = None ->
    step s (mkSys (st s) (area_req s) (area_rsp s) (upd (threads s) t (CFill q))
              (Some t) (router s) (served s) (returned s))
| s_fill s t q :
    threads s t = CFill q ->
    step s (mkSys (st s) (Some q) (area_rsp s) (upd (threads s) t (CSpin q))
              (mutex s) (router s) (served s) (returned s))
| s_post s t q :
    threads s t = CSpin q -> st s = IDLE ->
    step s (mkSys REQ_DONE (area_req s) (area_rsp s) (threads s)
              (mutex s) (router s) (served s) (returned s))
| s_done s t q :
    threads s t = CSpin q -> st s = RSP_DONE ->
    step s (mkSys (st s) (area_req s) (area_rsp s) (upd (threads s) t (CRead q))
              (mutex s) (router s) (served s) (returned s))
| s_read s t q r :
    threads s t = CRead q -> area_rsp s = Some r ->
    step s (mkSys IDLE (area_req s) (area_rsp s) (upd (threads s) t CUnlock)
              (mutex s) (router s) (served s) (returned s ++ [(q, r)]))
| s_unlock s t :
    threads s t = CUnlock ->
    step s (mkSys (st s) (area_req s) (area_rsp s) (upd (threads s) t COut)
              None (router s) (served s) (returned s))
| s_take s q :
    router s = RPoll -> st s = REQ_DONE -> area_req s = Some q ->
    step s (mkSys (st s) (area_req s) (area_rsp s) (threads s)
              (mutex s) (RWork q) (served s) (returned s))
| s_answer s q r :
    router s = RWork q -> H q r ->
    step s (mkSys RSP_DONE (area_req s) (Some r) (threads s)
              (mutex s) RPoll (served s ++ [q]) (returned s)).

(** [initCtrlShm]: the area is zeroed and IDLE. *)
Definition init : sys :=
  mkSys IDLE None None (fun _ => COut) None RPoll [] [].

Inductive reachable : sys -> Prop :=
| r_init : reachable init
| r_step s s' : reachable s -> step s s' -> reachable s'.

(** At most one thread is inside, and it is the mutex's owner. *)
Definition excl (s : sys) : Prop :=
  forall t, threads s t <> COut -> mutex s = Some t.

(** The phase of the exchange, with what each side may rely on. *)
Inductive phase (s : sys) : Prop :=
| ph_idle :                        (* no request is posted *)
    st s = IDLE -> router s = RPoll -> served s = map fst (returned s) ->
    (forall t q, threads s t <> CRead q) ->
    (forall t q, threads s t = CSpin q -> area_req s = Some q) -> phase s
| ph_req q t :                     (* the request [q] of thread [t] is posted *)
    st s = REQ_DONE -> threads s t = CSpin q -> area_req s = Some q ->
    (router s = RPoll \/ router s = RWork q) ->
    served s = map fst (returned s) -> phase s
| ph_rsp q t r :                   (* the response is there, not yet read *)
    st s = RSP_DONE -> threads s t = CSpin q \/ threads s t = CRead q ->
    area_rsp s = Some r -> H q r -> router s = RPoll ->
    served s = map fst (returned s) ++ [q] -> phase s.

Definition good_returns (s : sys) : Prop :=
  Forall (fun qr => H (fst qr) (snd qr)) (returned s).

Record invariant (s : sys) : Prop := {
  i_excl : excl s;
  i_phase : phase s;
  i_good : good_returns s }.

Lemma upd_eq f t p : upd f t p t = p.
Proof. unfold upd. by rewrite Nat.eqb_refl. Qed.
Lemma upd_ne f t t' p : t' <> t -> upd f t p t' = f t'.
Proof. unfold upd. intros. by destruct (Nat.eqb_spec t' t). Qed.

Lemma excl_same s t t' : excl s -> threads s t <> COut -> threads s t' <> COut -> t = t'.
Proof. intros He H1 H2. apply He in H1, H2. congruence. Qed.

Lemma excl_step s s' : excl s -> step s s' -> excl s'.
Proof.
  intros He Hs t'. inversion Hs; subst; simpl; auto;
    destruct (decide (t' = t)) as [->|Hne]; rewrite ?upd_eq, ?(upd_ne _ _ t') by done;
    try done; intros Ht; try (by apply He; congruence).
  - specialize (He t' Ht). congruence.
  - exfalso. apply Hne. apply (excl_same s); auto; congruence.
Qed.

(** Tactic: the thread that makes the step is the one the phase speaks of. *)
Ltac same_thread He :=
  match goal with
  | H1 : threads ?s ?t = _, H2 : threads ?s ?t' = _ |- _ =>
      let E := fresh in
      assert (t = t') as E by (apply (excl_same s); auto; congruence); subst
  end.

Ltac by_thread :=
  intros t' q' Ht';
  match goal with
  | t : nat |- _ =>
      destruct (decide (t' = t)) as [->|];
      [rewrite ?upd_eq in Ht'|rewrite ?(upd_ne _ _ t') in Ht' by done]
  end; try congruence; eauto;
  try (match goal with
       | D : forall t q, threads _ t <> CRead q |- False => by eapply D
       end).

Lemma init_invariant : invariant init.
Proof. split; [by intros t|by apply ph_idle|constructor]. Qed.

(** Steps of a client thread, by the phase they happen in. *)
Lemma phase_lock s t q :
  excl s -> phase s -> threads s t = COut -> mutex s = None ->
  phase (mkSys (st s) (area_req s) (area_rsp s) (upd (threads s) t (CFill q))
           (Some t) (router s) (served s) (returned s)).
Proof.
  intros He Hp Ht Hm. destruct Hp as [A B C D E|q' t' A B|q' t' r A B].
  - apply ph_idle; simpl; auto; by_thread.
  - assert (mutex s = Some t') by (apply He; congruence). congruence.
  - assert (mutex s = Some t') by (apply He; destruct B; congruence). congruence.
Qed.

Lemma phase_fill s t q :
  excl s -> phase s -> threads s t = CFill q ->
  phase (mkSys (st s) (Some q) (area_rsp s) (upd (threads s) t (CSpin q))
           (mutex s) (router s) (served s) (returned s)).
Proof.
  intros He Hp Ht. destruct Hp as [A B C D E|q' t' A B|q' t' r A [B|B]].
  - apply ph_idle; simpl; auto; by_thread.
    exfalso. same_thread He. done.
  - same_thread He. congruence.
  - same_thread He. congruence.
  - same_thread He. congruence.
Qed.

Lemma phase_done s t q :
  excl s -> phase s -> threads s t = CSpin q -> st s = RSP_DONE ->
  phase (mkSys (st s) (area_req s) (area_rsp s) (upd (threads s) t (CRead q))
           (mutex s) (router s) (served s) (returned s)).
Proof.
  intros He Hp Ht Hs. destruct Hp as [A|q' t' A|q' t' r A [B|B] C D E F];
    try congruence; same_thread He; [|congruence].
  assert (q = q') as <- by congruence.
  eapply (ph_rsp _ q t r); simpl; rewrite ?upd_eq; auto.
Qed.

Lemma phase_read s t q r :
  excl s -> phase s -> threads s t = CRead q -> area_rsp s = Some r ->
  phase (mkSys IDLE (area_req s) (area_rsp s) (upd (threads s) t CUnlock)
           (mutex s) (router s) (served s) (returned s ++ [(q, r)])) /\ H q r.
Proof.
  intros He Hp Ht Hr. destruct Hp as [A B C D E|q' t' A B|q' t' r' A [B|B] C D E F].
  - by apply D in Ht.
  - same_thread He. congruence.
  - same_thread He. congruence.
  - same_thread He. assert (q = q') as <- by congruence.
    assert (r = r') as <- by congruence. split; [|done].
    apply ph_idle; simpl; auto.
    + by rewrite map_app, F.
    + by_thread. same_thread He. done.
    + by_thread. exfalso. same_thread He. done.
Qed.

Lemma phase_unlock s t :
  excl s -> phase s -> threads s t = CUnlock ->
  phase (mkSys (st s) (area_req s) (area_rsp s) (upd (threads s) t COut)
           None (router s) (served s) (returned s)).
Proof.
  intros He Hp Ht. destruct Hp as [A B C D E|q' t' A B|q' t' r A [B|B]].
  - apply ph_idle; simpl; auto; by_thread.
  - same_thread He. congruence.
  - same_thread He. congruence.
  - same_thread He. congruence.
Qed.

Lemma phase_post s t q :
  excl s -> phase s -> threads s t = CSpin q -> st s = IDLE ->
  phase (mkSys REQ_DONE (area_req s) (area_rsp s) (threads s)
           (mutex s) (router s) (served s) (returned s)).
Proof.
  intros He Hp Ht Hs. destruct Hp as [A B C D E|q' t' A|q' t' r A]; try congruence.
  eapply (ph_req _ q t); simpl; eauto.
Qed.

Lemma phase_router s s' :
  phase s ->
  (exists q, router s = RPoll /\ st s = REQ_DONE /\ area_req s = Some q /\
     s' = mkSys (st s) (area_req s) (area_rsp s) (threads s)
            (mutex s) (RWork q) (served s) (returned s)) \/
  (exists q r, router s = RWork q /\ H q r /\
     s' = mkSys RSP_DONE (area_req s) (Some r) (threads s)
            (mutex s) RPoll (served s ++ [q]) (returned s)) ->
  phase s'.
Proof.
  intros Hp [(q & Hr & Hs & Hq & ->)|(q & r & Hr & HH & ->)].
  - destruct Hp as [A|q' t' A B C D E|q' t' r A]; try congruence.
    assert (q = q') as <- by congruence. eapply (ph_req _ q t'); simpl; auto.
  - destruct Hp as [A B|q' t' A B C [D|D] E|q' t' r' A B C D E]; try congruence.
    assert (q = q') as <- by congruence.
    eapply (ph_rsp _ q t' r); simpl; auto. by rewrite E.
Qed.

Lemma step_invariant s s' : invariant s -> step s s' -> invariant s'.
Proof.
  intros [He Hp Hg] Hs. split; [by eapply excl_step| |].
  - inversion Hs; subst; eauto using phase_lock, phase_fill, phase_post, phase_done,
      phase_unlock; try (eapply phase_read; eauto).
    + eapply phase_router; [done|]. left. eauto 6.
    + eapply phase_router; [done|]. right. eauto 6.
  - unfold good_returns in *. inversion Hs; subst; simpl; auto.
    apply Forall_app. split; [done|]. constructor; [|constructor]. simpl.
    eapply phase_read; eauto.
Qed.

Lemma reachable_invariant s : reachable s -> invariant s.
Proof. induction 1; eauto using init_invariant, step_invariant. Qed.

(** ** Properties *)

(** C4: the shared-memory channel executes every request exactly once and gives
    each call the response to its own request.  In every reachable state of any
    number of client threads and the router, each value a call has returned is
    one the handler gives for that call's request, and the requests the router
    has executed are, in order, those of the calls that have returned, followed
    by at most one whose response is in the area and has not been read yet. *)
Theorem handshake_exactly_once s :
  reachable s ->
  Forall (fun qr => H (fst qr) (snd qr)) (returned s) /\
  (served s = map fst (returned s) \/
   exists q r, served s = map fst (returned s) ++ [q] /\
     st s = RSP_DONE /\ area_rsp s = Some r /\ H q r).
Proof.
  intros Hr. apply reachable_invariant in Hr as [He Hp Hg]. split; [done|].
  destruct Hp as [| |q t r]; eauto 8.
Qed.

(** C6: mutual exclusion on the areas of the shared-memory channel.  In every
    reachable state, when a client thread is about to write the request area or
    to read the response area, the router is not working on a request; and no
    two client threads are inside of the channel. *)
Theorem handshake_exclusive s t :
  reachable s ->
  ((exists q, threads s t = CFill q \/ threads s t = CRead q) -> router s = RPoll) /\
  (forall t', threads s t <> COut -> threads s t' <> COut -> t = t').
Proof.
  intros Hr. apply reachable_invariant in Hr as [He Hp _].
  split; [|intros t'; by apply excl_same].
  intros (q & Hq). destruct Hp as [|q' t' A B C D|q' t' r]; auto.
  assert (t = t') as -> by (apply (excl_same s); auto; destruct Hq; congruence).
  destruct Hq; congruence.
Qed.

End Handshake.

(** ** The code takes the protocol's steps *)

Section Simulation.
Context {Q R : Type} (H : Q -> R -> Prop).
Context (answer : CtrlShmPiece Q R -> res (CtrlShmPiece Q R)).
Implicit Types c : CtrlShmPiece Q R.

(** What the handler of the protocol is to the router's code. *)
Definition handles : Prop := forall c c', answer c = Ok c' -> H (req c) (rsp c').

(** The piece [c] while thread [t] spins on it with the request [q]. *)
Record spinning (t : nat) (q : Q) c (s : sys) : Prop := {
  sp_reach : reachable H s;
  sp_thread : threads s t = CSpin q;
  sp_state : st s = state c;
  sp_router : router s = RPoll;
  sp_req : state c <> RSP_DONE -> area_req s = Some (req c);
  sp_rsp : state c = RSP_DONE -> area_rsp s = Some (rsp c) }.

(** A turn of the router is nothing, or taking the request and answering it. *)
Lemma turn_simulated t q c s :
  handles -> spinning t q c s ->
  exists s', spinning t q (router_turn answer c) s' /\ returned s' = returned s.
Proof.
  intros Hh Hsp. pose proof Hsp as [Hr Ht Hs Ho Hq Hp]. unfold router_turn.
  destruct (state c) eqn:Ec; [by exists s| |by exists s].
  destruct (answer c) as [c'| | |] eqn:Ea; [|by exists s..].
  pose proof (r_step _ _ _ Hr (s_take H s (req c) Ho Hs (Hq ltac:(done)))) as Hr1.
  exists (mkSys RSP_DONE (area_req s) (Some (rsp c')) (threads s) (mutex s) RPoll
    (served s ++ [req c]) (returned s)). split; [split; [|done..]|done].
  match type of Hr1 with reachable _ ?x =>
    exact (r_step _ _ _ Hr1 (s_answer H x (req c) (rsp c') eq_refl (Hh _ _ Ea))) end.
Qed.

(** The client's loop, with turns of the router in between. *)
Lemma loop_simulated t q sched : forall c c' s,
  handles -> Forall (fun f => f = id \/ f = router_turn answer) sched ->
  spinning t q c s -> request_router_shm sched c = Ok c' ->
  exists s', spinning t q c' s' /\ state c' = RSP_DONE /\ returned s' = returned s.
Proof.
  induction sched as [|f sched IH]; intros c c' s Hh Hf Hsp E; [done|].
  apply Forall_cons in Hf as [Hf Hfs]. cbn in E.
  assert (exists s1, spinning t q (f c) s1 /\ returned s1 = returned s) as (s1 & Hs1 & <-).
  { destruct Hf as [->| ->]; [by exists s|by apply turn_simulated]. }
  destruct (state (f c)) eqn:Es.
  - pose proof Hs1 as [Hr Ht Hst Ho Hq Hp].
    destruct (IH (set_state REQ_DONE (f c)) c' (mkSys REQ_DONE (area_req s1) (area_rsp s1)
      (threads s1) (mutex s1) (router s1) (served s1) (returned s1)))
      as (s' & Hs' & Hd & Hret); [done..| |done|by exists s'].
    split; [|done..|intros _; apply Hq; congruence|done].
    apply (r_step _ _ _ Hr), (s_post H s1 t q Ht). congruence.
  - by apply (IH (f c) c' s1).
  - injection E as <-. by exists s1.
Qed.

(** C7: The client's loop and the router's turns are steps of the protocol: a
    thread that spins on a piece with its request, while the router takes its turns
    on it in any order and number, ends where the protocol lets it read a response
    that the handler gives for exactly its request; and it does end once the router
    has taken one turn on the posted request. *)
Theorem call_follows_protocol t q c s :
  handles -> spinning t q c s ->
  (forall sched c', Forall (fun f => f = id \/ f = router_turn answer) sched ->
     request_router_shm sched c = Ok c' ->
     exists s', reachable H s' /\ threads s' t = CRead q /\ area_rsp s' = Some (rsp c') /\
       H q (rsp c') /\ returned s' = returned s) /\
  (forall n c1, state c = IDLE -> answer (set_state REQ_DONE c) = Ok c1 ->
     request_router_shm (id :: replicate n id ++ [router_turn answer]) c
     = Ok (set_state RSP_DONE c1)).
Proof.
  intros Hh Hsp. split; [|intros; by apply request_spin_idle].
  intros sched c' Hf E.
  destruct (loop_simulated t q sched c c' s Hh Hf Hsp E) as (s1 & Hs1 & Hd & Hret).
  destruct Hs1 as [Hr Ht Hst Ho _ Hp]. specialize (Hp Hd). rewrite Hd in Hst.
  pose proof (reachable_invariant _ _ Hr) as [Hx Hph _].
  pose proof (r_step _ _ _ Hr (s_done H s1 t q Ht Hst)) as Hr'.
  eexists. split; [exact Hr'|]. cbn. rewrite upd_eq. split_and!; try done.
  destruct Hph as [| |q' t' r A B C D]; [congruence..|].
  assert (t = t') as <- by (apply (excl_same s1); auto; destruct B; congruence).
  destruct B as [B|B]; congruence.
Qed.
End Simulation.

(** A run of two threads over a handler that adds one. *)
Definition succ_handler (q r : Z) : Prop := r = q + 1.

(** [advance E c]: extends the run [E] by the step [c]. *)
Tactic Notation "advance" hyp(E) uconstr(c) :=
  eapply r_step in E; [|eapply c; reflexivity]; cbn in E.

Lemma reach1 : exists s, reachable succ_handler s /\
  returned s = [(7, 8)] /\ served s = [7; 9] /\ threads s 1%nat = CRead 9.
Proof.
  pose proof (r_init succ_handler) as E.
  advance E (s_lock _ _ 0 7).
  advance E (s_fill _ _ 0 7).
  advance E (s_post _ _ 0 7).
  advance E (s_take _ _ 7).
  advance E (s_answer _ _ 7 8).
  advance E (s_done _ _ 0 7).
  advance E (s_read _ _ 0 7 8).
  advance E (s_unlock _ _ 0).
  advance E (s_lock _ _ 1 9).
  advance E (s_fill _ _ 1 9).
  advance E (s_post _ _ 1 9).
  advance E (s_take _ _ 9).
  advance E (s_answer _ _ 9 10).
  advance E (s_done _ _ 1 9).
  eexists. split; [exact E|]. vm_compute. auto.
Qed.

Lemma handshake_exactly_once_witness :
  exists s, reachable succ_handler s /\ served s = [7; 9] /\
    Forall (fun qr => succ_handler (fst qr) (snd qr)) (returned s).
Proof.
  destruct reach1 as (s & Hr & Hret & Hs & _). exists s.
  split; [exact Hr|]. split; [exact Hs|].
  exact (proj1 (handshake_exactly_once succ_handler s Hr)).
Defined.

Lemma handshake_exclusive_witness :
  exists s, reachable succ_handler s /\ threads s 1%nat = CRead 9 /\
    router s = RPoll.
Proof.
  destruct reach1 as (s & Hr & _ & _ & Ht). exists s.
  split; [exact Hr|]. split; [exact Ht|].
  apply (proj1 (handshake_exclusive succ_handler s 1%nat Hr)). exists 9. by right.
Defined.

Lemma call_follows_protocol_witness :
  let answer c := Ok (set_rsp 4 (req c + 1) c) in
  let c := mkCsp IDLE (mkReqHeader 0 IBV_POLL_CQ 0) 7 0 0 in
  exists c' s', request_router_shm (id :: replicate 3 id ++ [router_turn answer]) c = Ok c' /\
    reachable succ_handler s' /\ threads s' 0%nat = CRead 7 /\ area_rsp s' = Some 8.
Proof.
  intros answer c. pose proof (r_init succ_handler) as E.
  advance E (s_lock _ _ 0 7).
  advance E (s_fill _ _ 0 7).
  match type of E with reachable _ ?x =>
    assert (spinning succ_handler 0 7 c x) as Hsp by (split; done || exact E) end.
  assert (handles succ_handler answer) as Hh by (by intros c0 c1 [= <-]).
  destruct (call_follows_protocol succ_handler answer 0 7 c _ Hh Hsp) as [Hsim Hret].
  pose proof (Hret 3%nat (set_rsp 4 8 (set_state REQ_DONE c)) eq_refl eq_refl) as Ec.
  assert (Forall (fun f => f = id \/ f = router_turn answer)
    (id :: replicate 3 id ++ [router_turn answer])) as Hf by (repeat constructor; auto).
  destruct (Hsim _ _ Hf Ec) as (s' & Hr & Ht & Hp & _).
  exists (set_state RSP_DONE (set_rsp 4 8 (set_state REQ_DONE c))), s'. by rewrite Ec.
Defined.

End Handshake.
