(* ===== verification/Client.v ===== *)
(** * State of the verbs client

    The process-wide tables of libibverbs' freeflow.c, the requests and
    responses that travel through the shared-memory pieces, and what the three
    posting calls and the polling call of cmd.c share: choosing the transport
    and locating the failed work request. *)

From S2P Require Import Prelude CLayout FfTypes Verbs MemPool WrQueue CtrlShm.

(** [struct ibv_post_send] / [ibv_post_recv] / [ibv_post_srq_recv]: the fields
    FreeFlow fills ([c_handle] is [qp_handle] or [srq_handle]). *)
Record post_cmd : Type := mkCmd {
  c_handle : Z;
  c_wr_count : Z;
  c_sge_count : Z }.

(** The request area of a posting call: the command and behind it the arrays of
    work requests, of scatter/gather entries and (UD) of address handles. *)
Record send_req : Type := mkSendReq {
  sr_cmd : post_cmd;
  sr_wr : list ibv_send_wr;
  sr_sge : list ibv_sge;
  sr_ah : list Z }.

Record recv_req : Type := mkRecvReq {
  rr_cmd : post_cmd;
  rr_wr : list ibv_recv_wr;
  rr_sge : list ibv_sge }.

Inductive qp_req : Type :=
| QNone
| QSend (r : send_req)
| QRecv (r : recv_req).

Record poll_req : Type := mkPollReq { pq_cq_handle : Z; pq_ne : Z }.

(** [IBV_POST_SEND_RSP], [IBV_POST_RECV_RSP], [IBV_POST_SRQ_RECV_RSP]. *)
Record post_rsp : Type := mkPostRsp { ret_errno : Z; bad_wr : Z }.

Abbreviation qp_piece := (CtrlShmPiece qp_req post_rsp).
Abbreviation cq_piece := (CtrlShmPiece poll_req (list ibv_wc)).

(** The tables of freeflow.c.  A table of pointers is a finite map (no entry:
    null); [map_cq_to_srq] has an entry for every index once [init_sock] ran. *)
Record client (M : Type) : Type := mkClient {
  ffr_client_id : Z;
  map_lkey_to_mrshm : M;
  memory : mem;
  qp_shm_map : gmap Z qp_piece;
  cq_shm_map : gmap Z cq_piece;
  srq_shm_map : gmap Z qp_piece;
  map_cq_to_wr_queue : gmap Z wr_queue;
  map_cq_to_srq : gmap Z Z;
  map_srq_to_wr_queue : gmap Z wr_queue;
  srq_tail_locked : gset Z }.
Arguments mkClient {M}.
Arguments ffr_client_id {M}.
Arguments map_lkey_to_mrshm {M}.
Arguments memory {M}.
Arguments qp_shm_map {M}.
Arguments cq_shm_map {M}.
Arguments srq_shm_map {M}.
Arguments map_cq_to_wr_queue {M}.
Arguments map_cq_to_srq {M}.
Arguments map_srq_to_wr_queue {M}.
Arguments srq_tail_locked {M}.

Section Setters.
Context {M : Type}.
Implicit Types c : client M.

Definition set_memory (m : mem) c : client M :=
  mkClient (ffr_client_id c) (map_lkey_to_mrshm c) m (qp_shm_map c) (cq_shm_map c)
    (srq_shm_map c) (map_cq_to_wr_queue c) (map_cq_to_srq c)
    (map_srq_to_wr_queue c) (srq_tail_locked c).
Definition set_qp_piece (h : Z) (p : qp_piece) c : client M :=
  mkClient (ffr_client_id c) (map_lkey_to_mrshm c) (memory c)
    (<[h := p]> (qp_shm_map c)) (cq_shm_map c)
    (srq_shm_map c) (map_cq_to_wr_queue c) (map_cq_to_srq c)
    (map_srq_to_wr_queue c) (srq_tail_locked c).
Definition set_cq_piece (h : Z) (p : cq_piece) c : client M :=
  mkClient (ffr_client_id c) (map_lkey_to_mrshm c) (memory c)
    (qp_shm_map c) (<[h := p]> (cq_shm_map c))
    (srq_shm_map c) (map_cq_to_wr_queue c) (map_cq_to_srq c)
    (map_srq_to_wr_queue c) (srq_tail_locked c).
Definition set_srq_piece (h : Z) (p : qp_piece) c : client M :=
  mkClient (ffr_client_id c) (map_lkey_to_mrshm c) (memory c)
    (qp_shm_map c) (cq_shm_map c)
    (<[h := p]> (srq_shm_map c)) (map_cq_to_wr_queue c) (map_cq_to_srq c)
    (map_srq_to_wr_queue c) (srq_tail_locked c).
Definition set_cq_queue (h : Z) (q : wr_queue) c : client M :=
  mkClient (ffr_client_id c) (map_lkey_to_mrshm c) (memory c)
    (qp_shm_map c) (cq_shm_map c)
    (srq_shm_map c) (<[h := q]> (map_cq_to_wr_queue c)) (map_cq_to_srq c)
    (map_srq_to_wr_queue c) (srq_tail_locked c).
Definition set_srq_queue (h : Z) (q : wr_queue) c : client M :=
  mkClient (ffr_client_id c) (map_lkey_to_mrshm c) (memory c)
    (qp_shm_map c) (cq_shm_map c)
    (srq_shm_map c) (map_cq_to_wr_queue c) (map_cq_to_srq c)
    (<[h := q]> (map_srq_to_wr_queue c)) (srq_tail_locked c).
Definition set_tail_locked (l : gset Z) c : client M :=
  mkClient (ffr_client_id c) (map_lkey_to_mrshm c) (memory c)
    (qp_shm_map c) (cq_shm_map c)
    (srq_shm_map c) (map_cq_to_wr_queue c) (map_cq_to_srq c)
    (map_srq_to_wr_queue c) l.
Definition set_lkeys (l : M) c : client M :=
  mkClient (ffr_client_id c) l (memory c)
    (qp_shm_map c) (cq_shm_map c)
    (srq_shm_map c) (map_cq_to_wr_queue c) (map_cq_to_srq c)
    (map_srq_to_wr_queue c) (srq_tail_locked c).
Definition set_cq_srq (h : Z) (s : Z) c : client M :=
  mkClient (ffr_client_id c) (map_lkey_to_mrshm c) (memory c)
    (qp_shm_map c) (cq_shm_map c)
    (srq_shm_map c) (map_cq_to_wr_queue c) (<[h := s]> (map_cq_to_srq c))
    (map_srq_to_wr_queue c) (srq_tail_locked c).
End Setters.

(** An entry of one of the [MAP_SIZE] tables; [Ub]: index out of range, or a
    null pointer that is about to be dereferenced. *)
Definition table_get {A} (t : gmap Z A) (i : Z) : res A :=
  if (0 <=? i) && (i <? MAP_SIZE) then of_option (t !! i) else Ub.

(** ** The transport of a data-path call

    [t_disable]: the value of the environment variable DISABLE_FASTPATH, when
    it is set.  [t_sched]: what the router does to the piece while the call
    spins on it.  [t_slow]: the exchange over the Unix socket. *)
Record transport (P : Type) : Type := mkTransport {
  t_disable : option Z;
  t_sched : list (P -> P);
  t_slow : P -> res P }.
Arguments mkTransport {P}.
Arguments t_disable {P}.
Arguments t_sched {P}.
Arguments t_slow {P}.

(** [uint8_t disable_fastpath = ... atoi(getenv("DISABLE_FASTPATH"))] *)
Definition disable_fastpath (v : option Z) : Z :=
  match v with None => 0 | Some x => u8 x end.

Definition exchange {Q R} (t : transport (CtrlShmPiece Q R))
  (csp : CtrlShmPiece Q R) : res (CtrlShmPiece Q R) :=
  if disable_fastpath (t_disable t) =? 0
  then request_router_shm (t_sched t) csp
  else t_slow t csp.

(** ** Locating the failed request *)

(** [while (--n) i = i->next;] on a chain: the rest of the chain from the node
    [n] steps further on. *)
Fixpoint chain_walk {A} (n : nat) (l : list A) : res (list A) :=
  match n with
  | O => Ok l
  | S n' => match l with [] => Ub | _ :: l' => chain_walk n' l' end
  end.

(** What the call stores through its [bad_wr] argument ([None]: nothing).  A
    pointer into the chain is the rest of the chain from there. *)
Definition find_bad {A} (wr : list A) (r : post_rsp) : res (option (list A)) :=
  let wr_count := bad_wr r in
  if negb (wr_count =? 0) then
    i ← chain_walk (Z.to_nat (wr_count - 1)) wr; Ok (Some i)
  else if negb (ret_errno r =? 0) then Ok (Some wr)
  else Ok None.

Lemma chain_walk_drop {A} (n : nat) (l : list A) :
  (n <= length l)%nat -> chain_walk n l = Ok (drop n l).
Proof.
  revert l. induction n as [|n IH]; intros [|x l] Hn; simpl in *; try done; try lia.
  apply IH. lia.
Qed.
