(* ===== verification/PostSend.v ===== *)
(** * Posting sends: [ibv_cmd_post_send]

    The client copies the chain of work requests, their scatter/gather entries
    and (UD) the handles of their address handles into the queue pair's request
    area, stages the payload in shared memory, and replaces every address by
    its offset in the memory region (cmd.c). *)

From S2P Require Import Prelude CLayout FfTypes Verbs MemPool CtrlShm Client.

Record ibv_qp : Type := mkQp {
  qp_handle : Z;
  qp_type : ibv_qp_type;
  qp_recv_cq_handle : Z }.

Section PostSend.
Context {M : Type} `{LkeyMap M}.
Implicit Types c : client M.

(** The first loop: [wr_count] and [sge_count] are [uint32_t]. *)
Definition count_send (wr : list app_send_wr) : Z * Z :=
  foldl (fun '(wr_count, sge_count) i =>
           (u32 (wr_count + 1), u32 (sge_count + s_num_sge (as_wr i)))) (0, 0) wr.

(** One scatter/gather entry: the payload is staged in shared memory unless the
    region's shared memory is mapped over the buffer itself, and the address
    becomes an offset. *)
Definition stage_sge (lk : M) (m : mem) (s : ibv_sge) : res (mem * ibv_sge) :=
  p ← of_option (lk_get lk (sge_lkey s));
  let addr := sge_addr s in
  let dst := u64 (shm_ptr p + (addr - mr p)) in
  let m' := if negb (dst =? addr) then memcpy m dst addr (sge_length s) else m in
  Ok (m', mkSge (u64 (addr - mr p)) (sge_length s) (sge_lkey s)).

Fixpoint stage_sges (lk : M) (m : mem) (l : list ibv_sge) : res (mem * list ibv_sge) :=
  match l with
  | [] => Ok (m, [])
  | s :: l' =>
      '(m1, s') ← stage_sge lk m s;
      '(m2, l'') ← stage_sges lk m1 l';
      Ok (m2, s' :: l'')
  end.

(** The second loop, over the chain: the arrays it writes, and the memory. *)
Fixpoint fill_send (lk : M) (t : ibv_qp_type) (m : mem) (wr : list app_send_wr)
  : res (mem * list ibv_send_wr * list ibv_sge * list Z) :=
  match wr with
  | [] => Ok (m, [], [], [])
  | i :: wr' =>
      let tmp := as_wr i in
      ah ← (if is_ud t then h ← of_option (as_ah i); Ok [h] else Ok []);
      '(m1, s) ← (if negb (s_num_sge tmp =? 0)
                  then l ← take_n (s_num_sge tmp) (as_sgl i); stage_sges lk m l
                  else Ok (m, []));
      '(m2, ws, ss, ahs) ← fill_send lk t m1 wr';
      Ok (m2, tmp :: ws, s ++ ss, ah ++ ahs)
  end.

(** Bytes of the request behind the header. *)
Definition send_body_bytes (wr_count sge_count ah_count : Z) : Z :=
  sizeof t_ibv_post_send + wr_count * sizeof t_ibv_send_wr
  + sge_count * sizeof t_ibv_sge + ah_count * sizeof I32.

(** The whole call: the new state, what it stores through [bad_wr], and its
    result. *)
Definition ibv_cmd_post_send (t : transport qp_piece) c (ibqp : ibv_qp)
  (wr : list app_send_wr) : res (client M * option (list app_send_wr) * Z) :=
  csp ← table_get (qp_shm_map c) (qp_handle ibqp);
  let '(wr_count, sge_count) := count_send wr in
  let ah_count := if is_ud (qp_type ibqp) then wr_count else 0 in
  let bytes := send_body_bytes wr_count sge_count ah_count in
  let header := mkReqHeader (ffr_client_id c) IBV_POST_SEND (u32 bytes) in
  let cmd := mkCmd (qp_handle ibqp) wr_count sge_count in
  if CTRL_REQ_SIZE <? sizeof t_FfrRequestHeader + bytes then Ub else
  '(m, n, s, ah) ← fill_send (map_lkey_to_mrshm c) (qp_type ibqp) (memory c) wr;
  csp ← exchange t (set_req header (QSend (mkSendReq cmd n s ah)) csp);
  bad ← find_bad wr (rsp csp);
  let ret := u32 (ret_errno (rsp csp)) in
  Ok (set_memory m (set_qp_piece (qp_handle ibqp) (set_state IDLE csp) c), bad, s32 ret).

(** ** What the request area holds *)

(** The address of an entry, as an offset in its region. *)
Definition sge_offset (lk : M) (s : ibv_sge) : ibv_sge :=
  match lk_get lk (sge_lkey s) with
  | Some p => mkSge (u64 (sge_addr s - mr p)) (sge_length s) (sge_lkey s)
  | None => s
  end.

Definition registered (lk : M) (s : ibv_sge) : Prop :=
  is_Some (lk_get lk (sge_lkey s)).

Definition sgl_registered (lk : M) (l : list ibv_sge) : Prop :=
  Forall (registered lk) l.

Lemma stage_sges_ok lk l : forall m,
  sgl_registered lk l ->
  exists m', stage_sges lk m l = Ok (m', map (sge_offset lk) l).
Proof.
  induction l as [|s l IH]; intros m Hr; [by exists m|].
  apply Forall_cons in Hr as [[p Hp] Hr].
  simpl. unfold stage_sge, sge_offset at 1. rewrite Hp. simpl.
  destruct (IH (if negb (u64 (shm_ptr p + (sge_addr s - mr p)) =? sge_addr s)
    then memcpy m (u64 (shm_ptr p + (sge_addr s - mr p))) (sge_addr s) (sge_length s)
    else m) Hr) as (m' & ->).
  by exists m'.
Qed.

(** The handles a UD chain carries. *)
Definition ah_handles (t : ibv_qp_type) (wr : list app_send_wr) : list (option Z) :=
  if is_ud t then map as_ah wr else [].

Definition send_ready (lk : M) (t : ibv_qp_type) (w : app_send_wr) : Prop :=
  app_send_wf w /\ sgl_registered lk (as_sgl w) /\
  (is_ud t = true -> is_Some (as_ah w)).

Lemma stage_sges_app lk l1 : forall m l2 m1 r1 m2 r2,
  stage_sges lk m l1 = Ok (m1, r1) -> stage_sges lk m1 l2 = Ok (m2, r2) ->
  stage_sges lk m (l1 ++ l2) = Ok (m2, r1 ++ r2).
Proof.
  induction l1 as [|s l1 IH]; intros m l2 m1 r1 m2 r2 H1 H2; simpl in *.
  { injection H1 as <- <-. done. }
  destruct (stage_sge lk m s) as [[m0 s']| | |]; try discriminate. simpl in *.
  destruct (stage_sges lk m0 l1) as [[m0' r0]| | |] eqn:E; try discriminate.
  simpl in *. injection H1 as <- <-. by rewrite (IH _ _ _ _ _ _ E H2).
Qed.

(** The copying loop fills the arrays with the chain's work requests, their
    entries (as offsets) and their handles, and stages what the entries say. *)
Lemma fill_send_ok lk t wr : forall m,
  Forall (send_ready lk t) wr ->
  exists m' ahs,
    fill_send lk t m wr
    = Ok (m', map as_wr wr, map (sge_offset lk) (concat (map as_sgl wr)), ahs) /\
    ah_handles t wr = map Some ahs /\
    stage_sges lk m (concat (map as_sgl wr))
    = Ok (m', map (sge_offset lk) (concat (map as_sgl wr))).
Proof.
  induction wr as [|w wr IH]; intros m Hr.
  { exists m, []. unfold ah_handles. by destruct (is_ud t). }
  apply Forall_cons in Hr as [((Hn & Hsw) & Hreg & Hah) Hr]. simpl.
  assert (exists ah, (if is_ud t then h ← of_option (as_ah w); Ok [h] else Ok [])
    = Ok ah /\ (if is_ud t then [as_ah w] else []) = map Some ah) as (ah & -> & Eah).
  { destruct (is_ud t); [|by exists []]. destruct Hah as [h ->]; [done|].
    by exists [h]. }
  simpl. rewrite Hn, take_n_all. simpl.
  destruct (stage_sges_ok lk (as_sgl w) m Hreg) as (m1 & E1).
  replace (if negb (Z.of_nat (length (as_sgl w)) =? 0)
    then stage_sges lk m (as_sgl w) else Ok (m, []))
    with (stage_sges lk m (as_sgl w)) by (destruct (as_sgl w); done).
  rewrite E1. simpl. destruct (IH m1 Hr) as (m2 & ahs & -> & Eahs & E2). simpl.
  exists m2, (ah ++ ahs). split; [by rewrite map_app|]. split.
  - unfold ah_handles in *. destruct (is_ud t); simpl in *.
    + rewrite Eahs. change (as_ah w :: map Some ahs) with ([as_ah w] ++ map Some ahs).
      by rewrite Eah, map_app.
    + destruct ah; [done|discriminate].
  - rewrite map_app. by eapply stage_sges_app.
Qed.

(** The counters, while nothing overflows. *)
Lemma count_send_acc wr : forall a b,
  0 <= a -> 0 <= b -> Forall app_send_wf wr ->
  a + Z.of_nat (length wr) < 2 ^ 32 ->
  b + Z.of_nat (length (concat (map as_sgl wr))) < 2 ^ 32 ->
  foldl (fun '(w, s) i => (u32 (w + 1), u32 (s + s_num_sge (as_wr i)))) (a, b) wr
  = (a + Z.of_nat (length wr), b + Z.of_nat (length (concat (map as_sgl wr)))).
Proof.
  induction wr as [|w wr IH]; intros a b Ha Hb Hw Hla Hlb; simpl in *.
  { f_equal; lia. }
  apply Forall_cons in Hw as [[Hn _] Hw]. rewrite length_app in *.
  rewrite Hn, !u32_small by lia. rewrite IH by (auto; lia). f_equal; lia.
Qed.

Lemma count_send_len wr :
  Forall app_send_wf wr -> Z.of_nat (length wr) < 2 ^ 32 ->
  Z.of_nat (length (concat (map as_sgl wr))) < 2 ^ 32 ->
  count_send wr
  = (Z.of_nat (length wr), Z.of_nat (length (concat (map as_sgl wr)))).
Proof. intros. unfold count_send. by rewrite count_send_acc by (auto; lia). Qed.

(** ** Staging *)

Definition sge_disp (lk : M) (s : ibv_sge) : Z :=
  match lk_get lk (sge_lkey s) with Some p => shm_ptr p - mr p | None => 0 end.

(** The entry lies in its region, whose shared memory is a valid range. *)
Definition sge_in_region (lk : M) (s : ibv_sge) : Prop :=
  registered lk s /\ sge_wf s /\
  0 <= sge_addr s + sge_disp lk s < 2 ^ 64.

Definition dst_has (lk : M) (a : Z) (s : ibv_sge) : Prop :=
  sge_addr s + sge_disp lk s <= a < sge_addr s + sge_disp lk s + sge_length s.

(** The staged areas of a list of entries: shared memory that is not the buffer
    itself overlaps no buffer, and areas that overlap belong to one region. *)
Definition staging_sane (lk : M) (l : list ibv_sge) : Prop :=
  forall s1 s2, s1 ∈ l -> s2 ∈ l ->
  (sge_disp lk s1 <> 0 -> forall a,
     dst_has lk a s1 -> ~ (sge_addr s2 <= a < sge_addr s2 + sge_length s2)) /\
  (forall a, dst_has lk a s1 -> dst_has lk a s2 -> sge_disp lk s1 = sge_disp lk s2).

#[local] Instance dst_has_dec lk a s : Decision (dst_has lk a s).
Proof. unfold dst_has. apply _. Defined.

Lemma stage_sge_mem lk m s m1 s' :
  sge_in_region lk s -> stage_sge lk m s = Ok (m1, s') ->
  m1 = if sge_disp lk s =? 0 then m
       else memcpy m (sge_addr s + sge_disp lk s) (sge_addr s) (sge_length s).
Proof.
  intros ([p Hp] & (Ha & Hl & _) & Hd) E. unfold stage_sge in E.
  unfold sge_disp in *. rewrite Hp in *. simpl in E. injection E as <- _.
  replace (shm_ptr p + (sge_addr s - mr p))
    with (sge_addr s + (shm_ptr p - mr p)) by lia.
  rewrite u64_small by lia.
  destruct (Z.eqb_spec (sge_addr s + (shm_ptr p - mr p)) (sge_addr s)),
    (Z.eqb_spec (shm_ptr p - mr p) 0); simpl; try lia; done.
Qed.

(** After staging, every entry's payload is at its place in shared memory, and
    memory outside of the staged areas is as before. *)
Lemma stage_sges_mem lk l : forall m m' r,
  Forall (sge_in_region lk) l -> staging_sane lk l ->
  stage_sges lk m l = Ok (m', r) ->
  (forall s k, s ∈ l -> 0 <= k < sge_length s ->
     m' (sge_addr s + sge_disp lk s + k) = m (sge_addr s + k)) /\
  (forall a, ~ Exists (dst_has lk a) l -> m' a = m a).
Proof.
  induction l as [|s l IH]; intros m m' r Hreg Hsane E; simpl in E.
  { injection E as <- _. split; [intros s k Hs; by apply elem_of_nil in Hs|done]. }
  destruct (stage_sge lk m s) as [[m1 s1]| | |] eqn:E1; try discriminate. simpl in E.
  destruct (stage_sges lk m1 l) as [[m2 r2]| | |] eqn:E2; try discriminate.
  simpl in E. injection E as <- _.
  apply Forall_cons in Hreg as [Hs Hreg].
  pose proof (stage_sge_mem _ _ _ _ _ Hs E1) as Hm1.
  assert (staging_sane lk l) as Hsane'.
  { intros x y Hx Hy. apply Hsane; by apply elem_of_cons; right. }
  destruct (IH _ _ _ Hreg Hsane' E2) as [IHin IHout].
  (* the head's copy leaves every source as it was *)
  assert (forall x k, x ∈ s :: l -> 0 <= k < sge_length x ->
    m1 (sge_addr x + k) = m (sge_addr x + k)) as Hsrc.
  { intros x k Hx Hk. subst m1. destruct (Z.eqb_spec (sge_disp lk s) 0); [done|].
    apply memcpy_out.
    destruct (Hsane s x) as [Hd _]; [by apply elem_of_cons; left|done|].
    specialize (Hd n (sge_addr x + k)). unfold dst_has in Hd. lia. }
  assert (forall k, 0 <= k < sge_length s ->
    m1 (sge_addr s + sge_disp lk s + k) = m (sge_addr s + k)) as Hhd.
  { intros k Hk. subst m1. destruct (Z.eqb_spec (sge_disp lk s) 0) as [->|].
    - f_equal. lia.
    - by apply memcpy_in. }
  split.
  - intros x k Hx Hk. apply elem_of_cons in Hx as [->|Hx].
    2: { rewrite IHin by done. apply Hsrc; [by apply elem_of_cons; right|done]. }
    destruct (decide (Exists (dst_has lk (sge_addr s + sge_disp lk s + k)) l)) as [Hex|Hno].
    2: { rewrite IHout by done. by apply Hhd. }
    apply Exists_exists in Hex as (y & Hy & Hin).
    assert (sge_disp lk s = sge_disp lk y) as Ed.
    { destruct (Hsane s y) as [_ He];
        [by apply elem_of_cons; left|by apply elem_of_cons; right|].
      apply (He (sge_addr s + sge_disp lk s + k)); [|done]. unfold dst_has. lia. }
    unfold dst_has in Hin.
    pose proof (IHin y (sge_addr s + k - sge_addr y) Hy ltac:(lia)) as Hv.
    replace (sge_addr y + sge_disp lk y + (sge_addr s + k - sge_addr y))
      with (sge_addr s + sge_disp lk s + k) in Hv by lia.
    rewrite Hv. replace (sge_addr y + (sge_addr s + k - sge_addr y))
      with (sge_addr s + k) by lia.
    apply Hsrc; [by apply elem_of_cons; left|done].
  - intros a Ha. rewrite Exists_cons in Ha. rewrite IHout by tauto.
    subst m1. destruct (Z.eqb_spec (sge_disp lk s) 0); [done|].
    apply memcpy_out. unfold dst_has in Ha. lia.
Qed.
End PostSend.
