(* ===== verification/Router.v ===== *)
(** * The router's data path

    What ffrouter.cpp does with a posted request: the branches of
    [CtrlChannelLoop] (the shared-memory fast path) and, for sends, of
    [HandleRequest] (the Unix-socket path).  The router rewrites the client's
    request area in place -- link pointers, scatter/gather pointers, addresses,
    remote addresses, address handles -- and hands the chain to the device.

    The device verbs ([ibv_post_send] and the like of the host's libibverbs) are
    parameters: they take a chain and return an error code and the element of
    the work-request array their [bad_wr] points to. *)

From S2P Require Import Prelude CLayout FfTypes Verbs MemPool CtrlShm Client.

Record rqp : Type := mkRqp { rq_id : Z; rq_type : ibv_qp_type }.

(** The tables of [class FreeFlowRouter] the data path reads.  [lkey_ptr] is
    read with [operator[]]: a missing key reads as the null pointer. *)
Record ffrouter : Type := mkRouter {
  qp_map : gmap Z rqp;
  srq_map : gmap Z Z;
  cq_map : gmap Z Z;
  ah_map : gmap Z Z;
  lkey_ptr : gmap Z Z }.

(** A chain as the device walks it: each work request with its entries. *)
Definition send_chain : Type := list (ibv_send_wr * list ibv_sge).
Definition recv_chain : Type := list (ibv_recv_wr * list ibv_sge).

Section Router.
Context (ffr : ffrouter).

(** [rkey_mr_shm] at the router's n-th look at it: the UDP server adds entries
    while a request is being handled. *)
Context (rk : nat -> gmap Z mr_shm).

Definition lkey_base (k : Z) : Z := default 0 (lkey_ptr ffr !! k).

(** [sge[j].addr = lkey_ptr[sge[j].lkey] + sge[j].addr] *)
Definition fix_sge (s : ibv_sge) : ibv_sge :=
  mkSge (u64 (lkey_base (sge_lkey s) + sge_addr s)) (sge_length s) (sge_lkey s).

Definition one_sided (opcode : Z) : bool :=
  (opcode =? IBV_WR_RDMA_WRITE) || (opcode =? IBV_WR_RDMA_WRITE_WITH_IMM)
  || (opcode =? IBV_WR_RDMA_READ).

(** The loop that waits for the remote region's mapping: it looks at the table,
    and gives up when [count], which all work requests of the call share,
    exceeds 4.  [fuel] bounds the looks; 6 are enough. *)
Fixpoint rkey_wait (fuel tm count : nat) (rkey : Z) : option mr_shm * nat * nat :=
  match fuel with
  | O => (None, tm, count)
  | S fuel' =>
      match rk tm !! rkey with
      | Some p => (Some p, S tm, count)
      | None => if (4 <? Z.of_nat count) then (None, S tm, count)
                else rkey_wait fuel' (S tm) (S count) rkey
      end
  end.

Definition fix_remote (p : option mr_shm) (w : ibv_send_wr) : ibv_send_wr :=
  match p with
  | Some p =>
      set_s_wr (set_w0 (u64 (shm_ptr p + rdma_remote_addr (s_wr w) - mr p)) (s_wr w)) w
  | None => w
  end.

(** [if (i >= wr_count - 1) next = NULL; else next = &wr[i + 1];] *)
Definition link_next (i : nat) (wr_count : Z) : ptr :=
  if u32 (wr_count - 1) <=? Z.of_nat i then PNull else PWr (S i).

(** [ffr->ah_map[*ah]] *)
Definition ah_lookup (ah : list Z) : res Z :=
  h ← of_option (head ah);
  if (0 <=? h) && (h <? MAP_SIZE) then Ok (default 0 (ah_map ffr !! h)) else Ub.

(** The loop over the work requests.  [fast]: the branch of [CtrlChannelLoop],
    which retries the rkey table and never advances [ah]; otherwise the branch
    of [HandleRequest], which looks once and does.  [i]: index of the work
    request, [k]: index of the next scatter/gather entry. *)
Fixpoint fix_send (fast : bool) (t : ibv_qp_type) (wr_count : Z)
  (i k tm count : nat) (ah : list Z) (wrs : list ibv_send_wr) (sges : list ibv_sge)
  : res (list ibv_send_wr * list ibv_sge) :=
  match wrs with
  | [] => Ok ([], sges)
  | w :: wrs' =>
      let '(w1, tm1, count1) :=
        if one_sided (s_opcode w) then
          let '(p, tm1, count1) :=
            if fast then rkey_wait 6 tm count (rdma_rkey (s_wr w))
            else (rk tm !! rdma_rkey (s_wr w), S tm, count) in
          (fix_remote p w, tm1, count1)
        else (w, tm, count) in
      let w2 := set_s_next (link_next i wr_count) w1 in
      let n := Z.to_nat (s_num_sge w) in
      seg ← (if 0 <? s_num_sge w then take_n (s_num_sge w) sges else Ok []);
      let w3 := set_s_sg_list (if 0 <? s_num_sge w then PSge k else PNull) w2 in
      w4 ← (if is_ud t then a ← ah_lookup ah; Ok (set_s_wr (set_w0 a (s_wr w3)) w3)
            else Ok w3);
      let ah' := if is_ud t && negb fast then tail ah else ah in
      '(ws, ss) ← fix_send fast t wr_count (S i) (k + length seg) tm1 count1 ah'
                    wrs' (drop (length seg) sges);
      Ok (w4 :: ws, map fix_sge seg ++ ss)
  end.

(** [ibv_post_send] of the device: error code, and [bad_wr] as an index. *)
Context (dev_send : rqp -> send_chain -> Z * option nat).

(** [qp = ffr->qp_map[handle]] when the handle is in range; the loop's variable
    keeps its old value otherwise. *)
Definition pick {A} (tbl : gmap Z A) (old : option A) (handle : Z) : option A :=
  if MAP_SIZE <=? handle then old else tbl !! handle.

(** The IBV_POST_SEND branch: the rewritten request and the response. *)
Definition post_send_branch (fast : bool) (qp0 : option rqp) (r : send_req)
  : res (send_req * post_rsp) :=
  qp ← of_option (pick (qp_map ffr) qp0 (c_handle (sr_cmd r)));
  wrs ← take_n (c_wr_count (sr_cmd r)) (sr_wr r);
  '(ws, ss) ← fix_send fast (rq_type qp) (c_wr_count (sr_cmd r)) 0 0 0 0
                (sr_ah r) wrs (sr_sge r);
  let wr_success := Z.of_nat (length ws) in
  chain ← walk_chain (S (length ws)) ws ss (PWr 0);
  let '(ret, bad) := dev_send qp chain in
  let rsp :=
    match bad with
    | None => if c_wr_count (sr_cmd r) =? wr_success then mkPostRsp ret 0
              else mkPostRsp 12 (u32 (c_wr_count (sr_cmd r) - wr_success))
    | Some i => mkPostRsp ret (Z.of_nat i)
    end in
  Ok (mkSendReq (sr_cmd r) ws ss (sr_ah r), rsp).

(** ** Receives *)

Fixpoint fix_recv (wr_count : Z) (i k : nat)
  (wrs : list ibv_recv_wr) (sges : list ibv_sge)
  : res (list ibv_recv_wr * list ibv_sge) :=
  match wrs with
  | [] => Ok ([], sges)
  | w :: wrs' =>
      let w2 := set_v_next (link_next i wr_count) w in
      seg ← (if 0 <? v_num_sge w then take_n (v_num_sge w) sges else Ok []);
      let w3 := set_v_sg_list (if 0 <? v_num_sge w then PSge k else PNull) w2 in
      '(ws, ss) ← fix_recv wr_count (S i) (k + length seg) wrs' (drop (length seg) sges);
      Ok (w3 :: ws, map fix_sge seg ++ ss)
  end.

(** The common part of the IBV_POST_RECV and the SRQ branch, on the object the
    handle selects; [dev_recv] is [ibv_post_recv] or [ibv_post_srq_recv]. *)
Definition post_recv_body {A} (dev_recv : A -> recv_chain -> Z * option nat)
  (obj : A) (r : recv_req) : res (recv_req * post_rsp) :=
  wrs ← take_n (c_wr_count (rr_cmd r)) (rr_wr r);
  '(ws, ss) ← fix_recv (c_wr_count (rr_cmd r)) 0 0 wrs (rr_sge r);
  chain ← walk_chain (S (length ws)) ws ss (PWr 0);
  let '(ret, bad) := dev_recv obj chain in
  Ok (mkRecvReq (rr_cmd r) ws ss,
      mkPostRsp ret (match bad with None => 0 | Some i => Z.of_nat i end)).

Definition post_recv_branch (dev_recv : rqp -> recv_chain -> Z * option nat)
  (qp0 : option rqp) (r : recv_req) : res (recv_req * post_rsp) :=
  qp ← of_option (pick (qp_map ffr) qp0 (c_handle (rr_cmd r)));
  post_recv_body dev_recv qp r.

Definition post_srq_recv_branch (dev_srq_recv : Z -> recv_chain -> Z * option nat)
  (srq0 : option Z) (r : recv_req) : res (recv_req * post_rsp) :=
  srq ← of_option (pick (srq_map ffr) srq0 (c_handle (rr_cmd r)));
  post_recv_body dev_srq_recv srq r.

(** ** Turns of the control-channel loop *)

(** The switch on a queue pair's piece that is in REQ_DONE. *)
Definition qp_switch (dev_recv : rqp -> recv_chain -> Z * option nat)
  (qp0 : option rqp) (c : qp_piece) : res qp_piece :=
  match func (req_header c), req c with
  | IBV_POST_SEND, QSend r =>
      '(r', p) ← post_send_branch true qp0 r;
      Ok (set_rsp (sizeof t_IBV_POST_SEND_RSP) p (set_req (req_header c) (QSend r') c))
  | IBV_POST_RECV, QRecv r =>
      '(r', p) ← post_recv_branch dev_recv qp0 r;
      Ok (set_rsp (sizeof t_IBV_POST_RECV_RSP) p (set_req (req_header c) (QRecv r') c))
  | IBV_POST_SEND, _ | IBV_POST_RECV, _ => Ub
  | _, _ => Ok c
  end.

(** A shared receive queue's piece that is in REQ_DONE; the function code is not
    looked at. *)
Definition srq_switch (dev_srq_recv : Z -> recv_chain -> Z * option nat)
  (srq0 : option Z) (c : qp_piece) : res qp_piece :=
  match req c with
  | QRecv r =>
      '(r', p) ← post_srq_recv_branch dev_srq_recv srq0 r;
      Ok (set_rsp (sizeof t_IBV_POST_SRQ_RECV_RSP) p (set_req (req_header c) (QRecv r') c))
  | _ => Ub
  end.

(** ** Completions *)

(** [ibv_poll_cq] of the device: its result and the completions it stored. *)
Context (dev_poll : Z -> Z -> Z * list ibv_wc).

(** The switch on a completion queue's piece that is in REQ_DONE, with the queue
    the loop's variable [cq] holds.  [count] is an [unsigned int]; the loop over
    the completions reads each of them.  The result is the answered piece with
    the value the loop leaves in [i]; no queue: the request is not answered. *)
Definition poll_switch (cq0 : option Z) (c : cq_piece) : res (option (cq_piece * Z)) :=
  match pick (cq_map ffr) cq0 (pq_cq_handle (req c)) with
  | None => Ok None
  | Some cq =>
      let '(n, wcs) := dev_poll cq (pq_ne (req c)) in
      if CTRL_RSP_SIZE <? sizeof t_FfrResponseHeader + Z.of_nat (length wcs) * sizeof t_ibv_wc
      then Ub else
      let count := u32 n in
      let size := if count <=? 0 then 0 else s32 (count * sizeof t_ibv_wc) in
      _ ← take_n count wcs;
      Ok (Some (set_rsp size wcs c, count))
  end.

(** What a polling client sees of it: a piece that is not answered stays as it
    is. *)
Definition poll_answer (cq0 : option Z) (c : cq_piece) : res cq_piece :=
  r ← poll_switch cq0 c;
  match r with Some (c', _) => Ok c' | None => Spin end.

End Router.
