(* ===== verification/RouterSpec.v ===== *)
(** * What the router hands to the device

    The request area the client fills is, for the router, an array of work
    requests and an array of entries; after the rewriting loop the chain the
    device walks is the client's chain again, element by element, with every
    address relocated.  The lemmas here state that for any arrays in which
    [num_sge] counts the entries of each work request. *)

From S2P Require Import Prelude CLayout FfTypes Verbs MemPool CtrlShm Client Router.

(** A work request without the two pointers that only link the arrays. *)
Definition erase_send (w : ibv_send_wr) : ibv_send_wr :=
  set_s_next PNull (set_s_sg_list PNull w).
Definition erase_recv (w : ibv_recv_wr) : ibv_recv_wr :=
  set_v_next PNull (set_v_sg_list PNull w).

Section Spec.
Context (ffr : ffrouter) (rkt : gmap Z mr_shm).

(** [a]: the address handle a UD work request gets. *)
Definition route_send (t : ibv_qp_type) (a : Z) (w : ibv_send_wr) : ibv_send_wr :=
  let w1 := if one_sided (s_opcode w)
            then fix_remote (rkt !! rdma_rkey (s_wr w)) w else w in
  if is_ud t then set_s_wr (set_w0 a (s_wr w1)) w1 else w1.

Lemma rkey_wait_const fuel : forall tm count rkey,
  fuel <> O -> exists tm' count',
    rkey_wait (fun _ => rkt) fuel tm count rkey = (rkt !! rkey, tm', count').
Proof.
  induction fuel as [|fuel IH]; intros tm count rkey Hf; [done|]. simpl.
  destruct (rkt !! rkey) eqn:E; [eauto|].
  destruct (_ <? _); [eauto|].
  destruct fuel; [simpl; eauto|]. destruct (IH (S tm) (S count) rkey) as (?&?&->); eauto.
  rewrite E. eauto.
Qed.

(** The address handles [avs] the loop gives to the work requests, one each. *)
Fixpoint ah_plan (fast : bool) (t : ibv_qp_type) (ah avs : list Z) : Prop :=
  match avs with
  | [] => True
  | a :: avs' =>
      (is_ud t = true -> ah_lookup ffr ah = Ok a) /\
      ah_plan fast t (if is_ud t && negb fast then tail ah else ah) avs'
  end.

Lemma take_n_app {A} (l1 l2 : list A) :
  take_n (Z.of_nat (length l1)) (l1 ++ l2) = Ok l1.
Proof.
  unfold take_n. rewrite length_app.
  destruct (Z.ltb_spec (Z.of_nat (length l1)) 0); [lia|].
  destruct (Z.ltb_spec (Z.of_nat (length l1 + length l2)) (Z.of_nat (length l1))); [lia|].
  simpl. by rewrite Nat2Z.id, take_app_length.
Qed.

Section Linked.
Context {W : Type} `{WorkRequestLaws W}.

(** A work request and its entries, as many as [num_sge] says. *)
Definition item_ok (it : W * list ibv_sge) : Prop :=
  wq_num_sge (fst it) = Z.of_nat (length (snd it)).

(** The array a rewriting loop leaves: work request [i] linked to [i + 1], its
    entries starting at [k]. *)
Fixpoint linked (total : Z) (i k : nat) (items : list (W * list ibv_sge)) : list W :=
  match items with
  | [] => []
  | (w, seg) :: items' =>
      wq_link (link_next i total) (if 0 <? wq_num_sge w then PSge k else PNull) w
      :: linked total (S i) (k + length seg) items'
  end.

Lemma linked_length total items : forall i k,
  length (linked total i k items) = length items.
Proof.
  induction items as [|[w seg] items IH]; intros i k; simpl; [done|]. by rewrite IH.
Qed.

(** The device's walk over the linked array gives every work request with its
    entries, in order. *)
Lemma walk_linked (f : ibv_sge -> ibv_sge) total items :
  forall (pre : list W) spre rest fuel,
  Forall item_ok items -> items <> [] ->
  total = Z.of_nat (length pre + length items) -> total < 2 ^ 32 ->
  (length items < fuel)%nat ->
  walk_chain fuel
    (pre ++ linked total (length pre) (length spre) items)
    (spre ++ map f (concat (map snd items)) ++ rest)
    (PWr (length pre))
  = Ok (zip (linked total (length pre) (length spre) items)
            (map (fun it => map f (snd it)) items)).
Proof.
  induction items as [|[w seg] items IH]; intros pre spre rest fuel Hok Hne
    Htot Hmax Hfuel; [done|].
  destruct fuel as [|fuel]; [simpl in *; lia|].
  apply Forall_cons in Hok as [Hn Hok]. unfold item_ok in Hn; simpl in Hn.
  cbn [linked map concat snd walk_chain].
  match goal with |- context [?x :: linked _ _ _ _] => set (V := x) end.
  rewrite list_lookup_middle by done. simpl of_option. cbn [mbind res_bind].
  assert ((match wq_sg_list V with
           | PSge k => take_n (wq_num_sge V)
               (drop k (spre ++ map f (seg ++ concat (map snd items)) ++ rest))
           | _ => if wq_num_sge V =? 0 then Ok [] else Ub
           end) = Ok (map f seg)) as ->.
  { subst V. rewrite wq_sg_list_link, wq_num_sge_link, Hn.
    destruct seg as [|s seg]; [done|].
    destruct (Z.ltb_spec 0 (Z.of_nat (length (s :: seg)))); [|simpl in *; lia].
    rewrite drop_app_length, map_app, <- app_assoc.
    replace (Z.of_nat (length (s :: seg)))
      with (Z.of_nat (length (map f (s :: seg)))) by (by rewrite length_map).
    apply take_n_app. }
  cbn [mbind res_bind].
  assert (wq_next V = if decide (items = []) then PNull else PWr (S (length pre))) as ->.
  { subst V. rewrite wq_next_link. unfold link_next.
    rewrite u32_small by (simpl in *; lia).
    case_decide; [subst items|]; simpl in *;
      destruct (Z.leb_spec (total - 1) (Z.of_nat (length pre))); try done; try lia.
    destruct items; [done|]. simpl in *. lia. }
  case_decide as Hit.
  - subst items. destruct fuel; done.
  - specialize (IH (pre ++ [V]) (spre ++ map f seg) rest fuel).
    rewrite !length_app, length_map in IH. simpl in IH. rewrite Nat.add_1_r in IH.
    rewrite <- !app_assoc in IH. simpl in IH. rewrite map_app, <- app_assoc.
    rewrite IH; auto; simpl in *; lia.
Qed.

(** The walk from the start of the arrays. *)
Lemma walk_linked_all (f : ibv_sge -> ibv_sge) items :
  Forall item_ok items -> items <> [] -> Z.of_nat (length items) < 2 ^ 32 ->
  walk_chain (S (length items))
    (linked (Z.of_nat (length items)) 0 0 items) (map f (concat (map snd items))) (PWr 0)
  = Ok (zip (linked (Z.of_nat (length items)) 0 0 items)
            (map (fun it => map f (snd it)) items)).
Proof.
  intros Hok Hne Hmax.
  pose proof (walk_linked f (Z.of_nat (length items)) items [] [] []
    (S (length items)) Hok Hne eq_refl Hmax ltac:(lia)) as E.
  simpl app in E. rewrite app_nil_r in E. exact E.
Qed.
End Linked.

(** The entries of the next work request, as the loop takes them. *)
Lemma take_seg n (seg rest : list ibv_sge) :
  n = Z.of_nat (length seg) ->
  (if 0 <? n then take_n n (seg ++ rest) else Ok []) = Ok seg.
Proof.
  intros ->. destruct seg as [|s seg]; [done|].
  destruct (Z.ltb_spec 0 (Z.of_nat (length (s :: seg)))); [|simpl in *; lia].
  apply take_n_app.
Qed.

(** The routed work requests, with their entries. *)
Definition routed (t : ibv_qp_type) (items : list (ibv_send_wr * list ibv_sge))
  (avs : list Z) : list (ibv_send_wr * list ibv_sge) :=
  zip_with (fun it a => (route_send t a (fst it), snd it)) items avs.

Lemma route_send_num t a w : s_num_sge (route_send t a w) = s_num_sge w.
Proof.
  unfold route_send, fix_remote.
  destruct (is_ud t), (one_sided _); simpl; try destruct (rkt !! _); done.
Qed.

Lemma fix_send_spec fast t total items : forall i k tm count ah avs rest,
  Forall item_ok items -> length avs = length items ->
  ah_plan fast t ah avs ->
  fix_send ffr (fun _ => rkt) fast t total i k tm count ah (map fst items)
    (concat (map snd items) ++ rest)
  = Ok (linked total i k (routed t items avs),
        map (fix_sge ffr) (concat (map snd items)) ++ rest).
Proof.
  induction items as [|[w seg] items IH]; intros i k tm count ah avs rest Hok Hlen Hah;
    [done|].
  destruct avs as [|a avs]; [done|]. destruct Hah as [Ha Hah].
  apply Forall_cons in Hok as [Hn Hok]. unfold item_ok in Hn; simpl in Hn.
  assert (exists tm1 count1,
    (if one_sided (s_opcode w) then
       let '(p, tm1, count1) :=
         if fast then rkey_wait (fun _ => rkt) 6 tm count (rdma_rkey (s_wr w))
         else (rkt !! rdma_rkey (s_wr w), S tm, count) in
       (fix_remote p w, tm1, count1)
     else (w, tm, count))
    = (if one_sided (s_opcode w) then fix_remote (rkt !! rdma_rkey (s_wr w)) w else w,
       tm1, count1)) as (tm1 & count1 & E).
  { destruct (one_sided (s_opcode w)); [|eauto]. destruct fast; [|eauto].
    destruct (rkey_wait_const 6 tm count (rdma_rkey (s_wr w))) as (? & ? & ->); eauto. }
  cbn [map fst snd concat fix_send]. rewrite E. cbv zeta. clear E.
  rewrite <- app_assoc, take_seg by done. simpl.
  rewrite drop_app_length.
  cbn [routed zip_with linked fst snd]. simpl wq_num_sge. rewrite route_send_num.
  unfold route_send.
  destruct (is_ud t) eqn:Eud.
  - rewrite Ha by done. simpl.
    rewrite (IH _ _ _ _ _ avs) by (auto; simpl in Hlen; lia).
    simpl. by rewrite map_app, app_assoc.
  - simpl. rewrite (IH _ _ _ _ _ avs) by (auto; simpl in Hlen; lia).
    simpl. by rewrite map_app, app_assoc.
Qed.

Lemma fix_recv_spec total items : forall i k rest,
  Forall item_ok items ->
  fix_recv ffr total i k (map fst items) (concat (map snd items) ++ rest)
  = Ok (linked total i k items, map (fix_sge ffr) (concat (map snd items)) ++ rest).
Proof.
  induction items as [|[w seg] items IH]; intros i k rest Hok; [done|].
  apply Forall_cons in Hok as [Hn Hok]. unfold item_ok in Hn; simpl in Hn.
  cbn [map fst snd concat fix_recv].
  rewrite <- app_assoc, take_seg by done. simpl.
  rewrite drop_app_length, IH by done. simpl. by rewrite map_app, app_assoc.
Qed.

Lemma routed_ok t items : forall avs,
  Forall item_ok items -> Forall item_ok (routed t items avs).
Proof.
  induction items as [|it items IH]; intros [|a avs] Hok; simpl; auto.
  apply Forall_cons in Hok as [? ?]. constructor; [|by apply IH].
  unfold item_ok in *. simpl in *. by rewrite route_send_num.
Qed.

Lemma routed_segs t items : forall avs,
  length avs = length items -> map snd (routed t items avs) = map snd items.
Proof.
  induction items as [|it items IH]; intros [|a avs] Hl; simpl in *; try done.
  f_equal. apply IH. lia.
Qed.

(** ** The branches *)

Context (dev_send : rqp -> send_chain -> Z * option nat).

(** The chain the device gets for routed work requests: entry addresses
    relocated, the work requests linked. *)
Definition device_chain {W} `{WorkRequest W} (items : list (W * list ibv_sge))
  : list (W * list ibv_sge) :=
  zip (linked (Z.of_nat (length items)) 0 0 items)
      (map (fun it => map (fix_sge ffr) (snd it)) items).

(** The response for what the device returned. *)
Definition device_rsp (rb : Z * option nat) : post_rsp :=
  mkPostRsp (fst rb) (match snd rb with None => 0 | Some i => Z.of_nat i end).

(** Evaluates the stages of a branch up to the next call. *)
Ltac run_stage :=
  cbn [mbind res_bind of_option sr_cmd sr_wr sr_sge sr_ah rr_cmd rr_wr rr_sge
       c_wr_count c_handle].

Lemma post_send_branch_ok fast qp0 qp h items avs ah :
  pick (qp_map ffr) qp0 h = Some qp ->
  Forall item_ok items -> items <> [] -> Z.of_nat (length items) < 2 ^ 32 ->
  length avs = length items -> ah_plan fast (rq_type qp) ah avs ->
  let R := routed (rq_type qp) items avs in
  let cmd := mkCmd h (Z.of_nat (length items))
               (Z.of_nat (length (concat (map snd items)))) in
  post_send_branch ffr (fun _ => rkt) dev_send fast qp0
    (mkSendReq cmd (map fst items) (concat (map snd items)) ah)
  = Ok (mkSendReq cmd (linked (Z.of_nat (length items)) 0 0 R)
          (map (fix_sge ffr) (concat (map snd items))) ah,
        device_rsp (dev_send qp (device_chain R))).
Proof.
  intros Hpick Hok Hne Hmax Hlen Hah R cmd. unfold post_send_branch, cmd. run_stage.
  rewrite Hpick. run_stage.
  assert (length R = length items) as HR
    by (unfold R, routed; rewrite length_zip_with; lia).
  replace (Z.of_nat (length items)) with (Z.of_nat (length (map fst items))) at 1
    by (by rewrite length_map).
  rewrite take_n_all. run_stage.
  pose proof (fix_send_spec fast (rq_type qp) (Z.of_nat (length items)) items 0 0 0 0
    ah avs [] Hok Hlen Hah) as E. rewrite !app_nil_r in E. rewrite E.
  run_stage. fold R.
  rewrite linked_length, HR.
  pose proof (walk_linked_all (fix_sge ffr) R (routed_ok _ _ avs Hok)) as Ew.
  fold R in Ew. replace (map snd R) with (map snd items) in Ew
    by (symmetry; by apply routed_segs).
  rewrite HR in Ew.
  rewrite Ew; [|destruct R; [destruct items; done|done]|done]. simpl.
  unfold device_chain. rewrite HR.
  destruct (dev_send qp _) as [ret [bad|]]; simpl; [done|].
  by rewrite Z.eqb_refl.
Qed.

Lemma post_recv_body_ok {A} (dev : A -> recv_chain -> Z * option nat) obj h
  (items : list (ibv_recv_wr * list ibv_sge)) :
  Forall item_ok items -> items <> [] -> Z.of_nat (length items) < 2 ^ 32 ->
  let cmd := mkCmd h (Z.of_nat (length items))
               (Z.of_nat (length (concat (map snd items)))) in
  post_recv_body ffr dev obj
    (mkRecvReq cmd (map fst items) (concat (map snd items)))
  = Ok (mkRecvReq cmd (linked (Z.of_nat (length items)) 0 0 items)
          (map (fix_sge ffr) (concat (map snd items))),
        device_rsp (dev obj (device_chain items))).
Proof.
  intros Hok Hne Hmax cmd. unfold post_recv_body, cmd. run_stage.
  replace (Z.of_nat (length items)) with (Z.of_nat (length (map fst items))) at 1
    by (by rewrite length_map).
  rewrite take_n_all. run_stage.
  pose proof (fix_recv_spec (Z.of_nat (length items)) items 0 0 [] Hok) as E.
  rewrite !app_nil_r in E. rewrite E.
  run_stage. rewrite linked_length.
  rewrite walk_linked_all by done. simpl. unfold device_chain.
  by destruct (dev obj _).
Qed.

(** Seen without the linking pointers, the device's chain is the routed
    requests with their relocated entries. *)
Lemma device_chain_erase {W} `{WorkRequest W} (er : W -> W) items :
  (forall p q w, er (wq_link p q w) = er w) ->
  map (fun x => (er (fst x), snd x)) (device_chain items)
  = map (fun it => (er (fst it), map (fix_sge ffr) (snd it))) items.
Proof.
  intros Her. unfold device_chain.
  assert (forall total i k, map (fun x => (er (fst x), snd x))
    (zip (linked total i k items) (map (fun it => map (fix_sge ffr) (snd it)) items))
    = map (fun it => (er (fst it), map (fix_sge ffr) (snd it))) items) as A; [|apply A].
  intros total. induction items as [|[w seg] items IH]; intros i k; simpl; [done|].
  rewrite Her. f_equal. apply IH.
Qed.

End Spec.

Lemma erase_send_link p q w : erase_send (wq_link p q w) = erase_send w.
Proof. done. Qed.
Lemma erase_recv_link p q w : erase_recv (wq_link p q w) = erase_recv w.
Proof. done. Qed.
