(* ===== verification/PostRecv.v ===== *)
(** * Posting receives: [ibv_cmd_post_recv] and [ibv_cmd_post_srq_recv]

    As for sends, the chain and its entries are copied into the request area
    with offsets in place of addresses; in addition each work request is entered
    into the ring of its completion queue (or of the shared receive queue), with
    where its data will be in shared memory and where the application wants it. *)

From S2P Require Import Prelude CLayout FfTypes Verbs MemPool WrQueue CtrlShm Client PostSend.

Section PostRecv.
Context {M : Type} `{LkeyMap M}.
Implicit Types c : client M.

Definition count_recv (wr : list app_recv_wr) : Z * Z :=
  foldl (fun '(wr_count, sge_count) i =>
           (u32 (wr_count + 1), u32 (sge_count + v_num_sge (ar_wr i)))) (0, 0) wr.

(** One entry: its offset, and the record for the ring. *)
Definition record_sge (lk : M) (s : ibv_sge) : res (ibv_sge * sge_record) :=
  p ← of_option (lk_get lk (sge_lkey s));
  let off := u64 (sge_addr s - mr p) in
  Ok (mkSge off (sge_length s) (sge_lkey s),
      mkSgeRecord (sge_length s) (u64 (mr p + off)) (u64 (shm_ptr p + off))).

Fixpoint record_sges (lk : M) (l : list ibv_sge) : res (list ibv_sge * list sge_record) :=
  match l with
  | [] => Ok ([], [])
  | s :: l' =>
      '(s', r) ← record_sge lk s;
      '(ss, rs) ← record_sges lk l';
      Ok (s' :: ss, r :: rs)
  end.

(** The loop over the chain: the ring and the arrays it writes; [k] is the index
    of the next entry of the array. *)
Fixpoint fill_recv (lk : M) (q : wr_queue) (k : nat) (wr : list app_recv_wr)
  : res (wr_queue * list ibv_recv_wr * list ibv_sge) :=
  match wr with
  | [] => Ok (q, [], [])
  | i :: wr' =>
      let tmp := ar_wr i in
      '(tmp', s, recs) ←
        (if negb (v_num_sge tmp =? 0) then
           l ← take_n (v_num_sge tmp) (ar_sgl i);
           '(s, recs) ← record_sges lk l;
           Ok (set_v_sg_list (PSge k) tmp, s, recs)
         else Ok (tmp, [], []));
      '(q', ws, ss) ← fill_recv lk (wr_push q (v_num_sge tmp) recs) (k + length s) wr';
      Ok (q', tmp' :: ws, s ++ ss)
  end.

Definition recv_body_bytes (wr_count sge_count : Z) : Z :=
  sizeof t_ibv_post_send + wr_count * sizeof t_ibv_recv_wr
  + sge_count * sizeof t_ibv_sge.

Definition ibv_cmd_post_recv (t : transport qp_piece) c (ibqp : ibv_qp)
  (wr : list app_recv_wr) : res (client M * option (list app_recv_wr) * Z) :=
  csp ← table_get (qp_shm_map c) (qp_handle ibqp);
  let '(wr_count, sge_count) := count_recv wr in
  let bytes := recv_body_bytes wr_count sge_count in
  let header := mkReqHeader (ffr_client_id c) IBV_POST_RECV (u32 bytes) in
  let cmd := mkCmd (qp_handle ibqp) wr_count sge_count in
  if CTRL_REQ_SIZE <? sizeof t_FfrRequestHeader + bytes then Ub else
  q ← table_get (map_cq_to_wr_queue c) (qp_recv_cq_handle ibqp);
  '(q', n, s) ← fill_recv (map_lkey_to_mrshm c) q 0 wr;
  csp ← exchange t (set_req header (QRecv (mkRecvReq cmd n s)) csp);
  bad ← find_bad wr (rsp csp);
  let ret := u32 (ret_errno (rsp csp)) in
  Ok (set_cq_queue (qp_recv_cq_handle ibqp) q'
        (set_qp_piece (qp_handle ibqp) (set_state IDLE csp) c), bad, s32 ret).

Definition ibv_cmd_post_srq_recv (t : transport qp_piece) c (srq_handle : Z)
  (wr : list app_recv_wr) : res (client M * option (list app_recv_wr) * Z) :=
  csp ← table_get (srq_shm_map c) srq_handle;
  q ← table_get (map_srq_to_wr_queue c) srq_handle;
  let '(wr_count, sge_count) := count_recv wr in
  let bytes := recv_body_bytes wr_count sge_count in
  let header := mkReqHeader (ffr_client_id c) IBV_POST_SRQ_RECV (u32 bytes) in
  let cmd := mkCmd srq_handle wr_count sge_count in
  if CTRL_REQ_SIZE <? sizeof t_FfrRequestHeader + bytes then Ub else
  '(q', n, s) ← fill_recv (map_lkey_to_mrshm c) q 0 wr;
  csp ← exchange t (set_req header (QRecv (mkRecvReq cmd n s)) csp);
  bad ← find_bad wr (rsp csp);
  let ret := u32 (ret_errno (rsp csp)) in
  Ok (set_srq_queue srq_handle q'
        (set_srq_piece srq_handle (set_state IDLE csp) c), bad, s32 ret).

(** ** What the loop leaves *)

(** The record of an entry: where its bytes go, and where they come from. *)
Definition recv_record (lk : M) (s : ibv_sge) : sge_record :=
  match lk_get lk (sge_lkey s) with
  | Some p => mkSgeRecord (sge_length s) (sge_addr s)
                (u64 (shm_ptr p + (sge_addr s - mr p)))
  | None => mkSgeRecord (sge_length s) (sge_addr s) (sge_addr s)
  end.

Definition recv_ready (lk : M) (w : app_recv_wr) : Prop :=
  app_recv_wf w /\ sgl_registered lk (ar_sgl w).

(** The copied work request: its [sg_list] points into the area. *)
Fixpoint area_recv (k : nat) (wr : list app_recv_wr) : list ibv_recv_wr :=
  match wr with
  | [] => []
  | w :: wr' =>
      (if v_num_sge (ar_wr w) =? 0 then ar_wr w else set_v_sg_list (PSge k) (ar_wr w))
      :: area_recv (k + length (ar_sgl w)) wr'
  end.

Lemma record_sges_ok lk l :
  sgl_registered lk l -> Forall sge_wf l ->
  record_sges lk l = Ok (map (sge_offset lk) l, map (recv_record lk) l).
Proof.
  induction l as [|s l IH]; intros Hr Hw; [done|].
  apply Forall_cons in Hr as [[p Hp] Hr]. apply Forall_cons in Hw as [(Ha & _) Hw].
  simpl. unfold record_sge, sge_offset at 1, recv_record at 1. rewrite Hp. simpl.
  rewrite IH by done. simpl. rewrite !u64_add_u64.
  replace (mr p + (sge_addr s - mr p)) with (sge_addr s) by lia.
  by rewrite (u64_small (sge_addr s)).
Qed.

Lemma fill_recv_ok lk wr : forall q k outstanding,
  Forall (recv_ready lk) wr -> models q outstanding ->
  Z.of_nat (length outstanding + length wr) <= CAPACITY ->
  Forall (fun w => Z.of_nat (length (ar_sgl w)) < 2 ^ 32) wr ->
  exists q', fill_recv lk q k wr
    = Ok (q', area_recv k wr, map (sge_offset lk) (concat (map ar_sgl wr))) /\
    models q' (outstanding ++ map (fun w => map (recv_record lk) (ar_sgl w)) wr).
Proof.
  induction wr as [|w wr IH]; intros q k outs Hr Hq Hcap Hsz.
  { exists q. split; [done|]. by rewrite app_nil_r. }
  apply Forall_cons in Hr as [((Hn & Hw) & Hreg) Hr].
  apply Forall_cons in Hsz as [Hs Hsz].
  set (recs := map (recv_record lk) (ar_sgl w)).
  assert (length recs = length (ar_sgl w)) as Hlen by apply length_map.
  assert (models (wr_push q (v_num_sge (ar_wr w)) recs) (outs ++ [recs])) as Hq'.
  { rewrite Hn, <- Hlen. apply push_models; [done| |lia].
    simpl in Hcap. unfold CAPACITY in *. lia. }
  edestruct (IH (wr_push q (v_num_sge (ar_wr w)) recs) (k + length (ar_sgl w))%nat
    (outs ++ [recs])) as (q' & E & Hm); [done|done| |done|].
  { rewrite length_app. simpl in *. lia. }
  exists q'. split; [|by rewrite <- app_assoc in Hm].
  simpl fill_recv.
  assert ((if negb (v_num_sge (ar_wr w) =? 0) then
    l ← take_n (v_num_sge (ar_wr w)) (ar_sgl w);
    '(s, recs) ← record_sges lk l; Ok (set_v_sg_list (PSge k) (ar_wr w), s, recs)
    else Ok (ar_wr w, [], []))
    = Ok (if v_num_sge (ar_wr w) =? 0 then ar_wr w else set_v_sg_list (PSge k) (ar_wr w),
          map (sge_offset lk) (ar_sgl w), recs)) as ->.
  { rewrite Hn. destruct (Z.eqb_spec (Z.of_nat (length (ar_sgl w))) 0) as [E0|E0]; simpl.
    - unfold recs. destruct (ar_sgl w); done.
    - rewrite take_n_all. simpl. by rewrite record_sges_ok. }
  cbn [mbind res_bind]. rewrite length_map, E. simpl. by rewrite map_app.
Qed.

End PostRecv.
