(* ===== verification/PollCq.v ===== *)
(** * Polling completions: [ibv_cmd_poll_cq]

    The client asks the router for completions through the completion queue's
    piece, hands them to the application, and for each receive completion
    retires the oldest receive of the ring and copies its data from the shared
    memory to the application's buffers (cmd.c). *)

From S2P Require Import Prelude CLayout FfTypes Verbs MemPool WrQueue CtrlShm Client.

Section PollCq.
Context {M : Type}.
Implicit Types c : client M.

(** The copies for a retired receive. *)
Definition deliver_one (m : mem) (s : sge_record) : mem :=
  if negb (r_mr_addr s =? r_shm_addr s)
  then memcpy m (r_mr_addr s) (r_shm_addr s) (r_length s) else m.

Definition deliver (m : mem) (recs : list sge_record) : mem :=
  foldl deliver_one m recs.

Definition is_recv (wc : ibv_wc) : bool :=
  negb (Z.land (wc_opcode wc) IBV_WC_RECV =? 0).

(** The loop over the completions, on the ring they belong to. *)
Fixpoint retire (m : mem) (q : wr_queue) (wcs : list ibv_wc) : res (mem * wr_queue) :=
  match wcs with
  | [] => Ok (m, q)
  | wc :: wcs' =>
      if is_recv wc then
        '(q', recs) ← wr_pop q; retire (deliver m recs) q' wcs'
      else retire m q wcs'
  end.

Definition has_recv (wcs : list ibv_wc) : bool := existsb is_recv wcs.

(** The part of the call behind the exchange.  A result of -1 leaves the piece
    in RSP_DONE and the shared receive queue's lock taken. *)
Definition poll_finish c (h srq : Z) (csp : cq_piece)
  : res (client M * Z * list ibv_wc) :=
  let unit := sizeof t_ibv_wc in
  if negb (u64 (rsp_size csp) mod unit =? 0) then
    Ok (set_cq_piece h csp c, -1, [])
  else
    let count := s32 (u64 (rsp_size csp) / unit) in
    wcs ← (if count <=? 0 then Ok [] else take_n count (rsp csp));
    let use_srq := negb (MAP_SIZE <? srq) in
    '(m, c1) ←
      (if has_recv wcs then
         q ← (if use_srq then table_get (map_srq_to_wr_queue c) srq
              else table_get (map_cq_to_wr_queue c) h);
         '(m, q') ← retire (memory c) q wcs;
         Ok (m, if use_srq then set_srq_queue srq q' c else set_cq_queue h q' c)
       else Ok (memory c, c));
    let c2 := set_memory m (set_cq_piece h (set_state IDLE csp) c1) in
    Ok (if use_srq then set_tail_locked (srq_tail_locked c2 ∖ {[srq]}) c2 else c2,
        count, wcs).

(** The whole call on the queue with handle [h]: the new state, the result, and
    the completions stored in the application's array. *)
Definition ibv_cmd_poll_cq (t : transport cq_piece) c (h ne : Z)
  : res (client M * Z * list ibv_wc) :=
  csp ← table_get (cq_shm_map c) h;
  srq ← table_get (map_cq_to_srq c) h;
  let header := mkReqHeader (ffr_client_id c) IBV_POLL_CQ (sizeof t_IBV_POLL_CQ_REQ) in
  c1 ← (if srq <=? MAP_SIZE then
          _ ← table_get (map_srq_to_wr_queue c) srq;
          if decide (srq ∈ srq_tail_locked c) then Spin
          else Ok (set_tail_locked ({[srq]} ∪ srq_tail_locked c) c)
        else Ok c);
  csp' ← exchange t (set_req header (mkPollReq h ne) csp);
  poll_finish c1 h srq csp'.

(** ** Retiring *)

Definition n_recv (wcs : list ibv_wc) : nat := length (filter (fun w => is_recv w = true) wcs).

(** The receives a batch of completions retires are the oldest of the ring, in
    order; their data is delivered in that order. *)
Lemma retire_ok wcs : forall m q outs rest,
  models q (outs ++ rest) -> length outs = n_recv wcs ->
  exists q', retire m q wcs = Ok (deliver m (concat outs), q') /\ models q' rest.
Proof.
  induction wcs as [|wc wcs IH]; intros m q outs rest Hm Hl; unfold n_recv in *; simpl in *.
  { destruct outs; [|done]. by exists q. }
  rewrite filter_cons in Hl. destruct (is_recv wc) eqn:E; simpl in Hl.
  - destruct outs as [|x outs]; [done|]. injection Hl as Hl.
    destruct (pop_models _ _ _ Hm) as (q1 & -> & Hm1). simpl.
    destruct (IH (deliver m x) q1 outs rest Hm1 Hl) as (q2 & -> & Hm2).
    exists q2. split; [|done]. unfold deliver. by rewrite foldl_app.
  - by apply IH.
Qed.

Lemma has_recv_false wcs : has_recv wcs = false -> n_recv wcs = 0%nat.
Proof.
  unfold has_recv, n_recv. induction wcs as [|wc wcs IH]; simpl; [done|].
  intros E. apply orb_false_elim in E as [E1 E2]. rewrite filter_cons, E1. simpl. auto.
Qed.

(** Delivery: each record's bytes arrive, when the records do not overlap one
    another or their sources. *)
Definition rec_dst (a : Z) (s : sge_record) : Prop :=
  r_mr_addr s <= a < r_mr_addr s + r_length s.
Definition rec_src (a : Z) (s : sge_record) : Prop :=
  r_shm_addr s <= a < r_shm_addr s + r_length s.

(** A buffer that is not its own shared memory overlaps no other buffer of the
    batch and no shared memory of it. *)
Definition delivery_sane (l : list sge_record) : Prop :=
  forall (i j : nat) s1 s2, l !! i = Some s1 -> l !! j = Some s2 ->
    r_mr_addr s1 <> r_shm_addr s1 -> forall a, rec_dst a s1 ->
    ~ rec_src a s2 /\ (i <> j -> ~ rec_dst a s2).

Lemma deliver_one_out m s a :
  (r_mr_addr s <> r_shm_addr s -> ~ rec_dst a s) -> deliver_one m s a = m a.
Proof.
  intros Ha. unfold deliver_one.
  destruct (Z.eqb_spec (r_mr_addr s) (r_shm_addr s)); [done|]. simpl.
  apply memcpy_out. specialize (Ha n). unfold rec_dst in Ha. lia.
Qed.

Lemma deliver_in l : forall m (i : nat) s k,
  delivery_sane l -> l !! i = Some s -> 0 <= k < r_length s ->
  deliver m l (r_mr_addr s + k) = m (r_shm_addr s + k).
Proof.
  induction l as [|x l IH]; intros m i s k Hs Hi Hk; [done|].
  assert (delivery_sane l) as Hs'.
  { intros i' j' s1 s2 H1 H2 Hne a Ha.
    destruct (Hs (S i') (S j') s1 s2 H1 H2 Hne a Ha). split; auto. }
  simpl. destruct i as [|i]; simpl in Hi.
  - injection Hi as ->.
    assert (forall m', deliver m' l (r_mr_addr s + k) = m' (r_mr_addr s + k)) as Hrest.
    { intros m'. clear IH Hs' m. assert (forall (j : nat) y, l !! j = Some y ->
        r_mr_addr y <> r_shm_addr y -> ~ rec_dst (r_mr_addr s + k) y) as Hno.
      { intros j y Hy Hne Hd.
        destruct (Hs (S j) 0%nat y s Hy eq_refl Hne _ Hd) as [_ Hf].
        apply Hf; [done|]. unfold rec_dst. lia. }
      clear Hs. revert m' Hno. induction l as [|y l IH]; intros m' Hno; [done|].
      simpl. unfold deliver in IH. rewrite IH.
      - apply deliver_one_out. by apply (Hno 0%nat).
      - intros j z Hz. by apply (Hno (S j)). }
    change (foldl deliver_one (deliver_one m s) l) with (deliver (deliver_one m s) l).
    rewrite Hrest. unfold deliver_one.
    destruct (Z.eqb_spec (r_mr_addr s) (r_shm_addr s)) as [->|]; [done|]. simpl.
    by apply memcpy_in.
  - change (foldl deliver_one (deliver_one m x) l) with (deliver (deliver_one m x) l).
    rewrite (IH _ i) by done. apply deliver_one_out. intros Hne Hd.
    destruct (Hs 0%nat (S i) x s eq_refl Hi Hne _ Hd) as [Hf _].
    apply Hf. unfold rec_src. lia.
Qed.

End PollCq.
