(* ===== verification/DataPath.v ===== *)
(** * The data path end to end

    The client's posting and polling calls composed with the router's branches
    through a shared-memory piece: what the device is given for what the
    application posted, and what the application gets for what the device
    reports. *)

From S2P Require Import Prelude CLayout FfTypes Verbs MemPool WrQueue CtrlShm Client.
From S2P Require Import PostSend Router RouterSpec PostRecv PollCq.

Set Default Proof Using "Type".

(** The router is seen by a spinning client as idle for [n] looks, then as
    having answered. *)
Definition fast_path {Q R} (n : nat)
  (answer : CtrlShmPiece Q R -> res (CtrlShmPiece Q R)) : transport (CtrlShmPiece Q R) :=
  mkTransport None (id :: replicate n id ++ [router_turn answer]) (fun _ => Spin).

Lemma exchange_fast {Q R} n answer (p p' : CtrlShmPiece Q R) :
  state p = IDLE -> answer (set_state REQ_DONE p) = Ok p' ->
  exchange (fast_path n answer) p = Ok (set_state RSP_DONE p').
Proof. intros Hs Ha. unfold exchange. by apply request_spin_idle. Qed.

Lemma table_get_some {A} (t : gmap Z A) h x :
  0 <= h < MAP_SIZE -> t !! h = Some x -> table_get t h = Ok x.
Proof.
  intros Hh Hx. unfold table_get. rewrite Hx.
  destruct (Z.leb_spec 0 h), (Z.ltb_spec h MAP_SIZE); try lia. done.
Qed.

Lemma pick_some {A} (t : gmap Z A) old h x :
  0 <= h < MAP_SIZE -> t !! h = Some x -> pick t old h = Some x.
Proof.
  intros Hh Hx. unfold pick. destruct (Z.leb_spec MAP_SIZE h); [lia|done].
Qed.

Lemma unlock_locked (x : Z) (l : gset Z) : x ∉ l -> ({[x]} ∪ l) ∖ {[x]} = l.
Proof. intros Hx. apply set_eq. intros y. set_unfold. tauto || (intuition congruence). Qed.

Section DataPath.
Context {M : Type} `{LkeyMapLaws M}.
Context (ffr : ffrouter) (rkt : gmap Z mr_shm).
Context (dev_send : rqp -> send_chain -> Z * option nat).
Context (dev_recv : rqp -> recv_chain -> Z * option nat).
Context (dev_srq_recv : Z -> recv_chain -> Z * option nat).
Implicit Types c : client M.

(** Where the device finds an entry: the router's mapping of the region, at the
    entry's offset in it. *)
Definition device_sge (lk : M) (s : ibv_sge) : ibv_sge := fix_sge ffr (sge_offset lk s).

(** What the device is to be given for a posted work request. *)
Definition device_send (lk : M) (t : ibv_qp_type) (w : app_send_wr) (a : Z)
  : ibv_send_wr * list ibv_sge :=
  (erase_send (route_send rkt t a (as_wr w)), map (device_sge lk) (as_sgl w)).
Definition device_recv (lk : M) (w : app_recv_wr) : ibv_recv_wr * list ibv_sge :=
  (erase_recv (ar_wr w), map (device_sge lk) (ar_sgl w)).

Definition erase_send_chain (l : send_chain) : send_chain :=
  map (fun x => (erase_send (fst x), snd x)) l.
Definition erase_recv_chain (l : recv_chain) : recv_chain :=
  map (fun x => (erase_recv (fst x), snd x)) l.

(** The request fits into the request area. *)
Definition send_fits (t : ibv_qp_type) (wr : list app_send_wr) : Prop :=
  let n := Z.of_nat (length wr) in
  sizeof t_FfrRequestHeader
  + send_body_bytes n (Z.of_nat (length (concat (map as_sgl wr)))) (if is_ud t then n else 0)
  <= CTRL_REQ_SIZE.
Definition recv_fits (wr : list app_recv_wr) : Prop :=
  sizeof t_FfrRequestHeader
  + recv_body_bytes (Z.of_nat (length wr)) (Z.of_nat (length (concat (map ar_sgl wr))))
  <= CTRL_REQ_SIZE.

Lemma send_fits_small t wr : send_fits t wr ->
  Z.of_nat (length wr) < 2 ^ 32 /\ Z.of_nat (length (concat (map as_sgl wr))) < 2 ^ 32.
Proof.
  unfold send_fits, send_body_bytes, CTRL_REQ_SIZE.
  change (sizeof t_ibv_send_wr) with 128. change (sizeof t_ibv_sge) with 16.
  change (sizeof I32) with 4.
  assert (0 < sizeof t_FfrRequestHeader) by (vm_compute; done).
  assert (0 < sizeof t_ibv_post_send) by (vm_compute; done).
  destruct (is_ud t); lia.
Qed.

Lemma recv_fits_small wr : recv_fits wr ->
  Z.of_nat (length wr) < 2 ^ 32 /\ Z.of_nat (length (concat (map ar_sgl wr))) < 2 ^ 32.
Proof.
  unfold recv_fits, recv_body_bytes, CTRL_REQ_SIZE.
  change (sizeof t_ibv_recv_wr) with 32. change (sizeof t_ibv_sge) with 16.
  assert (0 < sizeof t_FfrRequestHeader) by (vm_compute; done).
  assert (0 < sizeof t_ibv_post_send) by (vm_compute; done). lia.
Qed.

(** The request area's arrays, as the router's items. *)
Definition send_items (lk : M) (wr : list app_send_wr) : list (ibv_send_wr * list ibv_sge) :=
  map (fun w => (as_wr w, map (sge_offset lk) (as_sgl w))) wr.

Lemma send_items_fst lk wr : map fst (send_items lk wr) = map as_wr wr.
Proof. unfold send_items. by rewrite map_map. Qed.
Lemma send_items_snd lk wr :
  concat (map snd (send_items lk wr)) = map (sge_offset lk) (concat (map as_sgl wr)).
Proof. unfold send_items. rewrite map_map. simpl. by rewrite concat_map, map_map. Qed.
Lemma send_items_ok lk t wr :
  Forall (send_ready lk t) wr -> Forall item_ok (send_items lk wr).
Proof.
  intros Hr. apply Forall_map. eapply Forall_impl; [exact Hr|].
  intros w [[Hn _] _]. unfold item_ok. simpl. by rewrite length_map.
Qed.

(** The address handles the fast path gives to the chain. *)
Definition fast_ahs (t : ibv_qp_type) (wr : list app_send_wr) (avs : list Z) : Prop :=
  length avs = length wr /\
  forall ahs, ah_handles t wr = map Some ahs -> ah_plan ffr true t ahs avs.

(** ** Sends *)

Section Send.
Context (c : client M) (ibqp : ibv_qp) (wr : list app_send_wr) (piece : qp_piece)
  (rq : rqp) (qp0 : option rqp) (n : nat) (avs : list Z).

Abbreviation h := (qp_handle ibqp).
Abbreviation lk := (map_lkey_to_mrshm c).

Record send_setup : Prop := {
  ss_ready : Forall (send_ready lk (qp_type ibqp)) wr;
  ss_ne : wr <> [];
  ss_fits : send_fits (qp_type ibqp) wr;
  ss_h : 0 <= h < MAP_SIZE;
  ss_piece : qp_shm_map c !! h = Some piece;
  ss_idle : state piece = IDLE;
  ss_rq : qp_map ffr !! h = Some rq;
  ss_type : rq_type rq = qp_type ibqp;
  ss_ahs : fast_ahs (qp_type ibqp) wr avs }.

Definition send_transport : transport qp_piece :=
  fast_path n (qp_switch ffr (fun _ => rkt) dev_send dev_recv qp0).

(** The whole call, up to what the device returns. *)
Lemma post_send_runs : send_setup ->
  exists chain m p',
    ibv_cmd_post_send send_transport c ibqp wr
    = (b ← find_bad wr (device_rsp (dev_send rq chain));
       Ok (set_memory m (set_qp_piece h p' c), b, s32 (u32 (fst (dev_send rq chain))))) /\
    erase_send_chain chain = zip_with (device_send lk (qp_type ibqp)) wr avs /\
    state p' = IDLE /\
    stage_sges lk (memory c) (concat (map as_sgl wr))
    = Ok (m, map (sge_offset lk) (concat (map as_sgl wr))).
Proof.
  intros [Hr Hne Hf Hh Hp Hi Hq Ht [Hal Hah]].
  destruct (send_fits_small _ _ Hf) as [Hn Hs].
  unfold ibv_cmd_post_send. rewrite (table_get_some _ _ piece) by done.
  cbn [mbind res_bind].
  rewrite count_send_len; [|eapply Forall_impl; [exact Hr|]; by intros w []|done|done].
  unfold send_fits in Hf. destruct (Z.ltb_spec CTRL_REQ_SIZE
    (sizeof t_FfrRequestHeader + send_body_bytes (Z.of_nat (length wr))
       (Z.of_nat (length (concat (map as_sgl wr))))
       (if is_ud (qp_type ibqp) then Z.of_nat (length wr) else 0))); [lia|].
  destruct (fill_send_ok lk _ wr (memory c) Hr) as (m & ahs & -> & Eah & Est).
  cbn [mbind res_bind].
  set (items := send_items lk wr).
  assert (length items = length wr) as Hli by apply length_map.
  set (hdr := mkReqHeader _ _ _). set (cmd := mkCmd _ _ _).
  set (R := routed rkt (qp_type ibqp) items avs).
  assert (post_send_branch ffr (fun _ => rkt) dev_send true qp0
      (mkSendReq cmd (map as_wr wr) (map (sge_offset lk) (concat (map as_sgl wr))) ahs)
    = Ok (mkSendReq cmd (linked (Z.of_nat (length wr)) 0 0 R)
            (map (fix_sge ffr) (map (sge_offset lk) (concat (map as_sgl wr)))) ahs,
          device_rsp (dev_send rq (device_chain ffr R)))) as Ebr.
  { pose proof (post_send_branch_ok ffr rkt dev_send true qp0 rq h items avs ahs
      (pick_some _ _ _ _ Hh Hq) (send_items_ok _ _ _ Hr)) as E.
    rewrite Ht, Hli in E. unfold items in E.
    rewrite send_items_fst, send_items_snd, length_map in E.
    apply E; try done.
    - intros He. by destruct wr.
    - by apply Hah. }
  eexists (device_chain ffr R), m, _. split_and!; [| | |exact Est].
  - unfold send_transport. erewrite exchange_fast; [|done|].
    2: { unfold qp_switch. simpl. rewrite Ebr. reflexivity. }
    cbn [mbind res_bind rsp set_state set_rsp].
    unfold device_rsp at 2 3. reflexivity.
  - unfold erase_send_chain. rewrite (device_chain_erase ffr erase_send)
      by apply erase_send_link.
    subst R items. clear - Hal. revert avs Hal. unfold routed, send_items, device_send.
    induction wr as [|w l IH]; intros [|a avs'] Hl; simpl in *; try done.
    rewrite IH by lia. f_equal. f_equal. unfold device_sge. by rewrite map_map.
  - done.
Qed.
End Send.

(** ** Receives *)

Definition recv_items (lk : M) (k : nat) (wr : list app_recv_wr)
  : list (ibv_recv_wr * list ibv_sge) :=
  zip (area_recv k wr) (map (fun w => map (sge_offset lk) (ar_sgl w)) wr).

Lemma area_recv_length wr : forall k, length (area_recv k wr) = length wr.
Proof. induction wr as [|w wr IH]; intros k; simpl; [done|]. by rewrite IH. Qed.

Lemma recv_items_fst lk wr k : map fst (recv_items lk k wr) = area_recv k wr.
Proof. apply fst_zip. by rewrite area_recv_length, length_map. Qed.
Lemma recv_items_snd lk wr k :
  concat (map snd (recv_items lk k wr)) = map (sge_offset lk) (concat (map ar_sgl wr)).
Proof.
  unfold recv_items. rewrite (snd_zip (area_recv k wr)).
  - by rewrite concat_map, map_map.
  - by rewrite area_recv_length, length_map.
Qed.
Lemma recv_items_ok lk wr : forall k,
  Forall app_recv_wf wr -> Forall item_ok (recv_items lk k wr).
Proof.
  induction wr as [|w wr IH]; intros k Hw; [constructor|].
  apply Forall_cons in Hw as [[Hn _] Hw]. constructor; [|by apply IH].
  unfold item_ok. simpl. rewrite length_map, <- Hn. by destruct (_ =? 0).
Qed.
Lemma recv_items_erase lk wr : forall k,
  map (fun it => (erase_recv (fst it), map (fix_sge ffr) (snd it))) (recv_items lk k wr)
  = map (device_recv lk) wr.
Proof.
  induction wr as [|w wr IH]; intros k; [done|]. unfold recv_items in *. simpl.
  rewrite IH. f_equal. unfold device_recv, device_sge. rewrite map_map. f_equal.
  by destruct (_ =? 0).
Qed.

(** The router's side of a receive posted with any of the two calls. *)
Lemma recv_branch_runs {A} (dev : A -> recv_chain -> Z * option nat) obj lk h wr :
  Forall app_recv_wf wr -> wr <> [] -> Z.of_nat (length wr) < 2 ^ 32 ->
  exists chain r',
    post_recv_body ffr dev obj
      (mkRecvReq (mkCmd h (Z.of_nat (length wr)) (Z.of_nat (length (concat (map ar_sgl wr)))))
         (area_recv 0 wr) (map (sge_offset lk) (concat (map ar_sgl wr))))
    = Ok (r', device_rsp (dev obj chain)) /\
    erase_recv_chain chain = map (device_recv lk) wr.
Proof.
  intros Hw Hne Hn. set (items := recv_items lk 0 wr).
  assert (length items = length wr) as Hli.
  { unfold items, recv_items. rewrite length_zip, area_recv_length, length_map. lia. }
  pose proof (post_recv_body_ok ffr dev obj h items (recv_items_ok lk wr 0 Hw)) as E.
  rewrite Hli in E. unfold items in E.
  rewrite recv_items_fst, recv_items_snd, length_map in E.
  exists (device_chain ffr (recv_items lk 0 wr)). eexists. split.
  - apply E; [|done]. fold items. intros He. rewrite He in Hli. by destruct wr.
  - unfold erase_recv_chain. rewrite (device_chain_erase ffr erase_recv)
      by apply erase_recv_link. apply recv_items_erase.
Qed.

Lemma count_recv_acc wr : forall a b,
  0 <= a -> 0 <= b -> Forall app_recv_wf wr ->
  a + Z.of_nat (length wr) < 2 ^ 32 ->
  b + Z.of_nat (length (concat (map ar_sgl wr))) < 2 ^ 32 ->
  foldl (fun '(w, s) i => (u32 (w + 1), u32 (s + v_num_sge (ar_wr i)))) (a, b) wr
  = (a + Z.of_nat (length wr), b + Z.of_nat (length (concat (map ar_sgl wr)))).
Proof.
  induction wr as [|w wr IH]; intros a b Ha Hb Hw Hla Hlb; simpl in *.
  { f_equal; lia. }
  apply Forall_cons in Hw as [[Hn _] Hw]. rewrite length_app in *.
  rewrite Hn, !u32_small by lia. rewrite IH by (auto; lia). f_equal; lia.
Qed.

Lemma count_recv_len wr : Forall app_recv_wf wr -> recv_fits wr ->
  count_recv wr = (Z.of_nat (length wr), Z.of_nat (length (concat (map ar_sgl wr)))).
Proof.
  intros Hw Hf. apply recv_fits_small in Hf as [? ?].
  unfold count_recv. by rewrite count_recv_acc by (auto; lia).
Qed.

Lemma sgl_sizes wr : recv_fits wr ->
  Forall (fun w => Z.of_nat (length (ar_sgl w)) < 2 ^ 32) wr.
Proof.
  intros Hf. apply recv_fits_small in Hf as [_ Hs].
  apply Forall_forall. intros w Hw.
  apply list_elem_of_split in Hw as (l1 & l2 & ->).
  rewrite map_app, concat_app in Hs. simpl in Hs. rewrite !length_app in Hs. lia.
Qed.

(** The records a chain of receives adds to its ring. *)
Definition recv_records (lk : M) (wr : list app_recv_wr) : list (list sge_record) :=
  map (fun w => map (recv_record lk) (ar_sgl w)) wr.

Section Recv.
Context (c : client M) (wr : list app_recv_wr) (piece : qp_piece) (q : wr_queue)
  (outs : list (list sge_record)) (n : nat).
Abbreviation lk := (map_lkey_to_mrshm c).

(** What a chain of receives needs on the client's side, whichever the call. *)
Record recv_setup : Prop := {
  rs_ready : Forall (recv_ready lk) wr;
  rs_ne : wr <> [];
  rs_fits : recv_fits wr;
  rs_idle : state piece = IDLE;
  rs_ring : models q outs;
  rs_room : Z.of_nat (length outs + length wr) <= CAPACITY }.

Lemma recv_setup_fill : recv_setup ->
  Forall app_recv_wf wr /\ exists q',
    fill_recv lk q 0 wr
    = Ok (q', area_recv 0 wr, map (sge_offset lk) (concat (map ar_sgl wr))) /\
    models q' (outs ++ recv_records lk wr).
Proof.
  intros [Hr Hne Hf Hi Hm Hroom]. split.
  - eapply Forall_impl; [exact Hr|]. by intros w [].
  - apply fill_recv_ok; auto. by apply sgl_sizes.
Qed.

Lemma post_recv_runs (ibqp : ibv_qp) (rq : rqp) (qp0 : option rqp) :
  recv_setup -> 0 <= qp_handle ibqp < MAP_SIZE ->
  0 <= qp_recv_cq_handle ibqp < MAP_SIZE ->
  qp_shm_map c !! qp_handle ibqp = Some piece ->
  map_cq_to_wr_queue c !! qp_recv_cq_handle ibqp = Some q ->
  qp_map ffr !! qp_handle ibqp = Some rq ->
  exists chain p' q',
    ibv_cmd_post_recv
      (fast_path n (qp_switch ffr (fun _ => rkt) dev_send dev_recv qp0)) c ibqp wr
    = (b ← find_bad wr (device_rsp (dev_recv rq chain));
       Ok (set_cq_queue (qp_recv_cq_handle ibqp) q' (set_qp_piece (qp_handle ibqp) p' c),
           b, s32 (u32 (fst (dev_recv rq chain))))) /\
    erase_recv_chain chain = map (device_recv lk) wr /\
    state p' = IDLE /\ models q' (outs ++ recv_records lk wr).
Proof.
  intros Hset Hh Hc Hp Hq Hrq. destruct (recv_setup_fill Hset) as (Hw & q' & Ef & Hm').
  destruct Hset as [_ Hne Hf Hi _ _].
  destruct (recv_fits_small _ Hf) as [Hn _].
  unfold ibv_cmd_post_recv. rewrite (table_get_some _ _ piece) by done.
  cbn [mbind res_bind]. rewrite count_recv_len by done.
  unfold recv_fits in Hf.
  match goal with |- context [CTRL_REQ_SIZE <? ?x] => destruct (Z.ltb_spec CTRL_REQ_SIZE x) end;
    [lia|].
  rewrite (table_get_some _ _ q) by done. cbn [mbind res_bind]. rewrite Ef.
  cbn [mbind res_bind].
  destruct (recv_branch_runs dev_recv rq lk (qp_handle ibqp) wr Hw Hne Hn)
    as (chain & r' & Eb & Ech).
  eexists chain, _, q'. split_and!; [|done| |done].
  - erewrite exchange_fast; [|done|].
    2: { unfold qp_switch. simpl. unfold post_recv_branch. simpl c_handle.
         rewrite (pick_some _ _ _ rq) by done. cbn [of_option mbind res_bind].
         rewrite Eb. reflexivity. }
    cbn [mbind res_bind rsp set_state set_rsp]. unfold device_rsp at 2 3. reflexivity.
  - done.
Qed.

Lemma post_srq_recv_runs (h srq : Z) (srq0 : option Z) :
  recv_setup -> 0 <= h < MAP_SIZE ->
  srq_shm_map c !! h = Some piece -> map_srq_to_wr_queue c !! h = Some q ->
  srq_map ffr !! h = Some srq ->
  exists chain p' q',
    ibv_cmd_post_srq_recv (fast_path n (srq_switch ffr dev_srq_recv srq0)) c h wr
    = (b ← find_bad wr (device_rsp (dev_srq_recv srq chain));
       Ok (set_srq_queue h q' (set_srq_piece h p' c),
           b, s32 (u32 (fst (dev_srq_recv srq chain))))) /\
    erase_recv_chain chain = map (device_recv lk) wr /\
    state p' = IDLE /\ models q' (outs ++ recv_records lk wr).
Proof.
  intros Hset Hh Hp Hq Hrq. destruct (recv_setup_fill Hset) as (Hw & q' & Ef & Hm').
  destruct Hset as [_ Hne Hf Hi _ _].
  destruct (recv_fits_small _ Hf) as [Hn _].
  unfold ibv_cmd_post_srq_recv.
  rewrite (table_get_some _ _ piece), (table_get_some _ _ q) by done.
  cbn [mbind res_bind]. rewrite count_recv_len by done.
  unfold recv_fits in Hf.
  match goal with |- context [CTRL_REQ_SIZE <? ?x] => destruct (Z.ltb_spec CTRL_REQ_SIZE x) end;
    [lia|].
  rewrite Ef. cbn [mbind res_bind].
  destruct (recv_branch_runs dev_srq_recv srq lk h wr Hw Hne Hn) as (chain & r' & Eb & Ech).
  eexists chain, _, q'. split_and!; [|done| |done].
  - erewrite exchange_fast; [|done|].
    2: { unfold srq_switch. simpl. unfold post_srq_recv_branch. simpl c_handle.
         rewrite (pick_some _ _ _ srq) by done. cbn [of_option mbind res_bind].
         rewrite Eb. reflexivity. }
    cbn [mbind res_bind rsp set_state set_rsp]. unfold device_rsp at 2 3. reflexivity.
  - done.
Qed.
End Recv.

(** ** Completions *)

Section Poll.
Context (dev_poll : Z -> Z -> Z * list ibv_wc).
Context (c : client M) (h ne srq cq : Z) (cq0 : option Z) (piece : cq_piece)
  (wcs : list ibv_wc) (n : nat).

Record poll_setup : Prop := {
  ps_h : 0 <= h < MAP_SIZE;
  ps_piece : cq_shm_map c !! h = Some piece;
  ps_idle : state piece = IDLE;
  ps_srq : map_cq_to_srq c !! h = Some srq;
  ps_cq : cq_map ffr !! h = Some cq;
  ps_dev : dev_poll cq ne = (Z.of_nat (length wcs), wcs);
  ps_fits : sizeof t_FfrResponseHeader + Z.of_nat (length wcs) * sizeof t_ibv_wc
            <= CTRL_RSP_SIZE }.

Lemma poll_answered : poll_setup ->
  let hdr := mkReqHeader (ffr_client_id c) IBV_POLL_CQ (sizeof t_IBV_POLL_CQ_REQ) in
  exchange (fast_path n (poll_answer ffr dev_poll cq0)) (set_req hdr (mkPollReq h ne) piece)
  = Ok (mkCsp RSP_DONE hdr (mkPollReq h ne) (Z.of_nat (length wcs) * sizeof t_ibv_wc) wcs).
Proof.
  intros [Hh Hp Hi Hs Hc Hd Hf] hdr.
  unfold CTRL_RSP_SIZE in Hf. change (sizeof t_FfrResponseHeader) with 4 in Hf.
  change (sizeof t_ibv_wc) with 48 in *.
  erewrite exchange_fast; [|done|].
  2: { unfold poll_answer, poll_switch. simpl pq_cq_handle. simpl pq_ne.
       rewrite (pick_some _ _ _ cq) by done. rewrite Hd.
       unfold CTRL_RSP_SIZE. change (sizeof t_FfrResponseHeader) with 4.
       change (sizeof t_ibv_wc) with 48.
       destruct (Z.ltb_spec (1024 * 1024) (4 + Z.of_nat (length wcs) * 48)); [lia|].
       rewrite u32_small by lia. rewrite take_n_all. reflexivity. }
  unfold set_state, set_rsp, set_req. simpl. do 2 f_equal.
  destruct (Z.leb_spec (Z.of_nat (length wcs)) 0); [lia|]. apply s32_small. lia.
Qed.

(** The part behind the exchange, when the ring has the receives the completions
    are for. *)
Lemma poll_finish_ok c1 p :
  poll_setup -> c1 = c \/ (exists l, c1 = set_tail_locked l c) ->
  rsp_size p = Z.of_nat (length wcs) * sizeof t_ibv_wc -> rsp p = wcs ->
  forall q outs rest,
  (if srq <=? MAP_SIZE then map_srq_to_wr_queue c !! srq else map_cq_to_wr_queue c !! h)
  = Some q ->
  0 <= srq -> srq <> MAP_SIZE ->
  models q (outs ++ rest) -> length outs = n_recv wcs ->
  exists c' q',
    poll_finish c1 h srq p = Ok (c', Z.of_nat (length wcs), wcs) /\
    memory c' = deliver (memory c) (concat outs) /\
    cq_shm_map c' !! h = Some (set_state IDLE p) /\
    (if srq <=? MAP_SIZE then map_srq_to_wr_queue c' !! srq
     else map_cq_to_wr_queue c' !! h) = Some q' /\
    models q' rest /\
    srq_tail_locked c' = (if srq <=? MAP_SIZE then srq_tail_locked c1 ∖ {[srq]}
                          else srq_tail_locked c1).
Proof.
  intros [Hh Hp Hi Hs Hc Hd Hf] Hc1 Hsz Hrsp q outs rest Hq Hs0 Hs1 Hm Hl.
  unfold CTRL_RSP_SIZE in Hf. change (sizeof t_FfrResponseHeader) with 4 in Hf.
  unfold poll_finish. change (sizeof t_ibv_wc) with 48 in *. rewrite Hsz, Hrsp.
  rewrite u64_small by lia. rewrite Z.mod_mul, Z.div_mul by lia. cbn [negb Z.eqb].
  rewrite s32_small by lia.
  replace (if Z.of_nat (length wcs) <=? 0 then Ok [] else take_n (Z.of_nat (length wcs)) wcs)
    with (Ok wcs) by (rewrite take_n_all; by destruct wcs).
  cbn [mbind res_bind].
  assert (negb (MAP_SIZE <? srq) = (srq <=? MAP_SIZE)) as ->.
  { destruct (Z.ltb_spec MAP_SIZE srq), (Z.leb_spec srq MAP_SIZE); simpl; lia. }
  assert (memory c1 = memory c /\ map_srq_to_wr_queue c1 = map_srq_to_wr_queue c /\
    map_cq_to_wr_queue c1 = map_cq_to_wr_queue c) as (Em & Es & Ec)
    by (destruct Hc1 as [->|[l ->]]; done).
  rewrite Em, Es, Ec.
  destruct (retire_ok wcs (memory c) q outs rest Hm Hl) as (q' & Er & Hm').
  destruct (has_recv wcs) eqn:Ehr.
  - destruct (Z.leb_spec srq MAP_SIZE).
    + rewrite (table_get_some _ _ q) by (done || lia). cbn [mbind res_bind]. rewrite Er.
      cbn [mbind res_bind]. eexists _, q'. split; [reflexivity|].
      simpl. by rewrite !lookup_insert_eq.
    + rewrite (table_get_some _ _ q) by done. cbn [mbind res_bind]. rewrite Er.
      cbn [mbind res_bind]. eexists _, q'. split; [reflexivity|].
      simpl. by rewrite !lookup_insert_eq.
  - apply has_recv_false in Ehr. rewrite Ehr in Hl. destruct outs; [|done].
    cbn [mbind res_bind]. eexists _, q. split; [reflexivity|].
    destruct (srq <=? MAP_SIZE); simpl; rewrite ?lookup_insert_eq, ?Es, ?Ec, ?Em; done.
Qed.

(** The state [ibv_cmd_poll_cq] leaves after the ring's oldest [outs] completed. *)
Definition polled (c' : client M) (outs rest : list (list sge_record)) : Prop :=
  exists p' q',
    memory c' = deliver (memory c) (concat outs) /\
    cq_shm_map c' !! h = Some p' /\ state p' = IDLE /\
    (if srq <=? MAP_SIZE then map_srq_to_wr_queue c' !! srq
     else map_cq_to_wr_queue c' !! h) = Some q' /\
    models q' rest /\ srq_tail_locked c' = srq_tail_locked c.

Lemma poll_runs q outs rest :
  poll_setup -> 0 <= srq -> srq <> MAP_SIZE -> srq ∉ srq_tail_locked c ->
  (if srq <=? MAP_SIZE then map_srq_to_wr_queue c !! srq else map_cq_to_wr_queue c !! h)
  = Some q ->
  models q (outs ++ rest) -> length outs = n_recv wcs ->
  exists c',
    ibv_cmd_poll_cq (fast_path n (poll_answer ffr dev_poll cq0)) c h ne
    = Ok (c', Z.of_nat (length wcs), wcs) /\ polled c' outs rest.
Proof.
  intros Hset Hs0 Hs1 Hlock Hq Hm Hl. pose proof Hset as [Hh Hp Hi Hs Hc Hd Hf].
  unfold ibv_cmd_poll_cq.
  rewrite (table_get_some _ _ piece), (table_get_some _ _ srq) by done.
  cbn [mbind res_bind].
  set (c1 := if srq <=? MAP_SIZE then set_tail_locked ({[srq]} ∪ srq_tail_locked c) c else c).
  assert ((if srq <=? MAP_SIZE then
             _ ← table_get (map_srq_to_wr_queue c) srq;
             if decide (srq ∈ srq_tail_locked c) then Spin
             else Ok (set_tail_locked ({[srq]} ∪ srq_tail_locked c) c)
           else Ok c) = Ok c1) as ->.
  { unfold c1. destruct (Z.leb_spec srq MAP_SIZE); [|done].
    rewrite (table_get_some _ _ q) by (done || lia). cbn [mbind res_bind].
    by rewrite decide_False. }
  cbn [mbind res_bind]. rewrite poll_answered by done. cbn [mbind res_bind].
  destruct (poll_finish_ok c1 (mkCsp RSP_DONE
    (mkReqHeader (ffr_client_id c) IBV_POLL_CQ (sizeof t_IBV_POLL_CQ_REQ))
    (mkPollReq h ne) (Z.of_nat (length wcs) * sizeof t_ibv_wc) wcs) Hset) with (q := q)
    (outs := outs) (rest := rest) as (c' & q' & E & Em & Ep & Eq & Hm' & El); auto.
  { unfold c1. destruct (srq <=? MAP_SIZE); eauto. }
  exists c'. split; [exact E|]. eexists _, q'. split_and!; eauto.
  rewrite El. unfold c1. destruct (srq <=? MAP_SIZE); [|done].
  by apply unlock_locked.
Qed.
End Poll.
End DataPath.
