(* ===== verification/DataPathSpec.v ===== *)
(** * Correctness of the data path

    What the composition of client and router shows to the application and to
    the device: sends, receives, completions, and the error paths. *)

From S2P Require Import Prelude CLayout FfTypes Verbs MemPool WrQueue CtrlShm Client.
From S2P Require Import PostSend Router RouterSpec PostRecv PollCq DataPath.

Lemma zip_with_const {A B C} (f : A -> B -> C) l b :
  zip_with f l (replicate (length l) b) = map (fun x => f x b) l.
Proof. induction l; simpl; [done|]. by f_equal. Qed.

Lemma fast_ahs_connected ffr t wr :
  is_ud t = false -> fast_ahs ffr t wr (replicate (length wr) 0).
Proof.
  intros Ht. split; [apply length_replicate|]. intros ahs _.
  induction (length wr); simpl; [done|]. rewrite Ht. simpl. split; [done|auto].
Qed.

(** The address handles of a chain of datagrams: the fast path gives the first
    one to all of them. *)
Lemma ah_plan_fast ffr h hs a n :
  ah_lookup ffr (h :: hs) = Ok a ->
  ah_plan ffr true IBV_QPT_UD (h :: hs) (replicate n a).
Proof. intros Ha. induction n; simpl; auto. Qed.

Lemma ah_plan_slow ffr hs : forall avs,
  Forall2 (fun h a => ah_lookup ffr [h] = Ok a) hs avs ->
  ah_plan ffr false IBV_QPT_UD hs avs.
Proof.
  induction hs as [|h hs IH]; intros avs Hf; apply Forall2_cons_inv_l in Hf || inversion Hf;
    subst; simpl; auto.
  destruct Hf as (a & avs' & Ha & Hf & ->). simpl. split; [done|]. by apply IH.
Qed.

(** A work request the device rejects at index [i] of the chain. *)
Lemma find_bad_index {A} (wr : list A) ret i :
  (i < length wr)%nat -> ret <> 0 ->
  find_bad wr (device_rsp (ret, Some i)) = Ok (Some (drop (Nat.pred i) wr)).
Proof.
  intros Hi Hr. unfold find_bad. simpl. destruct i as [|i]; simpl Z.of_nat.
  - simpl. by destruct (Z.eqb_spec ret 0).
  - destruct (Z.eqb_spec (Z.of_nat (S i)) 0); [lia|]. simpl negb.
    replace (Z.to_nat (Z.of_nat (S i) - 1)) with i by lia.
    rewrite chain_walk_drop by lia. done.
Qed.

(** What a post function makes of an error of the device. *)
Lemma post_error {A C} (wr : list A) (err : Z) (i : nat) (c' : C) :
  (i < length wr)%nat -> 0 < err < 2 ^ 31 ->
  (b ← find_bad wr (device_rsp (err, Some i)); Ok (c', b, s32 (u32 (fst (err, Some i)))))
  = Ok (c', Some (drop (Nat.pred i) wr), err).
Proof.
  intros Hi Herr. rewrite find_bad_index by lia. simpl.
  by rewrite u32_small, s32_small by lia.
Qed.

(** ** Sends *)

Section Sends.
Context {M : Type} `{LkeyMap M}.
Context (ffr : ffrouter) (rkt : gmap Z mr_shm).
Context (dev_send : rqp -> send_chain -> Z * option nat).
Context (dev_recv : rqp -> recv_chain -> Z * option nat).
Context (c : client M) (ibqp : ibv_qp) (wr : list app_send_wr) (piece : qp_piece)
  (rq : rqp) (qp0 : option rqp) (n : nat).

Abbreviation lk := (map_lkey_to_mrshm c).
Abbreviation sgl := (concat (map as_sgl wr)).
Abbreviation post := (ibv_cmd_post_send
  (send_transport ffr rkt dev_send dev_recv qp0 n) c ibqp wr).

(** C1: Posting a chain of sends or one-sided operations on a queue pair that is
    not of type UD, whose entries lie in registered regions, whose request fits the
    piece and whose copies do not overlap their sources: the device is handed
    exactly the posted work requests, in order, each with its entries at the
    router's mapping of their regions and its remote address translated.  The
    result is the device's: 0 and no failed request when it accepts the chain; its
    error otherwise, with the head of the chain as failed request when it refuses
    the first one, and with the request before the refused one when that is a
    later one.  In each case the channel is idle again, every byte of the payload
    is staged at its place in the shared memory, and no other byte of memory
    changes. *)
Theorem post_send_reaches_device :
  send_setup ffr c ibqp wr piece rq (replicate (length wr) 0) ->
  is_ud (qp_type ibqp) = false ->
  Forall (sge_in_region lk) sgl -> staging_sane lk sgl ->
  exists chain c',
    erase_send_chain chain
    = map (fun w => device_send ffr rkt lk (qp_type ibqp) w 0) wr /\
    (dev_send rq chain = (0, None) -> post = Ok (c', None, 0)) /\
    (forall err i, dev_send rq chain = (err, Some i) -> 0 < err < 2 ^ 31 ->
       (i < length wr)%nat -> post = Ok (c', Some (drop (Nat.pred i) wr), err)) /\
    (exists p', qp_shm_map c' !! qp_handle ibqp = Some p' /\ state p' = IDLE) /\
    (forall s k, s ∈ sgl -> 0 <= k < sge_length s ->
       memory c' (sge_addr s + sge_disp lk s + k) = memory c (sge_addr s + k)) /\
    (forall a, ~ Exists (dst_has lk a) sgl -> memory c' a = memory c a).
Proof.
  intros Hset _ Hreg Hsane.
  destruct (post_send_runs ffr rkt dev_send dev_recv c ibqp wr piece rq qp0 n _ Hset)
    as (chain & m & p' & E & Ech & Hp' & Est).
  destruct (stage_sges_mem _ _ _ _ _ Hreg Hsane Est) as [Hin Hout].
  exists chain, (set_memory m (set_qp_piece (qp_handle ibqp) p' c)).
  rewrite E, Ech, zip_with_const. split_and!; auto.
  - by intros ->.
  - intros err i -> Herr Hi. by rewrite post_error.
  - exists p'. simpl. by rewrite lookup_insert_eq.
Qed.

(** When the device refuses the request at position [S i] of the chain, the
    router answers with that position counted from 0 and the client reads it as
    counted from 1: the application is told that the request before it failed. *)
Theorem post_send_bad_wr_is_the_one_before (i : nat) (err : Z) :
  send_setup ffr c ibqp wr piece rq (replicate (length wr) 0) ->
  (S i < length wr)%nat -> 0 < err < 2 ^ 31 ->
  (forall chain, dev_send rq chain = (err, Some (S i))) ->
  exists c', post = Ok (c', Some (drop i wr), err) /\ drop i wr <> drop (S i) wr.
Proof.
  intros Hset Hi Herr Hdev.
  destruct (post_send_runs ffr rkt dev_send dev_recv c ibqp wr piece rq qp0 n _ Hset)
    as (chain & m & p' & E & _).
  eexists. rewrite E, Hdev, post_error by lia. split; [reflexivity|].
  intros Hd. apply (f_equal length) in Hd. rewrite !length_drop in Hd. lia.
Qed.

End Sends.

(** A chain of datagrams: through the socket every request is sent with its
    own address handle; through the shared-memory channel all of them are sent
    with the address handle of the first. *)
Theorem ud_address_handles ffr rkt dev_send qp0 qp h
  (items : list (ibv_send_wr * list ibv_sge)) (hs avs : list Z) a0 :
  pick (qp_map ffr) qp0 h = Some qp -> rq_type qp = IBV_QPT_UD ->
  Forall item_ok items -> items <> [] -> Z.of_nat (length items) < 2 ^ 32 ->
  Forall2 (fun h a => ah_lookup ffr [h] = Ok a) hs avs -> length avs = length items ->
  avs !! 0%nat = Some a0 ->
  let req := mkSendReq (mkCmd h (Z.of_nat (length items))
    (Z.of_nat (length (concat (map snd items))))) (map fst items)
    (concat (map snd items)) hs in
  let sent fast as_ := exists r' chain,
    post_send_branch ffr (fun _ => rkt) dev_send fast qp0 req
    = Ok (r', device_rsp (dev_send qp chain)) /\
    erase_send_chain chain
    = zip_with (fun it a => (erase_send (route_send rkt IBV_QPT_UD a (fst it)),
                             map (fix_sge ffr) (snd it))) items as_ in
  sent false avs /\ sent true (replicate (length items) a0).
Proof.
  intros Hp Ht Hok Hne Hmax Hf Hlen Ha0 req sent.
  assert (forall fast l, length l = length items -> ah_plan ffr fast IBV_QPT_UD hs l ->
    sent fast l) as Hsent.
  { intros fast l Hl Hplan. do 2 eexists. split.
    - apply post_send_branch_ok; rewrite ?Ht; eauto.
    - unfold erase_send_chain. rewrite (device_chain_erase ffr erase_send)
        by apply erase_send_link.
      rewrite Ht. clear - Hl. revert l Hl. unfold routed.
      induction items as [|it items IH]; intros [|a l] Hl; simpl in *; try done.
      rewrite IH by lia. done. }
  split; apply Hsent; auto.
  - by apply ah_plan_slow.
  - apply length_replicate.
  - destruct Hf as [|hd a hs avs Ha _]; [done|]. injection Ha0 as ->.
    by apply ah_plan_fast.
Qed.

(** ** Receives *)

Section Recvs.
Context {M : Type} `{LkeyMap M}.
Context (ffr : ffrouter) (rkt : gmap Z mr_shm).
Context (dev_send : rqp -> send_chain -> Z * option nat).
Context (dev_recv : rqp -> recv_chain -> Z * option nat).
Context (dev_srq_recv : Z -> recv_chain -> Z * option nat).
Context (c : client M) (wr : list app_recv_wr) (piece : qp_piece) (q : wr_queue)
  (outs : list (list sge_record)) (n : nat).
Abbreviation lk := (map_lkey_to_mrshm c).

(** C2: Posting a chain of receives on a queue pair, with entries in registered
    regions, a request that fits the piece and room in the ring: the device is
    handed the posted work requests, in order, with their entries at the router's
    mapping of their regions, and the call returns what the device answers to
    them: 0 and no failed request when it accepts the chain; its error otherwise,
    with the head of the chain as failed request when it refuses the first one and
    the request before the refused one when that is a later one.  The channel is
    idle again, and the ring of the receive completion queue, which held the
    receives [outs], holds [outs] and behind them the posted ones, in order, with
    where their data arrives and where it is to be copied. *)
Theorem post_recv_reaches_device (ibqp : ibv_qp) (rq : rqp) (qp0 : option rqp) :
  recv_setup c wr piece q outs ->
  0 <= qp_handle ibqp < MAP_SIZE -> 0 <= qp_recv_cq_handle ibqp < MAP_SIZE ->
  qp_shm_map c !! qp_handle ibqp = Some piece ->
  map_cq_to_wr_queue c !! qp_recv_cq_handle ibqp = Some q ->
  qp_map ffr !! qp_handle ibqp = Some rq ->
  let post := ibv_cmd_post_recv
    (fast_path n (qp_switch ffr (fun _ => rkt) dev_send dev_recv qp0)) c ibqp wr in
  exists chain c' q',
    erase_recv_chain chain = map (device_recv ffr lk) wr /\
    (dev_recv rq chain = (0, None) -> post = Ok (c', None, 0)) /\
    (forall err i, dev_recv rq chain = (err, Some i) -> 0 < err < 2 ^ 31 ->
       (i < length wr)%nat -> post = Ok (c', Some (drop (Nat.pred i) wr), err)) /\
    (exists p', qp_shm_map c' !! qp_handle ibqp = Some p' /\ state p' = IDLE) /\
    map_cq_to_wr_queue c' !! qp_recv_cq_handle ibqp = Some q' /\
    models q' (outs ++ recv_records lk wr).
Proof.
  intros Hset Hh Hc Hp Hq Hrq post.
  destruct (post_recv_runs ffr rkt dev_send dev_recv c wr piece q outs n ibqp rq qp0
    Hset Hh Hc Hp Hq Hrq) as (chain & p' & q' & E & Ech & Hp' & Hm).
  exists chain. eexists _, q'. unfold post. rewrite E. split_and!; [done| | | | |done].
  - by intros ->.
  - intros err i -> Herr Hi. by rewrite post_error.
  - exists p'. simpl. by rewrite lookup_insert_eq.
  - simpl. by rewrite lookup_insert_eq.
Qed.

(** The same for a shared receive queue and its ring. *)
Theorem post_srq_recv_reaches_device (h srq : Z) (srq0 : option Z) :
  recv_setup c wr piece q outs -> 0 <= h < MAP_SIZE ->
  srq_shm_map c !! h = Some piece -> map_srq_to_wr_queue c !! h = Some q ->
  srq_map ffr !! h = Some srq ->
  let post := ibv_cmd_post_srq_recv
    (fast_path n (srq_switch ffr dev_srq_recv srq0)) c h wr in
  exists chain c' q',
    erase_recv_chain chain = map (device_recv ffr lk) wr /\
    (dev_srq_recv srq chain = (0, None) -> post = Ok (c', None, 0)) /\
    (forall err i, dev_srq_recv srq chain = (err, Some i) -> 0 < err < 2 ^ 31 ->
       (i < length wr)%nat -> post = Ok (c', Some (drop (Nat.pred i) wr), err)) /\
    (exists p', srq_shm_map c' !! h = Some p' /\ state p' = IDLE) /\
    map_srq_to_wr_queue c' !! h = Some q' /\
    models q' (outs ++ recv_records lk wr).
Proof.
  intros Hset Hh Hp Hq Hrq post.
  destruct (post_srq_recv_runs ffr dev_srq_recv c wr piece q outs n h srq srq0
    Hset Hh Hp Hq Hrq) as (chain & p' & q' & E & Ech & Hp' & Hm).
  exists chain. eexists _, q'. unfold post. rewrite E. split_and!; [done| | | | |done].
  - by intros ->.
  - intros err i -> Herr Hi. by rewrite post_error.
  - exists p'. simpl. by rewrite lookup_insert_eq.
  - simpl. by rewrite lookup_insert_eq.
Qed.

End Recvs.

(** ** Completions *)

Section Polls.
Context {M : Type}.
Implicit Types c : client M.

(** C3: Polling: the application gets the device's completions in order; the
    receive completions among them retire the oldest receives of the ring (the
    shared receive queue's when the queue has one), one each, and every byte the
    device placed in the shared memory of a retired receive is afterwards in the
    application's buffer; the channel is idle and the shared receive queue's
    lock is released. *)
Theorem poll_cq_delivers ffr dev_poll c h ne srq cq cq0 piece wcs n q outs rest :
  poll_setup ffr dev_poll c h ne srq cq piece wcs ->
  0 <= srq -> srq <> MAP_SIZE -> srq ∉ srq_tail_locked c ->
  (if srq <=? MAP_SIZE then map_srq_to_wr_queue c !! srq else map_cq_to_wr_queue c !! h)
  = Some q ->
  models q (outs ++ rest) -> length outs = n_recv wcs -> delivery_sane (concat outs) ->
  exists c',
    ibv_cmd_poll_cq (fast_path n (poll_answer ffr dev_poll cq0)) c h ne
    = Ok (c', Z.of_nat (length wcs), wcs) /\
    polled c h srq c' outs rest /\
    forall s k, s ∈ concat outs -> 0 <= k < r_length s ->
      memory c' (r_mr_addr s + k) = memory c (r_shm_addr s + k).
Proof.
  intros Hset Hs0 Hs1 Hlock Hq Hm Hl Hsane.
  destruct (poll_runs ffr dev_poll c h ne srq cq cq0 piece wcs n q outs rest)
    as (c' & E & Hpolled); auto.
  exists c'. split_and!; [done|done|]. intros s k Hs Hk.
  destruct Hpolled as (p' & q' & -> & _).
  apply list_elem_of_lookup_1 in Hs as [i Hi]. by eapply deliver_in.
Qed.

(** A response whose size is not a whole number of completions makes the call
    return -1 with the piece still in RSP_DONE: every later poll of that queue
    returns -1 at once, and no request reaches the router any more. *)
Theorem poll_cq_error_sticks c h ne p sched slow :
  0 <= h < MAP_SIZE -> cq_shm_map c !! h = Some p -> state p = RSP_DONE ->
  map_cq_to_srq c !! h = Some (MAP_SIZE + 1) ->
  u64 (rsp_size p) mod sizeof t_ibv_wc <> 0 ->
  exists c' p',
    ibv_cmd_poll_cq (mkTransport None (id :: sched) slow) c h ne = Ok (c', -1, []) /\
    cq_shm_map c' !! h = Some p' /\ state p' = RSP_DONE /\ rsp_size p' = rsp_size p.
Proof.
  intros Hh Hp Hs Hsrq Hsz. unfold ibv_cmd_poll_cq.
  rewrite (table_get_some _ _ p), (table_get_some _ _ (MAP_SIZE + 1)) by done.
  cbn [mbind res_bind]. replace (MAP_SIZE + 1 <=? MAP_SIZE) with false by done.
  cbn [mbind res_bind]. unfold exchange. simpl t_disable. simpl t_sched.
  cbn [disable_fastpath Z.eqb]. rewrite request_stale by done. cbn [mbind res_bind].
  unfold poll_finish. simpl rsp_size.
  destruct (Z.eqb_spec (u64 (rsp_size p) mod sizeof t_ibv_wc) 0); [done|].
  do 2 eexists. split; [reflexivity|]. simpl. by rewrite lookup_insert_eq.
Qed.
End Polls.

(** ** A concrete system

    One region (lkey 7) of 4096 bytes at 0x10000, with its shared memory at
    0x50000 in the client and at 0x90000 in the router; one remote region; queue
    pairs 3 (connected) and 4 (datagrams); completion queue 5 with one posted
    receive; shared receive queue 6. *)
Module Example_.
Definition lkeys : gmap Z mr_shm := {[7 := mkMrShm 65536 327680]}.
Definition rkeys : gmap Z mr_shm := {[9 := mkMrShm 4096 8192]}.
Definition router : ffrouter :=
  mkRouter {[3 := mkRqp 103 IBV_QPT_RC; 4 := mkRqp 104 IBV_QPT_UD]} {[6 := 106]}
    {[5 := 105]} {[1 := 201; 2 := 202]} {[7 := 589824]}.
Definition idle_qp : qp_piece :=
  mkCsp IDLE (mkReqHeader 0 IBV_POST_SEND 0) QNone 0 (mkPostRsp 0 0).
Definition idle_cq : cq_piece :=
  mkCsp IDLE (mkReqHeader 0 IBV_POLL_CQ 0) (mkPollReq 0 0) 0 [].
Definition posted : list sge_record := [mkSgeRecord 8 65600 327744].
Definition ring : wr_queue := wr_push wr_queue_init 1 posted.
Definition sys : client (gmap Z mr_shm) :=
  mkClient 1 lkeys (fun a => a mod 251) {[3 := idle_qp; 4 := idle_qp]} {[5 := idle_cq]}
    {[6 := idle_qp]} {[5 := ring]} {[5 := MAP_SIZE + 1]} {[6 := wr_queue_init]} ∅.
Definition qp3 : ibv_qp := mkQp 3 IBV_QPT_RC 5.
Definition sge1 : ibv_sge := mkSge 65636 16 7.
Definition write_wr : app_send_wr :=
  mkAppSend (mkSendWr 1 (PAddr 0) (PAddr 0) 1 IBV_WR_RDMA_WRITE 2 0
               (mkUnion 4196 9 0 0 0) []) [sge1] None.
Definition send_wr : app_send_wr :=
  mkAppSend (mkSendWr 2 PNull PNull 0 IBV_WR_SEND 2 0 (mkUnion 0 0 0 0 0) []) [] None.
Definition chain : list app_send_wr := [write_wr; send_wr].
Definition recv_wr : app_recv_wr :=
  mkAppRecv (mkRecvWr 3 PNull (PAddr 0) 1) [mkSge 65700 32 7].
Definition ok_send (_ : rqp) (_ : send_chain) : Z * option nat := (0, None).
Definition bad_send (_ : rqp) (_ : send_chain) : Z * option nat := (22, Some 1%nat).
Definition ok_recv {A} (_ : A) (_ : recv_chain) : Z * option nat := (0, None).
Definition one_wc : list ibv_wc := [mkWc 3 0 IBV_WC_RECV 8 []].
Definition one_poll (_ _ : Z) : Z * list ibv_wc := (1, one_wc).

Lemma setup_send : send_setup router sys qp3 chain idle_qp (mkRqp 103 IBV_QPT_RC)
  (replicate 2 0).
Proof.
  split; try done.
  repeat constructor; try done. eexists. reflexivity.
Defined.

Lemma setup_recv : recv_setup sys [recv_wr] idle_qp ring [posted].
Proof.
  split; try done.
  - repeat constructor; try done. eexists. reflexivity.
  - apply (push_models wr_queue_init [] posted); [apply init_models|done|done].
Defined.

Lemma setup_srq : recv_setup sys [recv_wr] idle_qp wr_queue_init [].
Proof.
  split; try done.
  repeat constructor; try done. eexists. reflexivity.
Defined.
End Example_.

Import Example_.

Lemma post_send_reaches_device_witness :
  exists chain' c',
    ibv_cmd_post_send (send_transport router rkeys ok_send ok_recv None 3) sys qp3 chain
    = Ok (c', None, 0) /\
    erase_send_chain chain'
    = map (fun w => device_send router rkeys lkeys IBV_QPT_RC w 0) chain /\
    memory c' 327780 = memory sys 65636.
Proof.
  destruct (post_send_reaches_device router rkeys ok_send ok_recv sys qp3 chain idle_qp
    (mkRqp 103 IBV_QPT_RC) None 3 setup_send eq_refl)
    as (ch & c' & Ech & Hok & _ & _ & Hmem & _).
  - constructor; [|constructor]. split_and!; try done. eexists. reflexivity.
  - intros s1 s2 H1 H2. apply list_elem_of_singleton in H1, H2. subst.
    split; [|done]. intros _ a. unfold dst_has. vm_compute sge_disp. simpl. lia.
  - exists ch, c'. split_and!; [by apply Hok|done|].
    apply (Hmem sge1 0); [by apply list_elem_of_singleton|simpl; lia].
Defined.

Lemma post_send_bad_wr_is_the_one_before_witness :
  exists c', ibv_cmd_post_send (send_transport router rkeys bad_send ok_recv None 0)
    sys qp3 chain = Ok (c', Some [write_wr; send_wr], 22).
Proof.
  destruct (post_send_bad_wr_is_the_one_before router rkeys bad_send ok_recv sys qp3 chain
    idle_qp (mkRqp 103 IBV_QPT_RC) None 0 0 22 setup_send) as (c' & E & _);
    [simpl; lia|lia|done|]. by exists c'.
Defined.

Lemma ud_address_handles_witness :
  let items : send_chain := [(as_wr send_wr, []); (as_wr send_wr, [])] in
  exists r' chain',
    post_send_branch router (fun _ => rkeys) ok_send true None
      (mkSendReq (mkCmd 4 2 0) (map fst items) [] [1; 2])
    = Ok (r', mkPostRsp 0 0) /\
    map (fun x => rdma_remote_addr (s_wr (fst x))) (erase_send_chain chain') = [201; 201].
Proof.
  destruct (ud_address_handles router rkeys ok_send None (mkRqp 104 IBV_QPT_UD) 4
    [(as_wr send_wr, []); (as_wr send_wr, [])] [1; 2] [201; 202] 201)
    as [_ (r' & ch & E & Ech)]; try done.
  - repeat constructor; done.
  - repeat constructor; done.
  - exists r', ch. split; [exact E|]. rewrite Ech. reflexivity.
Defined.

Lemma post_recv_reaches_device_witness :
  exists c' q', ibv_cmd_post_recv
    (fast_path 2 (qp_switch router (fun _ => rkeys) ok_send ok_recv None)) sys qp3 [recv_wr]
    = Ok (c', None, 0) /\ models q' [posted; [mkSgeRecord 32 65700 327844]].
Proof.
  destruct (post_recv_reaches_device router rkeys ok_send ok_recv sys [recv_wr] idle_qp
    ring [posted] 2 qp3 (mkRqp 103 IBV_QPT_RC) None setup_recv)
    as (ch & c' & q' & _ & Hok & _ & _ & _ & Hm); try done.
  exists c', q'. split; [by apply Hok|exact Hm].
Defined.

Lemma post_srq_recv_reaches_device_witness :
  exists c' q', ibv_cmd_post_srq_recv
    (fast_path 2 (srq_switch router ok_recv None)) sys 6 [recv_wr]
    = Ok (c', None, 0) /\ models q' [[mkSgeRecord 32 65700 327844]].
Proof.
  destruct (post_srq_recv_reaches_device router ok_recv sys [recv_wr] idle_qp
    wr_queue_init [] 2 6 106 None setup_srq) as (ch & c' & q' & _ & Hok & _ & _ & _ & Hm);
    try done.
  exists c', q'. split; [by apply Hok|exact Hm].
Defined.

Lemma poll_cq_delivers_witness :
  exists c', ibv_cmd_poll_cq (fast_path 1 (poll_answer router one_poll None)) sys 5 16
    = Ok (c', 1, one_wc) /\ memory c' 65601 = memory sys 327745.
Proof.
  destruct (poll_cq_delivers router one_poll sys 5 16 (MAP_SIZE + 1) 105 None idle_cq
    one_wc 1 ring [posted] []) as (c' & E & _ & Hmem); try done.
  - apply (rs_ring _ _ _ _ _ setup_recv).
  - intros i j s1 s2 H1 H2 _ a Ha. simpl in H1, H2.
    destruct i as [|i]; [|done]. destruct j as [|j]; [|done]. injection H1 as <-; injection H2 as <-.
    split; [|done]. revert Ha. unfold rec_dst, rec_src. cbn. lia.
  - exists c'. split; [done|].
    apply (Hmem (mkSgeRecord 8 65600 327744) 1); [by apply list_elem_of_singleton|simpl; lia].
Defined.

Lemma poll_cq_error_sticks_witness :
  let p : cq_piece := mkCsp RSP_DONE (mkReqHeader 0 IBV_POLL_CQ 0) (mkPollReq 5 1) 20 [] in
  exists c', ibv_cmd_poll_cq (mkTransport None [id] (fun _ => Spin)) (set_cq_piece 5 p sys) 5 1
    = Ok (c', -1, []).
Proof.
  intros p. destruct (poll_cq_error_sticks (set_cq_piece 5 p sys) 5 1 p [] (fun _ => Spin))
    as (c' & p' & E & _); try done. by exists c'.
Defined.
