(* ===== verification/Wire.v ===== *)
(** * Structs as bytes

    The control channel copies C structs into a socket and out of it, byte for
    byte.  A struct's value is a tree of integers and byte arrays; [encode] lays
    it out in memory (little endian, padding bytes as the stack left them) and
    [decode] reads it back, with the layouts of {CLayout}. *)

From S2P Require Import Prelude CLayout.

(** A value: an integer or pointer, the raw bytes of an array or union, or the
    fields of a struct. *)
Inductive cval : Type :=
| VI (z : Z)
| VB (bs : list Z)
| VS (vs : list cval).

(** ** Little-endian integers *)

Fixpoint le_split (n : nat) (z : Z) : list Z :=
  match n with
  | O => []
  | S n' => z mod 256 :: le_split n' (z / 256)
  end.

Fixpoint le_combine (bs : list Z) : Z :=
  match bs with
  | [] => 0
  | b :: bs' => b + 256 * le_combine bs'
  end.

Lemma le_split_length n : forall z, length (le_split n z) = n.
Proof. induction n; intros z; simpl; auto. Qed.

Lemma le_combine_split n : forall z,
  0 <= z < 2 ^ (8 * Z.of_nat n) -> le_combine (le_split n z) = z.
Proof.
  induction n as [|n IH]; intros z Hz.
  - change (2 ^ (8 * Z.of_nat 0)) with 1 in Hz. simpl. lia.
  - cbn [le_split le_combine].
    replace (8 * Z.of_nat (S n)) with (8 + 8 * Z.of_nat n) in Hz by lia.
    rewrite Z.pow_add_r in Hz by lia. change (2 ^ 8) with 256 in Hz.
    rewrite IH.
    + pose proof (Z.div_mod z 256 ltac:(lia)). lia.
    + split; [apply Z.div_pos; lia|]. apply Z.div_lt_upper_bound; lia.
Qed.

(** ** Encoding *)

Section Encode.
(** What an uninitialised byte of the sender's stack holds. *)
Context (junk : Z).

Definition pad (n : Z) : list Z := replicate (Z.to_nat n) junk.

Definition int_size (t : cty) : nat := Z.to_nat (sizeof t).

Fixpoint encode (t : cty) (v : cval) {struct t} : list Z :=
  match t, v with
  | (I8 | I16 | I32 | I64 | Ptr), VI z => le_split (int_size t) z
  | (Arr _ _ | Union _), VB bs => bs
  | Struct fs, VS vs =>
      let body :=
        (fix go (off : Z) (fs : list cty) (vs : list cval) {struct fs} : list Z :=
           match fs, vs with
           | f :: fs', v :: vs' =>
               let o := align_up off (alignof f) in
               pad (o - off) ++ encode f v ++ go (o + sizeof f) fs' vs'
           | _, _ => []
           end) 0 fs vs in
      body ++ pad (sizeof t - Z.of_nat (length body))
  | _, _ => []
  end.

Fixpoint encode_fields (off : Z) (fs : list cty) (vs : list cval) : list Z :=
  match fs, vs with
  | f :: fs', v :: vs' =>
      let o := align_up off (alignof f) in
      pad (o - off) ++ encode f v ++ encode_fields (o + sizeof f) fs' vs'
  | _, _ => []
  end.
End Encode.

Definition slice (o n : Z) (bs : list Z) : list Z :=
  take (Z.to_nat n) (drop (Z.to_nat o) bs).

Fixpoint decode (t : cty) (bs : list Z) {struct t} : cval :=
  match t with
  | I8 | I16 | I32 | I64 | Ptr => VI (le_combine bs)
  | Arr _ _ | Union _ => VB bs
  | Struct fs =>
      VS ((fix go (off : Z) (fs : list cty) {struct fs} : list cval :=
             match fs with
             | [] => []
             | f :: fs' =>
                 let o := align_up off (alignof f) in
                 decode f (slice o (sizeof f) bs) :: go (o + sizeof f) fs'
             end) 0 fs)
  end.

Section Fields.
Context (bs : list Z).
Fixpoint decode_fields (off : Z) (fs : list cty) : list cval :=
  match fs with
  | [] => []
  | f :: fs' =>
      let o := align_up off (alignof f) in
      decode f (slice o (sizeof f) bs) :: decode_fields (o + sizeof f) fs'
  end.
End Fields.

(** [has_type t v]: [v] is a value of type [t]. *)
Inductive has_type : cty -> cval -> Prop :=
| ht_int t z : t = I8 \/ t = I16 \/ t = I32 \/ t = I64 \/ t = Ptr ->
    0 <= z < 2 ^ (8 * sizeof t) -> has_type t (VI z)
| ht_bytes t bs : (exists n u, t = Arr n u) \/ (exists fs, t = Union fs) ->
    Z.of_nat (length bs) = sizeof t -> has_type t (VB bs)
| ht_struct fs vs : fields_have fs vs -> has_type (Struct fs) (VS vs)
with fields_have : list cty -> list cval -> Prop :=
| fh_nil : fields_have [] []
| fh_cons f v fs vs : has_type f v -> fields_have fs vs -> fields_have (f :: fs) (v :: vs).

Scheme has_type_mut := Induction for has_type Sort Prop
with fields_have_mut := Induction for fields_have Sort Prop.

(** The end of the fields laid out from [off] on. *)
Definition fields_end (start : Z) (fs : list cty) : Z :=
  fold_left (fun off f => align_up off (alignof f) + sizeof f) fs start.

Lemma encode_struct junk fs vs :
  encode junk (Struct fs) (VS vs)
  = encode_fields junk 0 fs vs
    ++ pad junk (sizeof (Struct fs) - Z.of_nat (length (encode_fields junk 0 fs vs))).
Proof. reflexivity. Qed.

Lemma decode_struct fs bs : decode (Struct fs) bs = VS (decode_fields bs 0 fs).
Proof. reflexivity. Qed.

Lemma pad_length junk n : 0 <= n -> Z.of_nat (length (pad junk n)) = n.
Proof. intros. unfold pad. rewrite length_replicate. lia. Qed.

(** A field found behind [pre]. *)
Lemma slice_middle pre x post o n :
  Z.of_nat (length pre) = o -> Z.of_nat (length x) = n ->
  slice o n (pre ++ x ++ post) = x.
Proof.
  intros Ho Hn. unfold slice.
  replace (Z.to_nat o) with (length pre) by lia.
  replace (Z.to_nat n) with (length x) by lia.
  by rewrite drop_app_length, take_app_length.
Qed.

(** The two properties, of a value and of a list of fields. *)
Definition wire_ok junk (t : cty) (v : cval) : Prop :=
  Z.of_nat (length (encode junk t v)) = sizeof t /\ decode t (encode junk t v) = v.

Definition fields_ok junk (fs : list cty) (vs : list cval) : Prop :=
  forall off, 0 <= off ->
  off + Z.of_nat (length (encode_fields junk off fs vs)) = fields_end off fs /\
  forall pre post, Z.of_nat (length pre) = off ->
    decode_fields (pre ++ encode_fields junk off fs vs ++ post) off fs = vs.

Lemma fields_ok_cons junk f v fs vs :
  wire_ok junk f v -> fields_ok junk fs vs -> fields_ok junk (f :: fs) (v :: vs).
Proof.
  intros [Hlen Hdec] IH off Hoff.
  pose proof (align_up_ge off (alignof f) (alignof_pos f)) as Ho.
  pose proof (sizeof_nonneg f) as Hs.
  change (fields_end off (f :: fs))
    with (fields_end (align_up off (alignof f) + sizeof f) fs).
  cbn [encode_fields decode_fields].
  set (o := align_up off (alignof f)) in *.
  destruct (IH (o + sizeof f) ltac:(lia)) as [IHl IHd].
  pose proof (pad_length junk (o - off) ltac:(lia)) as Hp.
  split.
  - rewrite !length_app, <- IHl. lia.
  - intros pre post Hpre.
    rewrite <- !app_assoc, (app_assoc pre).
    rewrite slice_middle by (rewrite ?length_app; lia). rewrite Hdec. f_equal.
    rewrite (app_assoc (pre ++ _)). apply IHd. rewrite !length_app. lia.
Qed.

Lemma struct_ok junk fs vs : fields_ok junk fs vs -> wire_ok junk (Struct fs) (VS vs).
Proof.
  intros Hf. destruct (Hf 0 ltac:(lia)) as [Hl Hd]. unfold wire_ok.
  rewrite encode_struct, decode_struct.
  assert (fields_end 0 fs <= sizeof (Struct fs)) as Hs.
  { cbn [sizeof]. apply align_up_ge, alignof_pos. }
  split.
  - rewrite length_app, Nat2Z.inj_add, pad_length by lia. lia.
  - f_equal. by apply (Hd []).
Qed.

(** Every struct survives the wire: whatever the padding bytes are, the sender's
    image has the struct's size, and reading it with the same layout gives the
    value back. *)
Lemma has_type_wire junk t v : has_type t v -> wire_ok junk t v.
Proof.
  revert t v.
  apply (has_type_mut (fun t v _ => wire_ok junk t v) (fun fs vs _ => fields_ok junk fs vs)).
  - intros t z Ht Hz.
    assert (encode junk t (VI z) = le_split (int_size t) z /\
      (forall bs, decode t bs = VI (le_combine bs))) as [E D]
      by (destruct Ht as [->|[->|[->|[->| ->]]]]; done).
    pose proof (sizeof_nonneg t). unfold wire_ok. rewrite E, D, le_split_length.
    unfold int_size. split; [lia|]. f_equal. apply le_combine_split.
    by replace (8 * Z.of_nat (Z.to_nat (sizeof t))) with (8 * sizeof t) by lia.
  - intros t bs Ht Hl. destruct Ht as [(n & u & ->)|(fs & ->)]; done.
  - intros fs vs _ Hf. by apply struct_ok.
  - intros off Hoff. split; [simpl; lia|done].
  - intros f v fs vs _ Hv _ Hfs. by apply fields_ok_cons.
Qed.

(** A struct at the start of a longer buffer. *)
Lemma decode_prefix junk fs vs rest : has_type (Struct fs) (VS vs) ->
  decode (Struct fs) (encode junk (Struct fs) (VS vs) ++ rest) = VS vs.
Proof.
  intros Ht. assert (fields_have fs vs) as Hf by by inversion Ht.
  assert (fields_ok junk fs vs) as Hok.
  { clear Ht. induction Hf as [|f v fs vs Hv Hf IH]; [by intros off Hoff; split; [simpl; lia|]|].
    apply fields_ok_cons; [by apply has_type_wire|done]. }
  rewrite encode_struct, decode_struct, <- app_assoc. f_equal.
  by apply (proj2 (Hok 0 ltac:(lia)) []).
Qed.

(** ** Checking types by computation *)

Definition is_int (t : cty) : bool :=
  match t with I8 | I16 | I32 | I64 | Ptr => true | _ => false end.

Fixpoint typed (t : cty) (v : cval) {struct t} : bool :=
  match t, v with
  | (I8 | I16 | I32 | I64 | Ptr), VI z => (0 <=? z) && (z <? 2 ^ (8 * sizeof t))
  | (Arr _ _ | Union _), VB bs => Z.of_nat (length bs) =? sizeof t
  | Struct fs, VS vs =>
      (fix go (fs : list cty) (vs : list cval) {struct fs} : bool :=
         match fs, vs with
         | [], [] => true
         | f :: fs', v :: vs' => typed f v && go fs' vs'
         | _, _ => false
         end) fs vs
  | _, _ => false
  end.

Lemma typed_has_type t : forall v, typed t v = true -> has_type t v.
Proof.
  induction t as [| | | | |n t IH|fs IH|fs IH] using cty_ind'; intros [z|bs|vs] Hv;
    try discriminate Hv.
  1-5: simpl in Hv; blia; apply ht_int; [naive_solver|simpl; lia].
  - apply ht_bytes; [naive_solver|]. cbn [typed] in Hv. blia.
  - apply ht_struct. revert vs Hv. induction IH as [|f fs Hf _ IHfs];
      intros [|v vs] Hv; try discriminate Hv; [constructor|].
    simpl in Hv. apply andb_prop in Hv as [H1 H2]. constructor; auto.
  - apply ht_bytes; [naive_solver|]. cbn [typed] in Hv. blia.
Qed.
