(* ===== verification/ReqRouter.v ===== *)
(** * The socket control channel: [request_router]

    Every control verb (and, when the fast path is disabled, every data-path
    verb) sends one request over a Unix socket to the router and waits for the
    response (libibverbs, freeflow.c).  The socket, the environment variables
    and the heap are modelled by what each system call returns: a connection
    carries the results of its [write] calls and the chunks its [read] calls
    give, in order. *)

From S2P Require Import Prelude CLayout FfTypes Wire.

(** ** Environment *)

(** [getenv("FFR_ID")] (through [atoi]) and [getenv("FFR_NAME")], and the number
    of bytes [malloc(n)] really reserves. *)
Record env : Type := mkEnv {
  e_ffr_id : option Z;
  e_ffr_name : option (list Z);
  e_usable : Z -> Z }.

(** The control message [recvmsg] delivers: length, level, type, descriptor. *)
Inductive recvmsg_result : Type :=
| RmError
| RmNoControl
| RmControl (cmsg_len cmsg_level cmsg_type fd : Z).

(** A connection.  [k_reads]: what arrives, [Some] a chunk of bytes (an empty
    one: end of file), [None] an error.  [k_out]: the bytes that went out. *)
Record conn : Type := mkConn {
  k_socket : Z;
  k_connect : Z;
  k_writes : list Z;
  k_reads : list (option (list Z));
  k_cmsg : recvmsg_result;
  k_out : list Z }.

(** [struct sock_with_lock]: the descriptor, with what is behind it. *)
Record sock_with_lock : Type := mkSock { sock : Z; peer : conn }.

Definition set_sock (n : Z) (s : sock_with_lock) : sock_with_lock := mkSock n (peer s).

(** The process-wide tables of freeflow.c that the control channel uses.  An
    index without entry of [comp_channel_map] or [comp_channel_sock_map] holds
    the -1 of [init_sock].  [conns]: the connections the router will accept;
    [trace]: what was sent on the closed ones, oldest first. *)
Record ctl : Type := mkCtl {
  comp_channel_map : gmap Z Z;
  comp_channel_sock_map : gmap Z sock_with_lock;
  conns : list conn;
  trace : list (list Z) }.

(** ** Connecting *)

Definition sun_path_size : Z := 108.
Definition path_prefix : Z := 10.      (* strlen("/freeflow/") *)

(** [connect_router]: the descriptor it leaves.  The path buffer is allocated
    without room for the terminating 0. *)
Definition connect_router (e : env) (k : conn) : res sock_with_lock :=
  if k_socket k <? 0 then Exit 1 else
  router_name ← of_option (e_ffr_name e);
  let len := path_prefix + Z.of_nat (length router_name) in
  if (e_usable e len <? len + 1) || (sun_path_size <? len + 1) then Ub else
  Ok (mkSock (if k_connect k <? 0 then -1 else k_socket k) k).

(** A fresh socket for a request, closed behind it. *)
Definition get_unix_sock (e : env) (c : ctl) : res (ctl * sock_with_lock) :=
  match conns c with
  | [] => Spin
  | k :: ks =>
      s ← connect_router e k;
      Ok (mkCtl (comp_channel_map c) (comp_channel_sock_map c) ks (trace c), s)
  end.

(** The socket of a completion channel: connected at its first use, kept. *)
Definition get_unix_sock_comp_channel (e : env) (c : ctl) (fd : Z)
  : res (ctl * option sock_with_lock) :=
  if MAP_SIZE <=? fd then Ok (c, None) else
  if fd <? 0 then Ub else
  match comp_channel_sock_map c !! fd with
  | Some s => if sock s <? 0
              then '(c1, s1) ← get_unix_sock e c; Ok (c1, Some s1)
              else Ok (c, Some s)
  | None => '(c1, s1) ← get_unix_sock e c; Ok (c1, Some s1)
  end.

(** ** Reading and writing *)

(** [write]: its result, and the bytes that went out. *)
Definition sock_write (s : sock_with_lock) (bs : list Z) : res (Z * sock_with_lock) :=
  if sock s <? 0 then Ok (-1, s) else
  match k_writes (peer s) with
  | [] => Spin
  | n :: ws =>
      Ok (n, mkSock (sock s)
               (mkConn (k_socket (peer s)) (k_connect (peer s)) ws (k_reads (peer s))
                  (k_cmsg (peer s)) (k_out (peer s) ++ take (Z.to_nat n) bs)))
  end.

(** The loop [while (bytes < need) n = read(...)]: whether it got through, the
    bytes it stored, and what is left to read. *)
Fixpoint read_full (reads : list (option (list Z))) (acc : list Z) (need : Z)
  : res (bool * list Z * list (option (list Z))) :=
  if need <=? 0 then Ok (true, acc, reads) else
  match reads with
  | [] => Spin
  | None :: rs => Ok (false, acc, rs)
  | Some ch :: rs =>
      if need <? Z.of_nat (length ch)
      then Ok (true, acc ++ take (Z.to_nat need) ch, Some (drop (Z.to_nat need) ch) :: rs)
      else read_full rs (acc ++ ch) (need - Z.of_nat (length ch))
  end.

Definition set_reads (rs : list (option (list Z))) (s : sock_with_lock) : sock_with_lock :=
  mkSock (sock s) (mkConn (k_socket (peer s)) (k_connect (peer s)) (k_writes (peer s)) rs
                     (k_cmsg (peer s)) (k_out (peer s))).

Definition sock_read_full (s : sock_with_lock) (need : Z)
  : res (bool * list Z * sock_with_lock) :=
  if need <=? 0 then Ok (true, [], s) else
  if sock s <? 0 then Ok (false, [], s) else
  '(ok, bs, rs) ← read_full (k_reads (peer s)) [] need;
  let s1 := set_reads rs s in
  Ok (ok, bs, if (ok : bool) then s1 else set_sock (-1) s1).

Definition SOL_SOCKET : Z := 1.
Definition SCM_RIGHTS : Z := 1.
Definition CMSG_LEN_int : Z := 20.

Definition recv_fd (s : sock_with_lock) : res Z :=
  match (if sock s <? 0 then RmError else k_cmsg (peer s)) with
  | RmError => Exit 1
  | RmNoControl => Ok (-1)
  | RmControl len level type fd =>
      if len =? CMSG_LEN_int then
        if negb (level =? SOL_SOCKET) then Exit 1
        else if negb (type =? SCM_RIGHTS) then Exit 1
        else Ok fd
      else Ok (-1)
  end.

(** ** The switch on the function *)

(** The request body: nothing, a struct, or a pointer to work requests with
    their size ([IBV_POST_SEND_REQ] and the like). *)
Inductive req_body : Type :=
| BNull
| BStruct (bs : list Z)
| BWr (wr_size : Z) (wr : list Z).

(** Functions with a fixed request and a fixed response struct. *)
Definition fixed_format (req : RDMA_FUNCTION_CALL) : option (option cty * cty) :=
  match req with
  | IBV_GET_CONTEXT => Some (None, t_IBV_GET_CONTEXT_RSP)
  | IBV_QUERY_DEV => Some (None, t_IBV_QUERY_DEV_RSP)
  | IBV_EXP_QUERY_DEV => Some (Some t_IBV_EXP_QUERY_DEV_REQ, t_IBV_EXP_QUERY_DEV_RSP)
  | IBV_QUERY_PORT => Some (Some t_IBV_QUERY_PORT_REQ, t_IBV_QUERY_PORT_RSP)
  | IBV_ALLOC_PD => Some (None, t_IBV_ALLOC_PD_RSP)
  | IBV_DEALLOC_PD => Some (Some t_IBV_DEALLOC_PD_REQ, t_IBV_DEALLOC_PD_RSP)
  | IBV_CREATE_CQ => Some (Some t_IBV_CREATE_CQ_REQ, t_IBV_CREATE_CQ_RSP)
  | IBV_DESTROY_CQ => Some (Some t_IBV_DESTROY_CQ_REQ, t_IBV_DESTROY_CQ_RSP)
  | IBV_REQ_NOTIFY_CQ => Some (Some t_IBV_REQ_NOTIFY_CQ_REQ, t_IBV_REQ_NOTIFY_CQ_RSP)
  | IBV_CREATE_QP => Some (Some t_IBV_CREATE_QP_REQ, t_IBV_CREATE_QP_RSP)
  | IBV_DESTROY_QP => Some (Some t_IBV_DESTROY_QP_REQ, t_IBV_DESTROY_QP_RSP)
  | IBV_REG_MR => Some (Some t_IBV_REG_MR_REQ, t_IBV_REG_MR_RSP)
  | IBV_REG_MR_MAPPING => Some (Some t_IBV_REG_MR_MAPPING_REQ, t_IBV_REG_MR_MAPPING_RSP)
  | IBV_DEREG_MR => Some (Some t_IBV_DEREG_MR_REQ, t_IBV_DEREG_MR_RSP)
  | IBV_MODIFY_QP => Some (Some t_IBV_MODIFY_QP_REQ, t_IBV_MODIFY_QP_RSP)
  | IBV_QUERY_QP => Some (Some t_IBV_QUERY_QP_REQ, t_IBV_QUERY_QP_RSP)
  | IBV_CREATE_COMP_CHANNEL => Some (None, t_IBV_CREATE_COMP_CHANNEL_RSP)
  | IBV_DESTROY_COMP_CHANNEL =>
      Some (Some t_IBV_DESTROY_COMP_CHANNEL_REQ, t_IBV_DESTROY_COMP_CHANNEL_RSP)
  | IBV_GET_CQ_EVENT => Some (Some t_IBV_GET_CQ_EVENT_REQ, t_IBV_GET_CQ_EVENT_RSP)
  | IBV_ACK_CQ_EVENT => Some (Some t_IBV_ACK_CQ_EVENT_REQ, t_IBV_ACK_CQ_EVENT_RSP)
  | IBV_CREATE_AH => Some (Some t_IBV_CREATE_AH_REQ, t_IBV_CREATE_AH_RSP)
  | IBV_DESTROY_AH => Some (Some t_IBV_DESTROY_AH_REQ, t_IBV_DESTROY_AH_RSP)
  | IBV_CREATE_FLOW => Some (Some t_IBV_CREATE_FLOW_REQ, t_IBV_CREATE_FLOW_RSP)
  | IBV_DESTROY_FLOW => Some (Some t_IBV_DESTROY_FLOW_REQ, t_IBV_DESTROY_FLOW_RSP)
  | IBV_CREATE_SRQ => Some (Some t_IBV_CREATE_SRQ_REQ, t_IBV_CREATE_SRQ_RSP)
  | IBV_MODIFY_SRQ => Some (Some t_IBV_MODIFY_SRQ_REQ, t_IBV_MODIFY_SRQ_RSP)
  | IBV_DESTROY_SRQ => Some (Some t_IBV_DESTROY_SRQ_REQ, t_IBV_DESTROY_SRQ_RSP)
  | _ => None
  end.

(** What the switch sets: [header.body_size], where the body is read from, and
    [*rsp_size] ([None]: the response brings its size).  [None] as a whole: the
    default branch. *)
Definition switch_sizes (req : RDMA_FUNCTION_CALL) (body : req_body)
  : option (Z * list Z * option Z) :=
  match req, body with
  | IBV_POST_SEND, BWr n wr => Some (u32 n, wr, Some (sizeof t_IBV_POST_SEND_RSP))
  | IBV_POST_RECV, BWr n wr => Some (u32 n, wr, Some (sizeof t_IBV_POST_RECV_RSP))
  | IBV_POST_SRQ_RECV, BWr n wr => Some (u32 n, wr, Some (sizeof t_IBV_POST_SRQ_RECV_RSP))
  | IBV_POLL_CQ, BStruct bs => Some (sizeof t_IBV_POLL_CQ_REQ, bs, None)
  | _, _ =>
      match fixed_format req with
      | None => None
      | Some (q, r) =>
          Some (match q with Some t => sizeof t | None => 0 end,
                match body with BStruct bs => bs | _ => [] end, Some (sizeof r))
      end
  end.

(** The code of a function on the wire: its position in the enum. *)
Definition func_code (f : RDMA_FUNCTION_CALL) : Z :=
  match f with
  | IBV_GET_DEVICE_LIST => 0 | IBV_GET_CONTEXT => 1 | IBV_QUERY_DEV => 2
  | IBV_EXP_QUERY_DEV => 3 | IBV_QUERY_PORT => 4 | IBV_ALLOC_PD => 5
  | IBV_DEALLOC_PD => 6 | IBV_CREATE_QP => 7 | IBV_MODIFY_QP => 8 | IBV_QUERY_QP => 9
  | IBV_DESTROY_QP => 10 | IBV_CREATE_SRQ => 11 | IBV_MODIFY_SRQ => 12
  | IBV_POST_SRQ_RECV => 13 | IBV_DESTROY_SRQ => 14 | IBV_CREATE_CQ => 15
  | IBV_DESTROY_CQ => 16 | IBV_POLL_CQ => 17 | IBV_GET_CQ_EVENT => 18
  | IBV_ACK_CQ_EVENT => 19 | IBV_REQ_NOTIFY_CQ => 20 | IBV_REG_MR => 21
  | IBV_REG_MR_MAPPING => 22 | IBV_DEREG_MR => 23 | IBV_REG_CM => 24
  | IBV_POST_SEND => 25 | IBV_POST_RECV => 26 | IBV_CREATE_COMP_CHANNEL => 27
  | IBV_DESTROY_COMP_CHANNEL => 28 | IBV_CREATE_AH => 29 | IBV_DESTROY_AH => 30
  | IBV_CREATE_FLOW => 31 | IBV_DESTROY_FLOW => 32 | IBV_MALLOC => 33 | IBV_FREE => 34
  | IBV_RESIZE_CQ => 35 | CM_CREATE_EVENT_CHANNEL => 36 | CM_DESTROY_EVENT_CHANNEL => 37
  | CM_CREATE_ID => 38 | CM_BIND_IP => 39 | CM_BIND => 40 | CM_GET_EVENT => 41
  | CM_QUERY_ROUTE => 42 | CM_LISTEN => 43 | CM_RESOLVE_IP => 44 | CM_RESOLVE_ADDR => 45
  | CM_UCMA_QUERY_ADDR => 46 | CM_UCMA_QUERY_GID => 47 | CM_UCMA_PROCESS_CONN_RESP => 48
  | CM_DESTROY_ID => 49 | CM_RESOLVE_ROUTE => 50 | CM_UCMA_QUERY_PATH => 51
  | CM_INIT_QP_ATTR => 52 | CM_CONNECT => 53 | CM_ACCEPT => 54 | CM_SET_OPTION => 55
  | CM_MIGRATE_ID => 56 | CM_DISCONNECT => 57
  end.

Definition header_bytes (h : FfrRequestHeader) : list Z :=
  encode 0 t_FfrRequestHeader
    (VS [VI (u32 (client_id h)); VI (func_code (func h)); VI (body_size h)]).

(** ** The exchange on the socket *)

(** Sending the header and the body.  The result [n] of [write] is an [int] that
    is compared with a [size_t], and with a [uint32_t]. *)
Definition send_request (s : sock_with_lock) (h : FfrRequestHeader) (body : list Z)
  : res sock_with_lock :=
  '(n, s1) ← sock_write s (header_bytes h);
  let s2 := if u64 n <? sizeof t_FfrRequestHeader
            then (if n <? 0 then set_sock (-1) s1 else s1) else s1 in
  if 0 <? body_size h then
    bs ← take_n (body_size h) body;
    '(n, s3) ← sock_write s2 bs;
    Ok (if u32 n <? body_size h
        then (if n <? 0 then set_sock (-1) s3 else s3) else s3)
  else Ok s2.

(** Bytes stored over the start of the response buffer. *)
Definition overwrite (old new : list Z) : list Z := new ++ drop (length new) old.

(** Reading the response into the buffer, whose old content is [rsp0]: whether
    all of it arrived, the buffer, [*rsp_size] and the socket. *)
Definition recv_response (s : sock_with_lock) (size : option Z) (rsp0 : list Z) (size0 : Z)
  : res (bool * list Z * Z * sock_with_lock) :=
  '(ok, rsp_size, s1) ←
    (match size with
     | Some n => Ok (true, n, s)
     | None =>
         '(ok, bs, s1) ← sock_read_full s (sizeof t_FfrResponseHeader);
         Ok (ok, if (ok : bool) then s32 (le_combine bs) else size0, s1)
     end);
  if negb ok then Ok (false, rsp0, rsp_size, s1) else
  '(ok, bs, s2) ← sock_read_full s1 rsp_size;
  Ok (ok, overwrite rsp0 bs, rsp_size, s2).

(** The last part of a request for a completion channel: the descriptor that came
    with the response is entered under the one the router sent. *)
Definition map_comp_channel (c : ctl) (mapped_fd : Z) (rsp : list Z) : res (ctl * list Z) :=
  if (0 <=? mapped_fd) && (mapped_fd <? MAP_SIZE) then
    let fd := s32 (le_combine (take 4 rsp)) in
    Ok (mkCtl (<[mapped_fd := fd]> (comp_channel_map c)) (comp_channel_sock_map c)
          (conns c) (trace c),
        overwrite rsp (le_split 4 mapped_fd))
  else Ub.

(** Leaving: the socket of a request is closed; the one of a completion channel
    is kept in its table. *)
Definition leave (close_sock : bool) (fd : Z) (s : sock_with_lock) (c : ctl) : ctl :=
  if close_sock then
    mkCtl (comp_channel_map c) (comp_channel_sock_map c) (conns c)
      (trace c ++ [k_out (peer s)])
  else
    mkCtl (comp_channel_map c) (<[fd := s]> (comp_channel_sock_map c)) (conns c) (trace c).

(** The whole call.  [rsp0] and [size0] are what the caller's response buffer
    and size variable hold; the result is the new state and what they hold
    afterwards. *)
Definition request_router (e : env) (c : ctl) (req : RDMA_FUNCTION_CALL)
  (body : req_body) (rsp0 : list Z) (size0 : Z) : res (ctl * list Z * Z) :=
  let fd := match body with BStruct bs => s32 (le_combine (take 4 bs)) | _ => 0 end in
  let is_event := bool_decide (req = IBV_GET_CQ_EVENT) in
  '(c1, unix_sock) ←
    (if is_event then get_unix_sock_comp_channel e c fd
     else '(c1, s) ← get_unix_sock e c; Ok (c1, Some s));
  match unix_sock with
  | None => Ok (c1, rsp0, size0)
  | Some s =>
      if sock s <? 0 then
        Ok (if is_event then leave false fd s c1 else c1, rsp0, size0) else
      cid ← (match e_ffr_id e with Some i => Ok i | None => Exit 1 end);
      match switch_sizes req body with
      | None => Ok (leave true fd s c1, rsp0, size0)
      | Some (bsize, bbytes, rsize) =>
          s1 ← send_request s (mkReqHeader cid req bsize) bbytes;
          mapped ← (if bool_decide (req = IBV_CREATE_COMP_CHANNEL)
                    then recv_fd s1 else Ok (-1));
          '(ok, rsp, rsp_size, s2) ← recv_response s1 rsize rsp0 size0;
          '(c2, rsp') ← (if ok && bool_decide (req = IBV_CREATE_COMP_CHANNEL)
                         then map_comp_channel c1 mapped rsp else Ok (c1, rsp));
          Ok (leave (negb is_event) fd s2 c2, rsp', rsp_size)
      end
  end.

(** ** Lemmas *)

(** However the response is cut into chunks, the loop gathers it. *)
Lemma read_full_chunks chs : forall acc need rest,
  need = Z.of_nat (length (concat chs)) ->
  exists rs, read_full (map Some chs ++ rest) acc need = Ok (true, acc ++ concat chs, rs).
Proof.
  induction chs as [|ch chs IH]; intros acc need rest Hn.
  - simpl in Hn. subst. exists rest. simpl.
    destruct rest; simpl; by rewrite app_nil_r.
  - cbn [map app read_full concat]. cbn [concat] in Hn. rewrite length_app in Hn.
    destruct (Z.leb_spec need 0).
    + exists (Some ch :: map Some chs ++ rest).
      destruct ch, (concat chs); simpl in *; try lia. by rewrite app_nil_r.
    + destruct (Z.ltb_spec need (Z.of_nat (length ch))); [lia|].
      destruct (IH (acc ++ ch) (need - Z.of_nat (length ch)) rest) as (rs & ->); [lia|].
      exists rs. by rewrite app_assoc.
Qed.

Lemma read_full_eof n : forall acc need,
  0 < need -> read_full (replicate n (Some [])) acc need = Spin.
Proof.
  induction n as [|n IH]; intros acc need Hn; simpl;
    destruct (Z.leb_spec need 0); try lia; [done|].
  destruct (Z.ltb_spec need (Z.of_nat 0)); [lia|]. apply IH. lia.
Qed.

(** What [write] may return. *)
Definition write_result (n : Z) : Prop := n = -1 \/ 0 <= n < 2 ^ 31.

(** No result of [write] makes the sender give up. *)
Lemma send_request_runs s h body w1 w2 ws :
  0 <= sock s -> k_writes (peer s) = w1 :: w2 :: ws ->
  write_result w1 -> write_result w2 ->
  0 <= body_size h < 2 ^ 32 -> body_size h <= Z.of_nat (length body) ->
  exists s', send_request s h body = Ok s' /\ sock s' = sock s /\
    k_reads (peer s') = k_reads (peer s) /\ k_cmsg (peer s') = k_cmsg (peer s) /\
    k_out (peer s') = k_out (peer s) ++ take (Z.to_nat w1) (header_bytes h)
      ++ take (Z.to_nat w2) (take (Z.to_nat (body_size h)) body).
Proof.
  intros Hs Hw Hr1 Hr2 Hb Hl. unfold send_request, sock_write.
  destruct (Z.ltb_spec (sock s) 0); [lia|]. rewrite Hw. cbn [mbind res_bind].
  change (sizeof t_FfrRequestHeader) with 12.
  assert (forall A (x y : A), (if u64 w1 <? 12 then (if w1 <? 0 then x else y) else y) = y) as E1.
  { intros A x y. destruct (Z.ltb_spec (u64 w1) 12) as [Hu|]; [|done].
    destruct (Z.ltb_spec w1 0) as [Hn|]; [|done]. destruct Hr1 as [->|]; [|lia].
    vm_compute in Hu. discriminate. }
  rewrite E1.
  destruct (Z.ltb_spec 0 (body_size h)) as [Hpos|Hz].
  2: { assert (body_size h = 0) as -> by lia. eexists. split; [reflexivity|].
       simpl. split_and!; try done. by rewrite take_0, take_nil, app_nil_r. }
  unfold take_n. destruct (Z.ltb_spec (body_size h) 0); [lia|].
  destruct (Z.ltb_spec (Z.of_nat (length body)) (body_size h)); [lia|].
  cbn [orb mbind res_bind sock peer k_writes].
  destruct (Z.ltb_spec (sock s) 0); [lia|]. cbn [mbind res_bind].
  assert (forall A (x y : A), (if u32 w2 <? body_size h then (if w2 <? 0 then x else y) else y) = y) as E2.
  { intros A x y. destruct (Z.ltb_spec (u32 w2) (body_size h)) as [Hu|]; [|done].
    destruct (Z.ltb_spec w2 0) as [Hn|]; [|done]. destruct Hr2 as [->|]; [|lia].
    change (u32 (-1)) with (2 ^ 32 - 1) in Hu. lia. }
  rewrite E2. eexists. split; [reflexivity|]. simpl. split_and!; try done.
  by rewrite <- app_assoc.
Qed.

(** An environment with both variables, the router's name fitting a socket's
    address. *)
Record env_named (e : env) (id : Z) : Prop := {
  eo_id : e_ffr_id e = Some id;
  eo_name : exists name, e_ffr_name e = Some name /\
    path_prefix + Z.of_nat (length name) + 1 <= sun_path_size }.

(** Whether the block [malloc] gives for the path happens to have room for the
    terminating 0 that was not asked for. *)
Definition path_spare (e : env) : bool :=
  match e_ffr_name e with
  | Some name => let len := path_prefix + Z.of_nat (length name) in len + 1 <=? e_usable e len
  | None => false
  end.

(** An environment in which [connect_router] has defined behaviour. *)
Record env_ok (e : env) (id : Z) : Prop := {
  eo_named : env_named e id;
  eo_spare : path_spare e = true }.

Lemma connect_router_ok e id k :
  env_ok e id -> 0 <= k_socket k ->
  connect_router e k = Ok (mkSock (if k_connect k <? 0 then -1 else k_socket k) k).
Proof.
  intros [[_ (name & Hn & Hl)] Hu] Hk. unfold connect_router.
  destruct (Z.ltb_spec (k_socket k) 0); [lia|]. unfold path_spare in Hu.
  rewrite Hn in *. simpl. apply Z.leb_le in Hu.
  destruct (Z.ltb_spec (e_usable e (path_prefix + Z.of_nat (length name)))
    (path_prefix + Z.of_nat (length name) + 1)); [lia|].
  destruct (Z.ltb_spec sun_path_size (path_prefix + Z.of_nat (length name) + 1)); [lia|].
  done.
Qed.

Lemma connect_router_overruns e id k :
  env_named e id -> path_spare e = false -> 0 <= k_socket k -> connect_router e k = Ub.
Proof.
  intros [_ (name & Hn & _)] Hu Hk. unfold connect_router.
  destruct (Z.ltb_spec (k_socket k) 0); [lia|]. unfold path_spare in Hu.
  rewrite Hn in *. simpl. apply Z.leb_gt in Hu.
  destruct (Z.ltb_spec (e_usable e (path_prefix + Z.of_nat (length name)))
    (path_prefix + Z.of_nat (length name) + 1)); [done|lia].
Qed.

Lemma fixed_switch req body q r :
  fixed_format req = Some (q, r) ->
  switch_sizes req body
  = Some (match q with Some t => sizeof t | None => 0 end,
          match body with BStruct bs => bs | _ => [] end, Some (sizeof r)).
Proof. intros E. destruct req; try discriminate E; simpl in *; by injection E as <- <-. Qed.

Lemma fixed_request_size req q r : fixed_format req = Some (q, r) ->
  0 <= match q with Some t => sizeof t | None => 0 end < 2 ^ 31 /\ 0 < sizeof r.
Proof.
  intros E. destruct req; try discriminate E; injection E as <- <-;
    (split; [split|]); vm_compute; congruence.
Qed.

(** The body struct of a request: none, or an encoded value of its type. *)
Definition body_for (q : option cty) (body : req_body) : Prop :=
  match q with
  | None => body = BNull
  | Some t => exists bs, body = BStruct bs /\ Z.of_nat (length bs) = sizeof t
  end.

Definition body_bytes (body : req_body) : list Z :=
  match body with BStruct bs => bs | _ => [] end.

Lemma body_for_length q body :
  body_for q body -> Z.of_nat (length (body_bytes body))
                     = match q with Some t => sizeof t | None => 0 end.
Proof. destruct q; [by intros (bs & -> & ?)|by intros ->]. Qed.

Lemma overwrite_all old new : length old = length new -> overwrite old new = new.
Proof. intros E. unfold overwrite. rewrite <- E, drop_all. apply app_nil_r. Qed.

(** The functions whose exchange is the plain one. *)
Definition plain (req : RDMA_FUNCTION_CALL) : Prop :=
  req <> IBV_GET_CQ_EVENT /\ req <> IBV_CREATE_COMP_CHANNEL.

(** What a call with a fixed format puts on the wire. *)
Definition message (id : Z) (req : RDMA_FUNCTION_CALL) (body : req_body) : list Z :=
  header_bytes (mkReqHeader id req (Z.of_nat (length (body_bytes body)))) ++ body_bytes body.

Section Exchange.
Context (e : env) (id : Z) (c : ctl) (req : RDMA_FUNCTION_CALL) (q : option cty) (r : cty)
  (body : req_body) (rsp0 : list Z) (size0 : Z) (k : conn) (ks : list conn) (w1 w2 : Z)
  (ws : list Z).

(** A request of fixed format to a router that accepts the connection. *)
Record request_setup : Prop := {
  rq_env : env_named e id;
  rq_fixed : fixed_format req = Some (q, r);
  rq_plain : plain req;
  rq_body : body_for q body;
  rq_conns : conns c = k :: ks;
  rq_socket : 0 <= k_socket k;
  rq_connect : 0 <= k_connect k;
  rq_writes : k_writes k = w1 :: w2 :: ws;
  rq_w1 : write_result w1;
  rq_w2 : write_result w2 }.

Definition ctl_done (out : list Z) : ctl :=
  mkCtl (comp_channel_map c) (comp_channel_sock_map c) ks (trace c ++ [out]).

(** The call up to the reading of the response. *)
Lemma request_reaches_read : request_setup -> path_spare e = true ->
  exists s', sock s' = k_socket k /\ k_reads (peer s') = k_reads k /\
    k_out (peer s') = k_out k
      ++ take (Z.to_nat w1)
           (header_bytes (mkReqHeader id req (Z.of_nat (length (body_bytes body)))))
      ++ take (Z.to_nat w2) (body_bytes body) /\
    request_router e c req body rsp0 size0
    = ('(_, rsp, rsp_size, s2) ← recv_response s' (Some (sizeof r)) rsp0 size0;
       Ok (ctl_done (k_out (peer s2)), rsp, rsp_size)).
Proof.
  intros [Hn Hf [Hp1 Hp2] Hb Hc Hs Hk Hw Hr1 Hr2] Hsp.
  assert (env_ok e id) as He by done.
  destruct (fixed_request_size _ _ _ Hf) as [Hqs Hrs].
  pose proof (body_for_length _ _ Hb) as Hbl.
  destruct (send_request_runs (mkSock (k_socket k) k)
    (mkReqHeader id req (Z.of_nat (length (body_bytes body)))) (body_bytes body) w1 w2 ws)
    as (s' & Es & E1 & E2 & E3 & E4); simpl; auto; [lia|lia|].
  exists s'. split_and!; [done|done| |].
  { rewrite E4. simpl body_size. by rewrite Nat2Z.id, firstn_all. }
  unfold request_router. rewrite bool_decide_false by done. unfold get_unix_sock.
  rewrite Hc, (connect_router_ok _ _ _ He Hs). cbn [mbind res_bind sock].
  destruct (Z.ltb_spec (k_connect k) 0); [lia|]. cbn [sock].
  destruct (Z.ltb_spec (k_socket k) 0); [lia|].
  rewrite (eo_id _ _ (eo_named _ _ He)), (fixed_switch _ _ _ _ Hf). cbn [mbind res_bind].
  rewrite <- Hbl. fold (body_bytes body). rewrite Es. cbn [mbind res_bind].
  rewrite bool_decide_false by done. cbn [mbind res_bind].
  destruct (recv_response s' (Some (sizeof r)) rsp0 size0) as [[[[ok rsp] n] s2]| | |];
    cbn [mbind res_bind]; try done.
  by rewrite andb_false_r.
Qed.

(** The response arrives, in any number of pieces. *)
Lemma request_answered chs rest :
  request_setup -> path_spare e = true -> k_reads k = map Some chs ++ rest ->
  Z.of_nat (length (concat chs)) = sizeof r -> length rsp0 = length (concat chs) ->
  request_router e c req body rsp0 size0
  = Ok (ctl_done (k_out k
          ++ take (Z.to_nat w1)
               (header_bytes (mkReqHeader id req (Z.of_nat (length (body_bytes body)))))
          ++ take (Z.to_nat w2) (body_bytes body)), concat chs, sizeof r).
Proof.
  intros Hset Hsp Hr Hl Hl0. destruct (request_reaches_read Hset Hsp) as (s' & E1 & E2 & E3 & ->).
  destruct Hset as [_ Hf _ _ _ Hs _ _ _ _].
  destruct (fixed_request_size _ _ _ Hf) as [_ Hrs].
  unfold recv_response. cbn [mbind res_bind negb]. unfold sock_read_full.
  destruct (Z.leb_spec (sizeof r) 0); [lia|]. rewrite E1.
  destruct (Z.ltb_spec (k_socket k) 0); [lia|].
  rewrite E2, Hr. destruct (read_full_chunks chs [] (sizeof r) rest) as (rs & ->); [done|].
  cbn [mbind res_bind app]. rewrite overwrite_all by done. simpl. by rewrite E3.
Qed.

(** The router has gone: end of file. *)
Lemma request_eof n :
  request_setup -> path_spare e = true -> k_reads k = replicate n (Some []) ->
  request_router e c req body rsp0 size0 = Spin.
Proof.
  intros Hset Hsp Hr. destruct (request_reaches_read Hset Hsp) as (s' & E1 & E2 & E3 & ->).
  destruct Hset as [_ Hf _ _ _ Hs _ _ _ _].
  destruct (fixed_request_size _ _ _ Hf) as [_ Hrs].
  unfold recv_response. cbn [mbind res_bind negb]. unfold sock_read_full.
  destruct (Z.leb_spec (sizeof r) 0); [lia|]. rewrite E1.
  destruct (Z.ltb_spec (k_socket k) 0); [lia|].
  by rewrite E2, Hr, read_full_eof by done.
Qed.

(** Without a spare byte behind the path the call writes past its block. *)
Lemma request_overruns :
  request_setup -> path_spare e = false -> request_router e c req body rsp0 size0 = Ub.
Proof.
  intros [He _ [Hp1 _] _ Hc Hs _ _ _ _] Hsp. unfold request_router.
  rewrite bool_decide_false by done. unfold get_unix_sock.
  by rewrite Hc, (connect_router_overruns _ _ _ He Hsp Hs).
Qed.
End Exchange.

(** ** Properties *)

(** C34: A control request of fixed format, other than IBV_GET_CQ_EVENT and
    IBV_CREATE_COMP_CHANNEL, to a router that accepts the connection, when both
    writes take everything.  If the block [malloc] gave for the router's path has
    a spare byte: the header (with the client's id, the function and the body's
    size) and the body go out, in that order; however the router's answer is cut
    into pieces, the call returns with exactly the struct value the router sent in
    the response buffer, and the connection is closed.  If it has none, the call
    has written past the block and its behaviour is undefined. *)
Theorem request_router_exchanges_structs e id c req q r body rsp0 size0 k ks w1 w2 ws
  chs rest junk v :
  request_setup e id c req q r body k ks w1 w2 ws ->
  12 <= w1 -> Z.of_nat (length (body_bytes body)) <= w2 -> k_out k = [] ->
  has_type r v -> concat chs = encode junk r v -> k_reads k = map Some chs ++ rest ->
  Z.of_nat (length rsp0) = sizeof r ->
  if path_spare e then
    exists rsp,
      request_router e c req body rsp0 size0
      = Ok (ctl_done c ks (message id req body), rsp, sizeof r) /\ decode r rsp = v
  else request_router e c req body rsp0 size0 = Ub.
Proof.
  intros Hset Hw1 Hw2 Ho Ht Ech Hr Hl0. destruct (has_type_wire junk _ _ Ht) as [Hl Hd].
  destruct (path_spare e) eqn:Hsp; [|by eapply request_overruns].
  exists (concat chs). rewrite Ech at 2. split; [|done].
  erewrite (request_answered e id c req q r body rsp0 size0 k ks w1 w2 ws chs rest);
    [|done|done|done|by rewrite Ech|rewrite Ech; lia].
  unfold message. rewrite Ho. simpl app.
  rewrite take_ge by (unfold header_bytes; simpl; lia).
  by rewrite take_ge by lia.
Qed.

(** A failed write goes unnoticed: its result -1 is compared as an unsigned
    number, so the call goes on as if everything had been sent and waits for an
    answer; when the router has closed the connection it reads end of file for
    ever and never returns. *)
Theorem request_router_never_returns_on_eof e id c req q r body rsp0 size0 k ks ws n :
  request_setup e id c req q r body k ks (-1) (-1) ws -> path_spare e = true ->
  k_reads k = replicate n (Some []) ->
  request_router e c req body rsp0 size0 = Spin.
Proof. apply request_eof. Qed.

(** When no connection is made the call returns without any error and leaves
    the response buffer and the size as they were: its caller goes on with what
    was on its stack. *)
Theorem request_router_unconnected_keeps_buffer e id c req body rsp0 size0 k ks :
  env_ok e id -> plain req -> conns c = k :: ks -> 0 <= k_socket k -> k_connect k < 0 ->
  exists c', request_router e c req body rsp0 size0 = Ok (c', rsp0, size0) /\
             trace c' = trace c.
Proof.
  intros He [Hp1 Hp2] Hc Hs Hk. unfold request_router.
  rewrite bool_decide_false by done. unfold get_unix_sock.
  rewrite Hc, (connect_router_ok _ _ _ He Hs). cbn [mbind res_bind sock].
  destruct (Z.ltb_spec (k_connect k) 0); [|lia]. simpl. eauto.
Qed.

(** The buffer for the router's path is one byte short: on a heap that hands
    out no more than was asked for, no connection is ever made without writing
    past its end. *)
Theorem connect_router_writes_past_buffer e k :
  (forall n, e_usable e n = n) -> 0 <= k_socket k -> connect_router e k = Ub.
Proof.
  intros Hu Hs. unfold connect_router. destruct (Z.ltb_spec (k_socket k) 0); [lia|].
  destruct (e_ffr_name e) as [name|]; simpl; [|done]. rewrite Hu.
  destruct (Z.ltb_spec (path_prefix + Z.of_nat (length name))
    (path_prefix + Z.of_nat (length name) + 1)); [done|lia].
Qed.

(** ** A concrete exchange *)

Definition ex_env : env := mkEnv (Some 5) (Some [114; 49]) (fun n => n + 16).
Definition ex_conn (ws : list Z) (rs : list (option (list Z))) : conn :=
  mkConn 3 0 ws rs RmNoControl [].
Definition ex_ctl (k : conn) : ctl := mkCtl ∅ ∅ [k] [].

Lemma ex_env_ok : env_ok ex_env 5.
Proof. split; [split; [done|by exists [114; 49]]|done]. Defined.

Lemma request_router_exchanges_structs_witness :
  let k := ex_conn [12; 4] [Some [7; 0]; Some []; Some [0; 0]] in
  exists rsp, request_router ex_env (ex_ctl k) IBV_DEALLOC_PD (BStruct [9; 0; 0; 0])
      [1; 1; 1; 1] 0
    = Ok (mkCtl ∅ ∅ [] [[5; 0; 0; 0; 6; 0; 0; 0; 4; 0; 0; 0; 9; 0; 0; 0]], rsp, 4) /\
    decode t_IBV_DEALLOC_PD_RSP rsp = VS [VI 7].
Proof.
  intros k. apply (request_router_exchanges_structs ex_env 5 (ex_ctl k) IBV_DEALLOC_PD
    (Some t_IBV_DEALLOC_PD_REQ) t_IBV_DEALLOC_PD_RSP (BStruct [9; 0; 0; 0]) [1; 1; 1; 1] 0
    k [] 12 4 [] [[7; 0]; []; [0; 0]] [] 0 (VS [VI 7])); try done.
  - split; try done; [apply ex_env_ok|by eexists|right; lia|right; lia].
  - by apply typed_has_type.
Defined.

Lemma request_router_never_returns_on_eof_witness :
  let k := ex_conn [-1; -1] (replicate 100 (Some [])) in
  request_router ex_env (ex_ctl k) IBV_DEALLOC_PD (BStruct [9; 0; 0; 0]) [1; 1; 1; 1] 0 = Spin.
Proof.
  intros k. apply (request_router_never_returns_on_eof ex_env 5 (ex_ctl k) IBV_DEALLOC_PD
    (Some t_IBV_DEALLOC_PD_REQ) t_IBV_DEALLOC_PD_RSP (BStruct [9; 0; 0; 0]) [1; 1; 1; 1] 0
    k [] [] 100); [|done..].
  split; try done; [apply ex_env_ok|by eexists|by left|by left].
Defined.

Lemma request_router_unconnected_keeps_buffer_witness :
  let k := mkConn 3 (-1) [] [] RmNoControl [] in
  exists c', request_router ex_env (ex_ctl k) IBV_ALLOC_PD BNull [1; 2; 3; 4] 0
    = Ok (c', [1; 2; 3; 4], 0).
Proof.
  intros k. destruct (request_router_unconnected_keeps_buffer ex_env 5 (ex_ctl k) IBV_ALLOC_PD
    BNull [1; 2; 3; 4] 0 k []) as (c' & E & _); try done; [apply ex_env_ok|]. by exists c'.
Defined.

Lemma connect_router_writes_past_buffer_witness :
  connect_router (mkEnv (Some 5) (Some [114]) (fun n => n)) (ex_conn [] []) = Ub.
Proof. apply connect_router_writes_past_buffer; [done|simpl; lia]. Defined.
