(* ===== verification/CmdCtrl.v ===== *)
(** * Control verbs of cmd.c

    The verbs that create, change and destroy objects.  Each sends one request
    (registering memory: two) through [request_router], copies fields of the
    response into the object it was given, and keeps the client's tables: the
    lkey map, the pieces and rings, the queue-to-shared-queue map.  A response
    struct the router did not fill keeps the bytes of the caller's stack. *)

From S2P Require Import Prelude CLayout FfTypes Verbs MemPool WrQueue CtrlShm Client.
From S2P Require Import Wire ReqRouter.

(** ** The process *)

(** What the operating system gives: the byte a fresh stack slot holds; for
    [mmap] of a named segment at a fixed address or at any, the address and the
    segment's bytes ([None]: MAP_FAILED); for the segment of a queue, the piece
    the router made. *)
Record os : Type := mkOs {
  os_junk : Z;
  os_mmap : list Z -> Z -> option Z -> option (Z * (Z -> Z));
  os_qp_shm : list Z -> option qp_piece;
  os_cq_shm : list Z -> option cq_piece }.

Record proc (M : Type) : Type := mkProc {
  p_os : os;
  p_env : env;
  p_ctl : ctl;
  p_cl : client M;
  sock_initialized : bool;
  unlinked : list (list Z) }.
Arguments mkProc {M}.
Arguments p_os {M}.
Arguments p_env {M}.
Arguments p_ctl {M}.
Arguments p_cl {M}.
Arguments sock_initialized {M}.
Arguments unlinked {M}.

(** ** Objects *)

Record ibv_context : Type := mkContext { async_fd : Z; num_comp_vectors : Z }.
Record ibv_pd : Type := mkPd { pd_handle : Z; pd_context : Z }.
Record ibv_mr : Type := mkMr {
  mr_handle : Z; mr_lkey : Z; mr_rkey : Z; mr_shm_name : list Z; mr_shm_ptr : Z;
  mr_addr : Z; mr_length : Z; mr_context : Z }.
Record ibv_cq : Type := mkCq { cq_handle : Z; cq_cqe : Z; cq_context : Z }.
Record ibv_srq : Type := mkSrq { srq_handle : Z; srq_context : Z }.
Record ibv_ah : Type := mkAh { ah_handle : Z; ah_context : Z; ah_pd : ibv_pd }.
(** [struct ibv_qp] as the control verbs see it; the queues are their handles. *)
Record ibv_qp : Type := mkQpObj {
  q_handle : Z; q_num : Z; q_context : Z; q_recv_cq : option Z; q_srq : option Z;
  q_state : Z }.
(** [struct ibv_qp_cap] *)
Record qp_cap : Type := mkCap {
  max_send_wr : Z; max_recv_wr : Z; max_send_sge : Z; max_recv_sge : Z;
  max_inline_data : Z }.
Record qp_init_attr : Type := mkInit {
  i_send_cq : Z; i_recv_cq : Z; i_srq : option Z; i_cap : qp_cap; i_qp_type : Z;
  i_sq_sig_all : Z }.

(** ** Requests and responses *)

Definition fields (v : cval) : list cval := match v with VS l => l | _ => [] end.
Definition vint (v : option cval) : Z := match v with Some (VI z) => z | _ => 0 end.
Definition vbytes (v : option cval) : list Z := match v with Some (VB b) => b | _ => [] end.

(** Field [i] of a response: as unsigned, as [int], as bytes, as a struct. *)
Definition fu (r : cval) (i : nat) : Z := vint (fields r !! i).
Definition fi (r : cval) (i : nat) : Z := s32 (fu r i).
Definition fb (r : cval) (i : nat) : list Z := vbytes (fields r !! i).
Definition fs (r : cval) (i : nat) : cval := default (VS []) (fields r !! i).

(** A C string in a byte array, without its terminator; [None]: unterminated. *)
Fixpoint cstring (bs : list Z) : option (list Z) :=
  match bs with
  | [] => None
  | b :: bs' => if b =? 0 then Some [] else l ← cstring bs'; Some (b :: l)
  end.

(** [strcpy] into a char array of [n] bytes whose other bytes are [junk]. *)
Definition c_array (n : Z) (junk : Z) (s : list Z) : list Z :=
  s ++ 0 :: replicate (Z.to_nat (n - Z.of_nat (length s) - 1)) junk.

Section Cmd.
Context {M : Type} `{LkeyMap M}.
Implicit Types p : proc M.

Definition set_ctl (c : ctl) p : proc M :=
  mkProc (p_os p) (p_env p) c (p_cl p) (sock_initialized p) (unlinked p).
Definition set_cl (c : client M) p : proc M :=
  mkProc (p_os p) (p_env p) (p_ctl p) c (sock_initialized p) (unlinked p).
Definition set_unlinked (u : list (list Z)) p : proc M :=
  mkProc (p_os p) (p_env p) (p_ctl p) (p_cl p) (sock_initialized p) u.

Definition junk p : Z := os_junk (p_os p).

(** A request with the response read into a fresh struct of type [rt]. *)
Definition ask p (req : RDMA_FUNCTION_CALL) (body : req_body) (rt : cty)
  : res (proc M * cval) :=
  '(c', rsp, _) ← request_router (p_env p) (p_ctl p) req body
                    (replicate (Z.to_nat (sizeof rt)) (junk p)) (junk p);
  Ok (set_ctl c' p, decode rt rsp).

Definition body_of p (t : cty) (vs : list cval) : req_body :=
  BStruct (encode (junk p) t (VS vs)).

(** ** Start *)

Definition init_sock (fresh : M) p : res (proc M) :=
  if sock_initialized p then Ok p else
  match e_ffr_id (p_env p) with
  | None => Exit 1
  | Some cid =>
      let c := p_cl p in
      Ok (mkProc (p_os p) (p_env p) (mkCtl ∅ ∅ (conns (p_ctl p)) (trace (p_ctl p)))
            (mkClient cid fresh (memory c) (qp_shm_map c) (cq_shm_map c) (srq_shm_map c)
               (map_cq_to_wr_queue c)
               (gset_to_gmap (MAP_SIZE + 1) (list_to_set (seqZ 0 MAP_SIZE)))
               (map_srq_to_wr_queue c) (srq_tail_locked c))
            true (unlinked p))
  end.

(** ** Context, device and port *)

Definition ibv_cmd_get_context p : res (proc M * ibv_context * Z) :=
  '(p1, rsp) ← ask p IBV_GET_CONTEXT BNull t_IBV_GET_CONTEXT_RSP;
  Ok (p1, mkContext (fi rsp 0) (fi rsp 1), 0).

Definition ibv_cmd_query_device p : res (proc M * cval * Z) :=
  '(p1, rsp) ← ask p IBV_QUERY_DEV BNull t_IBV_QUERY_DEV_RSP;
  Ok (p1, fs rsp 0, 0).

Definition ibv_cmd_query_port p (port_num : Z) : res (proc M * cval * Z) :=
  '(p1, rsp) ← ask p IBV_QUERY_PORT (body_of p t_IBV_QUERY_PORT_REQ [VI (u8 port_num)])
                 t_IBV_QUERY_PORT_RSP;
  Ok (p1, fs rsp 0, 0).

(** ** Protection domains *)

Definition ibv_cmd_alloc_pd p (context : Z) : res (proc M * ibv_pd * Z) :=
  '(p1, rsp) ← ask p IBV_ALLOC_PD BNull t_IBV_ALLOC_PD_RSP;
  Ok (p1, mkPd (fu rsp 0) context, 0).

Definition ibv_cmd_dealloc_pd p (pd : ibv_pd) : res (proc M * Z) :=
  '(p1, rsp) ← ask p IBV_DEALLOC_PD (body_of p t_IBV_DEALLOC_PD_REQ [VI (pd_handle pd)])
                 t_IBV_DEALLOC_PD_RSP;
  Ok (p1, fi rsp 0).

(** ** Memory regions *)

Definition PAGE : Z := 4096.

(** [mmap] of a segment of [len] bytes at the page-aligned address [a]: whole
    pages are replaced; behind the segment's end they read 0. *)
Definition map_pages (m : mem) (a len : Z) (content : Z -> Z) : mem :=
  fun x => if (a <=? x) && (x <? a + align_up len PAGE)
           then (if x <? a + len then content (x - a) else 0) else m x.

(** [memcpy] from a saved copy of [len] bytes of [m0] at [src]. *)
Definition restore (m0 m : mem) (dst src len : Z) : mem :=
  fun x => if (dst <=? x) && (x <? dst + len) then m0 (src + (x - dst)) else m x.

Definition reg_mr_req p (pd : ibv_pd) (length access : Z) (name : list Z) : req_body :=
  body_of p t_IBV_REG_MR_REQ
    [VI (pd_handle pd); VI (u32 length); VI (u32 access); VB (c_array 100 (junk p) name)].

(** The second request: the router learns the mapping of the key. *)
Definition reg_mapping p (key mr_ptr shm_ptr : Z) : res (proc M) :=
  '(p1, _) ← ask p IBV_REG_MR_MAPPING
               (body_of p t_IBV_REG_MR_MAPPING_REQ [VI key; VI mr_ptr; VI shm_ptr])
               t_IBV_REG_MR_MAPPING_RSP;
  Ok p1.

Definition insert_lkey p (key : Z) (v : mr_shm) : res (proc M) :=
  lk ← lk_insert (map_lkey_to_mrshm (p_cl p)) key v;
  Ok (set_cl (set_lkeys lk (p_cl p)) p).

Definition ibv_cmd_reg_mr p (pd : ibv_pd) (addr length access : Z)
  : res (proc M * ibv_mr * Z) :=
  '(p1, rsp) ← ask p IBV_REG_MR (reg_mr_req p pd length access []) t_IBV_REG_MR_RSP;
  let lkey := fu rsp 1 in
  shm_name ← of_option (cstring (fb rsp 3));
  let fixed := if addr mod (4 * 1024) =? 0 then Some addr else None in
  let m0 := memory (p_cl p1) in
  let finish p ptr :=
    Ok (p, mkMr (fu rsp 0) lkey (fu rsp 2) shm_name ptr addr length (pd_context pd), 0) in
  match os_mmap (p_os p1) shm_name length fixed with
  | None => finish p1 (u64 (-1))
  | Some (shm, content) =>
      let m1 := restore m0 (map_pages m0 shm length content) shm addr length in
      p2 ← reg_mapping (set_cl (set_memory m1 (p_cl p1)) p1) lkey addr shm;
      p3 ← insert_lkey p2 lkey (mkMrShm addr shm);
      finish p3 shm
  end.

(** [*addr] is an argument and a result; 0 is the null pointer.  [shm_name]:
    [None] when the caller gives no name. *)
Definition ibv_cmd_reg_mr_ff p (pd : ibv_pd) (addr length access : Z)
  (name : option (list Z)) : res (proc M * ibv_mr * Z * Z) :=
  if match name with Some s => 100 <? Z.of_nat (List.length s) + 1 | None => false end
  then Ub else
  '(p1, rsp) ← ask p IBV_REG_MR (reg_mr_req p pd length access (default [] name))
                 t_IBV_REG_MR_RSP;
  let lkey := fu rsp 1 in
  shm_name ← of_option (cstring (fb rsp 3));
  let m0 := memory (p_cl p1) in
  let finish p ptr a :=
    Ok (p, mkMr (fu rsp 0) lkey (fu rsp 2) shm_name ptr a length (pd_context pd), a, 0) in
  match os_mmap (p_os p1) shm_name length None with
  | None => finish p1 (u64 (-1)) addr
  | Some (shm, content) =>
      let mapped := map_pages m0 shm length content in
      p2 ← reg_mapping (set_cl (set_memory mapped (p_cl p1)) p1) lkey shm shm;
      let m1 := if negb (addr =? 0) then restore m0 mapped shm addr length else mapped in
      p3 ← insert_lkey (set_cl (set_memory m1 (p_cl p2)) p2) lkey (mkMrShm shm shm);
      finish p3 shm shm
  end.

Definition ibv_cmd_dereg_mr p (mr : ibv_mr) : res (proc M * Z) :=
  '(p1, rsp) ← ask p IBV_DEREG_MR (body_of p t_IBV_DEREG_MR_REQ [VI (mr_handle mr)])
                 t_IBV_DEREG_MR_RSP;
  let p2 := set_unlinked (unlinked p1 ++ [mr_shm_name mr]) p1 in
  Ok (set_cl (set_lkeys (lk_del (map_lkey_to_mrshm (p_cl p2)) (mr_lkey mr)) (p_cl p2)) p2,
      fi rsp 0).

(** ** Completion queues *)

(** An index of one of the tables; a store outside of it is undefined. *)
Definition index (i : Z) : res Z := if (0 <=? i) && (i <? MAP_SIZE) then Ok i else Ub.

(** [comp_channel_map[channel->fd]] *)
Definition channel_fd p (channel : option Z) : res Z :=
  match channel with
  | None => Ok (-1)
  | Some fd => i ← index fd; Ok (default (-1) (comp_channel_map (p_ctl p) !! i))
  end.

(** The entry of a table of pieces: nothing that can be used when [mmap] failed. *)
Definition put_piece {A} (t : gmap Z A) (i : Z) (x : option A) : gmap Z A :=
  match x with Some a => <[i := a]> t | None => delete i t end.

Definition set_cq_tables (t : gmap Z cq_piece) (q : gmap Z wr_queue) (c : client M) : client M :=
  mkClient (ffr_client_id c) (map_lkey_to_mrshm c) (memory c) (qp_shm_map c) t
    (srq_shm_map c) q (map_cq_to_srq c) (map_srq_to_wr_queue c) (srq_tail_locked c).
Definition set_srq_tables (t : gmap Z qp_piece) (q : gmap Z wr_queue) (locks : gset Z)
  (c : client M) : client M :=
  mkClient (ffr_client_id c) (map_lkey_to_mrshm c) (memory c) (qp_shm_map c) (cq_shm_map c)
    t (map_cq_to_wr_queue c) (map_cq_to_srq c) q locks.
Definition set_qp_tables (t : gmap Z qp_piece) (s : gmap Z Z) (c : client M) : client M :=
  mkClient (ffr_client_id c) (map_lkey_to_mrshm c) (memory c) t (cq_shm_map c)
    (srq_shm_map c) (map_cq_to_wr_queue c) s (map_srq_to_wr_queue c) (srq_tail_locked c).

Definition ibv_cmd_create_cq p (context cqe : Z) (channel : option Z) (comp_vector : Z)
  : res (proc M * ibv_cq * Z) :=
  fd ← channel_fd p channel;
  '(p1, rsp) ← ask p IBV_CREATE_CQ
                 (body_of p t_IBV_CREATE_CQ_REQ [VI (u32 fd); VI (u32 comp_vector); VI (u32 cqe)])
                 t_IBV_CREATE_CQ_RSP;
  let handle := fu rsp 1 in
  shm_name ← of_option (cstring (fb rsp 2));
  i ← index handle;
  let c := p_cl p1 in
  Ok (set_cl (set_cq_tables (put_piece (cq_shm_map c) i (os_cq_shm (p_os p1) shm_name))
                (<[i := wr_queue_init]> (map_cq_to_wr_queue c)) c) p1,
      mkCq handle (s32 (fu rsp 0)) context, 0).

Definition ibv_cmd_req_notify_cq p (cq : ibv_cq) (solicited_only : Z) : res (proc M * Z) :=
  '(p1, rsp) ← ask p IBV_REQ_NOTIFY_CQ
                 (body_of p t_IBV_REQ_NOTIFY_CQ_REQ [VI (cq_handle cq); VI (u32 solicited_only)])
                 t_IBV_REQ_NOTIFY_CQ_RSP;
  Ok (p1, fi rsp 0).

Definition ibv_cmd_destroy_cq p (cq : ibv_cq) : res (proc M * Z) :=
  '(p1, rsp) ← ask p IBV_DESTROY_CQ (body_of p t_IBV_DESTROY_CQ_REQ [VI (cq_handle cq)])
                 t_IBV_DESTROY_CQ_RSP;
  Ok (p1, fi rsp 0).

(** ** Shared receive queues *)

(** [attr]: the application's [struct ibv_srq_init_attr]. *)
Definition ibv_cmd_create_srq p (pd : ibv_pd) (attr : cval) : res (proc M * ibv_srq * Z) :=
  '(p1, rsp) ← ask p IBV_CREATE_SRQ (body_of p t_IBV_CREATE_SRQ_REQ [VI (pd_handle pd); attr])
                 t_IBV_CREATE_SRQ_RSP;
  let handle := fu rsp 0 in
  shm_name ← of_option (cstring (fb rsp 1));
  i ← index handle;
  let c := p_cl p1 in
  Ok (set_cl (set_srq_tables (put_piece (srq_shm_map c) i (os_qp_shm (p_os p1) shm_name))
                (<[i := wr_queue_init]> (map_srq_to_wr_queue c))
                (srq_tail_locked c ∖ {[i]}) c) p1,
      mkSrq handle (pd_context pd), 0).

Definition ibv_cmd_modify_srq p (srq : ibv_srq) (attr : cval) (mask : Z) : res (proc M * Z) :=
  '(p1, rsp) ← ask p IBV_MODIFY_SRQ
                 (body_of p t_IBV_MODIFY_SRQ_REQ [VI (srq_handle srq); attr; VI (u32 mask)])
                 t_IBV_MODIFY_SRQ_RSP;
  Ok (p1, fi rsp 0).

Definition ibv_cmd_destroy_srq p (srq : ibv_srq) : res (proc M * Z) :=
  '(p1, rsp) ← ask p IBV_DESTROY_SRQ (body_of p t_IBV_DESTROY_SRQ_REQ [VI (srq_handle srq)])
                 t_IBV_DESTROY_SRQ_RSP;
  Ok (p1, fi rsp 0).

(** ** Queue pairs *)

Definition cap_val (c : qp_cap) : cval :=
  VS [VI (max_send_wr c); VI (max_recv_wr c); VI (max_send_sge c); VI (max_recv_sge c);
      VI (max_inline_data c)].
Definition cap_of (v : cval) : qp_cap :=
  mkCap (fu v 0) (fu v 1) (fu v 2) (fu v 3) (fu v 4).
Definition no_inline (c : qp_cap) : qp_cap :=
  mkCap (max_send_wr c) (max_recv_wr c) (max_send_sge c) (max_recv_sge c) 0.

(** The request; a queue pair without a shared queue sends the handle 0. *)
Definition create_qp_req p (pd : ibv_pd) (attr : qp_init_attr) : req_body :=
  body_of p t_IBV_CREATE_QP_REQ
    [VI (pd_handle pd); VI (i_qp_type attr); VI (u32 (i_sq_sig_all attr));
     VI (i_send_cq attr); VI (i_recv_cq attr); VI (default 0 (i_srq attr));
     cap_val (i_cap attr)].

(** The queue pair's [recv_cq] and [srq] are read from the object [qp], which
    the caller has filled in; the result has the capabilities stored in [attr]. *)
Definition ibv_cmd_create_qp p (abi_ver : Z) (pd : ibv_pd) (qp : ibv_qp) (attr : qp_init_attr)
  : res (proc M * ibv_qp * qp_cap * Z) :=
  '(p1, rsp) ← ask p IBV_CREATE_QP (create_qp_req p pd attr) t_IBV_CREATE_QP_RSP;
  let handle := fu rsp 1 in
  let cap := no_inline (if 3 <? abi_ver then cap_of (fs rsp 2) else i_cap attr) in
  recv_cq ← of_option (q_recv_cq qp);
  r ← index recv_cq;
  let srq := match q_srq qp with Some s => s | None => MAP_SIZE + 1 end in
  shm_name ← of_option (cstring (fb rsp 3));
  i ← index handle;
  let c := p_cl p1 in
  Ok (set_cl (set_qp_tables (put_piece (qp_shm_map c) i (os_qp_shm (p_os p1) shm_name))
                (<[r := srq]> (map_cq_to_srq c)) c) p1,
      mkQpObj handle (fu rsp 0) (pd_context pd) (q_recv_cq qp) (q_srq qp) (q_state qp),
      cap, 0).

Definition IBV_QP_STATE : Z := 1.

(** [attr]: the application's [struct ibv_qp_attr], whose first field is
    [qp_state]. *)
Definition ibv_cmd_modify_qp p (qp : ibv_qp) (attr : cval) (attr_mask : Z)
  : res (proc M * ibv_qp * Z) :=
  '(p1, rsp) ← ask p IBV_MODIFY_QP
                 (body_of p t_IBV_MODIFY_QP_REQ [VI (q_handle qp); attr; VI (u32 attr_mask)])
                 t_IBV_MODIFY_QP_RSP;
  let qp1 := if negb (Z.land attr_mask IBV_QP_STATE =? 0)
             then mkQpObj (q_handle qp) (q_num qp) (q_context qp) (q_recv_cq qp) (q_srq qp)
                    (fu attr 0)
             else qp in
  Ok (p1, qp1, fi rsp 0).

Definition ibv_cmd_destroy_qp p (qp : ibv_qp) : res (proc M * Z) :=
  '(p1, rsp) ← ask p IBV_DESTROY_QP (body_of p t_IBV_DESTROY_QP_REQ [VI (q_handle qp)])
                 t_IBV_DESTROY_QP_RSP;
  Ok (p1, fi rsp 0).

(** ** Address handles *)

Definition ibv_cmd_create_ah p (pd : ibv_pd) (attr : cval) : res (proc M * ibv_ah * Z) :=
  '(p1, rsp) ← ask p IBV_CREATE_AH (body_of p t_IBV_CREATE_AH_REQ [VI (pd_handle pd); attr])
                 t_IBV_CREATE_AH_RSP;
  Ok (p1, mkAh (fu rsp 0) (pd_context pd) pd, fi rsp 1).

Definition ibv_cmd_destroy_ah p (ah : ibv_ah) : res (proc M * Z) :=
  '(p1, rsp) ← ask p IBV_DESTROY_AH (body_of p t_IBV_DESTROY_AH_REQ [VI (ah_handle ah)])
                 t_IBV_DESTROY_AH_RSP;
  Ok (p1, fi rsp 0).

End Cmd.
