(* ===== verification/CmdLocal.v ===== *)
(** * Verbs of cmd.c that build a kernel command

    Extended and rarely used verbs.  Their kernel command is filled in but, with
    the [write] commented out, never sent: the fields they copy out of the
    response struct are the ones the caller's buffer held.  [ibv_cmd_query_qp]
    sends its command to the router inside of a request; [ibv_cmd_query_device_ex]
    still writes to the device. *)

From S2P Require Import Prelude CLayout FfTypes Wire ReqRouter MemPool Client CmdCtrl.

Definition ENOSYS : Z := 38.
Definition EINVAL : Z := 22.

(** [IBV_INIT_CMD_RESP] (and [IBV_INIT_CMD] with no response): the leading fields
    of a kernel command. [v3], [v2]: the command codes of the two ABIs. *)
Definition init_cmd (abi_ver v3 v2 size : Z) : list cval :=
  [VI (u32 (if 2 <? abi_ver then v3 else v2)); VI (u16 (size / 4)); VI 0].
Definition init_cmd_resp (abi_ver v3 v2 size out outsize : Z) : list cval :=
  [VI (u32 (if 2 <? abi_ver then v3 else v2)); VI (u16 (size / 4)); VI (u16 (outsize / 4));
   VI out].

Definition has (mask bit : Z) : bool := negb (Z.land mask bit =? 0).

(** ** XRC domains *)

Definition IBV_XRCD_INIT_ATTR_FD : Z := 1.
Definition IBV_XRCD_INIT_ATTR_OFLAGS : Z := 2.
Definition IBV_XRCD_INIT_ATTR_RESERVED : Z := 4.
Definition VERBS_XRCD_HANDLE : Z := 1.
(** [struct ibv_xrcd] is one pointer; [comp_mask] and [handle] follow. *)
Definition t_verbs_xrcd : cty := Struct [Struct [Ptr]; I32; I32].

Record verbs_xrcd : Type := mkXrcd { x_context : Z; x_comp_mask : Z; x_handle : Z }.
Record xrcd_init_attr : Type := mkXrcdAttr { xa_comp_mask : Z; xa_fd : Z; xa_oflags : Z }.

(** [resp]: the [xrcd_handle] the response buffer holds.  The result is the error
    code, or the command and the object. *)
Definition ibv_cmd_open_xrcd (abi_ver context : Z) (xrcd : verbs_xrcd) (vxrcd_size : Z)
  (attr : xrcd_init_attr) (cmd_size resp_ptr resp_size resp : Z)
  : (list cval * verbs_xrcd * Z) :=
  let hdr := init_cmd_resp abi_ver 37 (-1) cmd_size resp_ptr resp_size in
  if IBV_XRCD_INIT_ATTR_RESERVED <=? xa_comp_mask attr then (hdr, xrcd, ENOSYS) else
  if negb (has (xa_comp_mask attr) IBV_XRCD_INIT_ATTR_FD)
     || negb (has (xa_comp_mask attr) IBV_XRCD_INIT_ATTR_OFLAGS)
  then (hdr, xrcd, EINVAL) else
  let cmd := hdr ++ [VI (u32 (xa_fd attr)); VI (u32 (xa_oflags attr))] in
  if offsetof t_verbs_xrcd 2 <? vxrcd_size
  then (cmd, mkXrcd context VERBS_XRCD_HANDLE resp, 0)
  else (cmd, mkXrcd context 0 (x_handle xrcd), 0).

Definition ibv_cmd_close_xrcd (abi_ver : Z) (xrcd : verbs_xrcd) : list cval * Z :=
  (init_cmd abi_ver 38 (-1) 12 ++ [VI (x_handle xrcd)], 0).

(** ** Memory regions and windows *)

Definition IBV_REREG_MR_CHANGE_PD : Z := 2.

(** [resp]: the keys the response buffer holds. *)
Definition ibv_cmd_rereg_mr (abi_ver : Z) (mr : ibv_mr) (flags addr length hca_va access : Z)
  (pd : ibv_pd) (cmd_sz resp_ptr resp_sz : Z) (resp : Z * Z) : list cval * ibv_mr * Z :=
  let change := has flags IBV_REREG_MR_CHANGE_PD in
  (init_cmd_resp abi_ver 11 14 cmd_sz resp_ptr resp_sz ++
     [VI (mr_handle mr); VI (u32 flags); VI addr; VI length; VI hca_va;
      VI (if change then pd_handle pd else 0); VI (u32 access)],
   mkMr (mr_handle mr) (fst resp) (snd resp) (mr_shm_name mr) (mr_shm_ptr mr) (mr_addr mr)
     (mr_length mr) (if change then pd_context pd else mr_context mr), 0).

Record ibv_mw : Type := mkMw {
  mw_context : Z; mw_pd : ibv_pd; mw_rkey : Z; mw_handle : Z; mw_type : Z }.

(** [resp]: the handle and the key the response buffer holds. *)
Definition ibv_cmd_alloc_mw (abi_ver : Z) (pd : ibv_pd) (type cmd_size resp_ptr resp_size : Z)
  (resp : Z * Z) : list cval * ibv_mw * Z :=
  (init_cmd_resp abi_ver 14 17 cmd_size resp_ptr resp_size ++
     [VI (pd_handle pd); VI (u8 type); VB [0; 0; 0]],
   mkMw (pd_context pd) pd (snd resp) (fst resp) type, 0).

Definition ibv_cmd_dealloc_mw (abi_ver : Z) (mw : ibv_mw) (cmd_size : Z) : list cval * Z :=
  (init_cmd abi_ver 16 19 cmd_size ++ [VI (mw_handle mw); VI 0], 0).

(** ** Completion queues and shared receive queues *)

Definition ibv_cmd_resize_cq (abi_ver : Z) (cq : ibv_cq) (cqe cmd_size resp_ptr resp_size : Z)
  (resp : Z) : list cval * ibv_cq * Z :=
  (init_cmd_resp abi_ver 19 21 cmd_size resp_ptr resp_size
     ++ [VI (cq_handle cq); VI (u32 cqe)],
   mkCq (cq_handle cq) (s32 resp) (cq_context cq), 0).

(** [resp]: the stack struct ([max_wr], [max_sge], [srq_limit]) that nobody
    fills. *)
Definition ibv_cmd_query_srq (abi_ver : Z) (srq : ibv_srq) (cmd_size resp_ptr resp_size : Z)
  (resp : Z * Z * Z) : list cval * (Z * Z * Z) * Z :=
  (init_cmd_resp abi_ver 34 36 cmd_size resp_ptr resp_size ++ [VI (srq_handle srq); VI 0],
   resp, 0).

Definition IBV_SRQ_INIT_ATTR_TYPE : Z := 1.
Definition IBV_SRQ_INIT_ATTR_PD : Z := 2.
Definition IBV_SRQ_INIT_ATTR_XRCD : Z := 4.
Definition IBV_SRQ_INIT_ATTR_CQ : Z := 8.
Definition IBV_SRQ_INIT_ATTR_RESERVED : Z := 16.
Definition IBV_SRQT_BASIC : Z := 0.
Definition IBV_SRQT_XRC : Z := 1.
Definition VERBS_SRQ_XRCD : Z := 2.
Definition VERBS_SRQ_CQ : Z := 4.
Definition VERBS_SRQ_NUM : Z := 8.

(** [struct verbs_srq]: the base object, then the extension; [vs_*] are the
    fields of the extension. *)
Record verbs_srq : Type := mkVsrq {
  vs_handle : Z; vs_context : Z; vs_srq_context : Z; vs_pd : option ibv_pd;
  vs_comp_mask : Z; vs_type : Z; vs_xrcd : option Z; vs_cq : option Z; vs_num : Z }.

Record srq_init_attr_ex : Type := mkSrqAttrEx {
  se_srq_context : Z; se_max_wr : Z; se_max_sge : Z; se_srq_limit : Z;
  se_comp_mask : Z; se_type : Z; se_pd : ibv_pd;
  se_xrcd : verbs_xrcd; se_xrcd_ptr : Z; se_cq : ibv_cq; se_cq_ptr : Z }.

Record create_srq_resp : Type := mkSrqResp {
  sr_handle : Z; sr_max_wr : Z; sr_max_sge : Z; sr_srqn : Z }.

(** The extension part, when the caller's struct is large enough to have it. *)
Definition srq_extension (a : srq_init_attr_ex) (r : create_srq_resp) (srq : verbs_srq)
  : verbs_srq :=
  let m := se_comp_mask a in
  let type := if has m IBV_SRQ_INIT_ATTR_TYPE then se_type a else IBV_SRQT_BASIC in
  let xrc := type =? IBV_SRQT_XRC in
  let mask0 := IBV_SRQ_INIT_ATTR_TYPE in
  let mask1 := if xrc then Z.lor mask0 VERBS_SRQ_NUM else mask0 in
  let mask2 := if has m IBV_SRQ_INIT_ATTR_XRCD then Z.lor mask1 VERBS_SRQ_XRCD else mask1 in
  let mask3 := if has m IBV_SRQ_INIT_ATTR_CQ then Z.lor mask2 VERBS_SRQ_CQ else mask2 in
  mkVsrq (vs_handle srq) (vs_context srq) (vs_srq_context srq) (vs_pd srq) mask3 type
    (if has m IBV_SRQ_INIT_ATTR_XRCD then Some (se_xrcd_ptr a) else vs_xrcd srq)
    (if has m IBV_SRQ_INIT_ATTR_CQ then Some (se_cq_ptr a) else vs_cq srq)
    (if xrc then sr_srqn r else vs_num srq).

(** [ext]: whether the last field of the extension lies inside [vsrq_sz]. *)
Definition ibv_cmd_create_srq_ex (abi_ver context : Z) (srq : verbs_srq) (srq_ptr : Z)
  (ext : bool) (a : srq_init_attr_ex) (cmd_size resp_ptr resp_size : Z)
  (r : create_srq_resp) : list cval * verbs_srq * (Z * Z) * Z :=
  let hdr := init_cmd_resp abi_ver 39 (-1) cmd_size resp_ptr resp_size in
  let m := se_comp_mask a in
  let old := (se_max_wr a, se_max_sge a) in
  if IBV_SRQ_INIT_ATTR_RESERVED <=? m then (hdr, srq, old, ENOSYS) else
  if negb (has m IBV_SRQ_INIT_ATTR_PD) then (hdr, srq, old, EINVAL) else
  let type := if has m IBV_SRQ_INIT_ATTR_TYPE then se_type a else IBV_SRQT_BASIC in
  let cmd := hdr ++ [VI srq_ptr; VI type; VI (pd_handle (se_pd a)); VI (se_max_wr a);
                     VI (se_max_sge a); VI (se_srq_limit a)] in
  if has m IBV_SRQ_INIT_ATTR_XRCD && negb (has m IBV_SRQ_INIT_ATTR_CQ)
  then (cmd, srq, old, EINVAL) else
  let cmd := if has m IBV_SRQ_INIT_ATTR_XRCD
             then cmd ++ [VI (x_handle (se_xrcd a)); VI (cq_handle (se_cq a))] else cmd in
  let base := mkVsrq (sr_handle r) context (se_srq_context a) (Some (se_pd a))
                (vs_comp_mask srq) (vs_type srq) (vs_xrcd srq) (vs_cq srq) (vs_num srq) in
  (cmd, if ext then srq_extension a r base else base, (sr_max_wr r, sr_max_sge r), 0).

(** ** Queue pairs *)

Definition IBV_QP_OPEN_ATTR_NUM : Z := 1.
Definition IBV_QP_OPEN_ATTR_XRCD : Z := 2.
Definition IBV_QP_OPEN_ATTR_TYPE : Z := 8.
Definition IBV_QP_OPEN_ATTR_RESERVED : Z := 16.
Definition IBV_QPS_UNKNOWN : Z := 7.
Definition VERBS_QP_XRCD : Z := 1.

Record verbs_qp : Type := mkVqp {
  vq_handle : Z; vq_context : Z; vq_qp_context : Z; vq_num : Z; vq_type : Z; vq_state : Z;
  vq_queues : bool;      (* pd, send_cq, recv_cq and srq are set *)
  vq_comp_mask : Z; vq_xrcd : option Z }.

Record qp_open_attr : Type := mkOpenAttr {
  oa_comp_mask : Z; oa_qp_num : Z; oa_xrcd : verbs_xrcd; oa_xrcd_ptr : Z;
  oa_qp_context : Z; oa_qp_type : Z }.

Definition ibv_cmd_open_qp (abi_ver context : Z) (qp : verbs_qp) (qp_ptr : Z) (ext : bool)
  (attr : qp_open_attr) (cmd_size resp_ptr resp_size resp : Z)
  : list cval * verbs_qp * Z :=
  let hdr := init_cmd_resp abi_ver 40 (-1) cmd_size resp_ptr resp_size in
  let m := oa_comp_mask attr in
  if IBV_QP_OPEN_ATTR_RESERVED <=? m then (hdr, qp, ENOSYS) else
  if negb (has m IBV_QP_OPEN_ATTR_XRCD) || negb (has m IBV_QP_OPEN_ATTR_NUM)
     || negb (has m IBV_QP_OPEN_ATTR_TYPE)
  then (hdr, qp, EINVAL) else
  (hdr ++ [VI qp_ptr; VI (x_handle (oa_xrcd attr)); VI (oa_qp_num attr);
           VI (u8 (oa_qp_type attr))],
   mkVqp resp context (oa_qp_context attr) (oa_qp_num attr) (oa_qp_type attr)
     IBV_QPS_UNKNOWN false (if ext then VERBS_QP_XRCD else 0)
     (if ext then Some (oa_xrcd_ptr attr) else vq_xrcd qp), 0).

Definition ibv_cmd_attach_mcast (abi_ver : Z) (qp : ibv_qp) (gid : list Z) (lid : Z)
  : list cval * Z :=
  (init_cmd abi_ver 30 32 32 ++ [VB gid; VI (q_handle qp); VI (u16 lid); VI 0], 0).

Definition ibv_cmd_detach_mcast (abi_ver : Z) (qp : ibv_qp) (gid : list Z) (lid : Z)
  : list cval * Z :=
  (init_cmd abi_ver 31 33 32 ++ [VB gid; VI (q_handle qp); VI (u16 lid); VI 0], 0).

(** ** Argument checks *)

(** The numbers below a bound, for a case analysis. *)
Lemma below_cases (n : nat) m : 0 <= m < Z.of_nat n -> m ∈ seqZ 0 (Z.of_nat n).
Proof. intros. apply elem_of_seqZ. lia. Qed.

Ltac by_cases :=
  unfold ENOSYS, EINVAL in *;
  repeat match goal with
    |- context [has ?m ?b] => let v := eval vm_compute in (has m b) in change (has m b) with v
  end; cbn -[offsetof]; try destruct (_ <? _);
  repeat match goal with |- _ /\ _ => split | |- _ <-> _ => split end;
  intros; try done; first [lia|congruence].

Ltac mask_cases m bound n :=
  destruct (Z.leb_spec bound m);
  [|assert (m ∈ seqZ 0 (Z.of_nat n)) as Hm by (apply below_cases; lia);
    vm_compute in Hm;
    repeat (apply elem_of_cons in Hm as [->|Hm]); [..|by apply elem_of_nil in Hm]].

(** The extended verbs accept exactly the attribute masks that make sense: an
    XRC domain needs descriptor and flags and nothing else, a queue pair to open
    needs domain, number and type (with or without context), a shared receive queue
    needs a protection domain and, with an XRC domain, a completion queue; anything
    else is refused, unknown bits with ENOSYS and missing ones with EINVAL, and the
    object is left as it was. *)
Theorem extended_verbs_check_masks abi_ver context ext cs rp rs :
  (forall xrcd size a resp, 0 <= xa_comp_mask a ->
     let '(_, x', ret) := ibv_cmd_open_xrcd abi_ver context xrcd size a cs rp rs resp in
     (ret = 0 <-> xa_comp_mask a = 3) /\ (ret = ENOSYS <-> 4 <= xa_comp_mask a) /\
     (ret <> 0 -> x' = xrcd)) /\
  (forall qp ptr a resp, 0 <= oa_comp_mask a ->
     let '(_, q', ret) := ibv_cmd_open_qp abi_ver context qp ptr ext a cs rp rs resp in
     (ret = 0 <-> oa_comp_mask a = 11 \/ oa_comp_mask a = 15) /\
     (ret = ENOSYS <-> 16 <= oa_comp_mask a) /\ (ret <> 0 -> q' = qp)) /\
  (forall srq ptr a resp, 0 <= se_comp_mask a ->
     let '(_, s', _, ret) :=
       ibv_cmd_create_srq_ex abi_ver context srq ptr ext a cs rp rs resp in
     (ret = 0 <-> se_comp_mask a = 2 \/ se_comp_mask a = 3 \/ se_comp_mask a = 10 \/
        se_comp_mask a = 11 \/ se_comp_mask a = 14 \/ se_comp_mask a = 15) /\
     (ret = ENOSYS <-> 16 <= se_comp_mask a) /\ (ret <> 0 -> s' = srq)).
Proof.
  split_and!.
  - intros xrcd size [m fd fl] resp Hm0. unfold ibv_cmd_open_xrcd, xa_comp_mask in *.
    change IBV_XRCD_INIT_ATTR_RESERVED with 4.
    mask_cases m 4 4%nat; by_cases.
  - intros qp ptr [m num x xp c t] resp Hm0. unfold ibv_cmd_open_qp, oa_comp_mask in *.
    change IBV_QP_OPEN_ATTR_RESERVED with 16.
    mask_cases m 16 16%nat; by_cases.
  - intros srq ptr a resp Hm0. unfold ibv_cmd_create_srq_ex.
    destruct a as [c w g l m t pd x xp cq cp]. cbn [se_comp_mask] in *.
    change IBV_SRQ_INIT_ATTR_RESERVED with 16.
    mask_cases m 16 16%nat; by_cases.
Qed.
