(* ===== verification/CmdQuery.v ===== *)
(** * Queries of cmd.c

    [ibv_cmd_query_qp], which wraps its kernel command into a request and copies
    the answer field by field into the application's structs, and
    [ibv_cmd_query_device_ex] with [copy_query_dev_fields]. *)

From S2P Require Import Prelude CLayout FfTypes Wire ReqRouter MemPool Client CmdCtrl CmdLocal.

(** ** Queue pairs *)

(** [struct ibv_qp_dest] copied into a [struct ibv_ah_attr]. *)
Definition ah_attr_of (d : cval) : cval :=
  VS [VS [VB (fb d 0); VI (fu d 1); VI (fu d 4); VI (fu d 5); VI (fu d 6)];
      VI (fu d 2); VI (fu d 7); VI (fu d 8); VI (fu d 9); VI (fu d 10); VI (fu d 11)].

(** The caps of a [struct ibv_query_qp_resp]. *)
Definition caps_of_resp (r : cval) : qp_cap :=
  mkCap (fu r 2) (fu r 3) (fu r 4) (fu r 5) (fu r 6).

(** The [struct ibv_qp_attr] the call leaves, from the one it was given and the
    response; [en_sqd_async_notify] is not touched. *)
Definition query_qp_attr (old r : cval) : cval :=
  VS [VI (fu r 14); VI (fu r 15); VI (fu r 16); VI (fu r 17); VI (fu r 7); VI (fu r 8);
      VI (fu r 9); VI (fu r 10); VI (fu r 11); cap_val (caps_of_resp r);
      ah_attr_of (fs r 0); ah_attr_of (fs r 1); VI (fu r 12); VI (fu r 13); VI (fu old 14);
      VI (fu r 18); VI (fu r 19); VI (fu r 20); VI (fu r 21); VI (fu r 22); VI (fu r 23);
      VI (fu r 24); VI (fu r 25); VI (fu r 26); VI (fu r 27)].

(** The [struct ibv_qp_init_attr] fields the call sets from the response. *)
Record query_init : Type := mkQueryInit {
  qi_recv_cq : option Z; qi_srq : option Z; qi_cap : qp_cap; qi_sq_sig_all : Z }.

Definition t_ibv_query_qp : cty := Struct [I32; I16; I16; I64; I32; I32; Arr 0 I64].

Section Query.
Context {M : Type}.
Implicit Types p : proc M.

(** [driver]: the bytes of the caller's command behind the common part.  The
    command is copied into a buffer of 100 bytes. *)
Definition ibv_cmd_query_qp p (abi_ver : Z) (qp : ibv_qp) (attr : cval) (attr_mask : Z)
  (driver : list Z) (resp_ptr : Z) : res (proc M * ibv_qp * cval * query_init * Z) :=
  let cmd_size := sizeof t_ibv_query_qp + Z.of_nat (length driver) in
  let cmd := encode (junk p) t_ibv_query_qp
    (VS (init_cmd_resp abi_ver 25 27 cmd_size resp_ptr (sizeof t_ibv_query_qp_resp)
           ++ [VI (q_handle qp); VI (u32 attr_mask); VB []])) ++ driver in
  if 100 <? cmd_size then Ub else
  '(p1, rsp) ← ask p IBV_QUERY_QP
      (body_of p t_IBV_QUERY_QP_REQ
         [VI cmd_size; VB (cmd ++ replicate (Z.to_nat (100 - cmd_size)) 0)])
      t_IBV_QUERY_QP_RSP;
  let r := fs rsp 1 in
  let a := query_qp_attr attr r in
  Ok (p1, mkQpObj (q_handle qp) (q_num qp) (q_context qp) (q_recv_cq qp) (q_srq qp) (fu a 1),
      a, mkQueryInit (q_recv_cq qp) (q_srq qp) (caps_of_resp r) (fu r 28), 0).
End Query.

(** ** Devices *)

Definition t_ibv_query_device_resp : cty :=
  Struct (repeat I64 5 ++ repeat I32 32 ++ [I16; I8; I8; Arr 4 I8]).
Definition t_ibv_odp_caps : cty := Struct [I64; Struct [I32; I32; I32]].
Definition t_ibv_odp_caps_resp : cty := Struct [I64; Struct [I32; I32; I32]; I32].
Definition t_ibv_device_attr_ex : cty := Struct [t_ibv_device_attr; I32; t_ibv_odp_caps].
Definition t_ibv_query_device_resp_ex : cty :=
  Struct [t_ibv_query_device_resp; I32; I32; t_ibv_odp_caps_resp].

(** Bytes stored at an offset of an object. *)
Definition store (o : Z) (new bs : list Z) : list Z :=
  take (Z.to_nat o) bs ++ new ++ drop (Z.to_nat o + length new) bs.

(** Field [i] of the struct [t] whose image starts at [base]. *)
Definition store_field (t : cty) (base : Z) (i : nat) (v : cval) (bs : list Z) : list Z :=
  match t with
  | Struct fs => store (base + offsetof t i) (encode 0 (nth i fs I8) v) bs
  | _ => bs
  end.

(** [copy_query_dev_fields] on the image of the attributes: every field behind
    [fw_ver] has the same position in both structs. *)
Definition copy_query_dev_fields (attr : list Z) (resp : cval) : list Z * Z :=
  (fold_left (fun bs i => store_field t_ibv_device_attr 0 i (VI (fu resp i)) bs)
     (seq 1 39) attr,
   fu resp 0).

(** [attr]: the image of the caller's [attr_size] bytes.  [wrote]: the result of
    [write]; [resp]: the response the device stored. *)
Definition ibv_cmd_query_device_ex (input : option Z) (attr : list Z) (raw_fw_ver : Z)
  (cmd_size resp_core_size : Z) (wrote errno : Z) (resp : cval) : list Z * Z * Z :=
  let attr_size := Z.of_nat (length attr) in
  let t := t_ibv_device_attr_ex in
  let rt := t_ibv_query_device_resp_ex in
  if match input with Some m => negb (m =? 0) | None => false end
  then (attr, raw_fw_ver, EINVAL) else
  if attr_size <? offsetof t 1 + sizeof I32 then (attr, raw_fw_ver, EINVAL) else
  if resp_core_size <? offsetof rt 2 + sizeof I32 then (attr, raw_fw_ver, EINVAL) else
  let attr := store 0 (replicate 64 0) attr in
  let attr := store (offsetof t 1)
    (replicate (Z.to_nat (attr_size - sizeof t_ibv_device_attr)) 0) attr in
  if negb (wrote =? cmd_size) then (attr, raw_fw_ver, errno) else
  let '(attr, fw) := copy_query_dev_fields attr (fs resp 0) in
  let attr := store_field t 0 1 (VI (Z.land (fu resp 1) 0)) attr in
  let attr :=
    if offsetof t 2 + sizeof t_ibv_odp_caps <=? attr_size then
      if offsetof rt 3 + sizeof t_ibv_odp_caps_resp <=? fu resp 2 then
        let odp := fs resp 3 in
        let tr := fs odp 1 in
        store_field t_ibv_odp_caps (offsetof t 2) 1
          (VS [VI (fu tr 0); VI (fu tr 1); VI (fu tr 2)])
          (store_field t_ibv_odp_caps (offsetof t 2) 0 (VI (fu odp 0)) attr)
      else store (offsetof t 2) (replicate (Z.to_nat (sizeof t_ibv_odp_caps)) 0) attr
    else attr in
  (attr, fw, 0).
