(* ===== verification/CmdSpec.v ===== *)
(** * What the control verbs do

    The verbs of {CmdCtrl} against a router that accepts their connections and
    answers: what they tell it, what they enter into the client's tables, and
    what they report. *)

From S2P Require Import Prelude CLayout FfTypes Verbs MemPool WrQueue CtrlShm Client.
From S2P Require Import Wire ReqRouter CmdCtrl CmdLocal CmdQuery.

(** ** A router that answers *)

(** The connection is made, the header and the [n] bytes of the body go through,
    and the struct [v] of type [rt] comes back. *)
Record answers (k : conn) (n : Z) (rt : cty) (v : cval) : Prop := {
  an_socket : 0 <= k_socket k;
  an_connect : 0 <= k_connect k;
  an_writes : k_writes k = [12; n];
  an_out : k_out k = [];
  an_type : has_type rt v;
  an_reads : exists chs j, k_reads k = map Some chs /\ concat chs = encode j rt v }.

(** A connection that answers with [v] at once. *)
Definition answering (n : Z) (rt : cty) (v : cval) : conn :=
  mkConn 3 0 [12; n] [Some (encode 0 rt v)] RmNoControl [].

Lemma answering_ok n rt v : typed rt v = true -> answers (answering n rt v) n rt v.
Proof.
  intros Ht. split; try done; [by apply typed_has_type|].
  exists [encode 0 rt v], 0. split; [done|]. simpl. apply app_nil_r.
Qed.

Lemma encode_body_for {M} (p : proc M) t vs :
  has_type t (VS vs) -> body_for (Some t) (body_of p t vs).
Proof.
  intros Ht. eexists. split; [reflexivity|]. by destruct (has_type_wire (junk p) _ _ Ht).
Qed.

Section Ask.
Context {M : Type}.
Implicit Types p : proc M.

(** The state after a request. *)
Definition asked p (ks : list conn) (id : Z) (req : RDMA_FUNCTION_CALL) (body : req_body)
  : proc M := set_ctl (ctl_done (p_ctl p) ks (message id req body)) p.

Lemma ask_answered p id req q rt body k ks v :
  env_ok (p_env p) id -> fixed_format req = Some (q, rt) -> plain req ->
  body_for q body -> conns (p_ctl p) = k :: ks ->
  answers k (Z.of_nat (length (body_bytes body))) rt v ->
  ask p req body rt = Ok (asked p ks id req body, v).
Proof.
  intros He Hf Hp Hb Hc [Hs Hk Hw Ho Ht (chs & j & Hr & Hch)].
  destruct (has_type_wire j _ _ Ht) as [Hl Hd].
  destruct (fixed_request_size _ _ _ Hf) as [Hq Hrs].
  pose proof (body_for_length _ _ Hb) as Hbl.
  unfold ask. erewrite (request_answered (p_env p) id (p_ctl p) req q rt body _ _ k ks
    12 (Z.of_nat (length (body_bytes body))) [] chs []).
  - cbn [mbind res_bind]. rewrite Hch, Hd. unfold asked, message. rewrite Ho, app_nil_l.
    rewrite take_ge by (unfold header_bytes; simpl; lia). by rewrite take_ge by lia.
  - split; auto; [apply He|right; lia..].
  - apply He.
  - by rewrite app_nil_r.
  - by rewrite Hch.
  - rewrite length_replicate, Hch. lia.
Qed.

(** Without a connection the caller sees its own stack. *)
Lemma ask_unconnected p id req body rt k ks :
  env_ok (p_env p) id -> plain req -> conns (p_ctl p) = k :: ks ->
  0 <= k_socket k -> k_connect k < 0 ->
  exists p', ask p req body rt
    = Ok (p', decode rt (replicate (Z.to_nat (sizeof rt)) (junk p))) /\
    p_cl p' = p_cl p /\ trace (p_ctl p') = trace (p_ctl p).
Proof.
  intros He [Hp1 Hp2] Hc Hs Hk. unfold ask, request_router.
  rewrite bool_decide_false by done. unfold get_unix_sock.
  rewrite Hc, (connect_router_ok _ _ _ He Hs). cbn [mbind res_bind sock].
  destruct (Z.ltb_spec (k_connect k) 0); [|lia]. simpl. eauto.
Qed.
End Ask.

Lemma cstring_c_array n j s :
  Forall (fun b => b <> 0) s -> cstring (c_array n j s) = Some s.
Proof.
  unfold c_array. generalize (replicate (Z.to_nat (n - Z.of_nat (length s) - 1)) j).
  intros r Hs. induction Hs as [|b s Hb _ IH]; simpl; [done|].
  destruct (Z.eqb_spec b 0); [done|]. by rewrite IH.
Qed.

Lemma ask_struct {M} (p : proc M) id req t rt vs k ks v :
  env_ok (p_env p) id -> fixed_format req = Some (Some t, rt) -> plain req ->
  has_type t (VS vs) -> conns (p_ctl p) = k :: ks -> answers k (sizeof t) rt v ->
  ask p req (body_of p t vs) rt = Ok (asked p ks id req (body_of p t vs), v).
Proof.
  intros He Hf Hp Ht Hc Ha. eapply ask_answered; eauto using encode_body_for.
  simpl. by destruct (has_type_wire (junk p) _ _ Ht) as [-> _].
Qed.

Lemma c_array_length n j s :
  Z.of_nat (length s) + 1 <= n -> Z.of_nat (length (c_array n j s)) = n.
Proof.
  intros Hs. unfold c_array. rewrite length_app. simpl. rewrite length_replicate. lia.
Qed.

(** ** Memory regions *)

Section Mr.
Context {M : Type} `{LkeyMapLaws M}.
Context (p : proc M) (id : Z) (pd : ibv_pd) (addr length access : Z) (k1 k2 : conn)
  (ks : list conn) (h lkey rkey : Z) (name : list Z) (j shm : Z) (content : Z -> Z)
  (ret : Z) (lk' : M).

Definition mr_rsp : cval := VS [VI h; VI lkey; VI rkey; VB (c_array 100 j name)].
Definition mapping_req : req_body :=
  body_of p t_IBV_REG_MR_MAPPING_REQ [VI lkey; VI addr; VI shm].

(** The router answers both requests; the segment it names is mapped, at [addr]
    itself when that is page aligned; the key map takes the entry. *)
Record reg_setup : Prop := {
  gs_env : env_ok (p_env p) id;
  gs_pd : 0 <= pd_handle pd < 2 ^ 32;
  gs_addr : 0 <= addr < 2 ^ 64;
  gs_shm : 0 <= shm < 2 ^ 64;
  gs_len : 0 <= length;
  gs_name : Forall (fun b => b <> 0) name;
  gs_conns : conns (p_ctl p) = k1 :: k2 :: ks;
  gs_reg : answers k1 (sizeof t_IBV_REG_MR_REQ) t_IBV_REG_MR_RSP mr_rsp;
  gs_map : answers k2 (sizeof t_IBV_REG_MR_MAPPING_REQ) t_IBV_REG_MR_MAPPING_RSP (VS [VI ret]);
  gs_mmap : os_mmap (p_os p) name length (if addr mod (4 * 1024) =? 0 then Some addr else None)
            = Some (shm, content);
  gs_ins : lk_insert (map_lkey_to_mrshm (p_cl p)) lkey (mkMrShm addr shm) = Ok lk' }.

Lemma reg_req_typed : 0 <= pd_handle pd < 2 ^ 32 ->
  has_type t_IBV_REG_MR_REQ
    (VS [VI (pd_handle pd); VI (u32 length); VI (u32 access); VB (c_array 100 (junk p) [])]).
Proof.
  intros Hpd. apply ht_struct.
  constructor; [apply ht_int; [tauto|done]|].
  constructor; [apply ht_int; [tauto|apply u32_range]|].
  constructor; [apply ht_int; [tauto|apply u32_range]|].
  constructor; [|constructor]. apply ht_bytes; [by left; do 2 eexists|].
  by rewrite c_array_length.
Qed.

Lemma lkey_range : reg_setup -> 0 <= lkey < 2 ^ 32.
Proof.
  intros [? ? ? ? ? ? ? Hr ? ? ?]. pose proof (an_type _ _ _ _ Hr) as Ht.
  inversion Ht as [| |? ? Hf]; subst. inversion Hf as [|? ? ? ? _ Hf2]; subst.
  inversion Hf2 as [|? ? ? ? Hl _]; subst. by inversion Hl.
Qed.

Lemma mapping_req_typed : reg_setup ->
  has_type t_IBV_REG_MR_MAPPING_REQ (VS [VI lkey; VI addr; VI shm]).
Proof.
  intros Hs. pose proof (lkey_range Hs). destruct Hs. apply ht_struct.
  repeat (constructor; [apply ht_int; [tauto|done]|]). constructor.
Qed.

(** The state the call leaves. *)
Definition registered_mem : mem :=
  let m0 := memory (p_cl p) in
  restore m0 (map_pages m0 shm length content) shm addr length.

Lemma reg_mr_runs : reg_setup ->
  exists p',
    ibv_cmd_reg_mr p pd addr length access
    = Ok (p', mkMr h lkey rkey name shm addr length (pd_context pd), 0) /\
    p_cl p' = set_lkeys lk' (set_memory registered_mem (p_cl p)) /\
    trace (p_ctl p') = trace (p_ctl p)
      ++ [message id IBV_REG_MR (reg_mr_req p pd length access []);
          message id IBV_REG_MR_MAPPING mapping_req].
Proof.
  intros Hs. pose proof (mapping_req_typed Hs) as Hmt. destruct Hs.
  unfold ibv_cmd_reg_mr, reg_mr_req.
  erewrite (ask_struct p id IBV_REG_MR) by (eauto using reg_req_typed; done).
  cbn [mbind res_bind].
  change (fu mr_rsp 0) with h. change (fu mr_rsp 1) with lkey. change (fu mr_rsp 2) with rkey.
  change (fb mr_rsp 3) with (c_array 100 j name).
  rewrite cstring_c_array by done. cbn [of_option mbind res_bind].
  unfold asked at 1. cbn [set_ctl p_os p_cl]. rewrite gs_mmap0.
  unfold reg_mapping.
  match goal with |- context [ask ?q IBV_REG_MR_MAPPING _ _] => set (p1 := q) end.
  erewrite (ask_struct p1 id IBV_REG_MR_MAPPING) by (eauto; done).
  cbn [mbind res_bind]. unfold insert_lkey.
  replace (map_lkey_to_mrshm (p_cl (asked p1 ks id IBV_REG_MR_MAPPING
    (body_of p1 t_IBV_REG_MR_MAPPING_REQ [VI lkey; VI addr; VI shm]))))
    with (map_lkey_to_mrshm (p_cl p)) by done.
  rewrite gs_ins0. cbn [mbind res_bind].
  eexists. split; [reflexivity|]. split; [done|].
  simpl. by rewrite <- app_assoc.
Qed.
End Mr.

Lemma restore_in m0 m dst src n i :
  0 <= i < n -> restore m0 m dst src n (dst + i) = m0 (src + i).
Proof.
  intros Hi. unfold restore.
  destruct (Z.leb_spec dst (dst + i)), (Z.ltb_spec (dst + i) (dst + n)); try lia.
  simpl. f_equal. lia.
Qed.

Lemma restore_out m0 m dst src n a :
  a < dst \/ dst + n <= a -> restore m0 m dst src n a = m a.
Proof.
  intros Ha. unfold restore.
  destruct (Z.leb_spec dst a), (Z.ltb_spec a (dst + n)); simpl; try lia; done.
Qed.

Lemma map_pages_out m a n content x :
  x < a \/ a + align_up n PAGE <= x -> map_pages m a n content x = m x.
Proof.
  intros Hx. unfold map_pages.
  destruct (Z.leb_spec a x), (Z.ltb_spec x (a + align_up n PAGE)); simpl; try lia; done.
Qed.

Lemma map_pages_tail m a n content x :
  0 <= n -> a + n <= x < a + align_up n PAGE -> map_pages m a n content x = 0.
Proof.
  intros Hn Hx. unfold map_pages.
  destruct (Z.leb_spec a x), (Z.ltb_spec x (a + align_up n PAGE)); simpl; try lia.
  destruct (Z.ltb_spec x (a + n)); lia.
Qed.

(** Registering a memory region: the router is sent the registration and the
    mapping of the new key; the key map gains exactly the entry from which posts
    compute offsets; the region's bytes are in the shared segment; no byte outside
    of the segment's pages changes. *)
Theorem reg_mr_registers_region {M} `{LkeyMapLaws M} (p : proc M) id pd addr length access
  k1 k2 ks h lkey rkey name j shm content ret lk' :
  reg_setup p id pd addr length k1 k2 ks h lkey rkey name j shm content ret lk' ->
  lk_wf (map_lkey_to_mrshm (p_cl p)) ->
  exists p',
    ibv_cmd_reg_mr p pd addr length access
    = Ok (p', mkMr h lkey rkey name shm addr length (pd_context pd), 0) /\
    lk_get (map_lkey_to_mrshm (p_cl p')) lkey = Some (mkMrShm addr shm) /\
    (forall k, k <> lkey ->
       lk_get (map_lkey_to_mrshm (p_cl p')) k = lk_get (map_lkey_to_mrshm (p_cl p)) k) /\
    (forall i, 0 <= i < length -> memory (p_cl p') (shm + i) = memory (p_cl p) (addr + i)) /\
    (forall a, a < shm \/ shm + align_up length PAGE <= a ->
       memory (p_cl p') a = memory (p_cl p) a) /\
    trace (p_ctl p') = trace (p_ctl p)
      ++ [message id IBV_REG_MR (reg_mr_req p pd length access []);
          message id IBV_REG_MR_MAPPING (mapping_req p addr lkey shm)].
Proof.
  intros Hs Hwf. destruct (reg_mr_runs p id pd addr length access _ _ _ _ _ _ _ _ _ _ _ _ Hs)
    as (p' & E & Ecl & Et).
  exists p'. rewrite Ecl. simpl. pose proof (gs_ins _ _ _ _ _ _ _ _ _ _ _ _ _ _ _ _ _ Hs) as Hi.
  pose proof (gs_len _ _ _ _ _ _ _ _ _ _ _ _ _ _ _ _ _ Hs).
  split_and!; auto.
  - by eapply lk_get_insert.
  - intros k Hk. by eapply lk_get_insert_ne.
  - intros i Hi'. by apply restore_in.
  - intros a Ha. unfold registered_mem.
    pose proof (align_up_ge length PAGE ltac:(unfold PAGE; lia)).
    rewrite restore_out by lia. by apply map_pages_out.
Qed.

(** A page-aligned region is mapped over itself, by whole pages: what the
    application keeps behind the region in its last page is wiped. *)
Theorem reg_mr_wipes_rest_of_page {M} `{LkeyMap M} (p : proc M) id pd addr length access
  k1 k2 ks h lkey rkey name j content ret lk' a :
  reg_setup p id pd addr length k1 k2 ks h lkey rkey name j addr content ret lk' ->
  addr mod PAGE = 0 -> addr + length <= a < addr + align_up length PAGE ->
  exists p' mr, ibv_cmd_reg_mr p pd addr length access = Ok (p', mr, 0) /\
    memory (p_cl p') a = 0.
Proof.
  intros Hs Hal Ha. destruct (reg_mr_runs p id pd addr length access _ _ _ _ _ _ _ _ _ _ _ _ Hs)
    as (p' & E & Ecl & _).
  do 2 eexists. split; [exact E|]. rewrite Ecl. simpl. unfold registered_mem.
  pose proof (gs_len _ _ _ _ _ _ _ _ _ _ _ _ _ _ _ _ _ Hs).
  rewrite restore_out by lia. by apply map_pages_tail.
Qed.

(** Deregistering a region removes its key, and only its key, from the map,
    and unlinks its segment, whatever the router answers. *)
Theorem dereg_mr_forgets_key {M} `{LkeyMapLaws M} (p : proc M) id mr k ks ret :
  env_ok (p_env p) id -> conns (p_ctl p) = k :: ks -> 0 <= mr_handle mr < 2 ^ 32 ->
  answers k (sizeof t_IBV_DEREG_MR_REQ) t_IBV_DEREG_MR_RSP (VS [VI ret]) ->
  lk_wf (map_lkey_to_mrshm (p_cl p)) ->
  exists p', ibv_cmd_dereg_mr p mr = Ok (p', s32 ret) /\
    lk_get (map_lkey_to_mrshm (p_cl p')) (mr_lkey mr) = None /\
    (forall k', k' <> mr_lkey mr ->
       lk_get (map_lkey_to_mrshm (p_cl p')) k' = lk_get (map_lkey_to_mrshm (p_cl p)) k') /\
    unlinked p' = unlinked p ++ [mr_shm_name mr].
Proof.
  intros He Hc Hh Ha Hwf. unfold ibv_cmd_dereg_mr.
  erewrite (ask_struct p id IBV_DEREG_MR); eauto; try done.
  2: { apply ht_struct. constructor; [apply ht_int; [tauto|done]|constructor]. }
  cbn [mbind res_bind]. eexists. split; [reflexivity|]. simpl.
  split_and!; [by apply lk_get_del| |done].
  intros k' Hk. by apply lk_get_del_ne.
Qed.

(** ** Queues *)

Lemma index_in i : 0 <= i < MAP_SIZE -> index i = Ok i.
Proof.
  intros Hi. unfold index. destruct (Z.leb_spec 0 i), (Z.ltb_spec i MAP_SIZE); try lia. done.
Qed.
Lemma index_out i : MAP_SIZE <= i -> index i = Ub.
Proof.
  intros Hi. unfold index. destruct (Z.ltb_spec i MAP_SIZE); [lia|]. by rewrite andb_false_r.
Qed.

Definition cq_rsp (cqe handle j : Z) (name : list Z) : cval :=
  VS [VI cqe; VI handle; VB (c_array 100 j name)].

Lemma create_cq_asks {M} (p : proc M) id context cqe channel vec k ks cqe' handle j name :
  env_ok (p_env p) id -> conns (p_ctl p) = k :: ks ->
  match channel with Some fd => 0 <= fd < MAP_SIZE | None => True end ->
  answers k (sizeof t_IBV_CREATE_CQ_REQ) t_IBV_CREATE_CQ_RSP (cq_rsp cqe' handle j name) ->
  Forall (fun b => b <> 0) name ->
  exists p1, p_cl p1 = p_cl p /\ p_os p1 = p_os p /\
    ibv_cmd_create_cq p context cqe channel vec
    = (i ← index handle;
       let c := p_cl p1 in
       Ok (set_cl (set_cq_tables (put_piece (cq_shm_map c) i (os_cq_shm (p_os p1) name))
                     (<[i := wr_queue_init]> (map_cq_to_wr_queue c)) c) p1,
           mkCq handle (s32 cqe') context, 0)).
Proof.
  intros He Hc Hch Ha Hn. unfold ibv_cmd_create_cq, channel_fd.
  assert (exists fd, match channel with
    | None => Ok (-1)
    | Some fd => i ← index fd; Ok (default (-1) (comp_channel_map (p_ctl p) !! i))
    end = Ok fd) as (fd & ->).
  { destruct channel as [fd|]; [|eauto]. rewrite index_in by done. simpl. eauto. }
  cbn [mbind res_bind].
  erewrite (ask_struct p id IBV_CREATE_CQ); eauto; try done.
  2: { apply ht_struct. repeat (constructor; [apply ht_int; [tauto|apply u32_range]|]).
       constructor. }
  cbn [mbind res_bind]. change (fb (cq_rsp cqe' handle j name) 2) with (c_array 100 j name).
  rewrite cstring_c_array by done. cbn [of_option mbind res_bind].
  eexists. split; [|split]; [| |reflexivity]; done.
Qed.

(** A created completion queue is ready: its piece is the segment the router
    named, its ring is empty, and no other queue's entries change.  A handle that
    does not fit the tables makes the call store outside of them. *)
Theorem create_cq_ready {M} (p : proc M) id context cqe channel vec k ks cqe' handle j name :
  env_ok (p_env p) id -> conns (p_ctl p) = k :: ks ->
  match channel with Some fd => 0 <= fd < MAP_SIZE | None => True end ->
  answers k (sizeof t_IBV_CREATE_CQ_REQ) t_IBV_CREATE_CQ_RSP (cq_rsp cqe' handle j name) ->
  Forall (fun b => b <> 0) name -> 0 <= handle ->
  (handle < MAP_SIZE ->
   exists p', ibv_cmd_create_cq p context cqe channel vec
              = Ok (p', mkCq handle (s32 cqe') context, 0) /\
     cq_shm_map (p_cl p') !! handle = os_cq_shm (p_os p) name /\
     (exists q, map_cq_to_wr_queue (p_cl p') !! handle = Some q /\ models q []) /\
     (forall i, i <> handle ->
        cq_shm_map (p_cl p') !! i = cq_shm_map (p_cl p) !! i /\
        map_cq_to_wr_queue (p_cl p') !! i = map_cq_to_wr_queue (p_cl p) !! i)) /\
  (MAP_SIZE <= handle -> ibv_cmd_create_cq p context cqe channel vec = Ub).
Proof.
  intros He Hc Hch Ha Hn Hh.
  destruct (create_cq_asks p id context cqe channel vec k ks cqe' handle j name)
    as (p1 & Ecl & Eos & ->); auto. rewrite Ecl, Eos. split.
  - intros Hlt. rewrite index_in by lia. cbn [mbind res_bind]. eexists. split; [reflexivity|].
    simpl. unfold put_piece. split_and!.
    + destruct (os_cq_shm (p_os p) name); [apply lookup_insert_eq|apply lookup_delete_eq].
    + exists wr_queue_init. split; [apply lookup_insert_eq|apply init_models].
    + intros i Hi. rewrite lookup_insert_ne by done. split; [|done].
      destruct (os_cq_shm (p_os p) name);
        [by rewrite lookup_insert_ne|by rewrite lookup_delete_ne].
  - intros Hge. by rewrite index_out.
Qed.

(** Creating a queue pair without a shared receive queue on a completion queue
    that a queue pair with one also uses makes the client forget the shared
    receive queue of that completion queue: the map has one entry per completion
    queue and the last creation wins. *)
Theorem create_qp_overwrites_srq_of_cq {M} (p : proc M) id abi_ver pd qp attr k ks rsp
  cap qpn handle j name r s :
  env_ok (p_env p) id -> conns (p_ctl p) = k :: ks ->
  rsp = VS [VI qpn; VI handle; cap; VB (c_array 100 j name)] ->
  answers k (sizeof t_IBV_CREATE_QP_REQ) t_IBV_CREATE_QP_RSP rsp ->
  typed t_IBV_CREATE_QP_REQ
    (VS [VI (pd_handle pd); VI (i_qp_type attr); VI (u32 (i_sq_sig_all attr));
         VI (i_send_cq attr); VI (i_recv_cq attr); VI (default 0 (i_srq attr));
         cap_val (i_cap attr)]) = true ->
  Forall (fun b => b <> 0) name -> 0 <= handle < MAP_SIZE ->
  q_recv_cq qp = Some r -> q_srq qp = None -> 0 <= r < MAP_SIZE ->
  map_cq_to_srq (p_cl p) !! r = Some s -> s <= MAP_SIZE ->
  exists p' qp' cap', ibv_cmd_create_qp p abi_ver pd qp attr = Ok (p', qp', cap', 0) /\
    map_cq_to_srq (p_cl p') !! r = Some (MAP_SIZE + 1) /\
    qp_shm_map (p_cl p') !! handle = os_qp_shm (p_os p) name /\ max_inline_data cap' = 0.
Proof.
  intros He Hc -> Ha Ht Hn Hh Hr Hs Hrr Hm Hsm. unfold ibv_cmd_create_qp, create_qp_req.
  erewrite (ask_struct p id IBV_CREATE_QP); eauto using typed_has_type; try done.
  cbn [mbind res_bind]. rewrite Hr, Hs. cbn [of_option mbind res_bind].
  rewrite (index_in r) by done. cbn [mbind res_bind].
  change (fb (VS [VI qpn; VI handle; cap; VB (c_array 100 j name)]) 3) with (c_array 100 j name).
  rewrite cstring_c_array by done. cbn [of_option mbind res_bind].
  change (fu (VS [VI qpn; VI handle; cap; VB (c_array 100 j name)]) 1) with handle.
  rewrite index_in by done. cbn [mbind res_bind].
  do 3 eexists. split; [reflexivity|]. split_and!.
  - simpl. apply lookup_insert_eq.
  - simpl. unfold put_piece.
    destruct (os_qp_shm (p_os p) name); [apply lookup_insert_eq|apply lookup_delete_eq].
  - done.
Qed.

(** ** Errors *)

(** When no router is reachable, allocating a protection domain still reports
    success, with a handle made of whatever was on the stack. *)
Theorem alloc_pd_without_router_succeeds {M} (p : proc M) id context k ks :
  env_ok (p_env p) id -> conns (p_ctl p) = k :: ks -> 0 <= k_socket k -> k_connect k < 0 ->
  exists p', ibv_cmd_alloc_pd p context
    = Ok (p', mkPd (le_combine (replicate 4 (junk p))) context, 0) /\
    trace (p_ctl p') = trace (p_ctl p).
Proof.
  intros He Hc Hs Hk. unfold ibv_cmd_alloc_pd.
  destruct (ask_unconnected p id IBV_ALLOC_PD BNull t_IBV_ALLOC_PD_RSP k ks)
    as (p' & -> & _ & Et); auto; [by split|].
  by exists p'.
Qed.

(** A state change the router refuses is reported with the router's error, but
    the client's copy of the state has already been set to the requested one. *)
Theorem modify_qp_caches_state_on_error {M} (p : proc M) id qp attr mask k ks err h :
  env_ok (p_env p) id -> conns (p_ctl p) = k :: ks ->
  has_type t_IBV_MODIFY_QP_REQ (VS [VI (q_handle qp); attr; VI (u32 mask)]) ->
  answers k (sizeof t_IBV_MODIFY_QP_REQ) t_IBV_MODIFY_QP_RSP (VS [VI err; VI h]) ->
  Z.land mask IBV_QP_STATE <> 0 -> 0 < err < 2 ^ 31 ->
  exists p' qp', ibv_cmd_modify_qp p qp attr mask = Ok (p', qp', err) /\
    q_state qp' = fu attr 0.
Proof.
  intros He Hc Ht Ha Hm Herr. unfold ibv_cmd_modify_qp.
  erewrite (ask_struct p id IBV_MODIFY_QP); eauto; try done.
  cbn [mbind res_bind]. destruct (Z.eqb_spec (Z.land mask IBV_QP_STATE) 0); [done|].
  unfold fi. change (fu (VS [VI err; VI h]) 0) with err. rewrite s32_small by lia.
  do 2 eexists. split; [reflexivity|done].
Qed.

(** Querying a queue pair copies the router's answer into the application's
    structs and never looks at its error code: a failed query also returns 0. *)
Theorem query_qp_ignores_errors {M} (p : proc M) id abi_ver qp attr mask driver ptr k ks err r :
  env_ok (p_env p) id -> conns (p_ctl p) = k :: ks ->
  0 <= q_handle qp < 2 ^ 32 -> 0 <= ptr < 2 ^ 64 ->
  sizeof t_ibv_query_qp + Z.of_nat (length driver) <= 100 ->
  answers k (sizeof t_IBV_QUERY_QP_REQ) t_IBV_QUERY_QP_RSP (VS [VI err; r]) ->
  exists p' qp' init,
    ibv_cmd_query_qp p abi_ver qp attr mask driver ptr
    = Ok (p', qp', query_qp_attr attr r, init, 0) /\
    q_state qp' = fu r 15 /\ qi_cap init = caps_of_resp r.
Proof.
  intros He Hc Hh Hp Hl Ha. unfold ibv_cmd_query_qp.
  destruct (Z.ltb_spec 100 (sizeof t_ibv_query_qp + Z.of_nat (length driver))); [lia|].
  erewrite (ask_struct p id IBV_QUERY_QP); eauto; try done.
  - cbn [mbind res_bind]. do 3 eexists. split; [reflexivity|done].
  - pose proof (sizeof_nonneg t_ibv_query_qp).
    apply ht_struct. constructor; [apply ht_int; [tauto|]|constructor; [|constructor]].
    + change (2 ^ (8 * sizeof I32)) with (2 ^ 32). lia.
    + apply ht_bytes; [by left; do 2 eexists|].
      rewrite !length_app, length_replicate, !Nat2Z.inj_add.
      assert (has_type t_ibv_query_qp (VS (init_cmd_resp abi_ver 25 27
        (sizeof t_ibv_query_qp + Z.of_nat (length driver)) ptr (sizeof t_ibv_query_qp_resp)
        ++ [VI (q_handle qp); VI (u32 mask); VB []]))) as Ht.
      { apply ht_struct. unfold init_cmd_resp. simpl app.
        constructor; [apply ht_int; [tauto|apply u32_range]|].
        constructor; [apply ht_int; [tauto|apply u16_range]|].
        constructor; [apply ht_int; [tauto|apply u16_range]|].
        constructor; [apply ht_int; [tauto|done]|].
        constructor; [apply ht_int; [tauto|done]|].
        constructor; [apply ht_int; [tauto|apply u32_range]|].
        constructor; [apply ht_bytes; [by left; do 2 eexists|done]|constructor]. }
      destruct (has_type_wire (junk p) _ _ Ht) as [-> _].
      change (sizeof (Arr 100 I8)) with 100. lia.
Qed.

(** ** A concrete process *)

Module ExProc.
Definition idle_qp : qp_piece :=
  mkCsp IDLE (mkReqHeader 0 IBV_POST_SEND 0) QNone 0 (mkPostRsp 0 0).
Definition idle_cq : cq_piece :=
  mkCsp IDLE (mkReqHeader 0 IBV_POLL_CQ 0) (mkPollReq 0 0) 0 [].
Definition sys_os : os :=
  mkOs 204 (fun _ _ fixed => Some (default 327680 fixed, fun _ => 0))
    (fun _ => Some idle_qp) (fun _ => Some idle_cq).
Definition cl : client (gmap Z mr_shm) :=
  mkClient 5 ∅ (fun a => a mod 251 + 1) ∅ ∅ ∅ ∅ {[4 := 6]} ∅ ∅.
Definition proc_with (ks : list conn) : proc (gmap Z mr_shm) :=
  mkProc sys_os ex_env (mkCtl ∅ ∅ ks []) cl true [].
Definition pd1 : ibv_pd := mkPd 1 99.
Definition mr1 : ibv_mr := mkMr 2 7 9 [115; 49] 327680 65601 100 99.
Definition k_reg : conn := answering (sizeof t_IBV_REG_MR_REQ) t_IBV_REG_MR_RSP
  (mr_rsp 2 7 9 [115; 49] 0).
Definition k_map : conn := answering (sizeof t_IBV_REG_MR_MAPPING_REQ)
  t_IBV_REG_MR_MAPPING_RSP (VS [VI 0]).

Lemma reg_setup_at addr shm :
  0 <= addr < 2 ^ 64 -> 0 <= shm < 2 ^ 64 ->
  Some shm = Some (default 327680 (if addr mod (4 * 1024) =? 0 then Some addr else None)) ->
  reg_setup (proc_with [k_reg; k_map]) 5 pd1 addr 100 k_reg k_map [] 2 7 9 [115; 49] 0 shm
    (fun _ => 0) 0 (<[7 := mkMrShm addr shm]> ∅).
Proof.
  intros Ha Hs He. split; try done.
  - apply ex_env_ok.
  - by repeat constructor.
  - by apply answering_ok.
  - by apply answering_ok.
  - simpl. injection He as ->. done.
Defined.
End ExProc.
Import ExProc.

Lemma reg_mr_registers_region_witness :
  exists p', ibv_cmd_reg_mr (proc_with [k_reg; k_map]) pd1 65601 100 7 = Ok (p', mr1, 0) /\
    lk_get (map_lkey_to_mrshm (p_cl p')) 7 = Some (mkMrShm 65601 327680) /\
    memory (p_cl p') 327690 = memory cl 65611.
Proof.
  destruct (reg_mr_registers_region (proc_with [k_reg; k_map]) 5 pd1 65601 100 7 k_reg k_map []
    2 7 9 [115; 49] 0 327680 (fun _ => 0) 0 (<[7 := mkMrShm 65601 327680]> ∅))
    as (p' & E & Hl & _ & Hm & _); [by apply reg_setup_at|done|].
  exists p'. split; [done|]. split; [done|]. apply (Hm 10). lia.
Defined.

Lemma reg_mr_wipes_rest_of_page_witness :
  exists p' mr, ibv_cmd_reg_mr (proc_with [k_reg; k_map]) pd1 65536 100 7 = Ok (p', mr, 0) /\
    memory cl 65700 = 190 /\ memory (p_cl p') 65700 = 0.
Proof.
  destruct (reg_mr_wipes_rest_of_page (proc_with [k_reg; k_map]) 5 pd1 65536 100 7 k_reg k_map []
    2 7 9 [115; 49] 0 (fun _ => 0) 0 (<[7 := mkMrShm 65536 65536]> ∅) 65700)
    as (p' & mr & E & Hm); [by apply reg_setup_at|done|vm_compute; done|].
  by exists p', mr.
Defined.

Lemma dereg_mr_forgets_key_witness :
  let k := answering (sizeof t_IBV_DEREG_MR_REQ) t_IBV_DEREG_MR_RSP (VS [VI 0]) in
  exists p', ibv_cmd_dereg_mr (proc_with [k]) mr1 = Ok (p', 0) /\
    lk_get (map_lkey_to_mrshm (p_cl p')) 7 = None.
Proof.
  intros k. destruct (dereg_mr_forgets_key (proc_with [k]) 5 mr1 k [] 0)
    as (p' & E & Hl & _); try done; [apply ex_env_ok|by apply answering_ok|].
  by exists p'.
Defined.

Lemma create_cq_ready_witness :
  let k := answering (sizeof t_IBV_CREATE_CQ_REQ) t_IBV_CREATE_CQ_RSP
             (cq_rsp 64 5 0 [99; 113]) in
  exists p', ibv_cmd_create_cq (proc_with [k]) 99 64 None 0 = Ok (p', mkCq 5 64 99, 0) /\
    cq_shm_map (p_cl p') !! 5 = Some idle_cq.
Proof.
  intros k. destruct (create_cq_ready (proc_with [k]) 5 99 64 None 0 k [] 64 5 0 [99; 113])
    as [Hlt _]; try done; [apply ex_env_ok|by apply answering_ok|by repeat constructor|].
  destruct Hlt as (p' & E & Hp & _); [vm_compute; done|]. by exists p'.
Defined.

Lemma create_qp_overwrites_srq_of_cq_witness :
  let rsp := VS [VI 55; VI 3; VS [VI 1; VI 1; VI 1; VI 1; VI 64]; VB (c_array 100 0 [113])] in
  let k := answering (sizeof t_IBV_CREATE_QP_REQ) t_IBV_CREATE_QP_RSP rsp in
  let qp := mkQpObj 0 0 0 (Some 4) None 0 in
  let attr := mkInit 4 4 None (mkCap 1 1 1 1 64) 2 0 in
  exists p' qp' cap', ibv_cmd_create_qp (proc_with [k]) 6 pd1 qp attr = Ok (p', qp', cap', 0) /\
    map_cq_to_srq (p_cl p') !! 4 = Some 10241.
Proof.
  intros rsp k qp attr.
  destruct (create_qp_overwrites_srq_of_cq (proc_with [k]) 5 6 pd1 qp attr k [] rsp
    (VS [VI 1; VI 1; VI 1; VI 1; VI 64]) 55 3 0 [113] 4 6)
    as (p' & qp' & cap' & E & Hm & _); try done;
    [apply ex_env_ok|by apply answering_ok|by repeat constructor|].
  by exists p', qp', cap'.
Defined.

Lemma alloc_pd_without_router_succeeds_witness :
  exists p', ibv_cmd_alloc_pd (proc_with [mkConn 3 (-1) [] [] RmNoControl []]) 99
    = Ok (p', mkPd 3435973836 99, 0).
Proof.
  destruct (alloc_pd_without_router_succeeds (proc_with [mkConn 3 (-1) [] [] RmNoControl []])
    5 99 (mkConn 3 (-1) [] [] RmNoControl []) []) as (p' & E & _); try done;
    [apply ex_env_ok|]. by exists p'.
Defined.

(** An attribute struct with every field 0 but the first. *)
Definition attr_state (s : Z) : cval :=
  let ah := VS [VS [VB (replicate 16 0); VI 0; VI 0; VI 0; VI 0]; VI 0; VI 0; VI 0; VI 0;
                VI 0; VI 0] in
  VS ([VI s] ++ replicate 8 (VI 0) ++ [VS (replicate 5 (VI 0)); ah; ah]
      ++ replicate 13 (VI 0)).

Lemma modify_qp_caches_state_on_error_witness :
  let k := answering (sizeof t_IBV_MODIFY_QP_REQ) t_IBV_MODIFY_QP_RSP (VS [VI 22; VI 3]) in
  let qp := mkQpObj 3 55 99 (Some 4) None 1 in
  exists p' qp', ibv_cmd_modify_qp (proc_with [k]) qp (attr_state 3) 1 = Ok (p', qp', 22) /\
    q_state qp' = 3.
Proof.
  intros k qp. destruct (modify_qp_caches_state_on_error (proc_with [k]) 5 qp (attr_state 3) 1
    k [] 22 3) as (p' & qp' & E & Hs);
    [apply ex_env_ok|reflexivity|apply typed_has_type; vm_compute; reflexivity
    |apply answering_ok; vm_compute; reflexivity|vm_compute; congruence|lia|].
  exists p', qp'. split; [exact E|exact Hs].
Defined.

Lemma query_qp_ignores_errors_witness :
  let dest := VS ([VB (replicate 16 0)] ++ replicate 11 (VI 0)) in
  let r := VS ([dest; dest] ++ replicate 27 (VI 1) ++ [VB (replicate 5 0); VB []]) in
  let k := answering (sizeof t_IBV_QUERY_QP_REQ) t_IBV_QUERY_QP_RSP (VS [VI 22; r]) in
  let qp := mkQpObj 3 55 99 (Some 4) None 1 in
  exists p' qp' init,
    ibv_cmd_query_qp (proc_with [k]) 6 qp (attr_state 0) 1 [] 4096
    = Ok (p', qp', query_qp_attr (attr_state 0) r, init, 0).
Proof.
  intros dest r k qp.
  destruct (query_qp_ignores_errors (proc_with [k]) 5 6 qp (attr_state 0) 1 [] 4096 k [] 22 r)
    as (p' & qp' & init & E & _);
    [apply ex_env_ok|reflexivity|simpl; lia|lia|vm_compute; congruence
    |apply answering_ok; vm_compute; reflexivity|].
  exists p', qp', init. exact E.
Defined.
