(* ===== verification/CqEvents.v ===== *)
(** * Completion channels and events (verbs.c)

    The verbs an application calls for completion queues and their events.  They
    keep [cq_map], from the handles the router knows to the queue objects of the
    process, call the provider through its table of operations, and fetch events
    over the socket of the completion channel, which stays open between them. *)

From S2P Require Import Prelude CLayout FfTypes Verbs MemPool WrQueue CtrlShm Client.
From S2P Require Import Wire ReqRouter CmdCtrl CmdLocal CmdQuery CmdSpec.

(** ** State *)

(** [struct ibv_comp_channel] *)
Record ibv_comp_channel : Type := mkChan { ch_context : Z; ch_fd : Z; refcnt : Z }.

(** [struct ibv_cq] with the fields the library keeps; a channel is its address. *)
Record cq_object : Type := mkCqObj {
  o_cq : ibv_cq;
  o_channel : option Z;
  o_cq_context : Z;
  comp_events_completed : Z;
  async_events_completed : Z }.

(** [struct ibv_context_ops]: what the library calls of a provider, whose own state
    is of type [D].  An object comes with its address. *)
Record cq_ops (M D : Type) : Type := mkOps {
  op_query_device : D -> proc M -> res (D * proc M * cval * Z);
  op_create_cq : D -> proc M -> Z -> Z -> option Z -> Z
                 -> res (D * proc M * option (Z * ibv_cq));
  op_destroy_cq : D -> proc M -> Z -> ibv_cq -> res (D * proc M * Z);
  op_cq_event : option (D -> Z -> D) }.
Arguments mkOps {M D}.
Arguments op_query_device {M D}.
Arguments op_create_cq {M D}.
Arguments op_destroy_cq {M D}.
Arguments op_cq_event {M D}.

(** The library: provider, process, the objects by address, and [cq_map], whose
    entries are addresses of queues ([NULL] where there is no entry). *)
Record lib (M D : Type) : Type := mkLib {
  l_drv : D;
  l_proc : proc M;
  l_cqs : gmap Z cq_object;
  l_channels : gmap Z ibv_comp_channel;
  cq_map_init : bool;
  cq_map : gmap Z Z }.
Arguments mkLib {M D}.
Arguments l_drv {M D}.
Arguments l_proc {M D}.
Arguments l_cqs {M D}.
Arguments l_channels {M D}.
Arguments cq_map_init {M D}.
Arguments cq_map {M D}.

Section Verbs.
Context {M D : Type} `{LkeyMap M} (ops : cq_ops M D).
Implicit Types l : lib M D.

Definition set_proc (p : proc M) l : lib M D :=
  mkLib (l_drv l) p (l_cqs l) (l_channels l) (cq_map_init l) (cq_map l).
Definition set_cqs (m : gmap Z cq_object) l : lib M D :=
  mkLib (l_drv l) (l_proc l) m (l_channels l) (cq_map_init l) (cq_map l).
Definition set_channels (m : gmap Z ibv_comp_channel) l : lib M D :=
  mkLib (l_drv l) (l_proc l) (l_cqs l) m (cq_map_init l) (cq_map l).

(** The object behind a pointer. *)
Definition deref {A} (heap : gmap Z A) (p : option Z) : res A :=
  a ← of_option p; of_option (heap !! a).

(** The first call empties [cq_map]. *)
Definition ibv_query_device l : res (lib M D * cval * Z) :=
  '(d, p, attr, ret) ← op_query_device ops (l_drv l) (l_proc l);
  Ok (mkLib d p (l_cqs l) (l_channels l) true
        (if cq_map_init l then cq_map l else ∅), attr, ret).

(** ** Channels *)

(** [a]: where [malloc] put the object. *)
Definition ibv_create_comp_channel l (context : Z) (a : option Z) : res (lib M D * Z) :=
  '(p1, rsp) ← ask (l_proc l) IBV_CREATE_COMP_CHANNEL BNull t_IBV_CREATE_COMP_CHANNEL_RSP;
  a ← of_option a;
  Ok (set_channels (<[a := mkChan context (fi rsp 0) 0]> (l_channels l)) (set_proc p1 l), a).

Definition ibv_destroy_comp_channel l (channel : Z) : res (lib M D * Z) :=
  ch ← deref (l_channels l) (Some channel);
  fd ← channel_fd (l_proc l) (Some (ch_fd ch));
  '(p1, rsp) ← ask (l_proc l) IBV_DESTROY_COMP_CHANNEL
                 (body_of (l_proc l) t_IBV_DESTROY_COMP_CHANNEL_REQ [VI (u32 fd)])
                 t_IBV_DESTROY_COMP_CHANNEL_RSP;
  Ok (set_proc p1 l, fi rsp 0).

(** ** Queues *)

Definition add_ref (n : Z) (channel : option Z) (m : gmap Z ibv_comp_channel)
  : res (gmap Z ibv_comp_channel) :=
  match channel with
  | None => Ok m
  | Some a => ch ← deref m (Some a);
              Ok (<[a := mkChan (ch_context ch) (ch_fd ch) (s32 (refcnt ch + n))]> m)
  end.

(** The store into [cq_map] comes after the test for a failed provider. *)
Definition ibv_create_cq l (context cqe cq_context : Z) (channel : option Z)
  (comp_vector : Z) : res (lib M D * option Z) :=
  fd ← (match channel with
        | None => Ok None
        | Some a => ch ← deref (l_channels l) (Some a); Ok (Some (ch_fd ch))
        end);
  '(d, p, cq) ← op_create_cq ops (l_drv l) (l_proc l) context cqe fd comp_vector;
  '(cqs, chans) ←
    (match cq with
     | None => Ok (l_cqs l, l_channels l)
     | Some (a, q) =>
         chans ← add_ref 1 channel (l_channels l);
         Ok (<[a := mkCqObj (mkCq (cq_handle q) (cq_cqe q) context) channel cq_context 0 0]>
               (l_cqs l), chans)
     end);
  '(a, q) ← of_option cq;
  i ← index (cq_handle q);
  Ok (mkLib d p cqs chans (cq_map_init l) (<[i := a]> (cq_map l)), Some a).

(** A provider that succeeds frees the object.  The store into [cq_map] does not
    depend on that. *)
Definition ibv_destroy_cq l (cq : Z) : res (lib M D * Z) :=
  q ← deref (l_cqs l) (Some cq);
  let handle := cq_handle (o_cq q) in
  _ ← (match o_channel q with
       | None => Ok tt
       | Some a => _ ← deref (l_channels l) (Some a); Ok tt      (* its context's mutex *)
       end);
  '(d, p, ret) ← op_destroy_cq ops (l_drv l) (l_proc l) cq (o_cq q);
  chans ← (if ret =? 0 then add_ref (-1) (o_channel q) (l_channels l)
           else Ok (l_channels l));
  i ← index (s32 handle);
  Ok (mkLib d p (if ret =? 0 then delete cq (l_cqs l) else l_cqs l) chans (cq_map_init l)
        (delete i (cq_map l)), ret).

(** ** Events *)

Definition set_events (comp async : Z) (q : cq_object) : cq_object :=
  mkCqObj (o_cq q) (o_channel q) (o_cq_context q) comp async.

(** The queue of the event and its application context. *)
Definition ibv_get_cq_event l (channel : Z) : res (lib M D * Z * Z * Z) :=
  ch ← deref (l_channels l) (Some channel);
  fd ← channel_fd (l_proc l) (Some (ch_fd ch));
  '(p1, rsp) ← ask (l_proc l) IBV_GET_CQ_EVENT
                 (body_of (l_proc l) t_IBV_GET_CQ_EVENT_REQ [VI (u32 fd)])
                 t_IBV_GET_CQ_EVENT_RSP;
  i ← index (fu rsp 0);
  a ← of_option (cq_map l !! i);
  q ← deref (l_cqs l) (Some a);
  let q1 := set_events (fu rsp 1) (fu rsp 2) q in
  let d := match op_cq_event ops with Some f => f (l_drv l) a | None => l_drv l end in
  Ok (mkLib d p1 (<[a := q1]> (l_cqs l)) (l_channels l) (cq_map_init l) (cq_map l),
      a, o_cq_context q1, 0).

Definition ibv_ack_cq_events l (cq nevents : Z) : res (lib M D) :=
  q ← deref (l_cqs l) (Some cq);
  '(p1, rsp) ← ask (l_proc l) IBV_ACK_CQ_EVENT
                 (body_of (l_proc l) t_IBV_ACK_CQ_EVENT_REQ
                    [VI (cq_handle (o_cq q)); VI (u32 nevents)])
                 t_IBV_ACK_CQ_EVENT_RSP;
  Ok (set_cqs (<[cq := set_events (fu rsp 1) (async_events_completed q) q]> (l_cqs l))
        (set_proc p1 l)).

(** An application that waits for [n] events. *)
Fixpoint wait_events (n : nat) l (channel : Z) : res (lib M D * list (Z * Z)) :=
  match n with
  | O => Ok (l, [])
  | S n' => '(l1, a, cx, _) ← ibv_get_cq_event l channel;
            '(l2, evs) ← wait_events n' l1 channel;
            Ok (l2, (a, cx) :: evs)
  end.
End Verbs.

(** ** The kept connection *)

(** Reading takes its bytes off the front of the stream. *)
Lemma read_full_stream chs : forall acc a b,
  concat chs = a ++ b ->
  exists chs', read_full (map Some chs) acc (Z.of_nat (length a))
               = Ok (true, acc ++ a, map Some chs') /\ concat chs' = b.
Proof.
  induction chs as [|ch chs IH]; intros acc a b Hc.
  - simpl in Hc. symmetry in Hc. apply app_nil in Hc as [-> ->]. exists [].
    by rewrite app_nil_r.
  - cbn [map concat read_full] in *. destruct (Z.leb_spec (Z.of_nat (length a)) 0).
    { destruct a; [|simpl in *; lia]. exists (ch :: chs). by rewrite app_nil_r. }
    destruct (Z.ltb_spec (Z.of_nat (length a)) (Z.of_nat (length ch))) as [Hlt|Hge].
    + rewrite Nat2Z.id. exists (drop (length a) ch :: chs).
      assert (take (length a) ch = a) as Ht.
      { apply (f_equal (take (length a))) in Hc.
        by rewrite take_app_le, take_app_length in Hc by lia. }
      rewrite Ht. split; [done|]. cbn [concat].
      apply (f_equal (drop (length a))) in Hc.
      by rewrite drop_app_le, drop_app_length in Hc by lia.
    + assert (a = ch ++ drop (length ch) a) as Ea.
      { apply (f_equal (take (length ch))) in Hc.
        rewrite take_app_length, take_app_le in Hc by lia. rewrite Hc at 1.
        by rewrite take_drop. }
      destruct (IH (acc ++ ch) (drop (length ch) a) b) as (chs' & E & Hb).
      { rewrite Ea, <- app_assoc in Hc. by apply app_inv_head in Hc. }
      exists chs'. split; [|done]. rewrite Ea at 2. rewrite app_assoc, <- E.
      f_equal. rewrite length_drop. lia.
Qed.

Lemma send_request_full s h body ws :
  0 <= sock s -> 0 < body_size h < 2 ^ 31 -> Z.of_nat (length body) = body_size h ->
  k_writes (peer s) = 12 :: body_size h :: ws ->
  send_request s h body
  = Ok (mkSock (sock s) (mkConn (k_socket (peer s)) (k_connect (peer s)) ws
          (k_reads (peer s)) (k_cmsg (peer s)) (k_out (peer s) ++ header_bytes h ++ body))).
Proof.
  intros Hs Hb Hl Hw. unfold send_request, sock_write.
  destruct (Z.ltb_spec (sock s) 0); [lia|]. rewrite Hw. cbn [mbind res_bind].
  change (u64 12 <? sizeof t_FfrRequestHeader) with false. cbn [sock peer k_writes].
  destruct (Z.ltb_spec 0 (body_size h)); [|lia]. unfold take_n.
  destruct (Z.ltb_spec (body_size h) 0); [lia|].
  destruct (Z.ltb_spec (Z.of_nat (length body)) (body_size h)); [lia|].
  cbn [orb mbind res_bind]. destruct (Z.ltb_spec (sock s) 0); [lia|]. cbn [mbind res_bind].
  rewrite u32_small, Z.ltb_irrefl by lia. do 2 f_equal.
  cbn [k_socket k_connect k_reads k_cmsg k_out]. f_equal. rewrite <- Hl, Nat2Z.id.
  rewrite firstn_all, firstn_all, <- app_assoc. do 2 f_equal.
Qed.

(** An event of the router: queue handle and the two counters. *)
Record event : Type := mkEvent { e_handle : Z; e_comp : Z; e_async : Z }.

Definition event_val (ev : event) : cval := VS [VI (e_handle ev); VI (e_comp ev); VI (e_async ev)].
Definition event_bytes (ev : event) : list Z := encode 0 t_IBV_GET_CQ_EVENT_RSP (event_val ev).
Definition event_ok (ev : event) : Prop :=
  0 <= e_handle ev < 2 ^ 32 /\ 0 <= e_comp ev < 2 ^ 32 /\ 0 <= e_async ev < 2 ^ 32.

Definition event_request (fd : Z) : req_body := BStruct (le_split 4 (u32 fd)).

(** An open socket on which the bytes [stream] will arrive and [n] requests can be
    written. *)
Record open_sock (s : sock_with_lock) (n : nat) (stream : list Z) : Prop := {
  os_open : 0 <= sock s;
  os_writes : k_writes (peer s) = concat (replicate n [12; 4]);
  os_reads : exists chs, k_reads (peer s) = map Some chs /\ concat chs = stream }.

Lemma event_has_type ev : event_ok ev -> has_type t_IBV_GET_CQ_EVENT_RSP (event_val ev).
Proof.
  intros (H1 & H2 & H3). apply ht_struct.
  repeat (constructor; [apply ht_int; [tauto|done]|]). constructor.
Qed.

Lemma event_request_fd fd : 0 <= fd < 2 ^ 31 -> s32 (le_combine (take 4 (le_split 4 (u32 fd)))) = fd.
Proof.
  intros Hf. rewrite take_ge by (rewrite le_split_length; lia).
  rewrite u32_small by lia. rewrite (le_combine_split 4) by (simpl; lia). by apply s32_small.
Qed.

Lemma event_body {M} (p : proc M) fd :
  body_of p t_IBV_GET_CQ_EVENT_REQ [VI (u32 fd)] = event_request fd.
Proof. reflexivity. Qed.

(** One request for an event over the kept connection. *)
Lemma event_exchange e id c fd s n ev stream rsp0 size0 :
  e_ffr_id e = Some id -> 0 <= fd < MAP_SIZE -> comp_channel_sock_map c !! fd = Some s ->
  open_sock s (S n) (event_bytes ev ++ stream) -> event_ok ev -> length rsp0 = 12%nat ->
  exists s', open_sock s' n stream /\
    k_out (peer s') = k_out (peer s) ++ message id IBV_GET_CQ_EVENT (event_request fd) /\
    request_router e c IBV_GET_CQ_EVENT (event_request fd) rsp0 size0
    = Ok (mkCtl (comp_channel_map c) (<[fd := s']> (comp_channel_sock_map c)) (conns c)
            (trace c), event_bytes ev, 12).
Proof.
  intros He Hfd Hm [Hs Hw (chs & Hr & Hc)] Hev Hl.
  destruct (read_full_stream chs [] _ _ Hc) as (chs' & Erd & Hc').
  destruct (has_type_wire 0 _ _ (event_has_type _ Hev)) as [Hlen _].
  change (sizeof t_IBV_GET_CQ_EVENT_RSP) with 12 in Hlen.
  set (s' := mkSock (sock s) (mkConn (k_socket (peer s)) (k_connect (peer s))
    (concat (replicate n [12; 4])) (map Some chs') (k_cmsg (peer s))
    (k_out (peer s) ++ message id IBV_GET_CQ_EVENT (event_request fd)))).
  exists s'. split; [|split].
  { split; [done..|]. by exists chs'. }
  { done. }
  assert (MAP_SIZE = 10240) as HM by done.
  unfold request_router. cbn [event_request]. rewrite event_request_fd by lia.
  rewrite bool_decide_true by done. unfold get_unix_sock_comp_channel.
  destruct (Z.leb_spec MAP_SIZE fd); [lia|]. destruct (Z.ltb_spec fd 0); [lia|]. rewrite Hm.
  destruct (Z.ltb_spec (sock s) 0); [lia|]. cbn [mbind res_bind].
  destruct (Z.ltb_spec (sock s) 0); [lia|]. rewrite He.
  cbn [mbind res_bind switch_sizes fixed_format].
  change (sizeof t_IBV_GET_CQ_EVENT_REQ) with 4.
  change (sizeof t_IBV_GET_CQ_EVENT_RSP) with 12.
  rewrite (send_request_full s _ _ (concat (replicate n [12; 4]))); [|done|simpl; lia|done|done].
  cbn [mbind res_bind]. rewrite bool_decide_false by done. cbn [mbind res_bind].
  unfold recv_response. cbn [mbind res_bind negb]. unfold sock_read_full.
  cbn [sock peer k_reads]. destruct (Z.ltb_spec (sock s) 0); [lia|].
  change (12 <=? 0) with false. cbn iota. rewrite Hr.
  assert (Z.of_nat (length (event_bytes ev)) = 12) as El by exact Hlen.
  rewrite El in Erd. rewrite Erd. cbn [mbind res_bind app].
  by rewrite overwrite_all by lia.
Qed.

(** ** Properties *)

Section Events.
Context {M D : Type} `{LkeyMap M} (ops : cq_ops M D).
Implicit Types l : lib M D.

(** What an event does to the queue its handle belongs to. *)
Definition event_effect (m : gmap Z Z) (cqs : gmap Z cq_object) (ev : event)
  : gmap Z cq_object :=
  match m !! e_handle ev with
  | Some a => alter (set_events (e_comp ev) (e_async ev)) a cqs
  | None => cqs
  end.

(** The address and the application context of the queue with a handle. *)
Definition owner l (h : Z) : option (Z * Z) :=
  a ← cq_map l !! h; q ← l_cqs l !! a; Some (a, o_cq_context q).

(** A channel at [ch] whose socket is open, with [n] requests to come and the
    bytes [stream] under way. *)
Record channel_ready l (ch fd : Z) (n : nat) (stream : list Z) : Prop := {
  cr_env : is_Some (e_ffr_id (p_env (l_proc l)));
  cr_fd : 0 <= fd < MAP_SIZE;
  cr_chan : exists c, l_channels l !! ch = Some c /\ 0 <= ch_fd c < MAP_SIZE /\
    comp_channel_map (p_ctl (l_proc l)) !! ch_fd c = Some fd;
  cr_sock : exists s, comp_channel_sock_map (p_ctl (l_proc l)) !! fd = Some s /\
    open_sock s n stream }.

(** The exchange over, the event is looked up. *)
Lemma get_cq_event_reads l ch fd n ev stream :
  channel_ready l ch fd (S n) (event_bytes ev ++ stream) -> event_ok ev ->
  e_handle ev < MAP_SIZE ->
  exists p', (forall d cqs, channel_ready (mkLib d p' cqs (l_channels l) (cq_map_init l)
                              (cq_map l)) ch fd n stream) /\
    ibv_get_cq_event ops l ch
    = (a ← of_option (cq_map l !! e_handle ev);
       q ← deref (l_cqs l) (Some a);
       Ok (mkLib (match op_cq_event ops with Some f => f (l_drv l) a | None => l_drv l end) p'
             (<[a := set_events (e_comp ev) (e_async ev) q]> (l_cqs l)) (l_channels l)
             (cq_map_init l) (cq_map l), a, o_cq_context q, 0)).
Proof.
  intros [[id Hid] Hfd (c & Hc & Hcf & Hcm) (s & Hs & Ho)] Hev Hh.
  destruct (event_exchange _ id _ fd s n ev stream
    (replicate (Z.to_nat (sizeof t_IBV_GET_CQ_EVENT_RSP)) (junk (l_proc l)))
    (junk (l_proc l)) Hid Hfd Hs Ho Hev) as (s' & Ho' & _ & Ex); [by rewrite length_replicate|].
  eexists. split.
  2: { unfold ibv_get_cq_event, deref. cbn [of_option mbind res_bind]. rewrite Hc.
    unfold channel_fd. cbn [of_option mbind res_bind]. rewrite index_in by done.
    cbn [mbind res_bind]. rewrite Hcm. change (default (-1) (Some fd)) with fd.
    rewrite event_body. unfold ask. rewrite Ex. cbn [mbind res_bind].
    unfold event_bytes. destruct (has_type_wire 0 _ _ (event_has_type _ Hev)) as [_ ->].
    change (fu (event_val ev) 0) with (e_handle ev). destruct Hev as (Hev & _).
    rewrite index_in by lia. reflexivity. }
  intros d cqs. split; simpl; [by eexists|done|eauto|]. exists s'. by rewrite lookup_insert_eq.
Qed.

Lemma get_cq_event_step l ch fd n ev stream a cx :
  channel_ready l ch fd (S n) (event_bytes ev ++ stream) -> event_ok ev ->
  e_handle ev < MAP_SIZE -> owner l (e_handle ev) = Some (a, cx) ->
  exists l', ibv_get_cq_event ops l ch = Ok (l', a, cx, 0) /\
    channel_ready l' ch fd n stream /\ cq_map l' = cq_map l /\
    l_cqs l' = event_effect (cq_map l) (l_cqs l) ev.
Proof.
  intros Hr Hev Hh Hown. destruct (get_cq_event_reads _ _ _ _ _ _ Hr Hev Hh) as (p' & Hr' & ->).
  unfold owner in Hown. destruct (cq_map l !! e_handle ev) as [a'|] eqn:Ea; [|done].
  simpl in Hown. destruct (l_cqs l !! a') as [q|] eqn:Eq; [|done]. injection Hown as -> <-.
  unfold deref. cbn [of_option mbind res_bind]. rewrite Eq. cbn [of_option mbind res_bind].
  eexists. split; [reflexivity|]. split; [apply Hr'|]. split; [done|].
  simpl. unfold event_effect. rewrite Ea. apply map_eq. intros i.
  rewrite lookup_alter, lookup_insert. case_decide; [subst|done]. by rewrite Eq.
Qed.

Lemma owner_after l l' ev h :
  cq_map l' = cq_map l -> l_cqs l' = event_effect (cq_map l) (l_cqs l) ev ->
  owner l' h = owner l h.
Proof.
  intros Em Eq. unfold owner. rewrite Em, Eq. destruct (cq_map l !! h) as [a|]; [|done].
  simpl. unfold event_effect. destruct (cq_map l !! e_handle ev) as [b|]; [|done].
  rewrite lookup_alter. case_decide; [subst|done]. by destruct (l_cqs l !! a).
Qed.

(** C38: Events arrive in order, at the right queues: when the router sends a
    sequence of events over the connection of a channel, cut into pieces in any
    way, waiting for that many gives for each the queue object its handle belongs to
    and the application's context of that queue, and the counters of the queues are
    the ones of their last events. *)
Theorem cq_events_arrive_in_order l ch fd evs owners :
  channel_ready l ch fd (length evs) (concat (map event_bytes evs)) ->
  Forall (fun ev => event_ok ev /\ e_handle ev < MAP_SIZE) evs ->
  map (fun ev => owner l (e_handle ev)) evs = map Some owners ->
  exists l', wait_events ops (length evs) l ch = Ok (l', owners) /\
    l_cqs l' = foldl (event_effect (cq_map l)) (l_cqs l) evs /\ cq_map l' = cq_map l.
Proof.
  revert l owners. induction evs as [|ev evs IH]; intros l [|[a cx] owners] Hr Hok Ho;
    try discriminate Ho; [by exists l|].
  apply Forall_cons in Hok as [[Hev Hh] Hok]. simpl in Ho. injection Ho as Ho1 Ho2.
  destruct (get_cq_event_step _ _ _ _ _ _ _ _ Hr Hev Hh Ho1) as (l1 & E1 & Hr1 & Em & Eq).
  destruct (IH l1 owners Hr1 Hok) as (l2 & E2 & Eq2 & Em2).
  { rewrite <- Ho2. apply map_ext. intros ev'. by eapply owner_after. }
  exists l2. cbn [length wait_events]. rewrite E1. cbn [mbind res_bind]. rewrite E2.
  split; [done|]. split; [by rewrite Eq2, Em, Eq|by rewrite Em2].
Qed.

(** A created queue is found by its events: afterwards its handle leads to the
    new object with the application's context and counters 0, its channel counts one
    queue more, and the owners of other handles are as before. *)
Theorem create_cq_owns_handle l context cqe cx ch c vec d p a q :
  l_channels l !! ch = Some c -> - 2 ^ 31 <= refcnt c + 1 < 2 ^ 31 ->
  op_create_cq ops (l_drv l) (l_proc l) context cqe (Some (ch_fd c)) vec
    = Ok (d, p, Some (a, q)) ->
  0 <= cq_handle q < MAP_SIZE -> l_cqs l !! a = None ->
  exists l', ibv_create_cq ops l context cqe cx (Some ch) vec = Ok (l', Some a) /\
    owner l' (cq_handle q) = Some (a, cx) /\
    (forall h, h <> cq_handle q -> owner l h <> None -> owner l' h = owner l h) /\
    l_channels l' !! ch = Some (mkChan (ch_context c) (ch_fd c) (refcnt c + 1)).
Proof.
  intros Hc Hr Ho Hh Hf. eexists. split_and!.
  - unfold ibv_create_cq, deref. cbn [of_option mbind res_bind]. rewrite Hc.
    cbn [of_option mbind res_bind]. rewrite Ho. cbn [mbind res_bind].
    unfold add_ref, deref. cbn [of_option mbind res_bind]. rewrite Hc.
    cbn [of_option mbind res_bind]. rewrite index_in by done. reflexivity.
  - unfold owner. simpl. by rewrite lookup_insert_eq; simpl; rewrite lookup_insert_eq.
  - intros h Hne Hsome. unfold owner in *. simpl. rewrite lookup_insert_ne by done.
    destruct (cq_map l !! h) as [b|]; [|done]. simpl in *.
    rewrite lookup_insert_ne; [done|]. intros ->. by rewrite Hf in Hsome.
  - simpl. rewrite lookup_insert_eq. do 2 f_equal. by apply s32_id.
Qed.
(** A provider that cannot create the queue makes the call use a null pointer:
    the store into [cq_map] is not guarded by the test of the result. *)
Theorem create_cq_failure_dereferences_null l context cqe cx vec d p :
  op_create_cq ops (l_drv l) (l_proc l) context cqe None vec = Ok (d, p, None) ->
  ibv_create_cq ops l context cqe cx None vec = Ub.
Proof. intros E. unfold ibv_create_cq. cbn [mbind res_bind]. by rewrite E. Qed.

(** The first [ibv_query_device] empties [cq_map]: the queues created before it
    have no owner any more, and the next event, whatever its handle, makes
    [ibv_get_cq_event] use a null pointer. *)
Theorem first_query_device_forgets_queues l d p attr ret :
  op_query_device ops (l_drv l) (l_proc l) = Ok (d, p, attr, ret) ->
  cq_map_init l = false ->
  exists l', ibv_query_device ops l = Ok (l', attr, ret) /\ l_cqs l' = l_cqs l /\
    (forall h, owner l' h = None) /\
    forall ch fd n ev stream,
      channel_ready l' ch fd (S n) (event_bytes ev ++ stream) -> event_ok ev ->
      e_handle ev < MAP_SIZE -> ibv_get_cq_event ops l' ch = Ub.
Proof.
  intros Eq Hi. unfold ibv_query_device. rewrite Eq, Hi. cbn [mbind res_bind].
  eexists. split; [reflexivity|]. split; [done|]. split; [done|].
  intros ch fd n ev stream Hr Hev Hh.
  destruct (get_cq_event_reads _ _ _ _ _ _ Hr Hev Hh) as (p' & _ & ->). done.
Qed.
End Events.

(** ** A concrete library *)

Module ExLib.
(** A provider that passes the calls on to the command functions; its state is the
    address of the next object and the number of events it has seen. *)
Definition ops : cq_ops (gmap Z mr_shm) (Z * Z) :=
  mkOps
    (fun d p => Ok (d, p, VS [], 0))
    (fun d p context cqe fd vec =>
       if 4194303 <? cqe then Ok (d, p, None) else
       '(p1, q, _) ← ibv_cmd_create_cq p context cqe fd vec;
       Ok ((d.1 + 256, d.2), p1, Some (d.1, q)))
    (fun d p a q => '(p1, ret) ← ibv_cmd_destroy_cq p q; Ok (d, p1, ret))
    (Some (fun d _ => (d.1, d.2 + 1))).

Definition q5 : cq_object := mkCqObj (mkCq 5 64 99) (Some 800) 77 0 0.
Definition q6 : cq_object := mkCqObj (mkCq 6 64 99) (Some 800) 78 0 0.
Definition ev1 : event := mkEvent 6 1 0.
Definition ev2 : event := mkEvent 5 1 0.
Definition chan : ibv_comp_channel := mkChan 99 20 2.

(** Two queues on a channel whose socket will deliver the bytes [stream]. *)
Definition lib_with (stream : list (list Z)) (ks : list conn) : lib (gmap Z mr_shm) (Z * Z) :=
  mkLib (4096, 0)
    (mkProc ExProc.sys_os ex_env
       (mkCtl {[20 := 9]}
          {[9 := mkSock 4 (mkConn 4 0 [12; 4; 12; 4] (map Some stream) RmNoControl [])]} ks [])
       ExProc.cl true [])
    {[1000 := q5; 2000 := q6]} {[800 := chan]} false {[5 := 1000; 6 := 2000]}.

Lemma ready evs stream (l : lib (gmap Z mr_shm) (Z * Z)) :
  l_proc l = l_proc (lib_with stream []) -> l_channels l = {[800 := chan]} ->
  length evs = 2%nat -> concat stream = concat (map event_bytes evs) ->
  channel_ready l 800 9 2 (concat (map event_bytes evs)).
Proof.
  intros Hp Hc Hl Hs. split; rewrite ?Hp, ?Hc.
  - by eexists.
  - by vm_compute.
  - exists chan. split; [done|]. split; [by vm_compute|]. done.
  - eexists. split; [reflexivity|]. split; [done|done|]. by exists stream.
Defined.
End ExLib.

Lemma cq_events_arrive_in_order_witness :
  let stream := [[6; 0; 0]; [0; 1; 0; 0; 0; 0; 0; 0; 0; 5; 0; 0; 0; 1]; []; [0; 0; 0; 0; 0; 0; 0]] in
  exists l', wait_events ExLib.ops 2 (ExLib.lib_with stream []) 800
    = Ok (l', [(2000, 78); (1000, 77)]).
Proof.
  intros stream.
  destruct (cq_events_arrive_in_order ExLib.ops (ExLib.lib_with stream []) 800 9
    [ExLib.ev1; ExLib.ev2] [(2000, 78); (1000, 77)]) as (l' & E & _).
  - by apply (ExLib.ready _ stream).
  - by repeat constructor.
  - done.
  - by exists l'.
Defined.

Lemma create_cq_owns_handle_witness :
  let k := answering (sizeof t_IBV_CREATE_CQ_REQ) t_IBV_CREATE_CQ_RSP
             (cq_rsp 64 7 0 [99; 113]) in
  exists l', ibv_create_cq ExLib.ops (ExLib.lib_with [] [k]) 99 64 79 (Some 800) 0
    = Ok (l', Some 4096) /\ owner l' 7 = Some (4096, 79) /\ owner l' 5 = Some (1000, 77).
Proof.
  intros k.
  assert (exists p1, op_create_cq ExLib.ops (4096, 0) (l_proc (ExLib.lib_with [] [k])) 99 64
    (Some 20) 0 = Ok ((4352, 0), p1, Some (4096, mkCq 7 64 99))) as [p1 E].
  { eexists. vm_compute. reflexivity. }
  destruct (create_cq_owns_handle ExLib.ops (ExLib.lib_with [] [k]) 99 64 79 800 ExLib.chan 0
    (4352, 0) p1 4096 (mkCq 7 64 99)) as (l' & El & Ho & Hn & _);
    [done|by vm_compute|exact E|by vm_compute|done|].
  exists l'. split; [done|]. split; [done|]. rewrite Hn; done.
Defined.

Lemma create_cq_failure_dereferences_null_witness :
  ibv_create_cq ExLib.ops (ExLib.lib_with [] []) 99 4194304 79 None 0 = Ub.
Proof.
  apply (create_cq_failure_dereferences_null ExLib.ops (ExLib.lib_with [] []) 99 4194304 79 0
    (4096, 0) (l_proc (ExLib.lib_with [] []))). reflexivity.
Defined.

Lemma first_query_device_forgets_queues_witness :
  let stream := [concat (map event_bytes [ExLib.ev1; ExLib.ev2])] in
  let l := ExLib.lib_with stream [] in
  owner l 6 = Some (2000, 78) /\
  exists l', ibv_query_device ExLib.ops l = Ok (l', VS [], 0) /\
    ibv_get_cq_event ExLib.ops l' 800 = Ub.
Proof.
  intros stream l. split; [done|].
  destruct (first_query_device_forgets_queues ExLib.ops l (4096, 0) (l_proc l) (VS []) 0)
    as (l' & E & _ & _ & Hev); [done|done|].
  exists l'. split; [done|].
  apply (Hev 800 9 1%nat ExLib.ev1 (event_bytes ExLib.ev2)); [|by repeat constructor|by vm_compute].
  injection E as <-. by apply (ExLib.ready [ExLib.ev1; ExLib.ev2] stream).
Defined.
