(* ===== verification/FlowSpec.v ===== *)
(** * Flow steering: [cmd_create_flow]

    An application describes a flow as an attribute struct followed in memory by
    specs of different types and sizes; cmd.c translates each spec into the
    kernel's layout and sends the resulting command to the router.  Specs are
    modelled as the bytes they are: [ib_spec] is the application's memory from
    the current spec on. *)

From S2P Require Import Prelude CLayout FfTypes Wire ReqRouter MemPool Client CmdCtrl CmdLocal.

Definition EOPNOTSUPP : Z := 95.

Definition SPEC_ETH : Z := 32.
Definition SPEC_IB : Z := 33.
Definition SPEC_IPV4 : Z := 48.
Definition SPEC_IPV6 : Z := 49.
Definition SPEC_IPV4_EXT : Z := 50.
Definition SPEC_IPV6_EXT : Z := 51.
Definition SPEC_TCP : Z := 64.
Definition SPEC_UDP : Z := 65.
Definition SPEC_VXLAN_TUNNEL : Z := 80.
Definition SPEC_INNER : Z := 256.
Definition SPEC_ACTION_TAG : Z := 4096.

(** ** Layouts *)

Definition t_spec_hdr : cty := Struct [I32; I16].
Definition t_eth_filter : cty := Struct [Arr 6 I8; Arr 6 I8; I16; I16].
Definition t_ib_filter : cty := Struct [I32; Arr 16 I8].
Definition t_ipv4_filter : cty := Struct [I32; I32].
Definition t_ipv6_filter : cty := Struct [Arr 16 I8; Arr 16 I8].
Definition t_ipv4_ext_filter : cty := Struct [I32; I32; I8; I8; I8; I8].
Definition t_ipv6_ext_filter : cty := Struct [Arr 16 I8; Arr 16 I8; I32; I8; I8; I8].
Definition t_tcp_udp_filter : cty := Struct [I16; I16].
Definition t_tunnel_filter : cty := Struct [I32].
(** The kernel's [ipv6_ext] filter names its last byte. *)
Definition t_kern_ipv6_ext_filter : cty := Struct [Arr 16 I8; Arr 16 I8; I32; I8; I8; I8; I8].

(** The application's spec and the kernel's spec around a filter type. *)
Definition t_ib_spec (f : cty) : cty := Struct [I32; I16; f; f].
Definition t_kern_spec (f : cty) : cty := Struct [I32; I16; I16; f; f].
Definition t_kern_spec_union : cty :=
  Union [Struct [I32; I16; I16]; t_kern_spec t_ib_filter; t_kern_spec t_eth_filter;
         t_kern_spec t_ipv4_filter; t_kern_spec t_tcp_udp_filter].
Definition t_action_tag : cty := Struct [I32; I16; I32].
Definition t_kern_action_tag : cty := Struct [I32; I16; I16; I32; I32].
Definition t_exp_kern_spec_union : cty :=
  Union [Struct [I32; I16; I16]; t_kern_spec t_ib_filter; t_kern_spec t_eth_filter;
         t_kern_spec t_ipv4_filter; t_kern_spec t_ipv4_ext_filter;
         t_kern_spec t_tcp_udp_filter; t_kern_spec t_ipv6_filter;
         t_kern_spec t_kern_ipv6_ext_filter; t_kern_spec t_tunnel_filter; t_kern_action_tag].

(** ** Specs *)

(** [n] bytes at offset [o]; undefined when the application's memory ends before. *)
Definition bytes_at (o n : Z) (bs : list Z) : res (list Z) :=
  if (o <? 0) || (n <? 0) || (Z.of_nat (length bs) <? o + n) then Ub
  else Ok (slice o n bs).

Definition spec_type (bs : list Z) : res Z := b ← bytes_at 0 4 bs; Ok (le_combine b).
Definition spec_size (bs : list Z) : res Z := b ← bytes_at 4 2 bs; Ok (le_combine b).

(** [memcmp(a, b, n) == 0] on the first [n] bytes. *)
Fixpoint memeq (n : nat) (a b : list Z) : bool :=
  match n, a, b with
  | O, _, _ => true
  | S n', x :: a', y :: b' => (x =? y) && memeq n' a' b'
  | _, _, _ => false
  end.

Definition buffer_is_zero (bs : list Z) (size : Z) : bool :=
  (hd 1 bs =? 0) && memeq (Z.to_nat (size - 1)) bs (tl bs).

(** [min_filter_size] for the three extensible filters; [curr_kern_filter_size]
    is the same number. *)
Definition min_filter_size (type : Z) : option Z :=
  if type =? SPEC_IPV4_EXT then Some (offsetof t_ipv4_ext_filter 5 + 1)
  else if type =? SPEC_IPV6_EXT then Some (offsetof t_kern_ipv6_ext_filter 5 + 1)
  else if type =? SPEC_VXLAN_TUNNEL then Some (offsetof t_tunnel_filter 0 + 4)
  else None.

(** Where [val] lies in a spec of an extensible filter. *)
Definition ext_val : Z := 8.

(** The sizes of the application's and the kernel's filter, or an error. *)
Definition get_filters_size (ib_spec : list Z) (type : Z) : res (Z + Z * Z) :=
  sz ← spec_size ib_spec;
  let ib_filter_size := s32 (u64 (sz - sizeof t_spec_hdr) / 2) in
  match min_filter_size type with
  | None => Ok (inl EINVAL)
  | Some m =>
      if ib_filter_size <? m then Ok (inl EINVAL) else
      zero ← (if m <? ib_filter_size
              then b ← bytes_at (ext_val + ib_filter_size + m) (ib_filter_size - m) ib_spec;
                   Ok (buffer_is_zero b (ib_filter_size - m))
              else Ok true);
      Ok (if negb zero then inl EOPNOTSUPP else inr (ib_filter_size, Z.min m ib_filter_size))
  end.

(** A kernel spec: header, value and mask, each padded with the zeros of the
    cleared command to the size of the kernel's filter. *)
Definition kern_bytes (type ksize kfilter : Z) (val mask : list Z) : list Z :=
  let fill b := b ++ replicate (Z.to_nat (kfilter - Z.of_nat (length b))) 0 in
  le_split 4 type ++ le_split 2 ksize ++ [0; 0] ++ fill val ++ fill mask.

(** A spec whose filter is copied whole. *)
Definition copy_spec (ib_spec : list Z) (type : Z) (f : cty) : res (Z + list Z) :=
  val ← bytes_at (offsetof (t_ib_spec f) 2) (sizeof f) ib_spec;
  mask ← bytes_at (offsetof (t_ib_spec f) 3) (sizeof f) ib_spec;
  Ok (inr (kern_bytes type (sizeof (t_kern_spec f)) (sizeof f) val mask)).

(** A spec whose filter may be longer than the kernel's. *)
Definition copy_ext_spec (ib_spec : list Z) (type ktype : Z) (kf : cty) : res (Z + list Z) :=
  r ← get_filters_size ib_spec type;
  match r with
  | inl e => Ok (inl e)
  | inr (ibsz, ksz) =>
      val ← bytes_at ext_val ksz ib_spec;
      mask ← bytes_at (ext_val + ibsz) ksz ib_spec;
      Ok (inr (kern_bytes ktype (sizeof (t_kern_spec kf)) (sizeof kf) val mask))
  end.

Definition inner (t base : Z) : bool := (t =? base) || (t =? Z.lor base SPEC_INNER).

(** The kernel's type of an extended spec: the plain type, still marked as inner. *)
Definition plain_type (t base : Z) : Z :=
  if has t SPEC_INNER then Z.lor base SPEC_INNER else base.

Definition ib_spec_to_kern_spec (ib_spec : list Z) (is_exp : bool) : res (Z + list Z) :=
  t ← spec_type ib_spec;
  if negb is_exp && has t SPEC_INNER then Ok (inl EINVAL) else
  if inner t SPEC_ETH then copy_spec ib_spec t t_eth_filter
  else if t =? SPEC_IB then
    if negb is_exp then Ok (inl EINVAL) else copy_spec ib_spec t t_ib_filter
  else if inner t SPEC_IPV4 then copy_spec ib_spec t t_ipv4_filter
  else if inner t SPEC_IPV6 then
    if negb is_exp then Ok (inl EINVAL) else copy_spec ib_spec t t_ipv6_filter
  else if inner t SPEC_IPV6_EXT then
    if negb is_exp then Ok (inl EINVAL)
    else copy_ext_spec ib_spec SPEC_IPV6_EXT (plain_type t SPEC_IPV6) t_kern_ipv6_ext_filter
  else if inner t SPEC_IPV4_EXT then
    if negb is_exp then Ok (inl EINVAL)
    else copy_ext_spec ib_spec SPEC_IPV4_EXT (plain_type t SPEC_IPV4) t_ipv4_ext_filter
  else if inner t SPEC_TCP || inner t SPEC_UDP then copy_spec ib_spec t t_tcp_udp_filter
  else if t =? SPEC_VXLAN_TUNNEL then
    if negb is_exp then Ok (inl EINVAL)
    else copy_ext_spec ib_spec SPEC_VXLAN_TUNNEL t t_tunnel_filter
  else if t =? SPEC_ACTION_TAG then
    if negb is_exp then Ok (inl EINVAL) else
    tag ← bytes_at (offsetof t_action_tag 2) 4 ib_spec;
    Ok (inr (le_split 4 t ++ le_split 2 (sizeof t_kern_action_tag) ++ [0; 0] ++ tag
             ++ [0; 0; 0; 0]))
  else Ok (inl EINVAL).

(** The next spec: [size] bytes further on. *)
Definition next_spec (bs : list Z) : res (list Z) :=
  n ← spec_size bs; Ok (drop (Z.to_nat n) bs).

Definition exp_type (t : Z) : bool :=
  (t =? SPEC_IPV6) || (t =? SPEC_IPV4_EXT) || (t =? SPEC_IPV6_EXT)
  || (t =? SPEC_VXLAN_TUNNEL) || (t =? SPEC_ACTION_TAG) || has t SPEC_INNER.

Fixpoint flow_is_exp (num_of_specs : nat) (ib_spec : list Z) : res bool :=
  match num_of_specs with
  | O => Ok false
  | S n =>
      t ← spec_type ib_spec;
      if exp_type t then Ok true
      else rest ← next_spec ib_spec; flow_is_exp n rest
  end.

(** The translation loop: the kernel's specs one behind the other. *)
Fixpoint translate (num_of_specs : nat) (ib_spec : list Z) (is_exp : bool)
  : res (Z + list (list Z)) :=
  match num_of_specs with
  | O => Ok (inr [])
  | S n =>
      r ← ib_spec_to_kern_spec ib_spec is_exp;
      match r with
      | inl e => Ok (inl e)
      | inr k =>
          rest ← next_spec ib_spec;
          r' ← translate n rest is_exp;
          Ok (match r' with inl e => inl e | inr ks => inr (k :: ks) end)
      end
  end.

(** ** The command *)

(** [struct ibv_exp_flow_attr] and, from [type] on, [struct ibv_flow_attr]. *)
Record flow_attr : Type := mkFlowAttr {
  fa_type : Z; fa_priority : Z; fa_num_of_specs : Z; fa_port : Z; fa_flags : Z }.

Definition t_exp_flow_attr : cty := Struct [I32; I16; I16; I8; I8; I32; I64].
Definition t_flow_attr : cty := Struct [I32; I32; I16; I16; I8; I8; I32].
Definition t_kern_flow_attr : cty := Struct [I32; I16; I16; I8; Arr 2 I8; I8; I32].
Definition t_ibv_create_flow : cty := Struct [t_ex_hdr; I32; I32; t_kern_flow_attr].

Definition CREATE_FLOW : Z := 2 ^ 31 + 50.
Definition EXP_CREATE_FLOW : Z := 19 + 64.

(** [IBV_INIT_CMD_RESP_EX_VCMD] and [IBV_INIT_CMD_RESP_EXP]: the extended
    header of a command of [written] bytes. *)
Definition ex_header (exp_flow : bool) (abi_ver written resp_ptr : Z) : cval :=
  let words := u16 (u64 (written - sizeof t_ex_hdr) / 8) in
  let out := sizeof t_ibv_create_flow_resp / 8 in
  let code := if exp_flow then EXP_CREATE_FLOW
              else u32 (if 2 <? abi_ver then CREATE_FLOW else -1) in
  VS [VS [VI code; VI words; VI out]; VS [VI resp_ptr]; VS [VI 0; VI 0; VI 0]].

Definition create_flow_cmd (exp_flow : bool) (abi_ver qp_handle resp_ptr : Z) (a : flow_attr)
  (specs : list (list Z)) : list Z * Z :=
  let size := u16 (sumZ (map (fun k => Z.of_nat (length k)) specs)) in
  let written := sizeof t_ibv_create_flow + size in
  (encode 0 t_ibv_create_flow
     (VS [ex_header exp_flow abi_ver written resp_ptr; VI 0; VI qp_handle;
          VS [VI (fa_type a); VI size; VI (fa_priority a); VI (fa_num_of_specs a);
              VB [0; 0]; VI (fa_port a); VI (fa_flags a)]])
   ++ concat specs, written).

(** Room the command is given on the stack. *)
Definition cmd_room (exp_flow : bool) (a : flow_attr) : Z :=
  sizeof t_ibv_create_flow
  + fa_num_of_specs a * sizeof (if exp_flow then t_exp_kern_spec_union else t_kern_spec_union).

(** [struct ibv_flow] *)
Record ibv_flow : Type := mkFlow { flow_context : Z; flow_handle : Z }.

Section Flow.
Context {M : Type}.
Implicit Types p : proc M.

(** [after]: the memory behind the struct at the attribute pointer, where
    [flow_is_exp] looks for the specs; [ib_spec]: the specs.  The result is the
    flow, or the value of [errno]; the command is copied into a buffer of 1024
    bytes. *)
Definition cmd_create_flow p (abi_ver : Z) (qp : ibv_qp) (a : flow_attr)
  (after ib_spec : list Z) (is_exp : bool) (resp_ptr : Z) : res (proc M * (Z + ibv_flow)) :=
  let n := Z.to_nat (fa_num_of_specs a) in
  exp_flow ← flow_is_exp n after;
  r ← translate n ib_spec is_exp;
  match r with
  | inl err => Ok (p, inl err)
  | inr specs =>
      if cmd_room exp_flow a <? sizeof t_ibv_create_flow
           + sumZ (map (fun k => Z.of_nat (length k)) specs) then Ub else
      let '(cmd, written) := create_flow_cmd exp_flow abi_ver (q_handle qp) resp_ptr a specs in
      if 1024 <? written then Ub else
      '(p1, rsp) ← ask p IBV_CREATE_FLOW
          (body_of p t_IBV_CREATE_FLOW_REQ
             [VI (if exp_flow then 1 else 0); VI written;
              VB (cmd ++ replicate (Z.to_nat (1024 - written)) 0)]) t_IBV_CREATE_FLOW_RSP;
      Ok (p1, inr (mkFlow (q_context qp) (fu (fs rsp 1) 1)))
  end.

(** The experimental interface: the specs follow the attribute struct. *)
Definition ibv_exp_cmd_create_flow p abi_ver qp a (specs : list Z) resp_ptr :=
  cmd_create_flow p abi_ver qp a specs specs true resp_ptr.

(** The plain interface hands on a pointer to the [type] field of the smaller
    struct; its specs start [sizeof ibv_flow_attr - 4] bytes behind that pointer,
    while [flow_is_exp] looks [sizeof ibv_exp_flow_attr] bytes behind it. *)
Definition ibv_cmd_create_flow p abi_ver qp (comp_mask : Z) a (specs : list Z) resp_ptr :=
  if negb (comp_mask =? 0) then Ok (p, inl EINVAL) else
  let skew := sizeof t_exp_flow_attr - (sizeof t_flow_attr - 4) in
  cmd_create_flow p abi_ver qp a (drop (Z.to_nat skew) specs) specs false resp_ptr.

Definition cmd_destroy_flow p (abi_ver handle : Z) : res (proc M * Z) :=
  let size := sizeof t_ibv_destroy_flow in
  let cmd := VS [VS [VS [VI (u32 (if 2 <? abi_ver then CREATE_FLOW + 1 else -1));
                         VI ((size - sizeof t_ex_hdr) / 8); VI 0];
                     VS [VI 0]; VS [VI 0; VI 0; VI 0]]; VI 0; VI handle] in
  '(p1, rsp) ← ask p IBV_DESTROY_FLOW (body_of p t_IBV_DESTROY_FLOW_REQ [cmd])
                 t_IBV_DESTROY_FLOW_RSP;
  Ok (p1, fi rsp 0).

Definition ibv_cmd_destroy_flow p abi_ver (f : ibv_flow) : res (proc M * Z) :=
  cmd_destroy_flow p abi_ver (flow_handle f).
Definition ibv_exp_cmd_destroy_flow p abi_ver (f : ibv_flow) : res (proc M * Z) :=
  cmd_destroy_flow p abi_ver (flow_handle f).
End Flow.

(** ** Zero buffers *)

Lemma memeq_shift n : forall x bs,
  (S n <= length (x :: bs))%nat ->
  memeq n (x :: bs) bs = true <-> Forall (fun b => b = x) (take n bs).
Proof.
  induction n as [|n IH]; intros x bs Hl; [simpl; by split|].
  destruct bs as [|y bs]; [simpl in *; lia|]. cbn [memeq take].
  rewrite andb_true_iff, Z.eqb_eq, Forall_cons.
  assert (S n <= length (y :: bs))%nat as Hl' by (simpl in *; lia).
  specialize (IH y bs Hl'). split.
  - intros [-> Hm]. split; [done|]. by apply IH.
  - intros [-> Hf]. split; [done|]. by apply IH.
Qed.

(** The test that compares a buffer with itself shifted by one byte is the test
    that every byte of it is zero. *)
Theorem buffer_is_zero_correct bs size :
  1 <= size <= Z.of_nat (length bs) ->
  buffer_is_zero bs size = true <-> Forall (fun b => b = 0) (take (Z.to_nat size) bs).
Proof.
  intros Hs. destruct bs as [|x bs]; [simpl in *; lia|].
  unfold buffer_is_zero. simpl hd. simpl tl.
  replace (Z.to_nat size) with (S (Z.to_nat (size - 1))) by lia.
  cbn [take]. rewrite andb_true_iff, Z.eqb_eq, Forall_cons, memeq_shift by (simpl in *; lia).
  split; intros [-> ?]; auto.
Qed.

Lemma buffer_is_zero_correct_witness :
  (buffer_is_zero [0; 0; 0; 7] 3 = true <-> Forall (fun b => b = 0) [0; 0; 0]) /\
  buffer_is_zero [0; 0; 0; 7] 3 = true.
Proof.
  split; [|reflexivity]. apply (buffer_is_zero_correct [0; 0; 0; 7] 3). simpl. lia.
Defined.

(** ** Sizes of translated specs *)

Lemma bytes_at_length o n bs b : bytes_at o n bs = Ok b -> Z.of_nat (length b) = n.
Proof.
  unfold bytes_at, slice. intros E.
  destruct (Z.ltb_spec o 0), (Z.ltb_spec n 0), (Z.ltb_spec (Z.of_nat (length bs)) (o + n));
    try discriminate E. injection E as <-. rewrite length_take, length_drop. lia.
Qed.

Lemma kern_bytes_length t ksize kf val mask :
  Z.of_nat (length val) <= kf -> Z.of_nat (length mask) <= kf ->
  Z.of_nat (length (kern_bytes t ksize kf val mask)) = 8 + 2 * kf.
Proof.
  intros Hv Hm. unfold kern_bytes.
  rewrite !length_app, !le_split_length, !length_replicate. simpl. lia.
Qed.

Lemma copy_spec_length bs t f k :
  copy_spec bs t f = Ok (inr k) -> Z.of_nat (length k) = 8 + 2 * sizeof f.
Proof.
  intros E. unfold copy_spec in E. inv_ok. simplify_eq.
  apply bytes_at_length in E0, E1. apply kern_bytes_length; lia.
Qed.

Lemma get_filters_size_min bs type m ibsz ksz :
  get_filters_size bs type = Ok (inr (ibsz, ksz)) -> min_filter_size type = Some m -> ksz <= m.
Proof.
  intros E Hm. unfold get_filters_size in E. inv_ok. rewrite Hm in E.
  destruct (_ <? m); [inv_ok; simplify_eq|]. inv_ok.
  destruct (negb _); simplify_eq. lia.
Qed.

Lemma copy_ext_spec_length bs t kt kf k m :
  copy_ext_spec bs t kt kf = Ok (inr k) -> min_filter_size t = Some m -> m <= sizeof kf ->
  Z.of_nat (length k) = 8 + 2 * sizeof kf.
Proof.
  intros E Hm Hk. unfold copy_ext_spec in E. inv_ok.
  destruct a as [e|[ibsz ksz]]; inv_ok; simplify_eq.
  pose proof (get_filters_size_min _ _ _ _ _ E0 Hm).
  apply bytes_at_length in E1, E2. apply kern_bytes_length; lia.
Qed.

Lemma inner_cases t base : inner t base = true -> t = base \/ t = Z.lor base SPEC_INNER.
Proof. unfold inner. rewrite orb_true_iff, !Z.eqb_eq. tauto. Qed.

Lemma spec_length bs is_exp t k :
  spec_type bs = Ok t -> ib_spec_to_kern_spec bs is_exp = Ok (inr k) ->
  Z.of_nat (length k) <= 88 /\
  (is_exp = false \/ exp_type t = false -> Z.of_nat (length k) <= 48).
Proof.
  intros Ht E. unfold ib_spec_to_kern_spec in E. rewrite Ht in E. cbn [mbind res_bind] in E.
  destruct (negb is_exp && has t SPEC_INNER); [simplify_eq|].
  destruct (inner t SPEC_ETH) eqn:E1.
  { apply copy_spec_length in E. change (sizeof t_eth_filter) with 16 in E. lia. }
  destruct (t =? SPEC_IB).
  { destruct (negb is_exp); [simplify_eq|].
    apply copy_spec_length in E. change (sizeof t_ib_filter) with 20 in E. lia. }
  destruct (inner t SPEC_IPV4) eqn:E2.
  { apply copy_spec_length in E. change (sizeof t_ipv4_filter) with 8 in E. lia. }
  destruct (inner t SPEC_IPV6) eqn:E3.
  { destruct is_exp; simpl in E; [|simplify_eq].
    apply copy_spec_length in E. change (sizeof t_ipv6_filter) with 32 in E.
    split; [lia|]. intros [?|Hx]; [done|].
    apply inner_cases in E3 as [->| ->]; discriminate Hx. }
  destruct (inner t SPEC_IPV6_EXT) eqn:E4.
  { destruct is_exp; simpl in E; [|simplify_eq].
    eapply copy_ext_spec_length in E; [|reflexivity|vm_compute; congruence].
    change (sizeof t_kern_ipv6_ext_filter) with 40 in E.
    split; [lia|]. intros [?|Hx]; [done|].
    apply inner_cases in E4 as [->| ->]; discriminate Hx. }
  destruct (inner t SPEC_IPV4_EXT).
  { destruct is_exp; simpl in E; [|simplify_eq].
    eapply copy_ext_spec_length in E; [|reflexivity|vm_compute; congruence].
    change (sizeof t_ipv4_ext_filter) with 12 in E. lia. }
  destruct (inner t SPEC_TCP || inner t SPEC_UDP).
  { apply copy_spec_length in E. change (sizeof t_tcp_udp_filter) with 4 in E. lia. }
  destruct (t =? SPEC_VXLAN_TUNNEL).
  { destruct is_exp; simpl in E; [|simplify_eq].
    eapply copy_ext_spec_length in E; [|reflexivity|vm_compute; congruence].
    change (sizeof t_tunnel_filter) with 4 in E. lia. }
  destruct (t =? SPEC_ACTION_TAG); [|simplify_eq].
  destruct is_exp; cbn [negb] in E; [|simplify_eq]. unfold bytes_at in E.
  match type of E with context [if ?b then _ else _] => destruct b eqn:Eb end;
    [discriminate E|]. cbn [mbind res_bind] in E.
  match type of E with Ok (inr ?x) = _ => assert (x = k) as <- by congruence end.
  assert (Z.of_nat (length (slice (offsetof t_action_tag 2) 4 bs)) = 4) as Hsl.
  { apply (bytes_at_length (offsetof t_action_tag 2) 4 bs). unfold bytes_at. by rewrite Eb. }
  rewrite !length_app, !le_split_length. change (length [0; 0]) with 2%nat.
  change (length [0; 0; 0; 0]) with 4%nat. lia.
Qed.

Lemma translate_type bs is_exp n r :
  translate (S n) bs is_exp = Ok (inr r) -> exists t, spec_type bs = Ok t.
Proof.
  intros E. cbn [translate] in E. inv_ok. unfold ib_spec_to_kern_spec in E0. inv_ok. eauto.
Qed.

(** A bound on every spec is a bound on all of them. *)
Lemma translate_bound (P : Z -> Prop) B is_exp n : forall specs ks,
  (forall bs t k, P t -> spec_type bs = Ok t -> ib_spec_to_kern_spec bs is_exp = Ok (inr k) ->
     Z.of_nat (length k) <= B) ->
  (forall m bs t, flow_is_exp (S m) bs = Ok false -> spec_type bs = Ok t -> P t) ->
  flow_is_exp n specs = Ok false \/ (forall t, P t) ->
  translate n specs is_exp = Ok (inr ks) ->
  sumZ (map (fun k => Z.of_nat (length k)) ks) <= Z.of_nat n * B.
Proof.
  induction n as [|n IH]; intros specs ks HB HP Hexp E.
  { injection E as <-. simpl. lia. }
  destruct (translate_type _ _ _ _ E) as (t & Ht). cbn [translate] in E. inv_ok.
  destruct a as [e|k]; [discriminate E|]. inv_ok.
  destruct a0 as [e|ks']; [discriminate E|]. injection E as <-.
  assert (P t) as HPt by (destruct Hexp as [Hx|]; eauto).
  specialize (HB specs t k HPt Ht E0) as Hk.
  assert (flow_is_exp n a = Ok false \/ (forall t, P t)) as Hexp'.
  { destruct Hexp as [Hx|]; [left|by right]. cbn [flow_is_exp] in Hx.
    rewrite Ht in Hx. cbn [mbind res_bind] in Hx.
    destruct (exp_type t); [discriminate Hx|]. by rewrite E1 in Hx. }
  specialize (IH a ks' HB HP Hexp' E2). cbn [map sumZ]. lia.
Qed.

(** The command buffer is large enough: for the experimental interface, whose
    spec size is chosen by looking at the specs, and for the plain one, which
    refuses the large specs, the translated specs never take more than the room
    reserved for them, whatever specs the application passes. *)
Theorem translated_specs_fit n specs is_exp exp_flow ks :
  translate n specs is_exp = Ok (inr ks) ->
  is_exp = false \/ flow_is_exp n specs = Ok exp_flow ->
  sumZ (map (fun k => Z.of_nat (length k)) ks)
  <= Z.of_nat n * sizeof (if exp_flow then t_exp_kern_spec_union else t_kern_spec_union).
Proof.
  intros E Hexp. change (sizeof (if exp_flow then _ else _))
    with (sizeof (if exp_flow then t_exp_kern_spec_union else t_kern_spec_union)).
  assert (forall m bs t, flow_is_exp (S m) bs = Ok false -> spec_type bs = Ok t ->
    exp_type t = false) as Hf.
  { intros m bs t Hx Ht. cbn [flow_is_exp] in Hx. rewrite Ht in Hx. cbn [mbind res_bind] in Hx.
    by destruct (exp_type t). }
  assert (sumZ (map (fun k => Z.of_nat (length k)) ks) <= Z.of_nat n * 88) as H88.
  { apply (translate_bound (fun _ => True) 88 is_exp n specs ks); auto.
    intros bs t k _ Ht Hk. by destruct (spec_length _ _ _ _ Ht Hk). }
  destruct exp_flow; [exact H88|]. change (sizeof t_kern_spec_union) with 48.
  destruct is_exp.
  - destruct Hexp as [?|Hx]; [done|].
    apply (translate_bound (fun t => exp_type t = false) 48 true n specs ks); auto.
    intros bs t k HP Ht Hk. destruct (spec_length _ _ _ _ Ht Hk) as [_ H48]. auto.
  - apply (translate_bound (fun _ => True) 48 false n specs ks); auto.
    intros bs t k _ Ht Hk. destruct (spec_length _ _ _ _ Ht Hk) as [_ H48]. auto.
Qed.

(** An Ethernet spec: header, value and mask. *)
Definition eth_spec (val mask : list Z) : list Z :=
  le_split 4 SPEC_ETH ++ le_split 2 40 ++ val ++ mask ++ [0; 0].

Lemma translated_specs_fit_witness :
  let specs := eth_spec (replicate 16 255) (replicate 16 255) in
  exists k, translate 1 specs true = Ok (inr [k]) /\ Z.of_nat (length k) + 0 <= 48.
Proof.
  intros specs. eexists. split; [vm_compute; reflexivity|].
  apply (translated_specs_fit 1 specs true false [_]); [vm_compute; reflexivity|].
  right. vm_compute. reflexivity.
Defined.

(** The plain interface looks for experimental specs eight bytes too far: a flow
    whose first spec is an Ethernet spec is announced to the router as experimental
    when the fourth byte of its destination address is odd. *)
Theorem create_flow_misreads_mac_as_type n m0 m1 m2 m3 m4 m5 rest :
  0 <= m2 < 256 -> 0 <= m3 < 256 -> 0 <= m4 < 256 -> 0 <= m5 < 256 -> Z.odd m3 = true ->
  let specs := le_split 4 SPEC_ETH ++ le_split 2 40 ++ [m0; m1; m2; m3; m4; m5] ++ rest in
  flow_is_exp (S n)
    (drop (Z.to_nat (sizeof t_exp_flow_attr - (sizeof t_flow_attr - 4))) specs) = Ok true.
Proof.
  intros H2 H3 H4 H5 Hodd specs.
  change (drop (Z.to_nat (sizeof t_exp_flow_attr - (sizeof t_flow_attr - 4))) specs)
    with (m2 :: m3 :: m4 :: m5 :: rest).
  cbn [flow_is_exp]. unfold spec_type, bytes_at.
  destruct (Z.ltb_spec (Z.of_nat (length (m2 :: m3 :: m4 :: m5 :: rest))) (0 + 4));
    [simpl in *; lia|].
  cbn [orb Z.ltb mbind res_bind slice Z.to_nat drop take le_combine]. simpl orb. cbn [mbind res_bind].
  match goal with |- context [exp_type ?t] => set (t0 := t) end.
  assert (Z.testbit t0 8 = true) as Hbit.
  { assert (t0 = m2 + (m3 + 256 * (m4 + 256 * m5)) * 256) as -> by (unfold t0; simpl; lia).
    rewrite Z.testbit_odd, Z.shiftr_div_pow2 by lia. change (2 ^ 8) with 256.
    rewrite Z.div_add, Z.div_small by lia. rewrite Z.add_0_l.
    rewrite Z.odd_add, Hodd, Z.odd_mul. done. }
  assert (has t0 SPEC_INNER = true) as Hh.
  { unfold has, SPEC_INNER. apply negb_true_iff, Z.eqb_neq. intros E0.
    apply (f_equal (fun x => Z.testbit x 8)) in E0.
    rewrite Z.land_spec, Hbit in E0. discriminate E0. }
  unfold exp_type. by rewrite Hh, orb_true_r.
Qed.

Lemma create_flow_misreads_mac_as_type_witness :
  flow_is_exp 1 (drop 8 (eth_spec [0; 2; 201; 1; 2; 3; 0; 0; 0; 0; 0; 0; 0; 0; 0; 0]
    (replicate 16 255))) = Ok true /\
  flow_is_exp 1 (eth_spec [0; 2; 201; 1; 2; 3; 0; 0; 0; 0; 0; 0; 0; 0; 0; 0]
    (replicate 16 255)) = Ok false.
Proof.
  split; [|vm_compute; reflexivity].
  apply (create_flow_misreads_mac_as_type 0 0 2 201 1 2 3
    ([0; 0; 0; 0; 0; 0; 0; 0; 0; 0] ++ replicate 16 255 ++ [0; 0])); try lia; reflexivity.
Defined.

(** A flow of 25 Ethernet specs, which the interface allows (the count is a
    byte), overruns the 1024-byte buffer of the request. *)
Theorem create_flow_overruns_request {M} (p : proc M) abi_ver qp type prio port flags ptr :
  ibv_exp_cmd_create_flow p abi_ver qp (mkFlowAttr type prio 25 port flags)
    (concat (replicate 25 (eth_spec (replicate 16 255) (replicate 16 255)))) ptr = Ub.
Proof.
  unfold ibv_exp_cmd_create_flow, cmd_create_flow. simpl fa_num_of_specs.
  set (specs := concat _). change (Z.to_nat 25) with 25%nat.
  assert (flow_is_exp 25 specs = Ok false) as -> by (vm_compute; reflexivity).
  cbn [mbind res_bind].
  destruct (translate 25 specs true) as [[e|ks]| | |] eqn:E; try (vm_compute in E; discriminate E).
  assert (map (fun k => Z.of_nat (length k)) ks = replicate 25 40) as Hks.
  { vm_compute in E. injection E as <-. vm_compute. reflexivity. }
  cbn [mbind res_bind]. rewrite Hks.
  unfold cmd_room. simpl fa_num_of_specs.
  change (_ <? sizeof t_ibv_create_flow + sumZ (replicate 25 40)) with false. cbn iota.
  unfold create_flow_cmd. rewrite Hks.
  change (1024 <? sizeof t_ibv_create_flow + u16 (sumZ (replicate 25 40))) with true. done.
Qed.
