(* ===== verification/Indexer.v ===== *)
(** * librdmacm's indexer

    [indexer.c]: pointers are stored in blocks of 1024 entries; the index of an
    entry is handed to the user.  A free entry holds, in the same 8 bytes, the
    index of the next free entry: writing [next] leaves the upper half of the old
    pointer in place.  [index_map] associates pointers with given indices. *)

From S2P Require Import Prelude.

Definition IDX_INDEX_BITS : Z := 16.
Definition IDX_ENTRY_BITS : Z := 10.
Definition IDX_ENTRY_SIZE : Z := Z.shiftl 1 IDX_ENTRY_BITS.
Definition IDX_ARRAY_SIZE : Z := Z.shiftl 1 (IDX_INDEX_BITS - IDX_ENTRY_BITS).
Definition IDX_MAX_INDEX : Z := Z.shiftl 1 IDX_INDEX_BITS - 1.

Definition idx_array_index (index : Z) : Z := Z.shiftr index IDX_ENTRY_BITS.
Definition idx_entry_index (index : Z) : Z := Z.land index (IDX_ENTRY_SIZE - 1).

(** [array]: the allocated blocks, at the array indices [0 .. size - 1]. *)
Record indexer : Type := mkIndexer {
  array : list (list Z);
  free_list : Z }.

Definition size (x : indexer) : Z := Z.of_nat (length (array x)).

(** The caller's initialisation: everything 0. *)
Definition idx_init : indexer := mkIndexer [] 0.

(** [union idx_entry]: the same 8 bytes as a pointer or as an [int]. *)
Definition entry_next (e : Z) : Z := s32 e.
Definition write_next (e n : Z) : Z := Z.shiftl (Z.shiftr e 32) 32 + u32 n.

Definition entry_get (x : indexer) (index : Z) : res Z :=
  if index <? 0 then Ub else
  b ← of_option (array x !! Z.to_nat (idx_array_index index));
  of_option (b !! Z.to_nat (idx_entry_index index)).

Definition entry_set (x : indexer) (index e : Z) : res indexer :=
  if index <? 0 then Ub else
  b ← of_option (array x !! Z.to_nat (idx_array_index index));
  Ok (mkIndexer (<[Z.to_nat (idx_array_index index) :=
                     <[Z.to_nat (idx_entry_index index) := e]> b]> (array x)) (free_list x)).

Definition set_free (n : Z) (x : indexer) : indexer := mkIndexer (array x) n.

(** [mem]: whether [calloc] succeeds.  A negative result: no memory. *)
Definition idx_grow (mem : bool) (x : indexer) : indexer * Z :=
  if IDX_ARRAY_SIZE <=? size x then (x, -1) else
  if negb mem then (x, -1) else
  let start_index := Z.shiftl (size x) IDX_ENTRY_BITS in
  let entry := map (fun i => write_next 0 (start_index + i + 1)) (seqZ 0 (IDX_ENTRY_SIZE - 1))
               ++ [write_next 0 (free_list x)] in
  let first := if start_index =? 0 then start_index + 1 else start_index in
  (mkIndexer (array x ++ [entry]) first, first).

Definition idx_insert (mem : bool) (x : indexer) (item : Z) : res (indexer * Z) :=
  let '(x1, index) := if free_list x =? 0 then idx_grow mem x else (x, free_list x) in
  if index <=? 0 then Ok (x1, index) else
  e ← entry_get x1 index;
  x2 ← entry_set (set_free (entry_next e) x1) index item;
  Ok (x2, index).

Definition idx_remove (x : indexer) (index : Z) : res (indexer * Z) :=
  item ← entry_get x index;
  x1 ← entry_set x index (write_next item (free_list x));
  Ok (set_free index x1, item).

Definition idx_replace (x : indexer) (index item : Z) : res indexer :=
  entry_set x index item.

Definition idx_at (x : indexer) (index : Z) : res Z := entry_get x index.

(** ** Index maps *)

Abbreviation index_map := (gmap Z (list Z)).

(** Grows by a block when the slot has none. *)
Definition idm_grow (mem : bool) (m : index_map) (index : Z) : index_map * Z :=
  if mem then (<[idx_array_index index := replicate (Z.to_nat IDX_ENTRY_SIZE) 0]> m, index)
  else (m, -1).

Definition idm_set (mem : bool) (m : index_map) (index item : Z) : res (index_map * Z) :=
  if IDX_MAX_INDEX <? index then Ok (m, -1) else
  if index <? 0 then Ub else
  let '(m1, r) := match m !! idx_array_index index with
                  | None => idm_grow mem m index
                  | Some _ => (m, index)
                  end in
  if r <? 0 then Ok (m1, -1) else
  entry ← of_option (m1 !! idx_array_index index);
  Ok (<[idx_array_index index := <[Z.to_nat (idx_entry_index index) := item]> entry]> m1,
      index).

Definition idm_at (m : index_map) (index : Z) : res Z :=
  if (index <? 0) || (IDX_MAX_INDEX <? index) then Ub else
  entry ← of_option (m !! idx_array_index index);
  of_option (entry !! Z.to_nat (idx_entry_index index)).

Definition idm_clear (m : index_map) (index : Z) : res (index_map * Z) :=
  item ← idm_at m index;
  entry ← of_option (m !! idx_array_index index);
  Ok (<[idx_array_index index := <[Z.to_nat (idx_entry_index index) := 0]> entry]> m, item).

Definition idm_lookup (m : index_map) (index : Z) : res Z :=
  if index <=? IDX_MAX_INDEX then
    if index <? 0 then Ub else
    match m !! idx_array_index index with
    | Some _ => idm_at m index
    | None => Ok 0
    end
  else Ok 0.

(** ** Blocks as one array *)

Lemma idx_split i : 0 <= i ->
  i = 1024 * idx_array_index i + idx_entry_index i /\
  0 <= idx_array_index i /\ 0 <= idx_entry_index i < 1024.
Proof.
  intros Hi. unfold idx_array_index, idx_entry_index, IDX_ENTRY_BITS.
  change (IDX_ENTRY_SIZE - 1) with (Z.ones 10).
  rewrite Z.land_ones, Z.shiftr_div_pow2 by lia. change (2 ^ 10) with 1024.
  pose proof (Z.div_mod i 1024 ltac:(lia)). pose proof (Z.mod_pos_bound i 1024 ltac:(lia)).
  pose proof (Z.div_pos i 1024 Hi ltac:(lia)). lia.
Qed.

Lemma lookup_concat_uniform {A} (n : nat) (l : list (list A)) : forall (a e : nat),
  Forall (fun b => length b = n) l -> (e < n)%nat ->
  concat l !! (n * a + e)%nat = (l !! a) ≫= (fun b => b !! e).
Proof.
  induction l as [|b l IH]; intros a e Hl He; [done|].
  apply Forall_cons in Hl as [Hb Hl]. cbn [concat]. destruct a as [|a]; simpl.
  - rewrite lookup_app_l by lia. by rewrite Nat.mul_0_r.
  - rewrite lookup_app_r by lia. rewrite <- IH by done. f_equal. lia.
Qed.

Lemma insert_concat_uniform {A} (n : nat) (l : list (list A)) : forall (a e : nat) b v,
  Forall (fun b => length b = n) l -> (e < n)%nat -> l !! a = Some b ->
  concat (<[a := <[e := v]> b]> l) = <[(n * a + e)%nat := v]> (concat l).
Proof.
  induction l as [|c l IH]; intros a e b v Hl He Hb; [done|].
  apply Forall_cons in Hl as [Hc Hl]. destruct a as [|a]; simpl in *.
  - injection Hb as ->. rewrite insert_app_l by lia. by rewrite Nat.mul_0_r.
  - rewrite (IH _ _ b) by done. replace (n * S a + e)%nat with (length c + (n * a + e))%nat by lia.
    by rewrite insert_app_r.
Qed.

Definition flat (x : indexer) : list Z := concat (array x).
Definition blocks_ok (x : indexer) : Prop := Forall (fun b => length b = 1024%nat) (array x).

Lemma flat_length x : blocks_ok x -> Z.of_nat (length (flat x)) = 1024 * size x.
Proof.
  unfold blocks_ok, flat, size. intros Hb. induction Hb as [|b l Hb _ IH]; [done|].
  cbn [concat length]. rewrite length_app, Hb, Nat2Z.inj_add, IH. lia.
Qed.

Lemma entry_get_flat x i : blocks_ok x -> 0 <= i ->
  entry_get x i = of_option (flat x !! Z.to_nat i).
Proof.
  intros Hb Hi. destruct (idx_split i Hi) as (Ei & Ha & He). unfold entry_get.
  destruct (Z.ltb_spec i 0); [lia|].
  replace (Z.to_nat i)
    with (1024 * Z.to_nat (idx_array_index i) + Z.to_nat (idx_entry_index i))%nat by lia.
  unfold flat. rewrite lookup_concat_uniform by (done || lia).
  by destruct (array x !! _).
Qed.

Lemma entry_set_flat x i e : blocks_ok x -> 0 <= i < 1024 * size x ->
  exists x', entry_set x i e = Ok x' /\ flat x' = <[Z.to_nat i := e]> (flat x) /\
    blocks_ok x' /\ size x' = size x /\ free_list x' = free_list x.
Proof.
  intros Hb Hi. destruct (idx_split i ltac:(lia)) as (Ei & Ha & He). unfold entry_set.
  destruct (Z.ltb_spec i 0); [lia|]. unfold size in Hi.
  destruct (lookup_lt_is_Some_2 (array x) (Z.to_nat (idx_array_index i))) as (b & Eb); [lia|].
  rewrite Eb. simpl. eexists. split; [reflexivity|]. unfold flat, blocks_ok, size. simpl.
  rewrite (insert_concat_uniform 1024) by (done || lia).
  replace (1024 * Z.to_nat (idx_array_index i) + Z.to_nat (idx_entry_index i))%nat
    with (Z.to_nat i) by lia.
  split_and!; [done| |by rewrite length_insert|done].
  apply Forall_insert; [done|]. rewrite length_insert.
  by apply (Forall_lookup_1 _ _ _ _ Hb Eb).
Qed.

Lemma entry_next_write e n : 0 <= n < 2 ^ 31 -> entry_next (write_next e n) = n.
Proof.
  intros Hn. unfold entry_next, write_next.
  rewrite (u32_small n) by lia. rewrite Z.shiftl_mul_pow2 by lia.
  unfold s32, u32. rewrite Z.add_comm, Z.mod_add by lia. rewrite Z.mod_small by lia.
  destruct (Z.ltb_spec n (2 ^ 31)); lia.
Qed.

(** ** The invariant *)

(** The free entries [l], linked from [h]. *)
Fixpoint free_chain (f : list Z) (h : Z) (l : list Z) : Prop :=
  match l with
  | [] => h = 0
  | i :: l' => h = i /\ 0 < i /\
      exists e, f !! Z.to_nat i = Some e /\ free_chain f (entry_next e) l'
  end.

Record holds_with (x : indexer) (g : gmap Z Z) (l : list Z) : Prop := {
  hw_blocks : blocks_ok x;
  hw_size : size x <= 64;
  hw_chain : free_chain (flat x) (free_list x) l;
  hw_nodup : NoDup l;
  hw_free : Forall (fun i => i < 1024 * size x /\ g !! i = None) l;
  hw_live : forall i v, g !! i = Some v ->
    0 < i < 1024 * size x /\ flat x !! Z.to_nat i = Some v;
  hw_all : forall i, 0 < i < 1024 * size x -> i ∈ l \/ is_Some (g !! i) }.

(** [x] stores exactly the items of [g]. *)
Definition holds (x : indexer) (g : gmap Z Z) : Prop := exists l, holds_with x g l.

Lemma free_chain_insert f h l k e :
  k ∉ map Z.to_nat l -> free_chain f h l -> free_chain (<[k := e]> f) h l.
Proof.
  revert h. induction l as [|i l IH]; intros h Hk Hc; simpl in *; [done|].
  destruct Hc as (-> & Hi & e' & He & Hc). split_and!; auto.
  exists e'. rewrite list_lookup_insert_ne by set_solver.
  split; [done|]. apply IH; [set_solver|done].
Qed.

Lemma free_chain_pos f h l : free_chain f h l -> Forall (fun i => 0 < i) l.
Proof.
  revert h. induction l as [|i l IH]; intros h Hc; [done|].
  destruct Hc as (_ & Hi & e & _ & Hc). constructor; eauto.
Qed.

Lemma not_in_nats l k : Forall (fun i => 0 < i) l -> 0 < k -> k ∉ l ->
  Z.to_nat k ∉ map Z.to_nat l.
Proof.
  intros Hp Hk Hn Hin. apply list_elem_of_fmap in Hin as (i & Ei & Hi).
  rewrite Forall_forall in Hp. specialize (Hp i Hi).
  assert (k = i) by lia. by subst.
Qed.

Lemma init_holds : holds idx_init ∅.
Proof.
  exists []. split; try done; try apply Forall_nil_2; try apply NoDup_nil_2.
  intros i Hi. unfold size in Hi. simpl in Hi. lia.
Qed.

Lemma at_holds x g i v : holds x g -> g !! i = Some v -> idx_at x i = Ok v.
Proof.
  intros [l []] Hg. destruct (hw_live0 i v Hg) as [Hi Hf].
  unfold idx_at. rewrite entry_get_flat by (done || lia). by rewrite Hf.
Qed.

(** Taking the first free entry. *)
Lemma insert_free x g i l item :
  holds_with x g (i :: l) ->
  exists x', idx_insert true x item = Ok (x', i) /\ holds_with x' (<[i := item]> g) l.
Proof.
  intros []. destruct hw_chain0 as (Efl & Hi & e & He & Hc).
  apply NoDup_cons in hw_nodup0 as [Hnin Hnd].
  apply Forall_cons in hw_free0 as [[Hlt Hgi] Hfr].
  unfold idx_insert. rewrite Efl. destruct (Z.eqb_spec i 0); [lia|].
  destruct (Z.leb_spec i 0); [lia|].
  rewrite entry_get_flat, He by (done || lia). cbn [of_option mbind res_bind].
  destruct (entry_set_flat (set_free (entry_next e) x) i item) as (x' & -> & Ef & Hb & Hs & Hl);
    [done|change (size (set_free (entry_next e) x)) with (size x); lia|].
  change (flat (set_free (entry_next e) x)) with (flat x) in Ef.
  change (size (set_free (entry_next e) x)) with (size x) in Hs. simpl in Hl.
  cbn [mbind res_bind]. exists x'. split; [done|].
  pose proof (free_chain_pos _ _ _ Hc) as Hpos.
  split; rewrite ?Hs, ?Ef, ?Hl; auto.
  - apply free_chain_insert; [|done]. by apply not_in_nats.
  - rewrite Forall_forall in Hfr |- *. intros k Hk. destruct (Hfr k Hk) as [H1 H2].
    split; [done|]. rewrite lookup_insert_ne; [done|]. by intros ->.
  - intros k v. rewrite lookup_insert. case_decide as Hd.
    + intros [= <-]. subst k. split; [lia|]. apply list_lookup_insert_eq.
      by apply lookup_lt_Some in He.
    + intros Hg. destruct (hw_live0 k v Hg) as [Hk Hf]. split; [done|].
      rewrite list_lookup_insert_ne by lia. done.
  - intros k Hk. rewrite lookup_insert. case_decide; [right; eauto|].
    destruct (hw_all0 k Hk) as [Hin|]; [|by right].
    apply elem_of_cons in Hin as [->|]; [done|by left].
Qed.

Lemma remove_holds x g i v :
  holds x g -> g !! i = Some v ->
  exists x', idx_remove x i = Ok (x', v) /\ holds x' (delete i g).
Proof.
  intros [l []] Hg. destruct (hw_live0 i v Hg) as [Hi Hf].
  pose proof (free_chain_pos _ _ _ hw_chain0) as Hpos.
  assert (i ∉ l) as Hnin.
  { intros Hin. rewrite Forall_forall in hw_free0. destruct (hw_free0 i Hin). congruence. }
  unfold idx_remove. rewrite entry_get_flat, Hf by (done || lia).
  cbn [of_option mbind res_bind].
  destruct (entry_set_flat x i (write_next v (free_list x))) as (x' & -> & Ef & Hb & Hs & Hl);
    [done|lia|].
  cbn [mbind res_bind]. eexists. split; [reflexivity|]. exists (i :: l).
  assert (0 <= free_list x < 2 ^ 31) as Hfl.
  { destruct l as [|k l]; simpl in hw_chain0; [lia|]. destruct hw_chain0 as (-> & ? & _).
    apply Forall_cons in hw_free0 as [[? _] _]. lia. }
  split; simpl; rewrite ?Hs; change (flat (set_free i x')) with (flat x');
    change (size (set_free i x')) with (size x'); rewrite ?Ef, ?Hs; auto.
  - split_and!; [done|lia|]. eexists. split.
    + apply list_lookup_insert_eq. by apply lookup_lt_Some in Hf.
    + rewrite entry_next_write by done. apply free_chain_insert; [|done].
      apply not_in_nats; [done|lia|done].
  - by constructor.
  - constructor; [split; [lia|apply lookup_delete_eq]|].
    rewrite Forall_forall in hw_free0 |- *. intros k Hk. destruct (hw_free0 k Hk).
    split; [done|]. rewrite lookup_delete_ne; [done|]. by intros ->.
  - intros k w. rewrite lookup_delete. case_decide; [done|]. intros Hk.
    destruct (hw_live0 k w Hk). split; [done|]. rewrite list_lookup_insert_ne by lia. done.
  - intros k Hk. rewrite lookup_delete. case_decide; [subst; left; set_solver|].
    destruct (hw_all0 k Hk); [left; set_solver|by right].
Qed.

Lemma replace_holds x g i v item :
  holds x g -> g !! i = Some v ->
  exists x', idx_replace x i item = Ok x' /\ holds x' (<[i := item]> g).
Proof.
  intros [l []] Hg. destruct (hw_live0 i v Hg) as [Hi Hf].
  pose proof (free_chain_pos _ _ _ hw_chain0) as Hpos.
  assert (i ∉ l) as Hnin.
  { intros Hin. rewrite Forall_forall in hw_free0. destruct (hw_free0 i Hin). congruence. }
  unfold idx_replace.
  destruct (entry_set_flat x i item) as (x' & -> & Ef & Hb & Hs & Hl); [done|lia|].
  exists x'. split; [done|]. exists l. split; rewrite ?Hs, ?Ef, ?Hl; auto.
  - apply free_chain_insert; [|done]. apply not_in_nats; [done|lia|done].
  - rewrite Forall_forall in hw_free0 |- *. intros k Hk. destruct (hw_free0 k Hk).
    split; [done|]. rewrite lookup_insert_ne; [done|]. by intros ->.
  - intros k w. rewrite lookup_insert. case_decide as Hd.
    + intros [= <-]. subst k. split; [done|]. apply list_lookup_insert_eq.
      by apply lookup_lt_Some in Hf.
    + intros Hk. destruct (hw_live0 k w Hk). split; [done|].
      rewrite list_lookup_insert_ne by lia. done.
  - intros k Hk. rewrite lookup_insert. case_decide; [right; eauto|].
    destruct (hw_all0 k Hk); auto.
Qed.

(** A fresh block, linked up to its last entry. *)
Lemma chain_seqZ f E : forall (n : nat) k,
  0 < k -> E = k + Z.of_nat n -> (0 < n)%nat -> E < 2 ^ 31 ->
  (forall j, k <= j < E - 1 -> f !! Z.to_nat j = Some (write_next 0 (j + 1))) ->
  f !! Z.to_nat (E - 1) = Some (write_next 0 0) ->
  free_chain f k (seqZ k (Z.of_nat n)).
Proof.
  induction n as [|n IH]; intros k Hk HE Hn Hmax Hj Hlast; [lia|].
  rewrite seqZ_cons by lia. simpl. split_and!; [done|done|].
  destruct n as [|n].
  - exists (write_next 0 0). split; [|done].
    by replace k with (E - 1) by lia.
  - exists (write_next 0 (k + 1)). split; [apply Hj; lia|].
    rewrite entry_next_write by lia.
    replace (Z.pred (Z.of_nat (S (S n)))) with (Z.of_nat (S n)) by lia.
    apply IH; try lia; [|done]. intros j Hjj. apply Hj. lia.
Qed.

Lemma grow_holds x g :
  holds_with x g [] -> size x < 64 ->
  exists i l, snd (idx_grow true x) = i /\ free_list (fst (idx_grow true x)) = i /\
    holds_with (fst (idx_grow true x)) g (i :: l).
Proof.
  intros [] Hs. simpl in hw_chain0. pose proof (flat_length _ hw_blocks0) as Hlen.
  unfold idx_grow. change IDX_ARRAY_SIZE with 64. destruct (Z.leb_spec 64 (size x)); [lia|].
  cbn [negb]. rewrite hw_chain0. change (IDX_ENTRY_SIZE - 1) with 1023.
  assert (0 <= size x) as Hs0 by (unfold size; lia).
  assert (Z.shiftl (size x) IDX_ENTRY_BITS = 1024 * size x) as ->
    by (unfold IDX_ENTRY_BITS; rewrite Z.shiftl_mul_pow2 by lia; lia).
  set (start := 1024 * size x) in *.
  set (first := if start =? 0 then start + 1 else start).
  set (entry := map (fun i => write_next 0 (start + i + 1)) (seqZ 0 1023) ++ [write_next 0 0]).
  assert (length entry = 1024%nat) as Hle
    by (unfold entry; rewrite length_app, length_map, length_seqZ; reflexivity).
  assert (0 < first /\ start <= first <= start + 1) as Hfirst
    by (unfold first; destruct (Z.eqb_spec start 0); lia).
  cbn [fst snd free_list]. exists first, (seqZ (Z.succ first) (Z.pred (start + 1024 - first))).
  rewrite <- seqZ_cons by lia. split_and!; [done|done|].
  set (x1 := mkIndexer (array x ++ [entry]) first).
  assert (size x1 = size x + 1) as Hs1 by (unfold size, x1; simpl; rewrite length_app; simpl; lia).
  assert (flat x1 = flat x ++ entry) as Hf1
    by (unfold flat, x1; cbn [array]; rewrite concat_app; cbn [concat]; by rewrite app_nil_r).
  assert (forall j, start <= j < start + 1024 ->
    flat x1 !! Z.to_nat j = entry !! Z.to_nat (j - start)) as Hnew.
  { intros j Hj. rewrite Hf1, lookup_app_r by lia. f_equal. lia. }
  split; rewrite ?Hs1.
  - apply Forall_app. split; [done|]. by repeat constructor.
  - lia.
  - replace (start + 1024 - first) with (Z.of_nat (Z.to_nat (start + 1024 - first))) by lia.
    apply (chain_seqZ _ (start + 1024)); try lia.
    + intros j Hj. rewrite Hnew by lia. unfold entry.
      rewrite lookup_app_l by (rewrite length_map, length_seqZ; lia).
      rewrite list_lookup_fmap, lookup_seqZ_lt by lia. simpl. do 2 f_equal. lia.
    + rewrite Hnew by lia. unfold entry.
      rewrite lookup_app_r by (rewrite length_map, length_seqZ; lia).
      rewrite length_map, length_seqZ.
      by replace (Z.to_nat (start + 1024 - 1 - start) - Z.to_nat 1023)%nat with 0%nat by lia.
  - apply NoDup_seqZ.
  - apply Forall_forall. intros k Hk. apply elem_of_seqZ in Hk. split; [lia|].
    destruct (g !! k) eqn:Eg; [|done]. destruct (hw_live0 _ _ Eg). lia.
  - intros k v Hg. destruct (hw_live0 k v Hg) as [Hk Hf]. split; [lia|].
    rewrite Hf1. by rewrite lookup_app_l by (apply lookup_lt_Some in Hf; lia).
  - intros k Hk. destruct (decide (k < start)) as [Hlt|Hge].
    + destruct (hw_all0 k ltac:(lia)) as [Hin|]; [by apply elem_of_nil in Hin|by right].
    + left. apply elem_of_seqZ. unfold first. destruct (Z.eqb_spec start 0); lia.
Qed.

Lemma insert_holds mem x g item :
  holds x g ->
  exists x' r, idx_insert mem x item = Ok (x', r) /\
    ((0 < r <= IDX_MAX_INDEX /\ g !! r = None /\ holds x' (<[r := item]> g)) \/
     (r = -1 /\ x' = x /\
      (mem = false \/ forall i, 0 < i <= IDX_MAX_INDEX -> is_Some (g !! i)))).
Proof.
  intros [l Hw]. destruct l as [|i l].
  - pose proof Hw as Hw'. destruct Hw' as [_ Hsz Hc _ _ _ Hall]. simpl in Hc.
    unfold idx_insert. rewrite Hc, Z.eqb_refl.
    destruct (decide (size x = 64)) as [Hfull|Hn].
    { exists x, (-1). unfold idx_grow. rewrite Hfull. simpl. split; [done|]. right.
      split_and!; [done|done|]. right. intros i Hi.
      destruct (Hall i) as [Hin|]; [|by apply elem_of_nil in Hin|done].
      rewrite Hfull. change IDX_MAX_INDEX with 65535 in Hi. lia. }
    destruct mem.
    2: { exists x, (-1). unfold idx_grow. change IDX_ARRAY_SIZE with 64.
         destruct (Z.leb_spec 64 (size x)); [lia|]. simpl. split; [done|]. right. auto. }
    destruct (grow_holds x g Hw) as (i & l & Ei & Efl & Hg); [lia|].
    destruct (insert_free _ _ _ _ item Hg) as (x' & E & Hx'). unfold idx_insert in E.
    rewrite Efl in E.
    assert (0 < i) as Hi by (destruct Hg as [_ _ (_ & ? & _)]; done).
    destruct (Z.eqb_spec i 0); [lia|].
    destruct (idx_grow true x) as [x1 i1]. simpl in *. subst i1.
    exists x', i. split; [exact E|]. left.
    destruct Hg as [_ Hs _ _ Hfr _ _]. apply Forall_cons in Hfr as [[? ?] _].
    change IDX_MAX_INDEX with 65535. split_and!; [lia|lia|done|by exists l].
  - destruct (insert_free x g i l item Hw) as (x' & E & Hx').
    exists x', i. destruct Hw as [_ Hs (Efl & Hi & _) _ Hfr _ _].
    apply Forall_cons in Hfr as [[? ?] _]. split.
    + rewrite <- E. unfold idx_insert. rewrite Efl. by destruct (Z.eqb_spec i 0); [lia|].
    + left. change IDX_MAX_INDEX with 65535. split_and!; [lia|lia|done|by exists l].
Qed.

(** C39: The indexer implements a map from small integers to items: it starts empty;
    an insertion returns an unused index in 1 .. 65535 and stores the item there,
    and fails, changing nothing, only when memory runs out or all 65535 indices
    are in use; looking up, replacing and removing a used index give or change
    exactly its item; no operation disturbs the other items. *)
Theorem indexer_implements_map :
  holds idx_init ∅ /\
  (forall mem x g item, holds x g -> exists x' r, idx_insert mem x item = Ok (x', r) /\
     ((0 < r <= IDX_MAX_INDEX /\ g !! r = None /\ holds x' (<[r := item]> g)) \/
      (r = -1 /\ x' = x /\
       (mem = false \/ forall i, 0 < i <= IDX_MAX_INDEX -> is_Some (g !! i))))) /\
  (forall x g i v, holds x g -> g !! i = Some v -> idx_at x i = Ok v) /\
  (forall x g i v, holds x g -> g !! i = Some v ->
     exists x', idx_remove x i = Ok (x', v) /\ holds x' (delete i g)) /\
  (forall x g i v item, holds x g -> g !! i = Some v ->
     exists x', idx_replace x i item = Ok x' /\ holds x' (<[i := item]> g)).
Proof.
  split_and!; eauto using init_holds, insert_holds, at_holds, remove_holds, replace_holds.
Qed.

(** ** Index maps *)

Definition idm_wf (m : index_map) : Prop :=
  forall a b, m !! a = Some b -> length b = Z.to_nat IDX_ENTRY_SIZE.

Lemma idx_inj i j : 0 <= i -> 0 <= j ->
  idx_array_index i = idx_array_index j -> idx_entry_index i = idx_entry_index j -> i = j.
Proof. intros Hi Hj Ea Ee. destruct (idx_split i Hi), (idx_split j Hj). lia. Qed.

(** Storing at [i] in its block. *)
Lemma idm_store_lookup m i b v :
  0 <= i <= IDX_MAX_INDEX -> idm_wf m -> m !! idx_array_index i = Some b ->
  let m' := <[idx_array_index i := <[Z.to_nat (idx_entry_index i) := v]> b]> m in
  idm_wf m' /\ idm_lookup m' i = Ok v /\
  forall j, 0 <= j -> j <> i -> idm_lookup m' j = idm_lookup m j.
Proof.
  intros Hi Hwf Hb m'. destruct (idx_split i ltac:(lia)) as (Ei & Ha & He).
  pose proof (Hwf _ _ Hb) as Hlb. change (Z.to_nat IDX_ENTRY_SIZE) with 1024%nat in Hlb.
  split_and!.
  - intros a c. unfold m'. rewrite lookup_insert. case_decide; [|apply Hwf].
    intros [= <-]. by rewrite length_insert.
  - unfold idm_lookup, idm_at. destruct (Z.leb_spec i IDX_MAX_INDEX); [|lia].
    destruct (Z.ltb_spec i 0); [lia|]. unfold m'. rewrite lookup_insert_eq.
    destruct (Z.ltb_spec IDX_MAX_INDEX i); [lia|]. simpl.
    by rewrite list_lookup_insert_eq by lia.
  - intros j Hj Hne. unfold idm_lookup, idm_at, m'.
    destruct (j <=? IDX_MAX_INDEX); [|done]. destruct (Z.ltb_spec j 0); [lia|].
    rewrite lookup_insert. case_decide as Hd; [|done].
    rewrite <- Hd, Hb. destruct (IDX_MAX_INDEX <? j); [done|]. simpl.
    rewrite list_lookup_insert_ne; [done|].
    intros Hn. apply Hne. apply idx_inj; try lia.
    destruct (idx_split j Hj) as (_ & _ & Hej). lia.
Qed.

(** The map with a block for index [i]. *)
Definition idm_with_block (m : index_map) (i : Z) : index_map :=
  match m !! idx_array_index i with
  | None => <[idx_array_index i := replicate (Z.to_nat IDX_ENTRY_SIZE) 0]> m
  | Some _ => m
  end.

Lemma idm_with_block_ok m i : 0 <= i -> idm_wf m ->
  is_Some (idm_with_block m i !! idx_array_index i) /\ idm_wf (idm_with_block m i) /\
  forall j, 0 <= j -> idm_lookup (idm_with_block m i) j = idm_lookup m j.
Proof.
  intros Hi Hwf. unfold idm_with_block. destruct (m !! idx_array_index i) eqn:E; [by eauto|].
  split; [rewrite lookup_insert_eq; eauto|]. split.
  - intros a c. rewrite lookup_insert. case_decide; [|apply Hwf]. intros Hc.
    assert (c = replicate (Z.to_nat IDX_ENTRY_SIZE) 0) as -> by congruence. apply length_replicate.
  - intros j Hj. unfold idm_lookup, idm_at. destruct (Z.leb_spec j IDX_MAX_INDEX); [|done].
    destruct (Z.ltb_spec j 0); [lia|]. rewrite lookup_insert. case_decide as Hd; [|done].
    rewrite <- Hd, E. destruct (Z.ltb_spec IDX_MAX_INDEX j); [lia|].
    cbn [orb of_option mbind res_bind]. destruct (idx_split j Hj) as (_ & _ & He).
    rewrite lookup_replicate_2; [done|]. change (Z.to_nat IDX_ENTRY_SIZE) with 1024%nat. lia.
Qed.

Lemma idm_set_holds m i v : 0 <= i <= IDX_MAX_INDEX -> idm_wf m ->
  exists m', idm_set true m i v = Ok (m', i) /\ idm_wf m' /\ is_Some (m' !! idx_array_index i) /\
    idm_lookup m' i = Ok v /\ forall j, 0 <= j -> j <> i -> idm_lookup m' j = idm_lookup m j.
Proof.
  intros Hi Hwf. destruct (idm_with_block_ok m i ltac:(lia) Hwf) as ([b Hb] & Hwf1 & Hsame).
  destruct (idm_store_lookup _ i b v Hi Hwf1 Hb) as (Hwf' & Hl & Ho).
  eexists. split; [|split; [exact Hwf'|split; [|split; [exact Hl|]]]].
  - unfold idm_set. destruct (Z.ltb_spec IDX_MAX_INDEX i); [lia|]. destruct (Z.ltb_spec i 0); [lia|].
    assert ((match m !! idx_array_index i with
             | None => idm_grow true m i | Some _ => (m, i) end) = (idm_with_block m i, i)) as ->
      by (unfold idm_with_block, idm_grow; by destruct (m !! idx_array_index i)).
    destruct (Z.ltb_spec i 0); [lia|]. by rewrite Hb.
  - rewrite lookup_insert_eq. eauto.
  - intros j Hj Hne. rewrite Ho by done. by apply Hsame.
Qed.

(** An index map returns what was stored: setting an index in range makes its
    lookup give the item and leaves every other lookup as it was, and clearing it
    returns the item and makes the lookup give null again. *)
Theorem index_map_set_lookup_clear m i v :
  0 <= i <= IDX_MAX_INDEX -> idm_wf m ->
  exists m', idm_set true m i v = Ok (m', i) /\ idm_lookup m' i = Ok v /\
    (forall j, 0 <= j -> j <> i -> idm_lookup m' j = idm_lookup m j) /\
    exists m'', idm_clear m' i = Ok (m'', v) /\ idm_lookup m'' i = Ok 0 /\
      (forall j, 0 <= j -> j <> i -> idm_lookup m'' j = idm_lookup m j).
Proof.
  intros Hi Hwf. destruct (idm_set_holds m i v Hi Hwf) as (m' & Hset & Hwf' & [b Hb] & Hl & Ho).
  exists m'. do 3 (split; [done|]).
  assert (idm_at m' i = Ok v) as Hat.
  { unfold idm_lookup in Hl. destruct (Z.leb_spec i IDX_MAX_INDEX); [|lia].
    destruct (Z.ltb_spec i 0); [lia|]. by rewrite Hb in Hl. }
  unfold idm_clear. rewrite Hat, Hb. cbn [of_option mbind res_bind].
  eexists. split; [reflexivity|].
  destruct (idm_store_lookup _ i _ 0 Hi Hwf' Hb) as (_ & Hl0 & Ho0).
  split; [exact Hl0|]. intros j Hj Hne. rewrite Ho0 by done. by apply Ho.
Qed.

Lemma index_map_set_lookup_clear_witness :
  exists m', idm_set true ∅ 70 4096 = Ok (m', 70) /\ idm_lookup m' 70 = Ok 4096.
Proof.
  destruct (index_map_set_lookup_clear ∅ 70 4096) as (m' & E & Hl & _);
    [split; vm_compute; congruence| |by exists m'].
  intros a b Hab. by rewrite lookup_empty in Hab.
Defined.
