(* ===== verification/Marshall.v ===== *)
(** * Conversions of libibverbs

    marshall.c: the copies between the structs of the library and those of the
    kernel interface, each field stored at the width of its destination.
    verbs.c: the conversions between [enum ibv_rate], multiples of the base rate
    and Mbit/s. *)

From S2P Require Import Prelude.

(** ** Rates *)

(** A C [switch] of constant cases that return: the first case that matches. *)
Fixpoint switch (cases : list (Z * Z)) (dflt x : Z) : Z :=
  match cases with
  | [] => dflt
  | (c, r) :: cases' => if x =? c then r else switch cases' dflt x
  end.

Definition IBV_RATE_MAX : Z := 0.
Definition IBV_RATE_2_5_GBPS : Z := 2.
Definition IBV_RATE_5_GBPS : Z := 5.
Definition IBV_RATE_10_GBPS : Z := 3.
Definition IBV_RATE_20_GBPS : Z := 6.
Definition IBV_RATE_30_GBPS : Z := 4.
Definition IBV_RATE_40_GBPS : Z := 7.
Definition IBV_RATE_60_GBPS : Z := 8.
Definition IBV_RATE_80_GBPS : Z := 9.
Definition IBV_RATE_120_GBPS : Z := 10.
Definition IBV_RATE_14_GBPS : Z := 11.
Definition IBV_RATE_56_GBPS : Z := 12.
Definition IBV_RATE_112_GBPS : Z := 13.
Definition IBV_RATE_168_GBPS : Z := 14.
Definition IBV_RATE_25_GBPS : Z := 15.
Definition IBV_RATE_100_GBPS : Z := 16.
Definition IBV_RATE_200_GBPS : Z := 17.
Definition IBV_RATE_300_GBPS : Z := 18.

Definition ibv_rate_to_mult (rate : Z) : Z :=
  switch [(IBV_RATE_2_5_GBPS, 1); (IBV_RATE_5_GBPS, 2); (IBV_RATE_10_GBPS, 4);
          (IBV_RATE_20_GBPS, 8); (IBV_RATE_30_GBPS, 12); (IBV_RATE_40_GBPS, 16);
          (IBV_RATE_60_GBPS, 24); (IBV_RATE_80_GBPS, 32); (IBV_RATE_120_GBPS, 48)]
    (-1) rate.

Definition mult_to_ibv_rate (mult : Z) : Z :=
  switch [(1, IBV_RATE_2_5_GBPS); (2, IBV_RATE_5_GBPS); (4, IBV_RATE_10_GBPS);
          (8, IBV_RATE_20_GBPS); (12, IBV_RATE_30_GBPS); (16, IBV_RATE_40_GBPS);
          (24, IBV_RATE_60_GBPS); (32, IBV_RATE_80_GBPS); (48, IBV_RATE_120_GBPS)]
    IBV_RATE_MAX mult.

Definition ibv_rate_to_mbps (rate : Z) : Z :=
  switch [(IBV_RATE_2_5_GBPS, 2500); (IBV_RATE_5_GBPS, 5000); (IBV_RATE_10_GBPS, 10000);
          (IBV_RATE_20_GBPS, 20000); (IBV_RATE_30_GBPS, 30000); (IBV_RATE_40_GBPS, 40000);
          (IBV_RATE_60_GBPS, 60000); (IBV_RATE_80_GBPS, 80000); (IBV_RATE_120_GBPS, 120000);
          (IBV_RATE_14_GBPS, 14062); (IBV_RATE_56_GBPS, 56250); (IBV_RATE_112_GBPS, 112500);
          (IBV_RATE_168_GBPS, 168750); (IBV_RATE_25_GBPS, 25781);
          (IBV_RATE_100_GBPS, 103125); (IBV_RATE_200_GBPS, 206250);
          (IBV_RATE_300_GBPS, 309375)]
    (-1) rate.

Definition mbps_to_ibv_rate (mbps : Z) : Z :=
  switch [(2500, IBV_RATE_2_5_GBPS); (5000, IBV_RATE_5_GBPS); (10000, IBV_RATE_10_GBPS);
          (20000, IBV_RATE_20_GBPS); (30000, IBV_RATE_30_GBPS); (40000, IBV_RATE_40_GBPS);
          (60000, IBV_RATE_60_GBPS); (80000, IBV_RATE_80_GBPS); (120000, IBV_RATE_120_GBPS);
          (14062, IBV_RATE_14_GBPS); (56250, IBV_RATE_56_GBPS); (112500, IBV_RATE_112_GBPS);
          (168750, IBV_RATE_168_GBPS); (25781, IBV_RATE_25_GBPS);
          (103125, IBV_RATE_100_GBPS); (206250, IBV_RATE_200_GBPS);
          (309375, IBV_RATE_300_GBPS)]
    IBV_RATE_MAX mbps.

(** ** Structs *)

(** [struct ibv_kern_ah_attr] with its [grh], and the part of [struct ibv_ah_attr]
    the library has: the same fields at the same widths. *)
Record ah_attr : Type := mkAhAttr {
  a_dgid : list Z; a_flow_label : Z; a_sgid_index : Z; a_hop_limit : Z;
  a_traffic_class : Z; a_dlid : Z; a_sl : Z; a_src_path_bits : Z; a_static_rate : Z;
  a_is_global : Z; a_port_num : Z }.

(** [struct ibv_kern_qp_attr] and [struct ibv_qp_attr]; the capabilities are a
    struct [cap] in the second. *)
Record qp_attr : Type := mkQpAttr {
  qp_state : Z; cur_qp_state : Z; path_mtu : Z; path_mig_state : Z; qkey : Z;
  rq_psn : Z; sq_psn : Z; dest_qp_num : Z; qp_access_flags : Z; cap_max_send_wr : Z;
  cap_max_recv_wr : Z; cap_max_send_sge : Z; cap_max_recv_sge : Z;
  cap_max_inline_data : Z; qa_ah_attr : ah_attr; qa_alt_ah_attr : ah_attr;
  pkey_index : Z; alt_pkey_index : Z; qa_en_sqd_async_notify : Z; qa_sq_draining : Z;
  qa_max_rd_atomic : Z; qa_max_dest_rd_atomic : Z; qa_min_rnr_timer : Z;
  qa_port_num : Z; qa_timeout : Z; qa_retry_cnt : Z; qa_rnr_retry : Z;
  qa_alt_port_num : Z; qa_alt_timeout : Z }.

(** [struct ibv_kern_path_rec] (fields of unsigned types, [mtu] of 32 bits) and
    [struct ibv_sa_path_rec] ([raw_traffic] and [reversible] are [int], [mtu] a
    byte). *)
Record path_rec : Type := mkPath {
  dgid : list Z; sgid : list Z; dlid : Z; slid : Z; raw_traffic : Z; flow_label : Z;
  hop_limit : Z; traffic_class : Z; reversible : Z; numb_path : Z; pkey : Z; sl : Z;
  mtu_selector : Z; mtu : Z; rate_selector : Z; rate : Z; packet_life_time_selector : Z;
  packet_life_time : Z; preference : Z }.

(** ** The copies *)

(** [dst] is what the destination held.  Its [enum]s are unsigned and 32 bits wide. *)
Definition ibv_copy_ah_attr_from_kern (dst src : ah_attr) : ah_attr :=
  mkAhAttr (take 16 (a_dgid src)) (u32 (a_flow_label src)) (u8 (a_sgid_index src))
    (u8 (a_hop_limit src)) (u8 (a_traffic_class src)) (u16 (a_dlid src)) (u8 (a_sl src))
    (u8 (a_src_path_bits src)) (u8 (a_static_rate src)) (u8 (a_is_global src))
    (u8 (a_port_num src)).

Definition ibv_copy_qp_attr_from_kern (dst src : qp_attr) : qp_attr :=
  mkQpAttr
    (qp_state dst) (u32 (cur_qp_state src)) (u32 (path_mtu src))
    (u32 (path_mig_state src)) (u32 (qkey src)) (u32 (rq_psn src)) (u32 (sq_psn src))
    (u32 (dest_qp_num src)) (s32 (qp_access_flags src)) (u32 (cap_max_send_wr src))
    (u32 (cap_max_recv_wr src)) (u32 (cap_max_send_sge src))
    (u32 (cap_max_recv_sge src)) (u32 (cap_max_inline_data src))
    (ibv_copy_ah_attr_from_kern (qa_ah_attr dst) (qa_ah_attr src))
    (ibv_copy_ah_attr_from_kern (qa_alt_ah_attr dst) (qa_alt_ah_attr src))
    (u16 (pkey_index src)) (u16 (alt_pkey_index src)) (u8 (qa_en_sqd_async_notify src))
    (u8 (qa_sq_draining src)) (u8 (qa_max_rd_atomic src))
    (u8 (qa_max_dest_rd_atomic src)) (u8 (qa_min_rnr_timer src)) (u8 (qa_port_num src))
    (u8 (qa_timeout src)) (u8 (qa_retry_cnt src)) (u8 (qa_rnr_retry src))
    (u8 (qa_alt_port_num src)) (u8 (qa_alt_timeout src)).

Definition ibv_copy_path_rec_from_kern (src : path_rec) : path_rec :=
  mkPath (take 16 (dgid src)) (take 16 (sgid src)) (u16 (dlid src)) (u16 (slid src))
    (s32 (raw_traffic src)) (u32 (flow_label src)) (u8 (hop_limit src))
    (u8 (traffic_class src)) (s32 (reversible src)) (u8 (numb_path src)) (u16 (pkey src))
    (u8 (sl src)) (u8 (mtu_selector src)) (u8 (mtu src)) (u8 (rate_selector src))
    (u8 (rate src)) (u8 (packet_life_time_selector src)) (u8 (packet_life_time src))
    (u8 (preference src)).

Definition ibv_copy_path_rec_to_kern (src : path_rec) : path_rec :=
  mkPath (take 16 (dgid src)) (take 16 (sgid src)) (u16 (dlid src)) (u16 (slid src))
    (u32 (raw_traffic src)) (u32 (flow_label src)) (u8 (hop_limit src))
    (u8 (traffic_class src)) (u32 (reversible src)) (u8 (numb_path src)) (u16 (pkey src))
    (u8 (sl src)) (u8 (mtu_selector src)) (u32 (mtu src)) (u8 (rate_selector src))
    (u8 (rate src)) (u8 (packet_life_time_selector src)) (u8 (packet_life_time src))
    (u8 (preference src)).

(** ** Ranges *)

Definition ah_attr_ok (a : ah_attr) : Prop :=
  length (a_dgid a) = 16%nat /\ 0 <= a_flow_label a < 2 ^ 32 /\
  0 <= a_dlid a < 2 ^ 16 /\
  Forall (fun x => 0 <= x < 2 ^ 8)
    [a_sgid_index a; a_hop_limit a; a_traffic_class a; a_sl a; a_src_path_bits a;
     a_static_rate a; a_is_global a; a_port_num a].

Definition kern_qp_attr_ok (q : qp_attr) : Prop :=
  Forall (fun x => 0 <= x < 2 ^ 32)
    [qp_state q; cur_qp_state q; path_mtu q; path_mig_state q; qkey q; rq_psn q; sq_psn q;
     dest_qp_num q; qp_access_flags q; cap_max_send_wr q; cap_max_recv_wr q;
     cap_max_send_sge q; cap_max_recv_sge q; cap_max_inline_data q] /\
  ah_attr_ok (qa_ah_attr q) /\ ah_attr_ok (qa_alt_ah_attr q) /\
  Forall (fun x => 0 <= x < 2 ^ 16) [pkey_index q; alt_pkey_index q] /\
  Forall (fun x => 0 <= x < 2 ^ 8)
    [qa_en_sqd_async_notify q; qa_sq_draining q; qa_max_rd_atomic q;
     qa_max_dest_rd_atomic q; qa_min_rnr_timer q; qa_port_num q; qa_timeout q;
     qa_retry_cnt q; qa_rnr_retry q; qa_alt_port_num q; qa_alt_timeout q].

(** The fields the two path records have at the same width. *)
Definition path_common_ok (p : path_rec) : Prop :=
  length (dgid p) = 16%nat /\ length (sgid p) = 16%nat /\ 0 <= flow_label p < 2 ^ 32 /\
  Forall (fun x => 0 <= x < 2 ^ 16) [dlid p; slid p; pkey p] /\
  Forall (fun x => 0 <= x < 2 ^ 8)
    [hop_limit p; traffic_class p; numb_path p; sl p; mtu_selector p; rate_selector p;
     rate p; packet_life_time_selector p; packet_life_time p; preference p].

Definition sa_path_ok (p : path_rec) : Prop :=
  path_common_ok p /\ 0 <= mtu p < 2 ^ 8 /\
  Forall (fun x => - 2 ^ 31 <= x < 2 ^ 31) [raw_traffic p; reversible p].
Definition kern_path_ok (p : path_rec) : Prop :=
  path_common_ok p /\
  Forall (fun x => 0 <= x < 2 ^ 32) [mtu p; raw_traffic p; reversible p].

(** ** Properties *)

Lemma switch_miss cases d x : x ∉ map fst cases -> switch cases d x = d.
Proof.
  induction cases as [|[c r] cases IH]; simpl; [done|]. intros Hx.
  destruct (Z.eqb_spec x c); [set_solver|]. apply IH. set_solver.
Qed.

Lemma switch_hit cases d x :
  x ∈ map fst cases -> (x, switch cases d x) ∈ cases.
Proof.
  induction cases as [|[c r] cases IH]; simpl; [set_solver|]. intros Hx.
  destruct (Z.eqb_spec x c) as [->|]; [left|right; apply IH; set_solver].
Qed.

Lemma switch_in cases d x y :
  NoDup (map fst cases) -> (x, y) ∈ cases -> switch cases d x = y.
Proof.
  induction cases as [|[c r] cases IH]; simpl; [set_solver|].
  intros [Hc Hn]%NoDup_cons Hin. apply elem_of_cons in Hin as [[= -> ->]|Hin].
  - by rewrite Z.eqb_refl.
  - destruct (Z.eqb_spec x c) as [->|]; [|by apply IH].
    destruct Hc. apply (list_elem_of_fmap_2 fst _ _ Hin).
Qed.

(** A switch read backwards undoes the cases. *)
Lemma switch_inverse cases d d' x :
  NoDup (map snd cases) -> switch cases d x <> d ->
  switch (map (fun c => (c.2, c.1)) cases) d' (switch cases d x) = x.
Proof.
  intros Hn Hx. apply switch_in; [by rewrite map_map|].
  destruct (decide (x ∈ map fst cases)) as [Hin|Hout]; [|by rewrite switch_miss in Hx].
  apply switch_hit with (d := d) in Hin. apply list_elem_of_fmap. by exists (x, switch cases d x).
Qed.

(** The rate conversions are inverse to each other where they are defined: a
    rate that has a multiple (a speed) is the rate of that multiple (speed) and
    the other way round, everything else is -1 or [IBV_RATE_MAX], and a multiple
    of the base rate is that many times 2500 Mbit/s. *)
Theorem rate_conversions_inverse r n :
  (ibv_rate_to_mult r <> -1 -> mult_to_ibv_rate (ibv_rate_to_mult r) = r) /\
  (mult_to_ibv_rate n <> IBV_RATE_MAX -> ibv_rate_to_mult (mult_to_ibv_rate n) = n) /\
  (ibv_rate_to_mbps r <> -1 -> mbps_to_ibv_rate (ibv_rate_to_mbps r) = r) /\
  (mbps_to_ibv_rate n <> IBV_RATE_MAX -> ibv_rate_to_mbps (mbps_to_ibv_rate n) = n) /\
  (ibv_rate_to_mult r <> -1 -> ibv_rate_to_mbps r = 2500 * ibv_rate_to_mult r).
Proof.
  split_and!; intros Hr;
    [eapply switch_inverse in Hr; [exact Hr|by apply (bool_decide_unpack _)]..|].
  unfold ibv_rate_to_mult in Hr |- *.
  match type of Hr with switch ?l ?d ?x <> _ =>
    destruct (decide (x ∈ map fst l)) as [Hin|Hout];
      [apply (switch_hit l d) in Hin; revert Hin; generalize (switch l d x) as y; clear Hr
      |by rewrite switch_miss in Hr] end.
  intros y Hin. repeat (apply elem_of_cons in Hin as [[= -> ->]|Hin]; [done|]). set_solver.
Qed.

#[local] Arguments u8 : simpl never.
#[local] Arguments u16 : simpl never.
#[local] Arguments u32 : simpl never.
#[local] Arguments s32 : simpl never.

(** Opens the ranges of a struct and drops the conversions that fit. *)
Ltac fits :=
  repeat match goal with
  | H : _ /\ _ |- _ => destruct H
  | H : Forall _ (_ :: _) |- _ => inversion H; clear H; subst
  | H : Forall _ [] |- _ => clear H
  end;
  repeat match goal with
  | |- context [u8 ?x] => rewrite (u8_small x) by lia
  | |- context [u16 ?x] => rewrite (u16_small x) by lia
  | |- context [u32 ?x] => rewrite (u32_small x) by lia
  | |- context [take 16 ?l] => rewrite (take_ge l 16) by lia
  end.

Lemma ah_attr_copied dst src : ah_attr_ok src -> ibv_copy_ah_attr_from_kern dst src = src.
Proof. intros Ha. unfold ah_attr_ok in Ha. unfold ibv_copy_ah_attr_from_kern. fits. by destruct src. Qed.

(** Copying the attributes of a queue pair from the kernel gives exactly the
    kernel's values, but for the state: [qp_state] is the one field the copy leaves
    as the caller had it. *)
Theorem qp_attr_copied_but_state dst src :
  kern_qp_attr_ok src -> qp_access_flags src < 2 ^ 31 ->
  qp_state (ibv_copy_qp_attr_from_kern dst src) = qp_state dst /\
  (ibv_copy_qp_attr_from_kern dst src = src <-> qp_state dst = qp_state src).
Proof.
  intros Hq Ha. split; [done|]. split; [by intros <-|]. intros Hs.
  unfold kern_qp_attr_ok in Hq. unfold ibv_copy_qp_attr_from_kern.
  destruct Hq as (H32 & H1 & H2 & Hq). rewrite !ah_attr_copied by done. rewrite Hs.
  clear H1 H2. fits. rewrite s32_small by lia. by destruct src.
Qed.

(** A path record survives the way to the kernel's struct and back; on the way
    from the kernel exactly an MTU that does not fit a byte is lost. *)
Theorem path_rec_round_trip p k :
  sa_path_ok p -> kern_path_ok k ->
  ibv_copy_path_rec_from_kern (ibv_copy_path_rec_to_kern p) = p /\
  (ibv_copy_path_rec_to_kern (ibv_copy_path_rec_from_kern k) = k <-> mtu k < 2 ^ 8).
Proof.
  intros Hp Hk. unfold sa_path_ok, kern_path_ok, path_common_ok in *. split.
  - clear Hk. unfold ibv_copy_path_rec_from_kern, ibv_copy_path_rec_to_kern. cbn.
    fits. rewrite !s32_u32 by lia. by destruct p.
  - clear Hp. split.
    + intros E. apply (f_equal mtu) in E. simpl in E. pose proof (u8_range (mtu k)).
      rewrite u32_small in E; lia.
    + intros Hm. unfold ibv_copy_path_rec_from_kern, ibv_copy_path_rec_to_kern.
      fits. cbn. fits. rewrite !u32_s32 by lia. by destruct k.
Qed.

Definition ex_ah : ah_attr := mkAhAttr (replicate 16 254) 1 2 64 0 7 3 0 6 1 1.

Lemma qp_attr_copied_but_state_witness :
  let q s := mkQpAttr s 3 4 0 17 100 200 55 7 8 8 1 1 64 ex_ah ex_ah 0 0 0 0 1 1 12 1 14 7 7 0 0 in
  ibv_copy_qp_attr_from_kern (q 3) (q 6) = q 6 <-> 3 = 6.
Proof.
  intros q. apply (qp_attr_copied_but_state (q 3) (q 6)); [|done].
  unfold kern_qp_attr_ok, ah_attr_ok. by repeat constructor.
Defined.

Lemma path_rec_round_trip_witness :
  let p m := mkPath (replicate 16 254) (replicate 16 1) 4 5 0 0 64 0 1 1 65535 0 2 m 2 6 2 18 0 in
  ibv_copy_path_rec_from_kern (ibv_copy_path_rec_to_kern (p 5)) = p 5 /\
  ibv_copy_path_rec_to_kern (ibv_copy_path_rec_from_kern (p 300)) <> p 300.
Proof.
  intros p. destruct (path_rec_round_trip (p 5) (p 300)) as [H1 H2].
  - unfold sa_path_ok, path_common_ok. by repeat constructor.
  - unfold kern_path_ok, path_common_ok. by repeat constructor.
  - split; [done|]. rewrite H2. by vm_compute.
Defined.
