(* ===== verification/MemTree.v ===== *)
(** * The tree of memory ranges of fork support (libibverbs/src/memory.c)

    [struct ibv_mem_node] is a node of a red-black tree with parent pointers.  Here
    a tree is an inductive value whose nodes carry the address they were allocated
    at; a pointer to a node is that address, and following [parent] from it is
    looking at the innermost frame of the node's context ([locate]).  The operations
    are those of the file: [__mm_prev] and [__mm_next], the rotations, [__mm_add] and
    [__mm_remove] with their rebalancing loops, [__mm_find_start].  The theorems: on
    a red-black tree the loops end and no null pointer is followed, the tree stays
    red-black, and the list of the nodes in order changes as it should. *)

From S2P Require Import Prelude.

Inductive color := IBV_RED | IBV_BLACK.

#[global] Instance color_eq_dec : EqDecision color.
Proof. solve_decision. Defined.

(** A node without its colour and its links. *)
Record ibv_mem_node := MemNode {
  mn_addr : Z; mn_start : Z; mn_end : Z; mn_refcnt : Z }.

Inductive mtree :=
| Nil
| Node (c : color) (l : mtree) (n : ibv_mem_node) (r : mtree).

(** A parent as its child sees it: which child it is, and the other one. *)
Inductive frame :=
| InLeft (c : color) (n : ibv_mem_node) (r : mtree)
| InRight (c : color) (l : mtree) (n : ibv_mem_node).

Definition ctx := list frame.

Definition plug1 (f : frame) (t : mtree) : mtree :=
  match f with
  | InLeft c n r => Node c t n r
  | InRight c l n => Node c l n t
  end.

Fixpoint plug (k : ctx) (t : mtree) : mtree :=
  match k with
  | [] => t
  | f :: k' => plug k' (plug1 f t)
  end.

(** The node at an address, with its context. *)
Fixpoint locate (p : Z) (k : ctx) (t : mtree) : option (ctx * mtree) :=
  match t with
  | Nil => None
  | Node c l n r =>
      if mn_addr n =? p then Some (k, t)
      else match locate p (InLeft c n r :: k) l with
           | Some z => Some z
           | None => locate p (InRight c l n :: k) r
           end
  end.

(** Reading and writing the fields of [*p]. *)
Definition node_at (p : Z) (t : mtree) : res ibv_mem_node :=
  match locate p [] t with
  | Some (_, Node _ _ n _) => Ok n
  | _ => Ub
  end.

Definition set_node (p : Z) (f : ibv_mem_node -> ibv_mem_node) (t : mtree) : res mtree :=
  match locate p [] t with
  | Some (k, Node c l n r) => Ok (plug k (Node c l (f n) r))
  | _ => Ub
  end.

Definition set_end (e : Z) (n : ibv_mem_node) : ibv_mem_node :=
  MemNode (mn_addr n) (mn_start n) e (mn_refcnt n).
Definition set_refcnt (r : Z) (n : ibv_mem_node) : ibv_mem_node :=
  MemNode (mn_addr n) (mn_start n) (mn_end n) r.

(** ** Neighbours *)

(** [while (node->right) node = node->right;] the node reached, with its context. *)
Fixpoint rightmost (k : ctx) (c : color) (l : mtree) (n : ibv_mem_node) (r : mtree)
  : ctx * (color * mtree * ibv_mem_node) :=
  match r with
  | Nil => (k, (c, l, n))
  | Node c' l' n' r' => rightmost (InRight c l n :: k) c' l' n' r'
  end.

Fixpoint leftmost (l : mtree) (n : ibv_mem_node) : ibv_mem_node :=
  match l with
  | Nil => n
  | Node _ l' n' _ => leftmost l' n'
  end.

(** [while (node->parent && node == node->parent->left) node = node->parent;]
    and one step more. *)
Fixpoint climb_prev (k : ctx) : option Z :=
  match k with
  | [] => None
  | InLeft _ _ _ :: k' => climb_prev k'
  | InRight _ _ n :: _ => Some (mn_addr n)
  end.

Fixpoint climb_next (k : ctx) : option Z :=
  match k with
  | [] => None
  | InRight _ _ _ :: k' => climb_next k'
  | InLeft _ n _ :: _ => Some (mn_addr n)
  end.

Definition __mm_prev (node : Z) (mm_root : mtree) : res (option Z) :=
  match locate node [] mm_root with
  | Some (k, Node _ l _ _) =>
      match l with
      | Node c' l' n' r' =>
          let '(_, (_, _, m)) := rightmost [] c' l' n' r' in Ok (Some (mn_addr m))
      | Nil => Ok (climb_prev k)
      end
  | _ => Ub
  end.

Definition __mm_next (node : Z) (mm_root : mtree) : res (option Z) :=
  match locate node [] mm_root with
  | Some (k, Node _ _ _ r) =>
      match r with
      | Node _ l' n' _ => Ok (Some (mn_addr (leftmost l' n')))
      | Nil => Ok (climb_next k)
      end
  | _ => Ub
  end.

(** ** Rotations: [tmp] takes the place of [node] below its parent *)

Definition __mm_rotate_right (node : mtree) : res mtree :=
  match node with
  | Node c (Node ct lt tmp rt) n r => Ok (Node ct lt tmp (Node c rt n r))
  | _ => Ub
  end.

Definition __mm_rotate_left (node : mtree) : res mtree :=
  match node with
  | Node c l n (Node ct lt tmp rt) => Ok (Node ct (Node c l n lt) tmp rt)
  | _ => Ub
  end.

Definition is_red (t : mtree) : bool :=
  match t with Node IBV_RED _ _ _ => true | _ => false end.

Definition paint (c : color) (t : mtree) : mtree :=
  match t with Nil => Nil | Node _ l n r => Node c l n r end.

Definition frame_color (f : frame) : color :=
  match f with InLeft c _ _ => c | InRight c _ _ => c end.

(** ** Insertion *)

Fixpoint __mm_add_rebalance (fuel : nat) (k : ctx) (node : mtree) : res mtree :=
  match fuel with
  | O => Spin
  | S fuel' =>
    match k with
    | [] => Ok (paint IBV_BLACK node)
    | parent :: k1 =>
      if decide (frame_color parent = IBV_RED) then
        match k1 with
        | [] => Ub
        | InLeft _ gp uncle :: k2 =>
          if is_red uncle then
            __mm_add_rebalance fuel' k2
              (Node IBV_RED (paint IBV_BLACK (plug1 parent node)) gp (paint IBV_BLACK uncle))
          else
            p ← match parent with
                | InRight _ _ _ => __mm_rotate_left (plug1 parent node)
                | InLeft _ _ _ => Ok (plug1 parent node)
                end;
            t ← __mm_rotate_right (Node IBV_RED (paint IBV_BLACK p) gp uncle);
            match t with
            | Node c node' pn gpt => __mm_add_rebalance fuel' (InLeft c pn gpt :: k2) node'
            | Nil => Ub
            end
        | InRight _ uncle gp :: k2 =>
          if is_red uncle then
            __mm_add_rebalance fuel' k2
              (Node IBV_RED (paint IBV_BLACK uncle) gp (paint IBV_BLACK (plug1 parent node)))
          else
            p ← match parent with
                | InLeft _ _ _ => __mm_rotate_right (plug1 parent node)
                | InRight _ _ _ => Ok (plug1 parent node)
                end;
            t ← __mm_rotate_left (Node IBV_RED uncle gp (paint IBV_BLACK p));
            match t with
            | Node c gpt pn node' => __mm_add_rebalance fuel' (InRight c gpt pn :: k2) node'
            | Nil => Ub
            end
        end
      else Ok (paint IBV_BLACK (plug k node))
    end
  end.

(** The descent of [__mm_add]: the place of the new leaf. *)
Fixpoint mm_descend (start : Z) (k : ctx) (node : mtree) : ctx :=
  match node with
  | Nil => k
  | Node c l n r =>
      if mn_start n <? start then mm_descend start (InRight c l n :: k) r
      else mm_descend start (InLeft c n r :: k) l
  end.

Definition __mm_add (new : ibv_mem_node) (mm_root : mtree) : res mtree :=
  match mm_root with
  | Nil => Ub
  | _ => let k := mm_descend (mn_start new) [] mm_root in
         __mm_add_rebalance (2 + length k) k (Node IBV_RED Nil new Nil)
  end.

(** ** Removal *)

(** The turn of the rebalancing loop of [__mm_remove] for a left [child] whose
    sibling is not red any more; [loop] goes on above the parent. *)
Definition remove_left_turn (loop : ctx -> mtree -> res mtree)
    (k1 : ctx) (pc : color) (child : mtree) (pn : ibv_mem_node) (sib : mtree) : res mtree :=
  match sib with
  | Nil => Ub
  | Node _ sl sn sr =>
    if negb (is_red sl) && negb (is_red sr) then
      loop k1 (Node pc child pn (paint IBV_RED sib))
    else
      sib2 ← (if negb (is_red sr) then
                __mm_rotate_right (Node IBV_RED (paint IBV_BLACK sl) sn sr)
              else Ok sib);
      match sib2 with
      | Nil => Ub
      | Node _ sl2 sn2 sr2 =>
        t ← __mm_rotate_left (Node IBV_BLACK child pn (Node pc sl2 sn2 (paint IBV_BLACK sr2)));
        Ok (paint IBV_BLACK (plug k1 t))
      end
  end.

Definition remove_right_turn (loop : ctx -> mtree -> res mtree)
    (k1 : ctx) (pc : color) (sib : mtree) (pn : ibv_mem_node) (child : mtree) : res mtree :=
  match sib with
  | Nil => Ub
  | Node _ sl sn sr =>
    if negb (is_red sl) && negb (is_red sr) then
      loop k1 (Node pc (paint IBV_RED sib) pn child)
    else
      sib2 ← (if negb (is_red sl) then
                __mm_rotate_left (Node IBV_RED sl sn (paint IBV_BLACK sr))
              else Ok sib);
      match sib2 with
      | Nil => Ub
      | Node _ sl2 sn2 sr2 =>
        t ← __mm_rotate_right (Node IBV_BLACK (Node pc (paint IBV_BLACK sl2) sn2 sr2) pn child);
        Ok (paint IBV_BLACK (plug k1 t))
      end
  end.

(** The loop; [child] is below the innermost frame of [k]. *)
Fixpoint mm_remove_rebalance (fuel : nat) (k : ctx) (child : mtree) : res mtree :=
  match fuel with
  | O => Spin
  | S fuel' =>
    if is_red child then Ok (plug k (paint IBV_BLACK child))
    else match k with
    | [] => Ok (paint IBV_BLACK child)
    | InLeft pc pn sib :: k1 =>
      match sib with
      | Nil => Ub
      | Node IBV_RED _ _ _ =>
        t ← __mm_rotate_left (Node IBV_RED child pn (paint IBV_BLACK sib));
        match t with
        | Node sc (Node pc' child' pn' sib') sn sr =>
            remove_left_turn (mm_remove_rebalance fuel') (InLeft sc sn sr :: k1) pc' child' pn' sib'
        | _ => Ub
        end
      | Node IBV_BLACK _ _ _ =>
        remove_left_turn (mm_remove_rebalance fuel') k1 pc child pn sib
      end
    | InRight pc sib pn :: k1 =>
      match sib with
      | Nil => Ub
      | Node IBV_RED _ _ _ =>
        t ← __mm_rotate_right (Node IBV_RED (paint IBV_BLACK sib) pn child);
        match t with
        | Node sc sl sn (Node pc' sib' pn' child') =>
            remove_right_turn (mm_remove_rebalance fuel') (InRight sc sl sn :: k1) pc' sib' pn' child'
        | _ => Ub
        end
      | Node IBV_BLACK _ _ _ =>
        remove_right_turn (mm_remove_rebalance fuel') k1 pc sib pn child
      end
    end
  end.

Definition __mm_remove (node : Z) (mm_root : mtree) : res mtree :=
  match locate node [] mm_root with
  | Some (k, Node c l n r) =>
      let '(nodecol, child, k1) :=
        match l, r with
        | Node c' l' n' r', Node _ _ _ _ =>
            let '(kin, (ct, lt, tmp)) := rightmost [] c' l' n' r' in
            (ct, lt, kin ++ InLeft c tmp r :: k)
        | Nil, _ => (c, r, k)
        | _, Nil => (c, l, k)
        end in
      if decide (nodecol = IBV_RED) then Ok (plug k1 child)
      else mm_remove_rebalance (2 + length k1) k1 child
  | _ => Ub
  end.

(** ** Search *)

Fixpoint __mm_find_start (start : Z) (node : mtree) : option Z :=
  match node with
  | Nil => None
  | Node _ l n r =>
      if (mn_start n <=? start) && (start <=? mn_end n) then Some (mn_addr n)
      else if mn_start n <? start then __mm_find_start start r
      else __mm_find_start start l
  end.

(** ** The nodes in order *)

Fixpoint elems (t : mtree) : list ibv_mem_node :=
  match t with
  | Nil => []
  | Node _ l n r => elems l ++ n :: elems r
  end.

Fixpoint lefts (k : ctx) : list ibv_mem_node :=
  match k with
  | [] => []
  | InLeft _ _ _ :: k' => lefts k'
  | InRight _ l n :: k' => lefts k' ++ elems l ++ [n]
  end.

Fixpoint rights (k : ctx) : list ibv_mem_node :=
  match k with
  | [] => []
  | InLeft _ n r :: k' => n :: elems r ++ rights k'
  | InRight _ _ _ :: k' => rights k'
  end.

Create HintDb mtree discriminated.
Create Rewrite HintDb mtree.

Lemma elems_plug k t : elems (plug k t) = lefts k ++ elems t ++ rights k.
Proof.
  revert t. induction k as [|[c n r|c l n] k IH]; intros t; simpl.
  - by rewrite app_nil_r.
  - rewrite IH. simpl. by rewrite <- app_assoc.
  - rewrite IH. simpl. by rewrite <- !app_assoc.
Qed.

Lemma elems_paint c t : elems (paint c t) = elems t.
Proof. by destruct t. Qed.

Lemma plug_app k1 k2 t : plug (k1 ++ k2) t = plug k2 (plug k1 t).
Proof. revert t. induction k1; simpl; auto. Qed.

Lemma lefts_app k1 k2 : lefts (k1 ++ k2) = lefts k2 ++ lefts k1.
Proof.
  induction k1 as [|[] k1 IH]; simpl; rewrite ?IH, ?app_nil_r, <- ?app_assoc; auto.
Qed.

Lemma rights_app k1 k2 : rights (k1 ++ k2) = rights k1 ++ rights k2.
Proof.
  induction k1 as [|[] k1 IH]; simpl; rewrite ?IH, <- ?app_assoc; auto.
Qed.

#[export] Hint Rewrite elems_plug elems_paint plug_app lefts_app rights_app : mtree.

(** Normalises lists of nodes on both sides of an equation. *)
Ltac list_norm :=
  cbn [plug plug1 paint]; autorewrite with mtree;
  cbn [elems lefts rights plug1 paint app]; autorewrite with mtree;
  repeat (progress (rewrite <- ?app_assoc; cbn [app])); rewrite ?app_nil_r.

(** ** Colours

    [rbt t c h]: [t] is a red-black tree with root colour [c] and [h] black nodes on
    every path.  [kok k c h]: a tree of that kind fits into the context [k] of a
    tree with a black root. *)
Inductive rbt : mtree -> color -> nat -> Prop :=
| rbt_nil : rbt Nil IBV_BLACK 0
| rbt_red l n r h : rbt l IBV_BLACK h -> rbt r IBV_BLACK h -> rbt (Node IBV_RED l n r) IBV_RED h
| rbt_black l n r cl cr h : rbt l cl h -> rbt r cr h -> rbt (Node IBV_BLACK l n r) IBV_BLACK (S h).

Inductive kok : ctx -> color -> nat -> Prop :=
| kok_root h : kok [] IBV_BLACK h
| kok_red_l n r k h : rbt r IBV_BLACK h -> kok k IBV_RED h -> kok (InLeft IBV_RED n r :: k) IBV_BLACK h
| kok_red_r l n k h : rbt l IBV_BLACK h -> kok k IBV_RED h -> kok (InRight IBV_RED l n :: k) IBV_BLACK h
| kok_black_l n r k c cr h : rbt r cr h -> kok k IBV_BLACK (S h) -> kok (InLeft IBV_BLACK n r :: k) c h
| kok_black_r l n k c cl h : rbt l cl h -> kok k IBV_BLACK (S h) -> kok (InRight IBV_BLACK l n :: k) c h.

#[export] Hint Constructors rbt kok : mtree.

Definition red_black (t : mtree) : Prop := exists h, rbt t IBV_BLACK h.

Lemma kok_plug k : forall t c h, rbt t c h -> kok k c h -> red_black (plug k t).
Proof.
  induction k as [|f k IH]; intros t c h Ht Hk; inversion Hk; subst; simpl.
  - by eexists.
  - eapply IH; [|done]. auto with mtree.
  - eapply IH; [|done]. auto with mtree.
  - eapply IH; [|done]. eauto with mtree.
  - eapply IH; [|done]. eauto with mtree.
Qed.

Lemma plug_kok k : forall t, red_black (plug k t) -> exists c h, rbt t c h /\ kok k c h.
Proof.
  induction k as [|f k IH]; intros t Ht; simpl in Ht.
  - destruct Ht as [h Ht]. eauto with mtree.
  - destruct (IH _ Ht) as (c & h & Hf & Hk).
    destruct f; simpl in Hf; inversion Hf; subst; eauto 6 with mtree.
Qed.

Lemma kok_any k c h : kok k c h -> kok k IBV_BLACK h.
Proof. destruct 1; eauto with mtree. Qed.

Lemma rbt_paint_black t c h : rbt t c h -> red_black (paint IBV_BLACK t).
Proof. destruct 1; simpl; eexists; eauto with mtree. Qed.

Lemma is_red_color t c h : rbt t c h -> is_red t = bool_decide (c = IBV_RED).
Proof. by destruct 1. Qed.

(** A subtree that is not red is black. *)
Lemma not_red_black t c h : rbt t c h -> is_red t = false -> rbt t IBV_BLACK h.
Proof. destruct 1; simpl; intros; try discriminate; eauto with mtree. Qed.

Lemma red_inv t c h :
  rbt t c h -> is_red t = true ->
  exists l n r, t = Node IBV_RED l n r /\ rbt l IBV_BLACK h /\ rbt r IBV_BLACK h.
Proof. destruct 1; simpl; intros; try discriminate; eauto 6. Qed.

Lemma black_inv t h : rbt t IBV_BLACK (S h) ->
  exists l n r cl cr, t = Node IBV_BLACK l n r /\ rbt l cl h /\ rbt r cr h.
Proof. inversion 1; subst; eauto 8. Qed.

Lemma red_black_paint t : red_black t -> paint IBV_BLACK t = t.
Proof. intros [h Ht]. by inversion Ht. Qed.

(** ** Insertion is correct *)

Lemma add_rebalance_stop fuel f k node h :
  frame_color f = IBV_BLACK -> rbt node IBV_RED h -> kok (f :: k) IBV_RED h ->
  exists t, __mm_add_rebalance (S fuel) (f :: k) node = Ok t /\
    red_black t /\ elems t = elems (plug (f :: k) node).
Proof.
  intros Hf Hn Hk. cbn [__mm_add_rebalance]. rewrite Hf. case_decide; [done|].
  assert (red_black (plug (f :: k) node)) as Hrb by (by eapply kok_plug).
  rewrite red_black_paint by done. eauto.
Qed.

(** A black parent takes a red child as well as a black one. *)
Lemma kok_black_parent f k c c' h :
  kok (f :: k) c h -> frame_color f = IBV_BLACK -> kok (f :: k) c' h.
Proof. inversion 1; subst; simpl; intros; try discriminate; eauto with mtree. Qed.

Lemma frame_color_cases f : frame_color f = IBV_RED \/ frame_color f = IBV_BLACK.
Proof. destruct (frame_color f); auto. Qed.

(** A red node with black children, put at a place for a black one. *)
Lemma add_rebalance_ok fuel : forall k node h,
  rbt node IBV_RED h -> kok k IBV_BLACK h -> (length k + 2 <= fuel)%nat ->
  exists t, __mm_add_rebalance fuel k node = Ok t /\ red_black t /\
    elems t = elems (plug k node).
Proof.
  induction fuel as [|fuel IH]; intros k node h Hn Hk Hf; [lia|].
  destruct k as [|f k1].
  { exists (paint IBV_BLACK node). simpl. rewrite elems_paint.
    eauto using rbt_paint_black. }
  destruct (frame_color_cases f) as [Hc|Hc];
    [|eapply add_rebalance_stop; eauto using kok_black_parent].
  assert (exists h', kok k1 IBV_RED h' /\ h' = h /\
            match f with InLeft _ _ r => rbt r IBV_BLACK h | InRight _ l _ => rbt l IBV_BLACK h end)
    as (? & Hk1 & -> & Hsib)
    by (inversion Hk; subst; try discriminate; eauto).
  cbn [__mm_add_rebalance]. rewrite Hc, decide_True by done.
  simpl in Hf. destruct fuel as [|fuel]; [lia|].
  inversion Hn as [|l n r ? Hl Hr|]; subst.
  inversion Hk1 as [| | |gp uncle k2 ? cu ? Hu Hk2|uncle gp k2 ? cu ? Hu Hk2]; subst.
  - destruct (is_red uncle) eqn:Hru.
    + destruct (IH k2 (Node IBV_RED (paint IBV_BLACK (plug1 f (Node IBV_RED l n r))) gp
                         (paint IBV_BLACK uncle)) (S h)) as (t & Ht & Hrb & He).
      { apply red_inv with (1 := Hu) in Hru as (ul & un & ur & -> & Hul & Hur).
        destruct f; simpl in *; subst; eauto with mtree. }
      { done. } { simpl in Hf. lia. }
      exists t. split; [done|]. split; [done|]. rewrite He. destruct f; list_norm; done.
    + pose proof (not_red_black _ _ _ Hu Hru) as Hu'.
      destruct f as [fc fn fr|fc fl fn]; simpl in Hc, Hsib; subst fc;
        cbn [plug1 __mm_rotate_left __mm_rotate_right paint mbind res_bind].
      * edestruct (add_rebalance_stop fuel (InLeft IBV_BLACK fn (Node IBV_RED fr gp uncle)) k2
                     (Node IBV_RED l n r) h) as (t & Ht & Hrb & He); eauto with mtree.
        exists t. rewrite Ht, He. list_norm. done.
      * edestruct (add_rebalance_stop fuel (InLeft IBV_BLACK n (Node IBV_RED r gp uncle)) k2
                     (Node IBV_RED fl fn l) h) as (t & Ht & Hrb & He); eauto with mtree.
        exists t. rewrite Ht, He. list_norm. done.
  - destruct (is_red uncle) eqn:Hru.
    + destruct (IH k2 (Node IBV_RED (paint IBV_BLACK uncle) gp
                         (paint IBV_BLACK (plug1 f (Node IBV_RED l n r)))) (S h)) as (t & Ht & Hrb & He).
      { apply red_inv with (1 := Hu) in Hru as (ul & un & ur & -> & Hul & Hur).
        destruct f; simpl in *; subst; eauto with mtree. }
      { done. } { simpl in Hf. lia. }
      exists t. split; [done|]. split; [done|]. rewrite He. destruct f; list_norm; done.
    + pose proof (not_red_black _ _ _ Hu Hru) as Hu'.
      destruct f as [fc fn fr|fc fl fn]; simpl in Hc, Hsib; subst fc;
        cbn [plug1 __mm_rotate_left __mm_rotate_right paint mbind res_bind].
      * edestruct (add_rebalance_stop fuel (InRight IBV_BLACK (Node IBV_RED uncle gp l) n) k2
                     (Node IBV_RED r fn fr) h) as (t & Ht & Hrb & He); eauto with mtree.
        exists t. rewrite Ht, He. list_norm. done.
      * edestruct (add_rebalance_stop fuel (InRight IBV_BLACK (Node IBV_RED uncle gp fl) fn) k2
                     (Node IBV_RED l n r) h) as (t & Ht & Hrb & He); eauto with mtree.
        exists t. rewrite Ht, He. list_norm. done.
Qed.

(** Cutting a list around one of its elements. *)
Lemma app_cons_split {A} (a : list A) n b l1 l2 :
  a ++ n :: b = l1 ++ l2 ->
  (exists m, a = l1 ++ m /\ l2 = m ++ n :: b) \/ (exists m, l1 = a ++ n :: m /\ b = m ++ l2).
Proof.
  intros He. apply app_eq_inv in He as [(m & -> & Hm)|(m & -> & Hm)]; [eauto|].
  destruct m as [|n' m]; simpl in Hm.
  - subst l2. left. exists []. by rewrite !app_nil_r.
  - injection Hm as <- ->. eauto.
Qed.

(** The leaf lands between the nodes that start before it and the others. *)
Lemma mm_descend_spec start t : forall k l1 l2,
  elems t = l1 ++ l2 ->
  Forall (fun n => mn_start n < start) l1 -> Forall (fun n => start <= mn_start n) l2 ->
  lefts (mm_descend start k t) = lefts k ++ l1 /\
  rights (mm_descend start k t) = l2 ++ rights k /\
  plug (mm_descend start k t) Nil = plug k t.
Proof.
  induction t as [|c l IHl n r IHr]; intros k l1 l2 He H1 H2; simpl in *.
  { symmetry in He. apply app_eq_nil in He as [-> ->]. by rewrite app_nil_r. }
  apply app_cons_split in He as [(m & Hl & ->)|(m & -> & Hr)].
  - rewrite Forall_app, Forall_cons in H2. destruct H2 as (Hm & Hn & _).
    destruct (Z.ltb_spec (mn_start n) start); [lia|].
    destruct (IHl (InLeft c n r :: k) l1 m) as (E1 & E2 & E3); auto.
    rewrite E1, E2, E3. simpl. by rewrite <- !app_assoc.
  - rewrite Forall_app, Forall_cons in H1. destruct H1 as (_ & Hn & Hm).
    destruct (Z.ltb_spec (mn_start n) start); [|lia].
    destruct (IHr (InRight c l n :: k) m l2) as (E1 & E2 & E3); auto.
    rewrite E1, E2, E3. simpl. by rewrite <- !app_assoc.
Qed.

Lemma mm_add_ok new t l1 l2 :
  red_black t -> t <> Nil -> elems t = l1 ++ l2 ->
  Forall (fun n => mn_start n < mn_start new) l1 ->
  Forall (fun n => mn_start new <= mn_start n) l2 ->
  exists t', __mm_add new t = Ok t' /\ red_black t' /\ elems t' = l1 ++ new :: l2.
Proof.
  intros Hrb Hne He H1 H2.
  destruct (mm_descend_spec (mn_start new) t [] l1 l2 He H1 H2) as (E1 & E2 & E3).
  simpl in E3. rewrite <- E3 in Hrb. apply plug_kok in Hrb as (c & h & Hn & Hk).
  inversion Hn; subst c h.
  destruct (add_rebalance_ok (2 + length (mm_descend (mn_start new) [] t))
              (mm_descend (mn_start new) [] t) (Node IBV_RED Nil new Nil) 0)
    as (t' & Ht & Hrb & Hel); eauto with mtree; [lia|].
  exists t'. unfold __mm_add. destruct t; [done|].
  split; [exact Ht|]. split; [done|].
  rewrite Hel, elems_plug, E1, E2. cbn. by rewrite app_nil_r.
Qed.

(** ** Removal is correct *)

(** What the loop leaves when it paints a red child, or reaches the root. *)
Lemma remove_rebalance_stop fuel k child c h :
  rbt child c h -> kok k IBV_BLACK (S h) -> is_red child = true \/ k = [] ->
  exists t, mm_remove_rebalance (S fuel) k child = Ok t /\ red_black t /\
    elems t = elems (plug k child).
Proof.
  intros Hc Hk Hor. cbn [mm_remove_rebalance]. destruct (is_red child) eqn:Hr.
  - eexists. split; [done|]. split; [|by list_norm].
    apply red_inv with (1 := Hc) in Hr as (l & n & r & -> & Hl & Hr).
    eapply kok_plug; [|done]. simpl. eauto with mtree.
  - destruct Hor as [?|Hor]; [done|subst k]. eexists. split; [done|].
    split; [eauto using rbt_paint_black|]. by rewrite elems_paint.
Qed.

(** What a turn of the loop must give: a red-black tree of the same nodes. *)
Definition repaired (r : res mtree) (ns : list ibv_mem_node) : Prop :=
  exists t, r = Ok t /\ red_black t /\ elems t = ns.

Lemma repaired_same r ns ns' : repaired r ns -> ns = ns' -> repaired r ns'.
Proof. by intros ? <-. Qed.

Lemma repaired_plug k t c h ns :
  rbt t c h -> kok k c h -> lefts k ++ elems t ++ rights k = ns ->
  repaired (Ok (paint IBV_BLACK (plug k t))) ns.
Proof.
  intros Ht Hk He. pose proof (kok_plug _ _ _ _ Ht Hk) as Hrb. eexists.
  rewrite red_black_paint by done. split; [done|]. by rewrite elems_plug.
Qed.

Section turn.
Variables (loop : ctx -> mtree -> res mtree) (k1 : ctx) (pc : color) (h : nat)
  (pn : ibv_mem_node) (child sib : mtree).
Hypothesis Hchild : rbt child IBV_BLACK h.
Hypothesis Hsib : rbt sib IBV_BLACK (S h).
Hypothesis loop_red : forall l n r,
  loop k1 (Node IBV_RED l n r) = Ok (plug k1 (Node IBV_BLACK l n r)).
Hypothesis loop_up : forall t, pc = IBV_BLACK -> rbt t IBV_BLACK (S h) ->
  kok k1 IBV_BLACK (S (S h)) -> repaired (loop k1 t) (lefts k1 ++ elems t ++ rights k1).

(** The place of the parent takes a tree of the parent's colour. *)
Hypothesis Hk1 : kok k1 pc (if decide (pc = IBV_RED) then S h else S (S h)).

Lemma parent_rebuilt l n r :
  rbt l IBV_BLACK (S h) -> rbt r IBV_BLACK (S h) ->
  rbt (Node pc l n r) pc (if decide (pc = IBV_RED) then S h else S (S h)).
Proof. destruct pc; simpl; eauto with mtree. Qed.

(** Both nephews black: the sibling turns red. *)
Lemma recoloured l r ns :
  rbt (Node IBV_BLACK l pn r) IBV_BLACK (S h) ->
  elems l ++ pn :: elems r = ns ->
  repaired (loop k1 (Node pc l pn r)) (lefts k1 ++ ns ++ rights k1).
Proof.
  intros Ht <-. destruct pc; simpl in Hk1.
  - rewrite loop_red. eexists. split; [done|]. split; [|by list_norm].
    eauto using kok_plug, kok_any.
  - by apply (loop_up (Node IBV_BLACK l pn r)).
Qed.

Lemma remove_left_turn_ok :
  repaired (remove_left_turn loop k1 pc child pn sib)
    (lefts k1 ++ (elems child ++ pn :: elems sib) ++ rights k1).
Proof.
  apply black_inv in Hsib as (sl & sn & sr & cl & cr & E & Hsl & Hsr).
  rewrite E in *. unfold remove_left_turn.
  destruct (is_red sr) eqn:Rr; [|destruct (is_red sl) eqn:Rl]; simpl.
  - rewrite andb_false_r. cbn [mbind res_bind].
    apply red_inv with (1 := Hsr) in Rr as (rl & rn & rr & -> & Hrl & Hrr).
    cbn [__mm_rotate_left paint]. eapply repaired_plug; [..|by list_norm]; [|done].
    apply parent_rebuilt; eauto with mtree.
  - apply red_inv with (1 := Hsl) in Rl as (ll & ln & lr & -> & Hll & Hlr).
    cbn [__mm_rotate_left __mm_rotate_right paint mbind res_bind].
    eapply repaired_plug; [..|by list_norm]; [|done].
    apply parent_rebuilt; eauto using not_red_black with mtree.
  - apply recoloured; [|done].
    eauto using not_red_black with mtree.
Qed.

Lemma remove_right_turn_ok :
  repaired (remove_right_turn loop k1 pc sib pn child)
    (lefts k1 ++ (elems sib ++ pn :: elems child) ++ rights k1).
Proof.
  apply black_inv in Hsib as (sl & sn & sr & cl & cr & E & Hsl & Hsr).
  rewrite E in *. unfold remove_right_turn.
  destruct (is_red sl) eqn:Rl; [|destruct (is_red sr) eqn:Rr]; simpl.
  - cbn [mbind res_bind].
    apply red_inv with (1 := Hsl) in Rl as (ll & ln & lr & -> & Hll & Hlr).
    cbn [__mm_rotate_right paint]. eapply repaired_plug; [..|by list_norm]; [|done].
    apply parent_rebuilt; eauto with mtree.
  - apply red_inv with (1 := Hsr) in Rr as (rl & rn & rr & -> & Hrl & Hrr).
    cbn [__mm_rotate_left __mm_rotate_right paint mbind res_bind].
    eapply repaired_plug; [..|by list_norm]; [|done].
    apply parent_rebuilt; eauto using not_red_black with mtree.
  - apply recoloured; [|done].
    eauto using not_red_black with mtree.
Qed.
End turn.

Lemma remove_rebalance_red fuel k l n r :
  mm_remove_rebalance (S fuel) k (Node IBV_RED l n r) = Ok (plug k (Node IBV_BLACK l n r)).
Proof. done. Qed.

Ltac red_not_black :=
  match goal with H : rbt (Node IBV_RED _ _ _) IBV_BLACK _ |- _ => inversion H end.

(** A turn below a left or a right frame; [Hup] is the rest of the loop. *)
Section turns.
Variables (fuel h : nat) (k1 : ctx) (child : mtree).
Hypothesis Hblack : rbt child IBV_BLACK h.
Hypothesis Hup : forall t, rbt t IBV_BLACK (S h) -> kok k1 IBV_BLACK (S (S h)) ->
  repaired (mm_remove_rebalance (S fuel) k1 t) (lefts k1 ++ elems t ++ rights k1).

Lemma child_not_red : is_red child = false.
Proof. rewrite (is_red_color _ _ _ Hblack). done. Qed.

Lemma left_frame_ok pc pn sib :
  kok (InLeft pc pn sib :: k1) IBV_BLACK (S h) ->
  repaired (mm_remove_rebalance (S (S fuel)) (InLeft pc pn sib :: k1) child)
    (lefts k1 ++ (elems child ++ pn :: elems sib) ++ rights k1).
Proof.
  intros Hk. remember (S fuel) as f eqn:Ef. cbn [mm_remove_rebalance]. rewrite child_not_red.
  assert (exists cs, rbt sib cs (S h)) as [cs Hs] by (inversion Hk; subst; eauto).
  inversion Hs as [|sl sn sr ? Hsl Hsr|sl sn sr cl cr ? Hsl Hsr]; subst sib cs f.
  - apply black_inv in Hsl as (a & m & b & ca & cb & -> & Ha & Hb).
    cbn [__mm_rotate_left paint mbind res_bind].
    eapply repaired_same; [eapply remove_left_turn_ok with (h := h)|by list_norm];
      eauto using remove_rebalance_red with mtree; [done|].
    inversion Hk; subst; [by red_not_black|]. simpl. eauto with mtree.
  - apply (remove_left_turn_ok _ _ _ h); eauto using remove_rebalance_red with mtree.
    inversion Hk; subst; simpl; eauto with mtree.
Qed.

Lemma right_frame_ok pc pn sib :
  kok (InRight pc sib pn :: k1) IBV_BLACK (S h) ->
  repaired (mm_remove_rebalance (S (S fuel)) (InRight pc sib pn :: k1) child)
    (lefts k1 ++ (elems sib ++ pn :: elems child) ++ rights k1).
Proof.
  intros Hk. remember (S fuel) as f eqn:Ef. cbn [mm_remove_rebalance]. rewrite child_not_red.
  assert (exists cs, rbt sib cs (S h)) as [cs Hs] by (inversion Hk; subst; eauto).
  inversion Hs as [|sl sn sr ? Hsl Hsr|sl sn sr cl cr ? Hsl Hsr]; subst sib cs f.
  - apply black_inv in Hsr as (a & m & b & ca & cb & -> & Ha & Hb).
    cbn [__mm_rotate_right paint mbind res_bind].
    eapply repaired_same; [eapply remove_right_turn_ok with (h := h)|by list_norm];
      eauto using remove_rebalance_red with mtree; [done|].
    inversion Hk; subst; [by red_not_black|]. simpl. eauto with mtree.
  - apply (remove_right_turn_ok _ _ _ h); eauto using remove_rebalance_red with mtree.
    inversion Hk; subst; simpl; eauto with mtree.
Qed.
End turns.

(** [child] has one black node too few on its paths. *)
Lemma remove_rebalance_ok fuel : forall k child c h,
  rbt child c h -> kok k IBV_BLACK (S h) -> (length k + 2 <= fuel)%nat ->
  repaired (mm_remove_rebalance fuel k child) (lefts k ++ elems child ++ rights k).
Proof.
  induction fuel as [|fuel IH]; intros k child c h Hc Hk Hf; [lia|].
  destruct (decide (is_red child = true \/ k = [])) as [Hstop|Hgo].
  { rewrite <- elems_plug. eapply remove_rebalance_stop; eauto. }
  destruct fuel as [|fuel]; [lia|]. destruct k as [|f k1]; [naive_solver|].
  simpl in Hf. destruct (is_red child) eqn:Hred; [naive_solver|].
  pose proof (not_red_black _ _ _ Hc Hred) as Hb.
  assert (Hup : forall t, rbt t IBV_BLACK (S h) -> kok k1 IBV_BLACK (S (S h)) ->
     repaired (mm_remove_rebalance (S fuel) k1 t) (lefts k1 ++ elems t ++ rights k1)).
  { intros t Ht Hk1. eapply IH; eauto. lia. }
  destruct f as [pc pn sib|pc sib pn].
  - eapply repaired_same; [by eapply left_frame_ok|by list_norm].
  - eapply repaired_same; [by eapply right_frame_ok|by list_norm].
Qed.

(** ** Nodes by address *)

Abbreviation addrs ns := (mn_addr <$> ns).

Lemma locate_none p t : forall k, p ∉ addrs (elems t) -> locate p k t = None.
Proof.
  induction t as [|c l IHl n r IHr]; intros k Hp; simpl in *; [done|].
  rewrite fmap_app, fmap_cons, elem_of_app, elem_of_cons in Hp.
  destruct (Z.eqb_spec (mn_addr n) p); [naive_solver|].
  rewrite IHl, IHr; naive_solver.
Qed.

Lemma nodup_apart (ns1 ns2 : list ibv_mem_node) m n :
  NoDup (addrs (ns1 ++ ns2)) -> m ∈ ns1 -> n ∈ ns2 -> mn_addr m <> mn_addr n.
Proof.
  rewrite fmap_app, NoDup_app. intros (_ & Hd & _) Hm Hn He.
  apply (Hd (mn_addr m)); [by apply list_elem_of_fmap_2|].
  rewrite He. by apply list_elem_of_fmap_2.
Qed.

Lemma locate_spec t : forall k l1 n l2,
  elems t = l1 ++ n :: l2 -> NoDup (addrs (elems t)) ->
  exists k' c l r, locate (mn_addr n) k t = Some (k' ++ k, Node c l n r) /\
    plug k' (Node c l n r) = t /\ lefts k' ++ elems l = l1 /\ elems r ++ rights k' = l2.
Proof.
  induction t as [|c l IHl m r IHr]; intros k l1 n l2 He Hnd; simpl in *.
  { by destruct l1. }
  apply app_cons_split in He as Hs. destruct Hs as [([|n' x] & Hl & Hx)|(x & -> & Hr)].
  - injection Hx as -> ->. rewrite Z.eqb_refl.
    exists [], c, l, r. simpl. rewrite app_nil_r in *. auto.
  - injection Hx as <- ->.
    assert (mn_addr n <> mn_addr m).
    { eapply nodup_apart; [exact Hnd| |]; rewrite ?Hl; set_solver. }
    destruct (Z.eqb_spec (mn_addr m) (mn_addr n)); [congruence|].
    rewrite fmap_app, NoDup_app in Hnd. destruct Hnd as (Hnd & _ & _).
    destruct (IHl (InLeft c m r :: k) l1 n x Hl Hnd) as (k' & c' & l' & r' & E & Hp & E1 & E2).
    exists (k' ++ [InLeft c m r]), c', l', r'. rewrite E, <- app_assoc. split; [done|].
    list_norm. rewrite Hp, <- E2. list_norm. auto.
  - assert (mn_addr m <> mn_addr n).
    { eapply (nodup_apart (elems l ++ [m]) (elems r)); rewrite ?Hr; [|set_solver..].
      by rewrite <- app_assoc, <- Hr. }
    destruct (Z.eqb_spec (mn_addr m) (mn_addr n)); [congruence|].
    rewrite locate_none.
    + rewrite fmap_app, NoDup_app, fmap_cons, NoDup_cons in Hnd. destruct Hnd as (_ & _ & _ & Hnd).
      destruct (IHr (InRight c l m :: k) x n l2 Hr Hnd) as (k' & c' & l' & r' & E & Hp & E1 & E2).
      exists (k' ++ [InRight c l m]), c', l', r'. rewrite E, <- app_assoc. split; [done|].
      list_norm. rewrite Hp, <- E1. list_norm. auto.
    + intros (n' & En & Hin)%list_elem_of_fmap.
      eapply (nodup_apart (elems l) (m :: elems r) n' n); eauto. rewrite Hr. set_solver.
Qed.

(** What a pointer to the node [n] of a tree with these nodes around it sees. *)
Lemma locate_root t l1 n l2 :
  elems t = l1 ++ n :: l2 -> NoDup (addrs (elems t)) ->
  exists k c l r, locate (mn_addr n) [] t = Some (k, Node c l n r) /\
    plug k (Node c l n r) = t /\ lefts k ++ elems l = l1 /\ elems r ++ rights k = l2.
Proof.
  intros He Hnd. destruct (locate_spec t [] l1 n l2 He Hnd) as (k & c & l & r & E & H).
  rewrite app_nil_r in E. eauto 6.
Qed.

Lemma node_at_ok t l1 n l2 :
  elems t = l1 ++ n :: l2 -> NoDup (addrs (elems t)) -> node_at (mn_addr n) t = Ok n.
Proof.
  intros He Hnd. destruct (locate_root _ _ _ _ He Hnd) as (k & c & l & r & E & _).
  unfold node_at. by rewrite E.
Qed.

Lemma set_node_ok f t l1 n l2 :
  elems t = l1 ++ n :: l2 -> NoDup (addrs (elems t)) -> red_black t ->
  exists t', set_node (mn_addr n) f t = Ok t' /\ red_black t' /\ elems t' = l1 ++ f n :: l2.
Proof.
  intros He Hnd Hrb. destruct (locate_root _ _ _ _ He Hnd) as (k & c & l & r & E & <- & <- & <-).
  unfold set_node. rewrite E. eexists. split; [done|]. split; [|by list_norm].
  apply plug_kok in Hrb as (c' & h & Hn & Hk). eapply (kok_plug _ _ c' h); [|done].
  inversion Hn; subst; eauto with mtree.
Qed.

Lemma rightmost_spec r : forall k c l n k' ct lt tmp,
  rightmost k c l n r = (k', (ct, lt, tmp)) ->
  plug k' (Node ct lt tmp Nil) = plug k (Node c l n r) /\
  exists ki, k' = ki ++ k.
Proof.
  induction r as [|c' l' IHl n' r' IHr]; intros k c l n k' ct lt tmp; simpl.
  - intros [= <- <- <- <-]. split; [done|]. by exists [].
  - intros E. apply IHr in E as (E & ki & ->). rewrite E. split; [done|].
    exists (ki ++ [InRight c l n]). by rewrite <- app_assoc.
Qed.

Lemma rightmost_rights r : forall k c l n k' ct lt tmp,
  rightmost k c l n r = (k', (ct, lt, tmp)) -> rights k' = rights k.
Proof.
  induction r as [|c' l' IHl n' r' IHr]; intros k c l n k' ct lt tmp; simpl.
  - by intros [= <- <- <- <-].
  - intros E. by apply IHr in E.
Qed.

Lemma climb_prev_last k : climb_prev k = mn_addr <$> last (lefts k).
Proof.
  induction k as [|[c n r|c l n] k IH]; simpl; auto.
  by rewrite app_assoc, last_snoc.
Qed.

Lemma climb_next_head k : climb_next k = mn_addr <$> head (rights k).
Proof. induction k as [|[c n r|c l n] k IH]; simpl; auto. Qed.

Lemma mm_prev_ok t l1 n l2 :
  elems t = l1 ++ n :: l2 -> NoDup (addrs (elems t)) ->
  __mm_prev (mn_addr n) t = Ok (mn_addr <$> last l1).
Proof.
  intros He Hnd. destruct (locate_root _ _ _ _ He Hnd) as (k & c & l & r & E & _ & <- & _).
  unfold __mm_prev. rewrite E. destruct l as [|c' l' n' r'].
  - by rewrite climb_prev_last, app_nil_r.
  - destruct (rightmost [] c' l' n' r') as (k' & ((ct & lt) & tmp)) eqn:Em.
    apply rightmost_rights in Em as Hr. apply rightmost_spec in Em as (Em & _).
    apply (f_equal elems) in Em. rewrite elems_plug, Hr in Em. cbn [plug] in Em. rewrite <- Em.
    cbn [elems]. by rewrite app_nil_r, !app_assoc, last_snoc.
Qed.

Lemma leftmost_head l : forall n ns, head (elems l ++ n :: ns) = Some (leftmost l n).
Proof.
  induction l as [|c l IHl n' r IHr]; intros n ns; simpl; [done|].
  by rewrite <- app_assoc, <- app_comm_cons, IHl.
Qed.

Lemma mm_next_ok t l1 n l2 :
  elems t = l1 ++ n :: l2 -> NoDup (addrs (elems t)) ->
  __mm_next (mn_addr n) t = Ok (mn_addr <$> head l2).
Proof.
  intros He Hnd. destruct (locate_root _ _ _ _ He Hnd) as (k & c & l & r & E & _ & _ & <-).
  unfold __mm_next. rewrite E. destruct r as [|c' l' n' r'].
  - by rewrite climb_next_head.
  - simpl. by rewrite <- app_assoc, <- app_comm_cons, leftmost_head.
Qed.

(** The node that leaves the tree had at most one child. *)
Lemma hole_ok nodecol child k1 n :
  red_black (plug k1 (Node nodecol child n Nil)) \/ red_black (plug k1 (Node nodecol Nil n child)) ->
  repaired (if decide (nodecol = IBV_RED) then Ok (plug k1 child)
            else mm_remove_rebalance (2 + length k1) k1 child)
    (lefts k1 ++ elems child ++ rights k1).
Proof.
  intros Hrb.
  assert (exists c h, rbt child c h /\
            match nodecol with
            | IBV_RED => kok k1 c h
            | IBV_BLACK => kok k1 IBV_BLACK (S h)
            end) as (c & h & Hc & Hk).
  { destruct Hrb as [Hrb|Hrb]; apply plug_kok in Hrb as (c & h & Hn & Hk);
      inversion Hn; subst; eauto using kok_any. }
  destruct nodecol; case_decide; try done.
  - eexists. split; [done|]. split; [by eapply kok_plug|]. by rewrite elems_plug.
  - eapply remove_rebalance_ok; eauto. lia.
Qed.

Lemma kok_payload kin c n n' r k c' h :
  kok (kin ++ InLeft c n r :: k) c' h -> kok (kin ++ InLeft c n' r :: k) c' h.
Proof.
  revert c' h. induction kin as [|f kin IH]; intros c' h; simpl;
    inversion 1; subst; eauto with mtree.
Qed.

Lemma mm_remove_ok t l1 n l2 :
  elems t = l1 ++ n :: l2 -> NoDup (addrs (elems t)) -> red_black t ->
  repaired (__mm_remove (mn_addr n) t) (l1 ++ l2).
Proof.
  intros He Hnd Hrb. destruct (locate_root _ _ _ _ He Hnd) as (k & c & l & r & E & <- & <- & <-).
  unfold __mm_remove. rewrite E. destruct l as [|c' l' n' r'].
  { eapply repaired_same; [eapply hole_ok; by right|by list_norm]. }
  destruct r as [|c'' l'' n'' r''].
  { eapply repaired_same; [eapply hole_ok; by left|by list_norm]. }
  destruct (rightmost [] c' l' n' r') as (kin & ((ct & lt) & tmp)) eqn:Em.
  apply rightmost_rights in Em as Hr. apply rightmost_spec in Em as (Em & _). simpl in Em, Hr.
  eapply repaired_same; [eapply (hole_ok _ _ _ tmp); left|].
  - rewrite <- Em in Hrb.
    change (red_black (plug (InLeft c n (Node c'' l'' n'' r'') :: k) (plug kin (Node ct lt tmp Nil)))) in Hrb.
    rewrite <- plug_app in Hrb. apply plug_kok in Hrb as (c1 & h1 & Hn & Hk).
    eapply kok_plug; eauto using kok_payload.
  - rewrite <- Em. list_norm. by rewrite Hr.
Qed.

(** ** Balance *)

Fixpoint height (t : mtree) : nat :=
  match t with Nil => 0 | Node _ l _ r => S (Nat.max (height l) (height r)) end.

Lemma rbt_size t c h : rbt t c h -> (2 ^ h <= length (elems t) + 1)%nat.
Proof.
  induction 1; simpl; rewrite ?length_app; simpl in *; lia.
Qed.

Lemma rbt_height t c h :
  rbt t c h -> (height t <= 2 * h + if decide (c = IBV_RED) then 1 else 0)%nat.
Proof.
  induction 1 as [| |l n r cl cr h _ IHl _ IHr]; simpl in *; [lia..|].
  destruct cl, cr; simpl in *; lia.
Qed.

(** C31: insertion and removal end and keep the tree balanced.  On a red-black tree
    ordered by start address, [__mm_add] of a node with a new start returns a red-black
    tree with the node at its place; [__mm_remove] of any node returns a red-black tree
    without it; no null pointer is followed on the way, and no path of such a tree is
    longer than twice the logarithm of its size. *)
Theorem mm_tree_stays_balanced t :
  red_black t -> t <> Nil -> NoDup (addrs (elems t)) ->
  (forall new l1 l2, elems t = l1 ++ l2 ->
     Forall (fun n => mn_start n < mn_start new) l1 ->
     Forall (fun n => mn_start new <= mn_start n) l2 ->
     exists t', __mm_add new t = Ok t' /\ red_black t' /\ elems t' = l1 ++ new :: l2) /\
  (forall n l1 l2, elems t = l1 ++ n :: l2 ->
     exists t', __mm_remove (mn_addr n) t = Ok t' /\ red_black t' /\ elems t' = l1 ++ l2) /\
  (height t <= 2 * Nat.log2 (length (elems t) + 1))%nat.
Proof.
  intros Hrb Hne Hnd. split; [intros; by apply mm_add_ok|].
  split; [intros n l1 l2 He; exact (mm_remove_ok t l1 n l2 He Hnd Hrb)|].
  destruct Hrb as [h Hh]. apply rbt_size in Hh as Hs. apply rbt_height in Hh as Hb.
  case_decide; [done|]. rewrite Nat.add_0_r in Hb. etransitivity; [exact Hb|].
  apply Nat.mul_le_mono_l. rewrite <- (Nat.log2_pow2 h) by lia. by apply Nat.log2_le_mono.
Qed.

(** The tree of four pages with counts 1, 0, 2, 0. *)
Definition example_tree : mtree :=
  Node IBV_BLACK
    (Node IBV_BLACK Nil (MemNode 1 0 4095 1) Nil) (MemNode 2 4096 8191 0)
    (Node IBV_BLACK Nil (MemNode 3 8192 12287 2)
       (Node IBV_RED Nil (MemNode 4 12288 16383 0) Nil)).

Lemma mm_tree_stays_balanced_witness :
  exists t', __mm_remove 1 example_tree = Ok t' /\ red_black t' /\
    elems t' = [MemNode 2 4096 8191 0; MemNode 3 8192 12287 2; MemNode 4 12288 16383 0].
Proof.
  assert (Hrb : red_black example_tree) by (eexists; repeat (econstructor || constructor)).
  assert (Hnd : NoDup (addrs (elems example_tree))) by (apply (bool_decide_unpack _); by vm_compute).
  destruct (mm_tree_stays_balanced example_tree Hrb ltac:(done) Hnd) as (_ & Hrem & _).
  by apply (Hrem (MemNode 1 0 4095 1) [] [MemNode 2 4096 8191 0; MemNode 3 8192 12287 2; MemNode 4 12288 16383 0]).
Defined.
