(* ===== verification/ForkMem.v ===== *)
(** * Fork support (libibverbs/src/memory.c)

    Memory the device reads must not be copied on write when the process forks:
    [ibv_dontfork_range] and [ibv_dofork_range] keep a count per page range in the
    tree of [MemTree] and tell the kernel ([madvise]) when a count leaves or reaches
    zero.  [fork] holds the globals of the file and the calls of [madvise] so far;
    [fork_os] is what the process gets from its environment. *)

From S2P Require Import Prelude MemTree.

Definition MADV_DONTFORK : Z := 10.
Definition MADV_DOFORK : Z := 11.
Definition EINVAL : Z := 22.
Definition ENOMEM : Z := 12.
Definition ENOSYS : Z := 38.
Definition UINTPTR_MAX : Z := 2 ^ 64 - 1.

(** One call of [madvise]: address, length, advice. *)
Record madv := Madv { ma_addr : Z; ma_len : Z; ma_advice : Z }.

(** A line of /proc/<pid>/smaps as the two readers see it: a range, a line with
    "KernelPageSize:" (with the number [sscanf] finds), any other. *)
Inductive smaps_line :=
| SRange (range_start range_end : Z)
| SKernelPageSize (kb : option Z)
| SOther.

Record fork_os := ForkOs {
  os_sysconf_pagesize : Z;
  os_errno : Z;
  os_memalign : option Z;
  os_hugepages_safe : bool;
  os_smaps : option (list smaps_line);
  os_malloc : list Z -> option Z;
  os_madvise : list madv -> madv -> Z }.

Record fork := Fork {
  mm_root : mtree;
  page_size : Z;
  huge_page_enabled : bool;
  too_late : bool;
  madvised : list madv }.

Definition set_root (st : fork) (t : mtree) : fork :=
  Fork t (page_size st) (huge_page_enabled st) (too_late st) (madvised st).

(** [refcnt + inc] in an [int]. *)
Definition int_add (a b : Z) : res Z :=
  if (- 2 ^ 31 <=? a + b) && (a + b <? 2 ^ 31) then Ok (a + b) else Ub.

Fixpoint smaps_page_size (size : Z) (file : list smaps_line) : Z :=
  match file with
  | [] => size
  | SKernelPageSize (Some kb) :: _ => u64 (kb * 1024)
  | SKernelPageSize None :: rest => smaps_page_size size rest
  | _ :: rest => smaps_page_size size rest
  end.

Fixpoint find_smaps (size base : Z) (file : list smaps_line) : Z :=
  match file with
  | [] => size
  | SRange lo hi :: rest =>
      if (lo <=? base) && (base <? hi) then smaps_page_size size rest
      else find_smaps size base rest
  | _ :: rest => find_smaps size base rest
  end.

Section fork.
Context (os : fork_os).

Definition get_page_size (st : fork) (base : Z) : Z :=
  match os_smaps os with
  | None => u64 (page_size st)
  | Some file => find_smaps (u64 (page_size st)) base file
  end.

Definition madvise (st : fork) (addr len advice : Z) : fork * Z :=
  let c := Madv addr len advice in
  (Fork (mm_root st) (page_size st) (huge_page_enabled st) (too_late st) (madvised st ++ [c]),
   os_madvise os (madvised st) c).

Definition malloc (st : fork) : option Z := os_malloc os (addrs (elems (mm_root st))).

Definition ibv_fork_init (st : fork) : fork * Z :=
  match mm_root st with
  | Node _ _ _ _ => (st, 0)
  | Nil =>
    if too_late st then (st, EINVAL)
    else
      let ps := os_sysconf_pagesize os in
      let st := Fork Nil ps (huge_page_enabled st) (too_late st) (madvised st) in
      if ps <? 0 then (st, os_errno os)
      else match os_memalign os with
      | None => (st, ENOMEM)
      | Some tmp =>
        let st := Fork Nil ps (os_hugepages_safe os) (too_late st) (madvised st) in
        let '(size, tmp_aligned) :=
          if huge_page_enabled st then
            (get_page_size st tmp, align_down (get_page_size st tmp) tmp)
          else (ps, tmp) in
        let '(st, r1) := madvise st tmp_aligned size MADV_DONTFORK in
        let '(st, ret) :=
          if r1 =? 0 then madvise st tmp_aligned size MADV_DOFORK else (st, r1) in
        if negb (ret =? 0) then (st, ENOSYS)
        else match malloc st with
        | None => (st, ENOMEM)
        | Some a => (set_root st (Node IBV_BLACK Nil (MemNode a 0 UINTPTR_MAX 0) Nil), 0)
        end
      end
  end.

(** ** Merging and splitting *)

Definition merge_ranges (st : fork) (node prev : Z) : res (fork * Z) :=
  n ← node_at node (mm_root st);
  t ← set_node prev (fun p => set_refcnt (mn_refcnt n) (set_end (mn_end n) p)) (mm_root st);
  t ← __mm_remove node t;
  Ok (set_root st t, prev).

Definition split_range (st : fork) (node cut_line : Z) : res (fork * option Z) :=
  match malloc st with
  | None => Ok (st, None)
  | Some new_node =>
      n ← node_at node (mm_root st);
      t ← set_node node (set_end (u64 (cut_line - 1))) (mm_root st);
      t ← __mm_add (MemNode new_node cut_line (mn_end n) (mn_refcnt n)) t;
      Ok (set_root st t, Some new_node)
  end.

Definition get_start_node (st : fork) (start inc : Z) : res (fork * option Z) :=
  match __mm_find_start start (mm_root st) with
  | None => Ub
  | Some node =>
      n ← node_at node (mm_root st);
      if mn_start n <? start then split_range st node start
      else
        tmp ← __mm_prev node (mm_root st);
        match tmp with
        | None => Ok (st, Some node)
        | Some tmp =>
            p ← node_at tmp (mm_root st);
            c ← int_add (mn_refcnt n) inc;
            if mn_refcnt p =? c then
              '(st, r) ← merge_ranges st node tmp; Ok (st, Some r)
            else Ok (st, Some node)
        end
  end.

(** The end of [undo_node]: merging with the neighbour of the same count. *)
Definition undo_merge_prev (st : fork) (node : Z) : res (fork * Z) :=
  tmp ← __mm_prev node (mm_root st);
  match tmp with
  | None => Ok (st, node)
  | Some tmp =>
      p ← node_at tmp (mm_root st); n ← node_at node (mm_root st);
      if mn_refcnt p =? mn_refcnt n then merge_ranges st node tmp else Ok (st, node)
  end.

Definition undo_merge_next (st : fork) (node : Z) : res (fork * Z) :=
  tmp ← __mm_next node (mm_root st);
  match tmp with
  | None => Ok (st, node)
  | Some tmp =>
      p ← node_at tmp (mm_root st); n ← node_at node (mm_root st);
      if mn_refcnt p =? mn_refcnt n then merge_ranges st tmp node else Ok (st, node)
  end.

Definition undo_node (st : fork) (node start inc : Z) : res (fork * option Z) :=
  n ← node_at node (mm_root st);
  '(st, node) ←
    (if mn_start n <? start then
       '(st, tmp) ← split_range st node start;
       match tmp with
       | Some tmp =>
           n ← node_at node (mm_root st);
           c ← int_add (mn_refcnt n) inc;
           t ← set_node node (set_refcnt c) (mm_root st);
           Ok (set_root st t, Some tmp)
       | None => Ok (st, None)
       end
     else Ok (st, Some node));
  match node with
  | None => Ok (st, None)
  | Some node =>
      '(st, node) ← undo_merge_prev st node;
      '(st, node) ← undo_merge_next st node;
      Ok (st, Some node)
  end.

(** ** Counting a range *)

(** How the [while] loop of [ibv_madvise_range] is left: at a node or at the end,
    through [goto out], or with the node whose [madvise] failed. *)
Inductive loop_exit :=
| LDone (node : option Z)
| LOut (ret : Z)
| LFailed (node ret : Z).

(** [refcnt] goes from or to zero. *)
Definition crosses (inc refcnt : Z) : bool :=
  ((inc =? -1) && (refcnt =? 1)) || ((inc =? 1) && (refcnt =? 0)).

Fixpoint range_loop (fuel : nat) (st : fork) (node : option Z) (start end_ inc advice : Z)
  : res (fork * loop_exit) :=
  match fuel, node with
  | O, _ => Spin
  | _, None => Ok (st, LDone None)
  | S fuel', Some p =>
      n ← node_at p (mm_root st);
      if mn_start n <=? end_ then
        '(st, split) ← (if end_ <? mn_end n then split_range st p (u64 (end_ + 1)) else Ok (st, Some p));
        match split with
        | None => Ok (st, LOut (-1))
        | Some _ =>
          n ← node_at p (mm_root st);
          let '(st, ret) :=
            if crosses inc (mn_refcnt n) then
              if mn_start n <? start then
                madvise st start (u64 (mn_end n - start + 1)) advice
              else madvise st (mn_start n) (u64 (mn_end n - mn_start n + 1)) advice
            else (st, 0) in
          if negb (ret =? 0) then Ok (st, LFailed p ret)
          else
            c ← int_add (mn_refcnt n) inc;
            t ← set_node p (set_refcnt c) (mm_root st);
            next ← __mm_next p t;
            range_loop fuel' (set_root st t) next start end_ inc advice
        end
      else Ok (st, LDone (Some p))
  end.

Definition tree_size (t : mtree) : nat := length (elems t).

(** After the loop: the node behind the range may have become like the last one. *)
Definition merge_behind (st : fork) (node : option Z) : res fork :=
  match node with
  | None => Ok st
  | Some p =>
      tmp ← __mm_prev p (mm_root st);
      match tmp with
      | None => Ok st
      | Some q =>
          n ← node_at p (mm_root st); m ← node_at q (mm_root st);
          if mn_refcnt n =? mn_refcnt m then '(st, _) ← merge_ranges st p q; Ok st else Ok st
      end
  end.

(** From the label [again] on; [passes] bounds the jumps back to it. *)
Fixpoint madvise_pass (passes : nat) (st : fork) (start end_ advice : Z) (rolling_back : bool)
  : res (fork * Z) :=
  match passes with
  | O => Spin
  | S passes' =>
      let out st ret := Ok (st, if rolling_back then -1 else ret) in
      let inc := if advice =? MADV_DONTFORK then 1 else -1 in
      '(st, node) ← get_start_node st start inc;
      match node with
      | None => out st (-1)
      | Some node =>
        '(st, ex) ← range_loop (3 + tree_size (mm_root st)) st (Some node) start end_ inc advice;
        match ex with
        | LDone node => st ← merge_behind st node; out st 0
        | LOut ret => out st ret
        | LFailed node ret =>
            '(st, node) ← undo_node st node start inc;
            match node with
            | None => out st ret
            | Some node =>
                if rolling_back then out st ret
                else
                  tmp ← __mm_prev node (mm_root st);
                  match tmp with
                  | None => Ok (st, -1)
                  | Some tmp =>
                      m ← node_at tmp (mm_root st);
                      if mn_end m <? start then Ok (st, -1)
                      else madvise_pass passes' st start (mn_end m)
                             (if advice =? MADV_DONTFORK then MADV_DOFORK else MADV_DONTFORK) true
                  end
            end
        end
      end
  end.

Definition range_start (ps base : Z) : Z := align_down ps base.
Definition range_end (ps base size : Z) : Z :=
  u64 (align_down ps (u64 (base + size + ps - 1)) - 1).

Definition ibv_madvise_range (st : fork) (base size advice : Z) : res (fork * Z) :=
  if size =? 0 then Ok (st, 0)
  else
    let range_page_size :=
      if huge_page_enabled st then get_page_size st base else u64 (page_size st) in
    madvise_pass 2 st (range_start range_page_size base)
      (range_end range_page_size base size) advice false.

Definition ibv_dontfork_range (st : fork) (base size : Z) : res (fork * Z) :=
  match mm_root st with
  | Node _ _ _ _ => ibv_madvise_range st base size MADV_DONTFORK
  | Nil => Ok (Fork Nil (page_size st) (huge_page_enabled st) true (madvised st), 0)
  end.

Definition ibv_dofork_range (st : fork) (base size : Z) : res (fork * Z) :=
  match mm_root st with
  | Node _ _ _ _ => ibv_madvise_range st base size MADV_DOFORK
  | Nil => Ok (Fork Nil (page_size st) (huge_page_enabled st) true (madvised st), 0)
  end.

End fork.
