(* ===== verification/ForkSpec.v ===== *)
(** * Fork support keeps its counts

    The tree is a partition of the address space into ranges with a count each.
    Adding to a range adds to the count of exactly its addresses, the partition stays
    a partition without equal neighbours, and the kernel's marks agree with the counts. *)

From S2P Require Import Prelude MemTree ForkMem.

(** ** Ranges that partition [lo .. hi] *)

Fixpoint cover (lo hi : Z) (ns : list ibv_mem_node) : Prop :=
  match ns with
  | [] => lo = hi + 1
  | n :: ns' => mn_start n = lo /\ lo <= mn_end n /\ cover (mn_end n + 1) hi ns'
  end.

(** The count of an address. *)
Fixpoint refcnt_at (ns : list ibv_mem_node) (x : Z) : Z :=
  match ns with
  | [] => 0
  | n :: ns' => if (mn_start n <=? x) && (x <=? mn_end n) then mn_refcnt n else refcnt_at ns' x
  end.

(** No two neighbours with the same count. *)
Fixpoint apart (ns : list ibv_mem_node) : Prop :=
  match ns with
  | n :: (m :: _) as ns' => mn_refcnt n <> mn_refcnt m /\ apart ns'
  | _ => True
  end.

Lemma apart_app l1 n l2 : apart (l1 ++ n :: l2) <-> apart (l1 ++ [n]) /\ apart (n :: l2).
Proof. induction l1 as [|q [|q' l1] IH]; simpl in *; naive_solver. Qed.

Lemma apart_recount l1 n m : mn_refcnt n = mn_refcnt m -> apart (l1 ++ [n]) -> apart (l1 ++ [m]).
Proof. intros E. induction l1 as [|? [|? l1] IH]; simpl; [done|..]; naive_solver congruence. Qed.

(** The mark of an address after these calls: the last one that covers it. *)
Definition covers (c : madv) (x : Z) : bool := (ma_addr c <=? x) && (x <? ma_addr c + ma_len c).

Definition marked (tr : list madv) (x : Z) : bool :=
  fold_left (fun b c => if covers c x then ma_advice c =? MADV_DONTFORK else b) tr false.

Lemma marked_snoc tr c x :
  marked (tr ++ [c]) x = if covers c x then ma_advice c =? MADV_DONTFORK else marked tr x.
Proof. unfold marked. by rewrite fold_left_app. Qed.

Lemma cover_le lo hi ns : cover lo hi ns -> lo <= hi + 1.
Proof.
  revert lo. induction ns as [|n ns IH]; simpl; intros lo; [lia|].
  intros (? & ? & Hc). apply IH in Hc. lia.
Qed.

Lemma cover_app lo hi l1 l2 :
  cover lo hi (l1 ++ l2) <-> exists mid, cover lo (mid - 1) l1 /\ cover mid hi l2.
Proof.
  revert lo. induction l1 as [|n l1 IH]; simpl; intros lo.
  - split; [intros H; exists lo; split; [lia|done]|intros (mid & -> & H)].
    by replace (mid - 1 + 1) with mid by lia.
  - rewrite IH. naive_solver.
Qed.

Lemma cover_forall lo hi ns :
  cover lo hi ns -> Forall (fun n => lo <= mn_start n <= mn_end n /\ mn_end n <= hi) ns.
Proof.
  revert lo. induction ns as [|n ns IH]; simpl; intros lo; [constructor|].
  intros (? & ? & Hc). apply cover_le in Hc as ?. constructor; [lia|].
  eapply Forall_impl; [by apply IH|]. simpl. lia.
Qed.

Lemma refcnt_at_below lo hi ns x : cover lo hi ns -> x < lo -> refcnt_at ns x = 0.
Proof.
  revert lo. induction ns as [|n ns IH]; simpl; intros lo; [done|].
  intros (? & ? & Hc) Hx. destruct (Z.leb_spec (mn_start n) x); [lia|]. simpl.
  apply (IH _ Hc). lia.
Qed.

Lemma refcnt_at_app lo mid l1 l2 x :
  cover lo (mid - 1) l1 -> lo <= x ->
  refcnt_at (l1 ++ l2) x = if x <? mid then refcnt_at l1 x else refcnt_at l2 x.
Proof.
  revert lo. induction l1 as [|n l1 IH]; simpl; intros lo Hc Hx.
  - destruct (Z.ltb_spec x mid); [lia|done].
  - destruct Hc as (? & ? & Hc). apply cover_le in Hc as ?.
    destruct (Z.leb_spec (mn_start n) x), (Z.leb_spec x (mn_end n)); simpl; try lia.
    + by destruct (Z.ltb_spec x mid); [|lia].
    + by apply (IH _ Hc); lia.
Qed.

(** Splits a goal or hypothesis on the interval tests in it, and closes it by [lia]
    where the case is impossible. *)
Ltac ztests :=
  repeat (match goal with
  | |- context [?a <=? ?b] => destruct (Z.leb_spec a b)
  | |- context [?a <? ?b] => destruct (Z.ltb_spec a b)
  end; try lia); cbn [andb negb]; try lia.

(** Replacing one range by ranges over the same addresses. *)
Lemma refcnt_at_mid lo hi l1 n l2 x :
  cover lo hi (l1 ++ n :: l2) -> lo <= x ->
  refcnt_at (l1 ++ n :: l2) x =
    if x <? mn_start n then refcnt_at l1 x
    else if x <=? mn_end n then mn_refcnt n else refcnt_at l2 x.
Proof.
  intros Hc Hx. apply cover_app in Hc as (mid & H1 & Hs & ? & H2).
  rewrite (refcnt_at_app lo mid) by done. simpl. by ztests.
Qed.

(** ** A tree that holds a list of ranges *)

Definition repr (t : mtree) (ns : list ibv_mem_node) : Prop :=
  red_black t /\ elems t = ns /\ NoDup (addrs ns).

Lemma repr_node_at t l1 n l2 : repr t (l1 ++ n :: l2) -> node_at (mn_addr n) t = Ok n.
Proof. intros (_ & E & Hnd). rewrite <- E in Hnd. by eapply node_at_ok. Qed.

Lemma repr_prev t l1 n l2 :
  repr t (l1 ++ n :: l2) -> __mm_prev (mn_addr n) t = Ok (mn_addr <$> last l1).
Proof. intros (_ & E & Hnd). rewrite <- E in Hnd. by eapply mm_prev_ok. Qed.

Lemma repr_next t l1 n l2 :
  repr t (l1 ++ n :: l2) -> __mm_next (mn_addr n) t = Ok (mn_addr <$> head l2).
Proof. intros (_ & E & Hnd). rewrite <- E in Hnd. by eapply mm_next_ok. Qed.

Lemma repr_set t l1 n l2 f :
  repr t (l1 ++ n :: l2) -> mn_addr (f n) = mn_addr n ->
  exists t', set_node (mn_addr n) f t = Ok t' /\ repr t' (l1 ++ f n :: l2).
Proof.
  intros (Hrb & E & Hnd) Hf. rewrite <- E in Hnd.
  destruct (set_node_ok f _ _ _ _ E Hnd Hrb) as (t' & Ht & Hrb' & E').
  exists t'. split; [done|]. split; [done|]. split; [done|].
  rewrite E in Hnd. by rewrite fmap_app, fmap_cons, Hf, <- fmap_cons, <- fmap_app.
Qed.

Lemma repr_remove t l1 n l2 :
  repr t (l1 ++ n :: l2) -> exists t', __mm_remove (mn_addr n) t = Ok t' /\ repr t' (l1 ++ l2).
Proof.
  intros (Hrb & E & Hnd). rewrite <- E in Hnd.
  destruct (mm_remove_ok _ _ _ _ E Hnd Hrb) as (t' & Ht & Hrb' & E').
  exists t'. split; [done|]. split; [done|]. split; [done|].
  rewrite E in Hnd. rewrite fmap_app in *. rewrite fmap_cons in Hnd.
  apply NoDup_app in Hnd as (H1 & H2 & H3). apply NoDup_cons in H3 as [H3 H4].
  apply NoDup_app. set_solver.
Qed.

Lemma repr_add t l1 n l2 :
  repr t (l1 ++ l2) -> l1 ++ l2 <> [] -> mn_addr n ∉ addrs (l1 ++ l2) ->
  Forall (fun m => mn_start m < mn_start n) l1 -> Forall (fun m => mn_start n <= mn_start m) l2 ->
  exists t', __mm_add n t = Ok t' /\ repr t' (l1 ++ n :: l2).
Proof.
  intros (Hrb & E & Hnd) Hne Hfresh H1 H2.
  destruct (mm_add_ok n t l1 l2) as (t' & Ht & Hrb' & E'); auto; [by intros ->|].
  exists t'. split; [done|]. split; [done|]. split; [done|].
  rewrite fmap_app in *. rewrite fmap_cons. rewrite NoDup_app in *. rewrite NoDup_cons.
  set_solver.
Qed.

Lemma repr_find t ns lo hi x :
  repr t ns -> cover lo hi ns -> lo <= x <= hi ->
  exists l1 n l2, ns = l1 ++ n :: l2 /\ __mm_find_start x t = Some (mn_addr n) /\
    mn_start n <= x <= mn_end n.
Proof.
  intros (_ & E & _). revert ns lo hi E.
  induction t as [|c l IHl n r IHr]; intros ns lo hi <- Hc Hx; simpl in *; [lia|].
  apply cover_app in Hc as Hs. destruct Hs as (mid & Hl & Hn & ? & Hr).
  destruct (Z.leb_spec (mn_start n) x), (Z.leb_spec x (mn_end n)); simpl.
  - exists (elems l), n, (elems r). auto with lia.
  - destruct (Z.ltb_spec (mn_start n) x); [|lia].
    destruct (IHr _ _ _ eq_refl Hr) as (l1 & m & l2 & E & Hm & ?); [lia|].
    exists (elems l ++ n :: l1), m, l2. by rewrite E, <- app_assoc.
  - destruct (Z.ltb_spec (mn_start n) x); [lia|].
    destruct (IHl _ _ _ eq_refl Hl) as (l1 & m & l2 & E & Hm & ?); [lia|].
    exists l1, m, (l2 ++ n :: elems r). by rewrite E, <- app_assoc.
  - lia.
Qed.

(** ** Merging, splitting and the loop *)

Section ops.
Context (os : fork_os).

(** [malloc] gives memory not in use. *)
Hypothesis malloc_fresh : forall live a, os_malloc os live = Some a -> a ∉ live.

Definition with_tree (st : fork) (t : mtree) (tr : list madv) : fork :=
  Fork t (page_size st) (huge_page_enabled st) (too_late st) tr.

Lemma merge_ranges_ok st l1 p n l2 :
  repr (mm_root st) (l1 ++ p :: n :: l2) ->
  exists t, merge_ranges st (mn_addr n) (mn_addr p) = Ok (set_root st t, mn_addr p) /\
    repr t (l1 ++ set_refcnt (mn_refcnt n) (set_end (mn_end n) p) :: l2).
Proof.
  intros H. unfold merge_ranges.
  assert (H' : repr (mm_root st) ((l1 ++ [p]) ++ n :: l2)) by (by rewrite <- app_assoc).
  rewrite (repr_node_at _ _ _ _ H'). cbn [mbind res_bind].
  destruct (repr_set _ _ _ _ (fun p => set_refcnt (mn_refcnt n) (set_end (mn_end n) p)) H)
    as (t & -> & Ht); [done|]. cbn [mbind res_bind].
  set (p' := set_refcnt (mn_refcnt n) (set_end (mn_end n) p)) in *.
  change (l1 ++ p' :: n :: l2) with (l1 ++ [p'] ++ n :: l2) in Ht. rewrite app_assoc in Ht.
  destruct (repr_remove _ _ _ _ Ht) as (t' & -> & Ht'). exists t'. cbn.
  by rewrite <- app_assoc in Ht'.
Qed.

(** The part of [n] that [split_range] leaves and the part it moves. *)
Lemma split_range_ok st lo hi l1 n l2 cut a :
  repr (mm_root st) (l1 ++ n :: l2) -> cover lo hi (l1 ++ n :: l2) ->
  mn_start n < cut <= mn_end n -> 0 <= lo -> hi <= UINTPTR_MAX ->
  malloc os st = Some a ->
  exists t, split_range os st (mn_addr n) cut = Ok (set_root st t, Some a) /\
    repr t (l1 ++ set_end (cut - 1) n :: MemNode a cut (mn_end n) (mn_refcnt n) :: l2).
Proof.
  intros H Hc Hcut Hlo Hhi Ha. unfold split_range. rewrite Ha.
  rewrite (repr_node_at _ _ _ _ H). cbn [mbind res_bind].
  apply cover_forall in Hc as Hf. rewrite Forall_app, Forall_cons in Hf.
  destruct Hf as (Hf1 & Hn & _). unfold UINTPTR_MAX in *.
  rewrite u64_small by lia.
  destruct (repr_set _ _ _ _ (set_end (cut - 1)) H) as (t & -> & Ht); [done|].
  cbn [mbind res_bind].
  apply cover_app in Hc as (mid & Hc1 & Hs & ? & Hc2).
  change (l1 ++ set_end (cut - 1) n :: l2) with (l1 ++ [set_end (cut - 1) n] ++ l2) in Ht.
  rewrite app_assoc in Ht.
  destruct (repr_add _ _ (MemNode a cut (mn_end n) (mn_refcnt n)) _ Ht) as (t' & -> & Ht').
  - by destruct l1.
  - unfold malloc in Ha. apply malloc_fresh in Ha. destruct H as (_ & E & _). rewrite E in Ha.
    cbn [mn_addr]. rewrite !fmap_app in *. cbn in *. set_solver.
  - apply Forall_app. split; [|by repeat constructor; simpl; lia].
    apply cover_forall in Hc1. eapply Forall_impl; [exact Hc1|]. simpl. lia.
  - apply cover_forall in Hc2. eapply Forall_impl; [exact Hc2|]. simpl. lia.
  - exists t'. cbn. by rewrite <- app_assoc in Ht'.
Qed.

(** The range the loop works on, and the conditions under which it counts. *)
Context (start e inc advice : Z).
Hypothesis e_below : e < UINTPTR_MAX.

Definition counts (n : ibv_mem_node) : Prop := - 2 ^ 31 <= mn_refcnt n + inc < 2 ^ 31.

(** The call for a node inside the range, and the calls after it. *)
Definition call_for (n : ibv_mem_node) : madv :=
  let s := Z.max start (mn_start n) in Madv s (mn_end n - s + 1) advice.

Definition calls_after (tr : list madv) (n : ibv_mem_node) : list madv :=
  if crosses inc (mn_refcnt n) then tr ++ [call_for n] else tr.

Definition call_succeeds (tr : list madv) (n : ibv_mem_node) : Prop :=
  crosses inc (mn_refcnt n) = true -> os_madvise os tr (call_for n) = 0.

(** What the loop does at a node inside the range, whatever [madvise] says. *)
Lemma loop_at fuel st l1 n l2 :
  repr (mm_root st) (l1 ++ n :: l2) -> 0 <= mn_start n <= mn_end n -> mn_end n <= e ->
  start <= mn_end n ->
  range_loop os (S fuel) st (Some (mn_addr n)) start e inc advice =
    (let st' := with_tree st (mm_root st) (calls_after (madvised st) n) in
     if crosses inc (mn_refcnt n) && negb (os_madvise os (madvised st) (call_for n) =? 0)
     then Ok (st', LFailed (mn_addr n) (os_madvise os (madvised st) (call_for n)))
     else
       c ← int_add (mn_refcnt n) inc;
       t ← set_node (mn_addr n) (set_refcnt c) (mm_root st);
       next ← __mm_next (mn_addr n) t;
       range_loop os fuel (set_root st' t) next start e inc advice).
Proof.
  intros H Hn He Hs. unfold UINTPTR_MAX in *. cbn [range_loop].
  rewrite (repr_node_at _ _ _ _ H). cbn [mbind res_bind].
  destruct (Z.leb_spec (mn_start n) e); [|lia].
  destruct (Z.ltb_spec e (mn_end n)); [lia|]. cbn [mbind res_bind].
  rewrite (repr_node_at _ _ _ _ H). cbn [mbind res_bind].
  unfold calls_after, call_for. destruct (crosses inc (mn_refcnt n)); [|by destruct st].
  unfold madvise. destruct (Z.ltb_spec (mn_start n) start).
  - rewrite Z.max_l by lia. rewrite u64_small by lia. cbn [andb].
    by destruct (_ =? 0).
  - rewrite Z.max_r by lia. rewrite u64_small by lia. cbn [andb].
    by destruct (_ =? 0).
Qed.

Lemma loop_turn fuel st l1 n l2 :
  repr (mm_root st) (l1 ++ n :: l2) -> 0 <= mn_start n <= mn_end n -> mn_end n <= e ->
  start <= mn_end n -> counts n -> call_succeeds (madvised st) n ->
  exists t, repr t (l1 ++ set_refcnt (mn_refcnt n + inc) n :: l2) /\
    range_loop os (S fuel) st (Some (mn_addr n)) start e inc advice =
    range_loop os fuel (with_tree st t (calls_after (madvised st) n)) (mn_addr <$> head l2)
      start e inc advice.
Proof.
  intros H Hn He Hs Hc Hok. rewrite (loop_at _ _ _ _ _ H) by lia. cbv zeta.
  assert (crosses inc (mn_refcnt n) && negb (os_madvise os (madvised st) (call_for n) =? 0) = false)
    as ->.
  { unfold call_succeeds in Hok. destruct (crosses _ _); [|done]. by rewrite Hok. }
  unfold int_add, counts in *.
  destruct (Z.leb_spec (- 2 ^ 31) (mn_refcnt n + inc)); [|lia].
  destruct (Z.ltb_spec (mn_refcnt n + inc) (2 ^ 31)); [|lia]. cbn [andb mbind res_bind].
  destruct (repr_set _ _ _ _ (set_refcnt (mn_refcnt n + inc)) H) as (t & -> & Ht); [done|].
  cbn [mbind res_bind]. pose proof (repr_next _ _ _ _ Ht) as Hnx. cbn [set_refcnt mn_addr] in Hnx.
  rewrite Hnx. cbn [mbind res_bind]. by exists t.
Qed.

(** A node that reaches beyond the range is cut first. *)
Lemma loop_cut fuel st lo hi l1 n l2 a :
  repr (mm_root st) (l1 ++ n :: l2) -> cover lo hi (l1 ++ n :: l2) ->
  0 <= lo -> hi <= UINTPTR_MAX -> mn_start n <= e < mn_end n ->
  malloc os st = Some a ->
  exists t, repr t (l1 ++ set_end e n :: MemNode a (e + 1) (mn_end n) (mn_refcnt n) :: l2) /\
    range_loop os (S fuel) st (Some (mn_addr n)) start e inc advice =
    range_loop os (S fuel) (set_root st t) (Some (mn_addr n)) start e inc advice.
Proof.
  intros H Hc Hlo Hhi Hn Ha.
  destruct (split_range_ok st lo hi l1 n l2 (e + 1) a) as (t & Hsp & Ht); auto; [lia|].
  replace (e + 1 - 1) with e in Ht by lia. exists t. split; [done|].
  cbn [range_loop]. rewrite (repr_node_at _ _ _ _ H). cbn [mbind res_bind].
  destruct (Z.leb_spec (mn_start n) e); [|lia]. destruct (Z.ltb_spec e (mn_end n)); [|lia].
  apply cover_forall in Hc. rewrite Forall_app, Forall_cons in Hc. unfold UINTPTR_MAX in *.
  rewrite u64_small, Hsp by lia. cbn [mbind res_bind].
  pose proof (repr_node_at _ _ _ _ Ht) as Hna. cbn [mn_addr set_end] in Hna.
  cbn [mm_root set_root]. rewrite Hna. cbn [mbind res_bind mn_start mn_end set_end].
  destruct (Z.leb_spec (mn_start n) e); [|lia]. rewrite Z.ltb_irrefl.
  cbn [mbind res_bind mm_root set_root]. by rewrite Hna.
Qed.

(** The marks after the loop has gone over the nodes [ns] of the range. *)
Definition marks_after (tr tr' : list madv) (s : Z) (ns : list ibv_mem_node) : Prop :=
  forall x, marked tr' x =
    if (s <=? x) && (start <=? x) && (x <=? e) && crosses inc (refcnt_at ns x)
    then advice =? MADV_DONTFORK else marked tr x.

(** Every [malloc] succeeds, and every call of [madvise] with this advice. *)
Hypothesis malloc_some : forall live, is_Some (os_malloc os live).
Hypothesis madvise_zero : forall tr c, ma_advice c = advice -> os_madvise os tr c = 0.

Lemma calls_succeed tr n : call_succeeds tr n.
Proof. intros _. by apply madvise_zero. Qed.

(** What the loop leaves of [l1 ++ n :: l2]: the nodes [ins] up to [e] and those
    behind, with [inc] added to the counts from [n] to [e]. *)
Record looped (tr tr' : list madv) (lo hi : Z) (l1 : list ibv_mem_node) (n : ibv_mem_node)
    (l2 ins behind : list ibv_mem_node) : Prop := Looped {
  lp_ins : cover lo e ins;
  lp_behind : cover (e + 1) hi behind;
  lp_count : forall x, lo <= x -> refcnt_at (ins ++ behind) x =
    refcnt_at (l1 ++ n :: l2) x + (if (mn_start n <=? x) && (x <=? e) then inc else 0);
  lp_marks : marks_after tr tr' (mn_start n) (n :: l2);
  lp_apart_ins : apart ins;
  lp_apart_behind : apart behind }.

Lemma loop_done fuel st hi behind l1 :
  repr (mm_root st) (l1 ++ behind) -> cover (e + 1) hi behind ->
  range_loop os (S fuel) st (mn_addr <$> head behind) start e inc advice =
    Ok (st, LDone (mn_addr <$> head behind)).
Proof.
  intros H Hc. destruct behind as [|m l2]; [done|]. cbn [head fmap option_fmap option_map range_loop].
  rewrite (repr_node_at _ _ _ _ H). cbn [mbind res_bind]. destruct Hc as (E & _).
  destruct (Z.leb_spec (mn_start m) e); [lia|done].
Qed.

(** The marks a turn leaves at a node inside the range. *)
Lemma calls_after_marked tr n x :
  start <= mn_end n -> mn_start n <= mn_end n ->
  marked (calls_after tr n) x =
    if (mn_start n <=? x) && (start <=? x) && (x <=? mn_end n) && crosses inc (mn_refcnt n)
    then advice =? MADV_DONTFORK else marked tr x.
Proof.
  intros Hs Hn. unfold calls_after. destruct (crosses inc (mn_refcnt n)).
  - rewrite marked_snoc. unfold covers, call_for. cbn [ma_addr ma_len ma_advice].
    rewrite andb_true_r. by ztests.
  - by rewrite andb_false_r.
Qed.

(** The last turn: [n], cut at [e] where it reaches further, and what is behind it. *)
Lemma looped_last tr lo hi l1 n l2 behind :
  cover lo hi (l1 ++ n :: l2) -> mn_start n <= e <= mn_end n -> start <= e ->
  apart (l1 ++ [set_refcnt (mn_refcnt n + inc) n]) -> apart behind ->
  cover (e + 1) hi behind ->
  (forall x, e < x -> refcnt_at behind x = refcnt_at (n :: l2) x) ->
  looped tr (calls_after tr (set_end e n)) lo hi l1 n l2
    (l1 ++ [set_refcnt (mn_refcnt n + inc) (set_end e n)]) behind.
Proof.
  intros Hc Hn Hs Ha Hab Hb Hx. apply cover_app in Hc as Hc'.
  destruct Hc' as (mid & H1 & Hm & ? & H2).
  assert (Hins : cover lo e (l1 ++ [set_refcnt (mn_refcnt n + inc) (set_end e n)])).
  { apply cover_app. exists mid. simpl. auto with lia. }
  split; [done|done|..].
  - intros x Hlo. rewrite (refcnt_at_app lo (e + 1)) by (rewrite ?Z.add_simpl_r; done).
    rewrite (refcnt_at_mid lo hi l1 n l2) by done.
    destruct (Z.ltb_spec x (e + 1)).
    + rewrite (refcnt_at_mid lo e _ _ []) by done. cbn [mn_start mn_end mn_refcnt set_refcnt set_end].
      by ztests.
    + rewrite Hx by lia. simpl. by ztests.
  - intros x. rewrite calls_after_marked by (simpl; lia). simpl. by ztests.
  - revert Ha. clear. induction l1 as [|q [|q' l1] IH]; simpl; naive_solver.
  - done.
Qed.

(** A turn in the middle, before the rest of the loop. *)
Lemma looped_turn tr tr' lo hi l1 n m l2 ins behind :
  cover lo hi (l1 ++ n :: m :: l2) -> mn_end n < e -> start <= mn_end n ->
  looped (calls_after tr n) tr' lo hi (l1 ++ [set_refcnt (mn_refcnt n + inc) n]) m l2 ins behind ->
  looped tr tr' lo hi l1 n (m :: l2) ins behind.
Proof.
  intros Hc Hn Hs [H1 H2 H3 H4 H5 H6].
  apply cover_app in Hc as Hc'. destruct Hc' as (mid & Hc1 & Hm & ? & Em & ? & Hc2).
  split; auto.
  - intros x Hx. rewrite H3, <- app_assoc by done. simpl app.
    rewrite (refcnt_at_mid lo hi l1 n) by done.
    rewrite (refcnt_at_mid lo hi l1 (set_refcnt _ n))
      by (done || (apply cover_app; exists mid; simpl; auto 10)).
    cbn [set_refcnt mn_start mn_end mn_refcnt]. by ztests.
  - intros x. rewrite H4, calls_after_marked by lia.
    destruct (Z.leb_spec (mn_start n) x); [|by ztests].
    cbn [refcnt_at]. by ztests.
Qed.

(** The loop does its work and leaves the tree in order. *)
Definition loop_works (fuel : nat) (st : fork) (lo hi : Z) (l1 : list ibv_mem_node)
    (n : ibv_mem_node) (l2 : list ibv_mem_node) : Prop :=
  exists t tr ins behind,
    range_loop os fuel st (Some (mn_addr n)) start e inc advice =
      Ok (with_tree st t tr, LDone (mn_addr <$> head behind)) /\
    repr t (ins ++ behind) /\ looped (madvised st) tr lo hi l1 n l2 ins behind.

Lemma set_end_id n : set_end (mn_end n) n = n.
Proof. by destruct n. Qed.

Lemma loop_last_exact fuel st lo hi l1 n l2 :
  repr (mm_root st) (l1 ++ n :: l2) -> cover lo hi (l1 ++ n :: l2) ->
  0 <= lo -> mn_end n = e -> start <= e -> counts n -> call_succeeds (madvised st) n ->
  apart (l1 ++ [set_refcnt (mn_refcnt n + inc) n]) -> apart l2 ->
  loop_works (S (S fuel)) st lo hi l1 n l2.
Proof.
  intros H Hc Hlo He Hse Hcnt Hok Ha1 Ha2.
  apply cover_app in Hc as Hc'. destruct Hc' as (mid & Hc1 & Hm & ? & Hc2). apply cover_le in Hc1 as ?.
  destruct (loop_turn (S fuel) st l1 n l2) as (t & Ht & E); auto; try lia.
  exists t, (calls_after (madvised st) n), (l1 ++ [set_refcnt (mn_refcnt n + inc) n]), l2.
  rewrite E. rewrite He in Hc2.
  assert (Ht' : repr t ((l1 ++ [set_refcnt (mn_refcnt n + inc) n]) ++ l2))
    by (by rewrite <- app_assoc).
  split; [eapply loop_done; eauto|]. split; [done|].
  assert (set_end e n = n) as En by (by rewrite <- He, set_end_id).
  pose proof (looped_last (madvised st) lo hi l1 n l2 l2) as Hl. rewrite En in Hl.
  apply Hl; auto; try lia. intros x Hx. simpl. by ztests.
Qed.

Lemma loop_last fuel st lo hi l1 n l2 :
  repr (mm_root st) (l1 ++ n :: l2) -> cover lo hi (l1 ++ n :: l2) ->
  0 <= lo -> hi <= UINTPTR_MAX -> mn_start n <= e <= mn_end n -> start <= e -> counts n ->
  call_succeeds (madvised st) (set_end e n) ->
  apart (l1 ++ [set_refcnt (mn_refcnt n + inc) n]) -> apart (n :: l2) ->
  loop_works (S (S fuel)) st lo hi l1 n l2.
Proof.
  intros H Hc Hlo Hhi Hn Hse Hcnt Hok Ha1 Ha2.
  destruct (decide (mn_end n = e)) as [He|He].
  { rewrite <- He, set_end_id in Hok. apply loop_last_exact; auto. destruct l2; simpl in *; naive_solver. }
  destruct (malloc_some (addrs (elems (mm_root st)))) as [a Ha].
  destruct (loop_cut (S fuel) st lo hi l1 n l2 a) as (t0 & Ht0 & E0); auto; [lia|].
  set (m := MemNode a (e + 1) (mn_end n) (mn_refcnt n)) in *.
  apply cover_app in Hc as Hc'. destruct Hc' as (mid & Hc1 & Hm & ? & Hc2). apply cover_le in Hc1 as ?.
  destruct (loop_turn (S fuel) (set_root st t0) l1 (set_end e n) (m :: l2)) as (t & Ht & E);
    simpl; auto; try lia.
  exists t, (calls_after (madvised st) (set_end e n)),
    (l1 ++ [set_refcnt (mn_refcnt n + inc) (set_end e n)]), (m :: l2).
  cbn [mn_addr set_end] in E. rewrite E0, E.
  assert (Ht' : repr t ((l1 ++ [set_refcnt (mn_refcnt n + inc) (set_end e n)]) ++ m :: l2))
    by (by rewrite <- app_assoc).
  assert (Hcb : cover (e + 1) hi (m :: l2)) by (simpl; auto with lia).
  split; [eapply (loop_done _ (with_tree (set_root st t0) t _)); eauto|]. split; [done|].
  apply looped_last; auto.
  intros x Hx. simpl. by ztests.
Qed.

Lemma range_loop_ok l2 : forall fuel st lo hi l1 n,
  repr (mm_root st) (l1 ++ n :: l2) -> cover lo hi (l1 ++ n :: l2) ->
  0 <= lo -> hi <= UINTPTR_MAX -> mn_start n <= e <= hi -> start <= mn_end n -> start <= e ->
  Forall counts (n :: l2) -> apart (l1 ++ [set_refcnt (mn_refcnt n + inc) n]) -> apart (n :: l2) ->
  (length l2 + 2 <= fuel)%nat -> loop_works fuel st lo hi l1 n l2.
Proof.
  induction l2 as [|m l2 IH]; intros fuel st lo hi l1 n H Hc Hlo Hhi Hn Hs Hse Hcnt Ha1 Ha2 Hf;
    apply Forall_cons in Hcnt as [Hcn Hcnt];
    (destruct (decide (e <= mn_end n));
      [destruct fuel as [|[|fuel]]; simpl length in *; [lia|lia|]; apply loop_last; auto using calls_succeed; lia|]).
  { apply cover_app in Hc as (mid & _ & _ & _ & E). simpl in E. lia. }
  simpl length in Hf. destruct fuel as [|fuel]; [lia|].
  apply cover_app in Hc as Hc'. destruct Hc' as (mid & Hc1 & Hm & ? & Em & ? & Hc2).
  apply cover_le in Hc1 as ?.
  set (n' := set_refcnt (mn_refcnt n + inc) n) in *.
  destruct (loop_turn fuel st l1 n (m :: l2)) as (t & Ht & E); auto using calls_succeed; try lia.
  destruct (IH fuel (with_tree st t (calls_after (madvised st) n)) lo hi (l1 ++ [n']) m)
    as (t' & tr & ins & behind & E' & Ht' & Hl); auto; try lia.
  - by rewrite <- app_assoc.
  - rewrite <- app_assoc. apply cover_app. exists mid. simpl. auto 10.
  - rewrite <- app_assoc. apply apart_app. split; [done|]. simpl in *. split; [|done]. lia.
  - apply Ha2.
  - exists t', tr, ins, behind. rewrite E. split; [exact E'|]. split; [done|].
    eapply looped_turn; eauto; lia.
Qed.

(** ** Before and after the loop *)

Lemma with_tree_set_root st t : set_root st t = with_tree st t (madvised st).
Proof. done. Qed.

(** Two neighbours merged into one with the count of the second. *)
Lemma merged_cover lo hi l1 p n l2 c :
  cover lo hi (l1 ++ p :: n :: l2) -> cover lo hi (l1 ++ set_refcnt c (set_end (mn_end n) p) :: l2).
Proof.
  intros (mid & H1 & ? & ? & ? & ? & H2)%cover_app. apply cover_app. exists mid.
  simpl. auto with lia.
Qed.

Lemma merge_behind_ok st lo hi ins behind :
  repr (mm_root st) (ins ++ behind) -> cover lo e ins -> cover (e + 1) hi behind ->
  apart ins -> apart behind ->
  exists t ns, merge_behind st (mn_addr <$> head behind) = Ok (set_root st t) /\
    repr t ns /\ cover lo hi ns /\ apart ns /\
    forall x, lo <= x -> refcnt_at ns x = refcnt_at (ins ++ behind) x.
Proof.
  intros H Hc1 Hc2 Ha1 Ha2.
  assert (Hc : cover lo hi (ins ++ behind)).
  { apply cover_app. exists (e + 1). by rewrite Z.add_simpl_r. }
  assert (st = set_root st (mm_root st)) as Est by (by destruct st).
  destruct behind as [|m l2].
  { rewrite app_nil_r in *. exists (mm_root st), ins. simpl. rewrite <- Est. auto 6. }
  cbn [head fmap option_fmap option_map merge_behind].
  rewrite (repr_prev _ _ _ _ H). cbn [mbind res_bind].
  destruct ins as [|q l1 _] using rev_ind.
  { exists (mm_root st), (m :: l2). simpl. rewrite <- Est. auto 6. }
  rewrite last_snoc. cbn [fmap option_fmap option_map].
  rewrite <- app_assoc in H, Hc |- *. simpl app in H, Hc |- *.
  rewrite (repr_node_at _ _ _ _ H).
  assert (H' : repr (mm_root st) ((l1 ++ [q]) ++ m :: l2)) by (by rewrite <- app_assoc).
  rewrite (repr_node_at _ _ _ _ H'). cbn [mbind res_bind].
  destruct (Z.eqb_spec (mn_refcnt m) (mn_refcnt q)) as [E|E].
  - destruct (merge_ranges_ok st l1 q m l2 H) as (t & -> & Ht). cbn [mbind res_bind].
    eexists t, _. split; [done|]. split; [exact Ht|].
    apply (merged_cover _ _ _ _ _ _ (mn_refcnt m)) in Hc as Hc'. split; [done|]. split.
    + apply apart_app. rewrite E. split; [|destruct l2; simpl in *; naive_solver congruence].
      revert Ha1. clear. induction l1 as [|? [|? l1] IH]; simpl; naive_solver.
    + intros x Hx. rewrite (refcnt_at_mid lo hi l1 q) by done.
      rewrite (refcnt_at_mid lo hi _ _ _ _ Hc') by done.
      apply cover_app in Hc as (mid & _ & ? & ? & ? & ? & _). simpl. by ztests.
  - exists (mm_root st), (l1 ++ q :: m :: l2). rewrite <- Est. split; [done|].
    split; [done|]. split; [done|]. split; [|done].
    apply apart_app. split; [done|]. split; [congruence|done].
Qed.

(** What [get_start_node] makes of the ranges [ns]: the node it returns contains
    [start]; where it reaches further down, it has swallowed a neighbour whose count
    is [inc] more than the node now says. *)
Record started (ns : list ibv_mem_node) (lo hi : Z) (l1 : list ibv_mem_node)
    (n : ibv_mem_node) (l2 : list ibv_mem_node) : Prop := Started {
  sd_start : mn_start n <= start <= mn_end n;
  sd_cover : cover lo hi (l1 ++ n :: l2);
  sd_count : forall x, lo <= x -> refcnt_at (l1 ++ n :: l2) x =
    refcnt_at ns x - (if (mn_start n <=? x) && (x <? start) then inc else 0);
  sd_counts : Forall counts (n :: l2);
  sd_apart1 : apart (l1 ++ [set_refcnt (mn_refcnt n + inc) n]);
  sd_apart2 : apart (n :: l2) }.

Hypothesis inc_unit : inc = 1 \/ inc = -1.

Lemma started_split lo hi l1 n l2 a :
  cover lo hi (l1 ++ n :: l2) -> apart (l1 ++ n :: l2) -> Forall counts (l1 ++ n :: l2) ->
  mn_start n < start <= mn_end n ->
  started (l1 ++ n :: l2) lo hi (l1 ++ [set_end (start - 1) n])
    (MemNode a start (mn_end n) (mn_refcnt n)) l2.
Proof.
  intros Hc [Ha1 Ha2]%apart_app Hcn Hn. apply cover_app in Hc as Hc'.
  destruct Hc' as (mid & Hc1 & Hm & ? & Hc2).
  assert (Hc3 : cover lo hi ((l1 ++ [set_end (start - 1) n]) ++
                   MemNode a start (mn_end n) (mn_refcnt n) :: l2)).
  { rewrite <- app_assoc. apply cover_app. exists mid. simpl. auto 10 with lia. }
  split; simpl; [lia|done|..].
  - intros x Hx. rewrite <- app_assoc in *. simpl app in *. rewrite (refcnt_at_mid lo hi l1 n) by done.
    rewrite (refcnt_at_mid lo hi l1 (set_end _ n)) by done. simpl. by ztests.
  - apply Forall_app in Hcn as [_ Hcn]. inversion Hcn; subst. by constructor.
  - rewrite <- app_assoc. apply apart_app. split; [by eapply apart_recount; [|exact Ha1]|].
    simpl. split; [lia|done].
  - done.
Qed.

Lemma started_merge lo hi l1 p n l2 :
  cover lo hi (l1 ++ p :: n :: l2) -> apart (l1 ++ p :: n :: l2) ->
  Forall counts (l1 ++ p :: n :: l2) -> mn_start n = start -> mn_refcnt p = mn_refcnt n + inc ->
  started (l1 ++ p :: n :: l2) lo hi l1 (set_refcnt (mn_refcnt n) (set_end (mn_end n) p)) l2.
Proof.
  intros Hc [Ha1 Ha2]%apart_app Hcn Hn Hp.
  apply (merged_cover _ _ _ _ _ _ (mn_refcnt n)) in Hc as Hm.
  apply cover_app in Hc as Hc'. destruct Hc' as (mid & Hc1 & ? & ? & ? & ? & Hc2).
  split; simpl; [lia|done|..].
  - intros x Hx. rewrite (refcnt_at_mid lo hi l1 p) by done.
    rewrite (refcnt_at_mid _ _ _ _ _ _ Hm) by done. simpl. by ztests.
  - rewrite Forall_app, !Forall_cons in Hcn. destruct Hcn as (_ & _ & ? & ?). by constructor.
  - eapply apart_recount; [|exact Ha1]. done.
  - destruct Ha2 as [_ Ha2]. by destruct l2.
Qed.

Lemma get_start_node_ok st ns lo hi :
  repr (mm_root st) ns -> cover lo hi ns -> 0 <= lo -> hi <= UINTPTR_MAX ->
  lo <= start <= hi -> apart ns -> Forall counts ns ->
  exists t l1 n l2, get_start_node os st start inc = Ok (set_root st t, Some (mn_addr n)) /\
    repr t (l1 ++ n :: l2) /\ started ns lo hi l1 n l2.
Proof.
  intros H Hc Hlo Hhi Hs Ha Hcn. unfold get_start_node.
  destruct (repr_find _ _ _ _ _ H Hc Hs) as (l1 & n & l2 & -> & -> & Hn).
  rewrite (repr_node_at _ _ _ _ H). cbn [mbind res_bind].
  destruct (Z.ltb_spec (mn_start n) start) as [Hlt|Hge].
  { destruct (malloc_some (addrs (elems (mm_root st)))) as [a Hal].
    destruct (split_range_ok st lo hi l1 n l2 start a) as (t & -> & Ht); auto; [lia|].
    exists t, (l1 ++ [set_end (start - 1) n]), (MemNode a start (mn_end n) (mn_refcnt n)), l2.
    split; [done|]. split; [|by apply started_split; auto with lia]. by rewrite <- app_assoc. }
  assert (st = set_root st (mm_root st)) as Est by (by destruct st).
  rewrite (repr_prev _ _ _ _ H). cbn [mbind res_bind].
  assert (Hst : (forall q, last l1 = Some q -> mn_refcnt q <> mn_refcnt n + inc) ->
    started (l1 ++ n :: l2) lo hi l1 n l2).
  { intros Hq. apply apart_app in Ha as [Ha1 Ha2]. split; auto.
    - intros x Hx. ztests.
    - by apply Forall_app in Hcn as [_ Hcn].
    - destruct l1 as [|q l1 _] using rev_ind; [done|]. rewrite last_snoc in Hq.
      rewrite <- app_assoc in Ha1 |- *. apply apart_app in Ha1 as [Ha1 _].
      apply apart_app. split; [done|]. simpl. split; [|done]. by apply Hq. }
  destruct (last l1) as [q|] eqn:El; cbn [fmap option_fmap option_map];
    [|exists (mm_root st), l1, n, l2; rewrite <- Est; naive_solver].
  apply last_Some in El as [l0 ->]. rewrite <- app_assoc in *. simpl app in *.
  rewrite (repr_node_at _ _ _ _ H). cbn [mbind res_bind].
  assert (counts n) as Hcnn by (rewrite Forall_app, !Forall_cons in Hcn; naive_solver).
  unfold int_add, counts in *. rewrite (proj2 (Z.leb_le _ _)), (proj2 (Z.ltb_lt _ _)) by lia.
  cbn [andb mbind res_bind].
  destruct (Z.eqb_spec (mn_refcnt q) (mn_refcnt n + inc)) as [E|E].
  - destruct (merge_ranges_ok st l0 q n l2 H) as (t & E1 & Ht). rewrite E1. cbn [mbind res_bind].
    exists t, l0, (set_refcnt (mn_refcnt n) (set_end (mn_end n) q)), l2.
    split; [done|]. split; [done|]. apply started_merge; auto. lia.
  - exists (mm_root st), (l0 ++ [q]), n, l2. rewrite <- Est, <- app_assoc. naive_solver.
Qed.

(** A pass from the label [again] on, when nothing fails. *)
Definition counted (tr tr' : list madv) (lo hi : Z) (ns ns' : list ibv_mem_node) : Prop :=
  cover lo hi ns' /\ apart ns' /\ marks_after tr tr' start ns /\
  forall x, lo <= x -> refcnt_at ns' x =
    refcnt_at ns x + (if (start <=? x) && (x <=? e) then inc else 0).

(** The end of a pass whose loop has run. *)
Lemma pass_end st t tr tr' ns lo hi l1 n l2 ins behind :
  0 <= lo -> lo <= start <= e -> started ns lo hi l1 n l2 ->
  repr t (ins ++ behind) -> looped tr tr' lo hi l1 n l2 ins behind ->
  exists t2 ns', merge_behind (with_tree st t tr') (mn_addr <$> head behind) = Ok (with_tree st t2 tr') /\
    repr t2 ns' /\ counted tr tr' lo hi ns ns'.
Proof.
  intros Hlo Hs [Hn1 Hn2 Hn3 Hn4 Hn5 Hn6] Ht [L1 L2 L3 L4 L5 L6].
  destruct (merge_behind_ok (with_tree st t tr') lo hi ins behind)
    as (t2 & ns' & -> & Ht2 & Hc2 & Ha2 & Hx2); auto.
  exists t2, ns'. split; [done|]. split; [done|]. split; [done|]. split; [done|]. split.
  - intros x. rewrite L4.
    destruct (Z.leb_spec start x); [|by rewrite andb_false_r].
    destruct (Z.leb_spec (mn_start n) x); [|lia]. cbn [andb].
    specialize (Hn3 x ltac:(lia)). rewrite (refcnt_at_mid lo hi) in Hn3 by (done || lia).
    replace (refcnt_at (n :: l2) x) with (refcnt_at ns x); [done|].
    revert Hn3. simpl. ztests.
  - intros x Hx. rewrite Hx2, L3, Hn3 by done. ztests.
Qed.

(** The fuel of the loop is enough. *)
Lemma tree_fuel t l1 n l2 : repr t (l1 ++ n :: l2) -> (length l2 + 2 <= 3 + tree_size t)%nat.
Proof. intros (_ & E & _). unfold tree_size. rewrite E, length_app. simpl. lia. Qed.

Hypothesis inc_advice : inc = if advice =? MADV_DONTFORK then 1 else -1.

Lemma pass_ok passes rolling st ns lo hi :
  repr (mm_root st) ns -> cover lo hi ns -> 0 <= lo -> hi <= UINTPTR_MAX ->
  lo <= start <= e -> e <= hi -> apart ns -> Forall counts ns ->
  exists t tr ns', madvise_pass os (S passes) st start e advice rolling =
      Ok (with_tree st t tr, if rolling then -1 else 0) /\
    repr t ns' /\ counted (madvised st) tr lo hi ns ns'.
Proof.
  intros H Hc Hlo Hhi Hs He Ha Hcn. cbn [madvise_pass]. rewrite <- inc_advice.
  destruct (get_start_node_ok st ns lo hi) as (t & l1 & n & l2 & -> & Ht & Hst); auto; [lia|].
  cbn [mbind res_bind]. pose proof Hst as [Hn1 Hn2 Hn3 Hn4 Hn5 Hn6].
  destruct (range_loop_ok l2 (3 + tree_size t) (set_root st t) lo hi l1 n)
    as (t1 & tr & ins & behind & E1 & Ht1 & Hl); eauto using tree_fuel; try lia.
  cbn [mm_root set_root]. rewrite E1. cbn [mbind res_bind].
  destruct (pass_end (set_root st t) t1 _ tr ns lo hi l1 n l2 ins behind Hlo Hs Hst Ht1 Hl)
    as (t2 & ns' & -> & Ht2 & Hcd).
  by exists t2, tr, ns'.
Qed.

End ops.
