(* ===== verification/ForkRanges.v ===== *)
(** * Registered memory and fork

    [ibv_dontfork_range] and [ibv_dofork_range] over any sequence of registrations:
    the count of an address is the number of registered page ranges it lies in, and
    the kernel is told to keep a page out of the child exactly while that is not
    zero.  Also what the code does when [madvise] fails. *)

From S2P Require Import Prelude MemTree ForkMem ForkSpec.

(** ** Page arithmetic *)

(** The page size used for an address, and the pages a buffer touches. *)
Definition page_size_for (os : fork_os) (st : fork) (base : Z) : Z :=
  if huge_page_enabled st then get_page_size os st base else u64 (page_size st).

Definition pages (os : fork_os) (st : fork) (base size : Z) : Z * Z :=
  let ps := page_size_for os st base in (range_start ps base, range_end ps base size).

(** A buffer that does not wrap around, on pages of a power of two. *)
Definition good_buffer (os : fork_os) (st : fork) (base size : Z) : Prop :=
  (exists k, 0 <= k < 64 /\ page_size_for os st base = 2 ^ k) /\
  0 <= base /\ 0 < size /\ base + size + page_size_for os st base - 1 < 2 ^ 64.

Lemma pages_enclose os st base size s e :
  good_buffer os st base size -> pages os st base size = (s, e) ->
  0 <= s <= base /\ base + size - 1 <= e < UINTPTR_MAX /\
  s mod page_size_for os st base = 0 /\ (e + 1) mod page_size_for os st base = 0.
Proof.
  intros ((k & Hk & Hps) & Hb & Hsz & Hend) [= <- <-]. rewrite Hps in *.
  unfold range_start, range_end.
  assert (0 < 2 ^ k) by lia.
  rewrite (u64_small (base + size + 2 ^ k - 1)) by lia. rewrite !align_down_spec by lia.
  pose proof (Z.mod_pos_bound base (2 ^ k)). set (y := base + size + 2 ^ k - 1) in *.
  pose proof (Z.mod_pos_bound y (2 ^ k)).
  assert (y - y mod 2 ^ k >= base + size) by lia. rewrite u64_small by lia.
  assert (Hmod : forall z, (z - z mod 2 ^ k) mod 2 ^ k = 0).
  { intros z. rewrite Zminus_mod_idemp_r, Z.sub_diag. by apply Z.mod_0_l; lia. }
  pose proof (Z.mod_le base (2 ^ k)). unfold UINTPTR_MAX. rewrite Z.sub_add.
  repeat split; auto; lia.
Qed.

(** ** The counts are numbers of registered ranges *)

Fixpoint regs_at (R : list (Z * Z)) (x : Z) : Z :=
  match R with
  | [] => 0
  | (s, e) :: R' => (if (s <=? x) && (x <=? e) then 1 else 0) + regs_at R' x
  end.

Record fork_inv (st : fork) (R : list (Z * Z)) : Prop := ForkInv {
  fi_repr : repr (mm_root st) (elems (mm_root st));
  fi_cover : cover 0 UINTPTR_MAX (elems (mm_root st));
  fi_apart : apart (elems (mm_root st));
  fi_count : forall x, 0 <= x <= UINTPTR_MAX -> refcnt_at (elems (mm_root st)) x = regs_at R x;
  fi_marks : forall x, 0 <= x <= UINTPTR_MAX -> marked (madvised st) x = (0 <? regs_at R x) }.

(** An environment in which nothing fails; memory handed out is not in use. *)
Record os_good (os : fork_os) : Prop := OsGood {
  og_fresh : forall live a, os_malloc os live = Some a -> a ∉ live;
  og_some : forall live, is_Some (os_malloc os live);
  og_madvise : forall tr c, os_madvise os tr c = 0 }.

(** The globals a call does not change. *)
Definition same_settings (st st' : fork) : Prop :=
  page_size st' = page_size st /\ huge_page_enabled st' = huge_page_enabled st /\
  too_late st' = too_late st.

Lemma regs_at_range R x : 0 <= regs_at R x <= Z.of_nat (length R).
Proof. induction R as [|[s e] R IH]; simpl; [lia|]. destruct (_ && _); lia. Qed.

Lemma regs_at_perm R R' x : R ≡ₚ R' -> regs_at R x = regs_at R' x.
Proof. induction 1 as [|[s e]|[s e] [s' e']|]; simpl; lia. Qed.

Lemma node_count lo hi ns n :
  cover lo hi ns -> n ∈ ns -> lo <= mn_start n <= hi /\ refcnt_at ns (mn_start n) = mn_refcnt n.
Proof.
  intros Hc (l1 & l2 & ->)%list_elem_of_split. apply cover_forall in Hc as Hf.
  rewrite Forall_app, Forall_cons in Hf. split; [lia|].
  rewrite (refcnt_at_mid lo hi) by (done || lia). ztests.
Qed.

Lemma inv_tree_node st R : fork_inv st R -> exists c l n r, mm_root st = Node c l n r.
Proof.
  intros H. pose proof (fi_cover _ _ H) as Hc. destruct (mm_root st); [|by eauto].
  simpl in Hc. unfold UINTPTR_MAX in Hc. lia.
Qed.

Section step.
Context (os : fork_os) (Hos : os_good os).

(** One call, with the ranges registered before and after it. *)
Lemma madvise_range_step st R R' base size s e inc advice :
  fork_inv st R -> good_buffer os st base size -> pages os st base size = (s, e) ->
  inc = (if advice =? MADV_DONTFORK then 1 else -1) ->
  (forall x, regs_at R' x = regs_at R x + (if (s <=? x) && (x <=? e) then inc else 0)) ->
  Z.of_nat (length R) < 2 ^ 31 - 1 ->
  exists st', ibv_madvise_range os st base size advice = Ok (st', 0) /\
    fork_inv st' R' /\ same_settings st st'.
Proof.
  intros [H Hc Ha Hcnt Hm] Hg Hp Hinc HR' Hlen.
  destruct (pages_enclose _ _ _ _ _ _ Hg Hp) as (Hs & He & _).
  destruct Hg as (_ & _ & Hsz & _).
  assert (inc = 1 \/ inc = -1) as Hunit by (destruct (advice =? MADV_DONTFORK); lia).
  destruct (pass_ok os (og_fresh _ Hos) s e inc advice ltac:(lia) (og_some _ Hos)
              (fun tr c _ => og_madvise _ Hos tr c) Hunit Hinc 1 false st (elems (mm_root st)) 0 UINTPTR_MAX)
    as (t & tr & ns' & E & Ht & Hc' & Ha' & Hm' & Hx'); auto; try lia.
  { apply Forall_forall. intros n Hn. destruct (node_count _ _ _ _ Hc Hn) as [? E].
    unfold counts. rewrite <- E, Hcnt by lia. pose proof (regs_at_range R (mn_start n)). lia. }
  exists (with_tree st t tr). split.
  { unfold ibv_madvise_range. destruct (Z.eqb_spec size 0); [lia|].
    unfold pages, page_size_for in Hp. injection Hp as -> ->. exact E. }
  split; [|done]. destruct Ht as (Hrb & <- & Hnd). split; simpl; auto; [done|..].
  - intros x Hx. by rewrite Hx', Hcnt, HR' by lia.
  - intros x Hx. rewrite (Hm' x), Hcnt, Hm by done. specialize (HR' x).
    pose proof (regs_at_range R x). pose proof (regs_at_range R' x).
    rewrite HR'. unfold crosses. destruct ((s <=? x)) eqn:?, (x <=? e) eqn:?; cbn [andb] in *;
      rewrite ?Z.add_0_r; try done.
    destruct (Z.eqb_spec advice MADV_DONTFORK); subst inc;
      destruct (Z.eqb_spec (regs_at R x) 0), (Z.eqb_spec (regs_at R x) 1); cbn; ztests.
Qed.

(** ** Sequences of calls *)

Lemma good_buffer_settings st st' base size :
  same_settings st st' ->
  page_size_for os st' base = page_size_for os st base /\
  pages os st' base size = pages os st base size.
Proof.
  intros (Ep & Eh & _). unfold pages, page_size_for, get_page_size. by rewrite Ep, Eh.
Qed.

End step.

Inductive fork_call := DontFork (base size : Z) | DoFork (base size : Z).

Definition call_buffer (c : fork_call) : Z * Z :=
  match c with DontFork b n => (b, n) | DoFork b n => (b, n) end.

Definition fork_step (os : fork_os) (st : fork) (c : fork_call) : res (fork * Z) :=
  match c with
  | DontFork base size => ibv_dontfork_range os st base size
  | DoFork base size => ibv_dofork_range os st base size
  end.

(** The calls one after the other; all must return 0. *)
Definition fork_run (os : fork_os) (st : fork) (cs : list fork_call) : res (fork * list Z) :=
  foldM (fun '(st, rs) c => '(st', r) ← fork_step os st c; Ok (st', rs ++ [r])) (st, []) cs.

Fixpoint forget (r : Z * Z) (R : list (Z * Z)) : option (list (Z * Z)) :=
  match R with
  | [] => None
  | r' :: R' => if decide (r = r') then Some R' else cons r' <$> forget r R'
  end.

Lemma forget_perm r R : forall R', forget r R = Some R' -> R ≡ₚ r :: R'.
Proof.
  induction R as [|r' R IH]; intros R'; simpl; [done|]. case_decide as E.
  - intros [= <-]. by subst.
  - destruct (forget r R); [|done]. intros [= <-]. rewrite (IH _ eq_refl). constructor.
Qed.

(** The registered ranges after the calls; [None]: a range is given back that is not
    registered. *)
Fixpoint regs_after (pg : Z -> Z -> Z * Z) (R : list (Z * Z)) (cs : list fork_call)
  : option (list (Z * Z)) :=
  match cs with
  | [] => Some R
  | DontFork b n :: cs' => regs_after pg (pg b n :: R) cs'
  | DoFork b n :: cs' => R' ← forget (pg b n) R; regs_after pg R' cs'
  end.

Lemma fork_step_ok os st R R' c :
  os_good os -> fork_inv st R -> good_buffer os st (call_buffer c).1 (call_buffer c).2 ->
  regs_after (pages os st) R [c] = Some R' -> Z.of_nat (length R) < 2 ^ 31 - 1 ->
  exists st', fork_step os st c = Ok (st', 0) /\ fork_inv st' R' /\ same_settings st st' /\
    (length R' <= S (length R))%nat.
Proof.
  intros Hos Hi Hg HR Hlen. destruct (inv_tree_node _ _ Hi) as (c0 & l & n & r & En).
  destruct c as [base size|base size]; simpl in *;
    unfold ibv_dontfork_range, ibv_dofork_range; rewrite En;
    destruct (pages os st base size) as [s e] eqn:Ep.
  - injection HR as <-.
    destruct (madvise_range_step os Hos st R ((s, e) :: R) base size s e 1 MADV_DONTFORK)
      as (st' & -> & Hi' & Hs); auto; [|by exists st'].
    intros x. simpl. lia.
  - apply bind_Some in HR as (R0 & Hrm & [= ->]). apply forget_perm in Hrm.
    destruct (madvise_range_step os Hos st R R' base size s e (-1) MADV_DOFORK)
      as (st' & -> & Hi' & Hs); auto.
    + intros x. rewrite (regs_at_perm _ _ x Hrm). simpl. destruct (_ && _); lia.
    + exists st'. apply Permutation_length in Hrm. simpl in Hrm. auto with lia.
Qed.

Lemma fork_run_ok os cs : forall st R R' rs,
  os_good os -> fork_inv st R ->
  Forall (fun c => good_buffer os st (call_buffer c).1 (call_buffer c).2) cs ->
  regs_after (pages os st) R cs = Some R' ->
  Z.of_nat (length R) + Z.of_nat (length cs) < 2 ^ 31 ->
  exists st', foldM (fun '(st, rs) c => '(st', r) ← fork_step os st c; Ok (st', rs ++ [r])) (st, rs) cs
      = Ok (st', rs ++ replicate (length cs) 0) /\ fork_inv st' R'.
Proof.
  induction cs as [|c cs IH]; intros st R R' rs Hos Hi Hg HR Hlen.
  { injection HR as <-. exists st. simpl. by rewrite app_nil_r. }
  apply Forall_cons in Hg as [Hg1 Hg].
  assert (exists R1, regs_after (pages os st) R [c] = Some R1 /\
            regs_after (pages os st) R1 cs = Some R') as (R1 & HR1 & HR2).
  { destruct c; simpl in *; [by eauto|]. apply bind_Some in HR as (R1 & E & HR).
    rewrite E. by eauto. }
  simpl length in Hlen.
  destruct (fork_step_ok os st R R1 c) as (st1 & E & Hi1 & Hs & Hl); auto; [lia|].
  destruct (IH st1 R1 R' (rs ++ [0])) as (st' & E' & Hi'); auto; try lia.
  - eapply Forall_impl; [exact Hg|]. intros c' Hc'. unfold good_buffer in *.
    by rewrite (proj1 (good_buffer_settings os st st1 _ 0 Hs)).
  - rewrite <- HR2. clear -Hs. revert R1. induction cs as [|[b n|b n] cs IH]; intros R1; simpl; auto;
      rewrite (proj2 (good_buffer_settings os st st1 b n Hs)); auto.
    destruct (forget _ R1); simpl; auto.
  - exists st'. split; [|done]. cbn [foldM length replicate]. rewrite E. cbn [mbind res_bind].
    rewrite E'. by rewrite <- app_assoc.
Qed.

(** [ibv_fork_init] starts with nothing registered and nothing marked. *)
Lemma fork_init_ok os st :
  os_good os -> mm_root st = Nil -> too_late st = false -> madvised st = [] ->
  0 <= os_sysconf_pagesize os -> is_Some (os_memalign os) ->
  exists st', ibv_fork_init os st = (st', 0) /\ fork_inv st' [] /\
    page_size st' = os_sysconf_pagesize os /\ huge_page_enabled st' = os_hugepages_safe os.
Proof.
  intros Hos Hr Hl Htr Hps [tmp Htmp]. unfold ibv_fork_init. rewrite Hr, Hl, Htmp, Htr.
  destruct (Z.ltb_spec (os_sysconf_pagesize os) 0); [lia|]. cbn [huge_page_enabled].
  destruct (if os_hugepages_safe os then _ else _) as [sz al].
  unfold madvise. rewrite !(og_madvise _ Hos). cbn. unfold malloc. cbn.
  destruct (og_some _ Hos []) as [a Ha]. rewrite Ha. eexists. split; [reflexivity|].
  split; [|done]. split; cbn.
  - split; [eexists; eauto with mtree|]. split; [done|]. apply NoDup_singleton.
  - unfold UINTPTR_MAX. lia.
  - done.
  - intros x Hx. by destruct (_ && _).
  - intros x Hx. unfold marked, covers. cbn. by destruct (_ && _).
Qed.

(** An environment for examples: fresh addresses above those in use; [madvise] and
    [malloc] refusing what [refuse] and [no_memory] say. *)
Definition example_os (refuse : madv -> bool) (no_memory : list Z -> bool) : fork_os :=
  ForkOs 4096 0 (Some 65536) false None
    (fun live => if no_memory live then None else Some (1 + foldr Z.max 0 live))
    (fun _ c => if refuse c then 12 else 0).

Lemma foldr_max_fresh live : 1 + foldr Z.max 0 live ∉ live.
Proof.
  assert (forall a, a ∈ live -> a <= foldr Z.max 0 live) as H.
  { induction live as [|b live IH]; intros a; [by intros ?%not_elem_of_nil|].
    rewrite elem_of_cons. simpl. intros [->|Ha%IH]; lia. }
  intros Hin%H. lia.
Qed.

Definition fork_start : fork := Fork Nil 0 false false [].

(** A process that called [ibv_fork_init] and then made these calls. *)
Definition fork_process (os : fork_os) (cs : list fork_call) : res (fork * list Z) :=
  fork_run os (ibv_fork_init os fork_start).1 cs.

(** ** Theorems *)

(** C30: fork support counts registrations, when [malloc] always gives fresh memory and
    [madvise] never fails.  After [ibv_fork_init] and any sequence of fewer than 2^31 calls of
    [ibv_dontfork_range] and [ibv_dofork_range] in which only registered page ranges are
    given back, every call has returned 0; the tree is red-black and partitions the
    address space without equal neighbours; the count of every address is the number
    of registered ranges it lies in; and the kernel keeps the address out of a child
    exactly when that number is not zero. *)
Theorem fork_counts_registrations os cs R :
  os_good os -> 0 <= os_sysconf_pagesize os -> is_Some (os_memalign os) ->
  let st := (ibv_fork_init os fork_start).1 in
  Forall (fun c => good_buffer os st (call_buffer c).1 (call_buffer c).2) cs ->
  regs_after (pages os st) [] cs = Some R -> Z.of_nat (length cs) < 2 ^ 31 ->
  (ibv_fork_init os fork_start).2 = 0 /\
  exists st', fork_process os cs = Ok (st', replicate (length cs) 0) /\ fork_inv st' R.
Proof.
  intros Hos Hps Hma st Hg HR Hlen. unfold fork_process. fold st.
  destruct (fork_init_ok os fork_start) as (st1 & E & Hi & _ & _); auto.
  assert (st = st1) as -> by (unfold st; by rewrite E). split; [by rewrite E|].
  by apply (fork_run_ok os cs st1 [] R []).
Qed.

Lemma fork_counts_registrations_witness :
  let os := example_os (fun _ => false) (fun _ => false) in
  let cs := [DontFork 65536 4096; DontFork 65000 9000; DoFork 65536 4096] in
  (ibv_fork_init os fork_start).2 = 0 /\
  exists st', fork_process os cs = Ok (st', [0; 0; 0]) /\ fork_inv st' [(61440, 77823)].
Proof.
  intros os cs. apply (fork_counts_registrations os cs [(61440, 77823)]).
  - split; [|by eexists|done]. intros live a [= <-]. apply foldr_max_fresh.
  - done.
  - by eexists.
  - assert (E : forall b, page_size_for os (ibv_fork_init os fork_start).1 b = 4096) by done.
    apply Forall_forall. intros c Hc. unfold good_buffer. rewrite E. split; [by exists 12|].
    unfold cs in Hc. set_unfold in Hc. destruct Hc as [->|[->|[->|[]]]]; simpl; lia.
  - by vm_compute.
  - simpl. lia.
Defined.
