(* ===== verification/ForkUndo.v ===== *)
(** * Fork support when madvise fails

    [ibv_dontfork_range] undoes what it has counted when the kernel refuses a page
    range: every address has its old count again.  [ibv_dofork_range] does not. *)

From S2P Require Import Prelude MemTree ForkMem ForkSpec ForkRanges.

(** The ranges behind a node whose [madvise] failed: as they were, or the part cut
    off at the end of the range first. *)
Definition rest_ok (m : ibv_mem_node) (rest : list ibv_mem_node) : Prop :=
  apart (m :: rest) \/
  exists m2 rest', rest = m2 :: rest' /\ mn_refcnt m2 = mn_refcnt m /\ apart (m2 :: rest').

Lemma rest_ok_count m m' rest : mn_refcnt m = mn_refcnt m' -> rest_ok m rest -> rest_ok m' rest.
Proof.
  intros E [H|(m2 & rest' & -> & E2 & H)]; [left|right; exists m2, rest'; naive_solver congruence].
  destruct rest; simpl in *; [done|]. by rewrite <- E.
Qed.

Lemma apart_init l m : apart (l ++ [m]) -> apart l.
Proof. induction l as [|a [|b l] IH]; simpl; [done..|]. naive_solver. Qed.

Lemma apart_count m m' rest : mn_refcnt m = mn_refcnt m' -> apart (m :: rest) -> apart (m' :: rest).
Proof. destruct rest; simpl; [done|]. by intros ->. Qed.

(** Merging two neighbours of the same count changes no count. *)
Lemma merge_equal_ok st lo hi l1 p n l2 :
  repr (mm_root st) (l1 ++ p :: n :: l2) -> cover lo hi (l1 ++ p :: n :: l2) ->
  mn_refcnt p = mn_refcnt n ->
  exists t, let m := set_refcnt (mn_refcnt n) (set_end (mn_end n) p) in
    merge_ranges st (mn_addr n) (mn_addr p) = Ok (set_root st t, mn_addr p) /\
    repr t (l1 ++ m :: l2) /\ cover lo hi (l1 ++ m :: l2) /\
    forall x, lo <= x -> refcnt_at (l1 ++ m :: l2) x = refcnt_at (l1 ++ p :: n :: l2) x.
Proof.
  intros H Hc E. destruct (merge_ranges_ok _ _ _ _ _ H) as (t & Et & Ht). exists t. cbv zeta.
  apply (merged_cover _ _ _ _ _ _ (mn_refcnt n)) in Hc as Hc'.
  split; [done|]. split; [done|]. split; [done|]. intros x Hx.
  rewrite (refcnt_at_mid lo hi l1 p) by done. rewrite (refcnt_at_mid _ _ _ _ _ _ Hc') by done.
  apply cover_app in Hc as (mid & _ & ? & ? & ? & ? & _). simpl. by ztests.
Qed.

Lemma set_root_same st : set_root st (mm_root st) = st.
Proof. by destruct st. Qed.

Lemma undo_merge_next_ok st lo hi l1 m rest :
  repr (mm_root st) (l1 ++ m :: rest) -> cover lo hi (l1 ++ m :: rest) -> rest_ok m rest ->
  exists t m' rest', undo_merge_next st (mn_addr m) = Ok (set_root st t, mn_addr m') /\
    repr t (l1 ++ m' :: rest') /\ cover lo hi (l1 ++ m' :: rest') /\ apart (m' :: rest') /\
    mn_refcnt m' = mn_refcnt m /\ mn_start m' = mn_start m /\
    forall x, lo <= x -> refcnt_at (l1 ++ m' :: rest') x = refcnt_at (l1 ++ m :: rest) x.
Proof.
  intros H Hc Hr. unfold undo_merge_next. rewrite (repr_next _ _ _ _ H). cbn [mbind res_bind].
  destruct rest as [|m2 rest']; cbn [head fmap option_fmap option_map].
  { exists (mm_root st), m, []. rewrite set_root_same. by repeat split; try apply H. }
  assert (H2 : repr (mm_root st) ((l1 ++ [m]) ++ m2 :: rest')) by (by rewrite <- app_assoc).
  rewrite (repr_node_at _ _ _ _ H), (repr_node_at _ _ _ _ H2). cbn [mbind res_bind].
  destruct (Z.eqb_spec (mn_refcnt m2) (mn_refcnt m)) as [E|E].
  - destruct (merge_equal_ok st lo hi l1 m m2 rest') as (t & Et & Ht & Hc' & Hx); auto.
    exists t, (set_refcnt (mn_refcnt m2) (set_end (mn_end m2) m)), rest'. split; [exact Et|]. split; [exact Ht|]. split; [exact Hc'|].
    split; [|simpl; auto]. apply (apart_count m2); [done|].
    destruct Hr as [[? _]|(? & ? & [= <- <-] & _ & ?)]; [congruence|done].
  - exists (mm_root st), m, (m2 :: rest'). rewrite set_root_same.
    destruct Hr as [Hr|(? & ? & [= <- <-] & ? & ?)]; [|congruence]. auto 8.
Qed.

Lemma undo_merge_prev_ok st lo hi l1 m rest :
  repr (mm_root st) (l1 ++ m :: rest) -> cover lo hi (l1 ++ m :: rest) -> apart l1 -> rest_ok m rest ->
  exists t l1' m', undo_merge_prev st (mn_addr m) = Ok (set_root st t, mn_addr m') /\
    repr t (l1' ++ m' :: rest) /\ cover lo hi (l1' ++ m' :: rest) /\ apart (l1' ++ [m']) /\
    mn_refcnt m' = mn_refcnt m /\ mn_start m' <= mn_start m /\
    ((exists q, last l1 = Some q /\ mn_refcnt q = mn_refcnt m) \/ (l1' = l1 /\ mn_start m' = mn_start m)) /\
    forall x, lo <= x -> refcnt_at (l1' ++ m' :: rest) x = refcnt_at (l1 ++ m :: rest) x.
Proof.
  intros H Hc Ha Hr. unfold undo_merge_prev. rewrite (repr_prev _ _ _ _ H). cbn [mbind res_bind].
  destruct l1 as [|q l1 _] using rev_ind; cbn [last fmap option_fmap option_map].
  { exists (mm_root st), [], m. rewrite set_root_same. split; [done|]. split; [done|].
    split; [done|]. split; [done|]. split; [done|]. split; [lia|]. split; [by right|done]. }
  rewrite last_snoc. cbn [fmap option_fmap option_map]. rewrite (repr_node_at _ _ _ _ H).
  rewrite <- app_assoc in H, Hc |- *. simpl app in *. rewrite (repr_node_at _ _ _ _ H).
  cbn [mbind res_bind].
  destruct (Z.eqb_spec (mn_refcnt q) (mn_refcnt m)) as [E|E].
  - destruct (merge_equal_ok st lo hi l1 q m rest) as (t & Et & Ht & Hc' & Hx); auto.
    exists t, l1, (set_refcnt (mn_refcnt m) (set_end (mn_end m) q)). split; [exact Et|]. split; [exact Ht|]. split; [exact Hc'|].
    apply cover_app in Hc as (mid & _ & ? & ? & ? & _).
    split; [by apply (apart_recount l1 q)|]. simpl.
    split; [done|]. split; [lia|]. split; [by eauto|done].
  - exists (mm_root st), (l1 ++ [q]), m. rewrite set_root_same, <- !app_assoc. simpl app.
    split; [done|]. split; [done|]. split; [done|].
    split; [by apply apart_app|]. split; [done|]. split; [lia|]. split; [by right|done].
Qed.

(** Both merges of [undo_node]. *)
Lemma undo_merges_ok st lo hi l1 m rest :
  repr (mm_root st) (l1 ++ m :: rest) -> cover lo hi (l1 ++ m :: rest) -> apart l1 -> rest_ok m rest ->
  exists t l1' m' rest',
    ('(st, node) ← undo_merge_prev st (mn_addr m);
     '(st, node) ← undo_merge_next st node;
     Ok (st, Some node)) = Ok (set_root st t, Some (mn_addr m')) /\
    repr t (l1' ++ m' :: rest') /\ cover lo hi (l1' ++ m' :: rest') /\ apart (l1' ++ m' :: rest') /\
    mn_start m' <= mn_start m /\
    ((exists q, last l1 = Some q /\ mn_refcnt q = mn_refcnt m) \/ (l1' = l1 /\ mn_start m' = mn_start m)) /\
    forall x, lo <= x -> refcnt_at (l1' ++ m' :: rest') x = refcnt_at (l1 ++ m :: rest) x.
Proof.
  intros H Hc Ha Hr.
  destruct (undo_merge_prev_ok st lo hi l1 m rest) as (t & l1' & m1 & -> & Ht & Hc1 & Ha1 & Er1 & Es1 & Hor & Hx1);
    auto. cbn [mbind res_bind].
  destruct (undo_merge_next_ok (set_root st t) lo hi l1' m1 rest)
    as (t2 & m2 & rest' & -> & Ht2 & Hc2 & Ha2 & Er2 & Es2 & Hx2); auto; [by eapply rest_ok_count|].
  cbn [mbind res_bind]. exists t2, l1', m2, rest'. split; [done|]. split; [done|]. split; [done|].
  split; [apply apart_app; split; [by apply (apart_recount l1' m1)|done]|].
  split; [lia|]. split; [destruct Hor as [?|[? ?]]; [by left|right; split; [done|lia]]|].
  intros x Hx. by rewrite Hx2, Hx1.
Qed.

(** ** The loop, when a call may fail *)

Section fail.
Context (os : fork_os).
Hypothesis malloc_fresh : forall live a, os_malloc os live = Some a -> a ∉ live.
Hypothesis malloc_some : forall live, is_Some (os_malloc os live).
Context (start e inc advice : Z).
Hypothesis e_below : e < UINTPTR_MAX.

(** The state in which the call for [m] failed: the nodes from [n] to before [m] are
    counted, [m] is not. *)
Record failed_at (lo hi : Z) (l1 : list ibv_mem_node) (n : ibv_mem_node)
    (l2 done : list ibv_mem_node) (m : ibv_mem_node) (rest : list ibv_mem_node) : Prop := FailedAt {
  fa_cover : cover lo hi (done ++ m :: rest);
  fa_cross : crosses inc (mn_refcnt m) = true;
  fa_count : forall x, lo <= x -> refcnt_at (done ++ m :: rest) x =
    refcnt_at (l1 ++ n :: l2) x + (if (mn_start n <=? x) && (x <? mn_start m) then inc else 0);
  fa_place : (done = l1 /\ mn_start m = mn_start n /\ mn_refcnt m = mn_refcnt n) \/
    (exists done' q, done = done' ++ [q] /\ mn_start n <= mn_start q /\ start < mn_start m);
  fa_reach : start <= mn_end m;
  fa_done : apart done;
  fa_rest : rest_ok m rest }.

Definition loop_fails (fuel : nat) (st : fork) (lo hi : Z) (l1 : list ibv_mem_node)
    (n : ibv_mem_node) (l2 : list ibv_mem_node) : Prop :=
  exists t tr done m rest ret,
    range_loop os fuel st (Some (mn_addr n)) start e inc advice =
      Ok (with_tree st t tr, LFailed (mn_addr m) ret) /\ ret <> 0 /\
    repr t (done ++ m :: rest) /\ failed_at lo hi l1 n l2 done m rest.

(** The call for a node succeeds, or it is made and fails. *)
Lemma call_cases tr n :
  call_succeeds os start inc advice tr n \/
  (crosses inc (mn_refcnt n) = true /\ os_madvise os tr (call_for start advice n) <> 0).
Proof.
  unfold call_succeeds. destruct (crosses inc (mn_refcnt n)); [|by left].
  destruct (decide (os_madvise os tr (call_for start advice n) = 0)); [left|right]; auto.
Qed.

Lemma fails_here fuel st lo hi l1 n l2 :
  repr (mm_root st) (l1 ++ n :: l2) -> cover lo hi (l1 ++ n :: l2) -> 0 <= lo ->
  mn_end n <= e -> start <= mn_end n -> apart l1 -> rest_ok n l2 ->
  crosses inc (mn_refcnt n) = true ->
  os_madvise os (madvised st) (call_for start advice n) <> 0 ->
  loop_fails (S fuel) st lo hi l1 n l2.
Proof.
  intros H Hc Hlo He Hs Ha Hr Hx Hne.
  apply cover_forall in Hc as Hf. rewrite Forall_app, Forall_cons in Hf.
  exists (mm_root st), (calls_after start inc advice (madvised st) n), l1, n, l2, (os_madvise os (madvised st) (call_for start advice n)).
  rewrite (loop_at os start e inc advice e_below _ _ _ _ _ H) by lia. cbv zeta.
  rewrite Hx, (proj2 (Z.eqb_neq _ _) Hne). cbn [andb negb].
  split; [done|]. split; [done|]. split; [done|]. split; auto.
  intros x Hlx. ztests.
Qed.

(** [n] reaches [e] or beyond it. *)
Lemma fails_last fuel st lo hi l1 n l2 :
  repr (mm_root st) (l1 ++ n :: l2) -> cover lo hi (l1 ++ n :: l2) ->
  0 <= lo -> hi <= UINTPTR_MAX -> mn_start n <= e <= mn_end n -> start <= e ->
  apart l1 -> apart (n :: l2) -> crosses inc (mn_refcnt n) = true ->
  os_madvise os (madvised st) (call_for start advice (set_end e n)) <> 0 ->
  loop_fails (S fuel) st lo hi l1 n l2.
Proof.
  intros H Hc Hlo Hhi Hn Hse Ha1 Ha2 Hx Hne.
  destruct (decide (mn_end n = e)) as [He|He].
  { rewrite <- He, set_end_id in Hne. apply fails_here; auto; [lia..|by left]. }
  destruct (malloc_some (addrs (elems (mm_root st)))) as [a Ha].
  destruct (loop_cut os malloc_fresh start e inc advice e_below fuel st lo hi l1 n l2 a)
    as (t0 & Ht0 & E0); auto; [lia|].
  set (m := MemNode a (e + 1) (mn_end n) (mn_refcnt n)) in *.
  apply cover_app in Hc as Hc'. destruct Hc' as (mid & Hc1 & Hm & ? & Hc2).
  assert (Hcc : cover lo hi (l1 ++ set_end e n :: m :: l2)).
  { apply cover_app. exists mid. simpl. auto 10 with lia. }
  destruct (fails_here fuel (set_root st t0) lo hi l1 (set_end e n) (m :: l2))
    as (t & tr & done & k & rest & ret & E & Hret & Ht & [F1 F2 F3 F4 F5 F6 F7]);
    simpl; auto; try lia.
  { right. exists m, l2. split; [done|]. split; [done|]. by apply (apart_count n). }
  exists t, tr, done, k, rest, ret. rewrite E0. split; [exact E|]. split; [done|]. split; [done|].
  split; auto.
  - intros x Hlx. rewrite F3 by done. rewrite (refcnt_at_mid lo hi l1 n) by done.
    rewrite (refcnt_at_mid lo hi l1 (set_end e n)) by done. simpl. by ztests.
Qed.

Lemma failed_turn lo hi l1 n m l2 done k rest :
  cover lo hi (l1 ++ n :: m :: l2) -> start <= mn_end n ->
  failed_at lo hi (l1 ++ [set_refcnt (mn_refcnt n + inc) n]) m l2 done k rest ->
  failed_at lo hi l1 n (m :: l2) done k rest.
Proof.
  intros Hc Hs [F1 F2 F3 F4 F5 F6 F7].
  apply cover_app in Hc as Hc'. destruct Hc' as (mid & Hc1 & Hm & ? & Em & ? & Hc2).
  assert (Hk : mn_start m <= mn_start k).
  { destruct F4 as [(_ & ? & _)|(d & q & -> & Hq & _)]; [lia|].
    rewrite <- app_assoc in F1. apply cover_app in F1 as (? & _ & ? & ? & ? & _). lia. }
  split; auto.
  - intros x Hx. rewrite F3, <- app_assoc by done. simpl app.
    rewrite (refcnt_at_mid lo hi l1 n) by done.
    rewrite (refcnt_at_mid lo hi l1 (set_refcnt _ n))
      by (done || (apply cover_app; exists mid; simpl; auto 10)).
    cbn [set_refcnt mn_start mn_end mn_refcnt]. by ztests.
  - right. destruct F4 as [(-> & Ek & _)|(d & q & -> & Hq & Hks)].
    + exists l1, (set_refcnt (mn_refcnt n + inc) n). simpl. auto with lia.
    + exists d, q. auto with lia.
Qed.

Lemma range_loop_cases l2 : forall fuel st lo hi l1 n,
  repr (mm_root st) (l1 ++ n :: l2) -> cover lo hi (l1 ++ n :: l2) ->
  0 <= lo -> hi <= UINTPTR_MAX -> mn_start n <= e <= hi -> start <= mn_end n -> start <= e ->
  Forall (counts inc) (n :: l2) -> apart (l1 ++ [set_refcnt (mn_refcnt n + inc) n]) ->
  apart (n :: l2) -> (length l2 + 2 <= fuel)%nat ->
  loop_works os start e inc advice fuel st lo hi l1 n l2 \/ loop_fails fuel st lo hi l1 n l2.
Proof.
  induction l2 as [|m l2 IH]; intros fuel st lo hi l1 n H Hc Hlo Hhi Hn Hs Hse Hcnt Ha1 Ha2 Hf;
    apply Forall_cons in Hcnt as [Hcn Hcnt];
    (destruct (decide (e <= mn_end n)); [destruct fuel as [|[|fuel]]; simpl length in *; [lia|lia|];
       destruct (call_cases (madvised st) (set_end e n)) as [Hok|[Hx Hne]];
       [left; apply loop_last; auto; lia|right; apply fails_last; eauto using apart_init; lia]|]).
  { apply cover_app in Hc as (mid & _ & _ & _ & E). simpl in E. lia. }
  simpl length in Hf. destruct fuel as [|fuel]; [lia|].
  destruct (call_cases (madvised st) n) as [Hok|[Hx Hne]].
  2: { right. apply fails_here; eauto using apart_init; [lia|by left]. }
  apply cover_app in Hc as Hc'. destruct Hc' as (mid & Hc1 & Hm & ? & Em & ? & Hc2).
  apply cover_le in Hc1 as ?.
  set (n' := set_refcnt (mn_refcnt n + inc) n) in *.
  destruct (loop_turn os start e inc advice e_below fuel st l1 n (m :: l2)) as (t & Ht & E); auto; try lia.
  destruct (IH fuel (with_tree st t (calls_after start inc advice (madvised st) n)) lo hi (l1 ++ [n']) m)
    as [(t' & tr & ins & behind & E' & Ht' & Hl)|(t' & tr & d & k & rest & ret & E' & Hret & Ht' & Hfa)];
    auto; try lia.
  - by rewrite <- app_assoc.
  - rewrite <- app_assoc. apply cover_app. exists mid. simpl. auto 10.
  - rewrite <- app_assoc. apply apart_app. split; [done|]. simpl in *. split; [|done]. lia.
  - apply Ha2.
  - left. exists t', tr, ins, behind. rewrite E. split; [exact E'|]. split; [done|].
    eapply looped_turn; eauto; lia.
  - right. exists t', tr, d, k, rest, ret. rewrite E. split; [exact E'|]. split; [done|]. split; [done|].
    eapply failed_turn; eauto; lia.
Qed.

(** ** Undoing *)

(** The failed node is the first one, possibly merged with the one before it. *)
Lemma undo_first st ns lo hi l1 n l2 m rest :
  inc = 1 \/ inc = -1 -> repr (mm_root st) (l1 ++ m :: rest) -> 0 <= lo -> hi <= UINTPTR_MAX ->
  started start inc ns lo hi l1 n l2 -> failed_at lo hi l1 n l2 l1 m rest ->
  mn_start m = mn_start n -> mn_refcnt m = mn_refcnt n ->
  exists t l1' m' rest',
    undo_node os st (mn_addr m) start inc = Ok (set_root st t, Some (mn_addr m')) /\
    repr t (l1' ++ m' :: rest') /\ cover lo hi (l1' ++ m' :: rest') /\ apart (l1' ++ m' :: rest') /\
    mn_start m' <= start /\
    forall x, lo <= x -> refcnt_at (l1' ++ m' :: rest') x = refcnt_at ns x.
Proof.
  intros Hu H Hlo Hhi [S1 S2 S3 S4 S5 S6] [F1 F2 F3 F4 F5 F6 F7] Es Er.
  unfold undo_node. rewrite (repr_node_at _ _ _ _ H). cbn [mbind res_bind].
  destruct (Z.ltb_spec (mn_start m) start) as [Hlt|Hge].
  - destruct (malloc_some (addrs (elems (mm_root st)))) as [a Ha].
    destruct (split_range_ok os malloc_fresh st lo hi l1 m rest start a) as (t & -> & Ht); auto; try lia.
    cbn [mbind res_bind mm_root set_root].
    pose proof (repr_node_at _ _ _ _ Ht) as Hna. cbn [mn_addr set_end] in Hna. rewrite Hna.
    cbn [mbind res_bind mn_refcnt set_end]. apply Forall_cons in S4 as [Hcn _].
    unfold int_add, counts in *. rewrite (proj2 (Z.leb_le _ _)), (proj2 (Z.ltb_lt _ _)) by lia.
    cbn [andb mbind res_bind].
    destruct (repr_set _ _ _ _ (set_refcnt (mn_refcnt m + inc)) Ht) as (t1 & Et & Ht1); [done|].
    cbn [mn_addr set_end] in Et. rewrite Et. cbn [mbind res_bind].
    set (p := set_refcnt (mn_refcnt m + inc) (set_end (start - 1) m)) in *.
    set (k := MemNode a start (mn_end m) (mn_refcnt m)) in *.
    apply cover_app in F1 as Fc. destruct Fc as (mid & Fc1 & Fm & ? & Fc2).
    assert (Hc : cover lo hi ((l1 ++ [p]) ++ k :: rest)).
    { rewrite <- app_assoc. apply cover_app. exists mid. simpl. auto 10 with lia. }
    destruct (undo_merges_ok (set_root (set_root st t) t1) lo hi (l1 ++ [p]) k rest)
      as (t2 & l1' & m' & rest' & E & Ht2 & Hc2 & Ha2 & Hs2 & _ & Hx2); auto.
    { by rewrite <- app_assoc. }
    { eapply apart_recount; [|exact S5]. simpl. lia. }
    exists t2, l1', m', rest'. split; [exact E|]. split; [done|]. split; [done|]. split; [done|].
    split; [simpl in Hs2; lia|]. intros x Hx. rewrite Hx2, <- app_assoc by done. simpl app.
    specialize (F3 x Hx). rewrite S3 in F3 by done. rewrite (refcnt_at_mid lo hi l1 m) in F3 by done.
    rewrite <- app_assoc in Hc. rewrite (refcnt_at_mid lo hi l1 p) by done. simpl.
    revert F3. ztests.
  - cbn [mbind res_bind].
    destruct (undo_merges_ok st lo hi l1 m rest)
      as (t2 & l1' & m' & rest' & E & Ht2 & Hc2 & Ha2 & Hs2 & _ & Hx2); auto.
    exists t2, l1', m', rest'. split; [exact E|]. split; [done|]. split; [done|]. split; [done|].
    split; [lia|]. intros x Hx. rewrite Hx2, F3, S3 by done. ztests.
Qed.
End fail.

(** ** A failed registration leaves the counts as they were *)

Section dontfork.
Context (os : fork_os).
Hypothesis malloc_fresh : forall live a, os_malloc os live = Some a -> a ∉ live.
Hypothesis malloc_some : forall live, is_Some (os_malloc os live).
Hypothesis dofork_zero : forall tr c, ma_advice c = MADV_DOFORK -> os_madvise os tr c = 0.
Context (start e : Z).
Hypothesis e_below : e < UINTPTR_MAX.

(** The failed node is not the first: what was counted before it is given back. *)
Lemma undo_later st ns lo hi l1 n l2 d q m rest :
  repr (mm_root st) ((d ++ [q]) ++ m :: rest) -> 0 <= lo -> hi <= UINTPTR_MAX -> lo <= start ->
  started start 1 ns lo hi l1 n l2 -> failed_at start 1 lo hi l1 n l2 (d ++ [q]) m rest ->
  mn_start n <= mn_start q -> start < mn_start m ->
  (forall x, lo <= x <= hi -> 0 <= refcnt_at ns x < 2 ^ 31 - 1) ->
  exists t m', undo_node os st (mn_addr m) start 1 = Ok (set_root st t, Some (mn_addr m')) /\
    (exists rest', repr t ((d ++ [q]) ++ m' :: rest')) /\
    exists t2 tr ns', madvise_pass os 1 (set_root st t) start (mn_end q) MADV_DOFORK true =
        Ok (with_tree st t2 tr, -1) /\ start <= mn_end q /\
      repr t2 ns' /\ cover lo hi ns' /\ apart ns' /\
      forall x, lo <= x <= hi -> refcnt_at ns' x = refcnt_at ns x.
Proof.
  intros H Hlo Hhi Hls [S1 S2 S3 S4 S5 S6] [F1 F2 F3 F4 F5 F6 F7] Hq Hsm Hbound.
  assert (mn_refcnt m = 0) as Er0.
  { unfold crosses in F2. destruct (Z.eqb_spec (mn_refcnt m) 0); [done|]. destruct (mn_refcnt m =? 1); done. }
  apply cover_app in F1 as Fc. destruct Fc as (mid & Fc1 & Fm & Fle & Fc2).
  apply cover_app in Fc1 as (mid1 & Fd & Fq & Fqe & Fq2). simpl in Fq2.
  apply cover_le in Fd as ?. apply cover_le in Fc2 as ?.
  assert (Hqc : 1 <= mn_refcnt q).
  { set (x := Z.max start (mn_start q)) in *.
    specialize (F3 x ltac:(lia)). rewrite S3 in F3 by lia.
    rewrite <- app_assoc in F3, F1. simpl app in F3, F1. rewrite (refcnt_at_mid lo hi d q) in F3 by (done || lia).
    specialize (Hbound x ltac:(lia)). revert F3. ztests. }
  unfold undo_node. rewrite (repr_node_at _ _ _ _ H). cbn [mbind res_bind].
  destruct (Z.ltb_spec (mn_start m) start); [lia|]. cbn [mbind res_bind].
  destruct (undo_merges_ok st lo hi (d ++ [q]) m rest)
    as (t & l1' & m' & rest' & E & Ht & Hc & Ha & Hs2 & Hor & Hx); auto.
  destruct Hor as [(q' & Eq & Erq)|[-> Em]].
  { rewrite last_snoc in Eq. injection Eq as <-. lia. }
  exists t, m'. split; [exact E|]. split; [by exists rest'|].
  assert (Hcur : forall x, lo <= x -> refcnt_at ((d ++ [q]) ++ m' :: rest') x =
     refcnt_at ns x + (if (start <=? x) && (x <? mn_start m) then 1 else 0)).
  { intros x Hx'. rewrite Hx, F3, S3 by done. ztests. }
  destruct (pass_ok os malloc_fresh start (mn_end q) (-1) MADV_DOFORK ltac:(unfold UINTPTR_MAX in *; lia)
    malloc_some dofork_zero ltac:(by right) eq_refl 0 true (set_root st t)
    ((d ++ [q]) ++ m' :: rest') lo hi) as (t2 & tr & ns' & E2 & Ht2 & Hc2 & Ha2 & _ & Hx2); auto; try lia.
  { apply Forall_forall. intros k Hk. destruct (node_count _ _ _ _ Hc Hk) as [? Ek].
    unfold counts. rewrite <- Ek, Hcur by lia.
    specialize (Hbound (mn_start k) ltac:(lia)). destruct (_ && _); lia. }
  exists t2, tr, ns'. split; [exact E2|]. split; [lia|]. split; [done|]. split; [done|].
  split; [done|]. intros x Hx'. rewrite Hx2, Hcur by lia. ztests.
Qed.

(** A pass that adds to the range counts all of it, or nothing. *)
Lemma dontfork_pass st ns lo hi :
  repr (mm_root st) ns -> cover lo hi ns -> apart ns -> 0 <= lo -> hi <= UINTPTR_MAX ->
  lo <= start <= e -> e <= hi -> (forall x, lo <= x <= hi -> 0 <= refcnt_at ns x < 2 ^ 31 - 1) ->
  exists t tr ns' ret, madvise_pass os 2 st start e MADV_DONTFORK false = Ok (with_tree st t tr, ret) /\
    repr t ns' /\ cover lo hi ns' /\ apart ns' /\
    ((ret = 0 /\ forall x, lo <= x <= hi -> refcnt_at ns' x =
        refcnt_at ns x + (if (start <=? x) && (x <=? e) then 1 else 0)) \/
     (ret = -1 /\ forall x, lo <= x <= hi -> refcnt_at ns' x = refcnt_at ns x)).
Proof.
  intros H Hc Ha Hlo Hhi Hs He Hb. remember 1%nat as one eqn:E1. cbn [madvise_pass].
  change (if MADV_DONTFORK =? MADV_DONTFORK then 1 else -1) with 1.
  assert (Hcn : Forall (counts 1) ns).
  { apply Forall_forall. intros k Hk. destruct (node_count _ _ _ _ Hc Hk) as [? Ek].
    unfold counts. rewrite <- Ek. specialize (Hb (mn_start k) ltac:(lia)). lia. }
  destruct (get_start_node_ok os malloc_fresh start 1 malloc_some ltac:(by left) st ns lo hi)
    as (t & l1 & n & l2 & -> & Ht & Hst); auto; [lia|].
  cbn [mbind res_bind mm_root set_root]. pose proof Hst as [Hn1 Hn2 Hn3 Hn4 Hn5 Hn6].
  destruct (range_loop_cases os malloc_fresh malloc_some start e 1 MADV_DONTFORK e_below l2
              (3 + tree_size t) (set_root st t) lo hi l1 n)
    as [(t1 & tr & ins & behind & -> & Ht1 & Hl)|(t1 & tr & d & m & rest & ret & -> & Hret & Ht1 & Hfa)];
    eauto using tree_fuel; try lia; cbn [mbind res_bind].
  - destruct (pass_end start e 1 MADV_DONTFORK (set_root st t) t1 _ tr ns lo hi l1 n l2 ins behind
      Hlo Hs Hst Ht1 Hl) as (t2 & ns' & -> & Ht2 & Hc2 & Ha2 & _ & Hx2).
    exists t2, tr, ns', 0. do 4 (split; [done|]). left. split; [done|].
    intros x Hx. apply Hx2. lia.
  - destruct (fa_place _ _ _ _ _ _ _ _ _ _ Hfa) as [(-> & Es & Er)|(d' & q & -> & Hq & Hsm)].
    + destruct (undo_first os malloc_fresh malloc_some start 1 (with_tree (set_root st t) t1 tr) ns lo hi
        l1 n l2 m rest) as (t2 & l1' & m' & rest' & -> & Ht2 & Hc2 & Ha2 & Hs2 & Hx2); auto.
      cbn [mbind res_bind mm_root set_root]. rewrite (repr_prev _ _ _ _ Ht2). cbn [mbind res_bind].
      exists t2, tr, (l1' ++ m' :: rest'), (-1). split.
      * destruct l1' as [|q l1' _] using rev_ind; [done|]. rewrite last_snoc. cbn [fmap option_fmap option_map].
        rewrite <- app_assoc in Ht2, Hc2. rewrite (repr_node_at _ _ _ _ Ht2). cbn [mbind res_bind].
        apply cover_app in Hc2 as (mid & _ & _ & ? & ? & _).
        destruct (Z.ltb_spec (mn_end q) start); [done|lia].
      * do 3 (split; [done|]). right. split; [done|]. intros x Hx. apply Hx2. lia.
    + destruct (undo_later (with_tree (set_root st t) t1 tr) ns lo hi l1 n l2 d' q m rest)
        as (t2 & m' & -> & (rest' & Ht2) & t3 & tr3 & ns' & E3 & Hqe & Ht3 & Hc3 & Ha3 & Hx3); auto; [lia|].
      cbn [mbind res_bind mm_root set_root]. rewrite (repr_prev _ _ _ _ Ht2), last_snoc.
      cbn [mbind res_bind fmap option_fmap option_map].
      rewrite <- app_assoc in Ht2. rewrite (repr_node_at _ _ _ _ Ht2). cbn [mbind res_bind].
      destruct (Z.ltb_spec (mn_end q) start); [lia|].
      change (if MADV_DONTFORK =? MADV_DONTFORK then MADV_DOFORK else MADV_DONTFORK) with MADV_DOFORK.
      subst one. exists t3, tr3, ns', (-1). split; [exact E3|]. do 3 (split; [done|]). by right.
Qed.
End dontfork.

(** The tree's part of [fork_inv]: counts of registered ranges, not the marks. *)
Record fork_counts (st : fork) (R : list (Z * Z)) : Prop := ForkCounts {
  fc_repr : repr (mm_root st) (elems (mm_root st));
  fc_cover : cover 0 UINTPTR_MAX (elems (mm_root st));
  fc_apart : apart (elems (mm_root st));
  fc_count : forall x, 0 <= x <= UINTPTR_MAX -> refcnt_at (elems (mm_root st)) x = regs_at R x }.

Lemma fork_inv_counts st R : fork_inv st R -> fork_counts st R.
Proof. intros [? ? ? ? ?]. by split. Qed.

(** The count of an address after a run, and the results. *)
Definition run_counts (r : res (fork * list Z)) (xs : list Z) : option (list Z * list Z) :=
  match r with
  | Ok (st, rs) => Some (refcnt_at (elems (mm_root st)) <$> xs, rs)
  | _ => None
  end.

(** ** Theorems *)

(** [ibv_dontfork_range] is all or nothing.  With memory for its nodes, and a
    kernel that may refuse any MADV_DONTFORK but takes MADV_DOFORK, it returns 0 with
    the pages of the buffer counted once more, or -1 with every count as it was; the
    tree is in order either way. *)
Theorem dontfork_all_or_nothing os st R base size :
  (forall live a, os_malloc os live = Some a -> a ∉ live) ->
  (forall live, is_Some (os_malloc os live)) ->
  (forall tr c, ma_advice c = MADV_DOFORK -> os_madvise os tr c = 0) ->
  fork_counts st R -> good_buffer os st base size -> Z.of_nat (length R) < 2 ^ 31 - 1 ->
  exists st' ret, ibv_dontfork_range os st base size = Ok (st', ret) /\
    ((ret = 0 /\ fork_counts st' (pages os st base size :: R)) \/ (ret = -1 /\ fork_counts st' R)).
Proof.
  intros Hfresh Hsome Hzero [H Hc Ha Hcnt] Hg Hlen.
  destruct (pages os st base size) as [s e] eqn:Hp.
  destruct (pages_enclose _ _ _ _ _ _ Hg Hp) as (Hs & He & _). destruct Hg as (_ & _ & Hsz & _).
  destruct (dontfork_pass os Hfresh Hsome Hzero s e ltac:(lia) st (elems (mm_root st)) 0 UINTPTR_MAX)
    as (t & tr & ns' & ret & E & Ht & Hc' & Ha' & Hor); auto; try lia.
  { intros x Hx. rewrite Hcnt by done. pose proof (regs_at_range R x). lia. }
  exists (with_tree st t tr), ret. split.
  - unfold ibv_dontfork_range. destruct (mm_root st) eqn:Er.
    { simpl in Hc. unfold UINTPTR_MAX in Hc. lia. }
    unfold ibv_madvise_range. destruct (Z.eqb_spec size 0); [lia|].
    unfold pages, page_size_for in Hp. injection Hp as -> ->. exact E.
  - destruct Ht as (Hrb & <- & Hnd).
    destruct Hor as [[-> Hx]|[-> Hx]]; [left|right]; (split; [done|]); split; auto; try done;
      intros x Hx'; rewrite Hx, Hcnt by done; simpl; lia.
Qed.

Definition refuse_second (c : madv) : bool := (ma_addr c =? 69632) && (ma_advice c =? MADV_DONTFORK).

Lemma dontfork_all_or_nothing_witness :
  let os := example_os refuse_second (fun _ => false) in
  let st := Fork (Node IBV_BLACK Nil (MemNode 1 0 UINTPTR_MAX 0) Nil) 4096 false false [] in
  exists st' ret, ibv_dontfork_range os st 65536 8192 = Ok (st', ret) /\
    ((ret = 0 /\ fork_counts st' (pages os st 65536 8192 :: [])) \/ (ret = -1 /\ fork_counts st' [])).
Proof.
  intros os st. apply dontfork_all_or_nothing.
  - intros live a [= <-]. apply foldr_max_fresh.
  - intros live. by eexists.
  - intros tr c E. cbn. unfold refuse_second. rewrite E. by rewrite andb_false_r.
  - split; cbn; [|unfold UINTPTR_MAX; lia|done|].
    + split; [eexists; eauto with mtree|]. split; [done|apply NoDup_singleton].
    + intros x Hx. by destruct (_ && _).
  - assert (E : page_size_for os st 65536 = 4096) by done. unfold good_buffer. rewrite E.
    split; [by exists 12|lia].
  - simpl. lia.
Defined.

(** A failed [ibv_dofork_range] loses counts.  Two buffers of one and of two pages
    start at the same page, so the counts are 2 and 1.  Giving the larger one back
    takes the first page to 1 without a call; the kernel refuses the second page;
    [undo_node] then merges the two pages, both at 1, and the roll-back starts before
    them: -1 is returned, but the first page is counted once instead of twice. *)
Theorem failed_dofork_loses_count :
  let refuse c := (ma_addr c =? 69632) && (ma_advice c =? MADV_DOFORK) in
  let os := example_os refuse (fun _ => false) in
  let before := [DontFork 65536 4096; DontFork 65536 8192] in
  run_counts (fork_process os before) [65536; 69632] = Some ([2; 1], [0; 0]) /\
  run_counts (fork_process os (before ++ [DoFork 65536 8192])) [65536; 69632] =
    Some ([1; 1], [0; 0; -1]).
Proof. by vm_compute. Qed.

(** Without memory for a node, the merge of [get_start_node] is not undone either: a
    page registered before the range loses its count. *)
Theorem failed_malloc_loses_count :
  let os := example_os (fun _ => false) (fun live => bool_decide (live = [1; 4])) in
  let before := [DontFork 131072 4096; DontFork 65536 4096; DoFork 131072 4096] in
  run_counts (fork_process os before) [65536; 69632] = Some ([1; 0], [0; 0; 0]) /\
  run_counts (fork_process os (before ++ [DontFork 69632 4096])) [65536; 69632] =
    Some ([0; 0], [0; 0; 0; -1]).
Proof. by vm_compute. Qed.
