(* ===== verification/Bitmap.v ===== *)
(** * The bitmap allocator of the mlx4 provider (libmlx4/src/bitmap.h)

    A huge page is handed out in chunks; a table of 32-bit words says which chunks
    are in use.  [mlx4_bitmap_alloc_range] looks for a free run from [last] on and
    then from the start.  The theorems: the search is the first aligned free run, and
    allocation and freeing act on exactly their runs when [max] is a power of two;
    they do not otherwise. *)

From S2P Require Import Prelude.

Definition BITS_PER_WORD : Z := 32.
Definition BITS_TO_WORDS (nr : Z) : Z := (nr + BITS_PER_WORD - 1) / BITS_PER_WORD.

Record mlx4_bitmap := Bitmap {
  bm_last : Z; bm_top : Z; bm_max : Z; bm_avail : Z; bm_mask : Z; bm_table : list Z }.

(** [__builtin_ffs]: one more than the index of the lowest bit that is set. *)
Fixpoint ctz (p : positive) : Z :=
  match p with
  | xO q => 1 + ctz q
  | _ => 0
  end.

Definition builtin_ffs (x : Z) : Z :=
  match x with Zpos p => 1 + ctz p | _ => 0 end.

Definition mlx4_ffz (word : Z) : Z := builtin_ffs (u32 (Z.lnot word)) - 1.

Definition mlx4_set_bit (nr : Z) (addr : list Z) : res (list Z) :=
  w ← array_get addr (nr / BITS_PER_WORD);
  Ok (<[Z.to_nat (nr / BITS_PER_WORD) := Z.lor w (Z.shiftl 1 (nr mod BITS_PER_WORD))]> addr).

Definition mlx4_clear_bit (nr : Z) (addr : list Z) : res (list Z) :=
  w ← array_get addr (nr / BITS_PER_WORD);
  Ok (<[Z.to_nat (nr / BITS_PER_WORD) := Z.land w (u32 (Z.lnot (Z.shiftl 1 (nr mod BITS_PER_WORD))))]> addr).

Definition mlx4_test_bit (nr : Z) (addr : list Z) : res bool :=
  w ← array_get addr (nr / BITS_PER_WORD);
  Ok (negb (Z.land w (Z.shiftl 1 (nr mod BITS_PER_WORD)) =? 0)).

(** The [while] loop over whole words and the last, partial one. *)
Fixpoint mlx4_find_first_zero_bit (p : list Z) (size result : Z) : res Z :=
  if size <? BITS_PER_WORD then
    if size =? 0 then Ok result
    else
      w ← of_option (head p);
      let tmp := u32 (Z.lor w (Z.shiftl (2 ^ 64 - 1) size)) in
      if tmp =? 2 ^ 32 - 1 then Ok (u32 (result + size))
      else Ok (u32 (result + mlx4_ffz tmp))
  else match p with
  | [] => Ub
  | tmp :: p' =>
      if negb (u32 (Z.lnot tmp) =? 0) then Ok (u32 (result + mlx4_ffz tmp))
      else mlx4_find_first_zero_bit p' (size - BITS_PER_WORD) (u32 (result + BITS_PER_WORD))
  end.

Definition mlx4_bitmap_alloc (b : mlx4_bitmap) : res (mlx4_bitmap * Z) :=
  obj ← mlx4_find_first_zero_bit (bm_table b) (bm_max b) 0;
  if obj <? bm_max b then
    t ← mlx4_set_bit obj (bm_table b);
    let last := if u32 (obj + 1) =? bm_max b then 0 else u32 (obj + 1) in
    let ret := s32 (Z.lor obj (bm_top b)) in
    Ok (Bitmap last (bm_top b) (bm_max b)
          (if ret =? -1 then bm_avail b else u32 (bm_avail b - 1)) (bm_mask b) t, ret)
  else Ok (b, -1).

(** ** Runs of bits *)

(** [while ((start < nbits) && mlx4_test_bit(start, bitmap)) start += alignment;] *)
Fixpoint skip_set (fuel : nat) (bitmap : list Z) (start nbits alignment : Z) : res Z :=
  match fuel with
  | O => Spin
  | S fuel' =>
      if start <? nbits then
        b ← mlx4_test_bit start bitmap;
        if (b : bool) then skip_set fuel' bitmap (u32 (start + alignment)) nbits alignment else Ok start
      else Ok start
  end.

(** [for (i = start + 1; i < end; i++)]: the first bit that is set, of [n] bits. *)
Fixpoint scan_range (n : nat) (bitmap : list Z) (i : Z) : res (option Z) :=
  match n with
  | O => Ok None
  | S n' =>
      b ← mlx4_test_bit i bitmap;
      if (b : bool) then Ok (Some i) else scan_range n' bitmap (i + 1)
  end.

Fixpoint find_aligned_range (fuel : nat) (bitmap : list Z) (start nbits len alignment : Z) : res Z :=
  match fuel with
  | O => Spin
  | S fuel' =>
      start ← skip_set (S (Z.to_nat nbits)) bitmap (u32 (align start alignment)) nbits alignment;
      if nbits <=? start then Ok (u32 (-1))
      else
        let end_ := u32 (start + len) in
        if nbits <? end_ then Ok (u32 (-1))
        else
          r ← scan_range (Z.to_nat (end_ - (start + 1))) bitmap (start + 1);
          match r with
          | None => Ok start
          | Some i => find_aligned_range fuel' bitmap (u32 (i + 1)) nbits len alignment
          end
  end.

(** [for (i = 0; i < cnt; i++) mlx4_set_bit(obj + i, bitmap->table);] *)
Fixpoint set_bits (n : nat) (obj : Z) (t : list Z) : res (list Z) :=
  match n with
  | O => Ok t
  | S n' => t ← mlx4_set_bit obj t; set_bits n' (u32 (obj + 1)) t
  end.

Fixpoint clear_bits (n : nat) (obj : Z) (t : list Z) : res (list Z) :=
  match n with
  | O => Ok t
  | S n' => t ← mlx4_clear_bit obj t; clear_bits n' (u32 (obj + 1)) t
  end.

Definition find_fuel (b : mlx4_bitmap) : nat := 2 + Z.to_nat (bm_max b).

Definition mlx4_bitmap_alloc_range (b : mlx4_bitmap) (cnt align : Z) : res (mlx4_bitmap * Z) :=
  if (cnt =? 1) && (align =? 1) then mlx4_bitmap_alloc b
  else if bm_max b <? u32 cnt then Ok (b, -1)
  else
    obj ← find_aligned_range (find_fuel b) (bm_table b) (bm_last b) (bm_max b) cnt align;
    '(top, obj) ←
      (if bm_max b <=? obj then
         o ← find_aligned_range (find_fuel b) (bm_table b) 0 (bm_max b) cnt align;
         Ok (Z.land (u32 (bm_top b + bm_max b)) (bm_mask b), o)
       else Ok (bm_top b, obj));
    if obj <? bm_max b then
      t ← set_bits (Z.to_nat cnt) obj (bm_table b);
      let last :=
        if obj =? bm_last b then
          if bm_max b <=? u32 (obj + cnt) then 0 else u32 (obj + cnt)
        else bm_last b in
      let ret := s32 (Z.lor obj top) in
      Ok (Bitmap last top (bm_max b)
            (if ret =? -1 then bm_avail b else u32 (bm_avail b - cnt)) (bm_mask b) t, ret)
    else Ok (Bitmap (bm_last b) top (bm_max b) (bm_avail b) (bm_mask b) (bm_table b), s32 obj).

Definition mlx4_bitmap_free_range (b : mlx4_bitmap) (obj cnt : Z) : res mlx4_bitmap :=
  let obj := Z.land (u32 obj) (u32 (bm_max b - 1)) in
  t ← clear_bits (Z.to_nat cnt) obj (bm_table b);
  Ok (Bitmap (Z.min (bm_last b) obj) (Z.land (u32 (bm_top b + bm_max b)) (bm_mask b))
        (bm_max b) (u32 (bm_avail b + cnt)) (bm_mask b) t).

Definition is_bitmap_empty (b : mlx4_bitmap) : bool := bm_avail b =? bm_max b.
Definition is_bitmap_avail (b : mlx4_bitmap) : bool := 0 <? bm_avail b.

(** [malloc] of the table may fail. *)
Definition mlx4_bitmap_init (num mask : Z) (memory : bool) : option mlx4_bitmap :=
  if memory then
    Some (Bitmap 0 0 num num mask (replicate (Z.to_nat (BITS_TO_WORDS num)) 0))
  else None.

Definition mlx4_bitmap_free (b : mlx4_bitmap) (obj : Z) : res mlx4_bitmap :=
  mlx4_bitmap_free_range b obj 1.

(** ** Bits of the table *)

Definition bit (t : list Z) (i : Z) : bool :=
  match t !! Z.to_nat (i / BITS_PER_WORD) with
  | Some w => Z.testbit w (i mod BITS_PER_WORD)
  | None => false
  end.

(** The table has a word for each of [n] bits, and words are words. *)
Definition table_ok (t : list Z) (n : Z) : Prop :=
  n <= BITS_PER_WORD * Z.of_nat (length t) /\ Forall (fun w => 0 <= w < 2 ^ 32) t.

Lemma word_get t n i :
  table_ok t n -> 0 <= i < n ->
  exists w, array_get t (i / BITS_PER_WORD) = Ok w /\ t !! Z.to_nat (i / BITS_PER_WORD) = Some w /\
    0 <= w < 2 ^ 32 /\ 0 <= i / BITS_PER_WORD /\ 0 <= i mod BITS_PER_WORD < 32.
Proof.
  intros [Hl Hw] Hi. unfold BITS_PER_WORD in *.
  assert (0 <= i / 32) by (apply Z.div_pos; lia).
  assert (i / 32 < Z.of_nat (length t)) by (apply Z.div_lt_upper_bound; lia).
  destruct (lookup_lt_is_Some_2 t (Z.to_nat (i / 32))) as [w Ew]; [lia|].
  exists w. unfold array_get. destruct (Z.ltb_spec (i / 32) 0); [lia|]. rewrite Ew.
  pose proof (Forall_lookup_1 _ _ _ _ Hw Ew). pose proof (Z.mod_pos_bound i 32). auto with lia.
Qed.

Lemma land_pow2 w k : 0 <= k -> negb (Z.land w (Z.shiftl 1 k) =? 0) = Z.testbit w k.
Proof.
  intros Hk. rewrite Z.shiftl_1_l. destruct (Z.testbit w k) eqn:E.
  - destruct (Z.eqb_spec (Z.land w (2 ^ k)) 0) as [H|]; [|done].
    apply (f_equal (fun z => Z.testbit z k)) in H.
    by rewrite Z.land_spec, E, Z.pow2_bits_true, Z.bits_0 in H by lia.
  - replace (Z.land w (2 ^ k)) with 0; [done|]. symmetry. apply Z.bits_inj'. intros j Hj.
    rewrite Z.land_spec, Z.bits_0, Z.pow2_bits_eqb by lia.
    destruct (Z.eqb_spec k j); [subst; by rewrite E|by rewrite andb_false_r].
Qed.

Lemma test_bit_ok t n i : table_ok t n -> 0 <= i < n -> mlx4_test_bit i t = Ok (bit t i).
Proof.
  intros Ht Hi. destruct (word_get t n i Ht Hi) as (w & E & Ew & Hw & Hq & Hm).
  unfold mlx4_test_bit, bit. rewrite E, Ew. cbn. by rewrite land_pow2 by lia.
Qed.

(** Which word and which place in it a bit is at. *)
Lemma bit_place i j : i / BITS_PER_WORD = j / BITS_PER_WORD -> i mod BITS_PER_WORD = j mod BITS_PER_WORD -> i = j.
Proof. unfold BITS_PER_WORD. intros. rewrite (Z.div_mod i 32), (Z.div_mod j 32) by lia. lia. Qed.

Lemma bit_insert t n i w' j :
  table_ok t n -> 0 <= i < n -> 0 <= j ->
  bit (<[Z.to_nat (i / BITS_PER_WORD) := w']> t) j =
    if i / BITS_PER_WORD =? j / BITS_PER_WORD then Z.testbit w' (j mod BITS_PER_WORD) else bit t j.
Proof.
  intros Ht Hi Hj. destruct (word_get t n i Ht Hi) as (w & _ & Ew & _ & Hq & _).
  assert (0 <= j / BITS_PER_WORD) by (apply Z.div_pos; unfold BITS_PER_WORD; lia).
  unfold bit. destruct (Z.eqb_spec (i / BITS_PER_WORD) (j / BITS_PER_WORD)) as [<-|Hne].
  - rewrite list_lookup_insert_eq; [done|]. by eapply lookup_lt_Some.
  - rewrite list_lookup_insert_ne; [done|]. lia.
Qed.

Lemma table_insert t n i w' :
  table_ok t n -> 0 <= w' < 2 ^ 32 -> table_ok (<[i := w']> t) n.
Proof.
  intros [Hl Hw] Hw'. split; [by rewrite length_insert|]. by apply Forall_insert.
Qed.

Lemma word_bits w : 0 <= w -> (forall j, 32 <= j -> Z.testbit w j = false) -> w < 2 ^ 32.
Proof.
  intros Hw Hj. destruct (Z.eq_dec w 0); [lia|].
  assert (Z.log2 w < 32); [|apply Z.log2_lt_pow2; lia].
  apply Z.lt_nge. intros H. apply Hj in H. by rewrite Z.bit_log2 in H by lia.
Qed.

Lemma word_high w j : 0 <= w < 2 ^ 32 -> 32 <= j -> Z.testbit w j = false.
Proof.
  intros Hw Hj. destruct (Z.eq_dec w 0); [subst; apply Z.bits_0|].
  apply Z.bits_above_log2; [lia|]. apply Z.log2_lt_pow2; [lia|].
  assert (2 ^ 32 <= 2 ^ j) by (apply Z.pow_le_mono_r; lia). lia.
Qed.

Lemma set_bit_ok t n i :
  table_ok t n -> 0 <= i < n ->
  exists t', mlx4_set_bit i t = Ok t' /\ table_ok t' n /\
    forall j, 0 <= j -> bit t' j = (i =? j) || bit t j.
Proof.
  intros Ht Hi. destruct (word_get t n i Ht Hi) as (w & E & Ew & Hw & Hq & Hm).
  unfold mlx4_set_bit. rewrite E. cbn [mbind res_bind]. eexists. split; [done|].
  rewrite Z.shiftl_1_l. split.
  - apply table_insert; [done|]. split; [apply Z.lor_nonneg; lia|].
    apply word_bits; [apply Z.lor_nonneg; lia|]. intros j Hj.
    rewrite Z.lor_spec, word_high, Z.pow2_bits_false by lia. done.
  - intros j Hj. rewrite (bit_insert t n) by done.
    destruct (Z.eqb_spec (i / BITS_PER_WORD) (j / BITS_PER_WORD)) as [Eq|Hne].
    + rewrite Z.lor_spec, Z.pow2_bits_eqb by lia. unfold bit. rewrite <- Eq, Ew, orb_comm. f_equal.
      destruct (Z.eqb_spec i j) as [->|Hij]; [apply Z.eqb_refl|].
      apply Z.eqb_neq. intros Em. apply Hij. by apply bit_place.
    + destruct (Z.eqb_spec i j); [by subst|done].
Qed.

Lemma clear_bit_ok t n i :
  table_ok t n -> 0 <= i < n ->
  exists t', mlx4_clear_bit i t = Ok t' /\ table_ok t' n /\
    forall j, 0 <= j -> bit t' j = negb (i =? j) && bit t j.
Proof.
  intros Ht Hi. destruct (word_get t n i Ht Hi) as (w & E & Ew & Hw & Hq & Hm).
  unfold mlx4_clear_bit. rewrite E. cbn [mbind res_bind]. eexists. split; [done|].
  rewrite Z.shiftl_1_l.
  assert (Hspec : forall k, 0 <= k -> Z.testbit (Z.land w (u32 (Z.lnot (2 ^ (i mod BITS_PER_WORD))))) k =
    Z.testbit w k && negb (i mod BITS_PER_WORD =? k)).
  { intros k Hk. rewrite Z.land_spec. unfold u32. destruct (Z.lt_ge_cases k 32).
    - by rewrite Z.mod_pow2_bits_low, Z.lnot_spec, Z.pow2_bits_eqb by lia.
    - by rewrite word_high by lia. }
  split.
  - apply table_insert; [done|]. split; [apply Z.land_nonneg; lia|].
    apply word_bits; [apply Z.land_nonneg; lia|]. intros j Hj.
    by rewrite Hspec, word_high by lia.
  - intros j Hj. rewrite (bit_insert t n) by done. pose proof (Z.mod_pos_bound j BITS_PER_WORD eq_refl).
    destruct (Z.eqb_spec (i / BITS_PER_WORD) (j / BITS_PER_WORD)) as [Eq|Hne].
    + rewrite Hspec by lia. unfold bit. rewrite <- Eq, Ew, andb_comm. f_equal. f_equal.
      destruct (Z.eqb_spec i j) as [->|Hij]; [apply Z.eqb_refl|].
      apply Z.eqb_neq. intros Em. apply Hij. by apply bit_place.
    + destruct (Z.eqb_spec i j); [by subst|done].
Qed.

(** ** Runs *)

Definition in_run (s len i : Z) : bool := (s <=? i) && (i <? s + len).
Definition free_run (t : list Z) (s len : Z) : Prop := forall i, s <= i < s + len -> bit t i = false.

Lemma set_bits_ok N n : forall obj t,
  table_ok t N -> 0 <= obj -> obj + Z.of_nat n <= N -> N < 2 ^ 32 ->
  exists t', set_bits n obj t = Ok t' /\ table_ok t' N /\
    forall j, 0 <= j -> bit t' j = in_run obj (Z.of_nat n) j || bit t j.
Proof.
  induction n as [|n IH]; intros obj t Ht Ho Hn HN; cbn [set_bits].
  - exists t. split; [done|]. split; [done|]. intros j Hj. unfold in_run.
    destruct (Z.leb_spec obj j), (Z.ltb_spec j (obj + Z.of_nat 0)); (done || lia).
  - destruct (set_bit_ok t N obj) as (t1 & E1 & Ht1 & H1); [done|lia|]. rewrite E1. cbn [mbind res_bind].
    rewrite u32_small by lia.
    destruct (IH (obj + 1) t1) as (t' & E & Ht' & H'); [done|lia..|]. exists t'. split; [done|].
    split; [done|]. intros j Hj. rewrite H', H1 by done. unfold in_run.
    destruct (Z.leb_spec obj j), (Z.leb_spec (obj + 1) j), (Z.ltb_spec j (obj + 1 + Z.of_nat n)),
      (Z.ltb_spec j (obj + Z.of_nat (S n))), (Z.eqb_spec obj j); (done || lia).
Qed.

Lemma clear_bits_ok N n : forall obj t,
  table_ok t N -> 0 <= obj -> obj + Z.of_nat n <= N -> N < 2 ^ 32 ->
  exists t', clear_bits n obj t = Ok t' /\ table_ok t' N /\
    forall j, 0 <= j -> bit t' j = negb (in_run obj (Z.of_nat n) j) && bit t j.
Proof.
  induction n as [|n IH]; intros obj t Ht Ho Hn HN; cbn [clear_bits].
  - exists t. split; [done|]. split; [done|]. intros j Hj. unfold in_run.
    destruct (Z.leb_spec obj j), (Z.ltb_spec j (obj + Z.of_nat 0)); (done || lia).
  - destruct (clear_bit_ok t N obj) as (t1 & E1 & Ht1 & H1); [done|lia|]. rewrite E1. cbn [mbind res_bind].
    rewrite u32_small by lia.
    destruct (IH (obj + 1) t1) as (t' & E & Ht' & H'); [done|lia..|]. exists t'. split; [done|].
    split; [done|]. intros j Hj. rewrite H', H1 by done. unfold in_run.
    destruct (Z.leb_spec obj j), (Z.leb_spec (obj + 1) j), (Z.ltb_spec j (obj + 1 + Z.of_nat n)),
      (Z.ltb_spec j (obj + Z.of_nat (S n))), (Z.eqb_spec obj j); (done || lia).
Qed.

Lemma scan_range_ok t N n : forall i,
  table_ok t N -> 0 <= i -> i + Z.of_nat n <= N ->
  exists r, scan_range n t i = Ok r /\
    match r with
    | None => free_run t i (Z.of_nat n)
    | Some k => i <= k < i + Z.of_nat n /\ bit t k = true
    end.
Proof.
  induction n as [|n IH]; intros i Ht Hi HN; cbn [scan_range].
  - exists None. split; [done|]. intros j Hj. lia.
  - rewrite (test_bit_ok t N) by (done || lia). cbn [mbind res_bind].
    destruct (bit t i) eqn:E; [exists (Some i); split; [done|]; split; [lia|done]|].
    destruct (IH (i + 1)) as (r & Er & Hr); [done|lia..|]. exists r. split; [done|].
    destruct r as [k|]; [split; [lia|apply Hr]|].
    intros j Hj. destruct (Z.eq_dec j i) as [->|]; [done|]. apply Hr. lia.
Qed.

(** The search, with an alignment that is a power of two. *)
Section find.
Context (t : list Z) (nbits len k : Z).
Hypothesis Ht : table_ok t nbits.
Hypothesis Hk : 0 <= k < 32.
Hypothesis Hlen : 1 <= len.
Hypothesis Hbits : 0 <= nbits.
Hypothesis Hsmall : nbits + len + 2 ^ k < 2 ^ 32.

Abbreviation al := (2 ^ k).

Lemma multiple_next s s' : s mod al = 0 -> s' mod al = 0 -> s < s' -> s + al <= s'.
Proof.
  intros H1 H2 Hlt. assert (0 < al) by lia.
  apply Z.mod_divide in H1 as [a ->]; [|lia]. apply Z.mod_divide in H2 as [b ->]; [|lia].
  apply Z.mul_lt_mono_pos_r in Hlt; [|done].
  pose proof (Z.mul_le_mono_nonneg_r (a + 1) b al). lia.
Qed.

Lemma skip_set_ok fuel : forall s,
  0 <= s -> s mod al = 0 -> (Z.to_nat (nbits - s) < fuel)%nat ->
  exists r, skip_set fuel t s nbits al = Ok r /\ s <= r /\ r mod al = 0 /\
    (r < nbits -> bit t r = false) /\
    (forall j, s <= j < r -> j mod al = 0 -> bit t j = true).
Proof.
  assert (0 < al) by lia.
  induction fuel as [|fuel IH]; intros s Hs Hm Hf; [lia|]. cbn [skip_set].
  destruct (Z.ltb_spec s nbits) as [Hlt|Hge]; [|exists s; split_and!; auto; intros; lia].
  rewrite (test_bit_ok t nbits) by (done || lia). cbn [mbind res_bind].
  destruct (bit t s) eqn:E; [|exists s; split_and!; auto; intros; lia].
  rewrite u32_small by lia.
  destruct (IH (s + al)) as (r & Er & H1 & H2 & H4 & H5); try lia.
  { rewrite <- Zplus_mod_idemp_r, Z.mod_same by lia. by rewrite Z.add_0_r. }
  exists r. split; [done|]. split; [lia|]. split; [done|]. split; [done|].
  intros j Hj Hjm. destruct (Z.eq_dec j s) as [->|]; [done|].
  apply H5; [|done]. pose proof (multiple_next s j Hm Hjm). lia.
Qed.

(** [r] is the first aligned free run of [len] bits from [s] on, or -1. *)
Definition first_run (s r : Z) : Prop :=
  (r = 2 ^ 32 - 1 /\
   forall j, s <= j -> j mod al = 0 -> j + len <= nbits -> ~ free_run t j len) \/
  (s <= r /\ r mod al = 0 /\ r + len <= nbits /\ free_run t r len /\
   forall j, s <= j < r -> j mod al = 0 -> ~ free_run t j len).

Lemma find_aligned_range_ok fuel : forall s,
  0 <= s <= nbits + 1 -> (Z.to_nat (nbits - s) + 2 <= fuel)%nat ->
  exists r, find_aligned_range fuel t s nbits len al = Ok r /\ first_run s r.
Proof.
  assert (0 < al) by lia.
  induction fuel as [|fuel IH]; intros s Hs Hf; [lia|]. cbn [find_aligned_range].
  destruct (align_spec k s) as (Ha1 & Ha2); [lia..|]. rewrite (u32_small (align s al)) by lia.
  destruct (skip_set_ok (S (Z.to_nat nbits)) (align s al))
    as (r & -> & H1 & H2 & H4 & H5); [lia|done|lia|]. cbn [mbind res_bind].
  assert (Hbefore : forall j, s <= j < r -> j mod al = 0 -> ~ free_run t j len).
  { intros j Hj Hjm Hfr. assert (align s al <= j).
    { destruct (Z.lt_ge_cases j (align s al)) as [Hlt|]; [|done].
      pose proof (multiple_next j (align s al) Hjm Ha2 Hlt). lia. }
    specialize (Hfr j ltac:(lia)). rewrite (H5 j) in Hfr; [done|lia|done]. }
  destruct (Z.leb_spec nbits r) as [Hge|Hlt].
  { exists (2 ^ 32 - 1). split; [done|]. left. split; [done|]. intros j Hj Hjm Hjl.
    apply Hbefore; [lia|done]. }
  rewrite (u32_small (r + len)) by lia. destruct (Z.ltb_spec nbits (r + len)) as [Hend|Hend].
  { exists (2 ^ 32 - 1). split; [done|]. left. split; [done|]. intros j Hj Hjm Hjl.
    apply Hbefore; [lia|done]. }
  destruct (scan_range_ok t nbits (Z.to_nat (r + len - (r + 1))) (r + 1)) as (q & -> & Hq);
    [done|lia..|]. cbn [mbind res_bind].
  destruct q as [i|].
  - destruct Hq as [Hi Hbi]. rewrite u32_small by lia.
    assert (Hskip : forall j, s <= j < i + 1 -> j mod al = 0 -> ~ free_run t j len).
    { intros j Hj Hjm Hfr. destruct (Z.lt_ge_cases j r); [eapply Hbefore; eauto; lia|].
      rewrite (Hfr i) in Hbi; [done|lia]. }
    destruct (IH (i + 1)) as (x & Ex & Hx); [lia..|]. exists x. split; [done|].
    destruct Hx as [[-> Hx]|(X1 & X2 & X3 & X4 & X5)]; [left|right].
    + split; [done|]. intros j Hj Hjm Hjl. destruct (Z.lt_ge_cases j (i + 1)); auto with lia.
    + split; [lia|]. split; [done|]. split; [done|]. split; [done|].
      intros j Hj Hjm. destruct (Z.lt_ge_cases j (i + 1)); auto with lia.
  - exists r. split; [done|]. right. split; [lia|]. split; [done|]. split; [lia|]. split; [|done].
    intros j Hj. destruct (Z.eq_dec j r) as [->|]; [by apply H4|]. apply Hq. lia.
Qed.
End find.

(** ** The first zero bit *)

Lemma ctz_spec p :
  0 <= ctz p /\ Z.testbit (Zpos p) (ctz p) = true /\
  forall j, 0 <= j < ctz p -> Z.testbit (Zpos p) j = false.
Proof.
  induction p as [p _|p (H1 & H2 & H3)|]; cbn [ctz]; [split; [lia|]; split; [done|lia]| |
    split; [lia|]; split; [done|lia]].
  change (Zpos (xO p)) with (2 * Zpos p). split; [lia|]. split.
  - replace (1 + ctz p) with (Z.succ (ctz p)) by lia. by rewrite Z.double_bits_succ.
  - intros j Hj. destruct (Z.eq_dec j 0) as [->|]; [apply Z.testbit_even_0|].
    replace j with (Z.succ (j - 1)) by lia. rewrite Z.double_bits_succ. apply H3. lia.
Qed.

Lemma lnot_bits w j : 0 <= j < 32 -> Z.testbit (u32 (Z.lnot w)) j = negb (Z.testbit w j).
Proof. intros. unfold u32. by rewrite Z.mod_pow2_bits_low, Z.lnot_spec by lia. Qed.

Lemma lnot_zero w : 0 <= w < 2 ^ 32 -> u32 (Z.lnot w) = 2 ^ 32 - 1 - w.
Proof.
  intros Hw. unfold u32, Z.lnot. rewrite <- (Z.mod_unique (Z.pred (- w)) (2 ^ 32) (-1) (2 ^ 32 - 1 - w)); lia.
Qed.

Lemma ffz_spec w : 0 <= w < 2 ^ 32 -> w <> 2 ^ 32 - 1 ->
  0 <= mlx4_ffz w < 32 /\ Z.testbit w (mlx4_ffz w) = false /\
  forall j, 0 <= j < mlx4_ffz w -> Z.testbit w j = true.
Proof.
  intros Hw Hne. unfold mlx4_ffz. pose proof (lnot_zero w Hw) as E. pose proof (lnot_bits w) as Hb.
  destruct (u32 (Z.lnot w)) as [|p|p] eqn:Ep; [lia| |lia]. cbn [builtin_ffs].
  destruct (ctz_spec p) as (H1 & H2 & H3). replace (1 + ctz p - 1) with (ctz p) by lia.
  assert (ctz p < 32).
  { destruct (Z.lt_ge_cases (ctz p) 32); [done|].
    rewrite word_high in H2 by lia. done. }
  split; [lia|]. split.
  - rewrite Hb in H2 by lia. by apply negb_true_iff.
  - intros j Hj. specialize (H3 j ltac:(lia)). rewrite Hb in H3 by lia. by apply negb_false_iff.
Qed.

Lemma bit_cons w p j :
  0 <= j -> bit (w :: p) j = if j <? 32 then Z.testbit w j else bit p (j - 32).
Proof.
  intros Hj. unfold bit, BITS_PER_WORD. destruct (Z.ltb_spec j 32).
  - rewrite Z.div_small, Z.mod_small by lia. done.
  - assert (j / 32 = (j - 32) / 32 + 1) as -> by (rewrite <- Z.div_add by lia; f_equal; lia).
    assert (j mod 32 = (j - 32) mod 32) as -> by (rewrite <- (Z.mod_add (j - 32) 1) by lia; f_equal; lia).
    assert (0 <= (j - 32) / 32) by (apply Z.div_pos; lia).
    by replace (Z.to_nat ((j - 32) / 32 + 1)) with (S (Z.to_nat ((j - 32) / 32))) by lia.
Qed.

(** The partial word has ones from [size] on. *)
Lemma partial_word w size : 0 <= w < 2 ^ 32 -> 0 < size < 32 ->
  let tmp := u32 (Z.lor w (Z.shiftl (2 ^ 64 - 1) size)) in
  0 <= tmp < 2 ^ 32 /\ forall j, 0 <= j < 32 -> Z.testbit tmp j = Z.testbit w j || (size <=? j).
Proof.
  intros Hw Hs tmp. split; [apply u32_range|]. intros j Hj. unfold tmp, u32.
  rewrite Z.mod_pow2_bits_low, Z.lor_spec, Z.shiftl_spec by lia. f_equal.
  replace (2 ^ 64 - 1) with (Z.ones 64) by done.
  destruct (Z.leb_spec size j); [apply Z.ones_spec_low; lia|apply Z.testbit_neg_r; lia].
Qed.

Lemma ones_word w j : w = 2 ^ 32 - 1 -> 0 <= j < 32 -> Z.testbit w j = true.
Proof. intros -> Hj. change (2 ^ 32 - 1) with (Z.ones 32). apply Z.ones_spec_low. lia. Qed.

Lemma find_first_zero_bit_ok p : forall size result,
  table_ok p size -> 0 <= size -> 0 <= result -> result + size < 2 ^ 32 ->
  exists r, mlx4_find_first_zero_bit p size result = Ok (result + r) /\ 0 <= r <= size /\
    (r < size -> bit p r = false) /\ forall j, 0 <= j < r -> bit p j = true.
Proof.
  unfold table_ok, BITS_PER_WORD.
  induction p as [|w p IH]; intros size result [Hl Hw] Hs Hr Hb; cbn [mlx4_find_first_zero_bit];
    unfold BITS_PER_WORD in *.
  { simpl in Hl. assert (size = 0) as -> by lia. exists 0. rewrite Z.add_0_r. simpl. auto with lia. }
  apply Forall_cons in Hw as [Hw Hws]. simpl length in Hl.
  destruct (Z.ltb_spec size 32) as [Hlt|Hge].
  - destruct (Z.eqb_spec size 0) as [->|Hne].
    { exists 0. rewrite Z.add_0_r. split; [done|]. split; [lia|]. split; intros; lia. }
    cbn [head of_option mbind res_bind].
    destruct (partial_word w size) as [Ht Htb]; [done|lia|].
    set (tmp := u32 (Z.lor w (Z.shiftl (2 ^ 64 - 1) size))) in *.
    destruct (Z.eqb_spec tmp (2 ^ 32 - 1)) as [E|E].
    + exists size. rewrite u32_small by lia. split; [done|]. split; [lia|]. split; [lia|].
      intros j Hj. rewrite bit_cons by lia. destruct (Z.ltb_spec j 32); [|lia].
      pose proof (ones_word tmp j E) as Ho. rewrite Htb in Ho by lia.
      destruct (Z.leb_spec size j); [lia|]. rewrite orb_false_r in Ho. apply Ho. lia.
    + destruct (ffz_spec tmp Ht E) as (F1 & F2 & F3).
      assert (mlx4_ffz tmp < size).
      { rewrite Htb in F2 by lia. destruct (Z.leb_spec size (mlx4_ffz tmp)); [|lia].
        by rewrite orb_true_r in F2. }
      exists (mlx4_ffz tmp). rewrite u32_small by lia. split; [done|]. split; [lia|]. split.
      * intros _. rewrite bit_cons by lia. destruct (Z.ltb_spec (mlx4_ffz tmp) 32); [|lia].
        rewrite Htb in F2 by lia. by apply orb_false_elim in F2 as [? _].
      * intros j Hj. rewrite bit_cons by lia. destruct (Z.ltb_spec j 32); [|lia].
        specialize (F3 j Hj). rewrite Htb in F3 by lia.
        destruct (Z.leb_spec size j); [lia|]. by rewrite orb_false_r in F3.
  - rewrite lnot_zero by done. destruct (Z.eqb_spec (2 ^ 32 - 1 - w) 0) as [E|E]; cbn [negb].
    + destruct (IH (size - 32) (result + 32)) as (r & Er & R1 & R2 & R3); [split; [lia|done]|lia..|].
      rewrite u32_small by lia. exists (r + 32).
      replace (result + (r + 32)) with (result + 32 + r) by lia. split; [done|]. split; [lia|]. split.
      * intros Hr'. rewrite bit_cons by lia. destruct (Z.ltb_spec (r + 32) 32); [lia|].
        replace (r + 32 - 32) with r by lia. apply R2. lia.
      * intros j Hj. rewrite bit_cons by lia. destruct (Z.ltb_spec j 32); [apply ones_word; lia|].
        apply R3. lia.
    + destruct (ffz_spec w Hw) as (F1 & F2 & F3); [lia|].
      exists (mlx4_ffz w). rewrite u32_small by lia. split; [done|]. split; [lia|]. split.
      * intros _. rewrite bit_cons by lia. by destruct (Z.ltb_spec (mlx4_ffz w) 32); [|lia].
      * intros j Hj. rewrite bit_cons by lia. destruct (Z.ltb_spec j 32); [|lia]. auto.
Qed.

(** ** Counting *)

Fixpoint used (t : list Z) (n : nat) : Z :=
  match n with
  | O => 0
  | S m => used t m + Z.b2z (bit t (Z.of_nat m))
  end.

(** Bits of a run below [n]. *)
Definition run_below (s len n : Z) : Z := Z.max 0 (Z.min len (n - s)).

Lemma used_add t t' s len n :
  0 <= s -> 0 <= len ->
  (forall j, 0 <= j -> Z.b2z (bit t' j) = Z.b2z (bit t j) + Z.b2z (in_run s len j)) ->
  used t' n = used t n + run_below s len (Z.of_nat n).
Proof.
  intros Hs Hl H. induction n as [|n IH]; [simpl; unfold run_below; lia|].
  cbn [used]. rewrite IH, H by lia. unfold run_below, in_run.
  destruct (Z.leb_spec s (Z.of_nat n)), (Z.ltb_spec (Z.of_nat n) (s + len)); simpl Z.b2z; lia.
Qed.

Lemma used_set t t' s len n :
  0 <= s -> 0 <= len -> s + len <= Z.of_nat n -> free_run t s len ->
  (forall j, 0 <= j -> bit t' j = in_run s len j || bit t j) -> used t' n = used t n + len.
Proof.
  intros Hs Hl Hn Hf H. rewrite (used_add t t' s len) by
    (lia || (intros j Hj; rewrite H by done; unfold in_run;
     destruct (Z.leb_spec s j), (Z.ltb_spec j (s + len)); simpl; rewrite ?Hf by lia;
     destruct (bit t j); simpl; lia)).
  unfold run_below. lia.
Qed.

(** A run that is in use altogether. *)
Definition used_run (t : list Z) (s len : Z) : Prop := forall i, s <= i < s + len -> bit t i = true.

Lemma used_clear t t' s len n :
  0 <= s -> 0 <= len -> s + len <= Z.of_nat n -> used_run t s len ->
  (forall j, 0 <= j -> bit t' j = negb (in_run s len j) && bit t j) -> used t' n = used t n - len.
Proof.
  intros Hs Hl Hn Hf H. rewrite (used_add t' t s len n) by
    (lia || (intros j Hj; rewrite H by done; unfold in_run;
     destruct (Z.leb_spec s j), (Z.ltb_spec j (s + len)); simpl; rewrite ?Hf by lia;
     destruct (bit t j); simpl; lia)).
  unfold run_below. lia.
Qed.

Lemma used_range t n : 0 <= used t n <= Z.of_nat n.
Proof. induction n; simpl used; [lia|]. destruct (bit t _); simpl Z.b2z; lia. Qed.

(** ** The allocator's invariant *)

Record bitmap_wf (b : mlx4_bitmap) : Prop := BitmapWf {
  wf_max : exists k, 0 <= k < 30 /\ bm_max b = 2 ^ k;
  wf_mask : bm_mask b = bm_max b - 1;
  wf_top : bm_top b = 0;
  wf_last : 0 <= bm_last b < bm_max b;
  wf_table : table_ok (bm_table b) (bm_max b);
  wf_avail : bm_avail b = bm_max b - used (bm_table b) (Z.to_nat (bm_max b)) }.

Lemma max_small b : bitmap_wf b -> 1 <= bm_max b < 2 ^ 30.
Proof.
  intros H. destruct (wf_max b H) as (k & Hk & ->). split; [lia|]. apply Z.pow_lt_mono_r; lia.
Qed.

(** The top bits stay 0: [(top + max) & mask] with a power of two. *)
Lemma top_zero b : bitmap_wf b -> Z.land (u32 (bm_top b + bm_max b)) (bm_mask b) = 0.
Proof.
  intros H. pose proof (max_small b H). rewrite (wf_top b H), (wf_mask b H), u32_small by lia.
  destruct (wf_max b H) as (k & Hk & ->). rewrite Z.add_0_l, Z.sub_1_r, <- Z.ones_equiv, Z.land_ones by lia.
  apply Z.mod_same. lia.
Qed.

(** An allocation: the run is new, and nothing else changes. *)
Definition allocated (b b' : mlx4_bitmap) (obj cnt : Z) : Prop :=
  0 <= obj /\ obj + cnt <= bm_max b /\ free_run (bm_table b) obj cnt /\
  (forall j, 0 <= j -> bit (bm_table b') j = in_run obj cnt j || bit (bm_table b) j) /\
  bm_avail b' = bm_avail b - cnt /\ bm_max b' = bm_max b /\ bitmap_wf b'.

Lemma allocated_ok b obj cnt t' last :
  bitmap_wf b -> 1 <= cnt -> 0 <= obj -> obj + cnt <= bm_max b -> free_run (bm_table b) obj cnt ->
  table_ok t' (bm_max b) ->
  (forall j, 0 <= j -> bit t' j = in_run obj cnt j || bit (bm_table b) j) ->
  0 <= last < bm_max b ->
  allocated b (Bitmap last 0 (bm_max b) (u32 (bm_avail b - cnt)) (bm_mask b) t') obj cnt.
Proof.
  intros H Hc Ho Hoc Hf Ht Hb Hl. pose proof (max_small b H) as Hm.
  pose proof (used_set _ t' obj cnt (Z.to_nat (bm_max b)) Ho ltac:(lia) ltac:(lia) Hf Hb) as Hu.
  pose proof (used_range t' (Z.to_nat (bm_max b))). pose proof (wf_avail b H).
  pose proof (used_range (bm_table b) (Z.to_nat (bm_max b))).
  assert (u32 (bm_avail b - cnt) = bm_avail b - cnt) as E by (apply u32_small; lia).
  rewrite E. unfold allocated. cbn [bm_table bm_avail bm_max].
  split_and!; auto. split; cbn [bm_table bm_avail bm_max bm_last bm_top bm_mask]; auto using wf_max, wf_mask. lia.
Qed.

Lemma bitmap_alloc_ok b :
  bitmap_wf b ->
  exists b' r, mlx4_bitmap_alloc b = Ok (b', r) /\
    ((r = -1 /\ b' = b /\ forall j, 0 <= j < bm_max b -> bit (bm_table b) j = true) \/ allocated b b' r 1).
Proof.
  intros H. pose proof (max_small b H) as Hm. unfold mlx4_bitmap_alloc.
  destruct (find_first_zero_bit_ok (bm_table b) (bm_max b) 0) as (r & -> & R1 & R2 & R3);
    [by apply wf_table|lia..|]. cbn [mbind res_bind]. rewrite Z.add_0_l.
  destruct (Z.ltb_spec r (bm_max b)) as [Hlt|Hge].
  - destruct (set_bit_ok (bm_table b) (bm_max b) r) as (t' & -> & Ht' & Hb'); [by apply wf_table|lia|].
    cbn [mbind res_bind]. rewrite (wf_top b H), Z.lor_0_r, s32_small, (u32_small (r + 1)) by lia.
    destruct (Z.eqb_spec r (-1)); [lia|].
    eexists _, r. split; [reflexivity|]. right. apply allocated_ok; auto; try lia.
    + intros j Hj. assert (j = r) as -> by lia. auto.
    + intros j Hj. rewrite Hb' by done. unfold in_run. f_equal.
      destruct (Z.eqb_spec r j), (Z.leb_spec r j), (Z.ltb_spec j (r + 1)); done || lia.
    + destruct (Z.eqb_spec (r + 1) (bm_max b)); lia.
  - exists b, (-1). split; [done|]. left. split; [done|]. split; [done|]. intros j Hj. apply R3. lia.
Qed.

Lemma bitmap_eta b : Bitmap (bm_last b) (bm_top b) (bm_max b) (bm_avail b) (bm_mask b) (bm_table b) = b.
Proof. by destruct b. Qed.

(** The two searches, from [last] and from the start. *)
Lemma two_searches b cnt k :
  bitmap_wf b -> 0 <= k < 31 -> 1 <= cnt <= bm_max b ->
  exists obj,
    (obj0 ← find_aligned_range (find_fuel b) (bm_table b) (bm_last b) (bm_max b) cnt (2 ^ k);
     if bm_max b <=? obj0 then
       o ← find_aligned_range (find_fuel b) (bm_table b) 0 (bm_max b) cnt (2 ^ k);
       Ok (Z.land (u32 (bm_top b + bm_max b)) (bm_mask b), o)
     else Ok (bm_top b, obj0)) = Ok (0, obj) /\
    ((obj = 2 ^ 32 - 1 /\
      forall j, 0 <= j -> j mod 2 ^ k = 0 -> j + cnt <= bm_max b -> ~ free_run (bm_table b) j cnt) \/
     (0 <= obj /\ obj mod 2 ^ k = 0 /\ obj + cnt <= bm_max b /\ free_run (bm_table b) obj cnt)).
Proof.
  intros H Hk Hc. pose proof (max_small b H) as Hm. pose proof (wf_last b H) as Hl.
  assert (2 ^ k < 2 ^ 31) by (apply Z.pow_lt_mono_r; lia).
  pose proof (find_aligned_range_ok (bm_table b) (bm_max b) cnt k (wf_table b H) ltac:(lia) ltac:(lia)
    ltac:(lia) ltac:(lia) (find_fuel b)) as Hfind. unfold find_fuel in *.
  destruct (Hfind (bm_last b)) as (o1 & -> & H1); [lia..|]. cbn [mbind res_bind].
  destruct (Z.leb_spec (bm_max b) o1) as [Hge|Hlt].
  - destruct (Hfind 0) as (o2 & -> & H2); [lia..|]. cbn [mbind res_bind]. rewrite top_zero by done.
    exists o2. split; [done|]. destruct H2 as [H2|(X1 & X2 & X3 & X4 & _)]; [by left|by right].
  - rewrite (wf_top b H). exists o1. split; [done|].
    destruct H1 as [[-> _]|(X1 & X2 & X3 & X4 & _)]; [lia|]. right. auto with lia.
Qed.

Lemma bitmap_alloc_range_ok b cnt k :
  bitmap_wf b -> 0 <= k < 31 -> 1 <= cnt < 2 ^ 31 ->
  exists b' r, mlx4_bitmap_alloc_range b cnt (2 ^ k) = Ok (b', r) /\
    ((r = -1 /\ b' = b /\
      forall j, 0 <= j -> j mod 2 ^ k = 0 -> j + cnt <= bm_max b -> ~ free_run (bm_table b) j cnt) \/
     (allocated b b' r cnt /\ r mod 2 ^ k = 0)).
Proof.
  intros H Hk Hc. pose proof (max_small b H) as Hm. unfold mlx4_bitmap_alloc_range.
  destruct ((cnt =? 1) && (2 ^ k =? 1)) eqn:E1.
  { apply andb_prop in E1 as [->%Z.eqb_eq E1%Z.eqb_eq]. rewrite E1.
    destruct (bitmap_alloc_ok b H) as (b' & r & -> & Hr). exists b', r. split; [done|].
    destruct Hr as [(-> & -> & Hfull)|Hr]; [left|right; split; [done|apply Z.mod_1_r]].
    split; [done|]. split; [done|]. intros j Hj _ Hj2 Hf.
    specialize (Hf j ltac:(lia)). rewrite Hfull in Hf by lia. done. }
  rewrite u32_small by lia. destruct (Z.ltb_spec (bm_max b) cnt) as [Hbig|Hfit].
  { exists b, (-1). split; [done|]. left. split; [done|]. split; [done|]. intros; lia. }
  destruct (two_searches b cnt k) as (obj & E & Hobj); [done|lia..|].
  destruct (find_aligned_range (find_fuel b) (bm_table b) (bm_last b) (bm_max b) cnt (2 ^ k));
    try discriminate.
  cbn [mbind res_bind] in E |- *. rewrite E. cbn [mbind res_bind].
  destruct Hobj as [[-> Hno]|(O1 & O2 & O3 & O4)].
  - destruct (Z.ltb_spec (2 ^ 32 - 1) (bm_max b)); [lia|].
    exists b, (-1). split; [|by left]. do 2 f_equal. rewrite <- (bitmap_eta b) at 6. by rewrite (wf_top b H).
  - destruct (Z.ltb_spec obj (bm_max b)); [|lia].
    destruct (set_bits_ok (bm_max b) (Z.to_nat cnt) obj (bm_table b)) as (t' & -> & Ht' & Hb');
      [by apply wf_table|lia..|]. cbn [mbind res_bind].
    rewrite Z.lor_0_r, s32_small, (u32_small (obj + cnt)) by lia. destruct (Z.eqb_spec obj (-1)); [lia|].
    eexists _, obj. split; [reflexivity|]. right. split; [|done].
    apply allocated_ok; auto; try lia.
    + intros j Hj. rewrite Hb' by done. by rewrite Z2Nat.id by lia.
    + pose proof (wf_last b H). destruct (Z.eqb_spec obj (bm_last b)); [|lia].
      destruct (Z.leb_spec (bm_max b) (obj + cnt)); lia.
Qed.

(** Freeing a run that is in use. *)
Lemma bitmap_free_range_ok b obj cnt :
  bitmap_wf b -> 0 <= obj -> 1 <= cnt -> obj + cnt <= bm_max b -> used_run (bm_table b) obj cnt ->
  exists b', mlx4_bitmap_free_range b obj cnt = Ok b' /\ bitmap_wf b' /\ bm_max b' = bm_max b /\
    bm_avail b' = bm_avail b + cnt /\
    forall j, 0 <= j -> bit (bm_table b') j = negb (in_run obj cnt j) && bit (bm_table b) j.
Proof.
  intros H Ho Hc Hoc Hu. pose proof (max_small b H) as Hm. unfold mlx4_bitmap_free_range.
  assert (Z.land (u32 obj) (u32 (bm_max b - 1)) = obj) as ->.
  { rewrite !u32_small by lia. destruct (wf_max b H) as (k & Hk & Ek). rewrite Ek in *.
    rewrite Z.sub_1_r, <- Z.ones_equiv, Z.land_ones by lia. apply Z.mod_small. lia. }
  destruct (clear_bits_ok (bm_max b) (Z.to_nat cnt) obj (bm_table b)) as (t' & -> & Ht' & Hb');
    [by apply wf_table|lia..|]. cbn [mbind res_bind]. rewrite top_zero by done.
  rewrite Z2Nat.id in Hb' by lia. pose proof (wf_last b H). pose proof (wf_avail b H) as Hav.
  pose proof (used_clear _ t' obj cnt (Z.to_nat (bm_max b)) Ho ltac:(lia) ltac:(lia) Hu Hb') as Huc.
  pose proof (used_range t' (Z.to_nat (bm_max b))).
  rewrite (u32_small (bm_avail b + cnt)) by lia.
  eexists. split; [done|]. cbn [bm_max bm_avail bm_table]. split_and!; auto.
  split; cbn [bm_table bm_avail bm_max bm_last bm_top bm_mask]; auto using wf_max, wf_mask; lia.
Qed.

Lemma bitmap_init_ok k : 0 <= k < 30 ->
  exists b, mlx4_bitmap_init (2 ^ k) (2 ^ k - 1) true = Some b /\ bitmap_wf b /\
    is_bitmap_empty b = true /\ forall j, bit (bm_table b) j = false.
Proof.
  intros Hk. assert (0 < 2 ^ k) by lia. eexists. split; [done|].
  assert (Hb : forall n j, bit (replicate n 0) j = false).
  { intros n j. unfold bit. destruct (replicate n 0 !! _) eqn:E; [|done].
    apply lookup_replicate in E as [-> _]. apply Z.bits_0. }
  split_and!; cbn [bm_table]; auto.
  - split; cbn; eauto; try lia.
    + split; [|by apply Forall_replicate]. rewrite length_replicate. unfold BITS_TO_WORDS, BITS_PER_WORD.
      pose proof (Z.div_mod (2 ^ k + 32 - 1) 32). pose proof (Z.mod_pos_bound (2 ^ k + 32 - 1) 32).
      assert (0 <= (2 ^ k + 32 - 1) / 32) by (apply Z.div_pos; lia). lia.
    + assert (forall n, used (replicate (Z.to_nat (BITS_TO_WORDS (2 ^ k))) 0) n = 0) as ->; [|lia].
      induction n; simpl used; rewrite ?Hb; simpl; lia.
  - unfold is_bitmap_empty. cbn. apply Z.eqb_refl.
Qed.

(** ** Theorems *)

(** The search for a free run ends and finds the first one.  For any table, length
    and power-of-two alignment, [find_aligned_range] returns the lowest aligned position
    from [start] on whose bits are all clear and fit below [nbits], and -1 exactly when
    there is none. *)
Theorem find_aligned_range_first t nbits len k start :
  table_ok t nbits -> 0 <= k < 32 -> 1 <= len -> 0 <= start <= nbits -> nbits + len + 2 ^ k < 2 ^ 32 ->
  exists r, find_aligned_range (2 + Z.to_nat nbits) t start nbits len (2 ^ k) = Ok r /\
    ((r = u32 (-1) /\
      forall j, start <= j -> j mod 2 ^ k = 0 -> j + len <= nbits -> ~ free_run t j len) \/
     (start <= r /\ r mod 2 ^ k = 0 /\ r + len <= nbits /\ free_run t r len /\
      forall j, start <= j < r -> j mod 2 ^ k = 0 -> ~ free_run t j len)).
Proof.
  intros Ht Hk Hl Hs Hsm. apply (find_aligned_range_ok t nbits len k); auto; lia.
Qed.

Lemma find_aligned_range_first_witness :
  exists r, find_aligned_range (2 + Z.to_nat 64) [2 ^ 32 - 3; 1] 0 64 20 (2 ^ 2) = Ok r /\ r = 36.
Proof.
  destruct (find_aligned_range_first [2 ^ 32 - 3; 1] 64 20 2 0) as (r & E & _).
  - split; [simpl; unfold BITS_PER_WORD; lia|]. repeat constructor; lia.
  - lia.
  - lia.
  - lia.
  - lia.
  - exists r. split; [exact E|]. vm_compute in E. by injection E as <-.
Defined.

(** C36: the bitmap allocator is correct for a power of two of chunks.  An allocation
    returns an aligned run of chunks none of which was in use, marks exactly these and
    lowers the number of free chunks by their count; it returns -1, with nothing
    changed, only if no such run is free; and freeing the run brings all marks and the
    number of free chunks back. *)
Theorem bitmap_alloc_then_free b cnt k :
  bitmap_wf b -> 0 <= k < 31 -> 1 <= cnt < 2 ^ 31 ->
  exists b' r, mlx4_bitmap_alloc_range b cnt (2 ^ k) = Ok (b', r) /\
    ((r = -1 /\ b' = b /\
      forall j, 0 <= j -> j mod 2 ^ k = 0 -> j + cnt <= bm_max b -> ~ free_run (bm_table b) j cnt) \/
     (allocated b b' r cnt /\ r mod 2 ^ k = 0 /\
      exists b'', mlx4_bitmap_free_range b' r cnt = Ok b'' /\ bitmap_wf b'' /\
        bm_avail b'' = bm_avail b /\ forall j, 0 <= j -> bit (bm_table b'') j = bit (bm_table b) j)).
Proof.
  intros H Hk Hc. destruct (bitmap_alloc_range_ok b cnt k H Hk Hc) as (b' & r & E & Hr).
  exists b', r. split; [done|]. destruct Hr as [Hr|[Ha Hm]]; [by left|right].
  split; [done|]. split; [done|]. destruct Ha as (A1 & A2 & A3 & A4 & A5 & A6 & A7).
  destruct (bitmap_free_range_ok b' r cnt) as (b'' & E'' & W & _ & V & B); auto; try lia.
  { intros i Hi. rewrite A4 by lia. unfold in_run.
    destruct (Z.leb_spec r i), (Z.ltb_spec i (r + cnt)); (done || lia). }
  exists b''. split; [done|]. split; [done|]. split; [lia|]. intros j Hj. rewrite B, A4 by done.
  unfold in_run. destruct (Z.leb_spec r j), (Z.ltb_spec j (r + cnt)); simpl; try done.
  symmetry. apply A3. lia.
Qed.

Lemma bitmap_alloc_then_free_witness :
  let b := Bitmap 0 0 64 64 63 [0; 0] in
  exists b' r, mlx4_bitmap_alloc_range b 3 (2 ^ 2) = Ok (b', r) /\ r mod 2 ^ 2 = 0 /\
    bm_avail b' = 61.
Proof.
  intros b. assert (H : bitmap_wf b).
  { split; cbn; try done; [exists 6; split; [lia|done]|].
    split; [simpl; unfold BITS_PER_WORD; lia|]. repeat constructor; lia. }
  destruct (bitmap_alloc_then_free b 3 2 H ltac:(lia) ltac:(lia)) as (b' & r & E & Hr).
  exists b', r. split; [exact E|]. vm_compute in E. injection E as <- <-. done.
Defined.

(** With a number of chunks that is no power of two, freeing hits other chunks.  A
    segment of three huge pages has 192 chunks; two buffers of 64 and 32 chunks are
    allocated and the second, at chunk 64, is freed: the table now says that the first
    32 chunks, which belong to the first buffer, are free.  The next buffer of 32 chunks
    takes their bits but is given chunk 128, and the one after it chunk 224, outside of
    the segment. *)
Theorem three_pages_free_wrong_chunks :
  exists b b1 b2 b3,
    mlx4_bitmap_init 192 191 true = Some b /\
    (b ← of_option (mlx4_bitmap_init 192 191 true); '(b, _) ← mlx4_bitmap_alloc_range b 64 1;
     mlx4_bitmap_alloc_range b 32 1) = Ok (b1, 64) /\
    mlx4_bitmap_free_range b1 64 32 = Ok b2 /\
    (forall i, 0 <= i < 32 -> bit (bm_table b2) i = false) /\
    (forall i, 64 <= i < 96 -> bit (bm_table b2) i = true) /\
    mlx4_bitmap_alloc_range b2 32 1 = Ok (b3, 128) /\
    exists b4, mlx4_bitmap_alloc_range b3 32 1 = Ok (b4, 224).
Proof.
  do 4 eexists. split; [vm_compute; reflexivity|]. split; [vm_compute; reflexivity|].
  split; [vm_compute; reflexivity|]. split; [|split; [|split; [vm_compute; reflexivity|]]].
  - intros i Hi. cbn [bm_table]. rewrite bit_cons by lia. destruct (Z.ltb_spec i 32); [|lia]. apply Z.bits_0.
  - intros i Hi. cbn [bm_table]. rewrite !bit_cons by lia.
    destruct (Z.ltb_spec i 32), (Z.ltb_spec (i - 32) 32), (Z.ltb_spec (i - 32 - 32) 32); try lia.
    apply ones_word; [done|lia].
  - eexists. vm_compute. reflexivity.
Qed.
