(* ===== verification/TokenBucket.v ===== *)
(** * The router's rate limiter (ffrouter/tokenbucket.h)

    A bucket per queue pair holds a point in time; sending [tokens] bytes moves it on
    by their cost, and is refused while it would move past the present.  All
    arithmetic is on 64 bits, in units of a 5000th of a microsecond.

    The theorems: what is granted in any stretch of time is bounded by the stretch and
    the burst; a waiting sender is served once the clock has moved on, unless a single
    entry costs more than the burst, which is never served. *)

From S2P Require Import Prelude.

Definition MAX_QP_RATE_LIMIT : Z := 5000000000.
Definition BURST_PER_QP : Z := 4000000.

Record TokenBucket := mkBucket { time_ : Z; timePerToken_ : Z; timePerBurst_ : Z }.

(** The constructor; a rate of 0 divides by zero. *)
Definition newTokenBucket (rate burstSize : Z) : res TokenBucket :=
  if rate =? 0 then Ub
  else
    let tpt := 5000000000 / rate in
    Ok (mkBucket 0 tpt (u64 (burstSize * tpt))).

(** The loop of [consume].  [seen]: the values [compare_exchange_weak] finds in place
    of [oldTime], one for each time it fails; when it succeeds the time is stored. *)
Fixpoint consume_loop (b : TokenBucket) (seen : list Z) (newTime timeNeeded now : Z)
  : bool * TokenBucket :=
  let newTime := u64 (newTime + timeNeeded) in
  if now <? newTime then (false, b)
  else match seen with
  | [] => (true, mkBucket newTime (timePerToken_ b) (timePerBurst_ b))
  | oldTime :: seen' => consume_loop (mkBucket oldTime (timePerToken_ b) (timePerBurst_ b))
                          seen' oldTime timeNeeded now
  end.

Definition consume (b : TokenBucket) (now tokens : Z) (seen : list Z) : bool * TokenBucket :=
  let timeNeeded := u64 (tokens * timePerToken_ b) in
  let minTime := u64 (now - timePerBurst_ b) in
  let newTime := if time_ b <? minTime then minTime else time_ b in
  consume_loop b seen newTime timeNeeded now.

(** [while (!(tb->consume(length))) usleep(...)]: the clock at each try. *)
Fixpoint wait_for_tokens (b : TokenBucket) (clock : list Z) (tokens : Z) : res TokenBucket :=
  match clock with
  | [] => Spin
  | now :: clock' =>
      match consume b now tokens [] with
      | (true, b') => Ok b'
      | (false, b') => wait_for_tokens b' clock' tokens
      end
  end.

(** The loop over the entries of a work request ([HandleRequest], IBV_POST_SEND). *)
Fixpoint wait_for_entries (b : TokenBucket) (clocks : list (list Z)) (lengths : list Z)
  : res TokenBucket :=
  match lengths with
  | [] => Ok b
  | len :: lengths' =>
      match clocks with
      | [] => Spin
      | clock :: clocks' => b' ← wait_for_tokens b clock len; wait_for_entries b' clocks' lengths'
      end
  end.

(** ** Lemmas *)

(** The cost of a request and the bounds under which nothing wraps around. *)
Definition cost (b : TokenBucket) (tokens : Z) : Z := tokens * timePerToken_ b.

Record bucket_ok (b : TokenBucket) : Prop := BucketOk {
  bo_time : 0 <= time_ b < 2 ^ 62;
  bo_token : 0 <= timePerToken_ b;
  bo_burst : 0 <= timePerBurst_ b < 2 ^ 62 }.

Definition call_ok (b : TokenBucket) (now tokens : Z) : Prop :=
  timePerBurst_ b <= now < 2 ^ 62 /\ 0 <= tokens /\ cost b tokens < 2 ^ 62.

(** Where the bucket starts from at the time [now]. *)
Definition floor_time (b : TokenBucket) (now : Z) : Z := Z.max (time_ b) (now - timePerBurst_ b).

Lemma consume_eq b now tokens :
  bucket_ok b -> call_ok b now tokens ->
  consume b now tokens [] =
    (if now <? floor_time b now + cost b tokens then (false, b)
     else (true, mkBucket (floor_time b now + cost b tokens) (timePerToken_ b) (timePerBurst_ b))).
Proof.
  intros [Ht Hp Hb] (Hn & Hk & Hc). unfold consume, floor_time, cost in *.
  assert (0 <= tokens * timePerToken_ b) by (apply Z.mul_nonneg_nonneg; lia).
  rewrite (u64_small (tokens * _)), (u64_small (now - _)) by lia.
  destruct (Z.ltb_spec (time_ b) (now - timePerBurst_ b)); cbn [consume_loop];
    rewrite u64_small by lia;
    [rewrite Z.max_r by lia|rewrite Z.max_l by lia]; by destruct (_ <? _).
Qed.

Lemma consume_ok b now tokens g b' :
  bucket_ok b -> call_ok b now tokens -> consume b now tokens [] = (g, b') -> bucket_ok b'.
Proof.
  intros Hb Hc. rewrite consume_eq by done. pose proof Hb as [Ht Hp Hu]. destruct Hc as (Hn & Hk & Hc).
  assert (0 <= cost b tokens) by (unfold cost; apply Z.mul_nonneg_nonneg; lia).
  unfold floor_time. destruct (Z.ltb_spec now (Z.max (time_ b) (now - timePerBurst_ b) + cost b tokens));
    intros [= <- <-]; [done|]. split; simpl; lia.
Qed.

(** A sequence of calls at their times. *)
Fixpoint consume_all (b : TokenBucket) (calls : list (Z * Z)) : list bool * TokenBucket :=
  match calls with
  | [] => ([], b)
  | (now, tokens) :: calls' =>
      let '(g, b1) := consume b now tokens [] in
      let '(gs, b2) := consume_all b1 calls' in (g :: gs, b2)
  end.

(** The cost of the calls that were granted. *)
Fixpoint granted (b : TokenBucket) (calls : list (Z * Z)) (gs : list bool) : Z :=
  match calls, gs with
  | (_, tokens) :: calls', g :: gs' => (if g then cost b tokens else 0) + granted b calls' gs'
  | _, _ => 0
  end.

Lemma granted_same b b' calls gs :
  timePerToken_ b = timePerToken_ b' -> granted b calls gs = granted b' calls gs.
Proof.
  intros E. revert gs. induction calls as [|[now k] calls IH]; intros [|g gs]; simpl; auto.
  unfold cost. by rewrite E, IH.
Qed.

Lemma consume_keeps b now tokens g b' :
  bucket_ok b -> call_ok b now tokens -> consume b now tokens [] = (g, b') ->
  timePerToken_ b' = timePerToken_ b /\ timePerBurst_ b' = timePerBurst_ b /\
  time_ b' = (if g then floor_time b now + cost b tokens else time_ b) /\ (g = true -> time_ b' <= now).
Proof.
  intros Hb Hc. rewrite consume_eq by done.
  destruct (Z.ltb_spec now (floor_time b now + cost b tokens)); intros [= <- <-]; simpl; auto.
  split_and!; auto. done.
Qed.

(** The time moves on by what is granted, and not past the last call. *)
Lemma consume_all_bound calls : forall b first final gs b',
  bucket_ok b ->
  Forall (fun '(now, tokens) => call_ok b now tokens /\ first <= now <= final) calls ->
  consume_all b calls = (gs, b') ->
  Z.max (time_ b) (first - timePerBurst_ b) + granted b calls gs
    <= Z.max (time_ b') (first - timePerBurst_ b) /\
  ((granted b calls gs = 0 /\ b' = b) \/ time_ b' <= final).
Proof.
  induction calls as [|[now tokens] calls IH]; intros b first final gs b' Hb Hall E.
  { injection E as <- <-. simpl. split; [lia|by left]. }
  apply Forall_cons in Hall as [[Hc Hfirst] Hall].
  cbn [consume_all] in E. destruct (consume b now tokens []) as [g b1] eqn:E1.
  destruct (consume_all b1 calls) as [gs1 b2] eqn:E2. injection E as <- <-.
  destruct (consume_keeps _ _ _ _ _ Hb Hc E1) as (K1 & K2 & K3 & K4).
  pose proof (consume_ok _ _ _ _ _ Hb Hc E1) as Hb1.
  destruct (IH b1 first final gs1 b2) as (I1 & I2); auto.
  { eapply Forall_impl; [exact Hall|]. intros [n k] H. unfold call_ok, cost in *. by rewrite K1, K2. }
  cbn [granted]. rewrite (granted_same b b1) by done. rewrite K2 in I1.
  assert (0 <= cost b tokens) by (destruct Hb, Hc as (? & ? & ?); unfold cost; apply Z.mul_nonneg_nonneg; lia).
  split; [destruct g; [unfold floor_time in K3; lia|lia]|].
  destruct I2 as [[I2 ->]|I2]; [|by right]. destruct g; [right; lia|left].
  rewrite consume_eq in E1 by done. destruct (_ <? _) in E1; [|done]. injection E1 as <-. auto with lia.
Qed.

(** ** Theorems *)

(** C37: the rate limit holds for calls that do not race: of any sequence of calls of
    [consume] between the times [first] and [final], one after the other so that no exchange
    fails, at times not before the length of a burst and within 62 bits, the cost of those
    that were granted is at most the length of that stretch of time and one burst. *)
Theorem granted_within_rate_and_burst b calls first final gs b' :
  bucket_ok b -> first <= final ->
  Forall (fun '(now, tokens) => call_ok b now tokens /\ first <= now <= final) calls ->
  consume_all b calls = (gs, b') ->
  granted b calls gs <= final - first + timePerBurst_ b.
Proof.
  intros Hb Hf Hall E. destruct (consume_all_bound _ _ _ _ _ _ Hb Hall E) as (H1 & [[-> _]|H2]);
    [destruct Hb; lia|]. destruct Hb. lia.
Qed.

Lemma granted_within_rate_and_burst_witness :
  let b := mkBucket 0 5 100 in
  let calls := [(1000, 20); (1010, 1); (1020, 1); (1020, 5)] in
  exists gs b', consume_all b calls = (gs, b') /\ gs = [true; true; true; false] /\
    granted b calls gs <= 1020 - 1000 + 100.
Proof.
  intros b calls. destruct (consume_all b calls) as [gs b'] eqn:E. exists gs, b'. split; [done|].
  split; [by vm_compute in E; injection E as <- <-|].
  apply (granted_within_rate_and_burst b calls 1000 1020 gs b'); [by split|done| |done].
  unfold calls, call_ok, cost. simpl. repeat constructor; simpl; lia.
Defined.

(** a sender that waits is served, if its request fits the burst.  Once the clock
    has moved the cost of the request past the bucket's time, the waiting loop ends;
    it ends at the first such look at the latest. *)
Theorem waiting_ends b clock1 now clock2 tokens :
  bucket_ok b -> Forall (fun n => call_ok b n tokens) clock1 -> call_ok b now tokens ->
  cost b tokens <= timePerBurst_ b -> time_ b + cost b tokens <= now ->
  exists b', wait_for_tokens b (clock1 ++ now :: clock2) tokens = Ok b' /\ bucket_ok b' /\
    time_ b + cost b tokens <= time_ b'.
Proof.
  intros Hb Hall Hc Hfit Hpast. induction Hall as [|n clock1 Hn Hall IH]; cbn [app wait_for_tokens].
  - pose proof (consume_ok b now tokens) as Hok. rewrite consume_eq in * by done. unfold floor_time in *.
    destruct (Z.ltb_spec now (Z.max (time_ b) (now - timePerBurst_ b) + cost b tokens)); [lia|].
    eexists. split; [done|]. split; [by eapply Hok|]. simpl. lia.
  - pose proof (consume_ok b n tokens) as Hok. rewrite consume_eq in * by done.
    destruct (Z.ltb_spec n (floor_time b n + cost b tokens)); [done|].
    eexists. split; [done|]. split; [by eapply Hok|]. simpl. unfold floor_time. lia.
Qed.

Lemma waiting_ends_witness :
  exists b', wait_for_tokens (mkBucket 1000 5 100) ([1001; 1004] ++ 1050 :: []) 10 = Ok b' /\ bucket_ok b' /\
    1000 + 50 <= time_ b'.
Proof.
  apply (waiting_ends (mkBucket 1000 5 100) [1001; 1004] 1050 [] 10);
    unfold call_ok, cost; cbn [timePerToken_ timePerBurst_ time_];
    [split; simpl; lia| |lia..]. repeat constructor; lia.
Defined.

Lemma oversized_refused tpt t now len seen :
  1 <= tpt -> 0 <= t < 2 ^ 62 -> BURST_PER_QP < len -> BURST_PER_QP * tpt <= now < 2 ^ 62 ->
  len * tpt < 2 ^ 62 ->
  consume (mkBucket t tpt (BURST_PER_QP * tpt)) now len seen =
    (false, mkBucket t tpt (BURST_PER_QP * tpt)).
Proof.
  intros Htpt Ht Hlen Hn Hc. unfold consume, BURST_PER_QP in *. cbn [timePerToken_ timePerBurst_ time_].
  assert (4000000 * tpt < len * tpt) by (apply Z.mul_lt_mono_pos_r; lia).
  rewrite (u64_small (len * tpt)), (u64_small (now - _)) by lia.
  destruct (Z.ltb_spec t (now - 4000000 * tpt)); destruct seen; cbn [consume_loop];
    rewrite u64_small by lia;
    (match goal with |- context [?a <? ?b] => destruct (Z.ltb_spec a b) end); (done || lia).
Qed.

(** an entry larger than the burst is never sent.  The router creates its buckets
    with a burst of 4000000 bytes.  For an entry of more bytes every try to consume is
    refused, whatever the bucket's time is and other threads put there, and the loop
    that waits, with the key table locked, does not end. *)
Theorem oversized_entry_waits_forever rate b len :
  0 < rate <= 5000000000 -> newTokenBucket rate BURST_PER_QP = Ok b -> BURST_PER_QP < len ->
  len * timePerToken_ b < 2 ^ 62 ->
  (forall t now seen, 0 <= t < 2 ^ 62 -> timePerBurst_ b <= now < 2 ^ 62 ->
     let b' := mkBucket t (timePerToken_ b) (timePerBurst_ b) in consume b' now len seen = (false, b')) /\
  (forall clock, Forall (fun now => timePerBurst_ b <= now < 2 ^ 62) clock ->
     wait_for_tokens b clock len = Spin).
Proof.
  intros Hr Eb Hlen Hc. unfold newTokenBucket in Eb.
  destruct (Z.eqb_spec rate 0); [lia|]. injection Eb as <-. cbn [timePerToken_ timePerBurst_] in *.
  assert (Htpt : 1 <= 5000000000 / rate) by (apply Z.div_le_lower_bound; lia).
  set (tpt := 5000000000 / rate) in *.
  assert (u64 (BURST_PER_QP * tpt) = BURST_PER_QP * tpt) as ->.
  { apply u64_small. pose proof (Z.mul_le_mono_nonneg_r BURST_PER_QP len tpt). unfold BURST_PER_QP in *. lia. }
  split; [intros; by apply oversized_refused|].
  intros clock Hclock. induction Hclock as [|now clock Hn _ IH]; [done|]. cbn [wait_for_tokens].
  by rewrite oversized_refused by lia.
Qed.

Lemma oversized_entry_waits_forever_witness :
  wait_for_tokens (mkBucket 0 1 4000000) [4000000; 2 ^ 61] 4000001 = Spin.
Proof.
  destruct (oversized_entry_waits_forever 5000000000 (mkBucket 0 1 4000000) 4000001) as [_ H];
    [lia|done|unfold BURST_PER_QP; lia|simpl; lia|].
  apply H. repeat constructor; simpl; lia.
Defined.

(** A failed exchange forgets the lower bound on the time: the burst does not limit a
    call that is retried on an old value. *)
Theorem retried_call_exceeds_burst :
  consume (mkBucket 0 1 4000000) (2 ^ 40) 5000000 [0] = (false, mkBucket 0 1 4000000) /\
  consume (mkBucket 0 1 4000000) (2 ^ 40) 4000000 [1] = (true, mkBucket 4000001 1 4000000) /\
  (consume (mkBucket 4000001 1 4000000) (2 ^ 40) 4000000 []).1 = true.
Proof. by vm_compute. Qed.
