(* ===== verification/RouterCtl.v ===== *)
(** * The router's control branches (ffrouter.cpp, [HandleRequest])

    A thread of the router serves one connection: it reads a header, reads the body
    the function's struct asks for, calls the device's verb, keeps the router's tables
    and writes the response.  The tables the data path reads are the record [ffrouter]
    of [Router]; the others are beside it.  The verbs of the host's libibverbs are the
    operations of a record [device], whose state is of type [D]; they give a pointer
    (here an identity) and the fields the router reads, [None] for a null pointer. *)

From stdpp Require Import pretty.
From S2P Require Import Prelude CLayout FfTypes Verbs MemPool WrQueue CtrlShm Client.
From S2P Require Import Router Wire ReqRouter CmdCtrl CmdLocal CmdQuery FlowSpec TokenBucket.

(** ** Pieces of shared memory (shared_memory.cpp) *)

Record ShmPiece : Type := mkPiece { piece_name : list Z; piece_size : Z; piece_ptr : Z }.

Definition bytes_of (s : string) : list Z :=
  (fun c => Z.of_N (Ascii.N_of_ascii c)) <$> String.list_ascii_of_string s.

(** [ss << n] *)
Definition decimal (n : Z) : string := pretty n.

(** ** The device *)

Record qp_request : Type := mkQpRequest {
  qr_pd : Z; qr_type : Z; qr_sig_all : Z; qr_send_cq : option Z; qr_recv_cq : option Z;
  qr_srq : option Z; qr_cap : qp_cap }.

Record device (D : Type) : Type := mkDevice {
  dv_async_fd : Z;
  dv_num_comp_vectors : Z;
  dv_attr : cval;
  (** the error, and what the attribute holds afterwards *)
  dv_query_port : D -> Z -> Z * cval;
  dv_alloc_pd : D -> D * option (Z * Z);
  dv_dealloc_pd : D -> Z -> D * Z;
  dv_create_cq : D -> Z -> option Z -> Z -> D * option (Z * Z * Z);
  dv_destroy_cq : D -> Z -> D * Z;
  dv_req_notify_cq : D -> Z -> Z -> D * Z;
  dv_create_qp : D -> qp_request -> D * option (rqp * Z * Z * qp_cap);
  dv_destroy_qp : D -> rqp -> D * Z;
  dv_modify_qp : D -> rqp -> cval -> Z -> D * Z;
  dv_reg_mr : D -> Z -> Z -> Z -> Z -> D * option (Z * Z * Z * Z);
  dv_dereg_mr : D -> Z -> D * Z;
  dv_create_comp_channel : D -> D * option (Z * Z);
  dv_destroy_comp_channel : D -> Z -> D * Z;
  dv_get_cq_event : D -> Z -> D * option (Z * Z * Z);
  dv_ack_cq_events : D -> Z -> Z -> D * (Z * Z * Z);
  dv_create_ah : D -> Z -> cval -> D * option (Z * Z);
  dv_destroy_ah : D -> Z -> D * Z;
  dv_create_srq : D -> Z -> cval -> D * option (Z * Z);
  dv_modify_srq : D -> Z -> cval -> Z -> D * Z;
  dv_destroy_srq : D -> Z -> D * Z;
  (** [write] of a command to [cmd_fd]: its result, [errno], the response the kernel
      stored at the address in the command *)
  dv_write : D -> list Z -> D * Z * Z * list Z }.

Arguments dv_async_fd {D}. Arguments dv_num_comp_vectors {D}. Arguments dv_attr {D}.
Arguments dv_query_port {D}. Arguments dv_alloc_pd {D}. Arguments dv_dealloc_pd {D}.
Arguments dv_create_cq {D}. Arguments dv_destroy_cq {D}. Arguments dv_req_notify_cq {D}.
Arguments dv_create_qp {D}. Arguments dv_destroy_qp {D}. Arguments dv_modify_qp {D}.
Arguments dv_reg_mr {D}. Arguments dv_dereg_mr {D}. Arguments dv_create_comp_channel {D}.
Arguments dv_destroy_comp_channel {D}. Arguments dv_get_cq_event {D}. Arguments dv_ack_cq_events {D}.
Arguments dv_create_ah {D}. Arguments dv_destroy_ah {D}. Arguments dv_create_srq {D}.
Arguments dv_modify_srq {D}. Arguments dv_destroy_srq {D}. Arguments dv_write {D}.

(** What becomes of the exchange with one host of HOST_LIST: no socket; [bind] or
    [inet_aton] fails; [sendto] fails or not, and [recvfrom] returns; no answer comes. *)
Inductive udp_result : Type := NoSocket | Skipped | Answered (sent : bool) | Silent.

(** The rest of the environment: [shm_open] and [mmap] by name and size ([None]:
    MAP_FAILED), the number in RATE_LIMIT_<id>, the hosts, the byte an uninitialised
    part of a response holds, the address of a response on the stack. *)
Record router_os : Type := mkRouterOs {
  ro_open : list Z -> Z -> option Z;
  ro_rate_limit : Z -> option Z;
  ro_hosts : list (list Z);
  ro_udp : list Z -> udp_result;
  ro_junk : Z;
  ro_resp : Z }.

(** ** The router's state *)

Record router (D : Type) : Type := mkFfr {
  r_dev : D;
  r_data : ffrouter;
  pd_map : gmap Z Z;
  mr_map : gmap Z Z;
  channel_map : gmap Z Z;
  shmr_map : gmap Z ShmPiece;
  qp_shm : gmap Z ShmPiece;
  cq_shm : gmap Z ShmPiece;
  srq_shm : gmap Z ShmPiece;
  qp_shm_vec : list Z;
  cq_shm_vec : list Z;
  srq_shm_vec : list Z;
  shm_pool : gmap Z (list ShmPiece);
  shm_map : gmap (list Z) (option ShmPiece);
  rkey_mr_shm : gmap Z mr_shm;
  tokenbucket : gmap Z TokenBucket;
  idle_pieces : list Z;        (** addresses of control pieces cleared to IDLE *)
  unlinked_shm : list (list Z); (** names given to [shm_unlink] *)
  udp_sent : list (list Z * list Z) (** datagrams, with the host they went to *) }.

Arguments mkFfr {D}. Arguments r_dev {D}. Arguments r_data {D}. Arguments pd_map {D}.
Arguments mr_map {D}. Arguments channel_map {D}. Arguments shmr_map {D}. Arguments qp_shm {D}.
Arguments cq_shm {D}. Arguments srq_shm {D}. Arguments qp_shm_vec {D}. Arguments cq_shm_vec {D}.
Arguments srq_shm_vec {D}. Arguments shm_pool {D}. Arguments shm_map {D}. Arguments rkey_mr_shm {D}.
Arguments tokenbucket {D}. Arguments idle_pieces {D}. Arguments unlinked_shm {D}.
Arguments udp_sent {D}.

(** What a branch leads to: a response that is written, a descriptor and a response,
    [goto end] (nothing is written and the next header is read), [return] (the
    connection stays open and nobody serves it). *)
Inductive answer : Type :=
| Reply (t : cty) (v : cval)
| ReplyFd (fd : Z) (t : cty) (v : cval)
| NoReply
| Leave.

Section Branches.
Context {D : Type} (dv : device D) (os : router_os).
Implicit Types r : router D.

Definition set_dev (d : D) r : router D :=
  mkFfr d (r_data r) (pd_map r) (mr_map r) (channel_map r) (shmr_map r) (qp_shm r) (cq_shm r) (srq_shm r)
    (qp_shm_vec r) (cq_shm_vec r) (srq_shm_vec r) (shm_pool r) (shm_map r) (rkey_mr_shm r) (tokenbucket r)
    (idle_pieces r) (unlinked_shm r) (udp_sent r).
Definition set_data (f : ffrouter) r : router D :=
  mkFfr (r_dev r) f (pd_map r) (mr_map r) (channel_map r) (shmr_map r) (qp_shm r) (cq_shm r) (srq_shm r)
    (qp_shm_vec r) (cq_shm_vec r) (srq_shm_vec r) (shm_pool r) (shm_map r) (rkey_mr_shm r) (tokenbucket r)
    (idle_pieces r) (unlinked_shm r) (udp_sent r).
Definition set_pd (m : gmap Z Z) r : router D :=
  mkFfr (r_dev r) (r_data r) m (mr_map r) (channel_map r) (shmr_map r) (qp_shm r) (cq_shm r) (srq_shm r)
    (qp_shm_vec r) (cq_shm_vec r) (srq_shm_vec r) (shm_pool r) (shm_map r) (rkey_mr_shm r) (tokenbucket r)
    (idle_pieces r) (unlinked_shm r) (udp_sent r).
Definition set_mr (m : gmap Z Z) (s : gmap Z ShmPiece) r : router D :=
  mkFfr (r_dev r) (r_data r) (pd_map r) m (channel_map r) s (qp_shm r) (cq_shm r) (srq_shm r)
    (qp_shm_vec r) (cq_shm_vec r) (srq_shm_vec r) (shm_pool r) (shm_map r) (rkey_mr_shm r) (tokenbucket r)
    (idle_pieces r) (unlinked_shm r) (udp_sent r).
Definition set_channel (m : gmap Z Z) r : router D :=
  mkFfr (r_dev r) (r_data r) (pd_map r) (mr_map r) m (shmr_map r) (qp_shm r) (cq_shm r) (srq_shm r)
    (qp_shm_vec r) (cq_shm_vec r) (srq_shm_vec r) (shm_pool r) (shm_map r) (rkey_mr_shm r) (tokenbucket r)
    (idle_pieces r) (unlinked_shm r) (udp_sent r).
Definition set_cq_shm (m : gmap Z ShmPiece) (v : list Z) r : router D :=
  mkFfr (r_dev r) (r_data r) (pd_map r) (mr_map r) (channel_map r) (shmr_map r) (qp_shm r) m (srq_shm r)
    (qp_shm_vec r) v (srq_shm_vec r) (shm_pool r) (shm_map r) (rkey_mr_shm r) (tokenbucket r)
    (idle_pieces r) (unlinked_shm r) (udp_sent r).
Definition set_qp_shm (m : gmap Z ShmPiece) (v : list Z) r : router D :=
  mkFfr (r_dev r) (r_data r) (pd_map r) (mr_map r) (channel_map r) (shmr_map r) m (cq_shm r) (srq_shm r)
    v (cq_shm_vec r) (srq_shm_vec r) (shm_pool r) (shm_map r) (rkey_mr_shm r) (tokenbucket r)
    (idle_pieces r) (unlinked_shm r) (udp_sent r).
Definition set_srq_shm (m : gmap Z ShmPiece) (v : list Z) r : router D :=
  mkFfr (r_dev r) (r_data r) (pd_map r) (mr_map r) (channel_map r) (shmr_map r) (qp_shm r) (cq_shm r) m
    (qp_shm_vec r) (cq_shm_vec r) v (shm_pool r) (shm_map r) (rkey_mr_shm r) (tokenbucket r)
    (idle_pieces r) (unlinked_shm r) (udp_sent r).
Definition set_pieces (p : gmap Z (list ShmPiece)) (m : gmap (list Z) (option ShmPiece)) r : router D :=
  mkFfr (r_dev r) (r_data r) (pd_map r) (mr_map r) (channel_map r) (shmr_map r) (qp_shm r) (cq_shm r)
    (srq_shm r) (qp_shm_vec r) (cq_shm_vec r) (srq_shm_vec r) p m (rkey_mr_shm r) (tokenbucket r)
    (idle_pieces r) (unlinked_shm r) (udp_sent r).
Definition set_rkeys (m : gmap Z mr_shm) r : router D :=
  mkFfr (r_dev r) (r_data r) (pd_map r) (mr_map r) (channel_map r) (shmr_map r) (qp_shm r) (cq_shm r)
    (srq_shm r) (qp_shm_vec r) (cq_shm_vec r) (srq_shm_vec r) (shm_pool r) (shm_map r) m (tokenbucket r)
    (idle_pieces r) (unlinked_shm r) (udp_sent r).
Definition set_buckets (m : gmap Z TokenBucket) r : router D :=
  mkFfr (r_dev r) (r_data r) (pd_map r) (mr_map r) (channel_map r) (shmr_map r) (qp_shm r) (cq_shm r)
    (srq_shm r) (qp_shm_vec r) (cq_shm_vec r) (srq_shm_vec r) (shm_pool r) (shm_map r) (rkey_mr_shm r) m
    (idle_pieces r) (unlinked_shm r) (udp_sent r).
Definition set_shm_log (i : list Z) (u : list (list Z)) r : router D :=
  mkFfr (r_dev r) (r_data r) (pd_map r) (mr_map r) (channel_map r) (shmr_map r) (qp_shm r) (cq_shm r)
    (srq_shm r) (qp_shm_vec r) (cq_shm_vec r) (srq_shm_vec r) (shm_pool r) (shm_map r) (rkey_mr_shm r)
    (tokenbucket r) i u (udp_sent r).
Definition set_udp (l : list (list Z * list Z)) r : router D :=
  mkFfr (r_dev r) (r_data r) (pd_map r) (mr_map r) (channel_map r) (shmr_map r) (qp_shm r) (cq_shm r)
    (srq_shm r) (qp_shm_vec r) (cq_shm_vec r) (srq_shm_vec r) (shm_pool r) (shm_map r) (rkey_mr_shm r)
    (tokenbucket r) (idle_pieces r) (unlinked_shm r) l.

(** [ffr->map[h]] of an array of MAP_SIZE pointers; a null pointer is no entry. *)
Definition tbl_get {A} (m : gmap Z A) (h : Z) : res (option A) := i ← index h; Ok (m !! i).

(** The test against MAP_SIZE before an entry is stored. *)
Definition tbl_put {A} (m : gmap Z A) (h : Z) (x : A) : gmap Z A :=
  if MAP_SIZE <=? h then m else <[h := x]> m.

(** ** Shared memory *)

(** [ShmPiece::remove]; [MAP_FAILED] pieces are not in the tables. *)
Definition piece_remove (sp : ShmPiece) r : router D :=
  set_shm_log (idle_pieces r) (unlinked_shm r ++ [piece_name sp]) r.

Definition open_piece (name : list Z) (size : Z) : option ShmPiece :=
  ptr ← ro_open os name size; Some (mkPiece name size ptr).

(** [addShmPiece(client_id, mem_size)]: the piece enters the pool before it is
    opened, so the next one has another index whether it can be opened or not. *)
Definition pool_name (client mem_size count : Z) : list Z :=
  bytes_of ("client-" +:+ decimal client +:+ "-memsize-" +:+ decimal mem_size +:+
            "-index-" +:+ decimal count).

Definition addShmPiece_client (client mem_size : Z) r : router D * option ShmPiece :=
  let pool := default [] (shm_pool r !! client) in
  let name := pool_name client mem_size (Z.of_nat (length pool)) in
  let sp := open_piece name mem_size in
  (set_pieces (<[client := pool ++ [default (mkPiece name mem_size (u64 (-1))) sp]]> (shm_pool r))
     (shm_map r) r, sp).

(** [addShmPiece(shm_name, mem_size)] *)
Definition addShmPiece_name (name : list Z) (mem_size : Z) r : router D * option ShmPiece :=
  match shm_map r !! name with
  | Some sp => (r, sp)
  | None =>
      let sp := open_piece name mem_size in
      (set_pieces (shm_pool r) (<[name := sp]> (shm_map r)) r, sp)
  end.

(** [sizeof(struct CtrlShmPiece)], the state word and the two areas. *)
Definition sizeof_CtrlShmPiece : Z := 4 + CTRL_REQ_SIZE + CTRL_RSP_SIZE.

(** A piece that cannot be opened is cleared all the same. *)
Definition initCtrlShm (tag : string) r : res (router D * ShmPiece) :=
  sp ← of_option (open_piece (bytes_of ("ctrlshm-" +:+ tag)) sizeof_CtrlShmPiece);
  Ok (set_shm_log (idle_pieces r ++ [piece_ptr sp]) (unlinked_shm r) r, sp).

(** [strcpy(rsp->shm_name, sp->name.c_str())] *)
Definition name_field (sp : ShmPiece) : cval := VB (c_array 100 (ro_junk os) (piece_name sp)).

(** [std::find] and [erase]: the first entry with the handle goes. *)
Fixpoint erase_first (h : Z) (v : list Z) : list Z :=
  match v with
  | [] => []
  | x :: v' => if x =? h then v' else x :: erase_first h v'
  end.

(** A result of a verb, an [int] *)
Definition vret (ret : Z) : cval := VS [VI (u32 ret)].

(** ** Context, device, port *)

Definition do_get_context r : res (router D * answer) :=
  Ok (r, Reply t_IBV_GET_CONTEXT_RSP (VS [VI (u32 (dv_async_fd dv)); VI (u32 (dv_num_comp_vectors dv))])).

Definition do_query_dev r : res (router D * answer) :=
  Ok (r, Reply t_IBV_QUERY_DEV_RSP (VS [dv_attr dv])).

(** An error is logged and the response sent as it is. *)
Definition do_query_port (req : cval) r : res (router D * answer) :=
  Ok (r, Reply t_IBV_QUERY_PORT_RSP (VS [(dv_query_port dv (r_dev r) (fu req 0)).2])).

(** ** Protection domains *)

Definition do_alloc_pd r : res (router D * answer) :=
  let '(d, x) := dv_alloc_pd dv (r_dev r) in
  '(pd, handle) ← of_option x;
  Ok (set_pd (tbl_put (pd_map r) handle pd) (set_dev d r), Reply t_IBV_ALLOC_PD_RSP (VS [VI handle])).

Definition do_dealloc_pd (req : cval) r : res (router D * answer) :=
  let h := fu req 0 in
  pd ← tbl_get (pd_map r) h;
  match pd with
  | None => Ok (r, NoReply)
  | Some pd =>
      let '(d, ret) := dv_dealloc_pd dv (r_dev r) pd in
      Ok (set_pd (delete h (pd_map r)) (set_dev d r), Reply t_IBV_DEALLOC_PD_RSP (vret ret))
  end.

(** ** Completion queues *)

Definition set_cq_map (m : gmap Z Z) (f : ffrouter) : ffrouter :=
  mkRouter (qp_map f) (srq_map f) m (ah_map f) (lkey_ptr f).
Definition set_qp_map (m : gmap Z rqp) (f : ffrouter) : ffrouter :=
  mkRouter m (srq_map f) (cq_map f) (ah_map f) (lkey_ptr f).
Definition set_srq_map (m : gmap Z Z) (f : ffrouter) : ffrouter :=
  mkRouter (qp_map f) m (cq_map f) (ah_map f) (lkey_ptr f).
Definition set_ah_map (m : gmap Z Z) (f : ffrouter) : ffrouter :=
  mkRouter (qp_map f) (srq_map f) (cq_map f) m (lkey_ptr f).
Definition set_lkey_ptr (m : gmap Z Z) (f : ffrouter) : ffrouter :=
  mkRouter (qp_map f) (srq_map f) (cq_map f) (ah_map f) m.

(** The channel of the new queue; [None]: there is none with that descriptor. *)
Definition request_channel (fd : Z) r : res (option (option Z)) :=
  if fd <? 0 then Ok (Some None)
  else c ← tbl_get (channel_map r) fd; Ok (c ← c; Some (Some c)).

Definition do_create_cq (req : cval) r : res (router D * answer) :=
  c ← request_channel (fi req 0) r;
  match c with
  | None => Ok (r, NoReply)
  | Some channel =>
      let '(d, x) := dv_create_cq dv (r_dev r) (fi req 2) channel (fi req 1) in
      '(cq, handle, cqe) ← of_option x;
      let r1 := set_data (set_cq_map (tbl_put (cq_map (r_data r)) handle cq) (r_data r)) (set_dev d r) in
      '(r2, sp) ← initCtrlShm ("cq" +:+ decimal handle) r1;
      i ← index handle;
      Ok (set_cq_shm (<[i := sp]> (cq_shm r2)) (cq_shm_vec r2 ++ [handle]) r2,
          Reply t_IBV_CREATE_CQ_RSP (VS [VI (u32 cqe); VI handle; name_field sp]))
  end.

(** [delete sp] when there is a piece *)
Definition remove_piece (sp : option ShmPiece) r : router D :=
  match sp with Some sp => piece_remove sp r | None => r end.

Definition do_destroy_cq (req : cval) r : res (router D * answer) :=
  let h := fu req 0 in
  cq ← tbl_get (cq_map (r_data r)) h;
  match cq with
  | None => Ok (r, NoReply)
  | Some cq =>
      let '(d, ret) := dv_destroy_cq dv (r_dev r) cq in
      let r1 := set_data (set_cq_map (delete h (cq_map (r_data r))) (r_data r)) (set_dev d r) in
      let r2 := remove_piece (cq_shm r1 !! h) r1 in
      Ok (set_cq_shm (delete h (cq_shm r2)) (erase_first h (cq_shm_vec r2)) r2,
          Reply t_IBV_DESTROY_CQ_RSP (vret ret))
  end.

Definition do_req_notify_cq (req : cval) r : res (router D * answer) :=
  cq ← tbl_get (cq_map (r_data r)) (fu req 0);
  match cq with
  | None => Ok (r, NoReply)
  | Some cq =>
      let '(d, ret) := dv_req_notify_cq dv (r_dev r) cq (fi req 1) in
      Ok (set_dev d r, Reply t_IBV_REQ_NOTIFY_CQ_RSP (vret ret))
  end.

(** ** Queue pairs *)

(** The bucket of a new queue pair, from RATE_LIMIT_<client> in bits per second. *)
Definition qp_bucket (client : Z) : res TokenBucket :=
  match ro_rate_limit os client with
  | None => newTokenBucket MAX_QP_RATE_LIMIT BURST_PER_QP
  | Some rate_limit => newTokenBucket (rate_limit / 8) BURST_PER_QP
  end.

(** A missing queue or shared queue is a null pointer in the attribute; a missing
    domain is dereferenced by [ibv_create_qp]. *)
Definition qp_request_of (req : cval) r : res qp_request :=
  srq ← tbl_get (srq_map (r_data r)) (fu req 5);
  send_cq ← tbl_get (cq_map (r_data r)) (fu req 3);
  recv_cq ← tbl_get (cq_map (r_data r)) (fu req 4);
  pd ← tbl_get (pd_map r) (fu req 0);
  pd ← of_option pd;
  Ok (mkQpRequest pd (fu req 1) (fi req 2) send_cq recv_cq srq (cap_of (fs req 6))).

Definition store_qp (client handle : Z) (qp : rqp) r : res (router D) :=
  if MAP_SIZE <=? handle then Ok r
  else
    tb ← qp_bucket client;
    Ok (set_buckets (<[handle := tb]> (tokenbucket r))
          (set_data (set_qp_map (<[handle := qp]> (qp_map (r_data r))) (r_data r)) r)).

Definition do_create_qp (client : Z) (req : cval) r : res (router D * answer) :=
  q ← qp_request_of req r;
  let '(d, x) := dv_create_qp dv (r_dev r) q in
  match x with
  | None => Ok (set_dev d r, NoReply)
  | Some (qp, handle, qp_num, cap) =>
      r1 ← store_qp client handle qp (set_dev d r);
      '(r2, sp) ← initCtrlShm ("qp" +:+ decimal handle) r1;
      i ← index handle;
      Ok (set_qp_shm (<[i := sp]> (qp_shm r2)) (qp_shm_vec r2 ++ [handle]) r2,
          Reply t_IBV_CREATE_QP_RSP (VS [VI qp_num; VI handle; cap_val cap; name_field sp]))
  end.

(** The bucket stays in its table. *)
Definition do_destroy_qp (req : cval) r : res (router D * answer) :=
  let h := fu req 0 in
  qp ← tbl_get (qp_map (r_data r)) h;
  match qp with
  | None => Ok (r, NoReply)
  | Some qp =>
      let '(d, ret) := dv_destroy_qp dv (r_dev r) qp in
      let r1 := set_data (set_qp_map (delete h (qp_map (r_data r))) (r_data r)) (set_dev d r) in
      let r2 := remove_piece (qp_shm r1 !! h) r1 in
      Ok (set_qp_shm (delete h (qp_shm r2)) (erase_first h (qp_shm_vec r2)) r2,
          Reply t_IBV_DESTROY_QP_RSP (vret ret))
  end.

(** The message about a handle that is too large reads the null [qp]; so does
    [ibv_modify_qp] when the table has no entry. *)
Definition do_modify_qp (req : cval) r : res (router D * answer) :=
  let h := fu req 0 in
  qp ← of_option (pick (qp_map (r_data r)) None h);
  let '(d, ret) := dv_modify_qp dv (r_dev r) qp (fs req 1) (fi req 2) in
  Ok (set_dev d r, Reply t_IBV_MODIFY_QP_RSP (VS [VI (u32 ret); VI h])).

(** ** Memory regions *)

Definition reg_piece (client mem_size : Z) (name : list Z) r : router D * option ShmPiece :=
  match name with
  | [] => addShmPiece_client client mem_size r
  | _ => addShmPiece_name name mem_size r
  end.

(** [mem_size] is passed as an [int]. *)
Definition do_reg_mr (client : Z) (req : cval) r : res (router D * answer) :=
  name ← of_option (cstring (fb req 3));
  let '(r1, p) := reg_piece client (fi req 1) name r in
  match p with
  | None => Ok (r1, NoReply)
  | Some sp =>
      pd ← tbl_get (pd_map r1) (fu req 0);
      match pd with
      | None => Ok (r1, NoReply)
      | Some pd =>
          let '(d, x) := dv_reg_mr dv (r_dev r1) pd (piece_ptr sp) (piece_size sp) (fi req 2) in
          let r2 := set_dev d r1 in
          match x with
          | None => Ok (r2, NoReply)
          | Some (mr, handle, lkey, rkey) =>
              let r3 := set_mr (tbl_put (mr_map r2) handle mr) (tbl_put (shmr_map r2) handle sp) r2 in
              Ok (set_data (set_lkey_ptr (<[lkey := piece_ptr sp]> (lkey_ptr (r_data r3))) (r_data r3)) r3,
                  Reply t_IBV_REG_MR_RSP (VS [VI handle; VI lkey; VI rkey; name_field sp]))
          end
      end
  end.

(** The loop over HOST_LIST; [false]: the function returns. *)
Fixpoint broadcast (hosts : list (list Z)) (datagram : list Z) r : res (router D * bool) :=
  match hosts with
  | [] => Ok (r, true)
  | host :: hosts' =>
      match ro_udp os host with
      | NoSocket => Ok (r, false)
      | Skipped => broadcast hosts' datagram r
      | Answered sent =>
          broadcast hosts' datagram
            (if sent then set_udp (udp_sent r ++ [(host, datagram)]) r else r)
      | Silent => Spin
      end
  end.

(** [lkey_ptr[p->key]] makes an entry when there is none. *)
Definition do_reg_mr_mapping (req : cval) r : res (router D * answer) :=
  let key := fu req 0 in
  let f := r_data r in
  let shm := default 0 (lkey_ptr f !! key) in
  let r1 := set_data (set_lkey_ptr (<[key := shm]> (lkey_ptr f)) f) r in
  '(r2, done) ← broadcast (ro_hosts os)
                  (encode (ro_junk os) t_IBV_REG_MR_MAPPING_REQ (VS [VI key; VI (fu req 1); VI shm])) r1;
  Ok (r2, if (done : bool) then Reply t_IBV_REG_MR_MAPPING_RSP (vret 0) else Leave).

Definition do_dereg_mr (req : cval) r : res (router D * answer) :=
  let h := fu req 0 in
  sp ← tbl_get (shmr_map r) h;
  mr ← tbl_get (mr_map r) h;
  mr ← of_option mr;
  let '(d, ret) := dv_dereg_mr dv (r_dev r) mr in
  sp ← of_option sp;
  Ok (piece_remove sp (set_mr (delete h (mr_map r)) (delete h (shmr_map r)) (set_dev d r)),
      Reply t_IBV_DEREG_MR_RSP (vret ret)).

(** ** Completion channels and events *)

Definition do_create_comp_channel r : res (router D * answer) :=
  let '(d, x) := dv_create_comp_channel dv (r_dev r) in
  '(channel, fd) ← of_option x;
  m ← (if MAP_SIZE <=? fd then Ok (channel_map r)
       else i ← index fd; Ok (<[i := channel]> (channel_map r)));
  Ok (set_channel m (set_dev d r), ReplyFd fd t_IBV_CREATE_COMP_CHANNEL_RSP (vret fd)).

Definition do_destroy_comp_channel (req : cval) r : res (router D * answer) :=
  let fd := fi req 0 in
  c ← tbl_get (channel_map r) fd;
  match c with
  | None => Ok (r, NoReply)
  | Some c =>
      let '(d, ret) := dv_destroy_comp_channel dv (r_dev r) c in
      Ok (set_channel (delete fd (channel_map r)) (set_dev d r),
          Reply t_IBV_DESTROY_COMP_CHANNEL_RSP (vret ret))
  end.

Definition event_rsp (handle comp async : Z) : answer :=
  Reply t_IBV_GET_CQ_EVENT_RSP (VS [VI handle; VI comp; VI async]).

Definition do_get_cq_event (req : cval) r : res (router D * answer) :=
  c ← tbl_get (channel_map r) (fi req 0);
  match c with
  | None => Ok (r, NoReply)
  | Some c =>
      let '(d, x) := dv_get_cq_event dv (r_dev r) c in
      Ok (set_dev d r, match x with Some (h, comp, async) => event_rsp h comp async | None => NoReply end)
  end.

Definition do_ack_cq_event (req : cval) r : res (router D * answer) :=
  cq ← tbl_get (cq_map (r_data r)) (fu req 0);
  match cq with
  | None => Ok (r, NoReply)
  | Some cq =>
      let '(d, (h, comp, async)) := dv_ack_cq_events dv (r_dev r) cq (fu req 1) in
      Ok (set_dev d r, event_rsp h comp async)
  end.

(** ** Address handles *)

Definition do_create_ah (req : cval) r : res (router D * answer) :=
  pd ← tbl_get (pd_map r) (fu req 0);
  match pd with
  | None => Ok (r, NoReply)
  | Some pd =>
      let '(d, x) := dv_create_ah dv (r_dev r) pd (fs req 1) in
      '(ah, handle) ← of_option x;
      Ok (set_data (set_ah_map (tbl_put (ah_map (r_data r)) handle ah) (r_data r)) (set_dev d r),
          Reply t_IBV_CREATE_AH_RSP (VS [VI handle; VI 0]))
  end.

(** The entry stays in the table. *)
Definition do_destroy_ah (req : cval) r : res (router D * answer) :=
  ah ← tbl_get (ah_map (r_data r)) (fu req 0);
  match ah with
  | None => Ok (r, NoReply)
  | Some ah =>
      let '(d, ret) := dv_destroy_ah dv (r_dev r) ah in
      Ok (set_dev d r, Reply t_IBV_DESTROY_AH_RSP (vret ret))
  end.

(** ** Shared receive queues *)

Definition do_create_srq (req : cval) r : res (router D * answer) :=
  pd ← tbl_get (pd_map r) (fu req 0);
  match pd with
  | None => Ok (r, NoReply)
  | Some pd =>
      let '(d, x) := dv_create_srq dv (r_dev r) pd (fs req 1) in
      '(srq, handle) ← of_option x;
      let r1 := set_data (set_srq_map (tbl_put (srq_map (r_data r)) handle srq) (r_data r)) (set_dev d r) in
      '(r2, sp) ← initCtrlShm ("srq" +:+ decimal handle) r1;
      i ← index handle;
      Ok (set_srq_shm (<[i := sp]> (srq_shm r2)) (srq_shm_vec r2 ++ [handle]) r2,
          Reply t_IBV_CREATE_SRQ_RSP (VS [VI handle; name_field sp]))
  end.

Definition do_modify_srq (req : cval) r : res (router D * answer) :=
  srq ← tbl_get (srq_map (r_data r)) (fu req 0);
  match srq with
  | None => Ok (r, NoReply)
  | Some srq =>
      let '(d, ret) := dv_modify_srq dv (r_dev r) srq (fs req 1) (fi req 2) in
      Ok (set_dev d r, Reply t_IBV_MODIFY_SRQ_RSP (vret ret))
  end.

Definition do_destroy_srq (req : cval) r : res (router D * answer) :=
  let h := fu req 0 in
  srq ← tbl_get (srq_map (r_data r)) h;
  match srq with
  | None => Ok (r, NoReply)
  | Some srq =>
      let '(d, ret) := dv_destroy_srq dv (r_dev r) srq in
      let r1 := set_data (set_srq_map (delete h (srq_map (r_data r))) (r_data r)) (set_dev d r) in
      let r2 := remove_piece (srq_shm r1 !! h) r1 in
      Ok (set_srq_shm (delete h (srq_shm r2)) (erase_first h (srq_shm_vec r2)) r2,
          Reply t_IBV_DESTROY_SRQ_RSP (vret ret))
  end.

(** ** Commands that go to the kernel (verbs_cmd.cpp) *)

(** [write(cmd_fd, cmd, size) != size]: the error, or 0 and the response. *)
Definition write_command (d : D) (cmd : list Z) : D * Z * option (list Z) :=
  let '(d1, n, err, out) := dv_write dv d cmd in
  if n =? Z.of_nat (length cmd) then (d1, 0, Some out) else (d1, err, None).

(** A response nothing was copied to. *)
Definition leftover (t : cty) : cval := decode t (replicate (Z.to_nat (sizeof t)) (ro_junk os)).

(** [IBV_INIT_CMD_RESP_EX_V] and [IBV_INIT_CMD_RESP_EXP] without a provider's part:
    the header is stored over the start of the command. *)
Definition router_ex_header (code size resp_size resp : Z) : cval :=
  VS [VS [VI code; VI (u16 (u64 (size - sizeof t_ex_hdr) / 8)); VI (resp_size / 8)]; VS [VI resp];
      VS [VI 0; VI 0; VI 0]].

Definition with_ex_header (h : cval) (cmd : list Z) : list Z :=
  overwrite cmd (encode (ro_junk os) t_ex_hdr h).

Definition ibv_exp_cmd_query_device_resp (d : D) (cmd_in : cval) : D * Z * cval :=
  let size := sizeof t_ibv_exp_query_device in
  let t := t_ibv_exp_query_device_resp in
  let cmd := with_ex_header (router_ex_header (4 + 64) size (sizeof t) (ro_resp os))
               (encode (ro_junk os) t_ibv_exp_query_device cmd_in) in
  let '(d1, err, out) := write_command d cmd in
  (d1, err, match out with
            | Some out => decode t (overwrite (replicate (Z.to_nat (sizeof t)) 0) out)
            | None => leftover t
            end).

(** The command is built in an array of 100 bytes. *)
Definition ibv_cmd_query_qp_resp (d : D) (cmd_in : list Z) (cmd_size : Z) : res (D * Z * cval) :=
  let t := t_ibv_query_qp_resp in
  let head := encode (ro_junk os) t_ibv_query_qp
    (VS [VI 25; VI (u16 (cmd_size / 4)); VI (u16 (sizeof t / 4)); VI (ro_resp os);
         VI (fu (decode t_ibv_query_qp cmd_in) 4); VI (fu (decode t_ibv_query_qp cmd_in) 5); VB []]) in
  cmd ← take_n cmd_size (overwrite (replicate 100 (ro_junk os)) head);
  let '(d1, err, out) := write_command d cmd in
  Ok (d1, err, match out with Some out => decode t out | None => leftover t end).

(** The loop that prints the specs: it reads the header of each. *)
Fixpoint print_specs (n : nat) (bs : list Z) : res unit :=
  match n with
  | O => Ok tt
  | S n' => _ ← spec_size bs; _ ← spec_type bs; bs' ← next_spec bs; print_specs n' bs'
  end.

(** The command is copied into an array of 1024 bytes. *)
Definition ibv_cmd_create_flow_resp (d : D) (cmd_in : list Z) (written exp_flow : Z)
  : res (D * Z * cval) :=
  let t := t_ibv_create_flow_resp in
  bytes ← take_n written cmd_in;
  let buf := overwrite (replicate 1024 (ro_junk os)) bytes in
  let attr := fs (decode t_ibv_create_flow buf) 3 in
  _ ← print_specs (Z.to_nat (fu attr 3)) (drop (Z.to_nat (sizeof t_ibv_create_flow)) buf);
  let code := if negb (exp_flow =? 0) then EXP_CREATE_FLOW else CREATE_FLOW in
  let buf := with_ex_header (router_ex_header code written (sizeof t) (ro_resp os)) buf in
  cmd ← take_n written buf;
  let '(d1, err, out) := write_command d cmd in
  Ok (d1, err, match out with Some out => decode t out | None => leftover t end).

Definition ibv_cmd_destroy_flow_resp (d : D) (cmd_in : cval) : D * Z :=
  let size := sizeof t_ibv_destroy_flow in
  let cmd := with_ex_header (router_ex_header (CREATE_FLOW + 1) size 0 0)
               (encode (ro_junk os) t_ibv_destroy_flow cmd_in) in
  let '(d1, err, _) := write_command d cmd in (d1, err).

Definition do_exp_query_dev (req : cval) r : res (router D * answer) :=
  let '(d, err, v) := ibv_exp_cmd_query_device_resp (r_dev r) (fs req 0) in
  Ok (set_dev d r, Reply t_IBV_EXP_QUERY_DEV_RSP (VS [VI (u32 err); v])).

Definition do_query_qp (req : cval) r : res (router D * answer) :=
  '(d, err, v) ← ibv_cmd_query_qp_resp (r_dev r) (fb req 1) (fi req 0);
  Ok (set_dev d r, Reply t_IBV_QUERY_QP_RSP (VS [VI (u32 err); v])).

Definition do_create_flow (req : cval) r : res (router D * answer) :=
  '(d, err, v) ← ibv_cmd_create_flow_resp (r_dev r) (fb req 2) (fi req 1) (fi req 0);
  Ok (set_dev d r, Reply t_IBV_CREATE_FLOW_RSP (VS [VI (u32 err); v])).

Definition do_destroy_flow (req : cval) r : res (router D * answer) :=
  let '(d, err) := ibv_cmd_destroy_flow_resp (r_dev r) (fs req 0) in
  Ok (set_dev d r, Reply t_IBV_DESTROY_FLOW_RSP (vret err)).

(** ** The switch *)

(** The branches that call verbs and keep the tables; the posting and polling
    branches are in [Router]. *)
Definition control (h : FfrRequestHeader) (req : cval) r : res (router D * answer) :=
  match func h with
  | IBV_GET_CONTEXT => do_get_context r
  | IBV_QUERY_DEV => do_query_dev r
  | IBV_EXP_QUERY_DEV => do_exp_query_dev req r
  | IBV_QUERY_PORT => do_query_port req r
  | IBV_ALLOC_PD => do_alloc_pd r
  | IBV_DEALLOC_PD => do_dealloc_pd req r
  | IBV_CREATE_CQ => do_create_cq req r
  | IBV_DESTROY_CQ => do_destroy_cq req r
  | IBV_REQ_NOTIFY_CQ => do_req_notify_cq req r
  | IBV_CREATE_QP => do_create_qp (client_id h) req r
  | IBV_DESTROY_QP => do_destroy_qp req r
  | IBV_REG_MR => do_reg_mr (client_id h) req r
  | IBV_REG_MR_MAPPING => do_reg_mr_mapping req r
  | IBV_DEREG_MR => do_dereg_mr req r
  | IBV_MODIFY_QP => do_modify_qp req r
  | IBV_QUERY_QP => do_query_qp req r
  | IBV_CREATE_COMP_CHANNEL => do_create_comp_channel r
  | IBV_DESTROY_COMP_CHANNEL => do_destroy_comp_channel req r
  | IBV_GET_CQ_EVENT => do_get_cq_event req r
  | IBV_ACK_CQ_EVENT => do_ack_cq_event req r
  | IBV_CREATE_AH => do_create_ah req r
  | IBV_DESTROY_AH => do_destroy_ah req r
  | IBV_CREATE_FLOW => do_create_flow req r
  | IBV_DESTROY_FLOW => do_destroy_flow req r
  | IBV_CREATE_SRQ => do_create_srq req r
  | IBV_MODIFY_SRQ => do_modify_srq req r
  | IBV_DESTROY_SRQ => do_destroy_srq req r
  | _ => Ok (r, Reply (Struct []) (VS []))
  end.

End Branches.
