(* ===== verification/RouterServe.v ===== *)
(** * The router's connection threads (ffrouter.cpp, [HandleRequest], [UDPServer])

    A thread reads headers and bodies from its socket until the connection ends, and
    writes what [control] answers.  The bodies are read into a buffer that lives as
    long as the thread.  The UDP server stores the mappings other routers announce. *)

From stdpp Require Import pretty.
From S2P Require Import Prelude CLayout FfTypes Verbs MemPool CtrlShm Client.
From S2P Require Import Router Wire ReqRouter CmdCtrl RouterCtl.

(** [th_in]: the results of the thread's reads ([None]: -1, [Some []]: the end of the
    stream); [th_wr]: those of its writes. *)
Record thread : Type := mkThread {
  th_in : list (option (list Z));
  th_wr : list Z;
  th_req : list Z;
  th_fds : list Z;
  th_out : list (list Z) }.

(** The functions of the enum in their order. *)
Definition all_functions : list RDMA_FUNCTION_CALL :=
  [IBV_GET_DEVICE_LIST; IBV_GET_CONTEXT; IBV_QUERY_DEV; IBV_EXP_QUERY_DEV; IBV_QUERY_PORT;
   IBV_ALLOC_PD; IBV_DEALLOC_PD; IBV_CREATE_QP; IBV_MODIFY_QP; IBV_QUERY_QP; IBV_DESTROY_QP;
   IBV_CREATE_SRQ; IBV_MODIFY_SRQ; IBV_POST_SRQ_RECV; IBV_DESTROY_SRQ; IBV_CREATE_CQ;
   IBV_DESTROY_CQ; IBV_POLL_CQ; IBV_GET_CQ_EVENT; IBV_ACK_CQ_EVENT; IBV_REQ_NOTIFY_CQ;
   IBV_REG_MR; IBV_REG_MR_MAPPING; IBV_DEREG_MR; IBV_REG_CM; IBV_POST_SEND; IBV_POST_RECV;
   IBV_CREATE_COMP_CHANNEL; IBV_DESTROY_COMP_CHANNEL; IBV_CREATE_AH; IBV_DESTROY_AH;
   IBV_CREATE_FLOW; IBV_DESTROY_FLOW; IBV_MALLOC; IBV_FREE; IBV_RESIZE_CQ;
   CM_CREATE_EVENT_CHANNEL; CM_DESTROY_EVENT_CHANNEL; CM_CREATE_ID; CM_BIND_IP; CM_BIND;
   CM_GET_EVENT; CM_QUERY_ROUTE; CM_LISTEN; CM_RESOLVE_IP; CM_RESOLVE_ADDR;
   CM_UCMA_QUERY_ADDR; CM_UCMA_QUERY_GID; CM_UCMA_PROCESS_CONN_RESP; CM_DESTROY_ID;
   CM_RESOLVE_ROUTE; CM_UCMA_QUERY_PATH; CM_INIT_QP_ATTR; CM_CONNECT; CM_ACCEPT;
   CM_SET_OPTION; CM_MIGRATE_ID; CM_DISCONNECT].

Definition func_of_code (code : Z) : option RDMA_FUNCTION_CALL :=
  if 0 <=? code then all_functions !! Z.to_nat code else None.

(** Functions the switch has no case for. *)
Definition no_case (f : RDMA_FUNCTION_CALL) : bool :=
  match f with
  | IBV_GET_DEVICE_LIST | IBV_REG_CM | IBV_MALLOC | IBV_FREE | IBV_RESIZE_CQ => true
  | _ => false
  end.

(** What one turn of the loop leads to: the next turn; the end of the thread, with
    the socket closed or not; a request of a branch outside of [control]. *)
Inductive turn (D : Type) : Type :=
| Next (th : thread) (r : router D)
| Done (closed : bool) (th : thread) (r : router D)
| Elsewhere (code : Z) (th : thread) (r : router D).
Arguments Next {D}.
Arguments Done {D}.
Arguments Elsewhere {D}.

Section Serve.
Context {D : Type} (dv : device D) (os : router_os).
Implicit Types (r : router D) (th : thread).

(** [read(client_sock, req_body, sizeof(t)) < sizeof(t)]: a [ssize_t] compared with a
    [size_t], so that the -1 of an error is large; the buffer then keeps its bytes.
    [None]: too few bytes. *)
Definition read_body (t : option cty) th : res (option thread) :=
  match t with
  | None => Ok (Some th)
  | Some t =>
      match th_in th with
      | [] => Spin
      | None :: rest => Ok (Some (mkThread rest (th_wr th) (th_req th) (th_fds th) (th_out th)))
      | Some bs :: rest =>
          Ok (if Z.of_nat (length bs) <? sizeof t then None
              else Some (mkThread rest (th_wr th) (overwrite (th_req th) bs) (th_fds th) (th_out th)))
      end
  end.

(** [n = write(client_sock, rsp, size)) < size] *)
Definition write_rsp (bs : list Z) th : res (bool * thread) :=
  match th_wr th with
  | [] => Spin
  | n :: ws =>
      Ok (negb (n <? Z.of_nat (length bs)),
          mkThread (th_in th) ws (th_req th) (th_fds th) (th_out th ++ [bs]))
  end.

(** Behind the switch *)
Definition finish (a : answer) th r : res (turn D) :=
  let reply bs th :=
    '(ok, th') ← write_rsp bs th;
    Ok (if (ok : bool) then Next th' r else Done true th' r) in
  match a with
  | Reply t v => reply (encode (ro_junk os) t v) th
  | ReplyFd fd t v =>
      reply (encode (ro_junk os) t v)
        (mkThread (th_in th) (th_wr th) (th_req th) (th_fds th ++ [fd]) (th_out th))
  | NoReply => Ok (Next th r)
  | Leave => Ok (Done false th r)
  end.

(** One turn of the loop.  A header that could not be read for an error passes the
    test and is used uninitialised. *)
Definition one_turn th r : res (turn D) :=
  match th_in th with
  | [] => Spin
  | None :: _ => Ub
  | Some hb :: rest =>
      let th1 := mkThread rest (th_wr th) (th_req th) (th_fds th) (th_out th) in
      if Z.of_nat (length hb) <? sizeof t_FfrRequestHeader then Ok (Done true th1 r)
      else
        let hv := decode t_FfrRequestHeader hb in
        match func_of_code (fu hv 1) with
        | None => Ok (Elsewhere (fu hv 1) th1 r)
        | Some f =>
            match fixed_format f with
            | Some (q, _) =>
                b ← read_body q th1;
                match b with
                | None => Ok (Done true th1 r)
                | Some th2 =>
                    let req := match q with
                               | Some t => decode t (take (Z.to_nat (sizeof t)) (th_req th2))
                               | None => VS []
                               end in
                    '(r', a) ← control dv os (mkReqHeader (fi hv 0) f (fu hv 2)) req r;
                    finish a th2 r'
                end
            | None => if no_case f then finish (Reply (Struct []) (VS [])) th1 r
                      else Ok (Elsewhere (fu hv 1) th1 r)
            end
        end
  end.

(** The loop; each turn reads at least once. *)
Fixpoint turns (fuel : nat) th r : res (turn D) :=
  match fuel with
  | O => Spin
  | S fuel' =>
      t ← one_turn th r;
      match t with Next th' r' => turns fuel' th' r' | _ => Ok t end
  end.

Definition HandleRequest th r : res (turn D) := turns (S (length (th_in th))) th r.

(** ** The UDP server *)

(** One datagram: [p] points into the buffer, which is then used for the answer, of
    1400 bytes. *)
Definition udp_serve (buf datagram : list Z) r : router D * list Z :=
  let buf1 := overwrite buf datagram in
  let p := decode t_IBV_REG_MR_MAPPING_REQ buf1 in
  (set_rkeys (<[fu p 0 := mkMrShm (fu p 1) (fu p 2)]> (rkey_mr_shm r)) r,
   overwrite buf1 (bytes_of ("ack-" +:+ decimal (fu p 0)) ++ [0])).

End Serve.

(** ** The loop *)

Section Loop.
Context {D : Type} (dv : device D) (os : router_os).
Implicit Types (r : router D) (th : thread).

Lemma func_of_code_code f : func_of_code (func_code f) = Some f.
Proof. by destruct f. Qed.

Lemma func_code_range f : 0 <= func_code f < 2 ^ 32.
Proof. destruct f; simpl; lia. Qed.

Lemma header_decodes h :
  0 <= body_size h < 2 ^ 32 ->
  decode t_FfrRequestHeader (header_bytes h)
  = VS [VI (u32 (client_id h)); VI (func_code (func h)); VI (body_size h)].
Proof.
  intros Hb. apply has_type_wire. apply ht_struct.
  repeat (constructor; [apply ht_int; [tauto|]|]);
    [apply u32_range|apply func_code_range|done|constructor].
Qed.

(** A turn that goes on has read at least the header. *)
Lemma finish_in a th r th' r' : finish os a th r = Ok (Next th' r') -> th_in th' = th_in th.
Proof.
  unfold finish, write_rsp. destruct a; cbn [th_wr]; intros E; simplify_eq; try done.
  all: destruct (th_wr th); cbn [mbind res_bind] in E; [done|];
       repeat split_if; simplify_eq; done.
Qed.

Lemma read_body_in q th th' : read_body q th = Ok (Some th') ->
  (length (th_in th') <= length (th_in th))%nat.
Proof.
  unfold read_body. destruct q as [t|]; intros E; [|by simplify_eq].
  destruct (th_in th) as [|[bs|] rest] eqn:Ei; simplify_eq; simpl.
  - split_if; simplify_eq. simpl. lia.
  - lia.
Qed.

Lemma one_turn_in th r th' r' : one_turn dv os th r = Ok (Next th' r') ->
  (length (th_in th') < length (th_in th))%nat.
Proof.
  unfold one_turn. destruct (th_in th) as [|[hb|] rest] eqn:Ei; try done.
  split_if; [done|]. destruct (func_of_code _) as [f|]; [|done].
  destruct (fixed_format f) as [[q rt]|].
  - intros E. inv_ok. destruct a as [th2|]; [|done]. inv_ok. destruct a as [r1 a].
    apply finish_in in E. apply read_body_in in E0. rewrite E. simpl in *. lia.
  - split_if; [|done]. intros E. apply finish_in in E. rewrite E. simpl. lia.
Qed.

(** More fuel than reads changes nothing: the loop ends when it ends or waits. *)
Lemma turns_fuel n : forall m th r,
  (length (th_in th) < n)%nat -> (length (th_in th) < m)%nat ->
  turns dv os n th r = turns dv os m th r.
Proof.
  induction n as [|n IH]; intros [|m] th r Hn Hm; try lia. cbn [turns].
  destruct (one_turn dv os th r) as [t| | |] eqn:E; try done.
  cbn [mbind res_bind]. destruct t as [th' r'| |]; [|done..].
  apply one_turn_in in E. apply IH; lia.
Qed.

Lemma HandleRequest_unfold th r :
  HandleRequest dv os th r =
  (t ← one_turn dv os th r;
   match t with Next th' r' => HandleRequest dv os th' r' | _ => Ok t end).
Proof.
  unfold HandleRequest. cbn [turns].
  destruct (one_turn dv os th r) as [t| | |] eqn:E; try done.
  cbn [mbind res_bind]. destruct t as [th' r'| |]; [|done..].
  apply one_turn_in in E. etrans; [apply (turns_fuel _ (S (length (th_in th')))); lia|done].
Qed.

(** ** A request of the client *)

(** The two writes of [request_router], read back whole. *)
Definition body_reads (body : list Z) : list (option (list Z)) :=
  match body with [] => [] | _ => [Some body] end.

Definition reads_of (id : Z) (req : RDMA_FUNCTION_CALL) (body : list Z) : list (option (list Z)) :=
  Some (header_bytes (mkReqHeader id req (Z.of_nat (length body)))) ::
  body_reads body.

Definition request_val (q : option cty) (body : list Z) : cval :=
  match q with Some t => decode t body | None => VS [] end.

Lemma read_body_of q body th :
  (match q with Some t => Z.of_nat (length body) = sizeof t /\ 0 < sizeof t | None => body = [] end) ->
  read_body q (mkThread (body_reads body ++ th_in th) (th_wr th)
                 (th_req th) (th_fds th) (th_out th))
  = Ok (Some (mkThread (th_in th) (th_wr th) (overwrite (th_req th) body) (th_fds th) (th_out th))).
Proof.
  intros Hq. unfold read_body. destruct q as [t|].
  - destruct Hq as [Hl Hp]. destruct body as [|b body]; [simpl in Hl; lia|]. cbn [th_in app body_reads].
    destruct (Z.ltb_spec (Z.of_nat (length (b :: body))) (sizeof t)); [lia|done].
  - subst. by destruct th.
Qed.

Lemma fixed_request_pos req t rt : fixed_format req = Some (Some t, rt) -> 0 < sizeof t.
Proof. intros E. destruct req; try discriminate E; injection E as <- <-; vm_compute; congruence. Qed.

(** The client's request reaches the switch with its value. *)
Lemma one_turn_request id req q rt body th r :
  fixed_format req = Some (q, rt) -> - 2 ^ 31 <= id < 2 ^ 31 ->
  (match q with Some t => Z.of_nat (length body) = sizeof t | None => body = [] end) ->
  one_turn dv os (mkThread (reads_of id req body ++ th_in th) (th_wr th) (th_req th) (th_fds th)
                    (th_out th)) r
  = ('(r', a) ← control dv os (mkReqHeader id req (Z.of_nat (length body))) (request_val q body) r;
     finish os a (mkThread (th_in th) (th_wr th) (overwrite (th_req th) body) (th_fds th) (th_out th)) r').
Proof.
  intros Hf Hid Hb. destruct (fixed_request_size _ _ _ Hf) as [Hq Hrs].
  assert (0 <= Z.of_nat (length body) < 2 ^ 32) as Hl by (destruct q; [lia|subst; simpl; lia]).
  unfold one_turn, reads_of. cbn [th_in th_wr th_req th_fds th_out app].
  rewrite header_decodes by done.
  assert (length (header_bytes (mkReqHeader id req (Z.of_nat (length body)))) = 12%nat) as -> by done.
  change (Z.of_nat 12 <? sizeof t_FfrRequestHeader) with false. cbn [client_id func body_size].
  unfold fu, fi, fu. cbn [fields list_lookup lookup vint]. simpl (fields _ !! _).
  rewrite func_of_code_code, Hf, read_body_of.
  - cbn [mbind res_bind th_req]. rewrite s32_u32 by done. destruct q as [t|]; [|done].
    cbn [request_val]. unfold overwrite. rewrite take_app_length' by lia. done.
  - destruct q as [t|]; [|done]. split; [done|]. by eapply fixed_request_pos.
Qed.

(** A connection that carries one request, and takes a response of [n] bytes. *)
Definition asking (id : Z) (req : RDMA_FUNCTION_CALL) (body : list Z) (n : Z) : thread :=
  mkThread (reads_of id req body) [n] [] [] [].

Lemma request_replied id req q rt body r r' t v :
  fixed_format req = Some (q, rt) -> - 2 ^ 31 <= id < 2 ^ 31 ->
  (match q with Some t => Z.of_nat (length body) = sizeof t | None => body = [] end) ->
  control dv os (mkReqHeader id req (Z.of_nat (length body))) (request_val q body) r
  = Ok (r', Reply t v) ->
  one_turn dv os (asking id req body (Z.of_nat (length (encode (ro_junk os) t v)))) r
  = Ok (Next (mkThread [] [] (overwrite [] body) [] [encode (ro_junk os) t v]) r').
Proof.
  intros Hf Hid Hb Hc. unfold asking.
  pose proof (one_turn_request id req q rt body
    (mkThread [] [Z.of_nat (length (encode (ro_junk os) t v))] [] [] []) r Hf Hid Hb) as E.
  cbn [th_in th_wr th_req th_fds th_out] in E. rewrite app_nil_r in E. rewrite E, Hc.
  cbn [mbind res_bind]. unfold finish, write_rsp. cbn [th_in th_wr th_req th_fds th_out mbind res_bind].
  by rewrite Z.ltb_irrefl.
Qed.

End Loop.
