(* ===== verification/RouterInv.v ===== *)
(** * The router's tables stay in step

    The polling thread of the router goes through the vectors of handles and takes a
    piece and an object from the tables for each.  Here: whatever requests arrive, on
    however many connections, each handle of a vector has its piece and its object and
    occurs once.  What this needs of the device is the class [DeviceLaws]: handles of
    live objects are not given out again, and no verb but the destroying one ends an
    object's life. *)

From S2P Require Import Prelude CLayout FfTypes Verbs MemPool CtrlShm Client.
From S2P Require Import Router Wire ReqRouter CmdCtrl TokenBucket RouterCtl RouterServe.

(** ** The device's promise *)

Inductive kind : Type := KCq | KQp | KSrq.

Class DeviceLaws {D} (dv : device D) := {
  live : D -> kind -> Z -> Prop;
  handle_cq : Z -> Z;
  handle_qp : rqp -> Z;
  handle_srq : Z -> Z;
  keeps (d d' : D) : Prop := forall k h, live d k h -> live d' k h;
  keeps_but (k0 : kind) (h0 : Z) (d d' : D) : Prop :=
    forall k h, (k = k0 -> h <> h0) -> live d k h -> live d' k h;
  gives (k : kind) (h : Z) (d d' : D) : Prop := 0 <= h /\ ~ live d k h /\ live d' k h;
  dl_alloc_pd d : keeps d (dv_alloc_pd dv d).1;
  dl_dealloc_pd d pd : keeps d (dv_dealloc_pd dv d pd).1;
  dl_create_cq d n c v : keeps d (dv_create_cq dv d n c v).1;
  dl_create_cq_handle d n c v d' cq h e :
    dv_create_cq dv d n c v = (d', Some (cq, h, e)) -> gives KCq h d d' /\ handle_cq cq = h;
  dl_destroy_cq d cq : keeps_but KCq (handle_cq cq) d (dv_destroy_cq dv d cq).1;
  dl_req_notify_cq d cq s : keeps d (dv_req_notify_cq dv d cq s).1;
  dl_create_qp d q : keeps d (dv_create_qp dv d q).1;
  dl_create_qp_handle d q d' qp h n c :
    dv_create_qp dv d q = (d', Some (qp, h, n, c)) -> gives KQp h d d' /\ handle_qp qp = h;
  dl_destroy_qp d qp : keeps_but KQp (handle_qp qp) d (dv_destroy_qp dv d qp).1;
  dl_modify_qp d qp a m : keeps d (dv_modify_qp dv d qp a m).1;
  dl_reg_mr d pd a n f : keeps d (dv_reg_mr dv d pd a n f).1;
  dl_dereg_mr d mr : keeps d (dv_dereg_mr dv d mr).1;
  dl_create_comp_channel d : keeps d (dv_create_comp_channel dv d).1;
  dl_destroy_comp_channel d c : keeps d (dv_destroy_comp_channel dv d c).1;
  dl_get_cq_event d c : keeps d (dv_get_cq_event dv d c).1;
  dl_ack_cq_events d cq n : keeps d (dv_ack_cq_events dv d cq n).1;
  dl_create_ah d pd a : keeps d (dv_create_ah dv d pd a).1;
  dl_destroy_ah d ah : keeps d (dv_destroy_ah dv d ah).1;
  dl_create_srq d pd a : keeps d (dv_create_srq dv d pd a).1;
  dl_create_srq_handle d pd a d' srq h :
    dv_create_srq dv d pd a = (d', Some (srq, h)) -> gives KSrq h d d' /\ handle_srq srq = h;
  dl_modify_srq d srq a m : keeps d (dv_modify_srq dv d srq a m).1;
  dl_destroy_srq d srq : keeps_but KSrq (handle_srq srq) d (dv_destroy_srq dv d srq).1;
  dl_write d bs : keeps d (dv_write dv d bs).1.1.1 }.

(** ** One kind of object *)

Section InStep.
Context {A : Type} (hd : A -> Z).

(** The table, the pieces and the vector have the same handles. *)
Record in_step (m : gmap Z A) (shm : gmap Z ShmPiece) (vec : list Z) (live : Z -> Prop) : Prop := {
  st_nodup : NoDup vec;
  st_vec : forall h, h ∈ vec <-> is_Some (m !! h);
  st_shm : forall h, is_Some (shm !! h) <-> is_Some (m !! h);
  st_obj : forall h x, m !! h = Some x -> 0 <= h < MAP_SIZE /\ live h /\ hd x = h }.

Lemma in_step_empty (live : Z -> Prop) : in_step ∅ ∅ [] live.
Proof.
  split; [apply NoDup_nil_2|intros h..|intros h x Hx].
  - rewrite lookup_empty, elem_of_nil. split; [done|by intros [? ?]].
  - by rewrite !lookup_empty.
  - by rewrite lookup_empty in Hx.
Qed.

Lemma in_step_mono m shm vec (live live' : Z -> Prop) :
  (forall h, live h -> live' h) -> in_step m shm vec live -> in_step m shm vec live'.
Proof. intros Hl [H1 H2 H3 H4]. split; auto. intros h x Hx. specialize (H4 h x Hx). naive_solver. Qed.

Lemma in_step_insert m shm vec (live live' : Z -> Prop) h x sp :
  in_step m shm vec live -> ~ live h -> (forall k, live k -> live' k) -> live' h ->
  0 <= h < MAP_SIZE -> hd x = h ->
  in_step (<[h := x]> m) (<[h := sp]> shm) (vec ++ [h]) live'.
Proof.
  intros [H1 H2 H3 H4] Hn Hl Hh Hr Hx.
  assert (m !! h = None) as Hm by (destruct (m !! h) eqn:E; [by apply H4 in E as (_ & ? & _)|done]).
  split.
  - apply NoDup_app. split_and!; [done| |apply NoDup_singleton].
    intros k Hk ->%list_elem_of_singleton. apply H2 in Hk as [? ?]. congruence.
  - intros k. rewrite elem_of_app, list_elem_of_singleton, H2.
    destruct (decide (k = h)) as [->|Hk]; [rewrite lookup_insert_eq; naive_solver|].
    rewrite lookup_insert_ne by done. naive_solver.
  - intros k. destruct (decide (k = h)) as [->|Hk]; [by rewrite !lookup_insert_eq|].
    by rewrite !lookup_insert_ne.
  - intros k y. destruct (decide (k = h)) as [->|Hk].
    + rewrite lookup_insert_eq. naive_solver.
    + rewrite lookup_insert_ne by done. intros Hy. apply H4 in Hy. naive_solver.
Qed.

Lemma erase_first_elem h v : NoDup v -> forall k, k ∈ erase_first h v <-> k ∈ v /\ k <> h.
Proof.
  induction v as [|x v IH]; intros Hn k; simpl; [set_solver|].
  apply NoDup_cons in Hn as [Hx Hn]. destruct (Z.eqb_spec x h); [set_solver|].
  rewrite !elem_of_cons, IH by done. naive_solver.
Qed.

Lemma erase_first_nodup h v : NoDup v -> NoDup (erase_first h v).
Proof.
  induction v as [|x v IH]; intros Hn; simpl; [done|].
  apply NoDup_cons in Hn as [Hx Hn]. destruct (x =? h); [done|].
  apply NoDup_cons. split; [|auto]. by rewrite erase_first_elem by done; naive_solver.
Qed.

Lemma in_step_delete m shm vec (live live' : Z -> Prop) h :
  in_step m shm vec live -> (forall k, k <> h -> live k -> live' k) ->
  in_step (delete h m) (delete h shm) (erase_first h vec) live'.
Proof.
  intros [H1 H2 H3 H4] Hl. split.
  - by apply erase_first_nodup.
  - intros k. rewrite erase_first_elem by done. rewrite H2.
    destruct (decide (k = h)) as [->|Hk]; [rewrite lookup_delete_eq|rewrite lookup_delete_ne by done];
      unfold is_Some; naive_solver.
  - intros k. destruct (decide (k = h)) as [->|Hk]; [by rewrite !lookup_delete_eq|].
    by rewrite !lookup_delete_ne.
  - intros k x. destruct (decide (k = h)) as [->|Hk]; [by rewrite lookup_delete_eq|].
    rewrite lookup_delete_ne by done. intros Hx. apply H4 in Hx. naive_solver.
Qed.

Lemma in_step_elem m shm vec (live : Z -> Prop) : in_step m shm vec live ->
  forall h, h ∈ vec <-> exists x sp, 0 <= h < MAP_SIZE /\ m !! h = Some x /\ shm !! h = Some sp.
Proof.
  intros [H1 H2 H3 H4] h. rewrite H2. split.
  - intros [x Hx]. destruct (proj2 (H3 h)) as [sp Hs]; [by eexists|].
    exists x, sp. by destruct (H4 _ _ Hx).
  - intros (x & sp & _ & Hx & _). by eexists.
Qed.

End InStep.

(** ** All of them *)

Section Tables.
Context {D : Type} (dv : device D) `{!DeviceLaws dv} (os : router_os).
Implicit Types r : router D.

Record tables_ok r : Prop := {
  ok_cq : in_step handle_cq (cq_map (r_data r)) (cq_shm r) (cq_shm_vec r) (live (r_dev r) KCq);
  ok_qp : in_step handle_qp (qp_map (r_data r)) (qp_shm r) (qp_shm_vec r) (live (r_dev r) KQp);
  ok_srq : in_step handle_srq (srq_map (r_data r)) (srq_shm r) (srq_shm_vec r)
             (live (r_dev r) KSrq) }.

(** Steps that leave the three tables alone. *)
Definition same_tables r r' : Prop :=
  qp_map (r_data r') = qp_map (r_data r) /\ cq_map (r_data r') = cq_map (r_data r) /\
  srq_map (r_data r') = srq_map (r_data r) /\
  qp_shm r' = qp_shm r /\ cq_shm r' = cq_shm r /\ srq_shm r' = srq_shm r /\
  qp_shm_vec r' = qp_shm_vec r /\ cq_shm_vec r' = cq_shm_vec r /\ srq_shm_vec r' = srq_shm_vec r.

Lemma same_tables_ok r r' :
  same_tables r r' -> keeps (r_dev r) (r_dev r') -> tables_ok r -> tables_ok r'.
Proof.
  intros (E1 & E2 & E3 & E4 & E5 & E6 & E7 & E8 & E9) Hk [H1 H2 H3].
  split; rewrite ?E1, ?E2, ?E3, ?E4, ?E5, ?E6, ?E7, ?E8, ?E9;
    (eapply in_step_mono; [|done]; intros h; apply Hk).
Qed.

Lemma keeps_refl d : keeps d d.
Proof. by intros k h. Qed.

Lemma index_Ok i j : index i = Ok j -> j = i /\ 0 <= i < MAP_SIZE.
Proof. unfold index. split_if; intros E; [injection E as <-|done]. split; [done|]. blia. Qed.

Lemma tbl_get_Ok {A} (m : gmap Z A) h x :
  tbl_get m h = Ok x -> m !! h = x /\ 0 <= h < MAP_SIZE.
Proof. unfold tbl_get. intros E. inv_ok. apply index_Ok in E0 as [-> ?]. done. Qed.

Lemma tbl_put_in {A} (m : gmap Z A) h x : 0 <= h < MAP_SIZE -> tbl_put m h x = <[h := x]> m.
Proof. intros Hh. unfold tbl_put. destruct (Z.leb_spec MAP_SIZE h); [lia|done]. Qed.

Lemma initCtrlShm_Ok tag r r' sp : initCtrlShm os tag r = Ok (r', sp) ->
  r' = set_shm_log (idle_pieces r ++ [piece_ptr sp]) (unlinked_shm r) r.
Proof. unfold initCtrlShm. intros E. inv_ok. by simplify_eq. Qed.

(** The device's state after a verb. *)
Lemma keeps_of {B} (c : D * B) d d' x : c = (d', x) -> keeps d c.1 -> keeps d d'.
Proof. by intros ->. Qed.

Lemma keeps_but_of {B} k h (c : D * B) d d' x : c = (d', x) -> keeps_but k h d c.1 -> keeps_but k h d d'.
Proof. by intros ->. Qed.

Lemma keep_others r r' k0 h0 k :
  keeps_but k0 h0 (r_dev r) (r_dev r') -> k <> k0 ->
  forall h, live (r_dev r) k h -> live (r_dev r') k h.
Proof. intros Hb Hk h. apply Hb. intros ->. done. Qed.

Lemma create_cq_tables req r r' a :
  tables_ok r -> do_create_cq dv os req r = Ok (r', a) -> tables_ok r'.
Proof.
  intros Hok. unfold do_create_cq. intros E. inv_ok. destruct a0 as [channel|]; [|by simplify_eq].
  destruct (dv_create_cq _ _ _ _ _) as [d x] eqn:Ed.
  pose proof (keeps_of _ _ _ _ Ed (dl_create_cq _ _ _ _)) as Hk.
  inv_ok. destruct a0 as [[cq h] e]. inv_ok. destruct a0 as [r2 sp].
  inv_ok. apply initCtrlShm_Ok in E1 as ->. apply index_Ok in E2 as [-> Hh]. simplify_eq.
  destruct (dl_create_cq_handle _ _ _ _ _ _ _ _ Ed) as [(H0 & Hn & Hl) Hhd].
  destruct Hok as [H1 H2 H3]. split; simpl; [|eapply in_step_mono; [intros k; apply Hk|done]..].
  rewrite tbl_put_in by done. eapply in_step_insert; eauto.
Qed.

Lemma create_srq_tables req r r' a :
  tables_ok r -> do_create_srq dv os req r = Ok (r', a) -> tables_ok r'.
Proof.
  intros Hok. unfold do_create_srq. intros E. inv_ok. destruct a0 as [pd|]; [|by simplify_eq].
  destruct (dv_create_srq _ _ _ _) as [d x] eqn:Ed.
  pose proof (keeps_of _ _ _ _ Ed (dl_create_srq _ _ _)) as Hk.
  inv_ok. destruct a0 as [srq h]. inv_ok. destruct a0 as [r2 sp].
  inv_ok. apply initCtrlShm_Ok in E1 as ->. apply index_Ok in E2 as [-> Hh]. simplify_eq.
  destruct (dl_create_srq_handle _ _ _ _ _ _ Ed) as [(H0 & Hn & Hl) Hhd].
  destruct Hok as [H1 H2 H3].
  split; simpl; [eapply in_step_mono; [intros k; apply Hk|done]..|].
  rewrite tbl_put_in by done. eapply in_step_insert; eauto.
Qed.

Lemma store_qp_Ok client h qp r r' : 0 <= h < MAP_SIZE -> store_qp os client h qp r = Ok r' ->
  exists tb, qp_bucket os client = Ok tb /\
    r' = set_buckets (<[h := tb]> (tokenbucket r))
           (set_data (set_qp_map (<[h := qp]> (qp_map (r_data r))) (r_data r)) r).
Proof.
  intros Hh. unfold store_qp. destruct (Z.leb_spec MAP_SIZE h); [lia|]. intros E. inv_ok. eauto.
Qed.

Lemma create_qp_tables client req r r' a :
  tables_ok r -> do_create_qp dv os client req r = Ok (r', a) -> tables_ok r'.
Proof.
  intros Hok. unfold do_create_qp. intros E. inv_ok.
  destruct (dv_create_qp _ _ _) as [d x] eqn:Ed.
  pose proof (keeps_of _ _ _ _ Ed (dl_create_qp _ _)) as Hk.
  destruct x as [[[[qp h] n] cap]|];
    [|simplify_eq; apply (same_tables_ok r); [by repeat split|done..]].
  inv_ok. destruct a2 as [r2 sp]. inv_ok. apply initCtrlShm_Ok in E2 as ->.
  apply index_Ok in E3 as [-> Hh]. apply store_qp_Ok in E1 as (tb & _ & ->); [|done]. simplify_eq.
  destruct (dl_create_qp_handle _ _ _ _ _ _ _ Ed) as [(H0 & Hn & Hl) Hhd].
  destruct Hok as [H1 H2 H3].
  split; simpl; [eapply in_step_mono; [intros k; apply Hk|done]| |eapply in_step_mono; [intros k; apply Hk|done]].
  eapply in_step_insert; eauto.
Qed.

Lemma destroy_cq_tables req r r' a :
  tables_ok r -> do_destroy_cq dv req r = Ok (r', a) -> tables_ok r'.
Proof.
  intros Hok. unfold do_destroy_cq. intros E. inv_ok. apply tbl_get_Ok in E0 as [Em Hh].
  destruct a0 as [cq|]; [|by simplify_eq].
  destruct (dv_destroy_cq _ _ _) as [d ret] eqn:Ed.
  pose proof (keeps_but_of _ _ _ _ _ _ Ed (dl_destroy_cq _ _)) as Hk.
  destruct Hok as [H1 H2 H3]. pose proof (st_obj _ _ _ _ _ H1 _ _ Em) as (_ & _ & Hhd).
  rewrite Hhd in Hk. unfold remove_piece in E.
  destruct (cq_shm _ !! _); simplify_eq; (split; simpl;
    [eapply in_step_delete; [done|intros k Hk'; by apply Hk]
    |eapply in_step_mono; [|done]; intros k; by apply Hk..]).
Qed.

Lemma destroy_qp_tables req r r' a :
  tables_ok r -> do_destroy_qp dv req r = Ok (r', a) -> tables_ok r'.
Proof.
  intros Hok. unfold do_destroy_qp. intros E. inv_ok. apply tbl_get_Ok in E0 as [Em Hh].
  destruct a0 as [qp|]; [|by simplify_eq].
  destruct (dv_destroy_qp _ _ _) as [d ret] eqn:Ed.
  pose proof (keeps_but_of _ _ _ _ _ _ Ed (dl_destroy_qp _ _)) as Hk.
  destruct Hok as [H1 H2 H3]. pose proof (st_obj _ _ _ _ _ H2 _ _ Em) as (_ & _ & Hhd).
  rewrite Hhd in Hk. unfold remove_piece in E.
  destruct (qp_shm _ !! _); simplify_eq; (split; simpl;
    [eapply in_step_mono; [|done]; intros k; by apply Hk
    |eapply in_step_delete; [done|intros k Hk'; by apply Hk]
    |eapply in_step_mono; [|done]; intros k; by apply Hk]).
Qed.

Lemma destroy_srq_tables req r r' a :
  tables_ok r -> do_destroy_srq dv req r = Ok (r', a) -> tables_ok r'.
Proof.
  intros Hok. unfold do_destroy_srq. intros E. inv_ok. apply tbl_get_Ok in E0 as [Em Hh].
  destruct a0 as [srq|]; [|by simplify_eq].
  destruct (dv_destroy_srq _ _ _) as [d ret] eqn:Ed.
  pose proof (keeps_but_of _ _ _ _ _ _ Ed (dl_destroy_srq _ _)) as Hk.
  destruct Hok as [H1 H2 H3]. pose proof (st_obj _ _ _ _ _ H3 _ _ Em) as (_ & _ & Hhd).
  rewrite Hhd in Hk. unfold remove_piece in E.
  destruct (srq_shm _ !! _); simplify_eq; (split; simpl;
    [eapply in_step_mono; [|done]; intros k; by apply Hk..
    |eapply in_step_delete; [done|intros k Hk'; by apply Hk]]).
Qed.

(** ** Branches that leave the three tables alone *)

Lemma write_command_keeps d cmd d' e o : write_command dv d cmd = (d', e, o) -> keeps d d'.
Proof.
  unfold write_command. pose proof (dl_write d cmd) as Hk.
  destruct (dv_write dv d cmd) as [[[d1 n] err] out]. intros E. split_if; by simplify_eq.
Qed.

Definition plain_step r r' : Prop := same_tables r r' /\ keeps (r_dev r) (r_dev r').

Lemma plain_step_ok r r' : plain_step r r' -> tables_ok r -> tables_ok r'.
Proof. intros [Hs Hk]. by apply same_tables_ok. Qed.

Lemma plain_refl r : plain_step r r.
Proof. split; [by repeat split|apply keeps_refl]. Qed.

Lemma broadcast_plain hosts bs : forall r r' b, broadcast os hosts bs r = Ok (r', b) -> plain_step r r'.
Proof.
  induction hosts as [|h hosts IH]; intros r r' b E; simpl in E; [simplify_eq; apply plain_refl|].
  destruct (ro_udp os h) as [| |sent|]; [simplify_eq; apply plain_refl|by eapply IH| |done].
  apply IH in E. by destruct sent.
Qed.

Lemma reg_piece_plain client n name r r' p : reg_piece os client n name r = (r', p) -> plain_step r r'.
Proof.
  unfold reg_piece, addShmPiece_client, addShmPiece_name.
  destruct name; [|destruct (shm_map r !! _)]; intros E; simplify_eq;
    (split; [by repeat split|apply keeps_refl]).
Qed.

End Tables.

#[export] Hint Resolve dl_alloc_pd dl_dealloc_pd dl_req_notify_cq dl_modify_qp dl_reg_mr dl_dereg_mr
  dl_create_comp_channel dl_destroy_comp_channel dl_get_cq_event dl_ack_cq_events dl_create_ah
  dl_destroy_ah dl_modify_srq keeps_refl : device.

(** Opens the calls of a branch and leaves the steps of the device. *)
Ltac open_branch E :=
  repeat (inv_ok; try match type of E with
    | context [let '(_, _) := ?c in _] => destruct c eqn:?
    | context [match ?x with Some _ => _ | None => _ end] => destruct x eqn:?
    end); simplify_eq.
Ltac plain_branch E :=
  open_branch E;
  (split; [by repeat split|]); simpl; eauto with device;
  try (eapply keeps_of; [eassumption|]; eauto with device).

Section Plain.
Context {D : Type} (dv : device D) `{!DeviceLaws dv} (os : router_os).
Implicit Types r : router D.

Lemma pd_plain req r r' a :
  do_alloc_pd dv r = Ok (r', a) \/ do_dealloc_pd dv req r = Ok (r', a) -> plain_step dv r r'.
Proof. intros [E|E]; [unfold do_alloc_pd in E|unfold do_dealloc_pd in E]; plain_branch E. Qed.

Lemma queue_plain req r r' a :
  do_req_notify_cq dv req r = Ok (r', a) \/ do_modify_qp dv req r = Ok (r', a) \/
  do_modify_srq dv req r = Ok (r', a) -> plain_step dv r r'.
Proof.
  intros [E|[E|E]]; [unfold do_req_notify_cq in E|unfold do_modify_qp in E|unfold do_modify_srq in E];
    plain_branch E.
Qed.

Lemma channel_plain req r r' a :
  do_create_comp_channel dv r = Ok (r', a) \/ do_destroy_comp_channel dv req r = Ok (r', a) \/
  do_get_cq_event dv req r = Ok (r', a) \/ do_ack_cq_event dv req r = Ok (r', a) -> plain_step dv r r'.
Proof.
  intros [E|[E|[E|E]]]; [unfold do_create_comp_channel in E|unfold do_destroy_comp_channel in E
    |unfold do_get_cq_event in E|unfold do_ack_cq_event in E]; plain_branch E.
Qed.

Lemma ah_plain req r r' a :
  do_create_ah dv req r = Ok (r', a) \/ do_destroy_ah dv req r = Ok (r', a) -> plain_step dv r r'.
Proof. intros [E|E]; [unfold do_create_ah in E|unfold do_destroy_ah in E]; plain_branch E. Qed.

Lemma plain_trans r1 r2 r3 : plain_step dv r1 r2 -> plain_step dv r2 r3 -> plain_step dv r1 r3.
Proof.
  intros [(?&?&?&?&?&?&?&?&?) K1] [(?&?&?&?&?&?&?&?&?) K2]. split; [|by intros k h ?; apply K2, K1].
  repeat split; congruence.
Qed.

Lemma reg_mr_plain client req r r' a : do_reg_mr dv os client req r = Ok (r', a) -> plain_step dv r r'.
Proof.
  unfold do_reg_mr. intros E. inv_ok. destruct (reg_piece _ _ _ _ _) as [r1 p] eqn:Ep.
  apply (plain_trans _ r1); [by eapply reg_piece_plain|]. plain_branch E.
Qed.

Lemma mapping_plain req r r' a : do_reg_mr_mapping os req r = Ok (r', a) -> plain_step dv r r'.
Proof.
  unfold do_reg_mr_mapping. intros E. inv_ok. destruct a0 as [r2 b]. simplify_eq.
  eapply plain_trans; [|by eapply broadcast_plain]. split; [by repeat split|apply keeps_refl].
Qed.

Lemma dereg_mr_plain req r r' a : do_dereg_mr dv req r = Ok (r', a) -> plain_step dv r r'.
Proof. unfold do_dereg_mr. intros E. plain_branch E. Qed.

Lemma Ok_fst {A B} (x x' : A) (y y' : B) : Ok (x, y) = Ok (x', y') -> x = x'.
Proof. congruence. Qed.

Lemma set_dev_plain d r : keeps (r_dev r) d -> plain_step dv r (set_dev d r).
Proof. intros Hk. split; [by repeat split|done]. Qed.

Lemma query_qp_resp_keeps d cmd n d' e v : ibv_cmd_query_qp_resp dv os d cmd n = Ok (d', e, v) -> keeps d d'.
Proof.
  unfold ibv_cmd_query_qp_resp. intros E. apply bind_Ok in E as (c & _ & E).
  destruct (write_command dv d c) as [[d1 e1] o] eqn:Ew. apply Ok_fst in E. injection E as <- _.
  by eapply write_command_keeps.
Qed.

Lemma create_flow_resp_keeps d cmd n x d' e v :
  ibv_cmd_create_flow_resp dv os d cmd n x = Ok (d', e, v) -> keeps d d'.
Proof.
  unfold ibv_cmd_create_flow_resp. intros E. apply bind_Ok in E as (c & _ & E).
  apply bind_Ok in E as (u & _ & E). apply bind_Ok in E as (c2 & _ & E).
  destruct (write_command dv d c2) as [[d1 e1] o] eqn:Ew. apply Ok_fst in E. injection E as <- _.
  by eapply write_command_keeps.
Qed.

Lemma exp_query_dev_plain req r r' a :
  do_exp_query_dev dv os req r = Ok (r', a) -> plain_step dv r r'.
Proof.
  unfold do_exp_query_dev, ibv_exp_cmd_query_device_resp.
  destruct (write_command _ _ _) as [[d e] o] eqn:Ew. intros <-%Ok_fst.
  by eapply set_dev_plain, write_command_keeps.
Qed.

Lemma destroy_flow_plain req r r' a :
  do_destroy_flow dv os req r = Ok (r', a) -> plain_step dv r r'.
Proof.
  unfold do_destroy_flow, ibv_cmd_destroy_flow_resp.
  destruct (write_command _ _ _) as [[d e] o] eqn:Ew. intros <-%Ok_fst.
  by eapply set_dev_plain, write_command_keeps.
Qed.

Lemma query_qp_plain req r r' a : do_query_qp dv os req r = Ok (r', a) -> plain_step dv r r'.
Proof.
  unfold do_query_qp. intros E. apply bind_Ok in E as ([[d e] v] & E1 & E). apply Ok_fst in E as <-.
  by eapply set_dev_plain, query_qp_resp_keeps.
Qed.

Lemma create_flow_plain req r r' a : do_create_flow dv os req r = Ok (r', a) -> plain_step dv r r'.
Proof.
  unfold do_create_flow. intros E. apply bind_Ok in E as ([[d e] v] & E1 & E). apply Ok_fst in E as <-.
  by eapply set_dev_plain, create_flow_resp_keeps.
Qed.

(** The branch of any request keeps the tables in step. *)
Lemma control_tables h req r r' a :
  tables_ok dv r -> control dv os h req r = Ok (r', a) -> tables_ok dv r'.
Proof.
  intros Hok E. unfold control in E.
  destruct (func h); try (simplify_eq; done).
  all: first
    [eapply create_cq_tables; by eauto|eapply create_qp_tables; by eauto
    |eapply create_srq_tables; by eauto|eapply destroy_cq_tables; by eauto
    |eapply destroy_qp_tables; by eauto|eapply destroy_srq_tables; by eauto
    |apply (plain_step_ok dv r); [|done]].
  all: eauto using pd_plain, queue_plain, channel_plain, ah_plain, reg_mr_plain, mapping_plain,
    dereg_mr_plain, exp_query_dev_plain, destroy_flow_plain, query_qp_plain, create_flow_plain.
  all: apply Ok_fst in E as <-; apply plain_refl.
  Unshelve. all: exact req.
Qed.

(** ** Every state the router reaches *)

Definition turn_router (t : turn D) : router D :=
  match t with Next _ r | Done _ _ r | Elsewhere _ _ r => r end.

Lemma finish_router a th r t : finish os a th r = Ok t -> turn_router t = r.
Proof.
  unfold finish, write_rsp. destruct a; cbn [th_wr]; intros E; simplify_eq; try done.
  all: destruct (th_wr th); cbn [mbind res_bind] in E; [done|];
       repeat split_if; simplify_eq; done.
Qed.

Lemma one_turn_tables th r t :
  tables_ok dv r -> one_turn dv os th r = Ok t -> tables_ok dv (turn_router t).
Proof.
  intros Hok. unfold one_turn. destruct (th_in th) as [|[hb|] rest]; try done.
  split_if; [intros E; by simplify_eq|]. destruct (func_of_code _) as [f|]; [|intros E; by simplify_eq].
  destruct (fixed_format f) as [[q rt]|].
  - intros E. inv_ok. destruct a as [th2|]; [|by simplify_eq]. inv_ok. destruct a as [r1 a].
    rewrite (finish_router _ _ _ _ E). by eapply control_tables.
  - split_if; intros E; [by rewrite (finish_router _ _ _ _ E)|by simplify_eq].
Qed.

(** The router as its constructor leaves it. *)
Definition fresh_router (d : D) : router D :=
  mkFfr d (mkRouter ∅ ∅ ∅ ∅ ∅) ∅ ∅ ∅ ∅ ∅ ∅ ∅ [] [] [] ∅ ∅ ∅ ∅ [] [] [].

(** Connections are served in any order, one turn at a time; in between datagrams
    arrive. *)
Inductive reachable (d0 : D) : router D -> Prop :=
| reach_start : reachable d0 (fresh_router d0)
| reach_turn th r t : reachable d0 r -> one_turn dv os th r = Ok t -> reachable d0 (turn_router t)
| reach_udp buf bs r : reachable d0 r -> reachable d0 (udp_serve buf bs r).1.

Lemma reachable_tables d0 r : reachable d0 r -> tables_ok dv r.
Proof.
  induction 1 as [|th r t _ IH E|buf bs r _ IH].
  - split; apply in_step_empty.
  - by eapply one_turn_tables.
  - destruct IH. by split.
Qed.

End Plain.

(** C15: In every state of the router between two requests, whatever requests its
    connections bring and in whatever order they are served, one at a time, with a device
    that does not give out the handle of a live object: each handle in the vectors that the
    polling thread goes through is inside of the tables, occurs once, and has both its
    control piece and its object; and no object in the tables is missing from the vectors.
    A branch of HandleRequest is one step here: while one that destroys an object runs, the
    object is gone from its table before its handle leaves the vector. *)
Theorem polled_handles_have_objects {D} (dv : device D) `{!DeviceLaws dv} os d0 r :
  reachable dv os d0 r ->
  NoDup (qp_shm_vec r) /\ NoDup (cq_shm_vec r) /\ NoDup (srq_shm_vec r) /\
  (forall h, h ∈ qp_shm_vec r <-> exists qp sp,
     0 <= h < MAP_SIZE /\ qp_map (r_data r) !! h = Some qp /\ qp_shm r !! h = Some sp) /\
  (forall h, h ∈ cq_shm_vec r <-> exists cq sp,
     0 <= h < MAP_SIZE /\ cq_map (r_data r) !! h = Some cq /\ cq_shm r !! h = Some sp) /\
  (forall h, h ∈ srq_shm_vec r <-> exists srq sp,
     0 <= h < MAP_SIZE /\ srq_map (r_data r) !! h = Some srq /\ srq_shm r !! h = Some sp).
Proof.
  intros Hr. destruct (reachable_tables dv os d0 r Hr) as [H1 H2 H3].
  split_and!; try by eapply st_nodup.
  all: by eapply in_step_elem.
Qed.

(** ** A device that counts *)

(** Every new object, whatever its kind, gets the next number as its handle. *)
Definition counting_device : device nat :=
  let handle (n : nat) := Z.of_nat n in
  mkDevice nat 9 1 (VS []) (fun _ _ => (0, VS []))
    (fun n => (S n, Some (handle n, handle n))) (fun n _ => (n, 0))
    (fun n cqe _ _ => (S n, Some (handle n, handle n, cqe))) (fun n _ => (n, 0)) (fun n _ _ => (n, 0))
    (fun n q => (S n, Some (mkRqp (handle n) IBV_QPT_RC, handle n, 256 + handle n, qr_cap q)))
    (fun n _ => (n, 0)) (fun n _ _ _ => (n, 0))
    (fun n _ _ _ _ => (S n, Some (handle n, handle n, 100 + handle n, 100 + handle n)))
    (fun n _ => (n, 0))
    (fun n => (S n, Some (handle n, handle n))) (fun n _ => (n, 0))
    (fun n _ => (n, None)) (fun n cq _ => (n, (cq, 0, 0)))
    (fun n _ _ => (S n, Some (handle n, handle n))) (fun n _ => (n, 0))
    (fun n _ _ => (S n, Some (handle n, handle n))) (fun n _ _ _ => (n, 0)) (fun n _ => (n, 0))
    (fun n bs => (n, Z.of_nat (length bs), 0, [])).

#[export] Instance counting_laws : DeviceLaws counting_device.
Proof.
  refine (Build_DeviceLaws _ _ (fun n _ h => 0 <= h < Z.of_nat n) (fun cq => cq) rq_id (fun s => s)
    _ _ _ _ _ _ _ _ _ _ _ _ _ _ _ _ _ _ _ _ _ _ _).
  all: simpl; intros; simplify_eq; simpl; try lia.
  all: split; [split_and!; lia|done].
Defined.

Definition example_os : router_os :=
  mkRouterOs (fun _ _ => Some 1048576) (fun _ => None) [[49]] (fun _ => Answered true) 0 4096.

(** A connection that asks for a completion queue. *)
Definition cq_thread : thread :=
  mkThread (reads_of 5 IBV_CREATE_CQ
              (encode 0 t_IBV_CREATE_CQ_REQ (VS [VI (u32 (-1)); VI 0; VI 16]))) [108] [] [] [].

Lemma polled_handles_have_objects_witness :
  exists t, one_turn counting_device example_os cq_thread (fresh_router 3%nat) = Ok t /\
    cq_shm_vec (turn_router t) = [3] /\ NoDup (cq_shm_vec (turn_router t)).
Proof.
  destruct (one_turn counting_device example_os cq_thread (fresh_router 3%nat)) as [t| | |] eqn:E;
    [|vm_compute in E; discriminate E..].
  exists t. split; [done|].
  pose proof (reach_turn counting_device example_os 3%nat _ _ _
    (reach_start counting_device example_os 3%nat) E) as Hr.
  destruct (polled_handles_have_objects counting_device example_os 3%nat _ Hr) as (_ & Hn & _).
  split; [|done]. vm_compute in E. by injection E as <-.
Defined.
