(* ===== verification/RouterNames.v ===== *)
(** * Names of shared-memory segments

    Two regions or two queues of one host share memory exactly when their segments
    have one name.  The names are made of decimal numbers: here, that different
    numbers give different names and that the names fit the arrays of the responses. *)

From stdpp Require Import pretty.
From S2P Require Import Prelude CLayout FfTypes Verbs MemPool CtrlShm Client.
From S2P Require Import Router Wire ReqRouter CmdCtrl RouterCtl.

Lemma bytes_of_cons c s : bytes_of (String c s) = Z.of_N (Ascii.N_of_ascii c) :: bytes_of s.
Proof. done. Qed.

Lemma bytes_of_app s1 s2 : bytes_of (s1 +:+ s2) = bytes_of s1 ++ bytes_of s2.
Proof.
  induction s1 as [|c s1 IH]; [done|].
  change (String c s1 +:+ s2) with (String c (s1 +:+ s2)). by rewrite !bytes_of_cons, IH.
Qed.

Lemma bytes_of_inj s1 : forall s2, bytes_of s1 = bytes_of s2 -> s1 = s2.
Proof.
  induction s1 as [|c1 s1 IH]; intros [|c2 s2] E; try done.
  rewrite !bytes_of_cons in E. injection E as E1 E2. f_equal; [|by apply IH].
  rewrite <- (Ascii.ascii_N_embedding c1), <- (Ascii.ascii_N_embedding c2). f_equal. lia.
Qed.

(** ** Decimal numbers *)

Definition digit (b : Z) : Prop := 48 <= b <= 57.

Lemma char_digit x : digit (Z.of_N (Ascii.N_of_ascii (pretty_N_char x))).
Proof. unfold pretty_N_char, digit. repeat case_match; by vm_compute. Qed.

Lemma go_digits x : forall s, Forall digit (bytes_of s) -> Forall digit (bytes_of (pretty_N_go x s)).
Proof.
  induction (N.lt_wf_0 x) as [x _ IH]; intros s Hs.
  assert (x = 0 \/ 0 < x)%N as [->|Hx] by lia; [done|].
  rewrite pretty_N_go_step by done. apply IH; [by apply N.div_lt|].
  rewrite bytes_of_cons. constructor; [apply char_digit|done].
Qed.

Lemma go_length k : forall x s, (x < 10 ^ N.of_nat k)%N ->
  (length (bytes_of (pretty_N_go x s)) <= k + length (bytes_of s))%nat.
Proof.
  induction k as [|k IH]; intros x s Hx.
  - change (10 ^ N.of_nat 0)%N with 1%N in Hx. replace x with 0%N by lia. rewrite pretty_N_go_0. lia.
  - assert (x = 0 \/ 0 < x)%N as [->|Hp] by lia; [rewrite pretty_N_go_0; lia|].
    rewrite pretty_N_go_step by done. etrans; [apply IH|rewrite bytes_of_cons; simpl; lia].
    apply N.Div0.div_lt_upper_bound. rewrite Nat2N.inj_succ, N.pow_succ_r' in Hx. lia.
Qed.

Lemma decimal_digits n : 0 <= n -> Forall digit (bytes_of (decimal n)).
Proof.
  intros Hn. unfold decimal, pretty, pretty_Z. destruct n as [|n|n]; [|apply go_digits; done|lia].
  repeat constructor; by vm_compute.
Qed.

Lemma decimal_length n (k : nat) : (1 <= k)%nat -> 0 <= n < 10 ^ Z.of_nat k ->
  (length (bytes_of (decimal n)) <= k)%nat.
Proof.
  intros Hk Hn. unfold decimal, pretty, pretty_Z. destruct n as [|n|n]; [done| |lia].
  rewrite <- (Nat.add_0_r k). apply (go_length k (N.pos n) ""). lia.
Qed.

Lemma decimal_inj m n : bytes_of (decimal m) = bytes_of (decimal n) -> m = n.
Proof. intros E%bytes_of_inj. by apply (inj pretty) in E. Qed.

(** ** Fields between dashes *)

Lemma split_at {A} (x : A) l1 : forall l2 r1 r2,
  x ∉ l1 -> x ∉ l2 -> l1 ++ x :: r1 = l2 ++ x :: r2 -> l1 = l2 /\ r1 = r2.
Proof.
  induction l1 as [|a l1 IH]; intros [|b l2] r1 r2 H1 H2 E; simpl in E; simplify_eq; try set_solver.
  destruct (IH l2 r1 r2) as [-> ->]; set_solver.
Qed.

Lemma no_dash n : 0 <= n -> 45 ∉ bytes_of (decimal n).
Proof. intros Hn%decimal_digits Hd. rewrite Forall_forall in Hn. apply Hn in Hd. unfold digit in Hd. lia. Qed.

Lemma pool_name_bytes client mem_size count :
  pool_name client mem_size count =
  bytes_of "client-" ++ bytes_of (decimal client) ++ 45 :: bytes_of "memsize-" ++
  bytes_of (decimal mem_size) ++ 45 :: bytes_of "index-" ++ bytes_of (decimal count).
Proof.
  unfold pool_name. by rewrite !bytes_of_app.
Qed.

Lemma pool_name_inj c n i c' n' i' :
  0 <= c -> 0 <= n -> 0 <= i -> 0 <= c' -> 0 <= n' -> 0 <= i' ->
  pool_name c n i = pool_name c' n' i' -> c = c' /\ n = n' /\ i = i'.
Proof.
  intros. rewrite !pool_name_bytes in *.
  match goal with E : _ ++ _ = _ ++ _ |- _ => apply (inj (app _)) in E; rename E into E0 end.
  apply split_at in E0 as [E1 E0]; [|by apply no_dash..]. apply (inj (app _)) in E0.
  apply split_at in E0 as [E2 E0]; [|by apply no_dash..]. apply (inj (app _)) in E0.
  by split_and!; apply decimal_inj.
Qed.

(** ** Bytes and length *)

Lemma decimal_nonzero n : 0 <= n -> Forall (fun b => b <> 0) (bytes_of (decimal n)).
Proof. intros Hn. eapply Forall_impl; [by apply decimal_digits|]. unfold digit. simpl. lia. Qed.

Lemma text_nonzero s : forallb (fun b => negb (b =? 0)) (bytes_of s) = true ->
  Forall (fun b => b <> 0) (bytes_of s).
Proof. intros E. apply Forall_forall. intros b Hb. rewrite forallb_forall in E.
  apply list_elem_of_In in Hb. apply E in Hb. blia. Qed.

Lemma pool_name_nonzero c n i : 0 <= c -> 0 <= n -> 0 <= i ->
  Forall (fun b => b <> 0) (pool_name c n i).
Proof.
  intros. rewrite pool_name_bytes. rewrite !Forall_app, !Forall_cons, !Forall_app, !Forall_cons, !Forall_app.
  split_and!; try done; by (apply decimal_nonzero || apply text_nonzero).
Qed.

Lemma pool_name_fits c n i : 0 <= c < 2 ^ 31 -> 0 <= n < 2 ^ 31 -> 0 <= i < 2 ^ 31 ->
  (length (pool_name c n i) <= 60)%nat.
Proof.
  intros. rewrite pool_name_bytes. repeat (rewrite length_app; simpl length).
  pose proof (decimal_length c 10 ltac:(lia) ltac:(lia)).
  pose proof (decimal_length n 10 ltac:(lia) ltac:(lia)).
  pose proof (decimal_length i 10 ltac:(lia) ltac:(lia)). lia.
Qed.

(** ** The pool *)

Section Pool.
Context {D : Type} (os : router_os).
Implicit Types r : router D.

(** Registrations without a name, one after the other: client and size of each. *)
Definition add_pieces (reqs : list (Z * Z)) r : router D :=
  fold_left (fun r q => (addShmPiece_client os q.1 q.2 r).1) reqs r.

(** Every piece of the pool is named after its client, its size and its position. *)
Definition pool_named r : Prop :=
  forall c l (i : nat) sp, shm_pool r !! c = Some l -> l !! i = Some sp ->
    0 <= c /\ 0 <= piece_size sp /\ piece_name sp = pool_name c (piece_size sp) (Z.of_nat i).

Lemma added_piece c n count : exists ptr,
  default (mkPiece (pool_name c n count) n (u64 (-1))) (open_piece os (pool_name c n count) n)
  = mkPiece (pool_name c n count) n ptr.
Proof. unfold open_piece. destruct (ro_open os _ n); simpl; eauto. Qed.

Lemma add_piece_named c n r : 0 <= c -> 0 <= n -> pool_named r ->
  pool_named (addShmPiece_client os c n r).1.
Proof.
  intros Hc Hn Hp c' l i sp Hl Hi. unfold addShmPiece_client in Hl.
  destruct (added_piece c n (Z.of_nat (length (default [] (shm_pool r !! c))))) as [ptr Ep].
  simpl in Hl. rewrite Ep in Hl. destruct (decide (c' = c)) as [->|Hne].
  - rewrite lookup_insert_eq in Hl. injection Hl as <-.
    apply lookup_app_Some in Hi as [Hi|[Hlen Hi]].
    + destruct (shm_pool r !! c) as [l|] eqn:El; simpl in Hi; [by eapply Hp|done].
    + apply list_lookup_singleton_Some in Hi as [Hi <-]. simpl. split_and!; [done|done|].
      do 2 f_equal. lia.
  - rewrite lookup_insert_ne in Hl by done. by eapply Hp.
Qed.

Lemma add_pieces_named reqs : forall r,
  Forall (fun q => 0 <= q.1 /\ 0 <= q.2) reqs -> pool_named r -> pool_named (add_pieces reqs r).
Proof.
  induction reqs as [|[c n] reqs IH]; intros r Hf Hp; [done|].
  apply Forall_cons in Hf as [[Hc Hn] Hf]. apply IH; [done|]. by apply add_piece_named.
Qed.

End Pool.

(** However many regions are registered, by however many clients and of whatever
    sizes, no two of them get a segment of the same name: the pool's pieces are told
    apart by the name alone, so that one client's memory is never mapped for
    another. *)
Theorem registered_segments_distinct {D} (os : router_os) (r : router D) reqs c l i sp c' l' i' sp' :
  shm_pool r = ∅ -> Forall (fun q => 0 <= q.1 /\ 0 <= q.2) reqs ->
  shm_pool (add_pieces os reqs r) !! c = Some l -> l !! i = Some sp ->
  shm_pool (add_pieces os reqs r) !! c' = Some l' -> l' !! i' = Some sp' ->
  piece_name sp = piece_name sp' -> c = c' /\ i = i'.
Proof.
  intros Hr Hf Hl Hi Hl' Hi' E.
  assert (pool_named (add_pieces os reqs r)) as Hp.
  { apply add_pieces_named; [done|]. intros ? ? ? ? Hk. by rewrite Hr in Hk. }
  destruct (Hp _ _ _ _ Hl Hi) as (H1 & H2 & H3), (Hp _ _ _ _ Hl' Hi') as (H4 & H5 & H6).
  rewrite H3, H6 in E. apply pool_name_inj in E as (-> & _ & ?); [|lia..]. split; [done|lia].
Qed.

Definition pool_requests : list (Z * Z) := [(1, 10); (11, 0); (1, 10)].
Definition pool_os : router_os :=
  mkRouterOs (fun _ _ => Some 4096) (fun _ => None) [] (fun _ => Silent) 0 0.
Definition no_pieces : router unit :=
  mkFfr tt (mkRouter ∅ ∅ ∅ ∅ ∅) ∅ ∅ ∅ ∅ ∅ ∅ ∅ [] [] [] ∅ ∅ ∅ ∅ [] [] [].
Definition filled_pool : router unit := add_pieces pool_os pool_requests no_pieces.

Lemma registered_segments_distinct_witness :
  exists l sp sp', shm_pool filled_pool !! 1 = Some l /\ l !! 0%nat = Some sp /\ l !! 1%nat = Some sp' /\
    piece_name sp <> piece_name sp'.
Proof.
  destruct (shm_pool filled_pool !! 1) as [l|] eqn:El; [|vm_compute in El; discriminate El].
  assert (length l = 2%nat) as Hlen by (vm_compute in El; injection El as <-; reflexivity).
  destruct l as [|sp [|sp' l]]; try discriminate Hlen.
  exists (sp :: sp' :: l), sp, sp'. split_and!; [done..|]. intros E.
  assert (Forall (fun q => 0 <= q.1 /\ 0 <= q.2) pool_requests) as Hf.
  { unfold pool_requests. rewrite !Forall_cons. simpl. split_and!; try lia. apply Forall_nil_2. }
  by destruct (registered_segments_distinct pool_os no_pieces pool_requests 1 _ 0 sp 1 _ 1 sp' eq_refl Hf El eq_refl El
    eq_refl E).
Defined.
