(* ===== verification/RouterRegion.v ===== *)
(** * Registering a region, from the application to the device

    [ibv_cmd_reg_mr] of the client against the router's branches: the two requests as
    the client sends them, served by a connection thread, with the responses the
    client then reads.  Afterwards an address of the region, as the client posts it,
    is the device's address of the same byte; and the routers of the other hosts
    translate it the same way. *)

From S2P Require Import Prelude CLayout FfTypes Verbs MemPool WrQueue CtrlShm Client PostSend.
From S2P Require Import Router RouterSpec Wire ReqRouter CmdCtrl CmdSpec RouterCtl RouterServe.
From S2P Require Import RouterInv RouterNames.

(** The client's end of a connection on which the router wrote [out]. *)
Definition served (n : Z) (out : list Z) : conn :=
  mkConn 3 0 [12; n] [Some out] RmNoControl [].

Lemma served_answers n j rt v : has_type rt v -> answers (served n (encode j rt v)) n rt v.
Proof.
  intros Ht. split; try done. exists [encode j rt v], j. split; [done|]. simpl. apply app_nil_r.
Qed.

(** When every host answers, each has been sent the datagram. *)
Lemma broadcast_all {D} ros hosts bs : forall r : router D,
  Forall (fun x => ro_udp ros x = Answered true) hosts ->
  broadcast ros hosts bs r = Ok (set_udp (udp_sent r ++ map (fun x => (x, bs)) hosts) r, true).
Proof.
  induction hosts as [|x hosts IH]; intros r Hf; cbn [broadcast map].
  - rewrite app_nil_r. by destruct r.
  - apply Forall_cons in Hf as [-> Hf]. rewrite IH by done. cbn [udp_sent set_udp].
    by rewrite <- app_assoc.
Qed.

Section Region.
Context {M : Type} `{LkeyMapLaws M} {D : Type} (dv : device D) (ros : router_os).
Context (p : proc M) (r : router D) (id : Z) (pd : CmdCtrl.ibv_pd) (addr length access : Z)
  (ks : list conn) (pdv base : Z) (d : D) (mrv h lkey rkey shm : Z) (content : Z -> Z) (lk' : M).

(** How many pieces the client has, and the name of the next one. *)
Definition pool_count : Z := Z.of_nat (List.length (default [] (shm_pool r !! id))).
Definition region_name : list Z := pool_name id length pool_count.

(** The client is connected and its domain is one of the router's; the router can open
    the segment and the device register it; the other hosts answer; the client can map
    the segment, and its key map has room. *)
Record region_setup : Prop := {
  rs_env : env_ok (p_env p) id;
  rs_id : 0 <= id < 2 ^ 31;
  rs_pd : 0 <= CmdCtrl.pd_handle pd < MAP_SIZE;
  rs_pdv : pd_map r !! CmdCtrl.pd_handle pd = Some pdv;
  rs_addr : 0 <= addr < 2 ^ 64;
  rs_len : 0 <= length < 2 ^ 31;
  rs_count : pool_count < 2 ^ 31;
  rs_base : 0 <= base < 2 ^ 64;
  rs_open : ro_open ros region_name length = Some base;
  rs_dev : dv_reg_mr dv (r_dev r) pdv base length (s32 (u32 access)) = (d, Some (mrv, h, lkey, rkey));
  rs_keys : 0 <= h < 2 ^ 32 /\ 0 <= lkey < 2 ^ 32 /\ 0 <= rkey < 2 ^ 32;
  rs_hosts : Forall (fun x => ro_udp ros x = Answered true) (ro_hosts ros);
  rs_shm : 0 <= shm < 2 ^ 64;
  rs_mmap : os_mmap (p_os p) region_name length
              (if addr mod (4 * 1024) =? 0 then Some addr else None) = Some (shm, content);
  rs_ins : lk_insert (map_lkey_to_mrshm (p_cl p)) lkey (mkMrShm addr shm) = Ok lk' }.

(** The bytes of the two requests. *)
Definition reg_body : list Z := body_bytes (reg_mr_req p pd length access []).
Definition map_body : list Z := body_bytes (mapping_req p addr lkey shm).

Definition reg_rsp : cval := mr_rsp h lkey rkey region_name (ro_junk ros).

Lemma name_ok : region_setup ->
  Forall (fun b => b <> 0) region_name /\ Z.of_nat (List.length region_name) + 1 <= 100.
Proof.
  intros []. assert (0 <= pool_count) as Hc by apply Nat2Z.is_nonneg.
  unfold region_name. split; [apply pool_name_nonzero; lia|].
  pose proof (pool_name_fits id length pool_count ltac:(lia) ltac:(lia) ltac:(lia)). lia.
Qed.

Lemma reg_rsp_typed : region_setup -> has_type t_IBV_REG_MR_RSP reg_rsp.
Proof.
  intros Hs. destruct (name_ok Hs) as [_ Hn]. destruct (rs_keys Hs) as (? & ? & ?). apply ht_struct.
  do 3 (constructor; [apply ht_int; [tauto|done]|]).
  constructor; [|constructor]. apply ht_bytes; [by left; do 2 eexists|]. by rewrite c_array_length.
Qed.

Lemma reg_body_val : region_setup ->
  Z.of_nat (List.length reg_body) = sizeof t_IBV_REG_MR_REQ /\
  decode t_IBV_REG_MR_REQ reg_body
  = VS [VI (CmdCtrl.pd_handle pd); VI (u32 length); VI (u32 access); VB (c_array 100 (junk p) [])].
Proof. intros []. apply has_type_wire, (reg_req_typed p id pd length access content). unfold MAP_SIZE in *. lia. Qed.

(** The router after the first request. *)
Definition after_reg : router D :=
  let r1 := (addShmPiece_client ros id length r).1 in
  let r2 := set_dev d r1 in
  let sp := mkPiece region_name length base in
  let r3 := set_mr (tbl_put (mr_map r2) h mrv) (tbl_put (shmr_map r2) h sp) r2 in
  set_data (set_lkey_ptr (<[lkey := base]> (lkey_ptr (r_data r3))) (r_data r3)) r3.

Lemma reg_served : region_setup ->
  one_turn dv ros (asking id IBV_REG_MR reg_body (sizeof t_IBV_REG_MR_RSP)) r
  = Ok (Next (mkThread [] [] (overwrite [] reg_body) [] [encode (ro_junk ros) t_IBV_REG_MR_RSP reg_rsp])
          after_reg).
Proof.
  intros Hs. destruct (reg_body_val Hs) as [Hl Hv].
  destruct (has_type_wire (ro_junk ros) _ _ (reg_rsp_typed Hs)) as [Hrl _]. rewrite <- Hrl.
  destruct Hs. eapply request_replied; [reflexivity|lia|done|].
  unfold control. cbn [func client_id request_val]. rewrite Hv. unfold do_reg_mr.
  change (fb _ 3) with (c_array 100 (junk p) []). rewrite cstring_c_array by constructor.
  cbn [of_option mbind res_bind reg_piece]. unfold fi, fu. simpl (vint _).
  rewrite s32_u32 by lia. unfold addShmPiece_client. fold pool_count. fold region_name.
  unfold open_piece at 1. rewrite rs_open0. cbn [mbind option_bind].
  unfold tbl_get. cbn [pd_map set_pieces]. rewrite index_in by done. cbn [mbind res_bind].
  rewrite rs_pdv0. cbn [piece_ptr piece_size].
  change (r_dev (set_pieces _ _ _)) with (r_dev r). rewrite rs_dev0.
  unfold after_reg, addShmPiece_client. done.
Qed.

(** The datagram the other routers get, and the router after the second request. *)
Definition datagram : list Z :=
  encode (ro_junk ros) t_IBV_REG_MR_MAPPING_REQ (VS [VI lkey; VI addr; VI base]).
Definition after_map : router D :=
  let f := r_data after_reg in
  let r1 := set_data (set_lkey_ptr (<[lkey := base]> (lkey_ptr f)) f) after_reg in
  set_udp (udp_sent r1 ++ map (fun x => (x, datagram)) (ro_hosts ros)) r1.

Lemma map_body_val : region_setup ->
  Z.of_nat (List.length map_body) = sizeof t_IBV_REG_MR_MAPPING_REQ /\
  decode t_IBV_REG_MR_MAPPING_REQ map_body = VS [VI lkey; VI addr; VI shm].
Proof.
  intros []. apply has_type_wire, ht_struct.
  repeat (constructor; [apply ht_int; [tauto|]|]); [apply rs_keys0|done..|constructor].
Qed.

Lemma map_served : region_setup ->
  one_turn dv ros (asking id IBV_REG_MR_MAPPING map_body (sizeof t_IBV_REG_MR_MAPPING_RSP)) after_reg
  = Ok (Next (mkThread [] [] (overwrite [] map_body) []
                [encode (ro_junk ros) t_IBV_REG_MR_MAPPING_RSP (vret 0)]) after_map).
Proof.
  intros Hs. destruct (map_body_val Hs) as [Hl Hv]. destruct Hs.
  change (sizeof t_IBV_REG_MR_MAPPING_RSP)
    with (Z.of_nat (List.length (encode (ro_junk ros) t_IBV_REG_MR_MAPPING_RSP (vret 0)))).
  eapply request_replied; [reflexivity|lia|done|].
  unfold control. cbn [func client_id request_val]. rewrite Hv. unfold do_reg_mr_mapping.
  change (fu (VS [VI lkey; VI addr; VI shm]) 0) with lkey.
  change (fu (VS [VI lkey; VI addr; VI shm]) 1) with addr.
  assert (lkey_ptr (r_data after_reg) !! lkey = Some base) as -> by apply lookup_insert_eq.
  cbn [default]. rewrite broadcast_all by done. done.
Qed.

(** ** The client *)

Lemma client_setup : region_setup ->
  conns (p_ctl p) = served (sizeof t_IBV_REG_MR_REQ) (encode (ro_junk ros) t_IBV_REG_MR_RSP reg_rsp) ::
    served (sizeof t_IBV_REG_MR_MAPPING_REQ) (encode (ro_junk ros) t_IBV_REG_MR_MAPPING_RSP (vret 0)) :: ks ->
  exists k1 k2, reg_setup p id pd addr length k1 k2 ks h lkey rkey region_name (ro_junk ros) shm content 0 lk'.
Proof.
  intros Hs Hc. destruct (name_ok Hs) as [Hn _]. pose proof (reg_rsp_typed Hs) as Ht. destruct Hs.
  do 2 eexists. split; eauto; try (unfold MAP_SIZE in *; lia).
  - by apply served_answers.
  - apply served_answers. apply ht_struct. constructor; [apply ht_int; [tauto|done]|constructor].
Qed.

(** A router that hears the datagram translates the region's remote addresses. *)
Lemma datagram_heard buf (rr : router D) : region_setup ->
  rkey_mr_shm (udp_serve buf datagram rr).1 !! lkey = Some (mkMrShm addr base).
Proof.
  intros []. unfold udp_serve.
  assert (decode t_IBV_REG_MR_MAPPING_REQ (overwrite buf datagram) = VS [VI lkey; VI addr; VI base]) as ->;
    [|apply lookup_insert_eq].
  apply decode_prefix, ht_struct.
  repeat (constructor; [apply ht_int; [tauto|]|]); [apply rs_keys0|done..|constructor].
Qed.

End Region.

(** C8: Registering memory, end to end, when the router can open the segment, the
    device registers it, the other hosts answer, the client can map the segment and
    its key map has room, and when the block of the router's path has its spare byte:
    the client's two requests are answered by the router's threads, the call succeeds
    with the device's keys, and from then on an entry that lies in the region, with the
    offset the client puts into the request area and the base the router adds to it,
    has the address of the same byte of the region in the memory the device has
    registered.  Every router in the list of hosts has been sent the mapping; it is
    sent under the local key, so it is when the device gave the region the same
    remote key that a router which has heard it translates the remote addresses of
    one-sided operations on the region to that memory as well. *)
Theorem registered_region_reaches_device {M} `{LkeyMapLaws M} {D} (dv : device D) ros (p : proc M)
  (r : router D) id pd addr length access ks pdv base d mrv h lkey rkey shm content lk' :
  region_setup dv ros p r id pd addr length access pdv base d mrv h lkey rkey shm content lk' ->
  lk_wf (map_lkey_to_mrshm (p_cl p)) -> base + length < 2 ^ 64 ->
  exists th1 r1 th2 r2 out1 out2,
    one_turn dv ros (asking id IBV_REG_MR (reg_body p pd length access) (sizeof t_IBV_REG_MR_RSP)) r
      = Ok (Next th1 r1) /\ th_out th1 = [out1] /\
    one_turn dv ros (asking id IBV_REG_MR_MAPPING (map_body p addr lkey shm)
      (sizeof t_IBV_REG_MR_MAPPING_RSP)) r1 = Ok (Next th2 r2) /\ th_out th2 = [out2] /\
    (conns (p_ctl p) = served (sizeof t_IBV_REG_MR_REQ) out1 ::
                       served (sizeof t_IBV_REG_MR_MAPPING_REQ) out2 :: ks ->
     exists p', ibv_cmd_reg_mr p pd addr length access
       = Ok (p', mkMr h lkey rkey (region_name r id length) shm addr length (pd_context pd), 0) /\
       forall s, sge_lkey s = lkey -> addr <= sge_addr s < addr + length ->
         fix_sge (r_data r2) (sge_offset (map_lkey_to_mrshm (p_cl p')) s)
         = mkSge (base + (sge_addr s - addr)) (sge_length s) lkey) /\
    (forall host, host ∈ ro_hosts ros -> exists bs, (host, bs) ∈ udp_sent r2 /\
       (rkey = lkey -> forall buf (rr : router D) w, rdma_rkey (s_wr w) = rkey ->
         addr <= rdma_remote_addr (s_wr w) < addr + length ->
         fix_remote (rkey_mr_shm (udp_serve buf bs rr).1 !! rdma_rkey (s_wr w)) w
         = set_s_wr (set_w0 (base + (rdma_remote_addr (s_wr w) - addr)) (s_wr w)) w)).
Proof.
  intros Hs Hwf Hfit. do 6 eexists. split_and!.
  - by eapply reg_served.
  - reflexivity.
  - by eapply map_served.
  - reflexivity.
  - intros Hc. destruct (client_setup _ _ _ _ _ _ _ _ _ _ _ _ _ _ _ _ _ _ _ _ Hs Hc) as (k1 & k2 & Hreg).
    destruct (reg_mr_runs _ _ _ _ _ access _ _ _ _ _ _ _ _ _ _ _ _ Hreg) as (p' & E & Ecl & _).
    exists p'. split; [done|]. intros s Hk Ha. rewrite Ecl. unfold sge_offset. rewrite Hk.
    cbn [map_lkey_to_mrshm set_lkeys].
    destruct Hs. erewrite lk_get_insert by done. unfold fix_sge, lkey_base. cbn [sge_lkey sge_addr sge_length mr].
    change (lkey_ptr (r_data _)) with (<[lkey := base]> (lkey_ptr (r_data
      (after_reg ros r id length base d mrv h lkey)))).
    rewrite lookup_insert_eq, u64_add_u64. cbn [from_option]; unfold Datatypes.id.
    by rewrite u64_small by lia.
  - intros host Hh. exists (datagram ros addr base lkey). split.
    + cbn. apply elem_of_app. right. apply list_elem_of_fmap. by eexists.
    + intros Hkeys buf rr w Hk Ha. rewrite Hk, Hkeys. erewrite datagram_heard by done. unfold fix_remote.
      cbn [shm_ptr mr]. destruct Hs. rewrite u64_small by lia. do 2 f_equal. lia.
Qed.

(** ** An example *)

Import ExProc.

Definition pd_router : router nat := set_pd {[1 := 1]} (fresh_router 3%nat).
Definition out_reg : list Z :=
  encode 0 t_IBV_REG_MR_RSP (mr_rsp 3 103 103 (pool_name 5 100 0) 0).
Definition out_map : list Z := encode 0 t_IBV_REG_MR_MAPPING_RSP (vret 0).
Definition asking_proc : proc (gmap Z mr_shm) :=
  proc_with [served (sizeof t_IBV_REG_MR_REQ) out_reg;
             served (sizeof t_IBV_REG_MR_MAPPING_REQ) out_map].

Lemma region_setup_example :
  region_setup counting_device example_os asking_proc pd_router 5 pd1 65601 100 7 1 1048576 4%nat
    3 3 103 103 327680 (fun _ => 0) (<[103 := mkMrShm 65601 327680]> ∅).
Proof.
  split; try done; [apply ex_env_ok|].
  by repeat constructor.
Defined.

Lemma registered_region_reaches_device_witness :
  exists (r2 : router nat) p' mr, ibv_cmd_reg_mr asking_proc pd1 65601 100 7 = Ok (p', mr, 0) /\
    fix_sge (r_data r2) (sge_offset (map_lkey_to_mrshm (p_cl p')) (mkSge 65611 8 103))
    = mkSge 1048586 8 103.
Proof.
  destruct (registered_region_reaches_device counting_device example_os asking_proc pd_router 5 pd1 65601
    100 7 [] 1 1048576 4%nat 3 3 103 103 327680 (fun _ => 0) (<[103 := mkMrShm 65601 327680]> ∅)
    region_setup_example) as (th1 & r1 & th2 & r2 & out1 & out2 & E1 & O1 & E2 & O2 & Hc & _); [done..|].
  vm_compute in E1. injection E1 as <- <-. vm_compute in E2. injection E2 as <- <-.
  injection O1 as <-. injection O2 as <-.
  destruct Hc as (p' & Ep & Hf); [by vm_compute|].
  eexists _, p', _. split; [exact Ep|]. by apply Hf.
Defined.
