(* ===== verification/RouterQueues.v ===== *)
(** * Queue pairs at the router: creating and destroying, and what requests go astray

    A queue pair that is created and destroyed leaves the tables as they were, its
    bucket apart.  Requests that the branches mishandle: the shared queue a queue pair
    never asked for, the segment whose name is gone, the request that is served again
    when the read of the next one fails, handles that are no longer valid. *)

From S2P Require Import Prelude CLayout FfTypes Verbs MemPool CtrlShm Client.
From S2P Require Import Router Wire ReqRouter CmdCtrl CmdSpec TokenBucket RouterCtl RouterServe RouterInv.

Lemma erase_first_last h v : h ∉ v -> erase_first h (v ++ [h]) = v.
Proof.
  induction v as [|x v IH]; intros Hn; simpl; [by rewrite Z.eqb_refl|].
  destruct (Z.eqb_spec x h); [set_solver|]. rewrite IH by set_solver. done.
Qed.

Section Queues.
Context {D : Type} (dv : device D) (os : router_os).
Implicit Types r : router D.

(** What a successful creation has done. *)
Lemma create_qp_inv client req r r1 t v :
  do_create_qp dv os client req r = Ok (r1, Reply t v) ->
  exists q d qp h n cap tb sp,
    qp_request_of req r = Ok q /\ dv_create_qp dv (r_dev r) q = (d, Some (qp, h, n, cap)) /\
    0 <= h < MAP_SIZE /\ qp_bucket os client = Ok tb /\
    piece_name sp = bytes_of ("ctrlshm-qp" +:+ decimal h) /\
    t = t_IBV_CREATE_QP_RSP /\ v = VS [VI n; VI h; cap_val cap; name_field os sp] /\
    r1 = set_qp_shm (<[h := sp]> (qp_shm r)) (qp_shm_vec r ++ [h])
           (set_shm_log (idle_pieces r ++ [piece_ptr sp]) (unlinked_shm r)
             (set_buckets (<[h := tb]> (tokenbucket r))
               (set_data (set_qp_map (<[h := qp]> (qp_map (r_data r))) (r_data r)) (set_dev d r)))).
Proof.
  unfold do_create_qp. intros E. apply bind_Ok in E as (q & Eq & E).
  destruct (dv_create_qp dv (r_dev r) q) as [d [[[[qp h] n] cap]|]] eqn:Ed; [|done].
  apply bind_Ok in E as (r2 & E1 & E). apply bind_Ok in E as ([r3 sp] & E2 & E).
  apply bind_Ok in E as (i & E3 & E). apply index_Ok in E3 as [-> Hh].
  apply store_qp_Ok in E1 as (tb & Eb & ->); [|done].
  pose proof (initCtrlShm_Ok _ _ _ _ _ E2) as ->.
  exists q, d, qp, h, n, cap, tb, sp. injection E as <- <- <-. split_and!; try done; try lia.
  unfold initCtrlShm, open_piece in E2.
  destruct (ro_open os _ _); [|done]. simpl in E2. by injection E2 as _ <-.
Qed.

End Queues.

(** A queue pair that is created and then destroyed by the handle in the response:
    both requests are answered, the router's tables, pieces and polling vectors are what
    they were before, and its control segment's name is removed; the only trace is the
    rate limiter's bucket, which stays under the handle. *)
Theorem create_destroy_qp_restores {D} (dv : device D) `{!DeviceLaws dv} os client req r r1 t v :
  tables_ok dv r ->
  do_create_qp dv os client req r = Ok (r1, Reply t v) ->
  exists r2 ret, do_destroy_qp dv (VS [VI (fu v 1)]) r1 = Ok (r2, Reply t_IBV_DESTROY_QP_RSP (vret ret)) /\
    r_data r2 = r_data r /\ qp_shm r2 = qp_shm r /\ qp_shm_vec r2 = qp_shm_vec r /\
    cq_shm r2 = cq_shm r /\ cq_shm_vec r2 = cq_shm_vec r /\ srq_shm r2 = srq_shm r /\
    srq_shm_vec r2 = srq_shm_vec r /\ pd_map r2 = pd_map r /\ mr_map r2 = mr_map r /\
    unlinked_shm r2 = unlinked_shm r ++ [bytes_of ("ctrlshm-qp" +:+ decimal (fu v 1))] /\
    exists tb, qp_bucket os client = Ok tb /\ tokenbucket r2 = <[fu v 1 := tb]> (tokenbucket r).
Proof.
  intros Hok E.
  apply create_qp_inv in E as (q & d & qp & h & n & cap & tb & sp & _ & Ed & Hh & Eb & Hn & -> & -> & ->).
  change (fu (VS [VI n; VI h; _; _]) 1) with h.
  destruct (dl_create_qp_handle _ _ _ _ _ _ _ Ed) as [(_ & Hl & _) _].
  destruct (ok_qp _ _ Hok) as [_ Hv Hs Hobj].
  assert (qp_map (r_data r) !! h = None) as Hm.
  { destruct (qp_map (r_data r) !! h) eqn:Em; [|done]. by destruct (Hobj _ _ Em) as (_ & ? & _). }
  assert (qp_shm r !! h = None) as Hp.
  { apply eq_None_not_Some. intros Hx%Hs. rewrite Hm in Hx. by destruct Hx. }
  assert (h ∉ qp_shm_vec r) as Hx by (intros Hx%Hv; rewrite Hm in Hx; by destruct Hx).
  unfold do_destroy_qp, tbl_get. change (fu (VS [VI h]) 0) with h. rewrite index_in by done.
  cbn [mbind res_bind r_data qp_map set_qp_shm set_shm_log set_buckets set_data set_qp_map].
  rewrite lookup_insert_eq. destruct (dv_destroy_qp dv _ qp) as [d' ret].
  do 2 eexists. split; [reflexivity|].
  cbn [qp_shm set_data set_dev set_qp_shm set_shm_log]. rewrite lookup_insert_eq.
  cbn -[erase_first delete insert bytes_of].
  rewrite !delete_insert_id, erase_first_last, Hn by done.
  split_and!; try done; [|by exists tb]. by destruct (r_data r).
Qed.

(** A queue pair that has no shared receive queue is created with one as soon as the
    router knows a shared queue of handle 0, whichever client made it: the client's
    request says 0 for "none", and the router looks 0 up like any other handle. *)
Theorem qp_without_srq_gets_srq_0 {M} {D} (p : proc M) pd attr (r : router D) srq pdv :
  typed t_IBV_CREATE_QP_REQ
    (VS [VI (CmdCtrl.pd_handle pd); VI (i_qp_type attr); VI (u32 (i_sq_sig_all attr));
         VI (i_send_cq attr); VI (i_recv_cq attr); VI 0; cap_val (i_cap attr)]) = true ->
  i_srq attr = None -> srq_map (r_data r) !! 0 = Some srq ->
  0 <= CmdCtrl.pd_handle pd < MAP_SIZE -> pd_map r !! CmdCtrl.pd_handle pd = Some pdv ->
  0 <= i_send_cq attr < MAP_SIZE -> 0 <= i_recv_cq attr < MAP_SIZE ->
  exists q, qp_request_of (decode t_IBV_CREATE_QP_REQ (body_bytes (create_qp_req p pd attr))) r = Ok q /\
    qr_srq q = Some srq /\ qr_recv_cq q = cq_map (r_data r) !! i_recv_cq attr.
Proof.
  intros Ht Hn Hs Hpd Hpv Hsc Hrc. unfold create_qp_req. rewrite Hn.
  destruct (has_type_wire (junk p) _ _ (typed_has_type _ _ Ht)) as [_ Hd].
  cbn [body_bytes body_of default from_option]. rewrite Hd. unfold qp_request_of, tbl_get.
  cbv beta. set (v := VS _).
  change (fu v 5) with 0. change (fu v 3) with (i_send_cq attr). change (fu v 4) with (i_recv_cq attr).
  change (fu v 0) with (CmdCtrl.pd_handle pd).
  rewrite !index_in by (done || (unfold MAP_SIZE; lia)). cbn [mbind res_bind].
  rewrite Hpv, Hs. cbn [of_option mbind res_bind]. eexists. split; [reflexivity|done].
Qed.

(** A region registered under a name, deregistered and registered again under the
    same name gets the old segment, whose name has been removed: the router answers the
    second registration from its table without opening anything, while a client that
    opens the name makes a new segment.  The size asked for plays no part either. *)
Theorem reregistered_name_is_stale {D} (dv : device D) os client client' name n n' (r : router D) :
  name <> [] -> shm_map r !! name = None ->
  forall r1 sp, reg_piece os client n name r = (r1, Some sp) ->
  forall req r2 a, shmr_map r1 !! fu req 0 = Some sp -> do_dereg_mr dv req r1 = Ok (r2, a) ->
  name ∈ unlinked_shm r2 /\ reg_piece os client' n' name r2 = (r2, Some sp).
Proof.
  intros Hne Hm r1 sp E1 req r2 a Hs E2. unfold reg_piece in *. destruct name as [|b name]; [done|].
  unfold addShmPiece_name in *. rewrite Hm in E1. unfold open_piece in E1.
  destruct (ro_open os _ n) as [ptr|]; [|done]. simpl in E1. injection E1 as <- <-.
  unfold do_dereg_mr, tbl_get in E2.
  apply bind_Ok in E2 as (osp & E & E2). apply bind_Ok in E as (i & Ei & E). apply index_Ok in Ei as [-> Hi].
  rewrite Hs in E. injection E as <-. apply bind_Ok in E2 as (omr & _ & E2). apply bind_Ok in E2 as (mr & _ & E2).
  destruct (dv_dereg_mr dv _ mr) as [d ret]. cbn [of_option mbind res_bind] in E2.
  apply Ok_fst in E2 as <-. split.
  - apply elem_of_app. right. simpl. set_solver.
  - cbn [shm_map piece_remove set_shm_log set_mr set_dev]. simpl. by rewrite lookup_insert_eq.
Qed.

(** When the read of a request's body fails, the thread takes the -1 for a full read
    (the comparison is unsigned) and serves the body of the request before it: the turn
    is the same as if the client had sent that body again. *)
Theorem failed_read_serves_old_body {D} (dv : device D) os id req t rt body rest ws out (r : router D) :
  fixed_format req = Some (Some t, rt) -> - 2 ^ 31 <= id < 2 ^ 31 ->
  Z.of_nat (length body) = sizeof t ->
  let header := Some (header_bytes (mkReqHeader id req (sizeof t))) in
  one_turn dv os (mkThread (header :: None :: rest) ws body [] out) r
  = one_turn dv os (mkThread (header :: Some body :: rest) ws body [] out) r.
Proof.
  intros Hf Hid Hb header. unfold one_turn, header.
  pose proof (fixed_request_size _ _ _ Hf) as [Hs _].
  cbn [th_in th_wr th_req th_fds th_out]. rewrite header_decodes by (simpl; lia).
  change (Z.of_nat (length (header_bytes _)) <? sizeof t_FfrRequestHeader) with false.
  cbn [client_id func body_size].
  change (fu (VS [_; VI (func_code req); _]) 1) with (func_code req).
  rewrite func_of_code_code, Hf. unfold read_body. cbn [th_in th_wr th_req th_fds th_out].
  destruct (Z.ltb_spec (Z.of_nat (length body)) (sizeof t)); [lia|].
  cbn [mbind res_bind th_req]. by rewrite overwrite_all.
Qed.

(** Destroyed address handles stay in use: the branch leaves the entry in the table
    that the data path looks handles up in, so that a datagram is still sent with the
    destroyed handle, and a second destroy frees it again. *)
Theorem destroyed_ah_stays_in_use {D} (dv : device D) (r : router D) h ah :
  0 <= h < MAP_SIZE -> ah_map (r_data r) !! h = Some ah ->
  exists r1, do_destroy_ah dv (VS [VI h]) r
    = Ok (r1, Reply t_IBV_DESTROY_AH_RSP (vret (dv_destroy_ah dv (r_dev r) ah).2)) /\
    ah_lookup (r_data r1) [h] = Ok ah /\
    do_destroy_ah dv (VS [VI h]) r1
    = Ok (set_dev (dv_destroy_ah dv (r_dev r1) ah).1 r1,
          Reply t_IBV_DESTROY_AH_RSP (vret (dv_destroy_ah dv (r_dev r1) ah).2)).
Proof.
  intros Hh Ha. unfold do_destroy_ah, tbl_get. change (fu (VS [VI h]) 0) with h.
  rewrite index_in by done. cbn [mbind res_bind]. rewrite Ha.
  destruct (dv_destroy_ah dv (r_dev r) ah) as [d ret] eqn:Ed.
  eexists. split; [reflexivity|]. cbn [r_data set_dev]. change (r_data (set_dev d r)) with (r_data r).
  rewrite Ha. split.
  - unfold ah_lookup. cbn [head of_option mbind res_bind]. rewrite Ha.
    destruct (Z.leb_spec 0 h), (Z.ltb_spec h MAP_SIZE); try lia. done.
  - change (r_dev (set_dev d r)) with d. by destruct (dv_destroy_ah dv d ah).
Qed.

(** Deregistering leaves the region's base in the table the data path translates with. *)
Theorem dereg_mr_keeps_base {D} (dv : device D) req (r : router D) r' a :
  do_dereg_mr dv req r = Ok (r', a) -> lkey_ptr (r_data r') = lkey_ptr (r_data r).
Proof.
  unfold do_dereg_mr. intros E. do 3 apply bind_Ok in E as (? & _ & E).
  destruct (dv_dereg_mr dv _ _). apply bind_Ok in E as (? & _ & E). by apply Ok_fst in E as <-.
Qed.

(** The functions whose first field is the handle of an object in one of the tables. *)
Definition by_handle {D} (f : RDMA_FUNCTION_CALL) (r : router D) (h : Z) : Prop :=
  match f with
  | IBV_DEALLOC_PD => pd_map r !! h = None
  | IBV_DESTROY_CQ | IBV_REQ_NOTIFY_CQ | IBV_ACK_CQ_EVENT => cq_map (r_data r) !! h = None
  | IBV_DESTROY_QP => qp_map (r_data r) !! h = None
  | IBV_DESTROY_SRQ | IBV_MODIFY_SRQ => srq_map (r_data r) !! h = None
  | IBV_DESTROY_AH => ah_map (r_data r) !! h = None
  | IBV_CREATE_AH | IBV_CREATE_SRQ => pd_map r !! h = None
  | _ => False
  end.

(** A request about an object the router does not have is not answered: the turn ends
    without a byte written, on a connection that stays open, and the client's call --
    which reads until the whole response is there -- does not return. *)
Theorem unknown_handle_unanswered {D} (dv : device D) os id f t rt body ws (r : router D) :
  fixed_format f = Some (Some t, rt) -> - 2 ^ 31 <= id < 2 ^ 31 ->
  Z.of_nat (length body) = sizeof t ->
  0 <= fu (decode t body) 0 < MAP_SIZE -> by_handle f r (fu (decode t body) 0) ->
  one_turn dv os (mkThread (reads_of id f body) ws [] [] []) r
    = Ok (Next (mkThread [] ws (overwrite [] body) [] []) r) /\
  HandleRequest dv os (mkThread (reads_of id f body) ws [] [] []) r = Spin.
Proof.
  intros Hf Hid Hb Hh Hn.
  assert (one_turn dv os (mkThread (reads_of id f body) ws [] [] []) r
    = Ok (Next (mkThread [] ws (overwrite [] body) [] []) r)) as E.
  { pose proof (one_turn_request dv os id f _ rt body (mkThread [] ws [] [] []) r Hf Hid Hb) as E.
    cbn [th_in th_wr th_req th_fds th_out] in E. rewrite app_nil_r in E. rewrite E.
    unfold control. cbn [func request_val]. destruct f; try done.
    all: cbn in Hn; unfold do_dealloc_pd, do_destroy_cq, do_req_notify_cq, do_ack_cq_event, do_destroy_qp,
      do_destroy_srq, do_modify_srq, do_destroy_ah, do_create_ah, do_create_srq, tbl_get.
    all: rewrite index_in by done; cbn [mbind res_bind]; by rewrite Hn. }
  split; [done|]. rewrite HandleRequest_unfold, E. done.
Qed.

(** ** Examples *)

Definition qp_req : cval :=
  VS [VI 1; VI 2; VI 0; VI 0; VI 0; VI 0; VS [VI 4; VI 4; VI 1; VI 1; VI 0]].
Definition started : router nat := set_pd {[1 := 1]} (fresh_router 3%nat).

Lemma started_ok : tables_ok counting_device started.
Proof.
  destruct (reachable_tables counting_device example_os 3%nat _
    (reach_start counting_device example_os 3%nat)). by split.
Qed.

Lemma create_destroy_qp_restores_witness :
  exists r1 t v r2 ret, do_create_qp counting_device example_os 5 qp_req started = Ok (r1, Reply t v) /\
    qp_shm_vec r1 = [3] /\
    do_destroy_qp counting_device (VS [VI (fu v 1)]) r1 = Ok (r2, Reply t_IBV_DESTROY_QP_RSP (vret ret)) /\
    qp_shm_vec r2 = [].
Proof.
  destruct (do_create_qp counting_device example_os 5 qp_req started) as [[r1 [t v| | |]]| | |] eqn:E;
    try (vm_compute in E; discriminate E).
  destruct (create_destroy_qp_restores counting_device example_os 5 qp_req started r1 t v started_ok E)
    as (r2 & ret & Ed & _ & _ & Hv & _).
  exists r1, t, v, r2, ret. split_and!; try done. vm_compute in E. by injection E as <- _ _.
Defined.

Lemma qp_without_srq_gets_srq_0_witness :
  let p := ExProc.proc_with [] in
  let attr := mkInit 2 2 None (mkCap 4 4 1 1 0) 2 0 in
  let r := set_data (mkRouter ∅ {[0 := 77]} ∅ ∅ ∅) started in
  exists q, qp_request_of (decode t_IBV_CREATE_QP_REQ (body_bytes (create_qp_req p ExProc.pd1 attr))) r = Ok q /\
    qr_srq q = Some 77.
Proof.
  destruct (qp_without_srq_gets_srq_0 (ExProc.proc_with []) ExProc.pd1 (mkInit 2 2 None (mkCap 4 4 1 1 0) 2 0)
    (set_data (mkRouter ∅ {[0 := 77]} ∅ ∅ ∅) started) 77 1) as (q & E & Hq & _); [done..|].
  by exists q.
Defined.

Lemma reregistered_name_is_stale_witness :
  exists r1 sp r2 a, reg_piece example_os 5 100 [115; 49] started = (r1, Some sp) /\
    do_dereg_mr counting_device (VS [VI 7]) (set_mr {[7 := 7]} {[7 := sp]} r1) = Ok (r2, a) /\
    [115; 49] ∈ unlinked_shm r2 /\ reg_piece example_os 6 200 [115; 49] r2 = (r2, Some sp).
Proof.
  set (s0 := set_mr {[7 := 7]} {[7 := mkPiece [115; 49] 100 1048576]} started).
  destruct (reg_piece example_os 5 100 [115; 49] s0) as [r1 [sp|]] eqn:E1; [|vm_compute in E1; discriminate E1].
  destruct (do_dereg_mr counting_device (VS [VI 7]) r1) as [[r2 a]| | |] eqn:E2;
    try (vm_compute in E1; injection E1 as <- <-; vm_compute in E2; discriminate E2).
  assert (shmr_map r1 !! 7 = Some sp) as Hs by (vm_compute in E1; injection E1 as <- <-; reflexivity).
  destruct (reregistered_name_is_stale counting_device example_os 5 6 [115; 49] 100 200 s0 ltac:(done) eq_refl
    r1 sp E1 (VS [VI 7]) r2 a Hs E2) as [H1 H2].
  vm_compute in E1. injection E1 as <- <-.
  do 4 eexists. split_and!; [reflexivity| |exact H1|exact H2]. exact E2.
Defined.

Lemma failed_read_serves_old_body_witness :
  let body := encode 0 t_IBV_DEALLOC_PD_REQ (VS [VI 1]) in
  let header := Some (header_bytes (mkReqHeader 5 IBV_DEALLOC_PD (sizeof t_IBV_DEALLOC_PD_REQ))) in
  one_turn counting_device example_os (mkThread [header; None] [4] body [] []) started
  = one_turn counting_device example_os (mkThread [header; Some body] [4] body [] []) started.
Proof.
  intros body header.
  apply (failed_read_serves_old_body counting_device example_os 5 IBV_DEALLOC_PD t_IBV_DEALLOC_PD_REQ
    t_IBV_DEALLOC_PD_RSP body [] [4] [] started); [reflexivity|lia|reflexivity].
Defined.

Lemma unknown_handle_unanswered_witness :
  HandleRequest counting_device example_os
    (mkThread (reads_of 5 IBV_DESTROY_QP (encode 0 t_IBV_DESTROY_QP_REQ (VS [VI 9]))) [4] [] [] []) started
  = Spin.
Proof.
  apply (unknown_handle_unanswered counting_device example_os 5 IBV_DESTROY_QP
    t_IBV_DESTROY_QP_REQ t_IBV_DESTROY_QP_RSP (encode 0 t_IBV_DESTROY_QP_REQ (VS [VI 9])) [4] started).
  all: by vm_compute.
Defined.
