(* ===== verification/RouterFlow.v ===== *)
(** * Flow-steering commands through the router

    The client builds the kernel's command, with an address of its own stack for the
    response; the router copies it, stores its own header over the start and writes it
    to the device.  What the kernel gets is the client's command with the router's
    response address, and the flow's handle goes back to the client. *)

From S2P Require Import Prelude CLayout FfTypes Verbs MemPool CtrlShm Client.
From S2P Require Import Router RouterSpec Wire ReqRouter CmdCtrl FlowSpec RouterCtl RouterServe RouterInv.

(** The fields of the command behind its header. *)
Definition flow_fields (qp_handle size : Z) (a : flow_attr) : list cval :=
  [VI 0; VI qp_handle;
   VS [VI (fa_type a); VI size; VI (fa_priority a); VI (fa_num_of_specs a);
       VB [0; 0]; VI (fa_port a); VI (fa_flags a)]].

(** The router's header replaces the client's and nothing else. *)
Lemma header_replaced j c1 w1 o1 p1 c2 w2 o2 p2 qp size a rest :
  let hdr c w o p := VS [VS [VI c; VI w; VI o]; VS [VI p]; VS [VI 0; VI 0; VI 0]] in
  overwrite (encode 0 t_ibv_create_flow (VS (hdr c1 w1 o1 p1 :: flow_fields qp size a)) ++ rest)
    (encode j t_ex_hdr (hdr c2 w2 o2 p2))
  = encode 0 t_ibv_create_flow (VS (hdr c2 w2 o2 p2 :: flow_fields qp size a)) ++ rest.
Proof. reflexivity. Qed.

(** A kernel spec that states its own size. *)
Definition sized_spec (k : list Z) : Prop :=
  (6 <= length k)%nat /\ le_combine (slice 4 2 k) = Z.of_nat (length k).

Lemma slice_app_l o n (l r : list Z) : 0 <= o -> 0 <= n -> o + n <= Z.of_nat (length l) ->
  slice o n (l ++ r) = slice o n l.
Proof.
  intros. unfold slice. rewrite drop_app_le by lia. rewrite take_app_le; [done|].
  rewrite length_drop. lia.
Qed.

Lemma spec_size_app k rest : sized_spec k -> spec_size (k ++ rest) = Ok (Z.of_nat (length k)).
Proof.
  intros [Hl Hk]. unfold spec_size, bytes_at.
  destruct (Z.ltb_spec (Z.of_nat (length (k ++ rest))) (4 + 2)); [rewrite length_app in *; lia|].
  simpl orb. cbn [mbind res_bind]. by rewrite slice_app_l, Hk by lia.
Qed.

Lemma print_specs_ok specs : forall rest, Forall sized_spec specs ->
  print_specs (length specs) (concat specs ++ rest) = Ok tt.
Proof.
  induction specs as [|k specs IH]; intros rest Hf; [done|].
  apply Forall_cons in Hf as [Hk Hf]. cbn [print_specs length concat].
  rewrite <- app_assoc, (spec_size_app k) by done. cbn [mbind res_bind].
  assert (exists t, spec_type (k ++ concat specs ++ rest) = Ok t) as [t ->].
  { unfold spec_type, bytes_at. destruct Hk as [Hl _].
    destruct (Z.ltb_spec (Z.of_nat (length (k ++ concat specs ++ rest))) (0 + 4));
      [rewrite length_app in *; lia|]. by eexists. }
  cbn [mbind res_bind]. unfold next_spec. rewrite (spec_size_app k) by done. cbn [mbind res_bind].
  rewrite Nat2Z.id, drop_app_length. by apply IH.
Qed.

Lemma concat_length (specs : list (list Z)) :
  Z.of_nat (length (concat specs)) = sumZ (map (fun k => Z.of_nat (length k)) specs).
Proof. induction specs as [|k specs IH]; simpl; [done|]. rewrite length_app. lia. Qed.

Section Flow.
Context {D : Type} (dv : device D) (os : router_os).
Implicit Types r : router D.

Lemma router_header_same (exp_flow : bool) abi_ver written resp : 2 < abi_ver ->
  ex_header exp_flow abi_ver written resp
  = router_ex_header (if exp_flow then EXP_CREATE_FLOW else CREATE_FLOW) written
      (sizeof t_ibv_create_flow_resp) resp.
Proof.
  intros Ha. unfold ex_header, router_ex_header. destruct (Z.ltb_spec 2 abi_ver); [|lia].
  by destruct exp_flow.
Qed.

(** The command the router writes, for one it was sent. *)
Lemma create_flow_resp_writes d c w o p qp a specs rest exp written :
  let hdr := VS [VS [VI c; VI w; VI o]; VS [VI p]; VS [VI 0; VI 0; VI 0]] in
  let fields := flow_fields qp (Z.of_nat (length (concat specs))) a in
  typed t_ibv_create_flow (VS (hdr :: fields)) = true -> Forall sized_spec specs ->
  fa_num_of_specs a = Z.of_nat (length specs) ->
  sizeof t_ibv_create_flow + Z.of_nat (length (concat specs)) = written ->
  let code := if negb (exp =? 0) then EXP_CREATE_FLOW else CREATE_FLOW in
  let hdr' := router_ex_header code written (sizeof t_ibv_create_flow_resp) (ro_resp os) in
  ibv_cmd_create_flow_resp dv os d
    ((encode 0 t_ibv_create_flow (VS (hdr :: fields)) ++ concat specs) ++ rest) written exp
  = (let '(d1, err, out) := write_command dv d
       (encode 0 t_ibv_create_flow (VS (hdr' :: fields)) ++ concat specs) in
     Ok (d1, err, match out with
                  | Some out => decode t_ibv_create_flow_resp out
                  | None => leftover os t_ibv_create_flow_resp
                  end)).
Proof.
  intros hdr fields Ht Hsp Hnum Hw code hdr'.
  destruct (has_type_wire 0 _ _ (typed_has_type _ _ Ht)) as [Hl _].
  assert (Z.of_nat (length (encode 0 t_ibv_create_flow (VS (hdr' :: fields))))
    = sizeof t_ibv_create_flow) as Hl' by (rewrite <- Hl; reflexivity).
  unfold ibv_cmd_create_flow_resp. set (E := encode 0 t_ibv_create_flow (VS (hdr :: fields))) in *.
  set (tail := drop (length (E ++ concat specs)) (replicate 1024 (ro_junk os))).
  assert (written = Z.of_nat (length (E ++ concat specs))) as Hw' by (rewrite length_app; lia).
  assert (take_n written ((E ++ concat specs) ++ rest) = Ok (E ++ concat specs)) as ->
    by (rewrite Hw'; apply take_n_app).
  cbn [mbind res_bind].
  assert (overwrite (replicate 1024 (ro_junk os)) (E ++ concat specs) = E ++ concat specs ++ tail) as ->
    by (unfold overwrite; by rewrite <- app_assoc).
  assert (decode t_ibv_create_flow (E ++ concat specs ++ tail) = VS (hdr :: fields)) as ->
    by (apply decode_prefix, typed_has_type, Ht).
  change (fu (fs (VS (hdr :: fields)) 3) 3) with (fa_num_of_specs a). rewrite Hnum, Nat2Z.id.
  replace (Z.to_nat (sizeof t_ibv_create_flow)) with (length E) by lia.
  rewrite drop_app_length, print_specs_ok by done. cbn [mbind res_bind].
  fold code. fold hdr'.
  assert (with_ex_header os hdr' (E ++ concat specs ++ tail)
    = (encode 0 t_ibv_create_flow (VS (hdr' :: fields)) ++ concat specs) ++ tail) as ->
    by (rewrite <- app_assoc; apply (header_replaced (ro_junk os))).
  assert (forall l, take_n written ((encode 0 t_ibv_create_flow (VS (hdr' :: fields)) ++ concat specs) ++ l)
    = Ok (encode 0 t_ibv_create_flow (VS (hdr' :: fields)) ++ concat specs)) as Htk.
  { intros l. rewrite <- take_n_app with (l2 := l). f_equal. rewrite length_app. lia. }
  by rewrite Htk.
Qed.

(** The response the client gets for what [write] did. *)
Definition flow_reply (written n err : Z) (out : list Z) : answer :=
  Reply t_IBV_CREATE_FLOW_RSP
    (if n =? written then VS [VI (u32 0); decode t_ibv_create_flow_resp out]
     else VS [VI (u32 err); leftover os t_ibv_create_flow_resp]).

End Flow.

(** The kernel is given the client's flow command: what the router writes to the
    device is the command the client built -- attribute, queue pair, specs, sizes, the
    command's code -- with the router's own address for the response; the handle of the
    flow, or the error, goes back to the client. *)
Theorem create_flow_forwarded {D} (dv : device D) os (exp_flow : bool) abi_ver qp ptr a specs (r : router D)
  cmd written :
  2 < abi_ver -> create_flow_cmd exp_flow abi_ver qp ptr a specs = (cmd, written) ->
  Forall sized_spec specs -> fa_num_of_specs a = Z.of_nat (length specs) ->
  Z.of_nat (length (concat specs)) < 2 ^ 16 -> written <= 1024 ->
  typed t_ibv_create_flow (VS (ex_header exp_flow abi_ver written ptr ::
    flow_fields qp (Z.of_nat (length (concat specs))) a)) = true ->
  do_create_flow dv os
    (VS [VI (if exp_flow then 1 else 0); VI written; VB (cmd ++ replicate (Z.to_nat (1024 - written)) 0)]) r
  = (let '(d, n, err, out) := dv_write dv (r_dev r) (create_flow_cmd exp_flow abi_ver qp (ro_resp os) a specs).1 in
     Ok (set_dev d r, flow_reply os written n err out)).
Proof.
  intros Habi Ec Hsp Hnum Hlen Hw Ht.
  assert (u16 (sumZ (map (fun k => Z.of_nat (length k)) specs)) = Z.of_nat (length (concat specs))) as Hu
    by (rewrite <- concat_length; apply u16_small; lia).
  unfold create_flow_cmd in *. rewrite Hu in *. cbv zeta in *.
  assert (sizeof t_ibv_create_flow + Z.of_nat (length (concat specs)) = written) as Ew
    by apply (f_equal snd Ec).
  apply (f_equal fst) in Ec. cbn [fst] in Ec |- *. rewrite Ew in *. subst cmd.
  fold (flow_fields qp (Z.of_nat (length (concat specs))) a) in *.
  unfold do_create_flow. set (req := VS _).
  change (fb req 2) with ((encode 0 t_ibv_create_flow (VS (ex_header exp_flow abi_ver written ptr ::
    flow_fields qp (Z.of_nat (length (concat specs))) a)) ++ concat specs)
    ++ replicate (Z.to_nat (1024 - written)) 0).
  pose proof (sizeof_nonneg t_ibv_create_flow) as Hs0.
  assert (fi req 1 = written) as -> by exact (s32_small written ltac:(lia)).
  unfold ex_header in *.
  erewrite create_flow_resp_writes by (eauto; lia).
  replace (fi req 0 =? 0) with (negb exp_flow) by by destruct exp_flow.
  rewrite negb_involutive, <- (router_header_same exp_flow abi_ver written (ro_resp os)) by done.
  unfold write_command, flow_reply.
  destruct (dv_write dv _ _) as [[[d n] err] out].
  set (E := encode 0 t_ibv_create_flow _).
  assert (Z.of_nat (length E) = sizeof t_ibv_create_flow) as HE by reflexivity.
  replace (Z.of_nat (length (E ++ concat specs))) with written by (rewrite length_app; lia).
  by destruct (n =? written).
Qed.

Lemma create_flow_forwarded_witness :
  let specs := [le_split 4 SPEC_ETH ++ le_split 2 40 ++ replicate 34 0] in
  let a := mkFlowAttr 0 1 1 1 0 in
  let '(cmd, written) := create_flow_cmd false 6 5 77 a specs in
  exists v, do_create_flow counting_device example_os
    (VS [VI 0; VI written; VB (cmd ++ replicate (Z.to_nat (1024 - written)) 0)]) (fresh_router 3%nat)
  = Ok (fresh_router 3%nat, Reply t_IBV_CREATE_FLOW_RSP v).
Proof.
  intros specs a. destruct (create_flow_cmd false 6 5 77 a specs) as [cmd written] eqn:Ec.
  assert (written = 88) as Hw by (apply (f_equal snd) in Ec; vm_compute in Ec; by rewrite <- Ec).
  pose proof (create_flow_forwarded counting_device example_os false 6 5 77 a specs (fresh_router 3%nat)
    cmd written ltac:(lia) Ec) as E.
  rewrite Hw in *. rewrite E.
  - by eexists.
  - apply Forall_cons. split; [|apply Forall_nil_2]. split; [vm_compute; lia|by vm_compute].
  - done.
  - by vm_compute.
  - lia.
  - by vm_compute.
Defined.
