(* ===== verification/CmTypes.v ===== *)
(** * Types of connection management

    The commands of the kernel's rdma_cm device (rdma_cma_abi.h), the requests and
    responses that carry them between librdmacm and the router (freeflow-types.h,
    types.h), and buffers of a thread as byte memory. *)

From S2P Require Import Prelude CLayout FfTypes Wire CmdCtrl.

(** ** Buffers *)

(** The [n] bytes at [a]. *)
Definition read_bytes (m : mem) (a n : Z) : list Z := m <$> seqZ a n.

(** The struct of type [t] at [a]. *)
Definition read_val (t : cty) (m : mem) (a : Z) : cval := decode t (read_bytes m a (sizeof t)).

Definition store32 (m : mem) (a z : Z) : mem := write_bytes m a (le_split 4 z).

(** ** Socket addresses *)

Definition AF_INET : Z := 2.
Definition AF_INET6 : Z := 10.
Definition AF_IB : Z := 27.

(** A [struct sockaddr_in6] or [sockaddr_storage], as its bytes. *)
Definition t_sockaddr_in6 : cty := Union [I32; Arr 28 I8].
Definition t_sockaddr_storage : cty := Union [I64; Arr 128 I8].
Definition sizeof_sockaddr_in : Z := 16.
Definition sizeof_sockaddr_ib : Z := 48.

(** [sa->sa_family] *)
Definition sa_family (sa : list Z) : Z := le_combine (take 2 sa).

(** ** Commands of the rdma_cm device *)

Inductive ucma_cmd : Type :=
| UCMA_CMD_CREATE_ID | UCMA_CMD_DESTROY_ID | UCMA_CMD_BIND_IP | UCMA_CMD_RESOLVE_IP
| UCMA_CMD_RESOLVE_ROUTE | UCMA_CMD_QUERY_ROUTE | UCMA_CMD_CONNECT | UCMA_CMD_LISTEN
| UCMA_CMD_ACCEPT | UCMA_CMD_REJECT | UCMA_CMD_DISCONNECT | UCMA_CMD_INIT_QP_ATTR
| UCMA_CMD_GET_EVENT | UCMA_CMD_GET_OPTION | UCMA_CMD_SET_OPTION | UCMA_CMD_NOTIFY
| UCMA_CMD_JOIN_IP_MCAST | UCMA_CMD_LEAVE_MCAST | UCMA_CMD_MIGRATE_ID | UCMA_CMD_QUERY
| UCMA_CMD_BIND | UCMA_CMD_RESOLVE_ADDR | UCMA_CMD_JOIN_MCAST.

Definition ucma_code (c : ucma_cmd) : Z :=
  match c with
  | UCMA_CMD_CREATE_ID => 0 | UCMA_CMD_DESTROY_ID => 1 | UCMA_CMD_BIND_IP => 2
  | UCMA_CMD_RESOLVE_IP => 3 | UCMA_CMD_RESOLVE_ROUTE => 4 | UCMA_CMD_QUERY_ROUTE => 5
  | UCMA_CMD_CONNECT => 6 | UCMA_CMD_LISTEN => 7 | UCMA_CMD_ACCEPT => 8
  | UCMA_CMD_REJECT => 9 | UCMA_CMD_DISCONNECT => 10 | UCMA_CMD_INIT_QP_ATTR => 11
  | UCMA_CMD_GET_EVENT => 12 | UCMA_CMD_GET_OPTION => 13 | UCMA_CMD_SET_OPTION => 14
  | UCMA_CMD_NOTIFY => 15 | UCMA_CMD_JOIN_IP_MCAST => 16 | UCMA_CMD_LEAVE_MCAST => 17
  | UCMA_CMD_MIGRATE_ID => 18 | UCMA_CMD_QUERY => 19 | UCMA_CMD_BIND => 20
  | UCMA_CMD_RESOLVE_ADDR => 21 | UCMA_CMD_JOIN_MCAST => 22
  end.

Definition UCMA_QUERY_ADDR : Z := 0.
Definition UCMA_QUERY_PATH : Z := 1.
Definition UCMA_QUERY_GID : Z := 2.

Definition RDMA_MAX_PRIVATE_DATA : nat := 256.

(** [cmd], [in], [out] *)
Definition t_ucma_abi_cmd_hdr : cty := Struct [I32; I16; I16].

Definition t_ucma_abi_create_id : cty := Struct [I32; I16; I16; I64; I64; I16; I8; Arr 5 I8].
Definition t_ucma_abi_create_id_resp : cty := Struct [I32].
Definition t_ucma_abi_destroy_id : cty := Struct [I32; I16; I16; I64; I32; I32].
Definition t_ucma_abi_destroy_id_resp : cty := Struct [I32].
Definition t_ucma_abi_bind_ip : cty := Struct [I32; I16; I16; I64; t_sockaddr_in6; I32].
Definition t_ucma_abi_bind : cty := Struct [I32; I16; I16; I32; I16; I16; t_sockaddr_storage].
Definition t_ucma_abi_resolve_ip : cty :=
  Struct [I32; I16; I16; t_sockaddr_in6; t_sockaddr_in6; I32; I32].
Definition t_ucma_abi_resolve_addr : cty :=
  Struct [I32; I16; I16; I32; I32; I16; I16; I32; t_sockaddr_storage; t_sockaddr_storage].
Definition t_ucma_abi_resolve_route : cty := Struct [I32; I16; I16; I32; I32].
Definition t_ucma_abi_query : cty := Struct [I32; I16; I16; I64; I32; I32].

Definition t_ibv_kern_path_rec : cty :=
  Struct ([Arr 16 I8; Arr 16 I8; I16; I16; I32; I32; I32; I32; I16] ++ repeat I8 10).
Definition t_ucma_abi_query_route_resp : cty :=
  Struct [I64; Arr 2 t_ibv_kern_path_rec; t_sockaddr_in6; t_sockaddr_in6; I32; I8; Arr 3 I8].
Definition t_ucma_abi_query_addr_resp : cty :=
  Struct [I64; I8; I8; I16; I16; I16; t_sockaddr_storage; t_sockaddr_storage].

Definition t_ibv_path_record : cty :=
  Struct [I64; t_ibv_gid; t_ibv_gid; I16; I16; I32; I8; I8; I16; I16; I8; I8; I8; I8; Arr 6 I8].
Definition t_ibv_path_data : cty := Struct [I32; I32; t_ibv_path_record].
(** with its array of no elements, which still aligns it *)
Definition t_ucma_abi_query_path_resp : cty := Struct [I32; I32; Arr 0 t_ibv_path_data].

Definition t_ucma_abi_conn_param : cty :=
  Struct [I32; I32; Arr RDMA_MAX_PRIVATE_DATA I8; I8; I8; I8; I8; I8; I8; I8; I8].
Definition t_ibv_kern_global_route : cty := Struct [Arr 16 I8; I32; I8; I8; I8; I8].
Definition t_ibv_kern_ah_attr : cty :=
  Struct [t_ibv_kern_global_route; I16; I8; I8; I8; I8; I8; I8].
Definition t_ucma_abi_ud_param : cty :=
  Struct [I32; I32; t_ibv_kern_ah_attr; Arr RDMA_MAX_PRIVATE_DATA I8; I8; Arr 7 I8; Arr 4 I8].
Definition t_ucma_abi_connect : cty := Struct [I32; I16; I16; t_ucma_abi_conn_param; I32; I32].
Definition t_ucma_abi_listen : cty := Struct [I32; I16; I16; I32; I32].
Definition t_ucma_abi_accept : cty := Struct [I32; I16; I16; I64; t_ucma_abi_conn_param; I32; I32].
Definition t_ucma_abi_disconnect : cty := Struct [I32; I16; I16; I32].
Definition t_ucma_abi_init_qp_attr : cty := Struct [I32; I16; I16; I64; I32; I32].
Definition t_ibv_kern_qp_attr : cty :=
  Struct (repeat I32 10 ++ [t_ibv_kern_ah_attr; t_ibv_kern_ah_attr] ++ repeat I32 5
          ++ [I16; I16] ++ repeat I8 11 ++ [Arr 5 I8]).
Definition t_ucma_abi_get_event : cty := Struct [I32; I16; I16; I64].
Definition t_ucma_abi_event_resp : cty :=
  Struct [I64; I32; I32; I32; Union [t_ucma_abi_conn_param; t_ucma_abi_ud_param]].
Definition t_ucma_abi_set_option : cty := Struct [I32; I16; I16; I64; I32; I32; I32; I32].
Definition t_ucma_abi_migrate_id : cty := Struct [I32; I16; I16; I64; I32; I32].
Definition t_ucma_abi_migrate_resp : cty := Struct [I32].

(** ** Requests and responses *)

Definition t_rdma_event_channel : cty := Struct [I32].

(** [struct CM_*_REQ]: the channel and the command. *)
Definition t_cm_req (cmd : cty) : cty := Struct [t_rdma_event_channel; cmd].
(** [struct CM_*_RSP]: [ret_errno], and the kernel's response where there is one. *)
Definition t_cm_ret : cty := Struct [I32].
Definition t_cm_rsp (resp : cty) : cty := Struct [I32; resp].

Definition t_CM_CREATE_EVENT_CHANNEL_RSP : cty := t_cm_rsp t_rdma_event_channel.
Definition t_CM_DESTROY_EVENT_CHANNEL_REQ : cty := Struct [t_rdma_event_channel].
Definition t_CM_UCMA_QUERY_PATH_RSP : cty :=
  Struct [I32; t_ucma_abi_query_path_resp; Arr 6 t_ibv_path_data].
Definition t_CM_SET_OPTION_REQ : cty :=
  Struct [t_rdma_event_channel; t_ucma_abi_set_option; Arr 100 I8].

(** The request and the response of a function, as both sides declare them. *)
Definition cm_format (f : RDMA_FUNCTION_CALL) : option (option cty * cty) :=
  match f with
  | CM_CREATE_EVENT_CHANNEL => Some (None, t_CM_CREATE_EVENT_CHANNEL_RSP)
  | CM_DESTROY_EVENT_CHANNEL => Some (Some t_CM_DESTROY_EVENT_CHANNEL_REQ, t_cm_ret)
  | CM_CREATE_ID => Some (Some (t_cm_req t_ucma_abi_create_id), t_cm_rsp t_ucma_abi_create_id_resp)
  | CM_BIND_IP => Some (Some (t_cm_req t_ucma_abi_bind_ip), t_cm_ret)
  | CM_BIND => Some (Some (t_cm_req t_ucma_abi_bind), t_cm_ret)
  | CM_GET_EVENT => Some (Some (t_cm_req t_ucma_abi_get_event), t_cm_rsp t_ucma_abi_event_resp)
  | CM_QUERY_ROUTE => Some (Some (t_cm_req t_ucma_abi_query), t_cm_rsp t_ucma_abi_query_route_resp)
  | CM_LISTEN => Some (Some (t_cm_req t_ucma_abi_listen), t_cm_ret)
  | CM_RESOLVE_IP => Some (Some (t_cm_req t_ucma_abi_resolve_ip), t_cm_ret)
  | CM_RESOLVE_ADDR => Some (Some (t_cm_req t_ucma_abi_resolve_addr), t_cm_ret)
  | CM_UCMA_QUERY_ADDR | CM_UCMA_QUERY_GID =>
      Some (Some (t_cm_req t_ucma_abi_query), t_cm_rsp t_ucma_abi_query_addr_resp)
  | CM_UCMA_PROCESS_CONN_RESP => Some (Some (t_cm_req t_ucma_abi_accept), t_cm_ret)
  | CM_DESTROY_ID => Some (Some (t_cm_req t_ucma_abi_destroy_id), t_cm_rsp t_ucma_abi_destroy_id_resp)
  | CM_RESOLVE_ROUTE => Some (Some (t_cm_req t_ucma_abi_resolve_route), t_cm_ret)
  | CM_UCMA_QUERY_PATH => Some (Some (t_cm_req t_ucma_abi_query), t_CM_UCMA_QUERY_PATH_RSP)
  | CM_INIT_QP_ATTR => Some (Some (t_cm_req t_ucma_abi_init_qp_attr), t_cm_rsp t_ibv_kern_qp_attr)
  | CM_CONNECT => Some (Some (t_cm_req t_ucma_abi_connect), t_cm_ret)
  | CM_ACCEPT => Some (Some (t_cm_req t_ucma_abi_accept), t_cm_ret)
  | CM_SET_OPTION => Some (Some t_CM_SET_OPTION_REQ, t_cm_ret)
  | CM_MIGRATE_ID => Some (Some (t_cm_req t_ucma_abi_migrate_id), t_cm_rsp t_ucma_abi_migrate_resp)
  | CM_DISCONNECT => Some (Some (t_cm_req t_ucma_abi_disconnect), t_cm_ret)
  | _ => None
  end.

(** ** Starting a command *)

(** CMA_INIT_CMD: the struct is cleared, [in] is its size less the header's.  The
    fields behind [out] follow. *)
Definition cma_init_cmd (t : cty) (op : ucma_cmd) (out : Z) (rest : list cval) : cval :=
  VS (VI (ucma_code op) :: VI (u16 (sizeof t - sizeof t_ucma_abi_cmd_hdr)) :: VI (u16 out) :: rest).

(** ** Lemmas on buffers *)

Lemma read_bytes_length m a n : length (read_bytes m a n) = Z.to_nat n.
Proof. unfold read_bytes. by rewrite length_fmap, length_seqZ. Qed.

Lemma read_bytes_ext m m' a n :
  (forall x, a <= x < a + n -> m x = m' x) -> read_bytes m a n = read_bytes m' a n.
Proof.
  intros E. apply list_fmap_ext. intros i x Hx. apply lookup_seqZ in Hx. apply E. lia.
Qed.

Lemma read_bytes_app m a n1 n2 : 0 <= n1 -> 0 <= n2 ->
  read_bytes m a (n1 + n2) = read_bytes m a n1 ++ read_bytes m (a + n1) n2.
Proof. intros. unfold read_bytes. by rewrite seqZ_app, fmap_app by lia. Qed.

Lemma write_bytes_in m a bs i : 0 <= i < Z.of_nat (length bs) ->
  write_bytes m a bs (a + i) = nth (Z.to_nat i) bs 0.
Proof.
  intros Hi. unfold write_bytes. destruct (Z.leb_spec a (a + i)); [|lia].
  destruct (Z.ltb_spec (a + i) (a + Z.of_nat (length bs))); [|lia]. simpl. do 2 f_equal. lia.
Qed.

Lemma write_bytes_out m a bs x : x < a \/ a + Z.of_nat (length bs) <= x -> write_bytes m a bs x = m x.
Proof.
  intros Hx. unfold write_bytes.
  destruct (Z.leb_spec a x), (Z.ltb_spec x (a + Z.of_nat (length bs))); simpl; auto; lia.
Qed.

(** What was written is read back. *)
Lemma read_write m a bs : read_bytes (write_bytes m a bs) a (Z.of_nat (length bs)) = bs.
Proof.
  apply list_eq. intros i. unfold read_bytes. rewrite list_lookup_fmap.
  destruct (decide (i < length bs)%nat) as [Hi|Hi].
  - rewrite lookup_seqZ_lt by lia. simpl. rewrite write_bytes_in by lia. rewrite Nat2Z.id.
    destruct (lookup_lt_is_Some_2 bs i Hi) as [x Hx]. rewrite Hx. f_equal. by apply nth_lookup_Some.
  - rewrite lookup_seqZ_ge by lia. symmetry. apply lookup_ge_None. lia.
Qed.

(** Bytes beside it are unchanged. *)
Lemma read_write_out m a bs b n : b + n <= a \/ a + Z.of_nat (length bs) <= b ->
  read_bytes (write_bytes m a bs) b n = read_bytes m b n.
Proof. intros. apply read_bytes_ext. intros x Hx. apply write_bytes_out. lia. Qed.

(** The field [i] of a struct in memory. *)
Lemma slice_read m a n o k : 0 <= o -> 0 <= k -> o + k <= n ->
  slice o k (read_bytes m a n) = read_bytes m (a + o) k.
Proof.
  intros Ho Hk Hn. unfold slice.
  replace n with (o + (k + (n - o - k))) by lia.
  rewrite !read_bytes_app by lia. rewrite drop_app_length' by (rewrite read_bytes_length; lia).
  apply take_app_length'. rewrite read_bytes_length. lia.
Qed.

Lemma decode_fields_lookup bs fs : forall off i f, fs !! i = Some f ->
  decode_fields bs off fs !! i
  = Some (decode f (slice (nth i (offsets_from off fs) 0) (sizeof f) bs)).
Proof.
  induction fs as [|g fs IH]; intros off [|i] f E; simpl in *; simplify_eq; [done|]. by apply IH.
Qed.

Lemma read_val_field fs m a i f : fs !! i = Some f ->
  fields (read_val (Struct fs) m a) !! i
  = Some (decode f (slice (offsetof (Struct fs) i) (sizeof f) (read_bytes m a (sizeof (Struct fs))))).
Proof. intros E. unfold read_val. rewrite decode_struct. cbn [fields]. by rewrite (decode_fields_lookup _ _ 0 _ f). Qed.

(** ** Structs in memory *)

(** The fields of a struct at [a], laid out from [off] on. *)
Fixpoint read_fields (m : mem) (a off : Z) (fs : list cty) : list cval :=
  match fs with
  | [] => []
  | f :: fs' =>
      let o := align_up off (alignof f) in
      read_val f m (a + o) :: read_fields m a (o + sizeof f) fs'
  end.

Lemma read_fields_decode m a n fs : forall off, 0 <= off -> fields_end off fs <= n ->
  decode_fields (read_bytes m a n) off fs = read_fields m a off fs.
Proof.
  induction fs as [|f fs IH]; intros off Hoff Hn; [done|].
  change (fields_end off (f :: fs)) with (fields_end (align_up off (alignof f) + sizeof f) fs) in Hn.
  cbn [decode_fields read_fields].
  pose proof (align_up_ge off (alignof f) (alignof_pos f)). pose proof (sizeof_nonneg f).
  assert (align_up off (alignof f) + sizeof f <= n).
  { etrans; [|exact Hn]. apply struct_fold_ge, Forall_forall. intros. apply sizeof_nonneg. }
  f_equal; [|apply IH; lia]. unfold read_val. by rewrite slice_read by lia.
Qed.

Lemma read_val_struct fs m a : read_val (Struct fs) m a = VS (read_fields m a 0 fs).
Proof.
  unfold read_val. rewrite decode_struct. f_equal. apply read_fields_decode; [lia|].
  apply align_up_ge, alignof_pos.
Qed.

Lemma read_val_ext t m m' a : (forall x, a <= x < a + sizeof t -> m x = m' x) ->
  read_val t m a = read_val t m' a.
Proof. intros E. unfold read_val. f_equal. by apply read_bytes_ext. Qed.

Lemma read_fields_ext fs m m' a : forall off, 0 <= off ->
  (forall x, a + off <= x -> m x = m' x) -> read_fields m a off fs = read_fields m' a off fs.
Proof.
  induction fs as [|f fs IH]; intros off Hoff E; [done|]. cbn [read_fields].
  pose proof (align_up_ge off (alignof f) (alignof_pos f)). pose proof (sizeof_nonneg f).
  f_equal; [apply read_val_ext|apply IH; [lia|]]; intros x Hx; apply E; lia.
Qed.

(** A change inside of field [i] changes that field only. *)
Lemma read_fields_change fs m m' a : forall off i f, 0 <= off -> fs !! i = Some f ->
  let p := a + nth i (offsets_from off fs) 0 in
  (forall x, x < p \/ p + sizeof f <= x -> m' x = m x) ->
  read_fields m' a off fs = <[i := read_val f m' p]> (read_fields m a off fs).
Proof.
  induction fs as [|g fs IH]; intros off [|i] f Hoff Hf p E; try discriminate Hf;
    cbn [read_fields]; pose proof (align_up_ge off (alignof g) (alignof_pos g));
    pose proof (sizeof_nonneg g).
  - simpl in Hf. injection Hf as ->. cbn. f_equal. apply read_fields_ext; [lia|].
    intros x Hx. apply E. right. unfold p. cbn. lia.
  - simpl in Hf. cbn [insert list_insert].
    assert (align_up off (alignof g) + sizeof g <= nth i (offsets_from (align_up off (alignof g) + sizeof g) fs) 0).
    { destruct (nth_lookup_or_length (offsets_from (align_up off (alignof g) + sizeof g) fs) i 0) as [Hn|Hn].
      - by eapply offsets_from_ge.
      - exfalso. apply lookup_lt_Some in Hf.
        assert (length (offsets_from (align_up off (alignof g) + sizeof g) fs) = length fs).
        { clear. generalize (align_up off (alignof g) + sizeof g).
          induction fs as [|h fs IH]; intros o; simpl; [done|]. by rewrite IH. }
        lia. }
    f_equal.
    + apply read_val_ext. intros x Hx. apply E. left. unfold p. cbn. lia.
    + apply IH; [lia|done|]. intros x Hx. apply E. unfold p. cbn in *. lia.
Qed.

(** The value that was sent is read from the buffer it was read into. *)
Lemma read_val_sent j t v m : has_type t v -> read_val t (write_bytes m 0 (encode j t v)) 0 = v.
Proof.
  intros Ht. destruct (has_type_wire j _ _ Ht) as [Hl Hd]. unfold read_val.
  by rewrite <- Hl, read_write.
Qed.

Lemma read_fields_lookup fs m a : forall off i f, fs !! i = Some f ->
  read_fields m a off fs !! i = Some (read_val f m (a + nth i (offsets_from off fs) 0)).
Proof. induction fs as [|g fs IH]; intros off [|i] f E; simpl in *; simplify_eq; [done|]. by apply IH. Qed.

Lemma take_read m a k n : 0 <= k <= n -> take (Z.to_nat k) (read_bytes m a n) = read_bytes m a k.
Proof.
  intros. replace n with (k + (n - k)) by lia. rewrite read_bytes_app by lia.
  apply take_app_length'. rewrite read_bytes_length. lia.
Qed.

Lemma drop_read m a k n : 0 <= k <= n -> drop (Z.to_nat k) (read_bytes m a n) = read_bytes m (a + k) (n - k).
Proof.
  intros. replace n with (k + (n - k)) at 1 by lia. rewrite read_bytes_app by lia.
  apply drop_app_length'. rewrite read_bytes_length. lia.
Qed.

(** Four bytes of a longer piece are changed. *)
Lemma read_patched m m' a o k n d : 0 <= o -> 0 <= k -> o + k <= n ->
  (forall x, x < a + o \/ a + o + k <= x -> m' x = m x) -> read_bytes m' (a + o) k = d ->
  read_bytes m' a n = take (Z.to_nat o) (read_bytes m a n) ++ d ++ drop (Z.to_nat (o + k)) (read_bytes m a n).
Proof.
  intros Ho Hk Hn E <-. rewrite take_read, drop_read by lia.
  replace n with (o + (k + (n - (o + k)))) at 1 by lia. rewrite !read_bytes_app by lia.
  f_equal; [apply read_bytes_ext; intros; apply E; lia|]. f_equal.
  replace (a + o + k) with (a + (o + k)) by lia. apply read_bytes_ext. intros. apply E. lia.
Qed.
