(* ===== verification/CmVip.v ===== *)
(** * Addresses of containers (ffrouter.cpp, [map_vip])

    A container names its peers by the addresses of the overlay network.  Before the
    router hands a command to the kernel it replaces each of them, in the request
    buffer, by the address of the host: it prints the four bytes, looks the text up in
    [vip_map] and parses what it finds. *)

From stdpp Require Import pretty.
From S2P Require Import Prelude CLayout FfTypes Wire CmdCtrl RouterCtl RouterNames CmTypes.

(** ** Printing and parsing of IPv4 addresses (libc) *)

Definition dot : Z := 46.

(** [inet_ntop(AF_INET, ...)] *)
Definition inet_ntop (addr : list Z) : list Z :=
  match addr with
  | [a; b; c; d] =>
      bytes_of (decimal a) ++ dot :: bytes_of (decimal b) ++ dot :: bytes_of (decimal c)
      ++ dot :: bytes_of (decimal d)
  | _ => []
  end.

(** [inet_pton(AF_INET, ...)]: four decimal numbers up to 255, without leading zeros.
    [done]: the octets that are complete; [cur] and [saw]: the one being read. *)
Fixpoint pton_loop (src done : list Z) (cur : Z) (saw : bool) : option (list Z) :=
  match src with
  | [] => if (Z.of_nat (length done) + (if saw then 1 else 0) <? 4) then None else Some (done ++ [cur])
  | ch :: src' =>
      if (48 <=? ch) && (ch <=? 57) then
        if saw && (cur =? 0) then None else
        let new := cur * 10 + (ch - 48) in
        if 255 <? new then None else
        if negb saw && (4 <? Z.of_nat (length done) + 1) then None else
        pton_loop src' done new true
      else if (ch =? dot) && saw then
        if Z.of_nat (length done) + 1 =? 4 then None
        else pton_loop src' (done ++ [cur]) 0 false
      else None
  end.

Definition inet_pton (src : list Z) : option (list Z) := pton_loop src [] 0 false.

(** ** The map *)

(** [get_in_addr]: where the address lies behind [sa]; that of IPv6 unless the family
    is AF_INET. *)
Definition get_in_addr (m : mem) (sa : Z) : Z :=
  if sa_family (read_bytes m sa 2) =? AF_INET then sa + 4 else sa + 8.

(** A value that cannot be parsed leaves the address as it is. *)
Definition map_vip (vips : gmap (list Z) (list Z)) (m : mem) (addr : Z) : mem :=
  match vips !! inet_ntop (read_bytes m addr 4) with
  | Some dip =>
      match inet_pton dip with
      | Some d => write_bytes m addr d
      | None => m
      end
  | None => m
  end.

(** ** What is printed is parsed again *)

(** The digits of one octet alone. *)
Fixpoint octet (bs : list Z) (cur : Z) (saw : bool) : option Z :=
  match bs with
  | [] => if saw then Some cur else None
  | ch :: bs' =>
      if (48 <=? ch) && (ch <=? 57) && negb (saw && (cur =? 0)) && negb (255 <? cur * 10 + (ch - 48))
      then octet bs' (cur * 10 + (ch - 48)) true else None
  end.

Lemma pton_octet bs : forall done rest cur saw b, (length done < 4)%nat -> octet bs cur saw = Some b ->
  pton_loop (bs ++ rest) done cur saw = pton_loop rest done b true.
Proof.
  induction bs as [|ch bs IH]; intros done rest cur saw b Hd E; cbn [octet] in E.
  - destruct saw; by simplify_eq.
  - destruct ((48 <=? ch) && (ch <=? 57)) eqn:E1; [|done].
    destruct (saw && (cur =? 0)) eqn:E2; [done|].
    destruct (255 <? cur * 10 + (ch - 48)) eqn:E3; [done|]. simpl in E.
    cbn [app pton_loop]. rewrite E1, E2, E3.
    destruct (Z.ltb_spec 4 (Z.of_nat (length done) + 1)); [lia|].
    rewrite andb_false_r. by apply IH.
Qed.

Lemma pton_dot rest done cur : (length done < 3)%nat ->
  pton_loop (dot :: rest) done cur true = pton_loop rest (done ++ [cur]) 0 false.
Proof.
  intros Hd. cbn [pton_loop]. change ((48 <=? dot) && (dot <=? 57)) with false.
  destruct (Z.eqb_spec (Z.of_nat (length done) + 1) 4); [lia|done].
Qed.

Lemma octet_decimal b : 0 <= b < 256 -> octet (bytes_of (decimal b)) 0 false = Some b.
Proof.
  intros Hb. assert (forallb (fun b => bool_decide (octet (bytes_of (decimal b)) 0 false = Some b))
    (seqZ 0 256) = true) as H by by vm_compute.
  rewrite forallb_forall in H. specialize (H b). rewrite bool_decide_eq_true in H. apply H.
  apply list_elem_of_In, elem_of_seqZ. lia.
Qed.

Lemma pton_ntop addr : length addr = 4%nat -> Forall (fun b => 0 <= b < 256) addr ->
  inet_pton (inet_ntop addr) = Some addr.
Proof.
  intros Hl Hf. destruct addr as [|a [|b [|c [|d [|]]]]]; try discriminate Hl.
  rewrite !Forall_cons in Hf. destruct Hf as (Ha & Hb & Hc & Hd & _).
  unfold inet_pton, inet_ntop.
  rewrite (pton_octet _ _ _ _ _ a) by ((simpl; lia) || by apply octet_decimal). rewrite pton_dot by (simpl; lia).
  rewrite (pton_octet _ _ _ _ _ b) by ((simpl; lia) || by apply octet_decimal). rewrite pton_dot by (simpl; lia).
  rewrite (pton_octet _ _ _ _ _ c) by ((simpl; lia) || by apply octet_decimal). rewrite pton_dot by (simpl; lia).
  rewrite <- (app_nil_r (bytes_of (decimal d))).
  by rewrite (pton_octet _ _ _ _ _ d) by ((simpl; lia) || by apply octet_decimal).
Qed.

Lemma ntop_inj a b : length a = 4%nat -> length b = 4%nat ->
  Forall (fun x => 0 <= x < 256) a -> Forall (fun x => 0 <= x < 256) b ->
  inet_ntop a = inet_ntop b -> a = b.
Proof.
  intros La Lb Ha Hb E. apply (f_equal inet_pton) in E. rewrite !pton_ntop in E by done. congruence.
Qed.

(** The text fits the buffer of INET_ADDRSTRLEN bytes, with its terminator. *)
Definition INET_ADDRSTRLEN : Z := 16.

Lemma ntop_fits addr : Forall (fun b => 0 <= b < 256) addr ->
  Z.of_nat (length (inet_ntop addr)) + 1 <= INET_ADDRSTRLEN.
Proof.
  intros Hf. destruct addr as [|a [|b [|c [|d [|]]]]]; try (vm_compute; congruence).
  rewrite !Forall_cons in Hf. destruct Hf as (Ha & Hb & Hc & Hd & _).
  unfold inet_ntop, INET_ADDRSTRLEN. repeat (rewrite length_app; simpl length).
  pose proof (decimal_length a 3 ltac:(lia) ltac:(lia)). pose proof (decimal_length b 3 ltac:(lia) ltac:(lia)).
  pose proof (decimal_length c 3 ltac:(lia) ltac:(lia)). pose proof (decimal_length d 3 ltac:(lia) ltac:(lia)).
  lia.
Qed.

(** ** The map on addresses *)

Definition ipv4 (a : list Z) : Prop := length a = 4%nat /\ Forall (fun b => 0 <= b < 256) a.

(** [vips] holds the printed addresses of the map [g]. *)
Definition printed_map (vips g : gmap (list Z) (list Z)) : Prop :=
  (forall a, ipv4 a -> vips !! inet_ntop a = inet_ntop <$> g !! a) /\
  forall a d, g !! a = Some d -> ipv4 d.

(** The address at [addr] becomes its image, and nothing else changes. *)
Lemma map_vip_ok vips g m addr : printed_map vips g -> ipv4 (read_bytes m addr 4) ->
  let d := default (read_bytes m addr 4) (g !! read_bytes m addr 4) in
  read_bytes (map_vip vips m addr) addr 4 = d /\
  forall x, x < addr \/ addr + 4 <= x -> map_vip vips m addr x = m x.
Proof.
  intros [Hv Hg] Ha. unfold map_vip. rewrite Hv by done.
  destruct (g !! read_bytes m addr 4) as [d|] eqn:E; simpl; [|done].
  destruct (Hg _ _ E) as [Hl Hf]. rewrite pton_ntop by done. split.
  - by rewrite <- (read_write m addr d) at 2; rewrite Hl.
  - intros x Hx. apply write_bytes_out. lia.
Qed.

(** A map built up from printed addresses. *)
Lemma printed_empty : printed_map ∅ ∅.
Proof. by split; [intros a _; rewrite !lookup_empty|intros a d E; rewrite lookup_empty in E]. Qed.

Lemma printed_insert vips g a d : printed_map vips g -> ipv4 a -> ipv4 d ->
  printed_map (<[inet_ntop a := inet_ntop d]> vips) (<[a := d]> g).
Proof.
  intros [Hv Hg] Ha Hd. split.
  - intros b Hb. destruct (decide (b = a)) as [->|Hne].
    + by rewrite !lookup_insert_eq.
    + rewrite !lookup_insert_ne; [by apply Hv|done|].
      intros E. apply Hne. symmetry. destruct Ha, Hb. by apply ntop_inj.
  - intros b e. rewrite lookup_insert_Some. intros [[_ <-]|[_ E]]; [done|]. by eapply Hg.
Qed.
