(* ===== verification/CmResp.v ===== *)
(** * The router's librdmacm (libraries-router, cma.c)

    The copy of librdmacm that the router links has one function per command, which
    takes the command a client sent, builds it anew with the router's own response
    buffer, writes it to the rdma_cm device and copies the response out.  The kernel is
    a record of operations over a state of type [K]. *)

From S2P Require Import Prelude CLayout FfTypes Wire CmdCtrl ReqRouter CmTypes.

(** [uc_write k fd cmd optval]: [write] of a command; [optval] is the memory behind the
    pointer of a SET_OPTION command.  The result and what the kernel stored at the
    command's response address. *)
Record ucma (K : Type) : Type := mkUcma {
  uc_init : K -> K * Z;
  uc_open : K -> K * Z;
  uc_close : K -> Z -> K;
  uc_write : K -> Z -> list Z -> list Z -> K * Z * list Z }.
Arguments uc_init {K}. Arguments uc_open {K}. Arguments uc_close {K}. Arguments uc_write {K}.

(** The byte an uninitialised part of a buffer holds, the address of a response on the
    stack, and whether the probe for AF_IB succeeded. *)
Record lib_os : Type := mkLibOs { lo_junk : Z; lo_resp : Z; lo_af_ib : bool }.

Section Resp.
Context {K : Type} (uc : ucma K) (lo : lib_os).
Implicit Types (k : K) (fd : Z) (inp : cval).

(** ** Channels *)

(** [None]: a null pointer *)
Definition rdma_create_event_channel_r k : K * option Z :=
  let '(k1, ret) := uc_init uc k in
  if negb (ret =? 0) then (k1, None) else
  let '(k2, fd) := uc_open uc k1 in
  (k2, if fd <? 0 then None else Some fd).

Definition rdma_destroy_event_channel_r k fd : K := uc_close uc k fd.

(** ** Commands *)

(** What a response buffer of [n] bytes holds when the kernel stored [bs]. *)
Definition resp_buffer (n : Z) (bs : list Z) : list Z :=
  overwrite (replicate (Z.to_nat n) (lo_junk lo)) (take (Z.to_nat n) bs).

(** [write], the test of its result, and [memcpy] of a response of [n] bytes; [None]:
    nothing is copied.  Both error results are -1. *)
Definition run_cmd (t : cty) (cmd : cval) (optval : list Z) (n : Z) k fd : K * Z * option (list Z) :=
  let '(k', ret, stored) := uc_write uc k fd (encode 0 t cmd) optval in
  if ret =? sizeof t then (k', 0, Some (resp_buffer n stored)) else (k', -1, None).

Definition no_resp (r : K * Z * option (list Z)) : K * Z * option (list Z) := (r.1, None).

Definition rdma_create_id_resp k fd inp :=
  let t := t_ucma_abi_create_id in
  let n := sizeof t_ucma_abi_create_id_resp in
  run_cmd t (cma_init_cmd t UCMA_CMD_CREATE_ID n
    [VI (fu inp 3); VI (lo_resp lo); VI (fu inp 5); VI (fu inp 6); VB (replicate 5 0)]) [] n k fd.

Definition ucma_destroy_kern_id_resp k fd inp :=
  let t := t_ucma_abi_destroy_id in
  let n := sizeof t_ucma_abi_destroy_id_resp in
  run_cmd t (cma_init_cmd t UCMA_CMD_DESTROY_ID n [VI (lo_resp lo); VI (fu inp 4); VI 0]) [] n k fd.

(** The three queries with an option differ in the size of the response. *)
Definition query_resp (n : Z) k fd inp :=
  let t := t_ucma_abi_query in
  run_cmd t (cma_init_cmd t UCMA_CMD_QUERY n [VI (lo_resp lo); VI (fu inp 4); VI (fu inp 5)]) [] n k fd.

Definition ucma_query_addr_resp k fd inp := query_resp (sizeof t_ucma_abi_query_addr_resp) k fd inp.
Definition ucma_query_gid_resp k fd inp := query_resp (sizeof t_ucma_abi_query_addr_resp) k fd inp.

Definition query_path_size : Z := sizeof t_ucma_abi_query_path_resp + sizeof t_ibv_path_data * 6.
Definition ucma_query_path_resp k fd inp := query_resp query_path_size k fd inp.

Definition ucma_query_route_resp k fd inp :=
  let t := t_ucma_abi_query in
  let n := sizeof t_ucma_abi_query_route_resp in
  run_cmd t (cma_init_cmd t UCMA_CMD_QUERY_ROUTE n [VI (lo_resp lo); VI (fu inp 4); VI 0]) [] n k fd.

(** [memcpy(&cmd.addr, src, n)] into a cleared address of [size] bytes. *)
Definition addr_copy (size n : Z) (src : list Z) : res cval :=
  if size <? n then Ub else
  bs ← take_n n src; Ok (VB (bs ++ replicate (Z.to_nat (size - n)) 0)).

Definition rdma_bind_resp k fd inp : res (K * Z * option (list Z)) :=
  let t := t_ucma_abi_bind in
  addr ← addr_copy (sizeof t_sockaddr_storage) (fu inp 4) (fb inp 6);
  Ok (no_resp (run_cmd t (cma_init_cmd t UCMA_CMD_BIND 0
    [VI (fu inp 3); VI (fu inp 4); VI 0; addr]) [] 0 k fd)).

(** [ucma_addrlen] *)
Definition ucma_addrlen (af_ib : bool) (sa : list Z) : Z :=
  let f := sa_family sa in
  if f =? AF_INET then sizeof_sockaddr_in
  else if f =? AF_INET6 then sizeof t_sockaddr_in6
  else if f =? AF_IB then (if af_ib then sizeof_sockaddr_ib else 0)
  else 0.

Definition rdma_bind_addr_resp k fd inp : res (K * Z * option (list Z)) :=
  let t := t_ucma_abi_bind_ip in
  let addrlen := ucma_addrlen (lo_af_ib lo) (fb inp 4) in
  if addrlen =? 0 then Ok (k, -1, None) else
  addr ← addr_copy (sizeof t_sockaddr_in6) addrlen (fb inp 4);
  Ok (no_resp (run_cmd t (cma_init_cmd t UCMA_CMD_BIND_IP 0 [VI 0; addr; VI (fu inp 5)]) [] 0 k fd)).

Definition rdma_resolve_addr2_resp k fd inp :=
  let t := t_ucma_abi_resolve_addr in
  no_resp (run_cmd t (cma_init_cmd t UCMA_CMD_RESOLVE_ADDR 0
    [VI (fu inp 3); VI (fu inp 4); VI (fu inp 5); VI (fu inp 6); VI 0; VB (fb inp 8); VB (fb inp 9)])
    [] 0 k fd).

Definition rdma_resolve_addr_resp k fd inp :=
  let t := t_ucma_abi_resolve_ip in
  no_resp (run_cmd t (cma_init_cmd t UCMA_CMD_RESOLVE_IP 0
    [VB (fb inp 3); VB (fb inp 4); VI (fu inp 5); VI (fu inp 6)]) [] 0 k fd).

Definition rdma_resolve_route_resp k fd inp :=
  let t := t_ucma_abi_resolve_route in
  no_resp (run_cmd t (cma_init_cmd t UCMA_CMD_RESOLVE_ROUTE 0 [VI (fu inp 3); VI (fu inp 4)]) [] 0 k fd).

Definition rdma_init_qp_attr_resp k fd inp :=
  let t := t_ucma_abi_init_qp_attr in
  let n := sizeof t_ibv_kern_qp_attr in
  run_cmd t (cma_init_cmd t UCMA_CMD_INIT_QP_ATTR n
    [VI (lo_resp lo); VI (fu inp 4); VI (fu inp 5)]) [] n k fd.

Definition rdma_connect_resp k fd inp :=
  let t := t_ucma_abi_connect in
  no_resp (run_cmd t (cma_init_cmd t UCMA_CMD_CONNECT 0 [fs inp 3; VI (fu inp 4); VI 0]) [] 0 k fd).

Definition rdma_listen_resp k fd inp :=
  let t := t_ucma_abi_listen in
  no_resp (run_cmd t (cma_init_cmd t UCMA_CMD_LISTEN 0 [VI (fu inp 3); VI (fu inp 4)]) [] 0 k fd).

Definition rdma_accept_resp k fd inp :=
  let t := t_ucma_abi_accept in
  no_resp (run_cmd t (cma_init_cmd t UCMA_CMD_ACCEPT 0
    [VI (fu inp 3); fs inp 4; VI (fu inp 5); VI 0]) [] 0 k fd).

Definition rdma_disconnect_resp k fd inp :=
  let t := t_ucma_abi_disconnect in
  no_resp (run_cmd t (cma_init_cmd t UCMA_CMD_DISCONNECT 0 [VI (fu inp 3)]) [] 0 k fd).

(** A cleared [struct ucma_abi_conn_param] *)
Definition zero_conn_param : cval :=
  VS ([VI 0; VI 0; VB (replicate RDMA_MAX_PRIVATE_DATA 0)] ++ repeat (VI 0) 8).

(** Only the id is taken over. *)
Definition ucma_process_conn_resp_resp k fd inp :=
  let t := t_ucma_abi_accept in
  no_resp (run_cmd t (cma_init_cmd t UCMA_CMD_ACCEPT 0
    [VI 0; zero_conn_param; VI (fu inp 5); VI 0]) [] 0 k fd).

Definition rdma_get_cm_event_resp k fd inp :=
  let t := t_ucma_abi_get_event in
  let n := sizeof t_ucma_abi_event_resp in
  let '(k1, ret) := uc_init uc k in
  if negb (ret =? 0) then (k1, ret, None)
  else run_cmd t (cma_init_cmd t UCMA_CMD_GET_EVENT n [VI (lo_resp lo)]) [] n k1 fd.

(** [optval] points into the request buffer, of which [bytes] is the rest. *)
Definition rdma_set_option_resp k fd inp (optval : Z) (bytes : list Z) :=
  let t := t_ucma_abi_set_option in
  no_resp (run_cmd t (cma_init_cmd t UCMA_CMD_SET_OPTION 0
    [VI optval; VI (fu inp 4); VI (fu inp 5); VI (fu inp 6); VI (fu inp 7)]) bytes 0 k fd).

Definition rdma_migrate_id_resp k fd inp :=
  let t := t_ucma_abi_migrate_id in
  let n := sizeof t_ucma_abi_migrate_resp in
  run_cmd t (cma_init_cmd t UCMA_CMD_MIGRATE_ID n [VI (lo_resp lo); VI (fu inp 4); VI (fu inp 5)]) [] n k fd.

End Resp.
