(* ===== verification/RouterCm.v ===== *)
(** * Connection management in the router (ffrouter.cpp, [HandleRequest])

    The CM_* branches of a connection thread: the request is read into the thread's
    buffer, addresses of containers in it are mapped, the router's librdmacm passes the
    command to the kernel, and the response buffer's first bytes are written.  Both
    buffers live as long as the thread and are not cleared in between. *)

From S2P Require Import Prelude CLayout FfTypes Wire CmdCtrl CmdLocal ReqRouter RouterCtl RouterServe.
From S2P Require Import CmTypes CmVip CmResp.

(** A connection thread: what its reads and writes return, the two buffers, the
    descriptors it passed and the responses it wrote. *)
Record cm_thread : Type := mkCt {
  ct_in : list (option (list Z));
  ct_wr : list Z;
  ct_req : mem;
  ct_rsp : mem;
  ct_fds : list Z;
  ct_out : list (list Z) }.

(** The part of [class FreeFlowRouter] these branches use; a channel is its descriptor. *)
Record cm_router (K : Type) : Type := mkCmRouter {
  cr_kern : K;
  event_channel_map : gmap Z Z;
  vip_map : gmap (list Z) (list Z) }.
Arguments mkCmRouter {K}. Arguments cr_kern {K}. Arguments event_channel_map {K}. Arguments vip_map {K}.

(** The size of the buffers (0xff when RDMA is disabled, 0xfffff otherwise), and the
    address of the request buffer. *)
Record cm_os : Type := mkCmOs { co_cap : Z; co_req : Z; co_lib : lib_os }.

Definition set_ct_req (m : mem) (th : cm_thread) : cm_thread :=
  mkCt (ct_in th) (ct_wr th) m (ct_rsp th) (ct_fds th) (ct_out th).
Definition set_ct_rsp (m : mem) (th : cm_thread) : cm_thread :=
  mkCt (ct_in th) (ct_wr th) (ct_req th) m (ct_fds th) (ct_out th).

(** The next turn; the end of the thread; a function with no branch here. *)
Inductive cm_turn_result (K : Type) : Type :=
| CmNext (th : cm_thread) (r : cm_router K)
| CmDone (th : cm_thread) (r : cm_router K)
| CmElsewhere (code : Z) (th : cm_thread) (r : cm_router K).
Arguments CmNext {K}. Arguments CmDone {K}. Arguments CmElsewhere {K}.

(** ** Places in a request *)

(** Where the command of a request lies in the buffer, and its field [i]. *)
Definition cmd_at (cmd : cty) : Z := offsetof (t_cm_req cmd) 1.
Definition cmd_field_at (cmd : cty) (i : nat) : Z := cmd_at cmd + offsetof cmd i.

Section Branches.
Context {K : Type} (uc : ucma K) (os : cm_os).
Implicit Types (r : cm_router K) (th : cm_thread).

Definition set_kern (k : K) r : cm_router K := mkCmRouter k (event_channel_map r) (vip_map r).
Definition set_channels (m : gmap Z Z) r : cm_router K := mkCmRouter (cr_kern r) m (vip_map r).

(** The request as a value: the channel's descriptor and the command. *)
Definition req_fd (cmd : cty) th : Z := fi (fs (read_val (t_cm_req cmd) (ct_req th) 0) 0) 0.
Definition req_cmd (cmd : cty) th : cval := fs (read_val (t_cm_req cmd) (ct_req th) 0) 1.

(** A branch's result: the number of bytes to write, [None] for [goto end]. *)
Definition branch : Type := res (cm_thread * cm_router K * option Z).

(** [rsp->ret_errno = ...(&req->ec, &req->cmd, &rsp->resp)]: the response is stored
    first; on an error [rsp->resp] keeps what it held. *)
Definition answer_with (rsp_t : cty) (out : K * Z * option (list Z)) (size : Z) th r : branch :=
  let '(k, ret, resp) := out in
  if co_cap os <? sizeof rsp_t then Ub else
  let rsp1 := match resp with
              | Some bs => write_bytes (ct_rsp th) (offsetof rsp_t 1) bs
              | None => ct_rsp th
              end in
  Ok (set_ct_rsp (store32 rsp1 0 (u32 ret)) th, set_kern k r, Some size).

(** A branch that only forwards the command. *)
Definition forward (cmd rsp_t : cty) (f : K -> Z -> cval -> K * Z * option (list Z)) th r : branch :=
  answer_with rsp_t (f (cr_kern r) (req_fd cmd th) (req_cmd cmd th)) (sizeof rsp_t) th r.

(** ** Event channels *)

Definition do_create_event_channel th r : branch :=
  let '(k, ch) := rdma_create_event_channel_r uc (cr_kern r) in
  fd ← of_option ch;
  let r1 := set_kern k r in
  let r2 := if MAP_SIZE <=? fd then r1 else set_channels (<[fd := fd]> (event_channel_map r1)) r1 in
  let rsp := write_bytes (ct_rsp th) (offsetof t_CM_CREATE_EVENT_CHANNEL_RSP 1) (le_split 4 (u32 fd)) in
  Ok (mkCt (ct_in th) (ct_wr th) (ct_req th) rsp (ct_fds th ++ [fd]) (ct_out th), r2,
      Some (sizeof t_CM_CREATE_EVENT_CHANNEL_RSP)).

Definition do_destroy_event_channel th r : branch :=
  let h := fi (fs (read_val t_CM_DESTROY_EVENT_CHANNEL_REQ (ct_req th) 0) 0) 0 in
  ch ← tbl_get (event_channel_map r) h;
  match ch with
  | None => Ok (th, r, None)
  | Some fd =>
      let k := rdma_destroy_event_channel_r uc (cr_kern r) fd in
      Ok (set_ct_rsp (store32 (ct_rsp th) 0 0) th,
          set_kern k (set_channels (delete h (event_channel_map r)) r), Some (sizeof t_cm_ret))
  end.

(** ** Addresses *)

(** [map_vip(get_in_addr(&cmd.field))] *)
Definition map_addr (cmd : cty) (i : nat) r (m : mem) : mem :=
  map_vip (vip_map r) m (get_in_addr m (cmd_field_at cmd i)).

(** [sin_addr] whatever the family; [size] keeps its 0. *)
Definition do_bind_ip th r : branch :=
  let t := t_ucma_abi_bind_ip in
  let th1 := set_ct_req (map_vip (vip_map r) (ct_req th) (cmd_field_at t 4 + 4)) th in
  out ← rdma_bind_addr_resp uc (co_lib os) (cr_kern r) (req_fd t th1) (req_cmd t th1);
  answer_with t_cm_ret out 0 th1 r.

Definition do_bind th r : branch :=
  let t := t_ucma_abi_bind in
  let th1 := set_ct_req (map_addr t 6 r (ct_req th)) th in
  out ← rdma_bind_resp uc (co_lib os) (cr_kern r) (req_fd t th1) (req_cmd t th1);
  answer_with t_cm_ret out (sizeof t_cm_ret) th1 r.

Definition do_resolve_ip th r : branch :=
  let t := t_ucma_abi_resolve_ip in
  let th1 := set_ct_req (map_addr t 4 r (map_addr t 3 r (ct_req th))) th in
  forward t t_cm_ret (rdma_resolve_addr_resp uc (co_lib os)) th1 r.

Definition do_resolve_addr th r : branch :=
  let t := t_ucma_abi_resolve_addr in
  let th1 := set_ct_req (map_addr t 9 r (map_addr t 8 r (ct_req th))) th in
  forward t t_cm_ret (rdma_resolve_addr2_resp uc (co_lib os)) th1 r.

(** ** Options *)

Definition do_set_option th r : branch :=
  let v := read_val t_CM_SET_OPTION_REQ (ct_req th) 0 in
  let o := offsetof t_CM_SET_OPTION_REQ 2 in
  answer_with t_cm_ret
    (rdma_set_option_resp uc (co_lib os) (cr_kern r) (fi (fs v 0) 0) (fs v 1) (co_req os + o)
       (read_bytes (ct_req th) o (fu (fs v 1) 7)))
    (sizeof t_cm_ret) th r.

(** ** Branches that only forward *)

Definition do_create_id th r : branch :=
  forward t_ucma_abi_create_id (t_cm_rsp t_ucma_abi_create_id_resp) (rdma_create_id_resp uc (co_lib os)) th r.
Definition do_get_event th r : branch :=
  forward t_ucma_abi_get_event (t_cm_rsp t_ucma_abi_event_resp) (rdma_get_cm_event_resp uc (co_lib os)) th r.
Definition do_query_route th r : branch :=
  forward t_ucma_abi_query (t_cm_rsp t_ucma_abi_query_route_resp) (ucma_query_route_resp uc (co_lib os)) th r.
Definition do_listen th r : branch :=
  forward t_ucma_abi_listen t_cm_ret (rdma_listen_resp uc (co_lib os)) th r.
Definition do_query_addr th r : branch :=
  forward t_ucma_abi_query (t_cm_rsp t_ucma_abi_query_addr_resp) (ucma_query_addr_resp uc (co_lib os)) th r.
Definition do_query_gid th r : branch :=
  forward t_ucma_abi_query (t_cm_rsp t_ucma_abi_query_addr_resp) (ucma_query_gid_resp uc (co_lib os)) th r.
Definition do_process_conn_resp th r : branch :=
  forward t_ucma_abi_accept t_cm_ret (ucma_process_conn_resp_resp uc (co_lib os)) th r.
Definition do_destroy_id th r : branch :=
  forward t_ucma_abi_destroy_id (t_cm_rsp t_ucma_abi_destroy_id_resp) (ucma_destroy_kern_id_resp uc (co_lib os)) th r.
Definition do_resolve_route th r : branch :=
  forward t_ucma_abi_resolve_route t_cm_ret (rdma_resolve_route_resp uc (co_lib os)) th r.
Definition do_query_path th r : branch :=
  forward t_ucma_abi_query t_CM_UCMA_QUERY_PATH_RSP (ucma_query_path_resp uc (co_lib os)) th r.
Definition do_init_qp_attr th r : branch :=
  forward t_ucma_abi_init_qp_attr (t_cm_rsp t_ibv_kern_qp_attr) (rdma_init_qp_attr_resp uc (co_lib os)) th r.
Definition do_connect th r : branch :=
  forward t_ucma_abi_connect t_cm_ret (rdma_connect_resp uc (co_lib os)) th r.
Definition do_cm_accept th r : branch :=
  forward t_ucma_abi_accept t_cm_ret (rdma_accept_resp uc (co_lib os)) th r.
Definition do_migrate_id th r : branch :=
  forward t_ucma_abi_migrate_id (t_cm_rsp t_ucma_abi_migrate_resp) (rdma_migrate_id_resp uc (co_lib os)) th r.
Definition do_disconnect th r : branch :=
  forward t_ucma_abi_disconnect t_cm_ret (rdma_disconnect_resp uc (co_lib os)) th r.

(** ** The switch *)

Definition cm_branch (f : RDMA_FUNCTION_CALL) th r : option branch :=
  match f with
  | CM_CREATE_EVENT_CHANNEL => Some (do_create_event_channel th r)
  | CM_DESTROY_EVENT_CHANNEL => Some (do_destroy_event_channel th r)
  | CM_CREATE_ID => Some (do_create_id th r)
  | CM_BIND_IP => Some (do_bind_ip th r)
  | CM_BIND => Some (do_bind th r)
  | CM_GET_EVENT => Some (do_get_event th r)
  | CM_QUERY_ROUTE => Some (do_query_route th r)
  | CM_LISTEN => Some (do_listen th r)
  | CM_RESOLVE_IP => Some (do_resolve_ip th r)
  | CM_RESOLVE_ADDR => Some (do_resolve_addr th r)
  | CM_UCMA_QUERY_ADDR => Some (do_query_addr th r)
  | CM_UCMA_QUERY_GID => Some (do_query_gid th r)
  | CM_UCMA_PROCESS_CONN_RESP => Some (do_process_conn_resp th r)
  | CM_DESTROY_ID => Some (do_destroy_id th r)
  | CM_RESOLVE_ROUTE => Some (do_resolve_route th r)
  | CM_UCMA_QUERY_PATH => Some (do_query_path th r)
  | CM_INIT_QP_ATTR => Some (do_init_qp_attr th r)
  | CM_CONNECT => Some (do_connect th r)
  | CM_ACCEPT => Some (do_cm_accept th r)
  | CM_SET_OPTION => Some (do_set_option th r)
  | CM_MIGRATE_ID => Some (do_migrate_id th r)
  | CM_DISCONNECT => Some (do_disconnect th r)
  | _ => None
  end.

(** ** One turn of the loop *)

(** [read(client_sock, req_body, sizeof(t)) < sizeof(t)], as in [read_body]. *)
Definition cm_read_body (t : option cty) th : res (option cm_thread) :=
  match t with
  | None => Ok (Some th)
  | Some t =>
      match ct_in th with
      | [] => Spin
      | None :: rest => Ok (Some (mkCt rest (ct_wr th) (ct_req th) (ct_rsp th) (ct_fds th) (ct_out th)))
      | Some bs :: rest =>
          if co_cap os <? Z.of_nat (length bs) then Ub else
          Ok (if Z.of_nat (length bs) <? sizeof t then None
              else Some (mkCt rest (ct_wr th) (write_bytes (ct_req th) 0 bs) (ct_rsp th)
                           (ct_fds th) (ct_out th)))
      end
  end.

(** [n = write(client_sock, rsp, size)) < size] *)
Definition cm_write (size : Z) th : res (bool * cm_thread) :=
  match ct_wr th with
  | [] => Spin
  | n :: ws =>
      Ok (negb (n <? size),
          mkCt (ct_in th) ws (ct_req th) (ct_rsp th) (ct_fds th)
            (ct_out th ++ [read_bytes (ct_rsp th) 0 size]))
  end.

Definition cm_turn th r : res (cm_turn_result K) :=
  match ct_in th with
  | [] => Spin
  | None :: _ => Ub
  | Some hb :: rest =>
      let th1 := mkCt rest (ct_wr th) (ct_req th) (ct_rsp th) (ct_fds th) (ct_out th) in
      if Z.of_nat (length hb) <? sizeof t_FfrRequestHeader then Ok (CmDone th1 r) else
      let code := fu (decode t_FfrRequestHeader hb) 1 in
      match f ← func_of_code code; q ← cm_format f; Some (f, q.1) with
      | None => Ok (CmElsewhere code th1 r)
      | Some (f, q) =>
          b ← cm_read_body q th1;
          match b with
          | None => Ok (CmDone th1 r)
          | Some th2 =>
              match cm_branch f th2 r with
              | None => Ok (CmElsewhere code th1 r)
              | Some br =>
                  '(th3, r', size) ← br;
                  match size with
                  | None => Ok (CmNext th3 r')
                  | Some n =>
                      '(ok, th4) ← cm_write n th3;
                      Ok (if (ok : bool) then CmNext th4 r' else CmDone th4 r')
                  end
              end
          end
      end
  end.

(** The loop; each turn reads at least once. *)
Fixpoint cm_turns (fuel : nat) th r : res (cm_turn_result K) :=
  match fuel with
  | O => Spin
  | S fuel' =>
      t ← cm_turn th r;
      match t with CmNext th' r' => cm_turns fuel' th' r' | _ => Ok t end
  end.

Definition cm_serve th r : res (cm_turn_result K) := cm_turns (S (length (ct_in th))) th r.

End Branches.
