(* ===== verification/CmRequest.v ===== *)
(** * The control channel of librdmacm (librdmacm, freeflow.c)

    Unlike libibverbs, librdmacm keeps its connections: ten for commands, picked at
    random, and one per event channel.  Sockets, their reads and writes, [connect_router]
    and [recv_fd] are those of [ReqRouter]: the two libraries have the same text. *)

From S2P Require Import Prelude CLayout FfTypes Wire CmdCtrl ReqRouter CmTypes.

Definition PARALLEL_SIZE : nat := 10.

(** A connection that is kept: [cs_msgs] are the control messages its [recvmsg] calls
    will deliver. *)
Record cm_sock : Type := mkCmSock { cs : sock_with_lock; cs_msgs : list recvmsg_result }.

Definition with_cmsg (m : recvmsg_result) (s : sock_with_lock) : sock_with_lock :=
  mkSock (sock s) (mkConn (k_socket (peer s)) (k_connect (peer s)) (k_writes (peer s))
                     (k_reads (peer s)) m (k_out (peer s))).

Definition cm_recv_fd (s : cm_sock) : res (Z * cm_sock) :=
  match cs_msgs s with
  | [] => Spin
  | m :: ms => fd ← recv_fd (with_cmsg m (cs s)); Ok (fd, mkCmSock (cs s) ms)
  end.

(** The file's variables.  An index without entry of [ec_map] or [ec_socks] holds the
    -1 of [init_sock].  [cc_rand]: the results of [rand]; [cc_conns]: the connections the
    router will accept. *)
Record cm_ctl : Type := mkCmCtl {
  ec_map : gmap Z Z;
  ec_socks : gmap Z cm_sock;
  control_sock : list cm_sock;
  write_sock : list cm_sock;
  read_sock : list cm_sock;
  poll_sock : list cm_sock;
  event_sock : list cm_sock;
  cc_initialized : bool;
  cc_rand : list Z;
  cc_conns : list (conn * list recvmsg_result) }.

Section Channel.
Context (e : env).
Implicit Types c : cm_ctl.

Definition set_conns (ks : list (conn * list recvmsg_result)) c : cm_ctl :=
  mkCmCtl (ec_map c) (ec_socks c) (control_sock c) (write_sock c) (read_sock c) (poll_sock c)
    (event_sock c) (cc_initialized c) (cc_rand c) ks.
Definition set_rand (l : list Z) c : cm_ctl :=
  mkCmCtl (ec_map c) (ec_socks c) (control_sock c) (write_sock c) (read_sock c) (poll_sock c)
    (event_sock c) (cc_initialized c) l (cc_conns c).
Definition set_ec_map (m : gmap Z Z) c : cm_ctl :=
  mkCmCtl m (ec_socks c) (control_sock c) (write_sock c) (read_sock c) (poll_sock c)
    (event_sock c) (cc_initialized c) (cc_rand c) (cc_conns c).

(** [connect_router] on one of the sockets. *)
Definition cm_connect c : res (cm_ctl * cm_sock) :=
  match cc_conns c with
  | [] => Spin
  | (k, ms) :: ks => s ← connect_router e k; Ok (set_conns ks c, mkCmSock s ms)
  end.

(** ** Start *)

(** One turn of the first loop of [init_sock]. *)
Definition init_row c : res cm_ctl :=
  '(c, s1) ← cm_connect c;
  '(c, s2) ← cm_connect c;
  '(c, s3) ← cm_connect c;
  '(c, s4) ← cm_connect c;
  '(c, s5) ← cm_connect c;
  Ok (mkCmCtl (ec_map c) (ec_socks c) (control_sock c ++ [s1]) (write_sock c ++ [s2])
        (read_sock c ++ [s3]) (poll_sock c ++ [s4]) (event_sock c ++ [s5])
        (cc_initialized c) (cc_rand c) (cc_conns c)).

Fixpoint init_rows (n : nat) c : res cm_ctl :=
  match n with O => Ok c | S n' => c1 ← init_row c; init_rows n' c1 end.

Definition cm_init_sock c : res cm_ctl :=
  if cc_initialized c then Ok c else
  init_rows PARALLEL_SIZE (mkCmCtl ∅ ∅ [] [] [] [] [] true (cc_rand c) (cc_conns c)).

(** ** The socket of a request *)

(** Which [struct sock_with_lock] a request uses. *)
Inductive slot : Type :=
| SControl (i : nat)
| SEvent (i : nat)
| SChannel (fd : Z).

(** The socket a slot holds; the initial one of a channel is not connected. *)
Definition get_slot (sl : slot) c : res (option cm_sock) :=
  match sl with
  | SControl i => s ← of_option (control_sock c !! i); Ok (Some s)
  | SEvent i => s ← of_option (event_sock c !! i); Ok (Some s)
  | SChannel fd => if fd <? 0 then Ub else Ok (ec_socks c !! fd)
  end.

Definition set_slot (sl : slot) (s : cm_sock) c : cm_ctl :=
  match sl with
  | SControl i =>
      mkCmCtl (ec_map c) (ec_socks c) (<[i := s]> (control_sock c)) (write_sock c) (read_sock c)
        (poll_sock c) (event_sock c) (cc_initialized c) (cc_rand c) (cc_conns c)
  | SEvent i =>
      mkCmCtl (ec_map c) (ec_socks c) (control_sock c) (write_sock c) (read_sock c)
        (poll_sock c) (<[i := s]> (event_sock c)) (cc_initialized c) (cc_rand c) (cc_conns c)
  | SChannel fd =>
      mkCmCtl (ec_map c) (<[fd := s]> (ec_socks c)) (control_sock c) (write_sock c) (read_sock c)
        (poll_sock c) (event_sock c) (cc_initialized c) (cc_rand c) (cc_conns c)
  end.

(** [get_unix_sock] and [get_unix_sock_event_channel]: the slot, connected if it was not. *)
Definition connected (sl : slot) c : res (cm_ctl * cm_sock) :=
  s ← get_slot sl c;
  match s with
  | Some s => if sock (cs s) <? 0 then '(c1, s1) ← cm_connect c; Ok (set_slot sl s1 c1, s1) else Ok (c, s)
  | None => '(c1, s1) ← cm_connect c; Ok (set_slot sl s1 c1, s1)
  end.

Definition is_control (req : RDMA_FUNCTION_CALL) : bool :=
  match req with
  | CM_CREATE_EVENT_CHANNEL | CM_DESTROY_EVENT_CHANNEL | CM_CREATE_ID | CM_BIND_IP | CM_BIND
  | CM_QUERY_ROUTE | CM_LISTEN | CM_RESOLVE_IP | CM_RESOLVE_ADDR | CM_UCMA_QUERY_ADDR
  | CM_UCMA_QUERY_GID | CM_DESTROY_ID | CM_RESOLVE_ROUTE | CM_UCMA_QUERY_PATH
  | CM_UCMA_PROCESS_CONN_RESP | CM_INIT_QP_ATTR | CM_CONNECT | CM_ACCEPT | CM_SET_OPTION
  | CM_MIGRATE_ID | CM_DISCONNECT => true
  | _ => false
  end.

Definition cm_get_unix_sock (req : RDMA_FUNCTION_CALL) c : res (cm_ctl * option (slot * cm_sock)) :=
  match cc_rand c with
  | [] => Spin
  | n :: ns =>
      let index := Z.to_nat (n mod Z.of_nat PARALLEL_SIZE) in
      let c1 := set_rand ns c in
      let sl := if is_control req then Some (SControl index)
                else if bool_decide (req = CM_GET_EVENT) then Some (SEvent index) else None in
      match sl with
      | None => Ok (c1, None)
      | Some sl => '(c2, s) ← connected sl c1; Ok (c2, Some (sl, s))
      end
  end.

Definition get_unix_sock_event_channel (fd : Z) c : res (cm_ctl * option (slot * cm_sock)) :=
  if MAP_SIZE <=? fd then Ok (c, None)
  else '(c1, s) ← connected (SChannel fd) c; Ok (c1, Some (SChannel fd, s)).

(** ** A request *)

(** [req_body->ec.fd] *)
Definition body_fd (body : list Z) : Z := s32 (le_combine (take 4 body)).

(** Bytes read into the caller's struct: [Ub] when they are more than it has. *)
Definition fill_rsp (rsp bs : list Z) : res (list Z) :=
  if Z.of_nat (length rsp) <? Z.of_nat (length bs) then Ub else Ok (overwrite rsp bs).

(** The end of a request for a channel: the descriptor that came along is entered for
    the one the router sent, and given to the caller. *)
Definition map_event_channel (mapped_fd : Z) (rsp : list Z) c : res (cm_ctl * list Z) :=
  if (0 <=? mapped_fd) && (mapped_fd <? MAP_SIZE) then
    let o := Z.to_nat (offsetof t_CM_CREATE_EVENT_CHANNEL_RSP 1) in
    let fd := s32 (le_combine (take 4 (drop o rsp))) in
    Ok (set_ec_map (<[mapped_fd := fd]> (ec_map c)) c,
        take o rsp ++ le_split 4 mapped_fd ++ drop (o + 4) rsp)
  else Ub.

(** The whole call; [rsp] is the caller's response struct. *)
Definition cm_request_router (req : RDMA_FUNCTION_CALL) (body rsp : list Z) c
  : res (cm_ctl * list Z) :=
  '(c1, us) ← (if bool_decide (req = CM_GET_EVENT)
               then get_unix_sock_event_channel (body_fd body) c
               else cm_get_unix_sock req c);
  match us with
  | None => Ok (c1, rsp)
  | Some (sl, s) =>
      if sock (cs s) <? 0 then Ok (c1, rsp) else
      cid ← of_option (e_ffr_id e);
      match cm_format req with
      | None => Ok (c1, rsp)
      | Some (q, rt) =>
          let n := match q with Some t => sizeof t | None => 0 end in
          s1 ← send_request (cs s) (mkReqHeader cid req n) body;
          '(mapped, s2) ← (if bool_decide (req = CM_CREATE_EVENT_CHANNEL)
                           then cm_recv_fd (mkCmSock s1 (cs_msgs s))
                           else Ok (-1, mkCmSock s1 (cs_msgs s)));
          '(ok, bs, s3) ← sock_read_full (cs s2) (sizeof rt);
          rsp1 ← fill_rsp rsp bs;
          let c2 := set_slot sl (mkCmSock s3 (cs_msgs s2)) c1 in
          if ok && bool_decide (req = CM_CREATE_EVENT_CHANNEL)
          then map_event_channel mapped rsp1 c2 else Ok (c2, rsp1)
      end
  end.

End Channel.
