(* ===== verification/CmIds.v ===== *)
(** * Channels and identifiers of librdmacm (librdmacm, cma.c)

    The client's connection manager: event channels, the identifiers of connections
    ([struct cma_id_private]), devices and acknowledged events, over the control channel
    of [CmRequest].  Objects are entries of the process's heap; [malloc] gives the next
    of a list of results.  The verbs librdmacm calls are a record of operations.
    Multicast groups and shared receive queues are left out. *)

From S2P Require Import Prelude CLayout FfTypes Wire CmdCtrl ReqRouter Indexer Marshall.
From S2P Require Import CmTypes CmResp CmRequest.

Definition RDMA_PS_IPOIB : Z := 2.
Definition RDMA_PS_TCP : Z := 262.
Definition RDMA_PS_UDP : Z := 273.
Definition RDMA_PS_IB : Z := 319.
Definition IBV_QPT_RC : Z := 2.
Definition IBV_QPT_UD : Z := 4.

(** ** Objects *)

(** [struct rdma_route]: the addresses are 128 bytes each. *)
Record route : Type := mkRoute {
  rt_src : list Z; rt_dst : list Z; rt_sgid : list Z; rt_dgid : list Z; rt_pkey : Z;
  rt_paths : list path_rec }.

Definition zero_route : route :=
  mkRoute (replicate 128 0) (replicate 128 0) (replicate 16 0) (replicate 16 0) 0 [].

(** What the manager reads of a queue pair: pointer, number, whether it has a shared
    receive queue. *)
Record cm_qp : Type := mkCmQp { cmq_ptr : Z; cmq_num : Z; cmq_srq : bool }.

(** [struct cma_id_private]; [id_dev]: position of [cma_dev] in [cma_dev_array]. *)
Record cma_id : Type := mkCmaId {
  id_channel : Z; id_context : Z; id_ps : Z; id_qp_type : Z;
  id_route : route; id_dev : option nat; id_pd : option Z; id_port_num : Z;
  id_qp : option cm_qp; id_event : option Z;
  id_handle : Z; id_sync : bool; id_events_completed : Z; id_connect_error : bool;
  id_connect : list Z; id_initiator_depth : Z; id_responder_resources : Z }.

(** [struct cma_device] once it is opened, and before. *)
Record dev_attr : Type := mkDevAttr {
  da_ctx : Z; da_transport : Z; da_ports : list Z; da_max_qpsize : Z;
  da_max_initiator_depth : Z; da_max_responder_resources : Z }.
Record cma_device : Type := mkCmaDev {
  cd_guid : Z; cd_attr : option dev_attr; cd_pd : option Z; cd_refcnt : Z }.

(** [struct rdma_conn_param] and [struct rdma_ud_param], the private data as its bytes. *)
Record conn_param : Type := mkConnParam {
  cp_private : list Z; cp_responder_resources : Z; cp_initiator_depth : Z; cp_flow_control : Z;
  cp_retry_count : Z; cp_rnr_retry_count : Z; cp_srq : Z; cp_qp_num : Z }.
Record ud_param : Type := mkUdParam {
  up_private : list Z; up_ah_attr : ah_attr; up_qp_num : Z; up_qkey : Z }.
(** The union of an event *)
Inductive event_param : Type := PZero | PConn (c : conn_param) | PUd (u : ud_param).

(** [struct cma_event] *)
Record cma_event : Type := mkCmaEvent {
  ev_id : Z; ev_listen : option Z; ev_priv : Z; ev_type : Z; ev_status : Z; ev_param : event_param }.

(** The verbs librdmacm calls; [vb_open] gives the context and the transport. *)
Record verbs (V : Type) : Type := mkVerbs {
  vb_open : V -> Z -> V * option (Z * Z);
  vb_close : V -> Z -> V;
  vb_query_device : V -> Z -> Z * (Z * Z * Z * Z);
  vb_query_port : V -> Z -> Z -> option Z;
  vb_alloc_pd : V -> Z -> V * option Z;
  vb_dealloc_pd : V -> option Z -> V;
  vb_modify_qp : V -> Z -> qp_attr -> Z -> V * Z }.
Arguments vb_open {V}. Arguments vb_close {V}. Arguments vb_query_device {V}.
Arguments vb_query_port {V}. Arguments vb_alloc_pd {V}. Arguments vb_dealloc_pd {V}.
Arguments vb_modify_qp {V}.

(** The process: environment, control channel, heap, variables of cma.c.  [q_idm_mem]:
    whether the index map gets memory for a block. *)
Record cm_proc (V : Type) : Type := mkCmProc {
  q_env : env; q_junk : Z; q_idm_mem : bool;
  q_ctl : cm_ctl;
  q_heap : list (option Z);
  q_chans : gmap Z Z;
  q_ids : gmap Z cma_id;
  q_evts : gmap Z cma_event;
  ucma_idm : index_map;
  cma_dev_array : list cma_device;
  af_ib_support : bool;
  q_verbs : V }.
Arguments mkCmProc {V}. Arguments q_env {V}. Arguments q_junk {V}. Arguments q_idm_mem {V}.
Arguments q_ctl {V}. Arguments q_heap {V}. Arguments q_chans {V}. Arguments q_ids {V}.
Arguments q_evts {V}. Arguments ucma_idm {V}. Arguments cma_dev_array {V}.
Arguments af_ib_support {V}. Arguments q_verbs {V}.

(** ** Setters *)

Definition set_route (x : route) (i : cma_id) : cma_id :=
  mkCmaId (id_channel i) (id_context i) (id_ps i) (id_qp_type i) x (id_dev i) (id_pd i) (id_port_num i)
    (id_qp i) (id_event i) (id_handle i) (id_sync i) (id_events_completed i) (id_connect_error i)
    (id_connect i) (id_initiator_depth i) (id_responder_resources i).
Definition set_dev_pd (d : option nat) (pd : option Z) (i : cma_id) : cma_id :=
  mkCmaId (id_channel i) (id_context i) (id_ps i) (id_qp_type i) (id_route i) d pd (id_port_num i)
    (id_qp i) (id_event i) (id_handle i) (id_sync i) (id_events_completed i) (id_connect_error i)
    (id_connect i) (id_initiator_depth i) (id_responder_resources i).
Definition set_port (n : Z) (i : cma_id) : cma_id :=
  mkCmaId (id_channel i) (id_context i) (id_ps i) (id_qp_type i) (id_route i) (id_dev i) (id_pd i) n
    (id_qp i) (id_event i) (id_handle i) (id_sync i) (id_events_completed i) (id_connect_error i)
    (id_connect i) (id_initiator_depth i) (id_responder_resources i).
Definition set_event (e : option Z) (i : cma_id) : cma_id :=
  mkCmaId (id_channel i) (id_context i) (id_ps i) (id_qp_type i) (id_route i) (id_dev i) (id_pd i)
    (id_port_num i) (id_qp i) e (id_handle i) (id_sync i) (id_events_completed i) (id_connect_error i)
    (id_connect i) (id_initiator_depth i) (id_responder_resources i).
Definition set_handle (h : Z) (i : cma_id) : cma_id :=
  mkCmaId (id_channel i) (id_context i) (id_ps i) (id_qp_type i) (id_route i) (id_dev i) (id_pd i)
    (id_port_num i) (id_qp i) (id_event i) h (id_sync i) (id_events_completed i) (id_connect_error i)
    (id_connect i) (id_initiator_depth i) (id_responder_resources i).
Definition set_channel_sync (ch : Z) (s : bool) (i : cma_id) : cma_id :=
  mkCmaId ch (id_context i) (id_ps i) (id_qp_type i) (id_route i) (id_dev i) (id_pd i)
    (id_port_num i) (id_qp i) (id_event i) (id_handle i) s (id_events_completed i) (id_connect_error i)
    (id_connect i) (id_initiator_depth i) (id_responder_resources i).
Definition set_completed (n : Z) (i : cma_id) : cma_id :=
  mkCmaId (id_channel i) (id_context i) (id_ps i) (id_qp_type i) (id_route i) (id_dev i) (id_pd i)
    (id_port_num i) (id_qp i) (id_event i) (id_handle i) (id_sync i) n (id_connect_error i)
    (id_connect i) (id_initiator_depth i) (id_responder_resources i).
Definition set_connect_error (b : bool) (i : cma_id) : cma_id :=
  mkCmaId (id_channel i) (id_context i) (id_ps i) (id_qp_type i) (id_route i) (id_dev i) (id_pd i)
    (id_port_num i) (id_qp i) (id_event i) (id_handle i) (id_sync i) (id_events_completed i) b
    (id_connect i) (id_initiator_depth i) (id_responder_resources i).
Definition set_connect (c : list Z) (i : cma_id) : cma_id :=
  mkCmaId (id_channel i) (id_context i) (id_ps i) (id_qp_type i) (id_route i) (id_dev i) (id_pd i)
    (id_port_num i) (id_qp i) (id_event i) (id_handle i) (id_sync i) (id_events_completed i)
    (id_connect_error i) c (id_initiator_depth i) (id_responder_resources i).
Definition set_depths (d r : Z) (i : cma_id) : cma_id :=
  mkCmaId (id_channel i) (id_context i) (id_ps i) (id_qp_type i) (id_route i) (id_dev i) (id_pd i)
    (id_port_num i) (id_qp i) (id_event i) (id_handle i) (id_sync i) (id_events_completed i)
    (id_connect_error i) (id_connect i) d r.

Section Ids.
Context {V : Type} (vb : verbs V).
Implicit Types p : cm_proc V.

Definition set_q_ctl (c : cm_ctl) p : cm_proc V :=
  mkCmProc (q_env p) (q_junk p) (q_idm_mem p) c (q_heap p) (q_chans p) (q_ids p) (q_evts p)
    (ucma_idm p) (cma_dev_array p) (af_ib_support p) (q_verbs p).
Definition set_heap (h : list (option Z)) p : cm_proc V :=
  mkCmProc (q_env p) (q_junk p) (q_idm_mem p) (q_ctl p) h (q_chans p) (q_ids p) (q_evts p)
    (ucma_idm p) (cma_dev_array p) (af_ib_support p) (q_verbs p).
Definition set_chans (m : gmap Z Z) p : cm_proc V :=
  mkCmProc (q_env p) (q_junk p) (q_idm_mem p) (q_ctl p) (q_heap p) m (q_ids p) (q_evts p)
    (ucma_idm p) (cma_dev_array p) (af_ib_support p) (q_verbs p).
Definition set_ids (m : gmap Z cma_id) p : cm_proc V :=
  mkCmProc (q_env p) (q_junk p) (q_idm_mem p) (q_ctl p) (q_heap p) (q_chans p) m (q_evts p)
    (ucma_idm p) (cma_dev_array p) (af_ib_support p) (q_verbs p).
Definition set_evts (m : gmap Z cma_event) p : cm_proc V :=
  mkCmProc (q_env p) (q_junk p) (q_idm_mem p) (q_ctl p) (q_heap p) (q_chans p) (q_ids p) m
    (ucma_idm p) (cma_dev_array p) (af_ib_support p) (q_verbs p).
Definition set_idm (m : index_map) p : cm_proc V :=
  mkCmProc (q_env p) (q_junk p) (q_idm_mem p) (q_ctl p) (q_heap p) (q_chans p) (q_ids p) (q_evts p)
    m (cma_dev_array p) (af_ib_support p) (q_verbs p).
Definition set_devs (l : list cma_device) (v : V) p : cm_proc V :=
  mkCmProc (q_env p) (q_junk p) (q_idm_mem p) (q_ctl p) (q_heap p) (q_chans p) (q_ids p) (q_evts p)
    (ucma_idm p) l (af_ib_support p) v.
Definition set_af_ib (b : bool) p : cm_proc V :=
  mkCmProc (q_env p) (q_junk p) (q_idm_mem p) (q_ctl p) (q_heap p) (q_chans p) (q_ids p) (q_evts p)
    (ucma_idm p) (cma_dev_array p) b (q_verbs p).

Definition malloc p : res (cm_proc V * option Z) :=
  match q_heap p with [] => Spin | a :: h => Ok (set_heap h p, a) end.

Definition get_id p (a : Z) : res cma_id := of_option (q_ids p !! a).
Definition put_id (a : Z) (i : cma_id) p : cm_proc V := set_ids (<[a := i]> (q_ids p)) p.

(** ** Requests *)

(** A request whose struct was cleared before it was filled; the response's struct was
    not. *)
Definition cm_ask (req : RDMA_FUNCTION_CALL) (t : cty) (v : cval) (rt : cty) p
  : res (cm_proc V * cval) :=
  '(c, rsp) ← cm_request_router (q_env p) req (encode 0 t v)
                (replicate (Z.to_nat (sizeof rt)) (q_junk p)) (q_ctl p);
  Ok (set_q_ctl c p, decode rt rsp).

(** [event_channel_map[channel->fd]] *)
Definition mapped_fd p (fd : Z) : res Z :=
  if (0 <=? fd) && (fd <? MAP_SIZE) then Ok (default (-1) (ec_map (q_ctl p) !! fd)) else Ub.

Definition chan_fd p (ch : Z) : res Z := of_option (q_chans p !! ch).

(** The request struct for a command on the channel with descriptor [fd]. *)
Definition ask_cmd (req : RDMA_FUNCTION_CALL) (t : cty) (cmd : cval) (rt : cty) (fd : Z) p
  : res (cm_proc V * cval) :=
  rfd ← mapped_fd p fd;
  cm_ask req (t_cm_req t) (VS [VS [VI (u32 rfd)]; cmd]) rt p.

(** A command on the channel of an identifier. *)
Definition ask_id (req : RDMA_FUNCTION_CALL) (t : cty) (cmd : cval) (rt : cty) (i : cma_id) p
  : res (cm_proc V * cval) :=
  fd ← chan_fd p (id_channel i); ask_cmd req t cmd rt fd p.

(** ** Event channels *)

(** [ucma_init], here the initialisation of the library. *)
Context (ucma_init : cm_proc V -> res (cm_proc V * Z)).

Definition rdma_create_event_channel p : res (cm_proc V * option Z) :=
  c ← cm_init_sock (q_env p) (q_ctl p);
  '(p, ret) ← ucma_init (set_q_ctl c p);
  if negb (ret =? 0) then Ok (p, None) else
  '(p, channel) ← malloc p;
  match channel with
  | None => Ok (p, None)
  | Some a =>
      '(p, rsp) ← cm_ask CM_CREATE_EVENT_CHANNEL (Struct []) (VS []) t_CM_CREATE_EVENT_CHANNEL_RSP p;
      let fd := fi (fs rsp 1) 0 in
      if fd <? 0 then Ok (p, None)
      else Ok (set_chans (<[a := fd]> (q_chans p)) p, Some a)
  end.

(** The function asks for another channel, with the struct of the response to
    CM_DESTROY_EVENT_CHANNEL to read into. *)
Definition rdma_destroy_event_channel (channel : Z) p : res (cm_proc V) :=
  fd ← chan_fd p channel;
  rfd ← mapped_fd p fd;
  '(p, _) ← cm_ask CM_CREATE_EVENT_CHANNEL t_CM_DESTROY_EVENT_CHANNEL_REQ (VS [VS [VI (u32 rfd)]])
              t_cm_ret p;
  Ok (set_chans (delete channel (q_chans p)) p).

(** ** Devices *)

Definition IBV_LINK_LAYER_UNSPECIFIED : Z := 0.

Definition port_layers (ctx : Z) (n : Z) (v : V) : list Z :=
  (fun i => default IBV_LINK_LAYER_UNSPECIFIED (vb_query_port vb v ctx i)) <$> seqZ 1 n.

Definition ucma_init_device (k : nat) p : res (cm_proc V * Z) :=
  d ← of_option (cma_dev_array p !! k);
  match cd_attr d with
  | Some _ => Ok (p, 0)
  | None =>
      let '(v, x) := vb_open vb (q_verbs p) (cd_guid d) in
      let p1 := set_devs (cma_dev_array p) v p in
      match x with
      | None => Ok (p1, -1)
      | Some (ctx, transport) =>
          let close p := set_devs (cma_dev_array p) (vb_close vb (q_verbs p) ctx) p in
          let '(err, (ports, max_wr, init_rd, rd)) := vb_query_device vb v ctx in
          if negb (err =? 0) then Ok (close p1, -1) else
          '(p2, port) ← malloc p1;
          match port with
          | None => Ok (close p2, -1)
          | Some _ =>
              let a := mkDevAttr ctx transport (port_layers ctx ports v) max_wr (u8 init_rd) (u8 rd) in
              Ok (set_devs (<[k := mkCmaDev (cd_guid d) (Some a) (cd_pd d) (cd_refcnt d)]>
                              (cma_dev_array p2)) (q_verbs p2) p2, 0)
          end
      end
  end.

(** The first device with the GUID. *)
Fixpoint find_guid (guid : Z) (k : nat) (l : list cma_device) : option nat :=
  match l with
  | [] => None
  | d :: l' => if cd_guid d =? guid then Some k else find_guid guid (S k) l'
  end.

Definition ucma_get_device (a guid : Z) p : res (cm_proc V * Z) :=
  match find_guid guid 0 (cma_dev_array p) with
  | None => Ok (p, -1)
  | Some k =>
      '(p, ret) ← ucma_init_device k p;
      if negb (ret =? 0) then Ok (p, ret) else
      d ← of_option (cma_dev_array p !! k);
      let use d p :=
        i ← get_id p a;
        Ok (put_id a (set_dev_pd (Some k) (cd_pd d) i)
              (set_devs (<[k := d]> (cma_dev_array p)) (q_verbs p) p), 0) in
      if cd_refcnt d =? 0 then
        ctx ← of_option (da_ctx <$> cd_attr d);
        let '(v, pd) := vb_alloc_pd vb (q_verbs p) ctx in
        let p := set_devs (cma_dev_array p) v p in
        match pd with
        | None => Ok (set_devs (<[k := mkCmaDev (cd_guid d) (cd_attr d) None 0]> (cma_dev_array p))
                        (q_verbs p) p, -1)
        | Some _ => use (mkCmaDev (cd_guid d) (cd_attr d) pd 1) p
        end
      else use (mkCmaDev (cd_guid d) (cd_attr d) (cd_pd d) (cd_refcnt d + 1)) p
  end.

Definition ucma_put_device (k : nat) p : res (cm_proc V) :=
  d ← of_option (cma_dev_array p !! k);
  let d' := mkCmaDev (cd_guid d) (cd_attr d) (cd_pd d) (cd_refcnt d - 1) in
  let v := if cd_refcnt d - 1 =? 0 then vb_dealloc_pd vb (q_verbs p) (cd_pd d) else q_verbs p in
  Ok (set_devs (<[k := d']> (cma_dev_array p)) v p).

(** ** Identifiers *)

Definition ucma_insert_id (a : Z) p : res (cm_proc V) :=
  i ← get_id p a;
  '(m, _) ← idm_set (q_idm_mem p) (ucma_idm p) (s32 (id_handle i)) a;
  Ok (set_idm m p).

Definition ucma_remove_id (i : cma_id) p : res (cm_proc V) :=
  if id_handle i <=? IDX_MAX_INDEX then
    '(m, _) ← idm_clear (ucma_idm p) (id_handle i); Ok (set_idm m p)
  else Ok p.

Definition ucma_lookup_id (handle : Z) p : res Z := idm_lookup (ucma_idm p) (s32 handle).

Definition ucma_free_id (a : Z) p : res (cm_proc V) :=
  i ← get_id p a;
  p ← ucma_remove_id i p;
  p ← (match id_dev i with Some k => ucma_put_device k p | None => Ok p end);
  p ← (if id_sync i then rdma_destroy_event_channel (id_channel i) p else Ok p);
  Ok (set_ids (delete a (q_ids p)) p).

Definition fresh_id (channel context ps qp_type : Z) (sync : bool) : cma_id :=
  mkCmaId channel context ps qp_type zero_route None None 0 None None (2 ^ 32 - 1) sync 0 false [] 0 0.

Definition ucma_alloc_id (channel : option Z) (context ps qp_type : Z) p
  : res (cm_proc V * option Z) :=
  '(p, a) ← malloc p;
  match a with
  | None => Ok (p, None)
  | Some a =>
      match channel with
      | Some ch => Ok (put_id a (fresh_id ch context ps qp_type false) p, Some a)
      | None =>
          '(p, ch) ← rdma_create_event_channel p;
          match ch with
          | Some ch => Ok (put_id a (fresh_id ch context ps qp_type true) p, Some a)
          | None => Ok (p, None)
          end
      end
  end.

(** The command's header is left 0: the router fills it. *)
Definition create_id_cmd (a ps qp_type : Z) : cval :=
  VS [VI 0; VI 0; VI 0; VI a; VI 0; VI (u16 ps); VI (u8 qp_type); VB (replicate 5 0)].

Definition rdma_create_id2 (channel : option Z) (context ps qp_type : Z) p
  : res (cm_proc V * option Z * Z) :=
  '(p, ret) ← ucma_init p;
  if negb (ret =? 0) then Ok (p, None, ret) else
  '(p, a) ← ucma_alloc_id channel context ps qp_type p;
  match a with
  | None => Ok (p, None, -1)
  | Some a =>
      i ← get_id p a;
      '(p, rsp) ← ask_id CM_CREATE_ID t_ucma_abi_create_id (create_id_cmd a ps qp_type)
                    (t_cm_rsp t_ucma_abi_create_id_resp) i p;
      p ← ucma_insert_id a (put_id a (set_handle (fu (fs rsp 1) 0) i) p);
      Ok (p, Some a, 0)
  end.

Definition rdma_create_id (channel : option Z) (context ps : Z) p : res (cm_proc V * option Z * Z) :=
  let qp_type := if (ps =? RDMA_PS_IPOIB) || (ps =? RDMA_PS_UDP) then IBV_QPT_UD else IBV_QPT_RC in
  rdma_create_id2 channel context ps qp_type p.

Definition destroy_id_cmd (resp handle : Z) : cval :=
  let t := t_ucma_abi_destroy_id in
  cma_init_cmd t UCMA_CMD_DESTROY_ID (sizeof t_ucma_abi_destroy_id_resp) [VI resp; VI handle; VI 0].

(** [resp]: the address of the response on the client's stack, which the router ignores. *)
Context (resp : Z).

Definition ucma_destroy_kern_id (fd handle : Z) p : res (cm_proc V * Z) :=
  '(p, rsp) ← ask_cmd CM_DESTROY_ID t_ucma_abi_destroy_id (destroy_id_cmd resp handle)
                (t_cm_rsp t_ucma_abi_destroy_id_resp) fd p;
  Ok (p, fi (fs rsp 1) 0).

(** ** Events *)

Definition ucma_complete_event (a : Z) p : res (cm_proc V) :=
  i ← get_id p a; Ok (put_id a (set_completed (id_events_completed i + 1) i) p).

Definition rdma_ack_cm_event (ev : option Z) p : res (cm_proc V * Z) :=
  match ev with
  | None => Ok (p, -1)
  | Some e =>
      evt ← of_option (q_evts p !! e);
      p ← ucma_complete_event (ev_priv evt) p;
      Ok (set_evts (delete e (q_evts p)) p, 0)
  end.

(** Waiting for the other threads to acknowledge the events reported. *)
Definition wait_events (a n : Z) p : res (cm_proc V) :=
  i ← get_id p a; if id_events_completed i <? n then Spin else Ok p.

Definition rdma_destroy_id (a : Z) p : res (cm_proc V * Z) :=
  i ← get_id p a;
  fd ← chan_fd p (id_channel i);
  '(p, ret) ← ucma_destroy_kern_id fd (id_handle i) p;
  if ret <? 0 then Ok (p, ret) else
  '(p, _) ← (match id_event i with Some e => rdma_ack_cm_event (Some e) p | None => Ok (p, 0) end);
  p ← wait_events a ret p;
  p ← ucma_free_id a p;
  Ok (p, 0).

End Ids.
