(* ===== verification/CmRoute.v ===== *)
(** * Routes, binding and queue-pair states (librdmacm, cma.c)

    The queries the client's connection manager sends for an identifier, [rdma_bind_addr],
    options, migration to another channel, and the steps that move a queue pair along. *)

From S2P Require Import Prelude CLayout FfTypes Wire CmdCtrl ReqRouter Indexer Marshall.
From S2P Require Import CmTypes CmResp CmRequest CmIds.

(** ** Conversions *)

(** [ntohl], [ntohs] on a little-endian host *)
Definition bswap (n : nat) (z : Z) : Z := le_combine (rev (le_split n z)).

Definition ucma_convert_path (d : cval) : path_rec :=
  let path := fs d 2 in
  let fl_hop := bswap 4 (fu path 5) in
  mkPath (fb path 1) (fb path 2) (fu path 3) (fu path 4) 0
    (bswap 4 (Z.shiftr fl_hop 8)) (u8 fl_hop) (fu path 6) (Z.shiftr (fu path 7) 7) 1 (fu path 8)
    (Z.land (bswap 2 (fu path 9)) 15) 2 (Z.land (fu path 10) 31) 2 (Z.land (fu path 11) 31)
    2 (Z.land (fu path 12) 31) (u8 (fu d 0)).

(** [struct ibv_kern_path_rec], [ibv_kern_ah_attr] and [ibv_kern_qp_attr] of a response. *)
Definition kern_path (d : cval) : path_rec :=
  mkPath (fb d 0) (fb d 1) (fu d 2) (fu d 3) (fu d 4) (fu d 5) (fu d 9) (fu d 10) (fu d 6) (fu d 11)
    (fu d 8) (fu d 12) (fu d 13) (fu d 7) (fu d 14) (fu d 15) (fu d 16) (fu d 17) (fu d 18).
Definition kern_ah (d : cval) : ah_attr :=
  let g := fs d 0 in
  mkAhAttr (fb g 0) (fu g 1) (fu g 2) (fu g 3) (fu g 4) (fu d 1) (fu d 2) (fu d 3) (fu d 4) (fu d 5) (fu d 6).
Definition kern_qp_attr (d : cval) : qp_attr :=
  mkQpAttr (fu d 1) (fu d 2) (fu d 3) (fu d 4) (fu d 5) (fu d 6) (fu d 7) (fu d 8) (fu d 9)
    (fu d 12) (fu d 13) (fu d 14) (fu d 15) (fu d 16) (kern_ah (fs d 10)) (kern_ah (fs d 11))
    (fu d 17) (fu d 18) (fu d 19) (fu d 20) (fu d 21) (fu d 22) (fu d 23) (fu d 24) (fu d 25)
    (fu d 26) (fu d 27) (fu d 28) (fu d 29).

(** Element [i] of an array of structs. *)
Definition elem_of_array (t : cty) (bs : list Z) (i : Z) : cval := decode t (slice (i * sizeof t) (sizeof t) bs).

(** The first [n] of an array of [max] elements, converted; [Ub] beyond its end. *)
Definition convert_all (t : cty) (f : cval -> path_rec) (max n : Z) (bs : list Z) : res (list path_rec) :=
  if max <? n then Ub else Ok ((fun i => f (elem_of_array t bs i)) <$> seqZ 0 n).

(** [memcpy] over the first [n] bytes of an address of a route. *)
Definition copy_over (dst : list Z) (n : Z) (src : list Z) : res (list Z) :=
  if Z.of_nat (length dst) <? n then Ub else
  bs ← take_n n src; Ok (overwrite dst bs).

Definition set_addrs (src dst : list Z) (r : route) : route :=
  mkRoute src dst (rt_sgid r) (rt_dgid r) (rt_pkey r) (rt_paths r).
Definition set_gids (sg dg : list Z) (r : route) : route :=
  mkRoute (rt_src r) (rt_dst r) sg dg (rt_pkey r) (rt_paths r).
Definition set_pkey (k : Z) (r : route) : route :=
  mkRoute (rt_src r) (rt_dst r) (rt_sgid r) (rt_dgid r) k (rt_paths r).
Definition set_paths (l : list path_rec) (r : route) : route :=
  mkRoute (rt_src r) (rt_dst r) (rt_sgid r) (rt_dgid r) (rt_pkey r) l.

Definition sib_addr (sib : list Z) : list Z := slice 8 16 sib.

Section Route.
Context {V : Type} (vb : verbs V) (ucma_init : cm_proc V -> res (cm_proc V * Z)) (resp : Z).
Implicit Types p : cm_proc V.

Definition on_route (f : route -> route) (a : Z) p : res (cm_proc V) :=
  i ← get_id p a; Ok (put_id a (set_route (f (id_route i)) i) p).

(** ** Queries *)

Definition query_cmd (op : ucma_cmd) (out handle option : Z) : cval :=
  cma_init_cmd t_ucma_abi_query op out [VI resp; VI handle; VI option].

(** The device of an identifier that has none yet; then [k] on success. *)
Definition with_device (a guid : Z) (k : cm_proc V -> res (cm_proc V)) p : res (cm_proc V * Z) :=
  i ← get_id p a;
  match id_dev i with
  | Some _ => Ok (p, 0)
  | None =>
      if guid =? 0 then Ok (p, 0) else
      '(p, ret) ← ucma_get_device vb a guid p;
      if negb (ret =? 0) then Ok (p, ret) else p ← k p; Ok (p, 0)
  end.

Definition set_port_num (a n : Z) p : res (cm_proc V) := i ← get_id p a; Ok (put_id a (set_port n i) p).

Definition ucma_query_addr (a : Z) p : res (cm_proc V * Z) :=
  i ← get_id p a;
  let rt := t_ucma_abi_query_addr_resp in
  '(p, rsp) ← ask_id CM_UCMA_QUERY_ADDR t_ucma_abi_query
      (query_cmd UCMA_CMD_QUERY (sizeof rt) (id_handle i) UCMA_QUERY_ADDR) (t_cm_rsp rt) i p;
  let d := fs rsp 1 in
  src ← copy_over (rt_src (id_route i)) (fu d 4) (fb d 6);
  dst ← copy_over (rt_dst (id_route i)) (fu d 5) (fb d 7);
  p ← on_route (set_addrs src dst) a p;
  with_device a (fu d 0)
    (fun p => p ← set_port_num a (fu d 1) p; on_route (set_pkey (fu d 3)) a p) p.

Definition ucma_query_gid (a : Z) p : res (cm_proc V * Z) :=
  i ← get_id p a;
  let rt := t_ucma_abi_query_addr_resp in
  '(p, rsp) ← ask_id CM_UCMA_QUERY_GID t_ucma_abi_query
      (query_cmd UCMA_CMD_QUERY (sizeof rt) (id_handle i) UCMA_QUERY_GID) (t_cm_rsp rt) i p;
  let d := fs rsp 1 in
  p ← on_route (set_gids (sib_addr (fb d 6)) (sib_addr (fb d 7))) a p;
  Ok (p, 0).

(** [path_rec]: the array allocated for [n] records, unless there are none. *)
Definition store_paths (a n : Z) (paths : res (list path_rec)) (k : cm_proc V -> res (cm_proc V * Z)) p
  : res (cm_proc V * Z) :=
  if n =? 0 then k p else
  '(p, m) ← malloc p;
  match m with
  | None => Ok (p, -1)
  | Some _ => l ← paths; p ← on_route (set_paths l) a p; k p
  end.

Definition ucma_query_path (a : Z) p : res (cm_proc V * Z) :=
  i ← get_id p a;
  '(p, rsp) ← ask_id CM_UCMA_QUERY_PATH t_ucma_abi_query
      (query_cmd UCMA_CMD_QUERY query_path_size (id_handle i) UCMA_QUERY_PATH) t_CM_UCMA_QUERY_PATH_RSP i p;
  let n := fu (fs rsp 1) 0 in
  store_paths a n (convert_all t_ibv_path_data ucma_convert_path 6 n (fb rsp 2)) (fun p => Ok (p, 0)) p.

Definition ucma_query_route (a : Z) p : res (cm_proc V * Z) :=
  i ← get_id p a;
  let rt := t_ucma_abi_query_route_resp in
  '(p, rsp) ← ask_id CM_QUERY_ROUTE t_ucma_abi_query
      (query_cmd UCMA_CMD_QUERY_ROUTE (sizeof rt) (id_handle i) 0) (t_cm_rsp rt) i p;
  let d := fs rsp 1 in
  let n := fu d 4 in
  let first := kern_path (elem_of_array t_ibv_kern_path_rec (fb d 1) 0) in
  store_paths a n
    (convert_all t_ibv_kern_path_rec (fun r => ibv_copy_path_rec_from_kern (kern_path r)) 2 n (fb d 1))
    (fun p =>
       i ← get_id p a;
       src ← copy_over (rt_src (id_route i)) (sizeof t_sockaddr_in6) (fb d 2);
       dst ← copy_over (rt_dst (id_route i)) (sizeof t_sockaddr_in6) (fb d 3);
       p ← on_route (fun r => set_addrs src dst (set_pkey (pkey first) (set_gids (sgid first) (dgid first) r))) a p;
       with_device a (fu d 0) (set_port_num a (fu d 5)) p) p.

(** ** Binding *)

Definition bind_cmd (handle addrlen : Z) (addr : cval) : cval :=
  cma_init_cmd t_ucma_abi_bind UCMA_CMD_BIND 0 [VI handle; VI (u16 addrlen); VI 0; addr].

(** [return rsp.ret_errno >= 0]: an error of the router counts as success when it is
    negative. *)
Definition rdma_bind_addr2 (a : Z) (addr : list Z) (addrlen : Z) p : res (cm_proc V * Z) :=
  i ← get_id p a;
  ad ← addr_copy (sizeof t_sockaddr_storage) addrlen addr;
  '(p, rsp) ← ask_id CM_BIND t_ucma_abi_bind (bind_cmd (id_handle i) addrlen ad) t_cm_ret i p;
  if negb (fi rsp 0 =? 0) then Ok (p, if 0 <=? fi rsp 0 then 1 else 0) else
  '(p, ret) ← ucma_query_addr a p;
  if ret =? 0 then ucma_query_gid a p else Ok (p, ret).

Definition bind_ip_cmd (handle : Z) (addr : cval) : cval :=
  cma_init_cmd t_ucma_abi_bind_ip UCMA_CMD_BIND_IP 0 [VI 0; addr; VI handle].

(** [ucma_addrlen] of a pointer *)
Definition addrlen_of p (addr : option (list Z)) : Z :=
  match addr with Some sa => ucma_addrlen (af_ib_support p) sa | None => 0 end.

Definition rdma_bind_addr (a : Z) (addr : option (list Z)) p : res (cm_proc V * Z) :=
  let addrlen := addrlen_of p addr in
  if addrlen =? 0 then Ok (p, -1) else
  sa ← of_option addr;
  if af_ib_support p then rdma_bind_addr2 a sa addrlen p else
  i ← get_id p a;
  ad ← addr_copy (sizeof t_sockaddr_in6) addrlen sa;
  '(p, rsp) ← ask_id CM_BIND_IP t_ucma_abi_bind_ip (bind_ip_cmd (id_handle i) ad) t_cm_ret i p;
  if negb (fi rsp 0 =? 0) then Ok (p, fi rsp 0) else ucma_query_route a p.

(** ** Options *)

Definition set_option_cmd (optval handle level optname optlen : Z) : cval :=
  cma_init_cmd t_ucma_abi_set_option UCMA_CMD_SET_OPTION 0
    [VI optval; VI handle; VI (u32 level); VI (u32 optname); VI (u32 optlen)].

(** [optval]: the address of the value, of which [bytes] are [optlen] bytes. *)
Definition rdma_set_option (a level optname optval : Z) (bytes : list Z) (optlen : Z) p
  : res (cm_proc V * Z) :=
  i ← get_id p a;
  fd ← chan_fd p (id_channel i);
  rfd ← mapped_fd p fd;
  if 100 <? optlen then Ub else
  bs ← take_n optlen bytes;
  '(p, _) ← cm_ask CM_SET_OPTION t_CM_SET_OPTION_REQ
      (VS [VS [VI (u32 rfd)]; set_option_cmd optval (id_handle i) level optname optlen;
           VB (bs ++ replicate (Z.to_nat (100 - optlen)) 0)]) t_cm_ret p;
  Ok (p, 0).

(** ** Migration *)

Definition migrate_cmd (handle fd : Z) : cval :=
  cma_init_cmd t_ucma_abi_migrate_id UCMA_CMD_MIGRATE_ID (sizeof t_ucma_abi_migrate_resp)
    [VI resp; VI handle; VI (u32 fd)].

Definition rdma_migrate_id (a : Z) (channel : option Z) p : res (cm_proc V * Z) :=
  i ← get_id p a;
  let sync := bool_decide (channel = None) in
  if id_sync i && sync then Ok (p, -1) else
  '(p, ch) ← (match channel with
              | Some c => Ok (p, Some c)
              | None => rdma_create_event_channel ucma_init p
              end);
  match ch with
  | None => Ok (p, -1)
  | Some ch =>
      old ← chan_fd p (id_channel i);
      rold ← mapped_fd p old;
      fd ← chan_fd p ch;
      '(p, rsp) ← ask_cmd CM_MIGRATE_ID t_ucma_abi_migrate_id (migrate_cmd (id_handle i) rold)
                    (t_cm_rsp t_ucma_abi_migrate_resp) fd p;
      p ← (if id_sync i then
             p ← (match id_event i with
                  | Some e => '(p, _) ← rdma_ack_cm_event (Some e) p;
                              i ← get_id p a; Ok (put_id a (set_event None i) p)
                  | None => Ok p
                  end);
             rdma_destroy_event_channel (id_channel i) p
           else Ok p);
      i ← get_id p a;
      let p := put_id a (set_channel_sync ch sync i) p in
      (* [events_completed] is an [int], [events_reported] unsigned *)
      if u32 (id_events_completed i) <? fu (fs rsp 1) 0 then Spin else Ok (p, 0)
  end.

(** ** Queue pairs *)

Definition IBV_QPS_INIT : Z := 1.
Definition IBV_QPS_RTR : Z := 2.
Definition IBV_QPS_RTS : Z := 3.
Definition IBV_QPS_SQD : Z := 4.
Definition IBV_QPS_ERR : Z := 6.
Definition IBV_QP_STATE : Z := 1.
Definition IBV_LINK_LAYER_INFINIBAND : Z := 1.
Definition RDMA_MAX_RESP_RES : Z := 255.
Definition RDMA_MAX_INIT_DEPTH : Z := 255.

(** A [struct ibv_qp_attr] of which only the state is set. *)
Definition state_attr (j st : Z) : qp_attr :=
  let ah := mkAhAttr (replicate 16 j) j j j j j j j j j j in
  mkQpAttr st j j j j j j j j j j j j j ah ah j j j j j j j j j j j j j.

Definition init_attr_cmd (handle st : Z) : cval :=
  cma_init_cmd t_ucma_abi_init_qp_attr UCMA_CMD_INIT_QP_ATTR (sizeof t_ibv_kern_qp_attr)
    [VI resp; VI handle; VI st].

(** The attributes and their mask; the state stays the one asked for. *)
Definition rdma_init_qp_attr (a st : Z) p : res (cm_proc V * (qp_attr * Z)) :=
  i ← get_id p a;
  '(p, rsp) ← ask_id CM_INIT_QP_ATTR t_ucma_abi_init_qp_attr (init_attr_cmd (id_handle i) st)
                (t_cm_rsp t_ibv_kern_qp_attr) i p;
  let d := fs rsp 1 in
  Ok (p, (ibv_copy_qp_attr_from_kern (state_attr (q_junk p) st) (kern_qp_attr d), fu d 0)).

(** [rdma_seterrno(ibv_modify_qp(...))] *)
Definition modify_qp (q : cm_qp) (attr : qp_attr) (mask : Z) p : cm_proc V * Z :=
  let '(v, ret) := vb_modify_qp vb (q_verbs p) (cmq_ptr q) attr mask in
  (set_devs (cma_dev_array p) v p, if ret =? 0 then 0 else -1).

Definition set_max_dest (n : Z) (x : qp_attr) : qp_attr :=
  mkQpAttr (qp_state x) (cur_qp_state x) (path_mtu x) (path_mig_state x) (qkey x) (rq_psn x) (sq_psn x)
    (dest_qp_num x) (qp_access_flags x) (cap_max_send_wr x) (cap_max_recv_wr x) (cap_max_send_sge x)
    (cap_max_recv_sge x) (cap_max_inline_data x) (qa_ah_attr x) (qa_alt_ah_attr x) (pkey_index x)
    (alt_pkey_index x) (qa_en_sqd_async_notify x) (qa_sq_draining x) (qa_max_rd_atomic x) n
    (qa_min_rnr_timer x) (qa_port_num x) (qa_timeout x) (qa_retry_cnt x) (qa_rnr_retry x)
    (qa_alt_port_num x) (qa_alt_timeout x).
Definition set_max_rd (n : Z) (x : qp_attr) : qp_attr :=
  mkQpAttr (qp_state x) (cur_qp_state x) (path_mtu x) (path_mig_state x) (qkey x) (rq_psn x) (sq_psn x)
    (dest_qp_num x) (qp_access_flags x) (cap_max_send_wr x) (cap_max_recv_wr x) (cap_max_send_sge x)
    (cap_max_recv_sge x) (cap_max_inline_data x) (qa_ah_attr x) (qa_alt_ah_attr x) (pkey_index x)
    (alt_pkey_index x) (qa_en_sqd_async_notify x) (qa_sq_draining x) n (qa_max_dest_rd_atomic x)
    (qa_min_rnr_timer x) (qa_port_num x) (qa_timeout x) (qa_retry_cnt x) (qa_rnr_retry x)
    (qa_alt_port_num x) (qa_alt_timeout x).

(** [id_priv->cma_dev->port[id->port_num - 1].link_layer] *)
Definition id_dev_attr (i : cma_id) p : res dev_attr :=
  k ← of_option (id_dev i); d ← of_option (cma_dev_array p !! k); of_option (cd_attr d).
Definition link_layer (i : cma_id) p : res Z :=
  d ← id_dev_attr i p; array_get (da_ports d) (id_port_num i - 1).

Definition ucma_modify_qp_rtr (a resp_res : Z) p : res (cm_proc V * Z) :=
  i ← get_id p a;
  match id_qp i with
  | None => Ok (p, -1)
  | Some q =>
      '(p, (attr, mask)) ← rdma_init_qp_attr a IBV_QPS_INIT p;
      let '(p, ret) := modify_qp q attr mask p in
      if negb (ret =? 0) then Ok (p, -1) else
      '(p, (attr, mask)) ← rdma_init_qp_attr a IBV_QPS_RTR p;
      l ← link_layer i p;
      let mask := if l =? IBV_LINK_LAYER_INFINIBAND
                  then Z.land mask (Z.lxor (2 ^ 32 - 1) (Z.of_N 0xe00000)) else mask in
      let attr := if resp_res =? RDMA_MAX_RESP_RES then attr else set_max_dest resp_res attr in
      Ok (modify_qp q attr mask p)
  end.

Definition ucma_modify_qp_rts (a init_depth : Z) p : res (cm_proc V * Z) :=
  i ← get_id p a;
  '(p, (attr, mask)) ← rdma_init_qp_attr a IBV_QPS_RTS p;
  let attr := if init_depth =? RDMA_MAX_INIT_DEPTH then attr else set_max_rd init_depth attr in
  q ← of_option (id_qp i);
  Ok (modify_qp q attr mask p).

(** To SQD or ERR: only the state is given. *)
Definition ucma_modify_qp_to (a st : Z) p : res (cm_proc V * Z) :=
  i ← get_id p a;
  match id_qp i with
  | None => Ok (p, 0)
  | Some q => Ok (modify_qp q (state_attr (q_junk p) st) IBV_QP_STATE p)
  end.
Definition ucma_modify_qp_sqd (a : Z) p := ucma_modify_qp_to a IBV_QPS_SQD p.
Definition ucma_modify_qp_err (a : Z) p := ucma_modify_qp_to a IBV_QPS_ERR p.

End Route.
