(* ===== verification/CmEvents.v ===== *)
(** * Events and connections (librdmacm, cma.c)

    [rdma_get_cm_event] asks the router for the next event of a channel, finds the
    identifier it is for, does what the event calls for and hands it to the application;
    events that concern nobody are dropped and the next one is asked for.  The calls of
    a synchronous identifier wait for their event with [ucma_complete]. *)

From S2P Require Import Prelude CLayout FfTypes Wire CmdCtrl ReqRouter Indexer Marshall.
From S2P Require Import CmTypes CmResp CmRequest CmIds CmRoute.

Inductive rdma_cm_event_type : Type :=
| RDMA_CM_EVENT_ADDR_RESOLVED | RDMA_CM_EVENT_ADDR_ERROR | RDMA_CM_EVENT_ROUTE_RESOLVED
| RDMA_CM_EVENT_ROUTE_ERROR | RDMA_CM_EVENT_CONNECT_REQUEST | RDMA_CM_EVENT_CONNECT_RESPONSE
| RDMA_CM_EVENT_CONNECT_ERROR | RDMA_CM_EVENT_UNREACHABLE | RDMA_CM_EVENT_REJECTED
| RDMA_CM_EVENT_ESTABLISHED | RDMA_CM_EVENT_DISCONNECTED | RDMA_CM_EVENT_DEVICE_REMOVAL
| RDMA_CM_EVENT_MULTICAST_JOIN | RDMA_CM_EVENT_MULTICAST_ERROR | RDMA_CM_EVENT_ADDR_CHANGE
| RDMA_CM_EVENT_TIMEWAIT_EXIT.

#[global] Instance rdma_cm_event_type_eq_dec : EqDecision rdma_cm_event_type.
Proof. solve_decision. Defined.

Definition event_types : list rdma_cm_event_type :=
  [RDMA_CM_EVENT_ADDR_RESOLVED; RDMA_CM_EVENT_ADDR_ERROR; RDMA_CM_EVENT_ROUTE_RESOLVED;
   RDMA_CM_EVENT_ROUTE_ERROR; RDMA_CM_EVENT_CONNECT_REQUEST; RDMA_CM_EVENT_CONNECT_RESPONSE;
   RDMA_CM_EVENT_CONNECT_ERROR; RDMA_CM_EVENT_UNREACHABLE; RDMA_CM_EVENT_REJECTED;
   RDMA_CM_EVENT_ESTABLISHED; RDMA_CM_EVENT_DISCONNECTED; RDMA_CM_EVENT_DEVICE_REMOVAL;
   RDMA_CM_EVENT_MULTICAST_JOIN; RDMA_CM_EVENT_MULTICAST_ERROR; RDMA_CM_EVENT_ADDR_CHANGE;
   RDMA_CM_EVENT_TIMEWAIT_EXIT].

Definition event_code (t : rdma_cm_event_type) : Z :=
  match t with
  | RDMA_CM_EVENT_ADDR_RESOLVED => 0 | RDMA_CM_EVENT_ADDR_ERROR => 1
  | RDMA_CM_EVENT_ROUTE_RESOLVED => 2 | RDMA_CM_EVENT_ROUTE_ERROR => 3
  | RDMA_CM_EVENT_CONNECT_REQUEST => 4 | RDMA_CM_EVENT_CONNECT_RESPONSE => 5
  | RDMA_CM_EVENT_CONNECT_ERROR => 6 | RDMA_CM_EVENT_UNREACHABLE => 7
  | RDMA_CM_EVENT_REJECTED => 8 | RDMA_CM_EVENT_ESTABLISHED => 9
  | RDMA_CM_EVENT_DISCONNECTED => 10 | RDMA_CM_EVENT_DEVICE_REMOVAL => 11
  | RDMA_CM_EVENT_MULTICAST_JOIN => 12 | RDMA_CM_EVENT_MULTICAST_ERROR => 13
  | RDMA_CM_EVENT_ADDR_CHANGE => 14 | RDMA_CM_EVENT_TIMEWAIT_EXIT => 15
  end.

Definition event_of_code (z : Z) : option rdma_cm_event_type :=
  if 0 <=? z then event_types !! Z.to_nat z else None.

(** ** Parameters *)

Definition ucma_copy_conn_event (src : cval) : event_param :=
  PConn (mkConnParam (take (Z.to_nat (fu src 3)) (fb src 2)) (fu src 5) (fu src 6) (fu src 7) (fu src 8)
           (fu src 9) (fu src 4) (fu src 0)).

Definition ucma_copy_ud_event (src : cval) : event_param :=
  PUd (mkUdParam (take (Z.to_nat (fu src 4)) (fb src 3))
         (let k := kern_ah (fs src 2) in ibv_copy_ah_attr_from_kern k k) (fu src 0) (fu src 1)).

(** The union of an event response as one of its members. *)
Definition resp_conn (d : cval) : cval := decode t_ucma_abi_conn_param (fb d 4).
Definition resp_ud (d : cval) : cval := decode t_ucma_abi_ud_param (fb d 4).

Definition ucma_is_ud_qp (t : Z) : bool := t =? IBV_QPT_UD.

Definition IBV_TRANSPORT_IB : Z := 0.
Definition IBV_TRANSPORT_IWARP : Z := 1.

Section Events.
Context {V : Type} (vb : verbs V) (ucma_init : cm_proc V -> res (cm_proc V * Z)) (resp : Z).
Implicit Types (p : cm_proc V) (ev : cma_event).

Definition set_ev_status (s : Z) ev : cma_event :=
  mkCmaEvent (ev_id ev) (ev_listen ev) (ev_priv ev) (ev_type ev) s (ev_param ev).
Definition set_ev_type (t : Z) ev : cma_event :=
  mkCmaEvent (ev_id ev) (ev_listen ev) (ev_priv ev) t (ev_status ev) (ev_param ev).
Definition set_ev_param (x : event_param) ev : cma_event :=
  mkCmaEvent (ev_id ev) (ev_listen ev) (ev_priv ev) (ev_type ev) (ev_status ev) x.
Definition set_ev_ids (id : Z) (listen : option Z) ev : cma_event :=
  mkCmaEvent id listen (ev_priv ev) (ev_type ev) (ev_status ev) (ev_param ev).

(** An error turns the event into the one of type [t]. *)
Definition or_error (t : rdma_cm_event_type) (status : Z) ev : cma_event :=
  let ev := set_ev_status status ev in
  if status =? 0 then ev else set_ev_type (event_code t) ev.

(** ** The work of each event *)

Definition transport (a : Z) p : res Z :=
  i ← get_id p a; d ← id_dev_attr i p; Ok (da_transport d).

Definition ucma_process_addr_resolved ev p : res (cm_proc V * cma_event) :=
  '(p, st) ← (if af_ib_support p then
                '(p, st) ← ucma_query_addr vb resp (ev_priv ev) p;
                if st =? 0 then
                  t ← transport (ev_priv ev) p;
                  if t =? IBV_TRANSPORT_IB then ucma_query_gid resp (ev_priv ev) p else Ok (p, st)
                else Ok (p, st)
              else ucma_query_route vb resp (ev_priv ev) p);
  Ok (p, or_error RDMA_CM_EVENT_ADDR_ERROR st ev).

Definition ucma_process_route_resolved ev p : res (cm_proc V * cma_event) :=
  t ← transport (ev_priv ev) p;
  if negb (t =? IBV_TRANSPORT_IB) then Ok (p, ev) else
  '(p, st) ← (if af_ib_support p then ucma_query_path resp (ev_priv ev) p
              else ucma_query_route vb resp (ev_priv ev) p);
  Ok (p, or_error RDMA_CM_EVENT_ROUTE_ERROR st ev).

Definition ucma_query_req_info (a : Z) p : res (cm_proc V * Z) :=
  if negb (af_ib_support p) then ucma_query_route vb resp a p else
  '(p, ret) ← ucma_query_addr vb resp a p;
  if negb (ret =? 0) then Ok (p, ret) else
  '(p, ret) ← ucma_query_gid resp a p;
  if negb (ret =? 0) then Ok (p, ret) else ucma_query_path resp a p.

(** The depths the peer offers. *)
Definition conn_depths (x : event_param) : Z * Z :=
  match x with
  | PConn c => (cp_initiator_depth c, cp_responder_resources c)
  | _ => (0, 0)
  end.

(** The identifier of the new connection; on an error the event is dropped. *)
Definition ucma_process_conn_req ev (handle : Z) p : res (cm_proc V * cma_event * Z) :=
  let err1 p ret := p ← ucma_complete_event (ev_priv ev) p; Ok (p, ev, ret) in
  l ← get_id p (ev_priv ev);
  '(p, a) ← ucma_alloc_id ucma_init (Some (id_channel l)) (id_context l) (id_ps l) (id_qp_type l) p;
  match a with
  | None =>
      fd ← chan_fd p (id_channel l);
      '(p, _) ← ucma_destroy_kern_id resp fd handle p;
      err1 p (-1)
  | Some a =>
      let ev' := set_ev_ids a (Some (ev_priv ev)) ev in
      i ← get_id p a;
      p ← ucma_insert_id a (put_id a (set_handle handle i) p);
      i ← get_id p a;
      let p := put_id a (set_depths (conn_depths (ev_param ev)).1 (conn_depths (ev_param ev)).2 i) p in
      let err2 p ret :=
        '(p, _) ← rdma_destroy_id vb resp a p;
        p ← ucma_complete_event (ev_priv ev) p; Ok (p, ev', ret) in
      '(p, ret) ← (if id_sync l then rdma_migrate_id ucma_init resp a None p else Ok (p, 0));
      if negb (ret =? 0) then err2 p ret else
      '(p, ret) ← ucma_query_req_info a p;
      if negb (ret =? 0) then err2 p ret else Ok (p, ev', 0)
  end.

Definition process_conn_resp_cmd (handle : Z) : cval :=
  cma_init_cmd t_ucma_abi_accept UCMA_CMD_ACCEPT 0 [VI 0; zero_conn_param; VI handle; VI 0].

Definition ucma_process_conn_resp (a : Z) p : res (cm_proc V * Z) :=
  let err p ret := '(p, _) ← ucma_modify_qp_err vb a p; Ok (p, ret) in
  '(p, ret) ← ucma_modify_qp_rtr vb resp a RDMA_MAX_RESP_RES p;
  if negb (ret =? 0) then err p ret else
  '(p, ret) ← ucma_modify_qp_rts vb resp a RDMA_MAX_INIT_DEPTH p;
  if negb (ret =? 0) then err p ret else
  i ← get_id p a;
  '(p, _) ← ask_id CM_UCMA_PROCESS_CONN_RESP t_ucma_abi_accept (process_conn_resp_cmd (id_handle i))
              t_cm_ret i p;
  Ok (p, 0).

(** ** The switch *)

(** [Some]: the event is for the application; [None]: [goto retry]. *)
Definition deliver ev p : res (cm_proc V * option cma_event) := Ok (p, Some ev).
Definition drop_event ev p : res (cm_proc V * option cma_event) :=
  p ← ucma_complete_event (ev_priv ev) p; Ok (p, None).

(** The parameter of an event of the identifier [a], by its kind of queue pair. *)
Definition event_params (d : cval) (a : Z) p : res event_param :=
  i ← get_id p a;
  Ok (if ucma_is_ud_qp (id_qp_type i) then ucma_copy_ud_event (resp_ud d)
      else ucma_copy_conn_event (resp_conn d)).

Definition event_switch (d : cval) ev p : res (cm_proc V * option cma_event) :=
  let a := ev_priv ev in
  let conn := ucma_copy_conn_event (resp_conn d) in
  match event_of_code (fu d 2) with
  | Some RDMA_CM_EVENT_ADDR_RESOLVED =>
      '(p, ev) ← ucma_process_addr_resolved ev p; deliver ev p
  | Some RDMA_CM_EVENT_ROUTE_RESOLVED =>
      '(p, ev) ← ucma_process_route_resolved ev p; deliver ev p
  | Some RDMA_CM_EVENT_CONNECT_REQUEST =>
      x ← event_params d a p;
      '(p, ev, ret) ← ucma_process_conn_req (set_ev_param x ev) (fu d 1) p;
      if ret =? 0 then deliver ev p else Ok (p, None)
  | Some RDMA_CM_EVENT_CONNECT_RESPONSE =>
      let ev := set_ev_param conn ev in
      '(p, st) ← ucma_process_conn_resp a p;
      let ev := set_ev_status st ev in
      if st =? 0 then deliver (set_ev_type (event_code RDMA_CM_EVENT_ESTABLISHED) ev) p else
      i ← get_id p a;
      deliver (set_ev_type (event_code RDMA_CM_EVENT_CONNECT_ERROR) ev)
        (put_id a (set_connect_error true i) p)
  | Some RDMA_CM_EVENT_ESTABLISHED =>
      x ← event_params d a p; deliver (set_ev_param x ev) p
  | Some RDMA_CM_EVENT_REJECTED =>
      i ← get_id p a;
      if id_connect_error i then drop_event ev p else
      '(p, _) ← ucma_modify_qp_err vb a p; deliver (set_ev_param conn ev) p
  | Some RDMA_CM_EVENT_DISCONNECTED =>
      i ← get_id p a;
      if id_connect_error i then drop_event ev p else deliver (set_ev_param conn ev) p
  | Some RDMA_CM_EVENT_MULTICAST_JOIN | Some RDMA_CM_EVENT_MULTICAST_ERROR => Ub
  | _ => x ← event_params d a p; deliver (set_ev_param x ev) p
  end.

(** ** Getting an event *)

Definition get_event_cmd : cval :=
  cma_init_cmd t_ucma_abi_get_event UCMA_CMD_GET_EVENT (sizeof t_ucma_abi_event_resp) [VI resp].

(** One round: the event of the response [d], or [None] for another round. *)
Definition handle_event (d : cval) p : res (cm_proc V * option cma_event) :=
  let uid := fu d 0 in
  let ev a := mkCmaEvent a None a (fu d 2) (fi d 3) PZero in
  if negb (uid =? 0) then event_switch d (ev uid) p else
  a ← ucma_lookup_id (fu d 1) p;
  if a =? 0 then Ok (p, None) else
  if negb (fu d 2 =? event_code RDMA_CM_EVENT_ESTABLISHED) then drop_event (ev a) p
  else event_switch d (ev a) p.

(** Rounds until there is an event for the application, at most [fuel]. *)
Fixpoint event_rounds (fuel : nat) (channel : Z) p : res (cm_proc V * cma_event) :=
  match fuel with
  | O => Spin
  | S fuel' =>
      fd ← chan_fd p channel;
      '(p, rsp) ← ask_cmd CM_GET_EVENT t_ucma_abi_get_event get_event_cmd
                    (t_cm_rsp t_ucma_abi_event_resp) fd p;
      '(p, e) ← handle_event (fs rsp 1) p;
      match e with
      | Some e => Ok (p, e)
      | None => event_rounds fuel' channel p
      end
  end.

(** [evt] is allocated once, before the first round. *)
Definition rdma_get_cm_event (fuel : nat) (channel : Z) p : res (cm_proc V * option Z * Z) :=
  '(p, ret) ← ucma_init p;
  if negb (ret =? 0) then Ok (p, None, ret) else
  '(p, m) ← malloc p;
  match m with
  | None => Ok (p, None, -1)
  | Some e =>
      '(p, ev) ← event_rounds fuel channel p;
      Ok (set_evts (<[e := ev]> (q_evts p)) p, Some e, 0)
  end.

(** ** Waiting for the event of a call *)

Definition ucma_complete (fuel : nat) (a : Z) p : res (cm_proc V * Z) :=
  i ← get_id p a;
  if negb (id_sync i) then Ok (p, 0) else
  p ← (match id_event i with
       | Some e => '(p, _) ← rdma_ack_cm_event (Some e) p;
                   i ← get_id p a; Ok (put_id a (set_event None i) p)
       | None => Ok p
       end);
  '(p, e, ret) ← rdma_get_cm_event fuel (id_channel i) p;
  if negb (ret =? 0) then Ok (p, ret) else
  i ← get_id p a;
  let p := put_id a (set_event e i) p in
  e ← of_option e;
  ev ← of_option (q_evts p !! e);
  Ok (p, if ev_status ev =? 0 then 0 else -1).

(** ** Addresses and routes *)

Definition resolve_addr_cmd (handle src_len dst_len timeout : Z) (src dst : cval) : cval :=
  cma_init_cmd t_ucma_abi_resolve_addr UCMA_CMD_RESOLVE_ADDR 0
    [VI handle; VI (u32 timeout); VI (u16 src_len); VI (u16 dst_len); VI 0; src; dst].

(** [memcpy] of an address that may be absent, into a cleared one. *)
Definition opt_addr (size n : Z) (addr : option (list Z)) : res cval :=
  if n =? 0 then Ok (VB (replicate (Z.to_nat size) 0))
  else sa ← of_option addr; addr_copy size n sa.

Definition finish_resolve (fuel : nat) (a dst_len : Z) (dst : list Z) p : res (cm_proc V * Z) :=
  i ← get_id p a;
  d ← copy_over (rt_dst (id_route i)) dst_len dst;
  p ← on_route (fun r => set_addrs (rt_src r) d r) a p;
  ucma_complete fuel a p.

Definition rdma_resolve_addr2 (fuel : nat) (a : Z) (src : option (list Z)) (src_len : Z) (dst : list Z)
  (dst_len timeout : Z) p : res (cm_proc V * Z) :=
  i ← get_id p a;
  let n := sizeof t_sockaddr_storage in
  s ← opt_addr n src_len src;
  d ← addr_copy n dst_len dst;
  '(p, _) ← ask_id CM_RESOLVE_ADDR t_ucma_abi_resolve_addr
              (resolve_addr_cmd (id_handle i) src_len dst_len timeout s d) t_cm_ret i p;
  finish_resolve fuel a dst_len dst p.

Definition resolve_ip_cmd (handle timeout : Z) (src dst : cval) : cval :=
  cma_init_cmd t_ucma_abi_resolve_ip UCMA_CMD_RESOLVE_IP 0 [src; dst; VI handle; VI (u32 timeout)].

Definition rdma_resolve_addr (fuel : nat) (a : Z) (src dst : option (list Z)) (timeout : Z) p
  : res (cm_proc V * Z) :=
  let dst_len := addrlen_of p dst in
  if dst_len =? 0 then Ok (p, -1) else
  let src_len := addrlen_of p src in
  if bool_decide (is_Some src) && (src_len =? 0) then Ok (p, -1) else
  da ← of_option dst;
  if af_ib_support p then rdma_resolve_addr2 fuel a src src_len da dst_len timeout p else
  i ← get_id p a;
  let n := sizeof t_sockaddr_in6 in
  s ← opt_addr n src_len src;
  d ← addr_copy n dst_len da;
  '(p, _) ← ask_id CM_RESOLVE_IP t_ucma_abi_resolve_ip (resolve_ip_cmd (id_handle i) timeout s d)
              t_cm_ret i p;
  finish_resolve fuel a dst_len da p.

Definition resolve_route_cmd (handle timeout : Z) : cval :=
  cma_init_cmd t_ucma_abi_resolve_route UCMA_CMD_RESOLVE_ROUTE 0 [VI handle; VI (u32 timeout)].

(** [ib_route]: [ucma_set_ib_route], which asks the resolver of addrinfo.c for a route;
    0: it set one. *)
Definition rdma_resolve_route (ib_route : Z -> cm_proc V -> res (cm_proc V * Z)) (fuel : nat)
  (a timeout : Z) p : res (cm_proc V * Z) :=
  t ← transport a p;
  '(p, ret) ← (if t =? IBV_TRANSPORT_IB then ib_route a p else Ok (p, -1));
  if ret =? 0 then ucma_complete fuel a p else
  i ← get_id p a;
  '(p, _) ← ask_id CM_RESOLVE_ROUTE t_ucma_abi_resolve_route (resolve_route_cmd (id_handle i) timeout)
              t_cm_ret i p;
  ucma_complete fuel a p.

(** ** Listening and connecting *)

Definition listen_cmd (handle backlog : Z) : cval :=
  cma_init_cmd t_ucma_abi_listen UCMA_CMD_LISTEN 0 [VI handle; VI (u32 backlog)].

Definition rdma_listen (a backlog : Z) p : res (cm_proc V * Z) :=
  i ← get_id p a;
  '(p, _) ← ask_id CM_LISTEN t_ucma_abi_listen (listen_cmd (id_handle i) backlog) t_cm_ret i p;
  if af_ib_support p then ucma_query_addr vb resp a p else ucma_query_route vb resp a p.

(** 0 or EINVAL; the limits of the device are looked at for TCP only. *)
Definition ucma_valid_param (i : cma_id) (param : option conn_param) p : res Z :=
  if negb (id_ps i =? RDMA_PS_TCP) then Ok 0 else
  match param with
  | None => Ok (match id_qp i with Some _ => 0 | None => -1 end)
  | Some x =>
      d ← id_dev_attr i p;
      if negb (cp_responder_resources x =? RDMA_MAX_RESP_RES)
         && (da_max_responder_resources d <? cp_responder_resources x) then Ok (-1) else
      if negb (cp_initiator_depth x =? RDMA_MAX_INIT_DEPTH)
         && (da_max_initiator_depth d <? cp_initiator_depth x) then Ok (-1) else Ok 0
  end.

(** The private data of the address resolution, then the caller's; its length is a
    byte, and the array has 256. *)
Definition private_bytes (i : cma_id) (src : option conn_param) : res (list Z * Z) :=
  let own := id_connect i in
  let len1 := u8 (Z.of_nat (length own)) in
  let more := match src with Some x => cp_private x | None => [] end in
  if Z.of_nat RDMA_MAX_PRIVATE_DATA <? Z.max (Z.of_nat (length own)) (len1 + Z.of_nat (length more)) then Ub else
  let bs := overwrite (replicate RDMA_MAX_PRIVATE_DATA 0) own in
  Ok (take (Z.to_nat len1) bs ++ more ++ drop (Z.to_nat len1 + length more) bs,
      u8 (len1 + Z.of_nat (length more))).

Definition ucma_copy_conn_param_to_kern (i : cma_id) (src : option conn_param) (qp_num srq : Z) : res cval :=
  '(data, len) ← private_bytes i src;
  let get f dflt := match src with Some x => f x | None => dflt end in
  Ok (VS [VI qp_num; VI 0; VB data; VI len; VI srq; VI (id_responder_resources i);
          VI (id_initiator_depth i); VI (get cp_flow_control 0); VI (get cp_retry_count 7);
          VI (get cp_rnr_retry_count 7); VI 1]).

Definition connect_cmd (handle : Z) (param : cval) : cval :=
  cma_init_cmd t_ucma_abi_connect UCMA_CMD_CONNECT 0 [param; VI handle; VI 0].

(** The depth the caller asks for; without one, or with 0xFF, what the device gives. *)
Definition conn_depth (get : conn_param -> Z) (dflt : dev_attr -> Z) (param : option conn_param)
  (i : cma_id) p : res Z :=
  match param with
  | Some x => if get x =? 255 then d ← id_dev_attr i p; Ok (dflt d) else Ok (get x)
  | None => d ← id_dev_attr i p; Ok (dflt d)
  end.

Definition bool_Z (b : bool) : Z := if b then 1 else 0.

Definition rdma_connect (fuel : nat) (a : Z) (param : option conn_param) p : res (cm_proc V * Z) :=
  i ← get_id p a;
  ret ← ucma_valid_param i param p;
  if negb (ret =? 0) then Ok (p, ret) else
  depth ← conn_depth cp_initiator_depth da_max_initiator_depth param i p;
  rr ← conn_depth cp_responder_resources da_max_responder_resources param i p;
  let i := set_depths depth rr i in
  let p := put_id a i p in
  c ← (match id_qp i, param with
       | Some q, _ => ucma_copy_conn_param_to_kern i param (cmq_num q) (bool_Z (cmq_srq q))
       | None, Some x => ucma_copy_conn_param_to_kern i param (cp_qp_num x) (cp_srq x)
       | None, None => ucma_copy_conn_param_to_kern i param 0 0
       end);
  '(p, _) ← ask_id CM_CONNECT t_ucma_abi_connect (connect_cmd (id_handle i) c) t_cm_ret i p;
  i ← get_id p a;
  ucma_complete fuel a (put_id a (set_connect [] i) p).

Definition accept_cmd (a handle : Z) (param : cval) : cval :=
  cma_init_cmd t_ucma_abi_accept UCMA_CMD_ACCEPT 0 [VI a; param; VI handle; VI 0].

Definition rdma_accept (fuel : nat) (a : Z) (param : option conn_param) p : res (cm_proc V * Z) :=
  i ← get_id p a;
  ret ← ucma_valid_param i param p;
  if negb (ret =? 0) then Ok (p, ret) else
  depth ← conn_depth cp_initiator_depth
            (fun d => Z.min (id_initiator_depth i) (da_max_initiator_depth d)) param i p;
  rr ← conn_depth cp_responder_resources
         (fun d => Z.min (id_responder_resources i) (da_max_responder_resources d)) param i p;
  let i := set_depths depth rr i in
  let p := put_id a i p in
  let ud := ucma_is_ud_qp (id_qp_type i) in
  '(p, ret) ← (if ud then Ok (p, 0) else
               '(p, ret) ← ucma_modify_qp_rtr vb resp a rr p;
               if negb (ret =? 0) then Ok (p, ret) else ucma_modify_qp_rts vb resp a depth p);
  if negb (ret =? 0) then Ok (p, ret) else
  c ← (match id_qp i with
       | Some q => ucma_copy_conn_param_to_kern i param (cmq_num q) (bool_Z (cmq_srq q))
       | None => x ← of_option param; ucma_copy_conn_param_to_kern i param (cp_qp_num x) (cp_srq x)
       end);
  '(p, _) ← ask_id CM_ACCEPT t_ucma_abi_accept (accept_cmd a (id_handle i) c) t_cm_ret i p;
  if ud then Ok (p, 0) else ucma_complete fuel a p.

Definition ucma_shutdown (a : Z) p : res (cm_proc V * Z) :=
  t ← transport a p;
  if t =? IBV_TRANSPORT_IB then ucma_modify_qp_err vb a p
  else if t =? IBV_TRANSPORT_IWARP then ucma_modify_qp_sqd vb a p
  else Ok (p, -1).

Definition disconnect_cmd (handle : Z) : cval :=
  cma_init_cmd t_ucma_abi_disconnect UCMA_CMD_DISCONNECT 0 [VI handle].

Definition rdma_disconnect (fuel : nat) (a : Z) p : res (cm_proc V * Z) :=
  '(p, ret) ← ucma_shutdown a p;
  if negb (ret =? 0) then Ok (p, ret) else
  i ← get_id p a;
  '(p, _) ← ask_id CM_DISCONNECT t_ucma_abi_disconnect (disconnect_cmd (id_handle i)) t_cm_ret i p;
  ucma_complete fuel a p.

(** The next connection request of a synchronous listener.  [create_qp]: the queue pair
    of a listener that was given attributes for it. *)
Definition rdma_get_request (create_qp : option (Z -> cm_proc V -> res (cm_proc V * Z))) (fuel : nat)
  (listen : Z) p : res (cm_proc V * option Z * Z) :=
  l ← get_id p listen;
  if negb (id_sync l) then Ok (p, None, -1) else
  p ← (match id_event l with
       | Some e => '(p, _) ← rdma_ack_cm_event (Some e) p;
                   l ← get_id p listen; Ok (put_id listen (set_event None l) p)
       | None => Ok p
       end);
  '(p, e, ret) ← rdma_get_cm_event fuel (id_channel l) p;
  if negb (ret =? 0) then Ok (p, None, ret) else
  e ← of_option e;
  ev ← of_option (q_evts p !! e);
  let err p ret := l ← get_id p listen; Ok (put_id listen (set_event (Some e) l) p, None, ret) in
  if negb (ev_status ev =? 0) then err p (-1) else
  if negb (ev_type ev =? event_code RDMA_CM_EVENT_CONNECT_REQUEST) then err p (-1) else
  '(p, ret) ← (match create_qp with Some f => f (ev_id ev) p | None => Ok (p, 0) end);
  if negb (ret =? 0) then err p ret else
  i ← get_id p (ev_id ev);
  Ok (put_id (ev_id ev) (set_event (Some e) i) p, Some (ev_id ev), 0).

End Events.

(** ** Initialisation *)

(** Inside of the probe the devices are known already, and the library counts as
    initialised. *)
Definition initialised {V} (p : cm_proc V) : res (cm_proc V * Z) := Ok (p, 0).

Section Init.
Context {V : Type} (vb : verbs V) (resp : Z).
(** What sysfs says of the ABI ([None]: nothing), and the GUIDs of the devices ([None]:
    no list). *)
Context (abi : option Z) (guids : option (list Z)).
Implicit Types p : cm_proc V.

Definition RDMA_USER_CM_MIN_ABI_VERSION : Z := 3.
Definition RDMA_USER_CM_MAX_ABI_VERSION : Z := 4.

Definition check_abi_version : Z :=
  match abi with
  | None => 0
  | Some v => if (v <? RDMA_USER_CM_MIN_ABI_VERSION) || (RDMA_USER_CM_MAX_ABI_VERSION <? v) then -1 else 0
  end.

(** [struct sockaddr_ib] of the probe: family, service id and its mask (big endian). *)
Definition probe_addr : list Z :=
  le_split 2 AF_IB ++ replicate 22 0 ++ [0; 0; 0; 0; 1; 6; 0; 0] ++ [255; 255; 255; 255; 255; 255; 0; 0]
  ++ replicate 8 0.

Definition ucma_set_af_ib_support p : res (cm_proc V) :=
  '(p, a, ret) ← rdma_create_id initialised None 0 RDMA_PS_IB p;
  if negb (ret =? 0) then Ok p else
  a ← of_option a;
  '(p, ret) ← rdma_bind_addr vb resp a (Some probe_addr) (set_af_ib true p);
  '(p, _) ← rdma_destroy_id vb resp a (set_af_ib (ret =? 0) p);
  Ok p.

Definition ucma_init p : res (cm_proc V * Z) :=
  match cma_dev_array p with
  | _ :: _ => Ok (p, 0)
  | [] =>
      if negb (check_abi_version =? 0) then Ok (p, -1) else
      match guids with
      | None | Some [] => Ok (p, -1)
      | Some l =>
          '(p, m) ← malloc p;
          match m with
          | None => Ok (p, -1)
          | Some _ =>
              p ← ucma_set_af_ib_support
                    (set_devs ((fun g => mkCmaDev g None None 0) <$> l) (q_verbs p) p);
              Ok (p, 0)
          end
      end
  end.

End Init.
