(* ===== verification/CmQp.v ===== *)
(** * Queue pairs of an identifier (librdmacm, cma.c)

    [rdma_create_qp] and [rdma_destroy_qp]: the completion queues and channels an
    identifier gets when the application brings none, the queue pair, and its way to
    INIT (or, for datagrams, to RTS).  Queue pairs of type XRC_RECV, whose domain the
    device keeps, and shared receive queues of the identifier are left out. *)

From S2P Require Import Prelude CLayout FfTypes Wire CmdCtrl ReqRouter Indexer Marshall.
From S2P Require Import CmTypes CmResp CmRequest CmIds CmRoute CmEvents.

Definition IBV_QPT_XRC_RECV : Z := 10.
Definition IBV_QP_ACCESS_FLAGS : Z := 8.
Definition IBV_QP_PKEY_INDEX : Z := 16.
Definition IBV_QP_PORT : Z := 32.
Definition IBV_QP_QKEY : Z := 64.
Definition IBV_QP_SQ_PSN : Z := 65536.
Definition RDMA_UDP_QKEY : Z := 19088743.

(** The completion queues and channels in [struct rdma_cm_id]. *)
Record id_cqs : Type := mkIdCqs {
  iq_send_cq : option Z; iq_recv_cq : option Z; iq_send_ch : option Z; iq_recv_ch : option Z }.
Definition no_cqs : id_cqs := mkIdCqs None None None None.

(** [struct ibv_qp_init_attr_ex]; a protection domain with its context. *)
Record qp_init : Type := mkQpInit {
  qi_pd : option (Z * Z); qi_send_cq : option Z; qi_recv_cq : option Z; qi_srq : option Z;
  qi_max_send : Z; qi_max_recv : Z; qi_qp_type : Z }.

(** The verbs for queues: an object is its address; a queue pair also has a number and a
    protection domain.  [qv_destroy] is ibv_destroy_qp, ibv_destroy_cq or
    ibv_destroy_comp_channel on an object, with its result. *)
Record qverbs (V : Type) : Type := mkQverbs {
  qv_channel : V -> Z -> V * option Z;
  qv_cq : V -> Z -> Z -> Z -> Z -> V * option Z;
  qv_qp : V -> Z -> qp_init -> V * option (Z * Z * Z);
  qv_pkey : V -> Z -> Z -> Z -> option Z;
  qv_destroy : V -> Z -> V * Z }.
Arguments qv_channel {V}. Arguments qv_cq {V}. Arguments qv_qp {V}. Arguments qv_pkey {V}.
Arguments qv_destroy {V}.

(** The process with its queues: [e_live] are the addresses of the queues, channels and
    queue pairs that exist. *)
Record eproc (V : Type) : Type := mkEproc {
  e_proc : cm_proc V; e_cqs : gmap Z id_cqs; e_live : gset Z }.
Arguments mkEproc {V}. Arguments e_proc {V}. Arguments e_cqs {V}. Arguments e_live {V}.

Definition set_id_qp (q : option cm_qp) (pd : option Z) (i : cma_id) : cma_id :=
  mkCmaId (id_channel i) (id_context i) (id_ps i) (id_qp_type i) (id_route i) (id_dev i) pd
    (id_port_num i) q (id_event i) (id_handle i) (id_sync i) (id_events_completed i) (id_connect_error i)
    (id_connect i) (id_initiator_depth i) (id_responder_resources i).

Definition set_attr_state (st : Z) (x : qp_attr) : qp_attr :=
  mkQpAttr st (cur_qp_state x) (path_mtu x) (path_mig_state x) (qkey x) (rq_psn x) (sq_psn x)
    (dest_qp_num x) (qp_access_flags x) (cap_max_send_wr x) (cap_max_recv_wr x) (cap_max_send_sge x)
    (cap_max_recv_sge x) (cap_max_inline_data x) (qa_ah_attr x) (qa_alt_ah_attr x) (pkey_index x)
    (alt_pkey_index x) (qa_en_sqd_async_notify x) (qa_sq_draining x) (qa_max_rd_atomic x)
    (qa_max_dest_rd_atomic x) (qa_min_rnr_timer x) (qa_port_num x) (qa_timeout x) (qa_retry_cnt x)
    (qa_rnr_retry x) (qa_alt_port_num x) (qa_alt_timeout x).
Definition set_attr_psn (n : Z) (x : qp_attr) : qp_attr :=
  mkQpAttr (qp_state x) (cur_qp_state x) (path_mtu x) (path_mig_state x) (qkey x) (rq_psn x) n
    (dest_qp_num x) (qp_access_flags x) (cap_max_send_wr x) (cap_max_recv_wr x) (cap_max_send_sge x)
    (cap_max_recv_sge x) (cap_max_inline_data x) (qa_ah_attr x) (qa_alt_ah_attr x) (pkey_index x)
    (alt_pkey_index x) (qa_en_sqd_async_notify x) (qa_sq_draining x) (qa_max_rd_atomic x)
    (qa_max_dest_rd_atomic x) (qa_min_rnr_timer x) (qa_port_num x) (qa_timeout x) (qa_retry_cnt x)
    (qa_rnr_retry x) (qa_alt_port_num x) (qa_alt_timeout x).
(** The fields [ucma_init_conn_qp3] and [ucma_init_ud_qp3] set in a new struct; [flags]
    and [key] where they do. *)
Definition init3_attr (j pkey port : Z) (flags key : Z) : qp_attr :=
  let x := state_attr j IBV_QPS_INIT in
  mkQpAttr IBV_QPS_INIT (cur_qp_state x) (path_mtu x) (path_mig_state x) key (rq_psn x) (sq_psn x)
    (dest_qp_num x) flags (cap_max_send_wr x) (cap_max_recv_wr x) (cap_max_send_sge x)
    (cap_max_recv_sge x) (cap_max_inline_data x) (qa_ah_attr x) (qa_alt_ah_attr x) pkey
    (alt_pkey_index x) (qa_en_sqd_async_notify x) (qa_sq_draining x) (qa_max_rd_atomic x)
    (qa_max_dest_rd_atomic x) (qa_min_rnr_timer x) port (qa_timeout x) (qa_retry_cnt x)
    (qa_rnr_retry x) (qa_alt_port_num x) (qa_alt_timeout x).

Section Qp.
Context {V : Type} (vb : verbs V) (qv : qverbs V) (resp abi_ver : Z).
Implicit Types (e : eproc V) (p : cm_proc V).

Definition on_proc {A} (f : cm_proc V -> res (cm_proc V * A)) e : res (eproc V * A) :=
  '(p, x) ← f (e_proc e); Ok (mkEproc p (e_cqs e) (e_live e), x).

(** The context of an identifier's device. *)
Definition id_ctx (i : cma_id) p : res Z := d ← id_dev_attr i p; Ok (da_ctx d).

(** ** Completion queues *)

Definition get_cqs (a : Z) e : id_cqs := default no_cqs (e_cqs e !! a).
Definition put_cqs (a : Z) (q : id_cqs) e : eproc V := mkEproc (e_proc e) (<[a := q]> (e_cqs e)) (e_live e).
(** An object is destroyed, unless the verb refuses, which is not looked at. *)
Definition kill (x : option Z) e : eproc V :=
  match x with
  | Some o =>
      let '(v, ret) := qv_destroy qv (q_verbs (e_proc e)) o in
      mkEproc (set_devs (cma_dev_array (e_proc e)) v (e_proc e)) (e_cqs e)
        (if ret =? 0 then e_live e ∖ {[o]} else e_live e)
  | None => e
  end.
Definition born (v : V) (o : option Z) e : eproc V :=
  mkEproc (set_devs (cma_dev_array (e_proc e)) v (e_proc e)) (e_cqs e)
    (match o with Some o => {[o]} ∪ e_live e | None => e_live e end).

(** The object behind [send] goes too, unless it is that behind [recv]; nothing happens
    without a [recv].  The two pointers afterwards. *)
Definition destroy_pair (send recv : option Z) e : eproc V * (option Z * option Z) :=
  match recv with
  | None => (e, (send, recv))
  | Some _ =>
      let e1 := kill recv e in
      if bool_decide (is_Some send) && negb (bool_decide (send = recv)) then (kill send e1, (None, None))
      else (e1, (send, None))
  end.

Definition ucma_destroy_cqs (a : Z) e : eproc V :=
  let q := get_cqs a e in
  let '(e1, (scq, rcq)) := destroy_pair (iq_send_cq q) (iq_recv_cq q) e in
  let '(e2, (sch, rch)) := destroy_pair (iq_send_ch q) (iq_recv_ch q) e1 in
  put_cqs a (mkIdCqs scq rcq sch rch) e2.

(** A channel and a queue of [size] entries on it. *)
Definition create_pair (a ctx size : Z) e : eproc V * (option Z * option Z) :=
  let '(v, ch) := qv_channel qv (q_verbs (e_proc e)) ctx in
  let e1 := born v ch e in
  match ch with
  | None => (e1, (None, None))
  | Some c =>
      let '(v, cq) := qv_cq qv (q_verbs (e_proc e1)) ctx size a c in
      (born v cq e1, (cq, ch))
  end.

Definition ucma_create_cqs (a send_size recv_size : Z) e : res (eproc V * Z) :=
  i ← get_id (e_proc e) a;
  ctx ← id_ctx i (e_proc e);
  let err e := Ok (ucma_destroy_cqs a e, -1) in
  let send e :=
    if send_size =? 0 then Ok (e, 0) else
    let '(e1, (cq, ch)) := create_pair a ctx send_size e in
    let q := get_cqs a e1 in
    let e2 := put_cqs a (mkIdCqs (match ch with Some _ => cq | None => iq_send_cq q end) (iq_recv_cq q) ch (iq_recv_ch q)) e1 in
    match cq with Some _ => Ok (e2, 0) | None => err e2 end in
  if recv_size =? 0 then send e else
  let '(e1, (cq, ch)) := create_pair a ctx recv_size e in
  let q := get_cqs a e1 in
  let e2 := put_cqs a (mkIdCqs (iq_send_cq q) (match ch with Some _ => cq | None => iq_recv_cq q end) (iq_send_ch q) ch) e1 in
  match cq with Some _ => send e2 | None => err e2 end.

(** ** States of a new queue pair *)

(** The index of a key in the port's table; the first error ends the search, at most
    after [fuel] entries. *)
Fixpoint find_pkey (fuel : nat) (i : Z) (v : V) (ctx port key : Z) : option Z :=
  match fuel with
  | O => None
  | S fuel' =>
      match qv_pkey qv v ctx port i with
      | None => None
      | Some k => if k =? key then Some (u16 i) else find_pkey fuel' (i + 1) v ctx port key
      end
  end.
(** A port's table has at most 65536 entries. *)
Definition ucma_find_pkey (i : cma_id) p : res (option Z) :=
  ctx ← id_ctx i p;
  Ok (find_pkey (Z.to_nat 65537) 0 (q_verbs p) ctx (id_port_num i) (rt_pkey (id_route i))).

Definition ucma_init_conn_qp3 (a : Z) (q : cm_qp) p : res (cm_proc V * Z) :=
  i ← get_id p a;
  k ← ucma_find_pkey i p;
  match k with
  | None => Ok (p, -1)
  | Some k =>
      Ok (modify_qp vb q (init3_attr (q_junk p) k (id_port_num i) 0 (q_junk p))
            (IBV_QP_STATE + IBV_QP_ACCESS_FLAGS + IBV_QP_PKEY_INDEX + IBV_QP_PORT) p)
  end.

Definition ucma_init_conn_qp (a : Z) (q : cm_qp) p : res (cm_proc V * Z) :=
  if abi_ver =? 3 then ucma_init_conn_qp3 a q p else
  '(p, (attr, mask)) ← rdma_init_qp_attr resp a IBV_QPS_INIT p;
  Ok (modify_qp vb q attr mask p).

(** From INIT through RTR to RTS. *)
Definition ud_to_rts (q : cm_qp) (attr : qp_attr) (mask : Z) p : cm_proc V * Z :=
  let '(p, ret) := modify_qp vb q attr mask p in
  if negb (ret =? 0) then (p, ret) else
  let attr := set_attr_state IBV_QPS_RTR attr in
  let '(p, ret) := modify_qp vb q attr IBV_QP_STATE p in
  if negb (ret =? 0) then (p, ret) else
  modify_qp vb q (set_attr_psn 0 (set_attr_state IBV_QPS_RTS attr)) (IBV_QP_STATE + IBV_QP_SQ_PSN) p.

Definition ucma_init_ud_qp3 (a : Z) (q : cm_qp) p : res (cm_proc V * Z) :=
  i ← get_id p a;
  k ← ucma_find_pkey i p;
  match k with
  | None => Ok (p, -1)
  | Some k =>
      Ok (ud_to_rts q (init3_attr (q_junk p) k (id_port_num i) (q_junk p) RDMA_UDP_QKEY)
            (IBV_QP_STATE + IBV_QP_QKEY + IBV_QP_PKEY_INDEX + IBV_QP_PORT) p)
  end.

Definition ucma_init_ud_qp (a : Z) (q : cm_qp) p : res (cm_proc V * Z) :=
  if abi_ver =? 3 then ucma_init_ud_qp3 a q p else
  '(p, (attr, mask)) ← rdma_init_qp_attr resp a IBV_QPS_INIT p;
  Ok (ud_to_rts q attr mask p).

(** ** The queue pair *)

(** Two pointers that are both set and differ. *)
Definition clash (x y : option Z) : bool :=
  match x, y with Some a, Some b => negb (a =? b) | _, _ => false end.
Definition or_else (x y : option Z) : option Z := match x with Some _ => x | None => y end.

Definition rdma_create_qp_ex (a : Z) (attr : qp_init) e : res (eproc V * Z) :=
  i ← get_id (e_proc e) a;
  match id_qp i with
  | Some _ => Ok (e, -1)
  | None =>
      ctx ← id_ctx i (e_proc e);
      if match qi_pd attr with Some (_, c) => negb (c =? ctx) | None => false end then Ok (e, -1) else
      let pd := match qi_pd attr with Some (d, _) => Some d | None => id_pd i end in
      let q := get_cqs a e in
      if clash (iq_recv_cq q) (qi_recv_cq attr) || clash (iq_send_cq q) (qi_send_cq attr) then Ok (e, -1) else
      if id_qp_type i =? IBV_QPT_XRC_RECV then Ub else
      let size given own n := match given, own with None, None => n | _, _ => 0 end in
      '(e, ret) ← ucma_create_cqs a (size (qi_send_cq attr) (iq_send_cq q) (qi_max_send attr))
                    (size (qi_recv_cq attr) (iq_recv_cq q) (qi_max_recv attr)) e;
      if negb (ret =? 0) then Ok (e, ret) else
      let q := get_cqs a e in
      let full := mkQpInit (match pd with Some d => Some (d, ctx) | None => None end)
                    (or_else (qi_send_cq attr) (iq_send_cq q)) (or_else (qi_recv_cq attr) (iq_recv_cq q))
                    (qi_srq attr) (qi_max_send attr) (qi_max_recv attr) (qi_qp_type attr) in
      let '(v, x) := qv_qp qv (q_verbs (e_proc e)) ctx full in
      let e := born v (match x with Some (o, _, _) => Some o | None => None end) e in
      match x with
      | None => Ok (ucma_destroy_cqs a e, -1)
      | Some (o, num, d) =>
          let qp := mkCmQp o num (bool_decide (is_Some (qi_srq attr))) in
          '(e, ret) ← on_proc (if ucma_is_ud_qp (id_qp_type i) then ucma_init_ud_qp a qp else ucma_init_conn_qp a qp) e;
          if negb (ret =? 0) then Ok (ucma_destroy_cqs a (kill (Some o) e), ret) else
          i ← get_id (e_proc e) a;
          Ok (mkEproc (put_id a (set_id_qp (Some qp) (Some d) i) (e_proc e)) (e_cqs e) (e_live e), 0)
      end
  end.

(** [pd] of the caller, or the identifier's. *)
Definition rdma_create_qp (a : Z) (pd : option (Z * Z)) (attr : qp_init) e : res (eproc V * Z) :=
  i ← get_id (e_proc e) a;
  ctx ← id_ctx i (e_proc e);
  let pd := match pd with Some _ => pd | None => match id_pd i with Some d => Some (d, ctx) | None => None end end in
  rdma_create_qp_ex a (mkQpInit pd (qi_send_cq attr) (qi_recv_cq attr) (qi_srq attr) (qi_max_send attr)
                         (qi_max_recv attr) (qi_qp_type attr)) e.

Definition rdma_destroy_qp (a : Z) e : res (eproc V) :=
  i ← get_id (e_proc e) a;
  q ← of_option (id_qp i);
  let e := kill (Some (cmq_ptr q)) e in
  Ok (ucma_destroy_cqs a (mkEproc (put_id a (set_id_qp None (id_pd i) i) (e_proc e)) (e_cqs e) (e_live e))).

End Qp.

(** ** What is left over *)

(** Verbs that destroy what they are told to. *)
Definition destroys {V} (qv : qverbs V) : Prop := forall v o, (qv_destroy qv v o).2 = 0.

Section Rollback.
Context {V : Type} (vb : verbs V) (qv : qverbs V) (resp abi_ver : Z).
Hypothesis Hdestroy : destroys qv.
Implicit Types (e : eproc V) (p : cm_proc V).

Lemma kill_frame x e : e_cqs (kill qv x e) = e_cqs e /\ q_ids (e_proc (kill qv x e)) = q_ids (e_proc e).
Proof. unfold kill. destruct x as [o|]; [|done]. by destruct (qv_destroy qv _ o). Qed.

Lemma kill_live o e : e_live (kill qv (Some o) e) = e_live e ∖ {[o]}.
Proof.
  unfold kill. pose proof (Hdestroy (q_verbs (e_proc e)) o) as H. destruct (qv_destroy qv _ o) as [v ret]. cbn in H. by subst ret.
Qed.

Definition opt_set (x : option Z) : gset Z := match x with Some o => {[o]} | None => ∅ end.
(** The objects the identifier points to. *)
Definition cq_objects (q : id_cqs) : gset Z :=
  opt_set (iq_send_cq q) ∪ opt_set (iq_recv_cq q) ∪ opt_set (iq_send_ch q) ∪ opt_set (iq_recv_ch q).

(** There is nothing on the sending side without its counterpart. *)
Definition paired (q : id_cqs) : Prop :=
  (iq_recv_cq q = None -> iq_send_cq q = None) /\ (iq_recv_ch q = None -> iq_send_ch q = None).

(** Beyond the objects of [e0] only those of the identifier are live. *)
Definition accounted (a : Z) e0 e : Prop := e_live e ⊆ e_live e0 ∪ cq_objects (get_cqs a e).

Lemma destroy_pair_live s r e e' x : destroy_pair qv s r e = (e', x) -> (r = None -> s = None) ->
  e_live e' ⊆ e_live e ∖ (opt_set s ∪ opt_set r).
Proof.
  unfold destroy_pair. destruct r as [r|]; intros E Hp.
  - destruct s as [s|]; cbn [opt_set] in *.
    + rewrite bool_decide_true in E by eauto. cbn [andb] in E.
      destruct (bool_decide (Some s = Some r)) eqn:Eb; cbn [negb] in E; apply pair_equal_spec in E as [<- _]; rewrite !kill_live; [|set_solver].
      apply bool_decide_eq_true in Eb. set_solver.
    + rewrite bool_decide_false in E by (intros []; done). apply pair_equal_spec in E as [<- _]. rewrite kill_live. cbn [opt_set]. set_solver.
  - apply pair_equal_spec in E as [<- _]. rewrite (Hp eq_refl). cbn [opt_set]. set_solver.
Qed.

Lemma destroy_cqs_live a e0 e : accounted a e0 e -> paired (get_cqs a e) -> e_live (ucma_destroy_cqs qv a e) ⊆ e_live e0.
Proof.
  unfold accounted, ucma_destroy_cqs, cq_objects. intros Ha [Hq Hc]. destruct (destroy_pair _ (iq_send_cq _) _ e) as [e1 [s1 r1]] eqn:E1.
  destruct (destroy_pair _ (iq_send_ch _) _ e1) as [e2 [s2 r2]] eqn:E2. cbn [put_cqs e_live].
  apply destroy_pair_live in E1; [|done]. apply destroy_pair_live in E2; [|done]. set_solver.
Qed.

Lemma create_pair_live a ctx n e e' cq ch : create_pair qv a ctx n e = (e', (cq, ch)) ->
  e_live e' ⊆ e_live e ∪ opt_set cq ∪ opt_set ch /\ e_cqs e' = e_cqs e /\ (ch = None -> cq = None).
Proof.
  unfold create_pair. destruct (qv_channel qv _ ctx) as [v [c|]].
  - destruct (qv_cq qv _ ctx n a c) as [v2 q]. intros E. injection E as <- <- <-.
    split; [|done]. destruct q; cbn [born e_live opt_set]; set_solver.
  - intros E. injection E as <- <- <-. split; [|done]. cbn [born e_live opt_set]. set_solver.
Qed.

Lemma get_put_cqs a q e : get_cqs a (put_cqs a q e) = q.
Proof. unfold get_cqs, put_cqs. cbn [e_cqs]. by rewrite lookup_insert_eq. Qed.

(** The sending half, on an identifier that has at most the receiving one. *)
Lemma create_send_accounted a ctx n e0 e e' cq ch q : create_pair qv a ctx n e = (e', (cq, ch)) ->
  accounted a e0 e -> get_cqs a e = q -> iq_send_cq q = None -> iq_send_ch q = None ->
  accounted a e0 (put_cqs a (mkIdCqs (match ch with Some _ => cq | None => iq_send_cq (get_cqs a e') end)
    (iq_recv_cq (get_cqs a e')) ch (iq_recv_ch (get_cqs a e'))) e').
Proof.
  intros Ec Ha Hq H1 H2. apply create_pair_live in Ec as (Hl & Hc & Hn).
  assert (get_cqs a e' = q) as -> by (unfold get_cqs in *; by rewrite Hc).
  unfold accounted in *. rewrite get_put_cqs. cbn [put_cqs e_live]. rewrite Hq in Ha. unfold cq_objects in *.
  rewrite H1, H2 in *. cbn [iq_send_cq iq_recv_cq iq_send_ch iq_recv_ch].
  destruct ch as [c|]; [set_solver|]. rewrite (Hn eq_refl) in Hl. set_solver.
Qed.

Lemma create_recv_accounted a ctx n e0 e e' cq ch : create_pair qv a ctx n e = (e', (cq, ch)) ->
  e_live e ⊆ e_live e0 -> get_cqs a e = no_cqs ->
  accounted a e0 (put_cqs a (mkIdCqs (iq_send_cq (get_cqs a e')) (match ch with Some _ => cq | None => iq_recv_cq (get_cqs a e') end)
    (iq_send_ch (get_cqs a e')) ch) e') /\ get_cqs a e' = no_cqs.
Proof.
  intros Ec Ha Hq. apply create_pair_live in Ec as (Hl & Hc & Hn).
  assert (get_cqs a e' = no_cqs) as -> by (unfold get_cqs in *; by rewrite Hc). split; [|done].
  unfold accounted in *. rewrite get_put_cqs. cbn [put_cqs e_live]. unfold cq_objects.
  cbn [iq_send_cq iq_recv_cq iq_send_ch iq_recv_ch no_cqs].
  destruct ch as [c|]; [set_solver|]. rewrite (Hn eq_refl) in Hl. set_solver.
Qed.

(** What the creation of the queues leaves: on success the identifier's own, in pairs; on
    an error nothing. *)
Definition cqs_made (a : Z) e0 e (ret : Z) : Prop :=
  if ret =? 0 then accounted a e0 e /\ paired (get_cqs a e) else e_live e ⊆ e_live e0.

Lemma create_cqs_made a s r e e' ret : ucma_create_cqs qv a s r e = Ok (e', ret) -> get_cqs a e = no_cqs ->
  (r = 0 -> s = 0) -> cqs_made a e e' ret.
Proof.
  unfold ucma_create_cqs. intros E Hq Hsr. destruct (get_id _ a) as [i| | |]; try done. cbn [mbind res_bind] in E.
  destruct (id_ctx i _) as [ctx| | |]; try done. cbn [mbind res_bind] in E. cbv zeta in E.
  destruct (Z.eqb_spec r 0) as [Hr|Hr].
  { rewrite (Hsr Hr) in E. cbn [Z.eqb] in E. injection E as <- <-. cbn.
    unfold accounted. rewrite Hq. split; [set_solver|done]. }
  destruct (create_pair qv a ctx r e) as [e1 [cq ch]] eqn:E1.
  destruct (create_recv_accounted _ _ _ e _ _ _ _ E1) as [Ha Hq1]; [done|done|]. rewrite Hq1 in *.
  cbn [iq_send_cq iq_recv_cq iq_send_ch iq_recv_ch no_cqs] in *.
  destruct cq as [cq|].
  2:{ injection E as <- <-. cbn. apply (destroy_cqs_live a); [done|]. rewrite get_put_cqs. done. }
  assert (exists c, ch = Some c) as [c ->].
  { apply create_pair_live in E1 as (_ & _ & Hn). destruct ch; [eauto|]. by specialize (Hn eq_refl). }
  destruct (Z.eqb_spec s 0) as [Hs|Hs].
  { injection E as <- <-. cbn. split; [done|]. by rewrite get_put_cqs. }
  set (e2 := put_cqs a _ e1) in *.
  assert (get_cqs a e2 = mkIdCqs None (Some cq) None (Some c)) as Hq2 by apply get_put_cqs.
  destruct (create_pair qv a ctx s e2) as [e3 [scq sch]] eqn:E3.
  pose proof (create_send_accounted _ _ _ e _ _ _ _ _ E3 Ha Hq2 eq_refl eq_refl) as Ha3.
  apply create_pair_live in E3 as (_ & Hc3 & _).
  assert (get_cqs a e3 = mkIdCqs None (Some cq) None (Some c)) as Hq3 by (unfold get_cqs in *; by rewrite Hc3).
  rewrite Hq3 in *. cbn [iq_send_cq iq_recv_cq iq_send_ch iq_recv_ch] in *.
  destruct scq as [scq|]; injection E as <- <-; cbn; [|apply (destroy_cqs_live a); [done|]]; [split; [done|]|];
    by rewrite get_put_cqs.
Qed.

End Rollback.

Section Create.
Context {V : Type} (vb : verbs V) (qv : qverbs V) (resp abi_ver : Z).
Hypothesis Hdestroy : destroys qv.
Implicit Types e : eproc V.

(** A queue for sending is made only along with one for receiving. *)
Definition both_sides (attr : qp_init) : Prop :=
  qi_send_cq attr = None -> qi_max_send attr <> 0 -> qi_recv_cq attr = None /\ qi_max_recv attr <> 0.

(** With [o] the queue pair's address: beyond [e0] only it and the identifier's own. *)
Definition qp_made (a : Z) e0 e (ret : Z) : Prop :=
  if ret =? 0 then exists i q, q_ids (e_proc e) !! a = Some i /\ id_qp i = Some q /\ paired (get_cqs a e) /\
    e_live e ⊆ {[cmq_ptr q]} ∪ e_live e0 ∪ cq_objects (get_cqs a e)
  else e_live e ⊆ e_live e0.

Lemma kill_accounted a o e0 e : e_live e ⊆ {[o]} ∪ e_live e0 ∪ cq_objects (get_cqs a e) ->
  accounted a e0 (kill qv (Some o) e).
Proof.
  unfold accounted. rewrite kill_live by done. unfold get_cqs. rewrite (proj1 (kill_frame qv (Some o) e)). set_solver.
Qed.

Lemma qp_refused a e : qp_made a e e (-1).
Proof. unfold qp_made. cbn. set_solver. Qed.

Lemma create_qp_ex_made a attr e e' ret : rdma_create_qp_ex vb qv resp abi_ver a attr e = Ok (e', ret) ->
  get_cqs a e = no_cqs -> both_sides attr -> qp_made a e e' ret.
Proof.
  unfold rdma_create_qp_ex. intros E Hq Hb. destruct (get_id _ a) as [i| | |]; try done. cbn [mbind res_bind] in E.
  destruct (id_qp i); [injection E as <- <-; apply qp_refused|]. destruct (id_ctx i _) as [ctx| | |]; try done. cbn [mbind res_bind] in E.
  split_if; [injection E as <- <-; apply qp_refused|]. cbv zeta in E. rewrite Hq in E. cbn [iq_recv_cq iq_send_cq no_cqs] in E.
  split_if; [injection E as <- <-; apply qp_refused|]. split_if; [done|].
  destruct (ucma_create_cqs _ _ _ _ _) as [[e1 r1]| | |] eqn:E1; try done. cbn [mbind res_bind] in E.
  apply (create_cqs_made qv Hdestroy) in E1; [|done|].
  2:{ destruct (qi_send_cq attr) eqn:Es; [done|]. intros Hr. destruct (decide (qi_max_send attr = 0)) as [|Hn]; [done|].
      destruct (Hb Es Hn) as [Hrc Hm]. by rewrite Hrc in Hr. }
  unfold cqs_made, qp_made in *. destruct (Z.eqb_spec r1 0) as [Hr1|Hr1]; cbn [negb] in E.
  2:{ injection E as E1' E2'. subst. by destruct (Z.eqb_spec ret 0). }
  destruct E1 as [Ha Hp]. destruct (qv_qp _ _ _ _) as [v [[[o num] d]|]].
  2:{ injection E as <- <-. cbn. by apply (destroy_cqs_live qv Hdestroy a). }
  set (e2 := born v (Some o) e1) in *. set (qp := mkCmQp o num _) in *.
  destruct (on_proc _ e2) as [[e3 r3]| | |] eqn:E3; try done. cbn [mbind res_bind] in E.
  assert (e_cqs e3 = e_cqs e1 /\ e_live e3 = {[o]} ∪ e_live e1) as [Hc3 Hl3].
  { unfold on_proc in E3. destruct (if ucma_is_ud_qp _ then _ else _) as [[p x]| | |]; try done. by injection E3 as <- <-. }
  assert (get_cqs a e3 = get_cqs a e1) as Hg3 by (unfold get_cqs; by rewrite Hc3).
  assert (e_live e3 ⊆ {[o]} ∪ e_live e ∪ cq_objects (get_cqs a e3)) as Hl by (rewrite Hg3, Hl3; unfold accounted in Ha; set_solver).
  destruct (Z.eqb_spec r3 0) as [->|Hr3]; cbn [negb] in E.
  - destruct (get_id _ a) as [i'| | |]; try done. cbn [mbind res_bind] in E. injection E as <- <-.
    do 2 eexists. cbn [Z.eqb e_proc put_id set_ids q_ids]. split; [apply lookup_insert_eq|]. split; [done|].
    assert (forall p : cm_proc V, get_cqs a (mkEproc p (e_cqs e3) (e_live e3)) = get_cqs a e1) as Hge
      by (intros p; unfold get_cqs; cbn [e_cqs]; by rewrite Hc3).
    rewrite !Hge. split; [done|]. rewrite Hg3 in Hl. exact Hl.
  - assert (e' = ucma_destroy_cqs qv a (kill qv (Some o) e3) /\ ret = r3) as [-> ->] by (split; congruence).
    destruct (Z.eqb_spec r3 0); [done|].
    apply (destroy_cqs_live qv Hdestroy a); [by apply kill_accounted|].
    unfold get_cqs in *. by rewrite (proj1 (kill_frame qv _ e3)), Hc3.
Qed.
End Create.

(** C29: A queue pair made for an identifier that has no completion queues leaves nothing
    behind, when the verbs that destroy objects succeed and a queue for sending is made only
    along with one for receiving (the application brings its own queues, or leaves both to
    the identifier): when [rdma_create_qp] fails, whichever of the other verbs refused, every
    completion queue, channel and queue pair it made has been destroyed; when it succeeds,
    [rdma_destroy_qp] destroys them all. *)
Theorem created_qp_leaves_nothing {V} (vb : verbs V) qv resp abi_ver a pd attr (e e' : eproc V) ret : destroys qv ->
  rdma_create_qp vb qv resp abi_ver a pd attr e = Ok (e', ret) -> get_cqs a e = no_cqs -> both_sides attr ->
  (ret <> 0 -> e_live e' ⊆ e_live e) /\
  (ret = 0 -> exists e'', rdma_destroy_qp qv a e' = Ok e'' /\ e_live e'' ⊆ e_live e).
Proof.
  unfold rdma_create_qp. intros Hd E Hq Hb. destruct (get_id _ a) as [i| | |]; try done. cbn [mbind res_bind] in E.
  destruct (id_ctx i _) as [ctx| | |]; try done. cbn [mbind res_bind] in E.
  apply create_qp_ex_made in E; [|done|done|done]. unfold qp_made in E. split; intros Hr.
  - by destruct (Z.eqb_spec ret 0).
  - destruct (Z.eqb_spec ret 0); [|done]. destruct E as (i' & q & Hi & Hqp & Hp & Hl).
    unfold rdma_destroy_qp, get_id. rewrite Hi. cbn [of_option mbind res_bind]. rewrite Hqp. cbn [of_option mbind res_bind].
    eexists. split; [reflexivity|]. apply (kill_accounted qv Hd) in Hl. apply (destroy_cqs_live qv Hd a); [exact Hl|].
    unfold get_cqs in *. cbn [e_cqs]. by rewrite (proj1 (kill_frame qv _ e')).
Qed.

(** When the application brings the queue for receiving and the queue pair cannot be
    made, the queue and the channel made for sending stay: [ucma_destroy_cqs] looks for
    them only behind those for receiving. *)
Theorem failed_qp_leaks_send_queue {V} (vb : verbs V) qv resp abi_ver a i ctx rcq attr (e : eproc V) v1 v2 v3 ch cq :
  q_ids (e_proc e) !! a = Some i -> id_qp i = None -> id_qp_type i = IBV_QPT_RC -> id_ctx i (e_proc e) = Ok ctx ->
  id_pd i = None -> get_cqs a e = no_cqs -> qi_send_cq attr = None -> qi_recv_cq attr = Some rcq -> qi_max_send attr <> 0 ->
  qv_channel qv (q_verbs (e_proc e)) ctx = (v1, Some ch) ->
  qv_cq qv v1 ctx (qi_max_send attr) a ch = (v2, Some cq) ->
  (forall x, qv_qp qv v2 ctx x = (v3, None)) ->
  exists e', rdma_create_qp vb qv resp abi_ver a None attr e = Ok (e', -1) /\ ch ∈ e_live e' /\ cq ∈ e_live e'.
Proof.
  intros Hi Hqp Ht Hctx Hpd Hq Hs Hr Hm H1 H2 H3. unfold rdma_create_qp, get_id. rewrite Hi. cbn [of_option mbind res_bind].
  rewrite Hctx, Hpd. cbn [mbind res_bind]. unfold rdma_create_qp_ex, get_id. rewrite Hi. cbn [of_option mbind res_bind].
  rewrite Hqp, Hctx. cbn [mbind res_bind qi_pd qi_recv_cq qi_send_cq qi_max_send]. cbv zeta. rewrite Hq, Hr, Hs, Ht.
  cbn [iq_recv_cq iq_send_cq no_cqs clash orb]. change (IBV_QPT_RC =? IBV_QPT_XRC_RECV) with false. cbv iota.
  unfold ucma_create_cqs, get_id. rewrite Hi. cbn [of_option mbind res_bind]. rewrite Hctx. cbn [mbind res_bind]. cbv zeta.
  cbn [Z.eqb]. destruct (Z.eqb_spec (qi_max_send attr) 0); [done|]. unfold create_pair. rewrite H1.
  cbn [born e_proc set_devs q_verbs]. rewrite H2. cbn [mbind res_bind negb Z.eqb]. cbn [put_cqs born e_proc set_devs q_verbs].
  rewrite H3. eexists. split; [reflexivity|]. unfold ucma_destroy_cqs, get_cqs. cbn [e_cqs born put_cqs]. rewrite lookup_insert_eq.
  cbn [default iq_send_cq iq_recv_cq iq_send_ch iq_recv_ch].
  change (e_cqs e !! a) with (e_cqs e !! a). unfold get_cqs in Hq. cbn. rewrite Hq. cbn. set_solver.
Qed.

(** ** Examples *)

(** Verbs that number the objects; queue pairs are made or not. *)
Definition ex_verbs : verbs nat :=
  mkVerbs nat (fun v _ => (v, None)) (fun v _ => v) (fun _ _ => (0, (0, 0, 0, 0))) (fun _ _ _ => None)
    (fun v _ => (v, None)) (fun v _ => v) (fun v _ _ _ => (v, 0)).
Definition ex_qverbs (qp : bool) : qverbs nat :=
  mkQverbs nat (fun v _ => (S v, Some (600 + Z.of_nat v))) (fun v _ _ _ _ => (S v, Some (600 + Z.of_nat v)))
    (fun v _ _ => if qp then (S v, Some (600 + Z.of_nat v, 42, 9)) else (v, None)) (fun _ _ _ _ => Some 0) (fun v _ => (v, 0)).

Definition ex_qp_id : cma_id := set_dev_pd (Some 0%nat) None (fresh_id 50 0 RDMA_PS_TCP IBV_QPT_RC false).
Definition ex_eproc : eproc nat :=
  mkEproc (mkCmProc (mkEnv None None (fun n => n)) 204 true
             (mkCmCtl ∅ ∅ [] [] [] [] [] true [] []) [] ∅ {[4096 := ex_qp_id]} ∅ ∅
             [mkCmaDev 1 (Some (mkDevAttr 77 0 [] 0 0 0)) None 1] true 0%nat) ∅ {[9]}.
Definition ex_qp_init (recv : option Z) : qp_init := mkQpInit None None recv None 16 16 IBV_QPT_RC.

Lemma created_qp_leaves_nothing_witness : exists e e'',
  rdma_create_qp ex_verbs (ex_qverbs true) 0 3 4096 None (ex_qp_init None) ex_eproc = Ok (e, 0) /\
  length (elements (e_live e)) = 6%nat /\ rdma_destroy_qp (ex_qverbs true) 4096 e = Ok e'' /\ e_live e'' ⊆ {[9]}.
Proof.
  destruct (rdma_create_qp ex_verbs (ex_qverbs true) 0 3 4096 None (ex_qp_init None) ex_eproc) as [[e ret]| | |] eqn:E;
    [|vm_compute in E; discriminate E..].
  destruct (created_qp_leaves_nothing ex_verbs (ex_qverbs true) 0 3 4096 None (ex_qp_init None) ex_eproc e ret ltac:(done) E)
    as [_ Hok]; [done|done|].
  assert (ret = 0) as -> by (vm_compute in E; congruence).
  destruct (Hok eq_refl) as (e'' & Ed & Hl). exists e, e''. split; [done|]. split; [|split; [exact Ed|exact Hl]].
  vm_compute in E. injection E as <-. by vm_compute.
Defined.

Lemma failed_qp_leaks_send_queue_witness : exists e',
  rdma_create_qp ex_verbs (ex_qverbs false) 0 3 4096 None (ex_qp_init (Some 9)) ex_eproc = Ok (e', -1) /\
  600 ∈ e_live e' /\ 601 ∈ e_live e'.
Proof.
  apply (failed_qp_leaks_send_queue ex_verbs (ex_qverbs false) 0 3 4096 ex_qp_id 77 9 (ex_qp_init (Some 9)) ex_eproc
    1%nat 2%nat 2%nat 600 601); try done.
Defined.
