(* ===== verification/CmForward.v ===== *)
(** * Commands on their way to the kernel

    What the router does with a command of connection management: the kernel gets the
    command the client built, with the router's response address and with the addresses
    of containers replaced. *)

From S2P Require Import Prelude CLayout FfTypes Wire CmdCtrl CmdLocal ReqRouter RouterCtl RouterServe.
From S2P Require Import CmTypes CmVip CmResp RouterCm.

(** ** Mapped addresses *)

(** [bs] with the four bytes at [o] replaced by their image. *)
Definition mapped_at (g : gmap (list Z) (list Z)) (o : Z) (bs : list Z) : list Z :=
  take (Z.to_nat o) bs ++ default (slice o 4 bs) (g !! slice o 4 bs) ++ drop (Z.to_nat (o + 4)) bs.

(** The place of the address by the family. *)
Definition in_addr_at (bs : list Z) : Z := if sa_family bs =? AF_INET then 4 else 8.

Definition mapped_addr (g : gmap (list Z) (list Z)) (bs : list Z) : list Z := mapped_at g (in_addr_at bs) bs.

Definition byte_list (bs : list Z) : Prop := Forall (fun b => 0 <= b < 256) bs.

Section Map.
Context {K : Type}.
Implicit Types r : cm_router K.

(** The request struct in the buffer. *)
Definition holds_req (fs : list cty) (m : mem) (ec : cval) (l : list cval) : Prop :=
  read_val (t_cm_req (Struct fs)) m 0 = VS [ec; VS l].

(** The channel lies at the start, the command behind it. *)
Lemma read_req cmd m :
  read_val (t_cm_req cmd) m 0 = VS [read_val t_rdma_event_channel m 0; read_val cmd m (cmd_at cmd)].
Proof. unfold t_cm_req. by rewrite read_val_struct. Qed.

Lemma holds_cmd fs m ec l : holds_req fs m ec l -> read_fields m (cmd_at (Struct fs)) 0 fs = l.
Proof. unfold holds_req. rewrite read_req, read_val_struct. congruence. Qed.

(** The bytes of an address field. *)
Lemma holds_addr fs m ec l i us : holds_req fs m ec l -> fs !! i = Some (Union us) ->
  l !! i = Some (VB (read_bytes m (cmd_field_at (Struct fs) i) (sizeof (Union us)))).
Proof.
  intros Hr Hf. rewrite <- (holds_cmd _ _ _ _ Hr). rewrite (read_fields_lookup _ _ _ 0 _ _ Hf). done.
Qed.

(** The mapping at [o] of the field changes its four bytes only. *)
Lemma map_vip_req fs m ec l i us vips g bs o : holds_req fs m ec l -> fs !! i = Some (Union us) ->
  l !! i = Some (VB bs) -> byte_list bs -> printed_map vips g -> 0 <= o -> o + 4 <= sizeof (Union us) ->
  holds_req fs (map_vip vips m (cmd_field_at (Struct fs) i + o)) ec (<[i := VB (mapped_at g o bs)]> l).
Proof.
  intros Hr Hf Hl Hb Hg Ho Hn. pose proof (holds_addr _ _ _ _ _ _ Hr Hf) as Hbs.
  rewrite Hl in Hbs. injection Hbs as Ebs. set (a := cmd_field_at (Struct fs) i) in *.
  assert (slice o 4 bs = read_bytes m (a + o) 4) as Esl by (rewrite Ebs; apply (slice_read m a (sizeof (Union us))); lia).
  assert (ipv4 (read_bytes m (a + o) 4)) as H4.
  { split; [by rewrite read_bytes_length|]. rewrite <- Esl. unfold slice.
    by apply Forall_take, Forall_drop. }
  destruct (map_vip_ok vips g m (a + o) Hg H4) as [Hd Hout].
  set (m' := map_vip vips m (a + o)) in *.
  pose proof (offsetof_in_struct fs i _ Hf) as [Hoff _].
  assert (4 <= cmd_at (Struct fs)) as Hat by apply align_up_ge, alignof_pos.
  assert (a = cmd_at (Struct fs) + offsetof (Struct fs) i) as Ea by done.
  pose proof (holds_cmd _ _ _ _ Hr) as Hc. unfold holds_req in *. rewrite read_req in *.
  assert (read_val t_rdma_event_channel m 0 = ec) as Hec by congruence.
  do 3 f_equal.
  - rewrite <- Hec. apply read_val_ext. intros x Hx. apply Hout. change (sizeof t_rdma_event_channel) with 4 in Hx. lia.
  - f_equal. rewrite read_val_struct, <- Hc. f_equal.
    rewrite (read_fields_change fs m m' _ 0 i (Union us)); [|lia|done|].
    + f_equal. unfold read_val. cbn [decode]. f_equal. unfold mapped_at.
      rewrite Esl, Ebs. apply (read_patched m m' a o 4 (sizeof (Union us))); try lia; done.
    + intros x Hx. apply Hout. change (nth i (offsets_from 0 fs) 0) with (offsetof (Struct fs) i) in Hx. lia.
Qed.

(** An address of a request after the mapping by its family. *)
Lemma map_addr_req fs m ec l i us r g bs : holds_req fs m ec l -> fs !! i = Some (Union us) ->
  l !! i = Some (VB bs) -> byte_list bs -> printed_map (vip_map r) g -> 12 <= sizeof (Union us) ->
  holds_req fs (map_addr (Struct fs) i r m) ec (<[i := VB (mapped_addr g bs)]> l).
Proof.
  intros Hr Hf Hl Hb Hg Hn. unfold map_addr, mapped_addr, get_in_addr, in_addr_at.
  pose proof (holds_addr _ _ _ _ _ _ Hr Hf) as Hbs. rewrite Hl in Hbs. injection Hbs as Ebs.
  assert (sa_family (read_bytes m (cmd_field_at (Struct fs) i) 2) = sa_family bs) as ->.
  { rewrite Ebs. unfold sa_family. f_equal.
    rewrite (take_read m _ 2 2), (take_read m _ 2 (sizeof (Union us))) by lia. done. }
  destruct (sa_family bs =? AF_INET); eapply map_vip_req; eauto; lia.
Qed.

End Map.

(** ** What the kernel is to get *)

(** For a function whose command goes to the kernel: the command's type and code, the
    response struct of the router, the size of the kernel's response, the field that
    takes its address, the addresses of hosts, and the fields the router sets itself. *)
Record cm_spec : Type := mkCmSpec {
  sp_cmd : cty; sp_op : ucma_cmd; sp_rsp : cty; sp_out : Z;
  sp_resp : option nat; sp_addrs : list nat; sp_fixed : list (nat * cval) }.

Definition cm_spec_of (f : RDMA_FUNCTION_CALL) : option cm_spec :=
  let with_resp t op rt := mkCmSpec t op (t_cm_rsp rt) (sizeof rt) in
  let plain t op := mkCmSpec t op t_cm_ret 0 None in
  match f with
  | CM_CREATE_ID => Some (with_resp t_ucma_abi_create_id UCMA_CMD_CREATE_ID t_ucma_abi_create_id_resp
                            (Some 4%nat) [] [(7%nat, VB (replicate 5 0))])
  | CM_DESTROY_ID => Some (with_resp t_ucma_abi_destroy_id UCMA_CMD_DESTROY_ID t_ucma_abi_destroy_id_resp
                             (Some 3%nat) [] [(5%nat, VI 0)])
  | CM_BIND => Some (plain t_ucma_abi_bind UCMA_CMD_BIND [6%nat] [(5%nat, VI 0)])
  | CM_GET_EVENT => Some (with_resp t_ucma_abi_get_event UCMA_CMD_GET_EVENT t_ucma_abi_event_resp
                            (Some 3%nat) [] [])
  | CM_QUERY_ROUTE => Some (with_resp t_ucma_abi_query UCMA_CMD_QUERY_ROUTE t_ucma_abi_query_route_resp
                              (Some 3%nat) [] [(5%nat, VI 0)])
  | CM_LISTEN => Some (plain t_ucma_abi_listen UCMA_CMD_LISTEN [] [])
  | CM_RESOLVE_IP => Some (plain t_ucma_abi_resolve_ip UCMA_CMD_RESOLVE_IP [3; 4]%nat [])
  | CM_RESOLVE_ADDR => Some (plain t_ucma_abi_resolve_addr UCMA_CMD_RESOLVE_ADDR [8; 9]%nat [(7%nat, VI 0)])
  | CM_UCMA_QUERY_ADDR | CM_UCMA_QUERY_GID =>
      Some (with_resp t_ucma_abi_query UCMA_CMD_QUERY t_ucma_abi_query_addr_resp (Some 3%nat) [] [])
  | CM_UCMA_QUERY_PATH => Some (mkCmSpec t_ucma_abi_query UCMA_CMD_QUERY t_CM_UCMA_QUERY_PATH_RSP
                                  query_path_size (Some 3%nat) [] [])
  | CM_UCMA_PROCESS_CONN_RESP => Some (plain t_ucma_abi_accept UCMA_CMD_ACCEPT []
                                         [(3%nat, VI 0); (4%nat, zero_conn_param); (6%nat, VI 0)])
  | CM_RESOLVE_ROUTE => Some (plain t_ucma_abi_resolve_route UCMA_CMD_RESOLVE_ROUTE [] [])
  | CM_INIT_QP_ATTR => Some (with_resp t_ucma_abi_init_qp_attr UCMA_CMD_INIT_QP_ATTR t_ibv_kern_qp_attr
                               (Some 3%nat) [] [])
  | CM_CONNECT => Some (plain t_ucma_abi_connect UCMA_CMD_CONNECT [] [(5%nat, VI 0)])
  | CM_ACCEPT => Some (plain t_ucma_abi_accept UCMA_CMD_ACCEPT [] [(6%nat, VI 0)])
  | CM_MIGRATE_ID => Some (with_resp t_ucma_abi_migrate_id UCMA_CMD_MIGRATE_ID t_ucma_abi_migrate_resp
                             (Some 3%nat) [] [])
  | CM_DISCONNECT => Some (plain t_ucma_abi_disconnect UCMA_CMD_DISCONNECT [] [])
  | _ => None
  end.

(** The client's command with its header, the router's response address and the
    addresses of the hosts. *)
Definition map_fields (g : gmap (list Z) (list Z)) (places : list nat) (l : list cval) : list cval :=
  fold_left (fun l i => match l !! i with
                        | Some (VB bs) => <[i := VB (mapped_addr g bs)]> l
                        | _ => l end) places l.
Definition kernel_cmd (resp : Z) (g : gmap (list Z) (list Z)) (sp : cm_spec) (l : list cval) : cval :=
  let l1 := match sp_resp sp with Some i => <[i := VI resp]> l | None => l end in
  cma_init_cmd (sp_cmd sp) (sp_op sp) (sp_out sp) (drop 3 (map_fields g (sp_addrs sp) l1)).

(** The fields the router sets have the values it sets. *)
Definition fixed_ok (sp : cm_spec) (l : list cval) : Prop :=
  Forall (fun '(i, v) => l !! i = Some v) (sp_fixed sp).
Definition addrs_ok (sp : cm_spec) (l : list cval) : Prop :=
  Forall (fun i => forall bs, l !! i = Some (VB bs) -> byte_list bs) (sp_addrs sp).
(** The address of a bind ends with its length, and the rest is 0. *)
Definition padded (f : RDMA_FUNCTION_CALL) (l : list cval) : Prop :=
  f = CM_BIND -> exists n bs, l !! 4%nat = Some (VI n) /\ l !! 6%nat = Some (VB bs) /\
    in_addr_at bs + 4 <= n <= 128 /\ drop (Z.to_nat n) bs = replicate (Z.to_nat (128 - n)) 0.

(** ** Values of a typed command *)

Lemma has_int t v : has_type t v -> is_int t = true -> exists z, v = VI z.
Proof. intros H Hi. inversion H as [? z|? ? [(? & ? & ->)|[? ->]]|]; subst; try done. by eexists. Qed.

Lemma has_union us v : has_type (Union us) v -> exists bs, v = VB bs /\ Z.of_nat (length bs) = sizeof (Union us).
Proof.
  intros H. inversion H as [? z [E|[E|[E|[E|E]]]]|? bs|]; subst; try discriminate. by eexists.
Qed.

Lemma has_field fs vs i t : fields_have fs vs -> fs !! i = Some t -> exists v, vs !! i = Some v /\ has_type t v.
Proof.
  intros H. revert i. induction H as [|f v fs vs Hv _ IH]; intros i E; [done|].
  destruct i as [|i]; [simpl in E; injection E as ->; by eexists|]. by apply IH.
Qed.

Lemma fields_have_length fs vs : fields_have fs vs -> length vs = length fs.
Proof. induction 1; simpl; congruence. Qed.

(** The fields of a list of known types as variables. *)
Ltac open_fields H :=
  lazymatch type of H with
  | fields_have [] _ => inversion H; subst; clear H
  | fields_have (_ :: _) _ =>
      let f := fresh "Hf" in let r := fresh "Hr" in
      inversion H as [|? ? ? ? f r]; subst; clear H;
      first [ let z := fresh "z" in destruct (has_int _ _ f eq_refl) as [z ->]
            | let b := fresh "b" in let n := fresh "Hb" in destruct (has_union _ _ f) as (b & -> & n)
            | idtac ];
      open_fields r
  end.

(** The fields with a given value get it. *)
Ltac fix_fields H :=
  lazymatch type of H with
  | Forall _ [] => clear H
  | Forall _ (_ :: _) =>
      let h := fresh in apply Forall_cons in H as [h H]; cbn [lookup list_lookup] in h;
      injection h as ->; fix_fields H
  end.

Section Forward.
Context {K : Type} (uc : ucma K) (os : cm_os).
Implicit Types (r : cm_router K) (th : cm_thread).

(** What the router makes of the kernel's answer. *)
Definition kernel_answer (sp : cm_spec) (out : K * Z * list Z) : K * Z * option (list Z) :=
  let '(k, ret, stored) := out in
  (k, if ret =? sizeof (sp_cmd sp) then 0 else -1,
   if ret =? sizeof (sp_cmd sp) then sp_resp sp ≫= fun _ => Some (resp_buffer (co_lib os) (sp_out sp) stored)
   else None).

(** The write of a spec's command. *)
Definition kernel_write (sp : cm_spec) (g : gmap (list Z) (list Z)) (l : list cval) (fd : Z) (k : K) :=
  uc_write uc k fd (encode 0 (sp_cmd sp) (kernel_cmd (lo_resp (co_lib os)) g sp l)) [].

Lemma run_cmd_resp sp cmd k fd : is_Some (sp_resp sp) ->
  run_cmd uc (co_lib os) (sp_cmd sp) cmd [] (sp_out sp) k fd
  = kernel_answer sp (uc_write uc k fd (encode 0 (sp_cmd sp) cmd) []).
Proof.
  intros [i Hi]. unfold run_cmd, kernel_answer. rewrite Hi.
  destruct (uc_write uc k fd _ []) as [[k' ret] st]. by destruct (ret =? _).
Qed.

Lemma run_cmd_plain sp cmd k fd : sp_resp sp = None ->
  no_resp (run_cmd uc (co_lib os) (sp_cmd sp) cmd [] 0 k fd)
  = kernel_answer sp (uc_write uc k fd (encode 0 (sp_cmd sp) cmd) []).
Proof.
  intros Hi. unfold run_cmd, kernel_answer, no_resp. rewrite Hi.
  destruct (uc_write uc k fd _ []) as [[k' ret] st]. by destruct (ret =? _).
Qed.

(** The request in the buffer, as the branches read it. *)
Definition carries (t : cty) (th : cm_thread) (fd : Z) (l : list cval) : Prop :=
  read_val (t_cm_req t) (ct_req th) 0 = VS [VS [VI (u32 fd)]; VS l].

Lemma carries_fd t th fd l : carries t th fd l -> - 2 ^ 31 <= fd < 2 ^ 31 -> req_fd t th = fd.
Proof. unfold carries, req_fd. intros -> Hfd. by apply s32_u32. Qed.
Lemma carries_cmd t th fd l : carries t th fd l -> req_cmd t th = VS l.
Proof. unfold carries, req_cmd. by intros ->. Qed.

Lemma set_ct_req_same th : set_ct_req (ct_req th) th = th.
Proof. by destruct th. Qed.
Lemma set_ct_req_twice m m' th : set_ct_req m (set_ct_req m' th) = set_ct_req m th.
Proof. done. Qed.
Lemma ct_req_set m th : ct_req (set_ct_req m th) = m.
Proof. done. Qed.

(** The result of a branch that passes the command on. *)
Definition passed_on (f : RDMA_FUNCTION_CALL) (sp : cm_spec) g l fd th r : Prop :=
  exists m, cm_branch uc os f th r
    = Some (answer_with os (sp_rsp sp) (kernel_answer sp (kernel_write sp g l fd (cr_kern r)))
              (sizeof (sp_rsp sp)) (set_ct_req m th) r).

Ltac unfold_forward :=
  unfold do_create_id, do_get_event, do_query_route, do_listen, do_query_addr, do_query_gid, do_process_conn_resp, do_destroy_id, do_resolve_route, do_query_path, do_init_qp_attr, do_connect, do_cm_accept, do_migrate_id, do_disconnect, forward.
Ltac pass_plain :=
  lazymatch goal with |- _ = kernel_answer ?sp (kernel_write ?sp ?g ?l ?fd ?k) =>
    exact (run_cmd_plain sp (kernel_cmd (lo_resp (co_lib os)) g sp l) k fd eq_refl) end.
Ltac pass_resp :=
  lazymatch goal with |- _ = kernel_answer ?sp (kernel_write ?sp ?g ?l ?fd ?k) =>
    exact (run_cmd_resp sp (kernel_cmd (lo_resp (co_lib os)) g sp l) k fd (mk_is_Some _ _ eq_refl)) end.

(** The functions whose command is passed on as it is. *)
Lemma forward_passes f sp g fd l th r : cm_spec_of f = Some sp -> sp_addrs sp = [] ->
  carries (sp_cmd sp) th fd l -> has_type (sp_cmd sp) (VS l) -> fixed_ok sp l ->
  - 2 ^ 31 <= fd < 2 ^ 31 -> uc_init uc (cr_kern r) = (cr_kern r, 0) -> passed_on f sp g l fd th r.
Proof.
  intros Hs Ha Hc Ht Hx Hfd Hi. exists (ct_req th). rewrite set_ct_req_same.
  assert (forall fs, Struct fs = sp_cmd sp -> fields_have fs l) as Hl
    by (intros fs E; rewrite <- E in Ht; by inversion Ht).
  destruct f; try discriminate Hs; apply (inj Some) in Hs; subst sp;
    try discriminate Ha; clear Ha Ht;
    specialize (Hl _ eq_refl); unfold fixed_ok in Hx; cbn [sp_fixed] in Hx;
    open_fields Hl; fix_fields Hx;
    cbn [cm_branch sp_cmd sp_rsp] in *; unfold_forward;
    rewrite (carries_fd _ _ _ _ Hc Hfd), (carries_cmd _ _ _ _ Hc); do 2 f_equal.
  all: try (unfold rdma_get_cm_event_resp; rewrite Hi; cbn [negb Z.eqb]).
  all: first [pass_plain|pass_resp].
Qed.

Lemma carries_map t fs th fd l i us r g bs : t = Struct fs -> fs !! i = Some (Union us) ->
  12 <= sizeof (Union us) -> printed_map (vip_map r) g -> carries t th fd l -> l !! i = Some (VB bs) ->
  byte_list bs -> carries t (set_ct_req (map_addr t i r (ct_req th)) th) fd (<[i := VB (mapped_addr g bs)]> l).
Proof. intros -> Hf Hn Hg Hc Hl Hb. by eapply map_addr_req. Qed.

(** The functions with two addresses. *)
Lemma resolve_passes f sp g fd l th r : cm_spec_of f = Some sp -> f = CM_RESOLVE_IP \/ f = CM_RESOLVE_ADDR ->
  carries (sp_cmd sp) th fd l -> has_type (sp_cmd sp) (VS l) -> fixed_ok sp l -> addrs_ok sp l ->
  - 2 ^ 31 <= fd < 2 ^ 31 -> printed_map (vip_map r) g -> passed_on f sp g l fd th r.
Proof.
  intros Hs Hf Hc Ht Hx Ha Hfd Hg.
  assert (forall fs, Struct fs = sp_cmd sp -> fields_have fs l) as Hl
    by (intros fs E; rewrite <- E in Ht; by inversion Ht). clear Ht.
  destruct Hf as [-> | ->]; apply (inj Some) in Hs; subst sp; specialize (Hl _ eq_refl);
    unfold fixed_ok in Hx; unfold addrs_ok in Ha; cbn [sp_fixed sp_addrs] in Hx, Ha; open_fields Hl; fix_fields Hx;
    rewrite !Forall_cons in Ha; destruct Ha as (Ha1 & Ha2 & _);
    specialize (Ha1 _ eq_refl); specialize (Ha2 _ eq_refl);
    eexists; cbn [cm_branch sp_cmd sp_rsp] in *; unfold do_resolve_ip, do_resolve_addr; f_equal.
  - eapply (carries_map _ _ _ _ _ 3) in Hc; [|done..]. eapply (carries_map _ _ _ _ _ 4) in Hc; [|done..].
    rewrite set_ct_req_twice, ct_req_set in Hc.
    unfold forward. rewrite (carries_fd _ _ _ _ Hc Hfd), (carries_cmd _ _ _ _ Hc). f_equal. pass_plain.
  - eapply (carries_map _ _ _ _ _ 8) in Hc; [|done..]. eapply (carries_map _ _ _ _ _ 9) in Hc; [|done..].
    rewrite set_ct_req_twice, ct_req_set in Hc.
    unfold forward. rewrite (carries_fd _ _ _ _ Hc Hfd), (carries_cmd _ _ _ _ Hc). f_equal. pass_plain.
Qed.

(** The rest of a mapped address is as it was. *)
Lemma mapped_at_rest g vips o n bs : printed_map vips g -> 0 <= o -> o + 4 <= n -> n <= Z.of_nat (length bs) ->
  length (mapped_at g o bs) = length bs /\ drop (Z.to_nat n) (mapped_at g o bs) = drop (Z.to_nat n) bs.
Proof.
  intros [_ Hg] Ho Hn Hb. unfold mapped_at. set (d := default _ _).
  assert (length d = 4%nat) as Hd.
  { unfold d, slice. destruct (g !! _) as [x|] eqn:E; simpl; [by destruct (Hg _ _ E)|].
    rewrite length_take, length_drop. lia. }
  split; [rewrite !length_app, length_take, length_drop; lia|].
  rewrite app_assoc, drop_app_ge by (rewrite length_app, length_take; lia).
  rewrite drop_drop, length_app, length_take. f_equal. lia.
Qed.

Lemma addr_copy_padded size n bs : Z.of_nat (length bs) = size -> 0 <= n <= size ->
  drop (Z.to_nat n) bs = replicate (Z.to_nat (size - n)) 0 -> addr_copy size n bs = Ok (VB bs).
Proof.
  intros Hl Hn Hd. unfold addr_copy, take_n. destruct (Z.ltb_spec size n); [lia|].
  destruct (Z.ltb_spec n 0); [lia|]. destruct (Z.ltb_spec (Z.of_nat (length bs)) n); [lia|].
  cbn [orb mbind res_bind].
  by rewrite <- Hd, take_drop.
Qed.

Lemma bind_passes sp g fd l th r : cm_spec_of CM_BIND = Some sp ->
  carries (sp_cmd sp) th fd l -> has_type (sp_cmd sp) (VS l) -> fixed_ok sp l -> addrs_ok sp l ->
  padded CM_BIND l -> - 2 ^ 31 <= fd < 2 ^ 31 -> printed_map (vip_map r) g -> passed_on CM_BIND sp g l fd th r.
Proof.
  intros Hs Hc Ht Hx Ha Hp Hfd Hg.
  assert (forall fs, Struct fs = sp_cmd sp -> fields_have fs l) as Hl
    by (intros fs E; rewrite <- E in Ht; by inversion Ht). clear Ht.
  apply (inj Some) in Hs; subst sp; specialize (Hl _ eq_refl).
  unfold fixed_ok in Hx; unfold addrs_ok in Ha; cbn [sp_fixed sp_addrs] in Hx, Ha; open_fields Hl; fix_fields Hx.
  rewrite !Forall_cons in Ha; destruct Ha as (Ha1 & _). specialize (Ha1 _ eq_refl).
  destruct (Hp eq_refl) as (n & bs & En & Eb & Hn & Hz). injection En as <-. injection Eb as <-.
  eexists. cbn [cm_branch sp_cmd sp_rsp] in *. unfold do_bind. f_equal.
  eapply (carries_map _ _ _ _ _ 6) in Hc; [|done..].
  rewrite (carries_fd _ _ _ _ Hc Hfd), (carries_cmd _ _ _ _ Hc). unfold rdma_bind_resp.
  change (sizeof (Union _)) with 128 in Hb.
  assert (0 <= in_addr_at b) by (unfold in_addr_at; split_if; lia).
  destruct (mapped_at_rest g _ (in_addr_at b) z3 b Hg) as [Hml Hmd]; [lia..|].
  change (sizeof t_sockaddr_storage) with 128.
  rewrite (addr_copy_padded _ z3 (mapped_addr g b)); [|by unfold mapped_addr; rewrite Hml|lia|by unfold mapped_addr; rewrite Hmd].
  cbn [mbind res_bind]. f_equal. pass_plain.
Qed.

Lemma command_passes f sp g fd l th r : cm_spec_of f = Some sp ->
  carries (sp_cmd sp) th fd l -> has_type (sp_cmd sp) (VS l) -> fixed_ok sp l -> addrs_ok sp l ->
  padded f l -> - 2 ^ 31 <= fd < 2 ^ 31 -> printed_map (vip_map r) g ->
  uc_init uc (cr_kern r) = (cr_kern r, 0) -> passed_on f sp g l fd th r.
Proof.
  intros Hs Hc Ht Hx Ha Hp Hfd Hg Hi. destruct (sp_addrs sp) as [|i is'] eqn:Ei.
  - by apply forward_passes.
  - destruct (decide (f = CM_BIND)) as [->|Hn]; [by apply bind_passes|].
    apply resolve_passes; try done.
    destruct f; try discriminate Hs; try done; apply (inj Some) in Hs; subst sp; try discriminate Ei; auto.
Qed.

(** ** A turn *)

(** A request as librdmacm writes it, read back whole. *)
Definition cm_reads (id : Z) (f : RDMA_FUNCTION_CALL) (t : cty) (fd : Z) (l : list cval) : list (option (list Z)) :=
  [Some (header_bytes (mkReqHeader id f (sizeof (t_cm_req t))));
   Some (encode 0 (t_cm_req t) (VS [VS [VI (u32 fd)]; VS l]))].

Lemma cm_req_typed t fd l : has_type t (VS l) -> has_type (t_cm_req t) (VS [VS [VI (u32 fd)]; VS l]).
Proof.
  intros Ht. apply ht_struct. constructor; [|constructor; [done|constructor]].
  apply ht_struct. constructor; [|constructor]. apply ht_int; [tauto|]. apply u32_range.
Qed.

Lemma spec_format f sp : cm_spec_of f = Some sp ->
  cm_format f = Some (Some (t_cm_req (sp_cmd sp)), sp_rsp sp) /\ 0 <= sizeof (t_cm_req (sp_cmd sp)) < 2 ^ 32.
Proof.
  intros Hs. destruct f; try discriminate Hs; apply (inj Some) in Hs; subst sp;
    (split; [reflexivity|vm_compute; split; congruence]).
Qed.

(** The turn up to the branch. *)
Lemma cm_turn_body id f t rt fd l th r : cm_format f = Some (Some (t_cm_req t), rt) ->
  0 <= sizeof (t_cm_req t) < 2 ^ 32 -> sizeof (t_cm_req t) <= co_cap os -> has_type t (VS l) ->
  exists th2, ct_in th2 = ct_in th /\ ct_wr th2 = ct_wr th /\ ct_rsp th2 = ct_rsp th /\ ct_fds th2 = ct_fds th /\
    ct_out th2 = ct_out th /\ carries t th2 fd l /\
  cm_turn uc os (mkCt (cm_reads id f t fd l ++ ct_in th) (ct_wr th) (ct_req th) (ct_rsp th) (ct_fds th) (ct_out th)) r
  = match cm_branch uc os f th2 r with
    | None => Ok (CmElsewhere (func_code f)
        (mkCt (drop 1 (cm_reads id f t fd l) ++ ct_in th) (ct_wr th) (ct_req th) (ct_rsp th) (ct_fds th) (ct_out th)) r)
    | Some br =>
        '(th3, r', size) ← br;
        match size with
        | None => Ok (CmNext th3 r')
        | Some n => '(ok, th4) ← cm_write n th3; Ok (if (ok : bool) then CmNext th4 r' else CmDone th4 r')
        end
    end.
Proof.
  intros Hf Hsz Hcap Ht. pose proof (cm_req_typed t fd l Ht) as Hr.
  destruct (has_type_wire 0 _ _ Hr) as [Hlen _].
  eexists (mkCt (ct_in th) (ct_wr th) (write_bytes (ct_req th) 0 (encode 0 (t_cm_req t) _)) (ct_rsp th) (ct_fds th) (ct_out th)).
  do 5 (split; [done|]). split; [by apply read_val_sent|].
  unfold cm_turn, cm_reads. cbn [ct_in app]. rewrite header_decodes by done.
  assert (length (header_bytes (mkReqHeader id f (sizeof (t_cm_req t)))) = 12%nat) as -> by done.
  change (Z.of_nat 12 <? sizeof t_FfrRequestHeader) with false. cbn [func client_id body_size].
  unfold fu. simpl (vint _). rewrite func_of_code_code. cbn [mbind option_bind]. rewrite Hf.
  cbn [mbind option_bind fst]. unfold cm_read_body. cbn [ct_in ct_wr ct_req ct_rsp ct_fds ct_out].
  rewrite Hlen. destruct (Z.ltb_spec (co_cap os) (sizeof (t_cm_req t))); [lia|].
  destruct (Z.ltb_spec (sizeof (t_cm_req t)) (sizeof (t_cm_req t))); [lia|].
  done.
Qed.

(** ** The answer *)

(** The response struct starts with [ret_errno]; the kernel's response lies behind it. *)
Lemma spec_response f sp : cm_spec_of f = Some sp ->
  4 <= sizeof (sp_rsp sp) /\
  (is_Some (sp_resp sp) -> 4 <= offsetof (sp_rsp sp) 1 /\
     0 <= sp_out sp /\ offsetof (sp_rsp sp) 1 + sp_out sp <= sizeof (sp_rsp sp)) /\
  forall bs, fu (decode (sp_rsp sp) bs) 0 = le_combine (slice 0 4 bs).
Proof.
  intros Hs. destruct f; try discriminate Hs; apply (inj Some) in Hs; subst sp;
    (split; [vm_compute; congruence|]; split; [intros _; vm_compute; repeat split; congruence|done])
    || (split; [vm_compute; congruence|]; split; [by intros []|done]).
Qed.

Lemma resp_buffer_length lo n bs : 0 <= n -> Z.of_nat (length (resp_buffer lo n bs)) = n.
Proof.
  intros Hn. unfold resp_buffer, overwrite. rewrite length_app, length_drop, length_replicate, length_take. lia.
Qed.

Lemma ret_field ret rsp n : 4 <= n -> - 2 ^ 31 <= ret < 2 ^ 31 ->
  s32 (le_combine (slice 0 4 (read_bytes (store32 rsp 0 (u32 ret)) 0 n))) = ret.
Proof.
  intros Hn Hr. rewrite slice_read by lia. unfold store32.
  pose proof (read_write rsp 0 (le_split 4 (u32 ret))) as E. rewrite le_split_length in E.
  change (0 + 0) with 0. change (Z.of_nat 4) with 4 in E. rewrite E, le_combine_split by apply u32_range.
  by apply s32_u32.
Qed.

(** What the client reads for an answer of the kernel: [ret_errno], and the response,
    which after an error is what the buffer held. *)
Definition answer_read (sp : cm_spec) (ret : Z) (stored : list Z) (old : mem) (bs : list Z) : Prop :=
  Z.of_nat (length bs) = sizeof (sp_rsp sp) /\
  fi (decode (sp_rsp sp) bs) 0 = (if ret =? sizeof (sp_cmd sp) then 0 else -1) /\
  (ret = sizeof (sp_cmd sp) -> is_Some (sp_resp sp) ->
     slice (offsetof (sp_rsp sp) 1) (sp_out sp) bs = resp_buffer (co_lib os) (sp_out sp) stored) /\
  (ret <> sizeof (sp_cmd sp) ->
     slice 4 (sizeof (sp_rsp sp) - 4) bs = read_bytes old 4 (sizeof (sp_rsp sp) - 4)).

Lemma answer_is_read f sp k ret stored th r w ws : cm_spec_of f = Some sp -> ct_wr th = w :: ws ->
  sizeof (sp_rsp sp) <= co_cap os -> sizeof (sp_rsp sp) <= w ->
  exists rsp bs, answer_read sp ret stored (ct_rsp th) bs /\
   ('(th3, r', size) ← answer_with os (sp_rsp sp) (kernel_answer sp (k, ret, stored)) (sizeof (sp_rsp sp)) th r;
    match size with
    | None => Ok (CmNext th3 r')
    | Some n => '(ok, th4) ← cm_write n th3; Ok (if (ok : bool) then CmNext th4 r' else CmDone th4 r')
    end) = Ok (CmNext (mkCt (ct_in th) ws (ct_req th) rsp (ct_fds th) (ct_out th ++ [bs])) (set_kern k r)).
Proof.
  intros Hs Hw Hcap Hle. destruct (spec_response _ _ Hs) as (H4 & Hresp & Hdec).
  unfold answer_with. cbn [kernel_answer]. destruct (Z.ltb_spec (co_cap os) (sizeof (sp_rsp sp))); [lia|].
  eexists. eexists. split.
  2:{ cbn [mbind res_bind set_ct_rsp]. unfold cm_write. cbn [ct_wr set_ct_rsp]. rewrite Hw. cbn [mbind res_bind].
      destruct (Z.ltb_spec w (sizeof (sp_rsp sp))); [lia|]. reflexivity. }
  cbn [ct_rsp set_ct_rsp]. split; [rewrite read_bytes_length; lia|]. split; [|split].
  - unfold fi. rewrite Hdec. apply ret_field; [done|]. destruct (ret =? _); lia.
  - intros -> [i Hi]. rewrite Z.eqb_refl, Hi. cbn [mbind option_bind].
    destruct (Hresp ltac:(by rewrite Hi; eexists)) as (Ho & Hn & Hfit).
    rewrite slice_read by lia. unfold store32. rewrite read_write_out by (rewrite le_split_length; lia).
    pose proof (read_write (ct_rsp th) (offsetof (sp_rsp sp) 1) (resp_buffer (co_lib os) (sp_out sp) stored)) as E.
    by rewrite resp_buffer_length in E.
  - intros Hne. destruct (Z.eqb_spec ret (sizeof (sp_cmd sp))); [done|]. rewrite slice_read by lia.
    unfold store32. rewrite read_write_out by (rewrite le_split_length; lia). done.
Qed.

End Forward.

(** The turn of a request for the kernel. *)
Lemma cm_turn_passes {K} (uc : ucma K) os f sp g id fd l rest w ws req rsp fds out
  (r : cm_router K) k ret stored :
  cm_spec_of f = Some sp -> has_type (sp_cmd sp) (VS l) -> fixed_ok sp l -> addrs_ok sp l -> padded f l ->
  - 2 ^ 31 <= fd < 2 ^ 31 -> printed_map (vip_map r) g -> uc_init uc (cr_kern r) = (cr_kern r, 0) ->
  sizeof (t_cm_req (sp_cmd sp)) <= co_cap os -> sizeof (sp_rsp sp) <= co_cap os -> sizeof (sp_rsp sp) <= w ->
  uc_write uc (cr_kern r) fd (encode 0 (sp_cmd sp) (kernel_cmd (lo_resp (co_lib os)) g sp l)) [] = (k, ret, stored) ->
  exists req' rsp' bs,
    cm_turn uc os (mkCt (cm_reads id f (sp_cmd sp) fd l ++ rest) (w :: ws) req rsp fds out) r
    = Ok (CmNext (mkCt rest ws req' rsp' fds (out ++ [bs])) (set_kern k r)) /\
    answer_read os sp ret stored rsp bs.
Proof.
  intros Hs Ht Hx Ha Hp Hfd Hg Hi Hc1 Hc2 Hw Hk. destruct (spec_format _ _ Hs) as [Hf Hsz].
  destruct (cm_turn_body uc os id f _ _ fd l (mkCt rest (w :: ws) req rsp fds out) r Hf Hsz Hc1 Ht)
    as (th2 & E1 & E2 & E3 & E4 & E5 & Hcar & Hturn).
  destruct (command_passes uc os f sp g fd l th2 r Hs Hcar Ht Hx Ha Hp Hfd Hg Hi) as [m Hb].
  rewrite Hb in Hturn. unfold kernel_write in Hturn. rewrite Hk in Hturn.
  destruct (answer_is_read os f sp k ret stored (set_ct_req m th2) r w ws Hs E2 Hc2 Hw) as (rsp' & bs & Hbs & Hans).
  rewrite Hans in Hturn. cbn [ct_in ct_req ct_rsp ct_fds ct_out set_ct_req] in *.
  exists m, rsp', bs. split; [|by rewrite E3 in Hbs]. rewrite E1, E4, E5 in Hturn. exact Hturn.
Qed.

(** ** Any number of requests *)

(** A request: the client, the function with its spec, the descriptor, the command. *)
Record cm_request : Type := mkCmRequest {
  cq_id : Z; cq_fun : RDMA_FUNCTION_CALL; cq_spec : cm_spec; cq_fd : Z; cq_cmd : list cval }.

Definition request_ok (os : cm_os) (q : cm_request) : Prop :=
  let sp := cq_spec q in
  cm_spec_of (cq_fun q) = Some sp /\ has_type (sp_cmd sp) (VS (cq_cmd q)) /\ fixed_ok sp (cq_cmd q) /\
  addrs_ok sp (cq_cmd q) /\ padded (cq_fun q) (cq_cmd q) /\ - 2 ^ 31 <= cq_fd q < 2 ^ 31 /\
  sizeof (t_cm_req (sp_cmd sp)) <= co_cap os /\ sizeof (sp_rsp sp) <= co_cap os.

Definition request_reads (q : cm_request) : list (option (list Z)) :=
  cm_reads (cq_id q) (cq_fun q) (sp_cmd (cq_spec q)) (cq_fd q) (cq_cmd q).

(** What the kernel is to see: the commands one after the other, each on its
    descriptor; its results and responses. *)
Fixpoint kernel_run {K} (uc : ucma K) (resp : Z) (g : gmap (list Z) (list Z)) (qs : list cm_request) (k : K)
  : K * list (Z * list Z) :=
  match qs with
  | [] => (k, [])
  | q :: qs' =>
      let cmd := kernel_cmd resp g (cq_spec q) (cq_cmd q) in
      let '(k1, ret, stored) := uc_write uc k (cq_fd q) (encode 0 (sp_cmd (cq_spec q)) cmd) [] in
      let '(k2, l) := kernel_run uc resp g qs' k1 in
      (k2, (ret, stored) :: l)
  end.

(** An answer for a request. *)
Definition answered (os : cm_os) (q : cm_request) (x : Z * list Z) (bs : list Z) : Prop :=
  exists old, answer_read os (cq_spec q) (x.1) (x.2) old bs.

Lemma requests_served {K} (uc : ucma K) os g (qs : list cm_request) :
  (forall k, uc_init uc k = (k, 0)) -> Forall (request_ok os) qs ->
  forall n req rsp fds out (r : cm_router K), (length qs < n)%nat -> printed_map (vip_map r) g ->
  let '(k, xs) := kernel_run uc (lo_resp (co_lib os)) g qs (cr_kern r) in
  exists req' rsp' bss,
    cm_turns uc os n (mkCt (concat (map request_reads qs) ++ [Some []])
                        (map (fun q => sizeof (sp_rsp (cq_spec q))) qs) req rsp fds out) r
    = Ok (CmDone (mkCt [] [] req' rsp' fds (out ++ bss)) (set_kern k r)) /\
    Forall3 (answered os) qs xs bss.
Proof.
  intros Hi Hqs. induction Hqs as [|q qs Hq Hqs IH]; intros [|n] req rsp fds out r Hn Hg; try (simpl in Hn; lia);
    cbn [kernel_run map concat app cm_turns].
  - exists req, rsp, []. rewrite app_nil_r. destruct r. by split; [|constructor].
  - destruct Hq as (Hs & Ht & Hx & Ha & Hp & Hfd & Hc1 & Hc2).
    destruct (uc_write uc (cr_kern r) (cq_fd q) _ []) as [[k1 ret] stored] eqn:Ew.
    destruct (cm_turn_passes uc os (cq_fun q) (cq_spec q) g (cq_id q) (cq_fd q) (cq_cmd q)
      (concat (map request_reads qs) ++ [Some []]) (sizeof (sp_rsp (cq_spec q)))
      (map (fun q => sizeof (sp_rsp (cq_spec q))) qs) req rsp fds out r k1 ret stored) as (req1 & rsp1 & bs & Et & Hb);
      try done.
    rewrite <- app_assoc. unfold request_reads at 1. rewrite Et. cbn [mbind res_bind].
    specialize (IH n req1 rsp1 fds (out ++ [bs]) (set_kern k1 r) ltac:(simpl in Hn; lia) Hg).
    cbn [set_kern cr_kern] in IH. destruct (kernel_run _ _ _ qs k1) as [k2 xs].
    destruct IH as (req' & rsp' & bss & E & Hf). exists req', rsp', (bs :: bss).
    rewrite E, <- app_assoc. split; [done|]. constructor; [by exists rsp|done].
Qed.

(** C12: A connection thread that gets any sequence of the commands of [cm_spec_of] (which
    has the calls of librdmacm on identifiers, but neither CM_BIND_IP, which is never
    answered, nor CM_SET_OPTION, nor the requests for event channels), each of its type,
    with the reserved fields 0, as the router sets them, and the address of a bind padded
    with zeros, passes them on in order, when the kernel's interface could be opened: for
    each the kernel gets, on the descriptor of the request, the command the client built,
    with the command's header, the router's response address and the hosts' addresses for
    those of the containers, and nothing else changed; the client is sent, in the same
    order, 0 and the kernel's response, or -1; then the thread ends with the connection. *)
Theorem cm_commands_reach_kernel {K} (uc : ucma K) os g (qs : list cm_request) req rsp fds out
  (r : cm_router K) :
  Forall (request_ok os) qs -> printed_map (vip_map r) g -> (forall k, uc_init uc k = (k, 0)) ->
  let '(k, xs) := kernel_run uc (lo_resp (co_lib os)) g qs (cr_kern r) in
  exists req' rsp' bss,
    cm_serve uc os (mkCt (concat (map request_reads qs) ++ [Some []])
                      (map (fun q => sizeof (sp_rsp (cq_spec q))) qs) req rsp fds out) r
    = Ok (CmDone (mkCt [] [] req' rsp' fds (out ++ bss)) (set_kern k r)) /\
    Forall3 (answered os) qs xs bss.
Proof.
  intros Hqs Hg Hi. apply requests_served; try done. cbn [ct_in]. rewrite length_app. simpl.
  induction qs as [|q qs IH]; simpl; [lia|]. apply Forall_cons in Hqs as [_ Hqs]. specialize (IH Hqs). lia.
Qed.

(** ** An example *)

(** A kernel that keeps what is written to it and accepts everything; its response is
    the number of the write. *)
Definition logging_kernel : ucma (list (Z * list Z)) :=
  mkUcma _ (fun k => (k, 0)) (fun k => (k, 7)) (fun k _ => k)
    (fun k fd bs _ => (k ++ [(fd, bs)], Z.of_nat (length bs), le_split 4 (Z.of_nat (length k)))).
Definition ex_cm_os : cm_os := mkCmOs 1048575 0 (mkLibOs 204 140000 true).

(** The container 10.0.0.2 on the host 192.168.1.7 *)
Definition ex_vips : gmap (list Z) (list Z) := <[[10; 0; 0; 2] := [192; 168; 1; 7]]> ∅.
Definition ex_cm_router : cm_router (list (Z * list Z)) :=
  mkCmRouter [] ∅ (<[inet_ntop [10; 0; 0; 2] := inet_ntop [192; 168; 1; 7]]> ∅).
Definition ex_sockaddr (ip : list Z) : list Z := [2; 0; 31; 144] ++ ip ++ replicate 20 0.
Definition ex_resolve (dst : list Z) : list cval :=
  [VI 3; VI 64; VI 0; VB (replicate 28 0); VB (ex_sockaddr dst); VI 5; VI 2000].

Lemma ex_printed : printed_map (vip_map ex_cm_router) ex_vips.
Proof. apply printed_insert; [apply printed_empty| |]; by split; [|repeat constructor]. Qed.

Definition ex_listen : list cval := [VI 7; VI 8; VI 0; VI 5; VI 3].
Definition ex_requests : list cm_request :=
  [mkCmRequest 5 CM_RESOLVE_IP (mkCmSpec t_ucma_abi_resolve_ip UCMA_CMD_RESOLVE_IP t_cm_ret 0 None [3; 4]%nat [])
     7 (ex_resolve [10; 0; 0; 2]);
   mkCmRequest 5 CM_LISTEN (mkCmSpec t_ucma_abi_listen UCMA_CMD_LISTEN t_cm_ret 0 None [] []) 7 ex_listen].

Lemma ex_requests_ok : Forall (request_ok ex_cm_os) ex_requests.
Proof.
  assert (forall ip, Forall (fun b => 0 <= b < 256) ip -> byte_list (ex_sockaddr ip)) as Hsa
    by (intros ip Hip; repeat (apply Forall_cons; split; [lia|]); apply Forall_app; split; [done|repeat constructor; lia]).
  repeat apply Forall_cons_2; [| |constructor]; (split; [reflexivity|]);
    (split; [by apply typed_has_type|]); (split; [constructor|]); (split; [|split; [done|]]).
  - apply Forall_cons_2; [|apply Forall_cons_2; [|constructor]]; intros bs E; injection E as <-;
      [repeat constructor; lia|apply Hsa; repeat constructor; lia].
  - vm_compute. intuition congruence.
  - constructor.
  - vm_compute. intuition congruence.
Qed.

Lemma cm_commands_reach_kernel_witness : exists req' rsp' bss k,
  cm_serve logging_kernel ex_cm_os
    (mkCt (concat (map request_reads ex_requests) ++ [Some []]) [4; 4] (fun _ => 0) (fun _ => 0) [] []) ex_cm_router
  = Ok (CmDone (mkCt [] [] req' rsp' [] ([] ++ bss)) (set_kern k ex_cm_router)) /\
  k = [(7, encode 0 t_ucma_abi_resolve_ip (VS (ex_resolve [192; 168; 1; 7])));
       (7, encode 0 t_ucma_abi_listen (VS ex_listen))] /\ length bss = 2%nat.
Proof.
  pose proof (cm_commands_reach_kernel logging_kernel ex_cm_os ex_vips ex_requests (fun _ => 0) (fun _ => 0) [] []
    ex_cm_router ex_requests_ok ex_printed (fun k => eq_refl)) as H.
  destruct (kernel_run _ _ _ _ _) as [k xs] eqn:E. destruct H as (req' & rsp' & bss & Hs & Hf).
  exists req', rsp', bss, k. split; [exact Hs|]. split.
  - vm_compute in E. injection E as <- _. by vm_compute.
  - by apply Forall3_length_lm in Hf as Hl1; apply Forall3_length_lr in Hf as Hl2; rewrite <- Hl2.
Defined.
