(* ===== verification/CmServed.v ===== *)
(** * Connection management from the application to the kernel

    The client's librdmacm against the router's thread: the bytes of a request as the
    client writes them are served by the router, and its answer is what the client
    reads. *)

From S2P Require Import Prelude CLayout FfTypes Wire CmdCtrl CmdLocal ReqRouter RouterCtl RouterServe Indexer Marshall.
From S2P Require Import CmTypes CmVip CmResp RouterCm CmRequest CmIds CmRoute CmEvents CmForward.

Section Ask.
Context {V : Type}.
Implicit Types p : cm_proc V.

(** The next request of the process goes over the connection [s], which takes the
    writes of a request of type [t] and has [reads] to read. *)
Record cm_linked (p : cm_proc V) (id : Z) (t : cty) (s : cm_sock) (i : nat)
  (reads : list (option (list Z))) : Prop := {
  cy_env : e_ffr_id (q_env p) = Some id;
  cy_rand : exists n ns, cc_rand (q_ctl p) = n :: ns /\ i = Z.to_nat (n mod Z.of_nat PARALLEL_SIZE);
  cy_sock : control_sock (q_ctl p) !! i = Some s;
  cy_open : 0 <= sock (cs s);
  cy_writes : exists ws, k_writes (peer (cs s)) = 12 :: sizeof t :: ws;
  cy_reads : k_reads (peer (cs s)) = reads }.

(** [bs] is read next. *)
Definition cm_ready p id t s i (bs : list Z) (rest : list (option (list Z))) : Prop :=
  cm_linked p id t s i (Some bs :: rest).

(** The control channel after a request: only the connection has changed. *)
Definition after_ask (i : nat) (s' : cm_sock) p : cm_ctl :=
  set_slot (SControl i) s' (set_rand (tail (cc_rand (q_ctl p))) (q_ctl p)).

(** The request up to the reading of the response. *)
Lemma cm_request_sent p id f t rt s i reads body rsp :
  cm_linked p id t s i reads -> is_control f = true -> f <> CM_CREATE_EVENT_CHANNEL ->
  cm_format f = Some (Some t, rt) -> Z.of_nat (length body) = sizeof t -> 0 < sizeof t < 2 ^ 31 ->
  exists s1, sock s1 = sock (cs s) /\ k_reads (peer s1) = reads /\
    k_out (peer s1) = k_out (peer (cs s)) ++ header_bytes (mkReqHeader id f (sizeof t)) ++ body /\
    cm_request_router (q_env p) f body rsp (q_ctl p)
    = ('(_, bs, s3) ← sock_read_full s1 (sizeof rt);
       rsp1 ← fill_rsp rsp bs; Ok (after_ask i (mkCmSock s3 (cs_msgs s)) p, rsp1)).
Proof.
  intros [He (n & ns & Hn & Hi) Hs Ho [ws Hw] Hr] Hc Hf Hfmt Hb Ht.
  destruct (send_request_runs (cs s) (mkReqHeader id f (sizeof t)) body 12 (sizeof t) ws)
    as (s1 & Es & E1 & E2 & _ & E4); try done; [right; lia|right; lia|simpl; lia|simpl; lia|].
  exists s1. split; [done|]. split; [by rewrite E2|]. split.
  { rewrite E4. cbn [body_size]. do 2 f_equal. by rewrite !take_ge by (rewrite ?take_ge; simpl; lia). }
  unfold cm_request_router.
  rewrite (bool_decide_false (f = CM_GET_EVENT)) by (intros ->; discriminate Hc). unfold cm_get_unix_sock, after_ask.
  rewrite Hn, Hc, <- Hi. unfold connected, get_slot. cbn [control_sock set_rand]. rewrite Hs.
  cbn [of_option mbind res_bind]. destruct (Z.ltb_spec (sock (cs s)) 0); [lia|]. cbn [mbind res_bind].
  destruct (Z.ltb_spec (sock (cs s)) 0); [lia|]. rewrite He. cbn [of_option mbind res_bind]. rewrite Hfmt, Es.
  cbn [mbind res_bind]. rewrite bool_decide_false by done. cbn [mbind res_bind cs tail].
  destruct (sock_read_full s1 (sizeof rt)) as [[[ok bs] s3]| | |]; try done. cbn [mbind res_bind].
  destruct (fill_rsp rsp bs); try done. cbn [mbind res_bind]. by rewrite andb_false_r.
Qed.

(** The answer comes. *)
Lemma cm_request_answered p id f t rt s i bs rest body rsp :
  cm_ready p id t s i bs rest -> is_control f = true -> f <> CM_CREATE_EVENT_CHANNEL ->
  cm_format f = Some (Some t, rt) -> Z.of_nat (length body) = sizeof t -> 0 < sizeof t < 2 ^ 31 ->
  0 < sizeof rt -> Z.of_nat (length bs) = sizeof rt -> length rsp = length bs ->
  exists s', cm_request_router (q_env p) f body rsp (q_ctl p) = Ok (after_ask i s' p, bs) /\
    k_out (peer (cs s')) = k_out (peer (cs s)) ++ header_bytes (mkReqHeader id f (sizeof t)) ++ body.
Proof.
  intros Hl Hc Hf Hfmt Hb Ht Hrt Hbs Hrsp.
  destruct (cm_request_sent p id f t rt s i _ body rsp Hl Hc Hf Hfmt Hb Ht) as (s1 & E1 & E2 & E3 & ->).
  unfold sock_read_full. destruct (Z.leb_spec (sizeof rt) 0); [lia|]. rewrite E1.
  pose proof (cy_open _ _ _ _ _ _ Hl). destruct (Z.ltb_spec (sock (cs s)) 0); [lia|]. rewrite E2.
  destruct (read_full_chunks [bs] [] (sizeof rt) rest) as (rs & Ers); [simpl; rewrite app_nil_r; lia|].
  cbn [map app] in Ers. rewrite Ers. cbn [mbind res_bind concat app]. rewrite app_nil_r.
  unfold fill_rsp. destruct (Z.ltb_spec (Z.of_nat (length rsp)) (Z.of_nat (length bs))); [lia|].
  cbn [mbind res_bind]. rewrite overwrite_all by done.
  eexists. split; [reflexivity|exact E3].
Qed.

(** Nothing comes. *)
Lemma cm_request_unanswered p id f t rt s i body rsp :
  cm_linked p id t s i [] -> is_control f = true -> f <> CM_CREATE_EVENT_CHANNEL ->
  cm_format f = Some (Some t, rt) -> Z.of_nat (length body) = sizeof t -> 0 < sizeof t < 2 ^ 31 ->
  0 < sizeof rt -> cm_request_router (q_env p) f body rsp (q_ctl p) = Spin.
Proof.
  intros Hl Hc Hf Hfmt Hb Ht Hrt.
  destruct (cm_request_sent p id f t rt s i _ body rsp Hl Hc Hf Hfmt Hb Ht) as (s1 & E1 & E2 & E3 & ->).
  unfold sock_read_full. destruct (Z.leb_spec (sizeof rt) 0); [lia|]. rewrite E1.
  pose proof (cy_open _ _ _ _ _ _ Hl). destruct (Z.ltb_spec (sock (cs s)) 0); [lia|]. rewrite E2.
  cbn [read_full]. by destruct (Z.leb_spec (sizeof rt) 0); [lia|].
Qed.

(** A command on a mapped descriptor. *)
Lemma ask_cmd_answered p id f t rt s i bs rest fd rfd l :
  cm_ready p id (t_cm_req t) s i bs rest -> is_control f = true -> f <> CM_CREATE_EVENT_CHANNEL ->
  cm_format f = Some (Some (t_cm_req t), rt) -> 0 < sizeof (t_cm_req t) < 2 ^ 31 -> 0 < sizeof rt ->
  Z.of_nat (length bs) = sizeof rt -> mapped_fd p fd = Ok rfd -> has_type t (VS l) ->
  exists s', ask_cmd f t (VS l) rt fd p
    = Ok (set_q_ctl (after_ask i s' p) p, decode rt bs) /\
    k_out (peer (cs s')) = k_out (peer (cs s)) ++ header_bytes (mkReqHeader id f (sizeof (t_cm_req t)))
                             ++ encode 0 (t_cm_req t) (VS [VS [VI (u32 rfd)]; VS l]).
Proof.
  intros Hr Hc Hf Hfmt Ht Hrt Hbs Hm Hl. unfold ask_cmd, cm_ask. rewrite Hm. cbn [mbind res_bind].
  destruct (has_type_wire 0 _ _ (cm_req_typed t rfd l Hl)) as [Hlen _].
  edestruct (cm_request_answered p id f (t_cm_req t) rt s i bs rest) as (s' & -> & Hout);
    try done; [by rewrite length_replicate; lia|].
  cbn [mbind res_bind]. eexists. split; [reflexivity|exact Hout].
Qed.

End Ask.

(** ** Creating an identifier *)

Definition qp_type_of (ps : Z) : Z :=
  if (ps =? RDMA_PS_IPOIB) || (ps =? RDMA_PS_UDP) then IBV_QPT_UD else IBV_QPT_RC.

(** The fields of the command the client sends. *)
Definition create_fields (a ps : Z) : list cval :=
  [VI 0; VI 0; VI 0; VI a; VI 0; VI (u16 ps); VI (u8 (qp_type_of ps)); VB (replicate 5 0)].

Section Create.
Context {V : Type} (init : cm_proc V -> res (cm_proc V * Z)).
Context (p : cm_proc V) (id ch fd rfd a ctx ps : Z) (heap : list (option Z)).

(** The library is initialised, the channel exists and has a descriptor at the router,
    and there is memory. *)
Record create_setup : Prop := {
  cr_init : init p = Ok (p, 0);
  cr_heap : q_heap p = Some a :: heap;
  cr_addr : 0 <= a < 2 ^ 64;
  cr_chan : q_chans p !! ch = Some fd;
  cr_fd : 0 <= fd < MAP_SIZE;
  cr_map : ec_map (q_ctl p) !! fd = Some rfd;
  cr_mem : q_idm_mem p = true;
  cr_idm : idm_wf (ucma_idm p) }.

Lemma create_typed : create_setup -> has_type t_ucma_abi_create_id (VS (create_fields a ps)).
Proof.
  intros []. apply ht_struct.
  repeat first [apply fh_nil|apply fh_cons];
    first [apply ht_int; [tauto|]|apply ht_bytes; [left; by do 2 eexists|done]];
    first [done|apply u16_range|apply u8_range].
Qed.

(** The identifier as it is filled in from a response. *)
Definition created (h : Z) : cma_id := set_handle h (fresh_id ch ctx ps (qp_type_of ps) false).

(** The client's side: whatever [ret_errno] says, the identifier gets the handle of the
    response and is entered under it. *)
Lemma client_creates s i bs rest h : create_setup ->
  cm_ready p id (t_cm_req t_ucma_abi_create_id) s i bs rest ->
  Z.of_nat (length bs) = 8 -> slice 4 4 bs = le_split 4 h -> 0 <= h <= IDX_MAX_INDEX ->
  exists p' s', rdma_create_id init (Some ch) ctx ps p = Ok (p', Some a, 0) /\
    q_ids p' = <[a := created h]> (q_ids p) /\
    ucma_lookup_id h p' = Ok a /\
    (forall h', 0 <= h' < 2 ^ 31 -> h' <> h -> ucma_lookup_id h' p' = ucma_lookup_id h' p) /\
    control_sock (q_ctl p') = <[i := s']> (control_sock (q_ctl p)) /\
    k_out (peer (cs s')) = k_out (peer (cs s))
      ++ header_bytes (mkReqHeader id CM_CREATE_ID (sizeof (t_cm_req t_ucma_abi_create_id)))
      ++ encode 0 (t_cm_req t_ucma_abi_create_id) (VS [VS [VI (u32 rfd)]; VS (create_fields a ps)]).
Proof.
  intros Hset Hr Hl Hs Hh. pose proof (create_typed Hset) as Ht. destruct Hset.
  unfold rdma_create_id, rdma_create_id2. rewrite cr_init0. cbn [mbind res_bind negb Z.eqb].
  unfold ucma_alloc_id, malloc. rewrite cr_heap0. cbn [mbind res_bind].
  unfold get_id at 1. cbn [q_ids put_id set_ids set_heap]. rewrite lookup_insert_eq. cbn [of_option mbind res_bind].
  unfold ask_id, chan_fd. cbn [id_channel fresh_id].
  change (q_chans (put_id _ _ (set_heap heap p))) with (q_chans p). rewrite cr_chan0. cbn [of_option mbind res_bind].
  fold (qp_type_of ps). change (create_id_cmd a ps (qp_type_of ps)) with (VS (create_fields a ps)).
  destruct (ask_cmd_answered (put_id a (fresh_id ch ctx ps (qp_type_of ps) false) (set_heap heap p)) id CM_CREATE_ID
    t_ucma_abi_create_id (t_cm_rsp t_ucma_abi_create_id_resp) s i bs rest fd rfd (create_fields a ps))
    as (s' & -> & Hout); try done.
  { destruct Hr. by split. }
  { unfold mapped_fd. destruct (Z.leb_spec 0 fd); [|lia]. destruct (Z.ltb_spec fd MAP_SIZE); [|lia].
    cbn [andb q_ctl put_id set_ids set_heap]. by rewrite cr_map0. }
  cbn [mbind res_bind].
  change (fu (fs (decode (t_cm_rsp t_ucma_abi_create_id_resp) bs) 1) 0) with (le_combine (slice 0 4 (slice 4 4 bs))).
  assert (0 <= h < 2 ^ 31) as Hh31 by (change IDX_MAX_INDEX with 65535 in Hh; lia).
  rewrite Hs. change (slice 0 4 (le_split 4 h)) with (take 4 (drop 0 (le_split 4 h))).
  rewrite drop_0, take_ge by (by rewrite le_split_length). rewrite le_combine_split by (simpl; lia).
  destruct (idm_set_holds (ucma_idm p) h a Hh cr_idm0) as (m' & Hset & _ & _ & Hlook & Hother).
  unfold ucma_insert_id, get_id. cbn [q_ids put_id set_ids set_q_ctl set_heap]. rewrite lookup_insert_eq.
  cbn [of_option mbind res_bind id_handle set_handle]. rewrite s32_id by lia.
  change (idm_set _ _ h a) with (idm_set (q_idm_mem p) (ucma_idm p) h a). rewrite cr_mem0, Hset.
  cbn [mbind res_bind]. eexists. exists s'. split; [reflexivity|].
  cbn [q_ids set_idm put_id set_ids set_q_ctl set_heap]. split; [by rewrite insert_insert_eq|].
  unfold ucma_lookup_id. cbn [ucma_idm set_idm]. rewrite s32_id by lia. split; [done|].
  split; [|done]. intros h' H1 H2. rewrite s32_id by lia. apply Hother; lia.
Qed.

End Create.

(** ** The two sides together *)

(** The kernel's command for a new identifier. *)
Definition kernel_create (resp a ps : Z) : list Z :=
  encode 0 t_ucma_abi_create_id
    (cma_init_cmd t_ucma_abi_create_id UCMA_CMD_CREATE_ID 4
       [VI a; VI resp; VI (u16 ps); VI (u8 (qp_type_of ps)); VB (replicate 5 0)]).

Definition create_spec : cm_spec :=
  mkCmSpec t_ucma_abi_create_id UCMA_CMD_CREATE_ID (t_cm_rsp t_ucma_abi_create_id_resp) 4 (Some 4%nat) []
    [(7%nat, VB (replicate 5 0))].

(** The router's turn for the client's request. *)
Lemma router_creates {V K} (init : cm_proc V -> res (cm_proc V * Z)) (uc : ucma K) os p (r : cm_router K) g
  id ch fd rfd a ps heap rest w ws req rsp fds out k ret stored :
  create_setup init p ch fd rfd a heap -> - 2 ^ 31 <= rfd < 2 ^ 31 -> printed_map (vip_map r) g ->
  uc_init uc (cr_kern r) = (cr_kern r, 0) -> 1024 <= co_cap os -> 8 <= w ->
  uc_write uc (cr_kern r) rfd (kernel_create (lo_resp (co_lib os)) a ps) [] = (k, ret, stored) ->
  exists req' rsp' bs,
    cm_turn uc os (mkCt (cm_reads id CM_CREATE_ID t_ucma_abi_create_id rfd (create_fields a ps) ++ rest) (w :: ws)
                     req rsp fds out) r
    = Ok (CmNext (mkCt rest ws req' rsp' fds (out ++ [bs])) (set_kern k r)) /\
    answer_read os create_spec ret stored rsp bs.
Proof.
  intros Hset Hrfd Hg Hi Hcap Hw Hk. pose proof (create_typed init p ch fd rfd a ps heap Hset) as Ht.
  apply (cm_turn_passes uc os CM_CREATE_ID create_spec g); try done.
  - by repeat constructor.
  - constructor.
  - etrans; [|exact Hcap]. vm_compute. congruence.
  - etrans; [|exact Hcap]. vm_compute. congruence.
Qed.

(** C13: Creating an identifier, from the application to the kernel: the router's thread
    writes to the kernel, on the descriptor of the channel, the command with the
    application's port space and the client's address of the identifier; over a
    connection on which the client then reads the router's answer, [rdma_create_id]
    sends exactly the bytes that thread was given, succeeds, and the identifier has the
    kernel's handle, under which it is found; all other handles lead where they led. *)
Theorem created_id_reaches_kernel {V K} (init : cm_proc V -> res (cm_proc V * Z)) (uc : ucma K) os p
  (r : cm_router K) g id ch fd rfd a ctx ps heap rest w ws req rsp fds out k h :
  create_setup init p ch fd rfd a heap -> - 2 ^ 31 <= rfd < 2 ^ 31 -> printed_map (vip_map r) g ->
  uc_init uc (cr_kern r) = (cr_kern r, 0) -> 1024 <= co_cap os -> 8 <= w -> 0 <= h <= IDX_MAX_INDEX ->
  uc_write uc (cr_kern r) rfd (kernel_create (lo_resp (co_lib os)) a ps) []
    = (k, sizeof t_ucma_abi_create_id, le_split 4 h) ->
  exists req' rsp' bs,
    cm_turn uc os (mkCt (cm_reads id CM_CREATE_ID t_ucma_abi_create_id rfd (create_fields a ps) ++ rest) (w :: ws)
                     req rsp fds out) r
    = Ok (CmNext (mkCt rest ws req' rsp' fds (out ++ [bs])) (set_kern k r)) /\
    forall s i rs, cm_ready p id (t_cm_req t_ucma_abi_create_id) s i bs rs ->
      exists p' s', rdma_create_id init (Some ch) ctx ps p = Ok (p', Some a, 0) /\
        q_ids p' = <[a := created ch ctx ps h]> (q_ids p) /\ ucma_lookup_id h p' = Ok a /\
        (forall h', 0 <= h' < 2 ^ 31 -> h' <> h -> ucma_lookup_id h' p' = ucma_lookup_id h' p) /\
        control_sock (q_ctl p') = <[i := s']> (control_sock (q_ctl p)) /\
        k_out (peer (cs s')) = k_out (peer (cs s))
          ++ concat (map (default []) (cm_reads id CM_CREATE_ID t_ucma_abi_create_id rfd (create_fields a ps))).
Proof.
  intros Hset Hrfd Hg Hi Hcap Hw Hh Hk.
  destruct (router_creates init uc os p r g id ch fd rfd a ps heap rest w ws req rsp fds out _ _ _
    Hset Hrfd Hg Hi Hcap Hw Hk) as (req' & rsp' & bs & Et & Hlen & _ & Hresp & _).
  exists req', rsp', bs. split; [exact Et|]. intros s i rs Hr.
  destruct (client_creates init p id ch fd rfd a ctx ps heap s i bs rs h Hset Hr) as (p' & s' & E & H1 & H2 & H3 & H4 & H5);
    [done| |done|].
  - specialize (Hresp eq_refl (mk_is_Some _ _ eq_refl)). etrans; [exact Hresp|].
    unfold resp_buffer, overwrite. rewrite take_ge by (by rewrite le_split_length).
    by rewrite le_split_length, app_nil_r.
  - exists p', s'. do 5 (split; [done|]). rewrite H5. cbn [cm_reads map concat default]. by rewrite app_nil_r.
Qed.

(** When the kernel refuses a new identifier, the client is not told: the answer
    carries -1 and behind it what the thread's buffer still held, [rdma_create_id] looks
    only at the latter and succeeds, and the new identifier takes the handle of the
    response before, away from the identifier that has it. *)
Theorem refused_id_takes_old_handle {V K} (init : cm_proc V -> res (cm_proc V * Z)) (uc : ucma K) os p
  (r : cm_router K) g id ch fd rfd a ctx ps heap rest w ws req rsp fds out k ret stored h owner :
  create_setup init p ch fd rfd a heap -> - 2 ^ 31 <= rfd < 2 ^ 31 -> printed_map (vip_map r) g ->
  uc_init uc (cr_kern r) = (cr_kern r, 0) -> 1024 <= co_cap os -> 8 <= w -> 0 <= h <= IDX_MAX_INDEX ->
  uc_write uc (cr_kern r) rfd (kernel_create (lo_resp (co_lib os)) a ps) [] = (k, ret, stored) ->
  ret <> sizeof t_ucma_abi_create_id -> read_bytes rsp 4 4 = le_split 4 h ->
  ucma_lookup_id h p = Ok owner -> owner <> a ->
  exists req' rsp' bs,
    cm_turn uc os (mkCt (cm_reads id CM_CREATE_ID t_ucma_abi_create_id rfd (create_fields a ps) ++ rest) (w :: ws)
                     req rsp fds out) r
    = Ok (CmNext (mkCt rest ws req' rsp' fds (out ++ [bs])) (set_kern k r)) /\
    fi (decode (t_cm_rsp t_ucma_abi_create_id_resp) bs) 0 = -1 /\
    forall s i rs, cm_ready p id (t_cm_req t_ucma_abi_create_id) s i bs rs ->
      exists p', rdma_create_id init (Some ch) ctx ps p = Ok (p', Some a, 0) /\
        q_ids p' !! a = Some (created ch ctx ps h) /\
        ucma_lookup_id h p' = Ok a /\ ucma_lookup_id h p' <> ucma_lookup_id h p.
Proof.
  intros Hset Hrfd Hg Hi Hcap Hw Hh Hk Hret Hold Hown Hne.
  destruct (router_creates init uc os p r g id ch fd rfd a ps heap rest w ws req rsp fds out _ _ _
    Hset Hrfd Hg Hi Hcap Hw Hk) as (req' & rsp' & bs & Et & Hlen & Hfi & _ & Hresp).
  exists req', rsp', bs. split; [exact Et|]. split.
  { etrans; [exact Hfi|]. by destruct (Z.eqb_spec ret (sizeof (sp_cmd create_spec))). }
  intros s i rs Hr.
  destruct (client_creates init p id ch fd rfd a ctx ps heap s i bs rs h Hset Hr) as (p' & s' & E & H1 & H2 & _);
    [done|by etrans; [apply Hresp|]|done|].
  exists p'. split; [done|]. split; [by rewrite H1, lookup_insert_eq|]. split; [done|]. congruence.
Qed.

(** ** Examples *)

Definition no_verbs : verbs unit :=
  mkVerbs unit (fun v _ => (v, None)) (fun v _ => v) (fun _ _ => (0, (0, 0, 0, 0))) (fun _ _ _ => None)
    (fun v _ => (v, None)) (fun v _ => v) (fun v _ _ _ => (v, 0)).
Definition ex_init : cm_proc unit -> res (cm_proc unit * Z) := ucma_init no_verbs 0 (Some 4) None.

(** A connection that takes one request of [n] bytes and has [bs] to read. *)
Definition ex_link (n : Z) (bs : list Z) : cm_sock :=
  mkCmSock (mkSock 3 (mkConn 3 0 [12; n] [Some bs] RmNoControl [])) [].

(** A process with one channel, of descriptor 9, which is 7 at the router. *)
Definition ex_cm_ctl (n : Z) (bs : list Z) : cm_ctl :=
  mkCmCtl {[9 := 7]} ∅ (replicate 10 (ex_link n bs)) [] [] [] [] true [41; 42] [].
Definition ex_cm_proc (m : index_map) (c : cm_ctl) : cm_proc unit :=
  mkCmProc ex_env 204 true c [Some 4096; Some 8192] {[50 := 9]} ∅ ∅ m [mkCmaDev 1 None None 0] true tt.

Lemma ex_create_setup m c : idm_wf m -> ec_map c = {[9 := 7]} ->
  create_setup ex_init (ex_cm_proc m c) 50 9 7 4096 [Some 8192].
Proof. intros Hm Hc. split; try done. simpl. by rewrite Hc. Qed.

Lemma ex_ready m bs : cm_ready (ex_cm_proc m (ex_cm_ctl (sizeof (t_cm_req t_ucma_abi_create_id)) bs)) 5
  (t_cm_req t_ucma_abi_create_id) (ex_link (sizeof (t_cm_req t_ucma_abi_create_id)) bs) 1 bs [].
Proof. split; try done; [by exists 41, [42]|by eexists]. Qed.

Lemma wf_empty : idm_wf ∅.
Proof. intros a b E. by rewrite lookup_empty in E. Qed.

(** What a turn has written. *)
Definition written {K} (x : res (cm_turn_result K)) : list (list Z) :=
  match x with Ok (CmNext th _ | CmDone th _ | CmElsewhere _ th _) => ct_out th | _ => [] end.

(** The logging kernel gives the number of the write, 0, as the handle. *)
Lemma created_id_reaches_kernel_witness : exists p',
  let n := sizeof (t_cm_req t_ucma_abi_create_id) in
  rdma_create_id ex_init (Some 50) 77 RDMA_PS_TCP (ex_cm_proc ∅ (ex_cm_ctl n (replicate 8 0))) = Ok (p', Some 4096, 0) /\
  ucma_lookup_id 0 p' = Ok 4096.
Proof.
  destruct (created_id_reaches_kernel ex_init logging_kernel ex_cm_os
    (ex_cm_proc ∅ (ex_cm_ctl (sizeof (t_cm_req t_ucma_abi_create_id)) (replicate 8 0))) ex_cm_router ex_vips
    5 50 9 7 4096 77 RDMA_PS_TCP [Some 8192] [] 8 [] (fun _ => 0) (fun _ => 0) [] []
    [(7, kernel_create 140000 4096 RDMA_PS_TCP)] 0) as (req' & rsp' & bs & Et & Hc).
  - by apply ex_create_setup; [apply wf_empty|].
  - lia.
  - apply ex_printed.
  - done.
  - vm_compute. congruence.
  - lia.
  - split; vm_compute; congruence.
  - by vm_compute.
  - apply (f_equal written) in Et. vm_compute in Et. injection Et as <-.
    destruct (Hc _ _ _ (ex_ready ∅ (replicate 8 0))) as (p' & s' & E & _ & Hl & _). by exists p'.
Defined.

(** A kernel that refuses every command. *)
Definition refusing_kernel : ucma unit :=
  mkUcma _ (fun k => (k, 0)) (fun k => (k, 7)) (fun k _ => k) (fun k _ _ _ => (k, -1, [])).
Definition ex_idm : index_map := {[0 := <[3%nat := 512]> (replicate 1024 0)]}.
Definition ex_old : list Z := [255; 255; 255; 255; 3; 0; 0; 0].

Lemma wf_idm : idm_wf ex_idm.
Proof. intros a b E. unfold ex_idm in E. apply lookup_singleton_Some in E as [_ <-]. by vm_compute. Qed.

Lemma refused_id_takes_old_handle_witness : exists p',
  let n := sizeof (t_cm_req t_ucma_abi_create_id) in
  rdma_create_id ex_init (Some 50) 77 RDMA_PS_TCP (ex_cm_proc ex_idm (ex_cm_ctl n ex_old)) = Ok (p', Some 4096, 0) /\
  ucma_lookup_id 3 (ex_cm_proc ex_idm (ex_cm_ctl n ex_old)) = Ok 512 /\ ucma_lookup_id 3 p' = Ok 4096.
Proof.
  destruct (refused_id_takes_old_handle ex_init refusing_kernel ex_cm_os
    (ex_cm_proc ex_idm (ex_cm_ctl (sizeof (t_cm_req t_ucma_abi_create_id)) ex_old)) (mkCmRouter tt ∅ ∅) ∅
    5 50 9 7 4096 77 RDMA_PS_TCP [Some 8192] [] 8 [] (fun _ => 0) (write_bytes (fun _ => 0) 0 ex_old) [] []
    tt (-1) [] 3 512) as (req' & rsp' & bs & Et & _ & Hc).
  - by apply ex_create_setup; [apply wf_idm|].
  - lia.
  - apply printed_empty.
  - done.
  - vm_compute. congruence.
  - lia.
  - split; vm_compute; congruence.
  - done.
  - vm_compute. congruence.
  - by vm_compute.
  - by vm_compute.
  - lia.
  - apply (f_equal written) in Et. vm_compute in Et. injection Et as <-.
    destruct (Hc _ _ _ (ex_ready ex_idm ex_old)) as (p' & E & _ & Hl & _). exists p'.
    split; [exact E|]. split; [by vm_compute|exact Hl].
Defined.
