(* ===== verification/CmStream.v ===== *)
(** * The events of a channel

    [rdma_get_cm_event] over the connection of its channel: the events the router sends
    for nobody, or for a connection that has failed, are dropped and counted as
    acknowledged; the first other one is returned, for the identifier the kernel names. *)

From S2P Require Import Prelude CLayout FfTypes Wire CmdCtrl ReqRouter RouterCtl RouterServe Indexer Marshall.
From S2P Require Import CmTypes CmResp CmRequest CmIds CmRoute CmEvents CmForward CmServed.

(** ** One exchange with full reads and writes *)

(** The connection after a request of [t] whose bytes all went out and whose response
    came in one piece. *)
Definition exchanged (s : sock_with_lock) (out : list Z) (rest : list (option (list Z))) : sock_with_lock :=
  mkSock (sock s) (mkConn (k_socket (peer s)) (k_connect (peer s)) (drop 2 (k_writes (peer s))) rest
                     (k_cmsg (peer s)) (k_out (peer s) ++ out)).

Lemma cm_send_full s h body ws : 0 <= sock s -> k_writes (peer s) = 12 :: body_size h :: ws ->
  0 < body_size h < 2 ^ 32 -> Z.of_nat (length body) = body_size h ->
  send_request s h body
  = Ok (mkSock (sock s) (mkConn (k_socket (peer s)) (k_connect (peer s)) ws (k_reads (peer s))
                           (k_cmsg (peer s)) (k_out (peer s) ++ header_bytes h ++ body))).
Proof.
  intros Hs Hw Hb Hl. unfold send_request, sock_write. destruct (Z.ltb_spec (sock s) 0); [lia|].
  rewrite Hw. cbn [mbind res_bind]. change (u64 12 <? sizeof t_FfrRequestHeader) with false. cbv iota.
  destruct (Z.ltb_spec 0 (body_size h)); [|lia]. rewrite <- Hl at 1. rewrite take_n_all. cbn [mbind res_bind sock peer k_writes].
  destruct (Z.ltb_spec (sock s) 0); [lia|]. cbn [mbind res_bind].
  rewrite (u32_small (body_size h)) by lia. rewrite Z.ltb_irrefl. do 2 f_equal. cbn [peer k_socket k_connect k_reads k_cmsg k_out].
  f_equal. rewrite <- app_assoc. do 2 f_equal. rewrite take_ge by lia. done.
Qed.

Lemma read_full_one bs rest : 0 < Z.of_nat (length bs) ->
  read_full (Some bs :: rest) [] (Z.of_nat (length bs)) = Ok (true, bs, rest).
Proof.
  intros Hb. cbn [read_full]. destruct (Z.leb_spec (Z.of_nat (length bs)) 0); [lia|].
  rewrite Z.ltb_irrefl, Z.sub_diag. cbn [app]. destruct rest; done.
Qed.

Lemma body_fd_req t v fd : - 2 ^ 31 <= fd < 2 ^ 31 ->
  body_fd (encode 0 (t_cm_req t) (VS [VS [VI (u32 fd)]; v])) = fd.
Proof.
  intros Hfd. unfold body_fd.
  assert (exists more, encode 0 (t_cm_req t) (VS [VS [VI (u32 fd)]; v]) = le_split 4 (u32 fd) ++ more) as [more ->]
    by (unfold t_cm_req; rewrite encode_struct; cbn [encode_fields]; eexists; rewrite <- app_assoc; reflexivity).
  rewrite take_app_length' by (by rewrite le_split_length). rewrite le_combine_split by apply u32_range. by apply s32_u32.
Qed.

Section Stream.
Context {V : Type} (vb : verbs V) (init : cm_proc V -> res (cm_proc V * Z)) (resp : Z).
Implicit Types (p : cm_proc V) (d : cval).

Definition t_event_rsp : cty := t_cm_rsp t_ucma_abi_event_resp.
Definition event_req_size : Z := sizeof (t_cm_req t_ucma_abi_get_event).

(** The channel [ch] has a connection from which the responses [ds] are read next. *)
Record stream_ready (p : cm_proc V) (ch fd rfd : Z) (s : cm_sock) (ds : list cval)
  (rest : list (option (list Z))) : Prop := {
  hr_env : is_Some (e_ffr_id (q_env p));
  hr_chan : q_chans p !! ch = Some fd;
  hr_fd : 0 <= fd < MAP_SIZE;
  hr_map : ec_map (q_ctl p) !! fd = Some rfd;
  hr_rfd : 0 <= rfd < MAP_SIZE;
  hr_sock : ec_socks (q_ctl p) !! rfd = Some s;
  hr_open : 0 <= sock (cs s);
  hr_writes : exists ws, k_writes (peer (cs s)) = concat (replicate (length ds) [12; event_req_size]) ++ ws;
  hr_reads : k_reads (peer (cs s)) = map (fun d => Some (encode 0 t_event_rsp (VS [VI 0; d]))) ds ++ rest;
  hr_typed : Forall (has_type t_ucma_abi_event_resp) ds }.

(** The process after a round: only the connection has moved on. *)
Definition after_round (rfd : Z) (s : cm_sock) p : cm_proc V :=
  set_q_ctl (set_slot (SChannel rfd) s (q_ctl p)) p.

Lemma event_round p ch fd rfd s d ds rest : stream_ready p ch fd rfd s (d :: ds) rest -> 0 <= resp < 2 ^ 64 ->
  exists s', ask_cmd CM_GET_EVENT t_ucma_abi_get_event (get_event_cmd resp) t_event_rsp fd p
    = Ok (after_round rfd s' p, VS [VI 0; d]) /\
    stream_ready (after_round rfd s' p) ch fd rfd s' ds rest.
Proof.
  intros [[id Hid] Hch Hfd Hmap Hrfd Hs Ho [ws Hw] Hr Ht] Hresp. apply Forall_cons in Ht as [Hd Ht].
  assert (- 2 ^ 31 <= rfd < 2 ^ 31) as Hr31 by (unfold MAP_SIZE in Hrfd; lia).
  assert (has_type (t_cm_req t_ucma_abi_get_event) (VS [VS [VI (u32 rfd)]; get_event_cmd resp])) as Hq
    by (apply cm_req_typed, ht_struct;
      repeat (apply fh_cons; [apply ht_int; [tauto|first [exact Hresp|apply u16_range|split; vm_compute; congruence]]|]); apply fh_nil).
  assert (has_type t_event_rsp (VS [VI 0; d])) as Hv
    by (apply ht_struct; apply fh_cons; [apply ht_int; [tauto|done]|apply fh_cons; [done|apply fh_nil]]).
  destruct (has_type_wire 0 _ _ Hq) as [Hql _]. destruct (has_type_wire 0 _ _ Hv) as [Hvl Hvd].
  assert (0 < sizeof t_event_rsp) as Hpos by (vm_compute; congruence).
  unfold ask_cmd, mapped_fd. destruct (Z.leb_spec 0 fd); [|lia]. destruct (Z.ltb_spec fd MAP_SIZE); [|lia].
  rewrite Hmap. change (default (-1) (Some rfd)) with rfd. cbn [andb mbind res_bind]. unfold cm_ask, cm_request_router.
  rewrite (bool_decide_true (CM_GET_EVENT = CM_GET_EVENT)) by done. rewrite body_fd_req by done. unfold get_unix_sock_event_channel.
  destruct (Z.leb_spec MAP_SIZE rfd); [lia|]. unfold connected, get_slot.
  destruct (Z.ltb_spec rfd 0); [lia|]. rewrite Hs. cbn [mbind res_bind].
  destruct (Z.ltb_spec (sock (cs s)) 0); [lia|]. cbn [mbind res_bind].
  destruct (Z.ltb_spec (sock (cs s)) 0); [lia|]. rewrite Hid. cbn [of_option mbind res_bind cm_format].
  rewrite (cm_send_full (cs s) _ _ (drop 2 (k_writes (peer (cs s))))); [|done|by rewrite Hw|by vm_compute|done].
  cbn [mbind res_bind]. rewrite bool_decide_false by done. cbn [mbind res_bind cs].
  unfold sock_read_full. change (t_cm_rsp t_ucma_abi_event_resp) with t_event_rsp.
  destruct (Z.leb_spec (sizeof t_event_rsp) 0); [lia|]. cbn [sock peer k_reads].
  destruct (Z.ltb_spec (sock (cs s)) 0); [lia|]. rewrite Hr. cbn [map app].
  pose proof (read_full_one (encode 0 t_event_rsp (VS [VI 0; d]))) as Hread. rewrite Hvl in Hread.
  rewrite Hread by done. cbn [mbind res_bind].
  unfold fill_rsp. rewrite length_replicate.
  destruct (Z.ltb_spec (Z.of_nat (Z.to_nat (sizeof t_event_rsp))) (Z.of_nat (length (encode 0 t_event_rsp (VS [VI 0; d])))));
    [lia|]. cbn [mbind res_bind]. rewrite overwrite_all by (rewrite length_replicate; lia). rewrite andb_false_r.
  cbn [mbind res_bind]. rewrite Hvd. eexists. split; [reflexivity|].
  split; [by exists id|exact Hch|exact Hfd|exact Hmap|exact Hrfd|apply lookup_insert_eq|exact Ho| |reflexivity|exact Ht].
  exists ws. cbn [cs peer set_reads k_writes]. by rewrite Hw.
Qed.

(** ** What is to become of an event *)

(** Events that are dropped: of an identifier that is gone; of one the kernel has no
    address of yet (other than its connection being established); of a connection that
    has failed already.  The last two count as acknowledged. *)
Inductive passes_by p d : cm_proc V -> Prop :=
| pb_gone : fu d 0 = 0 -> ucma_lookup_id (fu d 1) p = Ok 0 -> passes_by p d p
| pb_early a i : fu d 0 = 0 -> ucma_lookup_id (fu d 1) p = Ok a -> a <> 0 ->
    fu d 2 <> event_code RDMA_CM_EVENT_ESTABLISHED -> q_ids p !! a = Some i ->
    passes_by p d (put_id a (set_completed (id_events_completed i + 1) i) p)
| pb_failed i t : fu d 0 <> 0 -> q_ids p !! fu d 0 = Some i -> id_connect_error i = true ->
    t = RDMA_CM_EVENT_REJECTED \/ t = RDMA_CM_EVENT_DISCONNECTED -> fu d 2 = event_code t ->
    passes_by p d (put_id (fu d 0) (set_completed (id_events_completed i + 1) i) p).

Inductive all_pass : cm_proc V -> list cval -> cm_proc V -> Prop :=
| ap_nil p : all_pass p [] p
| ap_cons p d p1 ds p2 : passes_by p d p1 -> all_pass p1 ds p2 -> all_pass p (d :: ds) p2.

(** Events that need no request of their own. *)
Definition quiet (t : rdma_cm_event_type) : bool :=
  match t with
  | RDMA_CM_EVENT_ADDR_ERROR | RDMA_CM_EVENT_ROUTE_ERROR | RDMA_CM_EVENT_CONNECT_ERROR
  | RDMA_CM_EVENT_UNREACHABLE | RDMA_CM_EVENT_ESTABLISHED | RDMA_CM_EVENT_DISCONNECTED
  | RDMA_CM_EVENT_DEVICE_REMOVAL | RDMA_CM_EVENT_ADDR_CHANGE | RDMA_CM_EVENT_TIMEWAIT_EXIT => true
  | _ => false
  end.

(** The identifier of an event: the one whose address the kernel kept; without one, the
    one with the handle. *)
Definition names p d (a : Z) : Prop :=
  fu d 0 = a /\ a <> 0 \/
  fu d 0 = 0 /\ ucma_lookup_id (fu d 1) p = Ok a /\ a <> 0 /\ fu d 2 = event_code RDMA_CM_EVENT_ESTABLISHED.

(** The event as the application is to get it. *)
Definition event_for (a : Z) (i : cma_id) (t : rdma_cm_event_type) d : cma_event :=
  mkCmaEvent a None a (event_code t) (fi d 3)
    (if ucma_is_ud_qp (id_qp_type i) && negb (bool_decide (t = RDMA_CM_EVENT_DISCONNECTED))
     then ucma_copy_ud_event (resp_ud d) else ucma_copy_conn_event (resp_conn d)).

Lemma event_of_event_code t : event_of_code (event_code t) = Some t.
Proof. by destruct t. Qed.

Lemma passes_by_handled p d p' : passes_by p d p' -> handle_event vb init resp d p = Ok (p', None).
Proof.
  unfold handle_event. intros [H0 Hl|a i H0 Hl Ha Ht Hi|i t H0 Hi Hc Ht Hd].
  - rewrite H0. cbn [Z.eqb negb]. by rewrite Hl.
  - rewrite H0. cbn [Z.eqb negb]. rewrite Hl. cbn [mbind res_bind].
    destruct (Z.eqb_spec a 0); [done|]. destruct (Z.eqb_spec (fu d 2) (event_code RDMA_CM_EVENT_ESTABLISHED)); [done|].
    cbn [negb]. unfold drop_event, ucma_complete_event, get_id. cbn [ev_priv]. by rewrite Hi.
  - destruct (Z.eqb_spec (fu d 0) 0); [done|]. cbn [negb]. unfold event_switch. rewrite Hd, event_of_event_code.
    destruct Ht as [-> | ->]; unfold get_id at 1; cbn [ev_priv]; rewrite Hi; cbn [of_option mbind res_bind];
      rewrite Hc; unfold drop_event, ucma_complete_event, get_id; cbn [ev_priv]; by rewrite Hi.
Qed.

Lemma quiet_handled p d a i t : names p d a -> q_ids p !! a = Some i -> fu d 2 = event_code t -> quiet t = true ->
  (t = RDMA_CM_EVENT_DISCONNECTED -> id_connect_error i = false) ->
  handle_event vb init resp d p = Ok (p, Some (event_for a i t d)).
Proof.
  intros Hn Hi Ht Hq Hd.
  assert (event_switch vb init resp d (mkCmaEvent a None a (fu d 2) (fi d 3) PZero) p
          = Ok (p, Some (event_for a i t d))) as Hsw.
  { unfold event_switch. rewrite Ht, event_of_event_code. unfold event_params, get_id, event_for. cbn [ev_priv].
    destruct t; try discriminate Hq; rewrite Hi; cbn [of_option mbind res_bind]; try rewrite (Hd eq_refl);
      unfold deliver, set_ev_param; cbn; rewrite ?andb_true_r, ?andb_false_r; done. }
  unfold handle_event. destruct Hn as [[Hu Ha]|(Hu & Hl & Ha & He)]; rewrite Hu.
  - by destruct (Z.eqb_spec a 0).
  - cbn [Z.eqb negb]. rewrite Hl. cbn [mbind res_bind]. destruct (Z.eqb_spec a 0); [done|].
    by rewrite He, Z.eqb_refl, <- He.
Qed.

(** ** Rounds *)

Lemma passes_by_round p d p1 rfd s : passes_by p d p1 ->
  passes_by (after_round rfd s p) d (after_round rfd s p1).
Proof.
  intros [H0 Hl|a i H0 Hl Ha Ht Hi|i t H0 Hi Hc Ht Hd].
  - by apply pb_gone.
  - exact (pb_early (after_round rfd s p) d a i H0 Hl Ha Ht Hi).
  - exact (pb_failed (after_round rfd s p) d i t H0 Hi Hc Ht Hd).
Qed.

Lemma all_pass_round p ds p1 rfd s : all_pass p ds p1 -> all_pass (after_round rfd s p) ds (after_round rfd s p1).
Proof. induction 1; econstructor; [by apply passes_by_round|done]. Qed.

Lemma stream_ready_passed p d p1 ch fd rfd s ds rest : passes_by p d p1 ->
  stream_ready p ch fd rfd s ds rest -> stream_ready p1 ch fd rfd s ds rest.
Proof. intros [] []; by split. Qed.

Lemma after_round_twice rfd s s' p : after_round rfd s' (after_round rfd s p) = after_round rfd s' p.
Proof. unfold after_round, set_q_ctl, set_slot. cbn. by rewrite insert_insert_eq. Qed.

Lemma rounds_deliver ds : forall fuel p p1 ch fd rfd s d ds2 rest a i t, all_pass p ds p1 ->
  stream_ready p ch fd rfd s (ds ++ d :: ds2) rest -> 0 <= resp < 2 ^ 64 -> (length ds < fuel)%nat ->
  names p1 d a -> q_ids p1 !! a = Some i -> fu d 2 = event_code t -> quiet t = true ->
  (t = RDMA_CM_EVENT_DISCONNECTED -> id_connect_error i = false) ->
  exists s', event_rounds vb init resp fuel ch p = Ok (after_round rfd s' p1, event_for a i t d) /\
    stream_ready (after_round rfd s' p1) ch fd rfd s' ds2 rest.
Proof.
  induction ds as [|d0 ds IH]; intros [|fuel] p p1 ch fd rfd s d ds2 rest a i t Hp Hr Hresp Hfuel Hn Hi Ht Hq Hd;
    try (simpl in Hfuel; lia); inversion Hp as [|? ? p0 ? ? Hpass Hall]; subst;
    destruct (event_round _ _ _ _ _ _ _ _ Hr Hresp) as (s1 & E1 & Hr1); cbn [event_rounds];
    unfold chan_fd; rewrite (hr_chan _ _ _ _ _ _ _ Hr); cbn [of_option mbind res_bind];
    unfold t_event_rsp in E1; rewrite E1; cbn [mbind res_bind];
    change (fs (VS [VI 0; ?x]) 1) with x.
  - rewrite (quiet_handled (after_round rfd s1 p1) d a i t Hn Hi Ht Hq Hd). cbn [mbind res_bind]. by exists s1.
  - rewrite (passes_by_handled _ _ _ (passes_by_round _ _ _ rfd s1 Hpass)). cbn [mbind res_bind].
    apply (stream_ready_passed _ _ _ _ _ _ _ _ _ (passes_by_round _ _ _ rfd s1 Hpass)) in Hr1.
    destruct (IH fuel (after_round rfd s1 p0) (after_round rfd s1 p1) ch fd rfd s1 d ds2 rest a i t) as (s' & E & Hr');
      try done; [by apply all_pass_round|simpl in Hfuel; lia|].
    rewrite after_round_twice in E, Hr'. by exists s'.
Qed.

End Stream.

(** C14: The events of a channel that need no request of their own ([quiet]: errors of
    address, route and connection, unreachable, established, disconnected, removal of the
    device, change of address and the end of the time wait) are delivered in the order in
    which the router sends them: with any number of events before it that are dropped (of an
    identifier that is gone, of one without an address yet, of a connection that has failed
    already), [rdma_get_cm_event] returns the first quiet event behind them, for the
    identifier the kernel names and with its type, status and parameters; each dropped event
    of a known identifier counts as acknowledged, nothing else of the identifiers changes,
    and the events behind it are left for the next call. *)
Theorem cm_events_delivered_in_order {V} (vb : verbs V) init resp (p p1 : cm_proc V) fuel ch fd rfd s ds d ds2 rest
  e heap a i t :
  init p = Ok (p, 0) -> q_heap p = Some e :: heap -> 0 <= resp < 2 ^ 64 ->
  stream_ready (set_heap heap p) ch fd rfd s (ds ++ d :: ds2) rest -> all_pass (set_heap heap p) ds p1 ->
  (length ds < fuel)%nat -> names p1 d a -> q_ids p1 !! a = Some i -> fu d 2 = event_code t -> quiet t = true ->
  (t = RDMA_CM_EVENT_DISCONNECTED -> id_connect_error i = false) ->
  exists p' s', rdma_get_cm_event vb init resp fuel ch p = Ok (p', Some e, 0) /\
    q_evts p' !! e = Some (event_for a i t d) /\ q_ids p' = q_ids p1 /\
    stream_ready p' ch fd rfd s' ds2 rest.
Proof.
  intros Hi Hh Hresp Hr Hp Hf Hn Hid Ht Hq Hd. unfold rdma_get_cm_event. rewrite Hi. cbn [mbind res_bind negb Z.eqb].
  unfold malloc. rewrite Hh. cbn [mbind res_bind].
  destruct (rounds_deliver vb init resp ds fuel _ p1 ch fd rfd s d ds2 rest a i t Hp Hr) as (s' & -> & Hr'); try done.
  cbn [mbind res_bind]. eexists. exists s'. split; [reflexivity|]. cbn [q_evts set_evts q_ids].
  split; [apply lookup_insert_eq|]. split; [done|]. destruct Hr'. by split.
Qed.

(** ** An example *)

Definition ex_event (uid id type : Z) : cval :=
  VS [VI uid; VI id; VI type; VI 0; VB (replicate 308 0)].
(** An event of an identifier that is gone, and a connection that is established. *)
Definition ex_gone : cval := ex_event 0 70 10.
Definition ex_established : cval := ex_event 4096 3 9.

Definition ex_event_link : cm_sock :=
  mkCmSock (mkSock 4 (mkConn 4 0 [12; event_req_size; 12; event_req_size]
    (map (fun d => Some (encode 0 t_event_rsp (VS [VI 0; d]))) [ex_gone; ex_established]) RmNoControl [])) [].
Definition ex_listener : cma_id := set_handle 3 (fresh_id 50 0 RDMA_PS_TCP IBV_QPT_RC false).
Definition ex_event_proc : cm_proc unit :=
  set_q_ctl (mkCmCtl {[9 := 7]} {[7 := ex_event_link]} [] [] [] [] [] true [] [])
    (set_ids {[4096 := ex_listener]} (ex_cm_proc ∅ (ex_cm_ctl 0 []))).

Lemma cm_events_delivered_in_order_witness : exists p',
  rdma_get_cm_event no_verbs ex_init 0 2 50 ex_event_proc = Ok (p', Some 4096, 0) /\
  q_evts p' !! 4096 = Some (event_for 4096 ex_listener RDMA_CM_EVENT_ESTABLISHED ex_established).
Proof.
  destruct (cm_events_delivered_in_order no_verbs ex_init 0 ex_event_proc (set_heap [Some 8192] ex_event_proc) 2
    50 9 7 ex_event_link [ex_gone] ex_established [] [] 4096 [Some 8192] 4096 ex_listener RDMA_CM_EVENT_ESTABLISHED)
    as (p' & s' & E & Hev & _).
  - done.
  - done.
  - lia.
  - split; [by eexists|done|by vm_compute|done|by vm_compute|done|done|by exists []|done|].
    apply Forall_cons; split; [by apply typed_has_type|]. apply Forall_cons; split; [by apply typed_has_type|constructor].
  - econstructor; [|constructor]. by apply pb_gone.
  - simpl. lia.
  - by left.
  - done.
  - done.
  - done.
  - done.
  - exists p'. split; [exact E|exact Hev].
Defined.
