(* ===== verification/CmWell.v ===== *)
(** * The commands of the client

    Those librdmacm builds from addresses and connection parameters, on arguments of the
    machine's widths, are values of the command's type with the reserved fields cleared and
    the addresses padded: what the router needs to pass them on unchanged. *)

From S2P Require Import Prelude CLayout FfTypes Wire CmdCtrl ReqRouter Indexer Marshall.
From S2P Require Import CmTypes CmResp CmRequest CmIds CmRoute CmEvents CmForward.

Definition fits (n x : Z) : Prop := 0 <= x < 2 ^ n.

(** The parameters of an identifier and of the application that go into a command. *)
Definition id_fits (i : cma_id) : Prop :=
  fits 8 (id_responder_resources i) /\ fits 8 (id_initiator_depth i).
Definition param_fits (x : option conn_param) : Prop :=
  match x with
  | Some c => fits 8 (cp_flow_control c) /\ fits 8 (cp_retry_count c) /\ fits 8 (cp_rnr_retry_count c)
  | None => True
  end.

(** An address as the application gives it: its length is that of its family. *)
Definition sockaddr (af_ib : bool) (sa : list Z) : Prop :=
  byte_list sa /\ 0 < ucma_addrlen af_ib sa <= Z.of_nat (length sa).

(** A command the router passes on unchanged. *)
Definition wellformed (f : RDMA_FUNCTION_CALL) (v : cval) : Prop :=
  exists sp l, cm_spec_of f = Some sp /\ v = VS l /\ has_type (sp_cmd sp) v /\
    fixed_ok sp l /\ addrs_ok sp l /\ padded f l.

(** ** Addresses *)

Lemma addr_copy_bytes size n sa ad : byte_list sa -> 0 <= n -> addr_copy size n sa = Ok ad ->
  exists bs, ad = VB bs /\ Z.of_nat (length bs) = size /\ byte_list bs /\
    take (Z.to_nat n) bs = take (Z.to_nat n) sa /\ n <= size /\
    drop (Z.to_nat n) bs = replicate (Z.to_nat (size - n)) 0.
Proof.
  intros Hb Hn E. unfold addr_copy in E. split_if; [done|]. unfold take_n in E.
  destruct ((n <? 0) || (Z.of_nat (length sa) <? n)) eqn:Eb; [done|]. cbn [mbind res_bind] in E. simplify_eq.
  assert (length (take (Z.to_nat n) sa) = Z.to_nat n) as Hl by (rewrite length_take; blia).
  eexists. split; [reflexivity|]. split; [rewrite length_app, Hl, length_replicate; blia|]. split.
  { apply Forall_app. split; [by apply Forall_take|]. apply Forall_replicate. lia. }
  split; [by rewrite take_app_length'|]. split; [blia|]. by rewrite drop_app_length'.
Qed.

Lemma opt_addr_bytes size af src ad : match src with Some sa => sockaddr af sa | None => True end -> 0 <= size ->
  opt_addr size (match src with Some sa => ucma_addrlen af sa | None => 0 end) src = Ok ad ->
  exists bs, ad = VB bs /\ Z.of_nat (length bs) = size /\ byte_list bs.
Proof.
  intros Hs Hz. unfold opt_addr. split_if; intros E.
  - simplify_eq. eexists. split; [done|]. rewrite length_replicate. split; [lia|]. apply Forall_replicate. lia.
  - destruct src as [sa|]; [|done]. cbn [of_option mbind res_bind] in E. destruct Hs as [Hb Hl].
    apply addr_copy_bytes in E as (bs & -> & ? & ? & _); [by exists bs|done|lia].
Qed.

Lemma addrlen_range af sa : 0 <= ucma_addrlen af sa < 2 ^ 16.
Proof.
  unfold ucma_addrlen. repeat split_if; unfold sizeof_sockaddr_in, sizeof_sockaddr_ib;
    change (sizeof t_sockaddr_in6) with 28; lia.
Qed.

(** The host's address lies inside of the address's length. *)
Lemma in_addr_inside af sa : 0 < ucma_addrlen af sa -> in_addr_at sa + 4 <= ucma_addrlen af sa.
Proof.
  unfold ucma_addrlen, in_addr_at. change (sizeof t_sockaddr_in6) with 28.
  unfold sizeof_sockaddr_in, sizeof_sockaddr_ib. repeat split_if; intros; blia.
Qed.

Lemma in_addr_at_take sa bs n : 2 <= n -> take (Z.to_nat n) bs = take (Z.to_nat n) sa -> in_addr_at bs = in_addr_at sa.
Proof.
  intros Hn E. unfold in_addr_at, sa_family.
  assert (forall l : list Z, take 2 l = take 2 (take (Z.to_nat n) l)) as H2
    by (intros l; rewrite take_take; f_equal; lia).
  by rewrite (H2 bs), E, <- H2.
Qed.

(** ** Parameters *)

Lemma private_bytes_fit i x data len : private_bytes i x = Ok (data, len) ->
  length data = RDMA_MAX_PRIVATE_DATA /\ fits 8 len.
Proof.
  unfold private_bytes. set (own := id_connect i). set (more := match x with Some c => cp_private c | None => [] end).
  set (len1 := u8 (Z.of_nat (length own))). pose proof (u8_range (Z.of_nat (length own))) as H1. fold len1 in H1.
  split_if; [done|].
  assert (length (overwrite (replicate RDMA_MAX_PRIVATE_DATA 0) own) = RDMA_MAX_PRIVATE_DATA) as Hbuf
    by (unfold overwrite; rewrite length_app, length_drop, length_replicate; blia).
  set (bs := overwrite _ own) in *. clearbody bs. intros E. injection E as <- <-. split; [|apply u8_range].
  rewrite !length_app, length_take, length_drop. blia.
Qed.

Lemma conn_param_typed i x qp srq c : fits 32 qp -> fits 8 srq -> id_fits i -> param_fits x ->
  ucma_copy_conn_param_to_kern i x qp srq = Ok c -> has_type t_ucma_abi_conn_param c.
Proof.
  intros Hq Hs [Hi1 Hi2] Hx E. unfold ucma_copy_conn_param_to_kern in E.
  destruct (private_bytes i x) as [[data len]| | |] eqn:Ep; try done. cbn [mbind res_bind] in E. simplify_eq.
  destruct (private_bytes_fit _ _ _ _ Ep) as [Hd Hl].
  assert (forall get d, fits 8 d -> (forall y, x = Some y -> fits 8 (get y)) ->
    fits 8 (match x with Some y => get y | None => d end)) as Hget
    by (intros get d Hd0 Hg; destruct x as [y|]; [by apply Hg|done]).
  apply ht_struct. repeat apply fh_cons; [..|apply fh_nil];
    first [apply ht_bytes; [left; by do 2 eexists|by rewrite Hd]|apply ht_int; [tauto|]].
  all: try done.
  all: apply Hget; [by split|]; intros y ->; destruct Hx as (? & ? & ?); done.
Qed.

Lemma addr_typed us bs : Z.of_nat (length bs) = sizeof (Union us) -> has_type (Union us) (VB bs).
Proof. intros Hl. apply ht_bytes; [right; by eexists|done]. Qed.

(** The fields of a command, one by one. *)
Ltac type_fields :=
  apply ht_struct; repeat apply fh_cons; try apply fh_nil;
  first [ assumption
        | apply ht_int; [tauto|first [assumption|apply u8_range|apply u16_range|apply u32_range
                                      |split; vm_compute; congruence]]
        | apply ht_bytes; [left; by do 2 eexists|reflexivity]
        | by apply typed_has_type
        | idtac ].
Ltac fixed_fields := unfold fixed_ok; repeat (apply Forall_cons; split; [reflexivity|]); apply List.Forall_nil.
Ltac addr_fields :=
  unfold addrs_ok; repeat (apply Forall_cons; split;
    [let x := fresh in let E := fresh in intros x E; injection E as <-; assumption|]); apply List.Forall_nil.

Lemma bind_wellformed af h sa ad : fits 32 h -> sockaddr af sa ->
  addr_copy (sizeof t_sockaddr_storage) (ucma_addrlen af sa) sa = Ok ad ->
  wellformed CM_BIND (bind_cmd h (ucma_addrlen af sa) ad).
Proof.
  intros Hh [Hb Hl] E. pose proof (addrlen_range af sa) as Hr.
  apply addr_copy_bytes in E as (bs & -> & Hlen & Hbs & Ht & Hn & Hz); [|done|lia].
  do 2 eexists. split; [reflexivity|]. split; [reflexivity|]. cbn [sp_cmd]. split.
  { type_fields. by apply addr_typed. }
  split; [fixed_fields|]. split.
  - addr_fields.
  - intros _. exists (ucma_addrlen af sa), bs. rewrite (u16_small (ucma_addrlen af sa)) by done. split; [done|]. split; [done|].
    change 128 with (sizeof t_sockaddr_storage). split; [|done]. split; [|done].
    pose proof (in_addr_inside af sa ltac:(lia)).
    rewrite (in_addr_at_take sa bs (ucma_addrlen af sa)); [lia| |done].
    unfold in_addr_at in *. split_if; lia.
Qed.

Lemma resolve_addr_wellformed af h to src dst s d : fits 32 h ->
  match src with Some sa => sockaddr af sa | None => True end -> sockaddr af dst ->
  let sl := match src with Some sa => ucma_addrlen af sa | None => 0 end in
  opt_addr (sizeof t_sockaddr_storage) sl src = Ok s ->
  addr_copy (sizeof t_sockaddr_storage) (ucma_addrlen af dst) dst = Ok d ->
  wellformed CM_RESOLVE_ADDR (resolve_addr_cmd h sl (ucma_addrlen af dst) to s d).
Proof.
  intros Hh Hsrc [Hd Hdl] sl Es Ed.
  apply opt_addr_bytes in Es as (bs & -> & Hl & Hb); [|done|apply sizeof_nonneg].
  apply addr_copy_bytes in Ed as (bd & -> & Hl' & Hb' & _); [|done|lia].
  do 2 eexists. split; [reflexivity|]. split; [reflexivity|]. cbn [sp_cmd].
  split; [type_fields; by apply addr_typed|]. split; [fixed_fields|]. split; [addr_fields|done].
Qed.

Lemma connect_wellformed h i x qp srq c : fits 32 h -> fits 32 qp -> fits 8 srq -> id_fits i -> param_fits x ->
  ucma_copy_conn_param_to_kern i x qp srq = Ok c -> wellformed CM_CONNECT (connect_cmd h c).
Proof.
  intros Hh Hq Hs Hi Hx E. pose proof (conn_param_typed _ _ _ _ _ Hq Hs Hi Hx E).
  do 2 eexists. split; [reflexivity|]. split; [reflexivity|]. cbn [sp_cmd].
  split; [type_fields|]. split; [fixed_fields|]. split; [addr_fields|done].
Qed.

(** 10.0.0.2, port 8080 *)
Definition ex_bind_addr : list Z := [2; 0; 31; 144; 10; 0; 0; 2; 0; 0; 0; 0; 0; 0; 0; 0].
