(* ===== verification/CmFaults.v ===== *)
(** * Where connection management fails

    Requests of the client's librdmacm that the router does not answer, or whose answer
    the client misreads, each from the call to the kernel and back. *)

From S2P Require Import Prelude CLayout FfTypes Wire CmdCtrl CmdLocal ReqRouter RouterCtl RouterServe Indexer Marshall.
From S2P Require Import CmTypes CmVip CmResp RouterCm CmRequest CmIds CmRoute CmEvents CmForward CmServed CmWell.

(** ** Binding by CM_BIND_IP *)

(** The fields of the client's command. *)
Definition bind_ip_fields (h : Z) (bs : list Z) : list cval :=
  [VI 2; VI (u16 (sizeof t_ucma_abi_bind_ip - sizeof t_ucma_abi_cmd_hdr)); VI 0; VI 0; VB bs; VI h].

Lemma bind_ip_typed h bs : fits 32 h -> length bs = 28%nat -> has_type t_ucma_abi_bind_ip (VS (bind_ip_fields h bs)).
Proof. intros Hh Hl. type_fields. apply addr_typed. by rewrite Hl. Qed.

Lemma mapped_family g o bs : 2 <= o -> o <= Z.of_nat (length bs) -> sa_family (mapped_at g o bs) = sa_family bs.
Proof.
  intros Ho Hl. unfold sa_family, mapped_at. f_equal. rewrite take_app_le by (rewrite length_take; lia).
  rewrite take_take. f_equal. lia.
Qed.

(** The turn of such a request, for an IPv4 address. *)
Lemma bind_ip_turn {K} (uc : ucma K) os g id fd h bs rest w ws req rsp fds out (r : cm_router K) k ret stored :
  fits 32 h -> length bs = 28%nat -> byte_list bs -> sa_family bs = AF_INET -> - 2 ^ 31 <= fd < 2 ^ 31 ->
  printed_map (vip_map r) g -> 1024 <= co_cap os -> 0 <= w ->
  uc_write uc (cr_kern r) fd (encode 0 t_ucma_abi_bind_ip
    (VS (bind_ip_fields h (take 16 (mapped_at g 4 bs) ++ replicate 12 0)))) [] = (k, ret, stored) ->
  exists req' rsp',
    cm_turn uc os (mkCt (cm_reads id CM_BIND_IP t_ucma_abi_bind_ip fd (bind_ip_fields h bs) ++ rest) (w :: ws)
                     req rsp fds out) r
    = Ok (CmNext (mkCt rest ws req' rsp' fds (out ++ [[]])) (set_kern k r)).
Proof.
  intros Hh Hl Hb Hf Hfd Hg Hcap Hw Hk. pose proof (bind_ip_typed h bs Hh Hl) as Ht.
  destruct (cm_turn_body uc os id CM_BIND_IP t_ucma_abi_bind_ip t_cm_ret fd _ (mkCt rest (w :: ws) req rsp fds out) r
    eq_refl ltac:(vm_compute; split; congruence) ltac:(etrans; [|exact Hcap]; vm_compute; congruence) Ht)
    as (th2 & E1 & E2 & E3 & E4 & E5 & Hcar & Hturn).
  cbn [ct_in ct_wr ct_req ct_rsp ct_fds ct_out] in *. rewrite Hturn. cbn [cm_branch]. unfold do_bind_ip.
  assert (carries t_ucma_abi_bind_ip
    (set_ct_req (map_vip (vip_map r) (ct_req th2) (cmd_field_at t_ucma_abi_bind_ip 4 + 4)) th2) fd
    (bind_ip_fields h (mapped_at g 4 bs))) as Hc.
  { refine (map_vip_req _ _ _ _ 4 _ _ g bs 4 Hcar _ _ Hb Hg _ _); try done. }
  rewrite (carries_fd _ _ _ _ Hc Hfd), (carries_cmd _ _ _ _ Hc). unfold rdma_bind_addr_resp.
  change (fb (VS (bind_ip_fields h ?x)) 4) with x.
  assert (ucma_addrlen (lo_af_ib (co_lib os)) (mapped_at g 4 bs) = 16) as ->
    by (unfold ucma_addrlen; rewrite mapped_family, Hf by lia; done).
  assert (length (mapped_at g 4 bs) = 28%nat) as Hml
    by (destruct (mapped_at_rest g (vip_map r) 4 8 bs Hg) as [-> _]; lia).
  unfold addr_copy, take_n. rewrite Hml.
  change (16 =? 0) with false. change (sizeof t_sockaddr_in6 <? 16) with false.
  change ((16 <? 0) || (Z.of_nat 28 <? 16)) with false. cbv iota. cbn [mbind res_bind].
  change (Z.to_nat 16) with 16%nat. change (Z.to_nat (sizeof t_sockaddr_in6 - 16)) with 12%nat.
  change (fu (VS (bind_ip_fields h ?x)) 5) with h.
  unfold run_cmd.
  change (cma_init_cmd t_ucma_abi_bind_ip UCMA_CMD_BIND_IP 0 [VI 0; VB ?x; VI h]) with (VS (bind_ip_fields h x)).
  rewrite Hk. unfold answer_with.
  destruct (Z.ltb_spec (co_cap os) (sizeof t_cm_ret)) as [Hlt|_]; [change (sizeof t_cm_ret) with 4 in Hlt; lia|].
  destruct (ret =? sizeof t_ucma_abi_bind_ip); cbn [no_resp fst mbind res_bind]; unfold cm_write;
    cbn [ct_wr set_ct_rsp set_ct_req]; rewrite E2; cbn [mbind res_bind];
    destruct (Z.ltb_spec w 0); try lia; cbn [negb];
    rewrite <- E1, <- E4, <- E5; do 2 eexists; reflexivity.
Qed.

(** A bind that goes through CM_BIND_IP is carried out and never answered: the
    kernel gets the command with the host's address, the router writes no bytes to the
    client, and [rdma_bind_addr], for which nothing else is to be read, does not
    return. *)
Theorem bind_ip_never_answered {V K} (vb : verbs V) resp (uc : ucma K) os g (p : cm_proc V) (r : cm_router K)
  id a i ch fd rfd sa bs s n rest w ws req rsp fds out k ret stored :
  af_ib_support p = false -> q_ids p !! a = Some i -> id_channel i = ch -> fits 32 (id_handle i) ->
  q_chans p !! ch = Some fd -> 0 <= fd < MAP_SIZE -> ec_map (q_ctl p) !! fd = Some rfd -> - 2 ^ 31 <= rfd < 2 ^ 31 ->
  length sa = 16%nat -> byte_list sa -> sa_family sa = AF_INET -> bs = sa ++ replicate 12 0 ->
  printed_map (vip_map r) g -> 1024 <= co_cap os -> 0 <= w ->
  uc_write uc (cr_kern r) rfd (encode 0 t_ucma_abi_bind_ip
    (VS (bind_ip_fields (id_handle i) (take 16 (mapped_at g 4 bs) ++ replicate 12 0)))) [] = (k, ret, stored) ->
  cm_linked p id (t_cm_req t_ucma_abi_bind_ip) s n [] ->
  (exists req' rsp',
    cm_turn uc os (mkCt (cm_reads id CM_BIND_IP t_ucma_abi_bind_ip rfd (bind_ip_fields (id_handle i) bs) ++ rest)
                     (w :: ws) req rsp fds out) r
    = Ok (CmNext (mkCt rest ws req' rsp' fds (out ++ [[]])) (set_kern k r))) /\
  rdma_bind_addr vb resp a (Some sa) p = Spin.
Proof.
  intros Haf Hi Hch Hh Hc Hfd Hm Hrfd Hl Hb Hf Hbs Hg Hcap Hw Hk Hlink.
  assert (length bs = 28%nat) as Hl' by (subst bs; rewrite length_app, length_replicate; lia).
  assert (sa_family bs = AF_INET) as Hf' by (rewrite <- Hf; subst bs; unfold sa_family; by rewrite take_app_le by lia).
  split.
  - eapply bind_ip_turn; try done. subst bs. apply Forall_app. split; [done|]. apply Forall_replicate. lia.
  - unfold rdma_bind_addr, addrlen_of.
    assert (ucma_addrlen (af_ib_support p) sa = 16) as -> by (unfold ucma_addrlen; by rewrite Hf).
    rewrite Haf. change (16 =? 0) with false. cbv iota. cbn [of_option mbind res_bind].
    unfold get_id at 1. rewrite Hi. cbn [of_option mbind res_bind].
    unfold addr_copy. change (sizeof t_sockaddr_in6 <? 16) with false.
    unfold take_n. rewrite Hl. change ((16 <? 0) || (Z.of_nat 16 <? 16)) with false. cbv iota. cbn [mbind res_bind].
    rewrite take_ge by (rewrite Hl; done). change (Z.to_nat (sizeof t_sockaddr_in6 - 16)) with 12%nat.
    rewrite <- Hbs. change (bind_ip_cmd (id_handle i) (VB bs)) with (VS (bind_ip_fields (id_handle i) bs)).
    unfold ask_id, chan_fd. rewrite Hch, Hc. cbn [of_option mbind res_bind].
    unfold ask_cmd, mapped_fd. destruct (Z.leb_spec 0 fd); [|lia]. destruct (Z.ltb_spec fd MAP_SIZE); [|lia].
    rewrite Hm. cbn [andb mbind res_bind]. unfold cm_ask.
    destruct (has_type_wire 0 _ _ (cm_req_typed _ rfd _ (bind_ip_typed (id_handle i) bs Hh Hl'))) as [Hlen _].
    rewrite (cm_request_unanswered p id CM_BIND_IP _ t_cm_ret s n _ _ Hlink); done.
Qed.

(** ** Destroying a channel *)

(** The router's turn for a request for a channel. *)
Lemma create_channel_turn {K} (uc : ucma K) os id rest w ws req rsp fds out (r : cm_router K) k1 k2 fd2 :
  uc_init uc (cr_kern r) = (k1, 0) -> uc_open uc k1 = (k2, fd2) -> 0 <= fd2 < MAP_SIZE -> 8 <= w ->
  exists rsp' bs, Z.of_nat (length bs) = 8 /\
    cm_turn uc os (mkCt (Some (header_bytes (mkReqHeader id CM_CREATE_EVENT_CHANNEL 0)) :: rest) (w :: ws)
                     req rsp fds out) r
    = Ok (CmNext (mkCt rest ws req rsp' (fds ++ [fd2]) (out ++ [bs]))
            (set_channels (<[fd2 := fd2]> (event_channel_map r)) (set_kern k2 r))).
Proof.
  intros Hi Ho Hfd Hw. unfold cm_turn. cbn [ct_in]. rewrite header_decodes by (simpl; lia).
  change (Z.of_nat (length (header_bytes _)) <? sizeof t_FfrRequestHeader) with false. cbv iota.
  cbn [func client_id body_size]. change (fu (VS [?y; VI ?x; ?z]) 1) with x. rewrite func_of_code_code. cbn [mbind option_bind cm_format fst].
  cbn [cm_read_body mbind res_bind cm_branch]. unfold do_create_event_channel, rdma_create_event_channel_r.
  rewrite Hi. cbn [Z.eqb negb]. cbn [cr_kern ct_wr ct_req ct_rsp ct_fds ct_out ct_in]. rewrite Ho.
  destruct (Z.ltb_spec fd2 0); [lia|]. cbn [of_option mbind res_bind].
  destruct (Z.leb_spec MAP_SIZE fd2); [lia|]. unfold cm_write. cbn [ct_wr mbind res_bind].
  change (sizeof t_CM_CREATE_EVENT_CHANNEL_RSP) with 8. destruct (Z.ltb_spec w 8); [lia|]. cbn [negb].
  do 2 eexists. split; [|reflexivity]. by rewrite read_bytes_length.
Qed.

(** The client's side: eight bytes are read into a struct of four. *)
Lemma destroy_channel_reads {V} (p : cm_proc V) id ch fd rfd s i w ws len fd2 msgs bs rest n ns :
  e_ffr_id (q_env p) = Some id -> cc_rand (q_ctl p) = n :: ns -> i = Z.to_nat (n mod Z.of_nat PARALLEL_SIZE) ->
  control_sock (q_ctl p) !! i = Some s -> 0 <= sock (cs s) -> k_writes (peer (cs s)) = w :: ws -> write_result w ->
  cs_msgs s = RmControl len SOL_SOCKET SCM_RIGHTS fd2 :: msgs -> k_reads (peer (cs s)) = Some bs :: rest ->
  Z.of_nat (length bs) = 8 -> q_chans p !! ch = Some fd -> mapped_fd p fd = Ok rfd ->
  rdma_destroy_event_channel ch p = Ub.
Proof.
  intros He Hn Hi Hs Ho Hw Hw' Hmsg Hr Hb Hch Hm. unfold rdma_destroy_event_channel, chan_fd. rewrite Hch.
  cbn [of_option mbind res_bind]. rewrite Hm. cbn [mbind res_bind]. unfold cm_ask, cm_request_router.
  rewrite (bool_decide_false (CM_CREATE_EVENT_CHANNEL = CM_GET_EVENT)) by done. unfold cm_get_unix_sock.
  rewrite Hn. cbn [is_control]. rewrite <- Hi. unfold connected, get_slot. cbn [control_sock set_rand]. rewrite Hs.
  cbn [of_option mbind res_bind]. destruct (Z.ltb_spec (sock (cs s)) 0); [lia|]. cbn [mbind res_bind].
  destruct (Z.ltb_spec (sock (cs s)) 0); [lia|]. rewrite He. cbn [of_option mbind res_bind cm_format].
  unfold send_request, sock_write. destruct (Z.ltb_spec (sock (cs s)) 0); [lia|]. rewrite Hw. cbn [mbind res_bind].
  assert (forall A (x y : A), (if u64 w <? sizeof t_FfrRequestHeader then (if w <? 0 then x else y) else y) = y) as ->.
  { intros A x y. destruct (Z.ltb_spec (u64 w) (sizeof t_FfrRequestHeader)) as [Hu|]; [|done].
    destruct (Z.ltb_spec w 0) as [Hneg|]; [|done]. destruct Hw' as [->|]; [|lia]. vm_compute in Hu. discriminate. }
  cbn [body_size]. change (0 <? 0) with false. cbv iota. cbn [mbind res_bind].
  rewrite bool_decide_true by done. unfold cm_recv_fd. cbn [cs_msgs]. rewrite Hmsg. unfold recv_fd. cbn [sock with_cmsg cs peer k_cmsg].
  destruct (Z.ltb_spec (sock (cs s)) 0); [lia|].
  assert (exists v, (if len =? CMSG_LEN_int then if negb (SOL_SOCKET =? SOL_SOCKET) then Exit 1
    else if negb (SCM_RIGHTS =? SCM_RIGHTS) then Exit 1 else Ok fd2 else Ok (-1)) = Ok v) as [v ->]
    by (destruct (len =? CMSG_LEN_int); eauto).
  cbn [mbind res_bind cs]. unfold sock_read_full. change (sizeof t_CM_CREATE_EVENT_CHANNEL_RSP) with 8.
  change (8 <=? 0) with false. cbn [sock peer k_reads]. destruct (Z.ltb_spec (sock (cs s)) 0); [lia|]. rewrite Hr.
  destruct (read_full_chunks [bs] [] 8 rest) as (rs & Ers); [simpl; rewrite app_nil_r; lia|].
  cbn [map app] in Ers. rewrite Ers. cbn [mbind res_bind concat app]. rewrite app_nil_r.
  unfold fill_rsp. rewrite length_replicate. change (sizeof t_cm_ret) with 4.
  destruct (Z.ltb_spec (Z.of_nat (Z.to_nat 4)) (Z.of_nat (length bs))); [done|lia].
Qed.

(** [rdma_destroy_event_channel] does not destroy the channel: the router opens
    another one, keeps the old one in its map, and answers with eight bytes, which the
    client reads into a struct of four on its stack. *)
Theorem destroy_channel_creates_and_overflows {V K} (uc : ucma K) os (p : cm_proc V) (r : cm_router K)
  id ch fd rfd rest w ws req rsp fds out k1 k2 fd2 :
  uc_init uc (cr_kern r) = (k1, 0) -> uc_open uc k1 = (k2, fd2) -> 0 <= fd2 < MAP_SIZE -> 8 <= w ->
  event_channel_map r !! rfd = Some rfd -> fd2 <> rfd ->
  e_ffr_id (q_env p) = Some id -> q_chans p !! ch = Some fd -> mapped_fd p fd = Ok rfd ->
  exists rsp' bs r',
    cm_turn uc os (mkCt (Some (header_bytes (mkReqHeader id CM_CREATE_EVENT_CHANNEL 0)) :: rest) (w :: ws)
                     req rsp fds out) r
    = Ok (CmNext (mkCt rest ws req rsp' (fds ++ [fd2]) (out ++ [bs])) r') /\
    event_channel_map r' !! rfd = Some rfd /\ event_channel_map r' !! fd2 = Some fd2 /\
    forall s n ns cw cws msgs rs, cc_rand (q_ctl p) = n :: ns ->
      control_sock (q_ctl p) !! Z.to_nat (n mod Z.of_nat PARALLEL_SIZE) = Some s -> 0 <= sock (cs s) ->
      k_writes (peer (cs s)) = cw :: cws -> write_result cw ->
      cs_msgs s = RmControl CMSG_LEN_int SOL_SOCKET SCM_RIGHTS fd2 :: msgs -> k_reads (peer (cs s)) = Some bs :: rs ->
      rdma_destroy_event_channel ch p = Ub.
Proof.
  intros Hi Ho Hfd2 Hw Hold Hne He Hch Hm.
  destruct (create_channel_turn uc os id rest w ws req rsp fds out r k1 k2 fd2 Hi Ho Hfd2 Hw) as (rsp' & bs & Hb & Et).
  exists rsp', bs. eexists. split; [exact Et|]. cbn [event_channel_map set_channels].
  split; [by rewrite lookup_insert_ne|]. split; [apply lookup_insert_eq|].
  intros s n ns cw cws msgs rs Hn Hs Hso Hcw Hcw' Hmsg Hr. by eapply destroy_channel_reads.
Qed.

(** ** A bind the kernel refuses *)

Definition bind_spec : cm_spec :=
  mkCmSpec t_ucma_abi_bind UCMA_CMD_BIND t_cm_ret 0 None [6%nat] [(5%nat, VI 0)].

(** A bind that the kernel refuses (an address in use, say) is reported to the
    application as done: the router answers -1, and [rdma_bind_addr] returns 0, without
    asking for the address it was bound to. *)
Theorem refused_bind_returns_success {V K} (vb : verbs V) resp (uc : ucma K) os g (p : cm_proc V) (r : cm_router K)
  id a i fd rfd sa ad rest w ws req rsp fds out k ret stored :
  af_ib_support p = true -> q_ids p !! a = Some i -> fits 32 (id_handle i) ->
  q_chans p !! id_channel i = Some fd -> mapped_fd p fd = Ok rfd -> - 2 ^ 31 <= rfd < 2 ^ 31 ->
  sockaddr true sa -> addr_copy (sizeof t_sockaddr_storage) (ucma_addrlen true sa) sa = Ok ad ->
  printed_map (vip_map r) g -> uc_init uc (cr_kern r) = (cr_kern r, 0) -> 1024 <= co_cap os -> 4 <= w ->
  let l := fields (bind_cmd (id_handle i) (ucma_addrlen true sa) ad) in
  uc_write uc (cr_kern r) rfd (encode 0 t_ucma_abi_bind (kernel_cmd (lo_resp (co_lib os)) g bind_spec l)) []
    = (k, ret, stored) -> ret <> sizeof t_ucma_abi_bind ->
  exists req' rsp' bs,
    cm_turn uc os (mkCt (cm_reads id CM_BIND t_ucma_abi_bind rfd l ++ rest) (w :: ws) req rsp fds out) r
    = Ok (CmNext (mkCt rest ws req' rsp' fds (out ++ [bs])) (set_kern k r)) /\
    fi (decode t_cm_ret bs) 0 = -1 /\
    forall s n rs, cm_ready p id (t_cm_req t_ucma_abi_bind) s n bs rs ->
      exists p', rdma_bind_addr vb resp a (Some sa) p = Ok (p', 0) /\ q_ids p' = q_ids p.
Proof.
  intros Haf Hi Hh Hch Hm Hrfd Hsa Had Hg Huc Hcap Hw l Hk Hret.
  destruct (bind_wellformed true _ sa ad Hh Hsa Had) as (sp & l' & Hsp & El & Ht & Hx & Ha & Hp).
  assert (l' = l) as -> by (unfold l; by rewrite El). apply (inj Some) in Hsp. subst sp.
  destruct (cm_turn_passes uc os CM_BIND bind_spec g id rfd l rest w ws req rsp fds out r k ret stored)
    as (req' & rsp' & bs & Et & Hlen & Hfi & _); try done.
  1,2: etrans; [|exact Hcap]; vm_compute; congruence.
  assert (fi (decode t_cm_ret bs) 0 = -1) as Hneg
    by (etrans; [exact Hfi|]; by destruct (Z.eqb_spec ret (sizeof (sp_cmd bind_spec)))).
  exists req', rsp', bs. split; [exact Et|]. split; [done|]. intros s n rs Hr.
  unfold rdma_bind_addr, addrlen_of. rewrite Haf. destruct Hsa as [_ Hsl].
  destruct (Z.eqb_spec (ucma_addrlen true sa) 0); [lia|]. cbn [of_option mbind res_bind].
  unfold rdma_bind_addr2, get_id at 1. rewrite Hi. cbn [of_option mbind res_bind]. rewrite Had. cbn [mbind res_bind].
  unfold ask_id, chan_fd. rewrite Hch. cbn [of_option mbind res_bind].
  destruct (ask_cmd_answered p id CM_BIND t_ucma_abi_bind t_cm_ret s n bs rs fd rfd l) as (s' & E & _); try done.
  rewrite El, E. cbn [mbind res_bind]. rewrite Hneg. cbn. by eexists.
Qed.

(** ** Examples *)

Definition ex_id : cma_id := set_handle 3 (fresh_id 50 0 RDMA_PS_TCP IBV_QPT_RC false).

(** A process with an identifier, without and with support for AF_IB, whose control
    connections are all [s]. *)
Definition ex_bound (af : bool) (s : cm_sock) : cm_proc unit :=
  set_af_ib af (set_ids {[4096 := ex_id]}
    (ex_cm_proc ∅ (mkCmCtl {[9 := 7]} ∅ (replicate 10 s) [] [] [] [] true [41] []))).
Definition ex_silent (n : Z) : cm_sock := mkCmSock (mkSock 3 (mkConn 3 0 [12; n] [] RmNoControl [])) [].

Lemma ex_bytes : byte_list ex_bind_addr.
Proof. repeat constructor; lia. Qed.

Lemma bind_ip_never_answered_witness :
  rdma_bind_addr no_verbs 0 4096 (Some ex_bind_addr)
    (ex_bound false (ex_silent (sizeof (t_cm_req t_ucma_abi_bind_ip)))) = Spin.
Proof.
  refine (proj2 (bind_ip_never_answered no_verbs 0 logging_kernel ex_cm_os ex_vips
    (ex_bound false (ex_silent (sizeof (t_cm_req t_ucma_abi_bind_ip)))) ex_cm_router 5 4096 ex_id 50 9 7 ex_bind_addr
    (ex_bind_addr ++ replicate 12 0) (ex_silent (sizeof (t_cm_req t_ucma_abi_bind_ip))) 1 [] 0 [] (fun _ => 0)
    (fun _ => 0) [] [] _ _ _ eq_refl eq_refl eq_refl _ eq_refl _ eq_refl _ eq_refl ex_bytes eq_refl eq_refl ex_printed
    _ _ eq_refl _)); try lia.
  all: first [split; [done|by exists 41, []|done|done|by eexists|done]|split; vm_compute; congruence|vm_compute; congruence].
Defined.

Definition ex_channel_link : cm_sock :=
  mkCmSock (mkSock 3 (mkConn 3 0 [12] [Some [0; 0; 0; 0; 8; 0; 0; 0]] RmNoControl []))
    [RmControl CMSG_LEN_int SOL_SOCKET SCM_RIGHTS 8].

Lemma destroy_channel_creates_and_overflows_witness :
  rdma_destroy_event_channel 50 (ex_bound true ex_channel_link) = Ub.
Proof.
  destruct (destroy_channel_creates_and_overflows
    (mkUcma unit (fun k => (k, 0)) (fun k => (k, 8)) (fun k _ => k) (fun k _ _ _ => (k, -1, []))) ex_cm_os
    (ex_bound true ex_channel_link) (mkCmRouter tt {[7 := 7]} ∅) 5 50 9 7 [] 8 [] (fun _ => 0) (fun _ => 0) [] []
    tt tt 8) as (rsp' & bs & r' & Et & _ & _ & Hc); [done..|].
  apply (f_equal written) in Et. vm_compute in Et. injection Et as <-.
  apply (Hc ex_channel_link 41 [] 12 [] [] []); try done. by right.
Defined.

Lemma refused_bind_returns_success_witness : exists p',
  rdma_bind_addr no_verbs 0 4096 (Some ex_bind_addr)
    (ex_bound true (ex_link (sizeof (t_cm_req t_ucma_abi_bind)) [255; 255; 255; 255])) = Ok (p', 0).
Proof.
  destruct (refused_bind_returns_success no_verbs 0 refusing_kernel ex_cm_os ∅
    (ex_bound true (ex_link (sizeof (t_cm_req t_ucma_abi_bind)) [255; 255; 255; 255])) (mkCmRouter tt ∅ ∅)
    5 4096 ex_id 9 7 ex_bind_addr (VB (ex_bind_addr ++ replicate 112 0)) [] 4 [] (fun _ => 0) (fun _ => 0) [] []
    tt (-1) []) as (req' & rsp' & bs & Et & _ & Hc).
  all: try (exact eq_refl).
  - split; vm_compute; congruence.
  - lia.
  - split; [apply ex_bytes|split; vm_compute; congruence].
  - apply printed_empty.
  - vm_compute. congruence.
  - lia.
  - vm_compute. congruence.
  - apply (f_equal written) in Et. vm_compute in Et. injection Et as <-.
    destruct (Hc (ex_link (sizeof (t_cm_req t_ucma_abi_bind)) [255; 255; 255; 255]) 1%nat []) as (p' & E & _).
    + split; try done; [by exists 41, []|by eexists].
    + by exists p'.
Defined.
