(* ===== verification/RouterSock.v ===== *)
(** * Sockets of the host (ffrouter.cpp, [HandleRequest])

    The SOCKET_* branches of a connection thread, which make, bind, accept and connect
    sockets of the host for a client and pass their descriptors.  A thread serves one
    such request and ends.  The host's sockets are a record of operations over a state
    of type [H]; the descriptors the router has open are kept in the thread. *)

From S2P Require Import Prelude CLayout FfTypes Wire CmdCtrl ReqRouter RouterCtl RouterServe CmTypes.

(** ** Requests *)

(** The functions behind those of libibverbs and librdmacm, with their codes. *)
Inductive SOCKET_FUNCTION_CALL : Type :=
| SOCKET_SOCKET | SOCKET_BIND | SOCKET_ACCEPT | SOCKET_ACCEPT4 | SOCKET_CONNECT.
Definition sock_func_of_code (code : Z) : option SOCKET_FUNCTION_CALL :=
  if code =? 58 then Some SOCKET_SOCKET else if code =? 59 then Some SOCKET_BIND
  else if code =? 60 then Some SOCKET_ACCEPT else if code =? 61 then Some SOCKET_ACCEPT4
  else if code =? 62 then Some SOCKET_CONNECT else None.

Definition t_SOCKET_SOCKET_REQ : cty := Struct [I32; I32; I32].
Definition t_SOCKET_ACCEPT4_REQ : cty := Struct [I32].
Definition t_sockaddr_in : cty := Struct [I16; I16; I32; Arr 8 I8].
Definition t_SOCKET_CONNECT_REQ : cty := Struct [t_sockaddr_in; I32].
(** All responses: [int ret]. *)
Definition t_SOCKET_RSP : cty := Struct [I32].

Definition O_NONBLOCK : Z := 2048.

(** The host: each call gives the state, its result and [errno]; [None]: it blocks. *)
Record host (H : Type) : Type := mkHost {
  h_socket : H -> Z -> Z -> Z -> H * Z * Z;
  h_bind : H -> Z -> list Z -> H * Z * Z;
  h_accept : H -> Z -> Z -> option (H * Z * Z);
  h_connect : H -> Z -> list Z -> Z -> option (H * Z * Z);
  h_getfl : H -> Z -> Z;
  h_setfl : H -> Z -> Z -> H }.
Arguments h_socket {H}. Arguments h_bind {H}. Arguments h_accept {H}.
Arguments h_connect {H}. Arguments h_getfl {H}. Arguments h_setfl {H}.

(** What [recvmsg] gives: an error, no control message, or the level, the type and the words
    of the first control message.  Its buffer has room for two words. *)
Inductive sk_msg : Type :=
| SkError
| SkNoControl
| SkControl (level type : Z) (words : list Z).

Definition cmsg_len (words : list Z) : Z := 16 + 4 * Z.of_nat (length words).

(** The descriptors the kernel has opened with the message: those that were passed. *)
Definition passed_fds (m : sk_msg) : list Z :=
  match m with
  | SkControl level type words => if (level =? SOL_SOCKET) && (type =? SCM_RIGHTS) then words else []
  | _ => []
  end.

(** The thread: what its reads, writes, [recvmsg] and [sendmsg] return, its buffers, the
    open descriptors, the descriptors it passed and the responses it wrote. *)
Record sk_thread : Type := mkSk {
  sk_in : list (option (list Z));
  sk_wr : list Z;
  sk_msgs : list sk_msg;
  sk_send : list Z;
  sk_req : mem;
  sk_rsp : mem;
  sk_open : gset Z;
  sk_passed : list Z;
  sk_out : list (list Z) }.

Definition set_sk_open (s : gset Z) (th : sk_thread) : sk_thread :=
  mkSk (sk_in th) (sk_wr th) (sk_msgs th) (sk_send th) (sk_req th) (sk_rsp th) s (sk_passed th) (sk_out th).
Definition set_sk_rsp (m : mem) (th : sk_thread) : sk_thread :=
  mkSk (sk_in th) (sk_wr th) (sk_msgs th) (sk_send th) (sk_req th) m (sk_open th) (sk_passed th) (sk_out th).
Definition opened (fd : Z) (th : sk_thread) : sk_thread :=
  if fd <? 0 then th else set_sk_open ({[fd]} ∪ sk_open th) th.
Definition close (fd : Z) (th : sk_thread) : sk_thread := set_sk_open (sk_open th ∖ {[fd]}) th.

Section Sockets.
Context {H : Type} (ho : host H) (cap host_ip client_sock : Z).
Implicit Types (th : sk_thread) (h : H).

(** [recv_fd] of the router: every failure gives -1; the descriptors that were passed are
    open in the process also then. *)
Definition sk_recv_fd th : res (Z * sk_thread) :=
  match sk_msgs th with
  | [] => Spin
  | m :: ms =>
      let fd := match m with
                | SkControl level type words =>
                    if cmsg_len words =? CMSG_LEN_int then
                      if negb (level =? SOL_SOCKET) then -1
                      else if negb (type =? SCM_RIGHTS) then -1 else default (-1) (head words)
                    else -1
                | _ => -1
                end in
      Ok (fd, foldr opened (mkSk (sk_in th) (sk_wr th) ms (sk_send th) (sk_req th) (sk_rsp th) (sk_open th)
                              (sk_passed th) (sk_out th)) (passed_fds m))
  end.

Definition sk_send_fd (fd : Z) th : res (Z * sk_thread) :=
  match sk_send th with
  | [] => Spin
  | n :: ns =>
      Ok (n, mkSk (sk_in th) (sk_wr th) (sk_msgs th) ns (sk_req th) (sk_rsp th) (sk_open th)
               (if n <? 0 then sk_passed th else sk_passed th ++ [fd]) (sk_out th))
  end.

Definition set_sk_in (l : list (option (list Z))) th : sk_thread :=
  mkSk l (sk_wr th) (sk_msgs th) (sk_send th) (sk_req th) (sk_rsp th) (sk_open th) (sk_passed th) (sk_out th).
Definition set_sk_req (m : mem) th : sk_thread :=
  mkSk (sk_in th) (sk_wr th) (sk_msgs th) (sk_send th) m (sk_rsp th) (sk_open th) (sk_passed th) (sk_out th).

(** [read(client_sock, req_body, sizeof(t)) < sizeof(t)]: [false] for [goto kill]; the
    -1 of an error is not smaller. *)
Definition sk_read_body (t : cty) th : res (sk_thread * bool) :=
  match sk_in th with
  | [] => Spin
  | None :: rest => Ok (set_sk_in rest th, true)
  | Some bs :: rest =>
      if cap <? Z.of_nat (length bs) then Ub else
      Ok (set_sk_req (write_bytes (sk_req th) 0 bs) (set_sk_in rest th), negb (Z.of_nat (length bs) <? sizeof t))
  end.

(** [rsp->ret], with [-errno] for an error. *)
Definition ret_value (ret errno : Z) : Z := if ret <? 0 then - errno else ret.
Definition store_ret (ret : Z) th : sk_thread := set_sk_rsp (store32 (sk_rsp th) 0 (u32 ret)) th.
Definition rsp_ret th : Z := s32 (le_combine (read_bytes (sk_rsp th) 0 4)).

(** The address of the host, any port. *)
Definition host_addr : list Z := le_split 2 AF_INET ++ [0; 0] ++ le_split 4 host_ip.

(** ** The branches *)

(** The result of a branch: the host and [host_fd]; [None] for [goto kill]. *)
Definition sk_branch : Type := res (sk_thread * option (H * Z)).

(** The body of a request, when it has one, then the descriptor. *)
Definition with_fd (th : sk_thread) (k : Z -> sk_thread -> sk_branch) : sk_branch :=
  '(fd, th) ← sk_recv_fd th;
  if fd <? 0 then Ok (th, None) else k fd th.
Definition with_body (t : cty) (th : sk_thread) (k : sk_thread -> sk_branch) : sk_branch :=
  '(th, ok) ← sk_read_body t th;
  if (ok : bool) then k th else Ok (th, None).

Definition do_socket th h : sk_branch :=
  with_body t_SOCKET_SOCKET_REQ th (fun th =>
    let v := read_val t_SOCKET_SOCKET_REQ (sk_req th) 0 in
    let '(h, ret, errno) := h_socket ho h AF_INET (fi v 1) (fi v 2) in
    Ok (store_ret (ret_value ret errno) (opened ret th), Some (h, -1))).

Definition do_sock_bind th h : sk_branch :=
  with_fd th (fun fd th =>
    let '(h, ret, errno) := h_bind ho h fd host_addr in
    Ok (store_ret (ret_value ret errno) th, Some (h, fd))).

(** [accept] in blocking mode; the flags are restored. *)
Definition accept_blocking (fd flags : Z) th h : sk_branch :=
  let original_flags := h_getfl ho h fd in
  let h := h_setfl ho h fd (Z.land original_flags (Z.lnot O_NONBLOCK)) in
  match h_accept ho h fd flags with
  | None => Spin
  | Some (h, ret, errno) =>
      Ok (store_ret (ret_value ret errno) (opened ret th), Some (h_setfl ho h fd original_flags, fd))
  end.

Definition do_accept th h : sk_branch := with_fd th (fun fd th => accept_blocking fd 0 th h).
Definition do_accept4 th h : sk_branch :=
  with_body t_SOCKET_ACCEPT4_REQ th (fun th => with_fd th (fun fd th =>
    accept_blocking fd (fi (read_val t_SOCKET_ACCEPT4_REQ (sk_req th) 0) 0) th h)).

Definition do_sock_connect th h : sk_branch :=
  with_body t_SOCKET_CONNECT_REQ th (fun th => with_fd th (fun fd th =>
    let v := read_val t_SOCKET_CONNECT_REQ (sk_req th) 0 in
    match h_connect ho h fd (read_bytes (sk_req th) 0 (sizeof t_sockaddr_in)) (fu v 1) with
    | None => Spin
    | Some (h, ret, errno) => Ok (store_ret (ret_value ret errno) th, Some (h, fd))
    end)).

Definition sock_branch (f : SOCKET_FUNCTION_CALL) th h : sk_branch :=
  match f with
  | SOCKET_SOCKET => do_socket th h
  | SOCKET_BIND => do_sock_bind th h
  | SOCKET_ACCEPT => do_accept th h
  | SOCKET_ACCEPT4 => do_accept4 th h
  | SOCKET_CONNECT => do_sock_connect th h
  end.

(** ** The request *)

Definition makes_socket (f : SOCKET_FUNCTION_CALL) : bool :=
  match f with SOCKET_SOCKET | SOCKET_ACCEPT | SOCKET_ACCEPT4 => true | _ => false end.

(** The descriptor of a new socket is passed and closed here. *)
Definition pass_socket (f : SOCKET_FUNCTION_CALL) th : res sk_thread :=
  if makes_socket f && (0 <=? rsp_ret th) then
    '(_, th) ← sk_send_fd (rsp_ret th) th; Ok (close (rsp_ret th) th)
  else Ok th.

Definition close_host (fd : Z) th : sk_thread := if 0 <=? fd then close fd th else th.

Definition sk_write th : res (Z * sk_thread) :=
  match sk_wr th with
  | [] => Spin
  | n :: ws =>
      Ok (n, mkSk (sk_in th) ws (sk_msgs th) (sk_send th) (sk_req th) (sk_rsp th) (sk_open th) (sk_passed th)
               (sk_out th ++ [read_bytes (sk_rsp th) 0 (sizeof t_SOCKET_RSP)]))
  end.

(** From the branch to the end of the thread. *)
Definition sock_request (f : SOCKET_FUNCTION_CALL) th h : res (sk_thread * H) :=
  '(th, x) ← sock_branch f th h;
  match x with
  | None => Ok (close client_sock th, h)
  | Some (h, host_fd) =>
      '(n, th) ← sk_write th;
      if n <? sizeof t_SOCKET_RSP then Ok (close client_sock th, h) else
      th ← pass_socket f th;
      Ok (close client_sock (close_host host_fd th), h)
  end.

(** The thread of a connection whose first request is one of these; [None]: it is not. *)
Definition sock_thread th h : res (option (sk_thread * H)) :=
  match sk_in th with
  | [] => Spin
  | None :: _ => Ub
  | Some hb :: rest =>
      let th1 := set_sk_in rest th in
      if Z.of_nat (length hb) <? sizeof t_FfrRequestHeader then Ok (Some (close client_sock th1, h)) else
      match sock_func_of_code (fu (decode t_FfrRequestHeader hb) 1) with
      | None => Ok None
      | Some f => x ← sock_request f th1 h; Ok (Some x)
      end
  end.

End Sockets.

(** ** What the host promises *)

(** Results are descriptors or -1 with an error number. *)
Definition sys_result (ret errno : Z) : Prop := ret = -1 /\ 0 < errno < 2 ^ 31 \/ 0 <= ret < 2 ^ 31.

(** The flags F_SETFL changes: O_APPEND, O_NONBLOCK, O_ASYNC, O_DIRECT and O_NOATIME. *)
Definition SETFL_MASK : Z := 1024 + 2048 + 8192 + 16384 + 262144.

(** F_SETFL on an open descriptor sets these flags and ignores the others; [accept] does
    not change the flags of other descriptors than the one it makes. *)
Class HostLaws {H : Type} (ho : host H) : Prop := {
  hl_socket h d t p h' ret errno : h_socket ho h d t p = (h', ret, errno) -> sys_result ret errno;
  hl_bind h fd a h' ret errno : h_bind ho h fd a = (h', ret, errno) -> sys_result ret errno;
  hl_accept h fd fl h' ret errno : h_accept ho h fd fl = Some (h', ret, errno) -> sys_result ret errno;
  hl_accept_flags h fd fl h' ret errno fd' : h_accept ho h fd fl = Some (h', ret, errno) -> fd' <> ret ->
    h_getfl ho h' fd' = h_getfl ho h fd';
  hl_connect h fd a n h' ret errno : h_connect ho h fd a n = Some (h', ret, errno) -> sys_result ret errno;
  hl_flags h fd v : 0 <= h_getfl ho h fd ->
    h_getfl ho (h_setfl ho h fd v) fd = Z.lor (Z.land (h_getfl ho h fd) (Z.lnot SETFL_MASK)) (Z.land v SETFL_MASK) }.

(** Setting the flags [v] and then those there were before restores them. *)
Lemma flags_restored flags v : let set a b := Z.lor (Z.land a (Z.lnot SETFL_MASK)) (Z.land b SETFL_MASK) in
  set (set flags v) flags = flags.
Proof.
  intros set. unfold set. apply Z.bits_inj'. intros i Hi. rewrite !Z.lor_spec, !Z.land_spec, !Z.lor_spec, !Z.land_spec, !Z.lnot_spec by lia.
  by destruct (Z.testbit flags i), (Z.testbit SETFL_MASK i), (Z.testbit v i).
Qed.

Section Descriptors.
Context {H : Type} (ho : host H) `{!HostLaws ho} (cap host_ip client_sock : Z).
Implicit Types (th : sk_thread) (h : H).

Lemma ret_value_ok ret errno : sys_result ret errno ->
  s32 (u32 (ret_value ret errno)) = ret_value ret errno /\ (0 <= ret_value ret errno <-> 0 <= ret) /\
  (0 <= ret -> ret_value ret errno = ret).
Proof.
  intros Hr. unfold ret_value. destruct (Z.ltb_spec ret 0); destruct Hr as [[-> Hr]|Hr]; try lia;
    rewrite s32_u32 by lia; split; auto; lia.
Qed.

Lemma rsp_ret_stored ret errno th : sys_result ret errno ->
  rsp_ret (store_ret (ret_value ret errno) th) = ret_value ret errno.
Proof.
  intros Hr. destruct (ret_value_ok _ _ Hr) as [E _]. unfold rsp_ret, store_ret. cbn [sk_rsp set_sk_rsp].
  unfold store32. pose proof (read_write (sk_rsp th) 0 (le_split 4 (u32 (ret_value ret errno)))) as Hrw.
  rewrite le_split_length in Hrw. change (Z.of_nat 4) with 4 in Hrw.
  rewrite Hrw, le_combine_split by apply u32_range. exact E.
Qed.

(** What a branch leaves open: the descriptor it got, and the one it made. *)
Definition branch_opens (f : SOCKET_FUNCTION_CALL) th th' (x : option (H * Z)) : Prop :=
  match x with
  | None => sk_open th' ⊆ sk_open th
  | Some (_, fd) =>
      sk_open th' ⊆ (if 0 <=? fd then {[fd]} else ∅) ∪ sk_open th ∪
        (if makes_socket f && (0 <=? rsp_ret th') then {[rsp_ret th']} else ∅)
  end.

(** A client that passes at most one descriptor with a message. *)
Definition passes_one (m : sk_msg) : Prop := (length (passed_fds m) <= 1)%nat.

Lemma recv_fd_opens th fd th' : sk_recv_fd th = Ok (fd, th') -> Forall passes_one (sk_msgs th) ->
  sk_open th' ⊆ (if 0 <=? fd then {[fd]} else ∅) ∪ sk_open th.
Proof.
  unfold sk_recv_fd. destruct (sk_msgs th) as [|m ms]; [done|]. intros E [H1 _]%Forall_cons. injection E as <- <-.
  unfold passes_one in H1. destruct m as [| |level type words]; cbn [passed_fds] in *; [set_solver|set_solver|].
  destruct (Z.eqb_spec level SOL_SOCKET), (Z.eqb_spec type SCM_RIGHTS); cbn [andb foldr sk_open] in *; try set_solver.
  destruct words as [|w [|w' words]]; cbn [length foldr] in *; [set_solver| |lia]. unfold opened.
  change (cmsg_len [w] =? CMSG_LEN_int) with true. change (default (-1) (head [w])) with w. cbn [negb].
  destruct (Z.ltb_spec w 0), (Z.leb_spec 0 w); try lia; cbn [sk_open set_sk_open]; set_solver.
Qed.

Lemma read_body_opens t th th' ok : sk_read_body cap t th = Ok (th', ok) -> sk_open th' = sk_open th /\ sk_msgs th' = sk_msgs th.
Proof.
  unfold sk_read_body. destruct (sk_in th) as [|[bs|] rest]; [done| |]; intros E; [|by injection E as <- <-].
  split_if; [done|]. by injection E as <- <-.
Qed.

Lemma with_fd_opens f th k th' x : with_fd th k = Ok (th', x) -> Forall passes_one (sk_msgs th) ->
  (forall fd th1, sk_open th1 ⊆ {[fd]} ∪ sk_open th -> 0 <= fd -> k fd th1 = Ok (th', x) -> branch_opens f th th' x) ->
  branch_opens f th th' x.
Proof.
  unfold with_fd. intros E Hm Hk. destruct (sk_recv_fd th) as [[fd th1]| | |] eqn:Er; try done. cbn [mbind res_bind] in E.
  apply recv_fd_opens in Er; [|done]. destruct (Z.ltb_spec fd 0), (Z.leb_spec 0 fd); try lia.
  - injection E as <- <-. cbn. set_solver.
  - by apply (Hk fd th1).
Qed.

Lemma with_body_opens f t th k th' x : with_body cap t th k = Ok (th', x) ->
  (forall th1, sk_open th1 = sk_open th -> sk_msgs th1 = sk_msgs th -> k th1 = Ok (th', x) -> branch_opens f th th' x) ->
  branch_opens f th th' x.
Proof.
  unfold with_body. intros E Hk. destruct (sk_read_body cap t th) as [[th1 ok]| | |] eqn:Er; try done. cbn [mbind res_bind] in E.
  apply read_body_opens in Er as [Eo Em]. destruct ok; [by apply (Hk th1)|]. injection E as <- <-. cbn. set_solver.
Qed.

(** A descriptor that was made is the one in the response. *)
Lemma made_opens f fd h th0 th ret errno : makes_socket f = true -> sys_result ret errno ->
  sk_open th ⊆ (if 0 <=? fd then {[fd]} else ∅) ∪ sk_open th0 ->
  branch_opens f th0 (store_ret (ret_value ret errno) (opened ret th)) (Some (h, fd)).
Proof.
  intros Hf Hr Ho. cbn [branch_opens]. rewrite Hf, (rsp_ret_stored _ _ _ Hr).
  destruct (ret_value_ok _ _ Hr) as (_ & Hs & He). unfold opened.
  destruct (Z.ltb_spec ret 0), (Z.leb_spec 0 (ret_value ret errno)); try lia; cbn [andb store_ret sk_open set_sk_rsp set_sk_open].
  - set_solver.
  - rewrite He by lia. set_solver.
Qed.

Lemma kept_opens f fd h th0 th ret errno :
  sk_open th ⊆ (if 0 <=? fd then {[fd]} else ∅) ∪ sk_open th0 ->
  branch_opens f th0 (store_ret (ret_value ret errno) th) (Some (h, fd)).
Proof. intros Ho. cbn [branch_opens store_ret sk_open set_sk_rsp]. set_solver. Qed.

Lemma accept_opens f fd fl h th0 th th' x : makes_socket f = true -> 0 <= fd -> sk_open th ⊆ {[fd]} ∪ sk_open th0 ->
  accept_blocking ho fd fl th h = Ok (th', x) -> branch_opens f th0 th' x.
Proof.
  intros Hf Hfd Ho. unfold accept_blocking. cbv zeta. destruct (h_accept ho _ fd fl) as [[[h' ret] errno]|] eqn:Ea; [|done].
  intros E. injection E as <- <-. apply made_opens; [done|by eapply hl_accept|].
  by destruct (Z.leb_spec 0 fd); [|lia].
Qed.

Lemma sock_branch_opens f th h th' x : sock_branch ho cap host_ip f th h = Ok (th', x) -> Forall passes_one (sk_msgs th) ->
  branch_opens f th th' x.
Proof.
  destruct f; cbn [sock_branch]; intros E Hm.
  - eapply with_body_opens; [exact E|]. intros th1 Ho _ Ek. cbv beta in Ek.
    cbv zeta in Ek. destruct (h_socket ho h AF_INET _ _) as [[h' ret] errno] eqn:Es. injection Ek as <- <-.
    apply made_opens; [done|by eapply hl_socket|]. rewrite Ho. set_solver.
  - eapply with_fd_opens; [exact E|done|]. intros fd th1 Ho Hfd Ek. cbv beta in Ek.
    destruct (h_bind ho h fd _) as [[h' ret] errno]. injection Ek as <- <-.
    apply kept_opens. by destruct (Z.leb_spec 0 fd); [|lia].
  - eapply with_fd_opens; [exact E|done|]. intros fd th1 Ho Hfd Ek.
    exact (accept_opens SOCKET_ACCEPT fd 0 h th th1 th' x eq_refl Hfd Ho Ek).
  - eapply with_body_opens; [exact E|]. intros th0 Ho0 Em0 Ek0. eapply with_fd_opens in Ek0; [| |].
    + unfold branch_opens in *. destruct x as [[]|]; rewrite Ho0 in Ek0; exact Ek0.
    + by rewrite Em0.
    + intros fd th1 Ho Hfd Ek.
      exact (accept_opens SOCKET_ACCEPT4 fd _ h th0 th1 th' x eq_refl Hfd Ho Ek).
  - eapply with_body_opens; [exact E|]. intros th0 Ho0 Em0 Ek0. eapply (with_fd_opens SOCKET_CONNECT) in Ek0; [| |].
    + unfold branch_opens in *. destruct x as [[]|]; rewrite Ho0 in Ek0; exact Ek0.
    + by rewrite Em0.
    + intros fd th1 Ho Hfd Ek. cbv beta in Ek. cbv zeta in Ek.
      destruct (h_connect ho h fd _ _) as [[[h' ret] errno]|]; [|done].
      injection Ek as <- <-. apply kept_opens. by destruct (Z.leb_spec 0 fd); [|lia].
Qed.

(** The branches do not write. *)
Lemma opened_wr fd th : sk_wr (opened fd th) = sk_wr th.
Proof. unfold opened. by destruct (fd <? 0). Qed.

Lemma all_opened_wr fds th : sk_wr (foldr opened th fds) = sk_wr th.
Proof. induction fds; [done|]. cbn [foldr]. by rewrite opened_wr. Qed.

Lemma with_fd_wr th (k : Z -> sk_thread -> @sk_branch H) th' x : with_fd th k = Ok (th', x) ->
  (forall fd th1, sk_wr th1 = sk_wr th -> k fd th1 = Ok (th', x) -> sk_wr th' = sk_wr th) -> sk_wr th' = sk_wr th.
Proof.
  unfold with_fd, sk_recv_fd. intros E Hk. destruct (sk_msgs th) as [|m ms]; [done|]. cbn [mbind res_bind] in E.
  split_if; [injection E as <- <-; by rewrite all_opened_wr|]. eapply Hk; [|exact E]. by rewrite all_opened_wr.
Qed.

Lemma with_body_wr t th (k : sk_thread -> @sk_branch H) th' x : with_body cap t th k = Ok (th', x) ->
  (forall th1, sk_wr th1 = sk_wr th -> k th1 = Ok (th', x) -> sk_wr th' = sk_wr th) -> sk_wr th' = sk_wr th.
Proof.
  unfold with_body, sk_read_body. intros E Hk. destruct (sk_in th) as [|[bs|] rest]; [done| |]; cbn [mbind res_bind] in E.
  - split_if; [done|]. cbn [mbind res_bind] in E. destruct (negb _); [by eapply Hk; [|exact E]|by injection E as <- <-].
  - by eapply Hk; [|exact E].
Qed.

Lemma accept_wr fd fl th h th' x : accept_blocking ho fd fl th h = Ok (th', x) -> sk_wr th' = sk_wr th.
Proof.
  unfold accept_blocking. cbv zeta. destruct (h_accept ho _ fd fl) as [[[h' ret] errno]|]; [|done].
  intros E. injection E as <- <-. cbn. apply opened_wr.
Qed.

Lemma sock_branch_wr f th h th' x : sock_branch ho cap host_ip f th h = Ok (th', x) -> sk_wr th' = sk_wr th.
Proof.
  destruct f; cbn [sock_branch]; intros E.
  - eapply with_body_wr; [exact E|]. intros th1 <- Ek. cbv beta zeta in Ek.
    destruct (h_socket ho h AF_INET _ _) as [[h' ret] errno]. injection Ek as <- <-. cbn. apply opened_wr.
  - eapply with_fd_wr; [exact E|]. intros fd th1 <- Ek. cbv beta in Ek.
    destruct (h_bind ho h fd _) as [[h' ret] errno]. by injection Ek as <- <-.
  - eapply with_fd_wr; [exact E|]. intros fd th1 <- Ek. by eapply accept_wr.
  - eapply with_body_wr; [exact E|]. intros th0 <- Ek0. eapply with_fd_wr; [exact Ek0|]. intros fd th1 <- Ek.
    by eapply accept_wr.
  - eapply with_body_wr; [exact E|]. intros th0 <- Ek0. eapply with_fd_wr; [exact Ek0|]. intros fd th1 <- Ek.
    cbv beta zeta in Ek. destruct (h_connect ho h fd _ _) as [[[h' ret] errno]|]; [|done]. by injection Ek as <- <-.
Qed.

Lemma pass_socket_closes f th th' : pass_socket f th = Ok th' ->
  sk_open th' = sk_open th ∖ (if makes_socket f && (0 <=? rsp_ret th) then {[rsp_ret th]} else ∅).
Proof.
  unfold pass_socket. destruct (makes_socket f && _); intros E.
  - unfold sk_send_fd in E. destruct (sk_send th) as [|n ns]; [done|]. cbn [mbind res_bind] in E. by injection E as <-.
  - injection E as <-. set_solver.
Qed.

End Descriptors.

(** C28: A request for a socket of the host, of a client that passes at most one descriptor
    with a message, that is refused, or is answered and the response written, leaves none of
    its descriptors open in the router: neither the one the client passed, nor the one the
    host made, nor the connection. *)
Theorem socket_request_keeps_no_descriptor {H} (ho : host H) `{!HostLaws ho} cap host_ip client_sock f th h th' h' :
  sock_request ho cap host_ip client_sock f th h = Ok (th', h') -> Forall passes_one (sk_msgs th) ->
  Forall (fun n => 4 <= n) (sk_wr th) ->
  sk_open th' ⊆ sk_open th ∖ {[client_sock]}.
Proof.
  intros E Hm Hw. unfold sock_request in E.
  destruct (sock_branch ho cap host_ip f th h) as [[th1 x]| | |] eqn:Eb; try done. cbn [mbind res_bind] in E.
  assert (sk_wr th1 = sk_wr th) as Hw1 by (by eapply sock_branch_wr).
  apply (sock_branch_opens ho cap host_ip) in Eb; [|done]. destruct x as [[h1 fd]|]; cbn [branch_opens] in Eb.
  2:{ injection E as <- <-. cbn [close set_sk_open sk_open]. set_solver. }
  unfold sk_write in E. destruct (sk_wr th1) as [|n ws] eqn:Ew; [done|]. cbn [mbind res_bind] in E.
  change (sizeof t_SOCKET_RSP) with 4 in E. rewrite <- Hw1 in Hw. apply Forall_cons in Hw as [Hn _].
  destruct (Z.ltb_spec n 4); [lia|]. set (th2 := mkSk _ _ _ _ _ _ _ _ _) in E.
  destruct (pass_socket f th2) as [th3| | |] eqn:Ep; try done. cbn [mbind res_bind] in E. injection E as <- <-.
  apply (pass_socket_closes ho) in Ep. change (rsp_ret th2) with (rsp_ret th1) in Ep. change (sk_open th2) with (sk_open th1) in Ep.
  unfold close_host. destruct (0 <=? fd); cbn [close set_sk_open sk_open]; rewrite Ep; set_solver.
Qed.

(** Two descriptors passed with one message fit the buffer; recv_fd gives up on them, the
    request is refused, and both stay open. *)
Theorem passed_pair_leaks {H} (ho : host H) cap host_ip client_sock th h fd1 fd2 msgs :
  sk_msgs th = SkControl SOL_SOCKET SCM_RIGHTS [fd1; fd2] :: msgs -> 0 <= fd1 -> 0 <= fd2 ->
  fd1 <> client_sock -> fd2 <> client_sock ->
  exists th', sock_request ho cap host_ip client_sock SOCKET_BIND th h = Ok (th', h) /\
    fd1 ∈ sk_open th' /\ fd2 ∈ sk_open th'.
Proof.
  intros Hm H1 H2 N1 N2. unfold sock_request. cbn [sock_branch]. unfold do_sock_bind, with_fd, sk_recv_fd. rewrite Hm.
  change (cmsg_len [fd1; fd2] =? CMSG_LEN_int) with false. cbn [mbind res_bind].
  change (-1 <? 0) with true. cbv iota. cbn [mbind res_bind].
  eexists. split; [reflexivity|]. change (passed_fds _) with [fd1; fd2]. cbn [foldr]. unfold opened.
  destruct (Z.ltb_spec fd1 0), (Z.ltb_spec fd2 0); try lia. cbn [close set_sk_open sk_open]. set_solver.
Qed.

Section Accept.
Context {H : Type} (ho : host H) `{!HostLaws ho} (cap host_ip client_sock : Z).

(** The host while the router waits on [fd]. *)
Definition blocking (h : H) (fd : Z) : H :=
  h_setfl ho h fd (Z.land (h_getfl ho h fd) (Z.lnot O_NONBLOCK)).

(** The branch for a descriptor that arrives and a connection that is accepted. *)
Lemma accept_branch th h fd msgs h1 c errno :
  sk_msgs th = SkControl SOL_SOCKET SCM_RIGHTS [fd] :: msgs -> 0 <= fd -> 0 <= c < 2 ^ 31 ->
  h_accept ho (blocking h fd) fd 0 = Some (h1, c, errno) ->
  exists th1, sock_branch ho cap host_ip SOCKET_ACCEPT th h = Ok (th1, Some (h_setfl ho h1 fd (h_getfl ho h fd), fd)) /\
    sk_wr th1 = sk_wr th /\ sk_send th1 = sk_send th /\ sk_passed th1 = sk_passed th /\ sk_out th1 = sk_out th /\
    read_bytes (sk_rsp th1) 0 4 = le_split 4 c /\ sk_open th1 = {[c]} ∪ ({[fd]} ∪ sk_open th).
Proof.
  intros Hm Hfd Hc Ha. cbn [sock_branch]. unfold do_accept, with_fd, sk_recv_fd. rewrite Hm.
  change (cmsg_len [fd] =? CMSG_LEN_int) with true. change (negb (SOL_SOCKET =? SOL_SOCKET)) with false.
  change (negb (SCM_RIGHTS =? SCM_RIGHTS)) with false. cbv iota. cbn [mbind res_bind].
  change (default (-1) (head [fd])) with fd. change (passed_fds _) with [fd]. cbn [foldr].
  destruct (Z.ltb_spec fd 0); [lia|]. unfold accept_blocking. unfold blocking in Ha. cbv zeta. rewrite Ha.
  eexists. split; [reflexivity|]. unfold opened, ret_value. destruct (Z.ltb_spec c 0); [lia|].
  destruct (Z.ltb_spec fd 0); [lia|]. do 4 (split; [done|]). split; [|done].
  cbn [store_ret sk_rsp set_sk_rsp]. rewrite u32_small by lia.
  pose proof (read_write (sk_rsp th) 0 (le_split 4 c)) as Hrw. by rewrite le_split_length in Hrw.
Qed.
End Accept.

(** Accepting for a client that passes an open socket: the router waits on it in blocking
    mode, whatever its flags; it then gives the flags back, writes the new descriptor's
    number to the client and passes the descriptor itself. *)
Theorem accept_passes_connection {H} (ho : host H) `{!HostLaws ho} cap host_ip client_sock th h fd msgs n ws k ks
  h1 c errno :
  sk_msgs th = SkControl SOL_SOCKET SCM_RIGHTS [fd] :: msgs -> 0 <= fd -> 0 <= c < 2 ^ 31 -> c <> fd ->
  0 <= h_getfl ho h fd ->
  sk_wr th = n :: ws -> 4 <= n -> sk_send th = k :: ks -> 0 <= k ->
  h_accept ho (blocking ho h fd) fd 0 = Some (h1, c, errno) ->
  Z.testbit (h_getfl ho (blocking ho h fd) fd) 11 = false /\
  exists th' h', sock_request ho cap host_ip client_sock SOCKET_ACCEPT th h = Ok (th', h') /\
    h_getfl ho h' fd = h_getfl ho h fd /\ sk_out th' = sk_out th ++ [le_split 4 c] /\
    sk_passed th' = sk_passed th ++ [c].
Proof.
  intros Hm Hfd Hc Hcf Hopen Hw Hn Hs Hk Ha.
  assert (Hb : h_getfl ho (blocking ho h fd) fd = Z.lor (Z.land (h_getfl ho h fd) (Z.lnot SETFL_MASK))
    (Z.land (Z.land (h_getfl ho h fd) (Z.lnot O_NONBLOCK)) SETFL_MASK)) by (unfold blocking; by rewrite hl_flags).
  assert (H1 : h_getfl ho h1 fd = h_getfl ho (blocking ho h fd) fd) by (eapply hl_accept_flags; [exact Ha|done]).
  assert (Hpos : 0 <= h_getfl ho h1 fd).
  { rewrite H1, Hb. apply Z.lor_nonneg. rewrite !Z.land_nonneg. split; [by left|by right]. }
  split.
  { rewrite Hb, Z.lor_spec, !Z.land_spec, !Z.lnot_spec by lia. change (Z.testbit SETFL_MASK 11) with true.
    change (Z.testbit O_NONBLOCK 11) with true. cbn [negb]. by rewrite !andb_false_r. }
  destruct (accept_branch ho cap host_ip th h fd msgs h1 c errno Hm Hfd Hc Ha)
    as (th1 & Eb & E1 & E2 & E3 & E4 & E5 & E6).
  unfold sock_request. rewrite Eb. cbn [mbind res_bind]. unfold sk_write. rewrite E1, Hw. cbn [mbind res_bind].
  change (sizeof t_SOCKET_RSP) with 4. destruct (Z.ltb_spec n 4); [lia|]. unfold pass_socket.
  assert (forall th2, sk_rsp th2 = sk_rsp th1 -> rsp_ret th2 = c) as Hret.
  { intros th2 E. unfold rsp_ret. rewrite E, E5, le_combine_split by (simpl; lia). apply s32_small. lia. }
  rewrite Hret by done. cbn [makes_socket andb]. destruct (Z.leb_spec 0 c); [|lia]. unfold sk_send_fd. cbn [sk_send].
  rewrite E2, Hs. destruct (Z.ltb_spec k 0); [lia|]. cbn [mbind res_bind].
  do 2 eexists. split; [reflexivity|]. split; [by rewrite hl_flags, H1, Hb, flags_restored by done|].
  unfold close_host. destruct (Z.leb_spec 0 fd); [|lia]. cbn [close set_sk_open sk_out sk_passed].
  by rewrite E3, E4, E5.
Qed.

(** When the response of an accept cannot be written, both the socket the client passed
    and the new connection stay open in the router after the thread has ended. *)
Theorem unwritten_accept_leaks {H} (ho : host H) `{!HostLaws ho} cap host_ip client_sock th h fd msgs n ws h1 c errno :
  sk_msgs th = SkControl SOL_SOCKET SCM_RIGHTS [fd] :: msgs -> 0 <= fd -> 0 <= c < 2 ^ 31 ->
  sk_wr th = n :: ws -> n < 4 -> fd <> client_sock -> c <> client_sock ->
  h_accept ho (blocking ho h fd) fd 0 = Some (h1, c, errno) ->
  exists th' h', sock_request ho cap host_ip client_sock SOCKET_ACCEPT th h = Ok (th', h') /\
    fd ∈ sk_open th' /\ c ∈ sk_open th' /\ sk_passed th' = sk_passed th.
Proof.
  intros Hm Hfd Hc Hw Hn Hne1 Hne2 Ha.
  destruct (accept_branch ho cap host_ip th h fd msgs h1 c errno Hm Hfd Hc Ha)
    as (th1 & Eb & E1 & E2 & E3 & E4 & E5 & E6).
  unfold sock_request. rewrite Eb. cbn [mbind res_bind]. unfold sk_write. rewrite E1, Hw. cbn [mbind res_bind].
  change (sizeof t_SOCKET_RSP) with 4. destruct (Z.ltb_spec n 4); [|lia].
  do 2 eexists. split; [reflexivity|]. cbn [close set_sk_open sk_open sk_passed]. rewrite E6. set_solver.
Qed.

(** ** An example *)

(** A host that keeps the flags of its open descriptors and hands out the descriptor 30. *)
Definition ex_host : host (gmap Z Z) :=
  mkHost _ (fun h _ _ _ => (h, 30, 0)) (fun h _ _ => (h, 0, 0)) (fun h _ _ => Some (h, 30, 0))
    (fun h _ _ _ => Some (h, 0, 0)) (fun h fd => default (-1) (h !! fd))
    (fun h fd v => match h !! fd with
                   | Some old => <[fd := Z.lor (Z.land old (Z.lnot SETFL_MASK)) (Z.land v SETFL_MASK)]> h
                   | None => h
                   end).

#[export] Instance ex_host_laws : HostLaws ex_host.
Proof.
  split; cbn; intros; simplify_eq; try (right; lia); try done.
  destruct (h !! fd) as [old|] eqn:E; cbn in *; [by rewrite lookup_insert_eq|lia].
Qed.

Definition ex_sk (n : Z) : sk_thread :=
  mkSk [] [n] [SkControl SOL_SOCKET SCM_RIGHTS [21]] [2] (fun _ => 0) (fun _ => 0) {[5]} [] [].

Lemma passed_pair_leaks_witness : exists th',
  sock_request ex_host 255 0 5 SOCKET_BIND
    (mkSk [] [4] [SkControl SOL_SOCKET SCM_RIGHTS [21; 22]] [] (fun _ => 0) (fun _ => 0) {[5]} [] []) ∅ = Ok (th', ∅) /\
  21 ∈ sk_open th' /\ 22 ∈ sk_open th'.
Proof. by eapply passed_pair_leaks. Defined.

Lemma accept_passes_connection_witness : exists th' h',
  sock_request ex_host 255 0 5 SOCKET_ACCEPT (ex_sk 4) {[21 := 2050]} = Ok (th', h') /\
  h_getfl ex_host h' 21 = 2050 /\ sk_passed th' = [30].
Proof.
  destruct (accept_passes_connection ex_host 255 0 5 (ex_sk 4) {[21 := 2050]} 21 [] 4 [] 2 []
    (blocking ex_host {[21 := 2050]} 21) 30 0) as [_ (th' & h' & E & Hf & _ & Hp)]; try done.
  exists th', h'. split; [exact E|]. split; [exact Hf|exact Hp].
Defined.

Lemma socket_request_keeps_no_descriptor_witness : exists th' h',
  sock_request ex_host 255 0 5 SOCKET_ACCEPT (ex_sk 4) {[21 := 2050]} = Ok (th', h') /\ sk_open th' ⊆ {[5]} ∖ {[5]}.
Proof.
  destruct (sock_request ex_host 255 0 5 SOCKET_ACCEPT (ex_sk 4) {[21 := 2050]}) as [[th' h']| | |] eqn:E;
    [|vm_compute in E; discriminate E..].
  exists th', h'. split; [reflexivity|].
  apply (socket_request_keeps_no_descriptor ex_host 255 0 5 SOCKET_ACCEPT (ex_sk 4) {[21 := 2050]} th' h' E);
    repeat constructor; lia.
Defined.

Lemma unwritten_accept_leaks_witness : exists th' h',
  sock_request ex_host 255 0 5 SOCKET_ACCEPT (ex_sk (-1)) {[21 := 2050]} = Ok (th', h') /\
  21 ∈ sk_open th' /\ 30 ∈ sk_open th'.
Proof.
  destruct (unwritten_accept_leaks ex_host 255 0 5 (ex_sk (-1)) {[21 := 2050]} 21 [] (-1) []
    (blocking ex_host {[21 := 2050]} 21) 30 0) as (th' & h' & E & H1 & H2 & _); try done.
  exists th', h'. split; [exact E|]. by split.
Defined.
