(* ===== verification/RsTypes.v ===== *)
(** * Stream sockets over RDMA: types (librdmacm, src/rsocket.c)

    An rsocket sends by writing into the receive buffer of its peer.  This file has the
    constants, the format of messages and work request identifiers, [struct rsocket] as
    far as a stream uses it, and the operations of the device. *)

From S2P Require Import Prelude CLayout Wire CmdCtrl Verbs CmTypes CmRoute.

(** ** Constants *)

Definition RS_OLAP_START_SIZE : Z := 2048.
Definition RS_MAX_TRANSFER : Z := 65536.
Definition RS_SNDLOWAT : Z := 2048.
Definition RS_QP_MIN_SIZE : Z := 16.
Definition RS_QP_MAX_SIZE : Z := 65534.
Definition RS_QP_CTRL_SIZE : Z := 4.
Definition RS_CONN_RETRIES : Z := 6.
Definition RS_SGL_SIZE : Z := 2.

Definition RS_OP_DATA : Z := 0.
Definition RS_OP_WRITE : Z := 2.
Definition RS_OP_SGL : Z := 4.
Definition RS_OP_IOMAP_SGL : Z := 6.
Definition RS_OP_CTRL : Z := 7.

Definition RS_CTRL_DISCONNECT : Z := 0.
Definition RS_CTRL_SHUTDOWN : Z := 2.

(** [enum rs_state] *)
Definition rs_init : Z := 0.
Definition rs_bound : Z := 1.
Definition rs_listening : Z := 2.
Definition rs_opening : Z := 4.
Definition rs_resolving_addr : Z := Z.lor rs_opening 16.
Definition rs_resolving_route : Z := Z.lor rs_opening 32.
Definition rs_connecting : Z := Z.lor rs_opening 64.
Definition rs_accepting : Z := Z.lor rs_opening 128.
Definition rs_connected : Z := 256.
Definition rs_writable : Z := 512.
Definition rs_readable : Z := 1024.
Definition rs_connect_rdwr : Z := Z.lor rs_connected (Z.lor rs_readable rs_writable).
Definition rs_connect_error : Z := 2048.
Definition rs_disconnected : Z := 4096.
Definition rs_error : Z := 8192.

Definition RS_OPT_SWAP_SGL : Z := 1.
Definition RS_OPT_MSG_SEND : Z := 2.

(** [x & bit] as a condition *)
Definition has (x bit : Z) : bool := negb (Z.land x bit =? 0).

(** Conversion to [short] *)
Definition s16 (x : Z) : Z := let y := u16 x in if y <? 2 ^ 15 then y else y - 2 ^ 16.

(** ** Messages *)

Definition rs_msg_set (op data : Z) : Z := Z.lor (u32 (Z.shiftl op 29)) (u32 data).
Definition rs_msg_op (imm_data : Z) : Z := Z.shiftr imm_data 29.
Definition rs_msg_data (imm_data : Z) : Z := Z.land imm_data 536870911.
Definition RS_MSG_SIZE : Z := 4.

Definition RS_WR_ID_FLAG_RECV : Z := 2 ^ 63.
Definition RS_WR_ID_FLAG_MSG_SEND : Z := 2 ^ 62.
Definition rs_send_wr_id (data : Z) : Z := data.
Definition rs_recv_wr_id (data : Z) : Z := Z.lor RS_WR_ID_FLAG_RECV data.
Definition rs_wr_is_recv (wr_id : Z) : bool := has wr_id RS_WR_ID_FLAG_RECV.
Definition rs_wr_is_msg_send (wr_id : Z) : bool := has wr_id RS_WR_ID_FLAG_MSG_SEND.
Definition rs_wr_data (wr_id : Z) : Z := u32 wr_id.

Record rs_msg : Type := mkRsMsg { m_op : Z; m_data : Z }.
Record rs_sge : Type := mkRsSge { rg_addr : Z; rg_key : Z; rg_length : Z }.

(** [struct rs_sge] and [struct rs_iomap] in memory *)
Definition t_rs_sge : cty := Struct [I64; I32; I32].
Definition t_rs_iomap : cty := Struct [I64; t_rs_sge].
Definition sizeof_rs_sge : Z := 16.
Definition sizeof_rs_iomap : Z := 24.
Definition RS_MAX_CTRL_MSG : Z := sizeof_rs_sge.

Definition sge_bytes (s : rs_sge) : list Z :=
  le_split 8 (rg_addr s) ++ le_split 4 (rg_key s) ++ le_split 4 (rg_length s).
Definition read_sge (m : mem) (a : Z) : rs_sge :=
  mkRsSge (le_combine (read_bytes m a 8)) (le_combine (read_bytes m (a + 8) 4))
    (le_combine (read_bytes m (a + 12) 4)).

(** ** The socket

    The fields of [struct rsocket] that a stream uses, by who changes them: those set
    when the connection is made, those of [rsend], those of [rrecv], and those for the
    processing of completions. *)

Record rs_conf : Type := mkRsConf {
  rs_opts : Z;
  fd_flags : Z;
  sbuf : Z;
  sbuf_size : Z;
  sq_size : Z;
  smr_lkey : Z;
  rbuf : Z;
  rbuf_size : Z;
  rq_size : Z;
  rmr_lkey : Z;
  rmr_rkey : Z;
  target_sgl : Z;
  target_mr_rkey : Z;
  target_iomap_size : Z;
  remote_sgl : rs_sge;
  remote_iomap : rs_sge }.

(** An entry of [iomap_queue] *)
Record rs_iomap_mr : Type := mkIomr {
  im_offset : Z; im_addr : Z; im_length : Z; im_rkey : Z; im_index : Z }.

Record rs_snd : Type := mkRsSnd {
  sseq_no : Z;
  sseq_comp : Z;
  target_sge : Z;
  ssgl0_addr : Z;
  sbuf_bytes_avail : Z;
  sqe_avail : Z;
  iomap_queue : list rs_iomap_mr;
  iomap_list : list rs_iomap_mr;
  iomap_pending : bool }.

Record rs_rcv : Type := mkRsRcv {
  rseq_no : Z;
  rmsg : list rs_msg;
  rmsg_head : Z;
  rmsg_tail : Z;
  rbuf_bytes_avail : Z;
  rbuf_free_offset : Z;
  rbuf_offset : Z;
  rbuf_msg_index : Z }.

Record rs_ctl : Type := mkRsCtl {
  rseq_comp : Z;
  ctrl_seqno : Z;
  ctrl_max_seqno : Z;
  remote_sge : Z;
  rs_state : Z;
  rs_err : Z;
  retries : Z;
  cq_armed : bool;
  unack_cqe : Z }.

Record rsocket : Type := mkRs {
  rs_cf : rs_conf;
  rs_s : rs_snd;
  rs_r : rs_rcv;
  rs_c : rs_ctl }.

(** ** Updates *)

Definition set_s (x : rs_snd) (rs : rsocket) : rsocket := mkRs (rs_cf rs) x (rs_r rs) (rs_c rs).
Definition set_r (x : rs_rcv) (rs : rsocket) : rsocket := mkRs (rs_cf rs) (rs_s rs) x (rs_c rs).
Definition set_c (x : rs_ctl) (rs : rsocket) : rsocket := mkRs (rs_cf rs) (rs_s rs) (rs_r rs) x.
Definition set_cf (x : rs_conf) (rs : rsocket) : rsocket := mkRs x (rs_s rs) (rs_r rs) (rs_c rs).

Definition set_state (z : Z) (c : rs_ctl) : rs_ctl :=
  mkRsCtl (rseq_comp c) (ctrl_seqno c) (ctrl_max_seqno c) (remote_sge c) z (rs_err c) (retries c)
    (cq_armed c) (unack_cqe c).
Definition set_err (z : Z) (c : rs_ctl) : rs_ctl :=
  mkRsCtl (rseq_comp c) (ctrl_seqno c) (ctrl_max_seqno c) (remote_sge c) (rs_state c) z (retries c)
    (cq_armed c) (unack_cqe c).
Definition set_retries (z : Z) (c : rs_ctl) : rs_ctl :=
  mkRsCtl (rseq_comp c) (ctrl_seqno c) (ctrl_max_seqno c) (remote_sge c) (rs_state c) (rs_err c) z
    (cq_armed c) (unack_cqe c).
Definition set_armed (b : bool) (n : Z) (c : rs_ctl) : rs_ctl :=
  mkRsCtl (rseq_comp c) (ctrl_seqno c) (ctrl_max_seqno c) (remote_sge c) (rs_state c) (rs_err c)
    (retries c) b n.
Definition set_ctrl (n max : Z) (c : rs_ctl) : rs_ctl :=
  mkRsCtl (rseq_comp c) n max (remote_sge c) (rs_state c) (rs_err c) (retries c) (cq_armed c)
    (unack_cqe c).
Definition set_rseq_comp (n : Z) (c : rs_ctl) : rs_ctl :=
  mkRsCtl n (ctrl_seqno c) (ctrl_max_seqno c) (remote_sge c) (rs_state c) (rs_err c) (retries c)
    (cq_armed c) (unack_cqe c).
Definition set_remote_sge (n : Z) (c : rs_ctl) : rs_ctl :=
  mkRsCtl (rseq_comp c) (ctrl_seqno c) (ctrl_max_seqno c) n (rs_state c) (rs_err c) (retries c)
    (cq_armed c) (unack_cqe c).

Definition set_sseq_comp (n : Z) (s : rs_snd) : rs_snd :=
  mkRsSnd (sseq_no s) n (target_sge s) (ssgl0_addr s) (sbuf_bytes_avail s) (sqe_avail s)
    (iomap_queue s) (iomap_list s) (iomap_pending s).
Definition set_ssgl0 (a : Z) (s : rs_snd) : rs_snd :=
  mkRsSnd (sseq_no s) (sseq_comp s) (target_sge s) a (sbuf_bytes_avail s) (sqe_avail s)
    (iomap_queue s) (iomap_list s) (iomap_pending s).
Definition set_avail (bytes sqe : Z) (s : rs_snd) : rs_snd :=
  mkRsSnd (sseq_no s) (sseq_comp s) (target_sge s) (ssgl0_addr s) bytes sqe
    (iomap_queue s) (iomap_list s) (iomap_pending s).
Definition set_iomaps (q l : list rs_iomap_mr) (b : bool) (s : rs_snd) : rs_snd :=
  mkRsSnd (sseq_no s) (sseq_comp s) (target_sge s) (ssgl0_addr s) (sbuf_bytes_avail s)
    (sqe_avail s) q l b.

Definition set_rmsg (l : list rs_msg) (tail : Z) (r : rs_rcv) : rs_rcv :=
  mkRsRcv (rseq_no r) l (rmsg_head r) tail (rbuf_bytes_avail r) (rbuf_free_offset r)
    (rbuf_offset r) (rbuf_msg_index r).
Definition set_free (bytes off : Z) (r : rs_rcv) : rs_rcv :=
  mkRsRcv (rseq_no r) (rmsg r) (rmsg_head r) (rmsg_tail r) bytes off (rbuf_offset r)
    (rbuf_msg_index r).
Definition set_msg_index (n : Z) (r : rs_rcv) : rs_rcv :=
  mkRsRcv (rseq_no r) (rmsg r) (rmsg_head r) (rmsg_tail r) (rbuf_bytes_avail r)
    (rbuf_free_offset r) (rbuf_offset r) n.

(** ** The device *)

(** What [rs_poll_cq] reads of a completion; [wc_imm] is there when its flag is. *)
Record rs_wc : Type := mkRsWc { rw_id : Z; rw_ok : bool; rw_imm : option Z }.

Inductive polled : Type := PollNone | PollErr (e : Z) | PollOne (w : rs_wc).

(** Work requests of [ibv_post_send] and [ibv_post_recv]; the words of the union that
    the code does not set are 0. *)
Definition rs_wr (wr_id : Z) (sgl : list ibv_sge) (opcode flags imm addr rkey : Z) : app_send_wr :=
  mkAppSend (mkSendWr wr_id PNull (if sgl is [] then PNull else PAddr 0) (Z.of_nat (length sgl))
               opcode flags imm (mkUnion addr rkey 0 0 0) []) sgl None.
Definition rs_rwr (wr_id : Z) (sgl : list ibv_sge) : app_recv_wr :=
  mkAppRecv (mkRecvWr wr_id PNull (if sgl is [] then PNull else PAddr 0) (Z.of_nat (length sgl))) sgl.

Definition IBV_SEND_INLINE : Z := 8.

(** The queue pair and completion queue of a socket.  Whatever the peer writes into the
    memory of the process it writes, for the functions below, while they poll. *)
Record rs_dev (D : Type) : Type := mkRsDev {
  q_post_send : D -> app_send_wr -> D * Z;
  q_post_recv : D -> app_recv_wr -> D * Z;
  q_poll : D -> mem -> D * mem * polled;
  q_notify : D -> D;
  q_event : D -> D * Z;
  q_ack : D -> Z -> D;
  q_clock : D -> D * Z }.
Arguments q_post_send {D}.
Arguments q_post_recv {D}.
Arguments q_poll {D}.
Arguments q_notify {D}.
Arguments q_event {D}.
Arguments q_ack {D}.
Arguments q_clock {D}.

(** A thread inside of the library. *)
Record rst (D : Type) : Type := mkRst {
  t_rs : rsocket; t_mem : mem; t_dev : D; t_errno : Z }.
Arguments mkRst {D}.
Arguments t_rs {D}.
Arguments t_mem {D}.
Arguments t_dev {D}.
Arguments t_errno {D}.

Definition EAGAIN : Z := 11.
Definition EWOULDBLOCK : Z := EAGAIN.
Definition EINTR : Z := 4.
Definition EIO : Z := 5.
Definition ECONNRESET : Z := 104.
