(* ===== verification/RsPost.v ===== *)
(** * Stream sockets: posting and completions (rsocket.c)

    Work requests for data and for credits, and what completions do to the socket, from
    [rs_post_recv] to [rs_poll_cq].  Functions that post take the state of a thread and
    give the function's result with the new state. *)

From S2P Require Import Prelude CLayout Wire CmdCtrl Verbs CmTypes CmRoute RsTypes.

Section Post.
Context {D : Type} (dv : rs_dev D).
Implicit Types t : rst D.

Definition upd (f : rsocket -> rsocket) t : rst D := mkRst (f (t_rs t)) (t_mem t) (t_dev t) (t_errno t).
Definition upd_s (f : rs_snd -> rs_snd) t : rst D := upd (fun rs => set_s (f (rs_s rs)) rs) t.
Definition upd_r (f : rs_rcv -> rs_rcv) t : rst D := upd (fun rs => set_r (f (rs_r rs)) rs) t.
Definition upd_c (f : rs_ctl -> rs_ctl) t : rst D := upd (fun rs => set_c (f (rs_c rs)) rs) t.
Definition with_mem (m : mem) t : rst D := mkRst (t_rs t) m (t_dev t) (t_errno t).
Definition with_dev (d : D) t : rst D := mkRst (t_rs t) (t_mem t) d (t_errno t).
Definition with_errno (e : Z) t : rst D := mkRst (t_rs t) (t_mem t) (t_dev t) e.

Abbreviation cf t := (rs_cf (t_rs t)).
Abbreviation snd t := (rs_s (t_rs t)).
Abbreviation rcv t := (rs_r (t_rs t)).
Abbreviation ctl t := (rs_c (t_rs t)).

(** [ERR] and [rdma_seterrno] *)
Definition err (e : Z) t : rst D * Z := (with_errno e t, -1).
Definition rdma_seterrno (r : rst D * Z) : rst D * Z :=
  let '(t, ret) := r in if ret =? 0 then (t, 0) else (with_errno ret t, -1).

Definition post_send (w : app_send_wr) t : rst D * Z :=
  let '(d, ret) := q_post_send dv (t_dev t) w in rdma_seterrno (with_dev d t, ret).

Definition msg_send t : bool := has (rs_opts (cf t)) RS_OPT_MSG_SEND.

(** ** Receives *)

Definition rs_post_recv t : rst D * Z :=
  let '(w, t) :=
    if negb (msg_send t) then (rs_rwr (rs_recv_wr_id 0) [], t)
    else
      let i := rbuf_msg_index (rcv t) in
      (rs_rwr (rs_recv_wr_id i)
         [mkSge (u64 (rbuf (cf t) + rbuf_size (cf t) + i * RS_MSG_SIZE)) RS_MSG_SIZE (rmr_lkey (cf t))],
       upd_r (set_msg_index (if i + 1 =? rq_size (cf t) then 0 else i + 1)) t) in
  let '(d, ret) := q_post_recv dv (t_dev t) w in
  rdma_seterrno (with_dev d t, ret).

(** ** Messages and writes *)

(** [msg] is on the stack when it is sent inline: its bytes are not part of the memory. *)
Definition rs_post_msg (msg : Z) t : rst D * Z :=
  if negb (msg_send t) then
    post_send (rs_wr (rs_send_wr_id msg) [] IBV_WR_RDMA_WRITE_WITH_IMM 0 (bswap 4 msg) 0 0) t
  else
    post_send (rs_wr (rs_send_wr_id msg) [mkSge 0 4 0] IBV_WR_SEND IBV_SEND_INLINE 0 0 0) t.

Definition rs_post_write (sgl : list ibv_sge) (wr_data flags addr rkey : Z) t : rst D * Z :=
  post_send (rs_wr (rs_send_wr_id wr_data) sgl IBV_WR_RDMA_WRITE flags 0 addr rkey) t.

Definition rs_post_write_msg (sgl : list ibv_sge) (msg flags addr rkey : Z) t : rst D * Z :=
  if negb (msg_send t) then
    post_send (rs_wr (rs_send_wr_id msg) sgl IBV_WR_RDMA_WRITE_WITH_IMM flags (bswap 4 msg) addr rkey) t
  else
    let '(t, ret) := rs_post_write sgl msg flags addr rkey t in
    if ret =? 0 then
      let wr_id := Z.lor (rs_send_wr_id (rs_msg_set (rs_msg_op msg) 0)) RS_WR_ID_FLAG_MSG_SEND in
      post_send (rs_wr wr_id [mkSge 0 4 0] IBV_WR_SEND IBV_SEND_INLINE 0 0 0) t
    else (t, ret).

(** [rs->target_sgl[i]] *)
Definition target_at t (i : Z) : Z := target_sgl (cf t) + i * sizeof_rs_sge.
Definition target t : rs_sge := read_sge (t_mem t) (target_at t (target_sge (snd t))).

(** The credit, the queue entries and the bytes that a message takes. *)
Definition take_credit (length : Z) t : rst D :=
  upd_s (fun s => mkRsSnd (u16 (sseq_no s + 1)) (sseq_comp s) (target_sge s) (ssgl0_addr s)
    (sbuf_bytes_avail s - length) (sqe_avail s - (if msg_send t then 2 else 1))
    (iomap_queue s) (iomap_list s) (iomap_pending s)) t.

Definition next_target t : rst D :=
  upd_s (fun s => mkRsSnd (sseq_no s) (sseq_comp s)
    (if target_sge s + 1 =? RS_SGL_SIZE then 0 else target_sge s + 1) (ssgl0_addr s)
    (sbuf_bytes_avail s) (sqe_avail s) (iomap_queue s) (iomap_list s) (iomap_pending s)) t.

Definition rs_write_data (sgl : list ibv_sge) (length flags : Z) t : rst D * Z :=
  let t := take_credit length t in
  let a := target_at t (target_sge (snd t)) in
  let g := target t in
  let m1 := write_bytes (t_mem t) a (le_split 8 (u64 (rg_addr g + length))) in
  let m2 := write_bytes m1 (a + 12) (le_split 4 (u32 (rg_length g - length))) in
  let t := with_mem m2 t in
  let t := if u32 (rg_length g - length) =? 0 then next_target t else t in
  rs_post_write_msg sgl (rs_msg_set RS_OP_DATA length) flags (rg_addr g) (rg_key g) t.

Definition rs_write_direct (iom : Z * rs_sge) (offset : Z) (sgl : list ibv_sge) (length flags : Z) t
  : rst D * Z :=
  let t := upd_s (fun s => set_avail (sbuf_bytes_avail s - length) (sqe_avail s - 1) s) t in
  rs_post_write sgl (rs_msg_set RS_OP_WRITE length) flags
    (u64 (rg_addr iom.2 + offset - iom.1)) (rg_key iom.2) t.

Definition rs_write_iomap (iomr : rs_iomap_mr) (sgl : list ibv_sge) (flags : Z) t : rst D * Z :=
  let t := take_credit sizeof_rs_iomap t in
  rs_post_write_msg sgl (rs_msg_set RS_OP_IOMAP_SGL (im_index iomr)) flags
    (u64 (rg_addr (remote_iomap (cf t)) + im_index iomr * sizeof_rs_iomap))
    (rg_key (remote_iomap (cf t))) t.

Definition rs_sbuf_left t : Z := u32 (sbuf (cf t) + sbuf_size (cf t) - ssgl0_addr (snd t)).

(** ** Credits *)

Definition rs_get_ctrl_buf t : Z :=
  sbuf (cf t) + sbuf_size (cf t) + RS_MAX_CTRL_MSG * Z.land (ctrl_seqno (ctl t)) (RS_QP_CTRL_SIZE - 1).

Definition half t : Z := Z.shiftr (rbuf_size (cf t)) 1.

Definition incr_ctrl t : rst D := upd_c (fun c => set_ctrl (u32 (ctrl_seqno c + 1)) (ctrl_max_seqno c) c) t.

(** The next free half of the receive buffer, as the peer reads it. *)
Definition free_half t : rs_sge :=
  let addr := u64 (rbuf (cf t) + rbuf_free_offset (rcv t)) in
  if has (rs_opts (cf t)) RS_OPT_SWAP_SGL
  then mkRsSge (bswap 8 addr) (bswap 4 (rmr_rkey (cf t))) (bswap 4 (half t))
  else mkRsSge addr (rmr_rkey (cf t)) (half t).

Definition credit_msg t : Z := rs_msg_set RS_OP_SGL (rseq_no (rcv t) + rq_size (cf t)).

Definition rs_send_credits t : rst D :=
  let t := incr_ctrl t in
  let t := upd_c (set_rseq_comp (u16 (rseq_no (rcv t) + Z.shiftr (rq_size (cf t)) 1))) t in
  if half t <=? u32 (rbuf_bytes_avail (rcv t)) then
    let t := if msg_send t then incr_ctrl t else t in
    let sge_buf := rs_get_ctrl_buf t in
    let t := with_mem (write_bytes (t_mem t) sge_buf (sge_bytes (free_half t))) t in
    let t := (rs_post_write_msg [mkSge sge_buf sizeof_rs_sge (smr_lkey (cf t))] (credit_msg t) 0
                (u64 (rg_addr (remote_sgl (cf t)) + remote_sge (ctl t) * sizeof_rs_sge))
                (rg_key (remote_sgl (cf t))) t).1 in
    let off := rbuf_free_offset (rcv t) + half t in
    let t := upd_r (fun r => set_free (rbuf_bytes_avail r - half t)
                               (if rbuf_size (cf t) <=? off then 0 else off) r) t in
    upd_c (fun c => set_remote_sge (if remote_sge c + 1 =? rg_length (remote_sgl (cf t)) then 0
                                    else remote_sge c + 1) c) t
  else (rs_post_msg (credit_msg t) t).1.

Definition rs_ctrl_avail t : bool := negb (ctrl_seqno (ctl t) =? ctrl_max_seqno (ctl t)).
Definition rs_2ctrl_avail t : bool := s32 (u32 (u32 (ctrl_seqno (ctl t) + 1) - ctrl_max_seqno (ctl t))) <? 0.

Definition rs_give_credits t : bool :=
  ((half t <=? u32 (rbuf_bytes_avail (rcv t)))
   || (0 <=? s16 (s16 (rseq_no (rcv t)) - s16 (rseq_comp (ctl t)))))
  && (if msg_send t then rs_2ctrl_avail t else rs_ctrl_avail t)
  && has (rs_state (ctl t)) rs_connected.

Definition rs_update_credits t : rst D := if rs_give_credits t then rs_send_credits t else t.

(** ** Completions *)

(** The message of a receive: immediate data, or the word the peer sent. *)
Definition wc_msg (w : rs_wc) t : Z :=
  match rw_imm w with
  | Some imm => bswap 4 imm
  | None => le_combine (read_bytes (t_mem t) (rbuf (cf t) + rbuf_size (cf t) + 4 * rs_wr_data (rw_id w)) 4)
  end.

(** A received message.  The boolean: the function returns 0 at once. *)
Definition handle_msg (msg : Z) t : res (rst D * bool) :=
  let op := rs_msg_op msg in
  if op =? RS_OP_SGL then Ok (upd_s (set_sseq_comp (u16 (rs_msg_data msg))) t, false)
  else if op =? RS_OP_IOMAP_SGL then Ok (t, false)
  else if op =? RS_OP_CTRL then
    if rs_msg_data msg =? RS_CTRL_DISCONNECT then Ok (upd_c (set_state rs_disconnected) t, true)
    else if rs_msg_data msg =? RS_CTRL_SHUTDOWN then
      if has (rs_state (ctl t)) rs_writable
      then Ok (upd_c (fun c => set_state (Z.land (rs_state c) (Z.lnot rs_readable)) c) t, false)
      else Ok (upd_c (set_state rs_disconnected) t, true)
    else Ok (t, false)
  else if op =? RS_OP_WRITE then Ok (t, false)
  else
    let tail := rmsg_tail (rcv t) in
    if (0 <=? tail) && (tail <? Z.of_nat (length (rmsg (rcv t)))) then
      Ok (upd_r (fun r => set_rmsg (<[Z.to_nat tail := mkRsMsg op (rs_msg_data msg)]> (rmsg r))
                            (if tail + 1 =? rq_size (cf t) + 1 then 0 else tail + 1) r) t, false)
    else Ub.

(** The completion of a send. *)
Definition handle_sent (w : rs_wc) t : rst D :=
  let d := rs_wr_data (rw_id w) in
  let op := rs_msg_op d in
  let t :=
    if op =? RS_OP_SGL then upd_c (fun c => set_ctrl (ctrl_seqno c) (u32 (ctrl_max_seqno c + 1)) c) t
    else if op =? RS_OP_CTRL then
      let t := upd_c (fun c => set_ctrl (ctrl_seqno c) (u32 (ctrl_max_seqno c + 1)) c) t in
      if rs_msg_data d =? RS_CTRL_DISCONNECT then upd_c (set_state rs_disconnected) t else t
    else if op =? RS_OP_IOMAP_SGL then
      upd_s (fun s => set_avail (sbuf_bytes_avail s + (if rs_wr_is_msg_send (rw_id w) then 0 else sizeof_rs_iomap))
                        (sqe_avail s + 1) s) t
    else upd_s (fun s => set_avail (sbuf_bytes_avail s + rs_msg_data d) (sqe_avail s + 1) s) t in
  if negb (rw_ok w) && has (rs_state (ctl t)) rs_connected
  then upd_c (fun c => set_err EIO (set_state rs_error c)) t else t.

(** One completion; the number of receives, and whether the function returns at once. *)
Definition handle_wc (w : rs_wc) (rcnt : Z) t : res (rst D * Z * bool) :=
  if rs_wr_is_recv (rw_id w) then
    if negb (rw_ok w) then Ok (t, rcnt, false) else
    '(t, stop) ← handle_msg (wc_msg w t) t; Ok (t, rcnt + 1, stop)
  else Ok (handle_sent w t, rcnt, false).

(** [while (!ret && rcnt--)] *)
Fixpoint repost (rcnt : nat) t : rst D * Z :=
  match rcnt with
  | O => (t, 0)
  | S n => let '(t, ret) := rs_post_recv t in if ret =? 0 then repost n t else (t, ret)
  end.

Definition poll_end (ret rcnt : Z) t : rst D * Z :=
  if has (rs_state (ctl t)) rs_connected then
    let '(t, ret) := if ret =? 0 then repost (Z.to_nat rcnt) t else (t, ret) in
    if ret =? 0 then (t, 0)
    else (upd_c (fun c => set_err (t_errno t) (set_state rs_error c)) t, ret)
  else (t, ret).

(** At most [fuel] completions. *)
Fixpoint rs_poll_loop (fuel : nat) (rcnt : Z) t : res (rst D * Z) :=
  match fuel with
  | O => Spin
  | S fuel' =>
      let '(d, m, x) := q_poll dv (t_dev t) (t_mem t) in
      let t := with_dev d (with_mem m t) in
      match x with
      | PollNone => Ok (poll_end 0 rcnt t)
      | PollErr e => Ok (poll_end e rcnt t)
      | PollOne w =>
          '(t, rcnt, stop) ← handle_wc w rcnt t;
          if stop : bool then Ok (t, 0) else rs_poll_loop fuel' rcnt t
      end
  end.

Definition rs_poll_cq (fuel : nat) t : res (rst D * Z) := rs_poll_loop fuel 0 t.

End Post.
