(* ===== verification/RsStream.v ===== *)
(** * Stream sockets: sending and receiving (rsocket.c)

    Waiting for completions, and the calls of the application on a connected stream:
    [rsend], [rsendv], [rrecv], [rs_peek] and [rshutdown].  The loops of these functions
    end when the device lets them: [fuel] bounds their rounds and the completions of a
    poll. *)

From S2P Require Import Prelude CLayout Wire CmdCtrl Verbs CmTypes CmRoute RsTypes RsPost.

Section Stream.
Context {D : Type} (dv : rs_dev D) (fuel : nat) (polling_time : Z).
Implicit Types t : rst D.

Abbreviation cf t := (rs_cf (t_rs t)).
Abbreviation snd t := (rs_s (t_rs t)).
Abbreviation rcv t := (rs_r (t_rs t)).
Abbreviation ctl t := (rs_c (t_rs t)).

(** ** Waiting *)

Definition rs_get_cq_event t : rst D * Z :=
  if negb (cq_armed (ctl t)) then (t, 0) else
  let '(d, ret) := q_event dv (t_dev t) in
  let t := with_dev d t in
  if ret =? 0 then
    let n := unack_cqe (ctl t) + 1 in
    let t := if sq_size (cf t) + rq_size (cf t) <=? n
             then upd_c (set_armed (cq_armed (ctl t)) 0) (with_dev (q_ack dv (t_dev t) n) t)
             else upd_c (set_armed (cq_armed (ctl t)) n) t in
    (upd_c (fun c => set_armed false (unack_cqe c) c) t, 0)
  else
    let t := with_errno ret t in
    ((if negb ((ret =? EAGAIN) || (ret =? EINTR)) then upd_c (set_state rs_error) t else t), -1).

(** One round of the loop of [rs_process_cq]: [Some ret] ends it. *)
Definition process_round (nonblock : bool) (test : rst D -> bool) t : res (rst D * option Z) :=
  let t := rs_update_credits dv t in
  '(t, ret) ← rs_poll_cq dv fuel t;
  if test t then Ok (t, Some 0)
  else if negb (ret =? 0) then Ok (t, Some ret)
  else if nonblock then Ok (with_errno EWOULDBLOCK t, Some (-1))
  else if negb (cq_armed (ctl t)) then
    let t := with_dev (q_notify dv (t_dev t)) t in
    Ok (upd_c (fun c => set_armed true (unack_cqe c) c) t, None)
  else
    let '(t, ret) := rs_get_cq_event (rs_update_credits dv t) in
    Ok (t, if ret =? 0 then None else Some ret).

Fixpoint process_loop (n : nat) (nonblock : bool) (test : rst D -> bool) t : res (rst D * Z) :=
  match n with
  | O => Spin
  | S n' =>
      '(t, x) ← process_round nonblock test t;
      match x with
      | Some ret => Ok (rs_update_credits dv t, ret)
      | None => process_loop n' nonblock test t
      end
  end.

Definition rs_process_cq (nonblock : bool) (test : rst D -> bool) t : res (rst D * Z) :=
  process_loop fuel nonblock test t.

(** [start]: the time of the first look, 0 before it. *)
Fixpoint comp_loop (n : nat) (start : option Z) (nonblock : bool) (test : rst D -> bool) t
  : res (rst D * Z) :=
  match n with
  | O => Spin
  | S n' =>
      '(t, ret) ← rs_process_cq true test t;
      if (ret =? 0) || nonblock || negb (t_errno t =? EWOULDBLOCK) then Ok (t, ret) else
      let '(t, s) := match start with
                     | Some s => (t, s)
                     | None => let '(d, now) := q_clock dv (t_dev t) in (with_dev d t, now)
                     end in
      let '(d, e) := q_clock dv (t_dev t) in
      let t := with_dev d t in
      let poll_time := u32 (e - s + 1) in
      if poll_time <=? polling_time
      then comp_loop n' (if poll_time =? 0 then None else Some s) nonblock test t
      else rs_process_cq false test t
  end.

Definition rs_get_comp (nonblock : bool) (test : rst D -> bool) t : res (rst D * Z) :=
  comp_loop fuel None nonblock test t.

(** ** Conditions *)

Definition O_NONBLOCK : Z := 2048.
Definition MSG_DONTWAIT : Z := 64.
Definition MSG_PEEK : Z := 2.
Definition MSG_WAITALL : Z := 256.

Definition rs_nonblocking t (flags : Z) : bool := has (fd_flags (cf t)) O_NONBLOCK || has flags MSG_DONTWAIT.

Definition rs_can_send t : bool :=
  (if msg_send t then 2 <=? sqe_avail (snd t) else negb (sqe_avail (snd t) =? 0))
  && (RS_SNDLOWAT <=? sbuf_bytes_avail (snd t))
  && negb (sseq_no (snd t) =? sseq_comp (snd t))
  && negb (rg_length (target t) =? 0).

Definition rs_conn_can_send t : bool := rs_can_send t || negb (has (rs_state (ctl t)) rs_writable).
Definition rs_conn_can_send_ctrl t : bool := rs_ctrl_avail t || negb (has (rs_state (ctl t)) rs_connected).
Definition rs_have_rdata t : bool := negb (rmsg_head (rcv t) =? rmsg_tail (rcv t)).
Definition rs_conn_have_rdata t : bool := rs_have_rdata t || negb (has (rs_state (ctl t)) rs_readable).
Definition rs_conn_all_sends_done t : bool :=
  (s32 (ctrl_max_seqno (ctl t)) - s32 (ctrl_seqno (ctl t)) + sqe_avail (snd t) =? sq_size (cf t))
  || negb (has (rs_state (ctl t)) rs_connected).

(** ** Sending *)

(** The size of a transfer: the next step of the overlap, bounded by both buffers; the
    step after it. *)
Definition xfer_of (left olen : Z) t : Z * Z :=
  let '(x, olen') := if olen <? left then (olen, if olen <? RS_MAX_TRANSFER then u32 (Z.shiftl olen 1) else olen)
                     else (u32 left, olen) in
  let x := if u32 (sbuf_bytes_avail (snd t)) <? x then u32 (sbuf_bytes_avail (snd t)) else x in
  let x := if rg_length (target t) <? x then rg_length (target t) else x in
  (x, olen').

Definition stage (a : Z) (bs : list Z) t : rst D := with_mem (write_bytes (t_mem t) a bs) t.
Definition sbuf_sge t (a len : Z) : ibv_sge := mkSge a len (smr_lkey (cf t)).

(** One transfer of the bytes [bs]: they go into the send buffer, which is a ring, and
    from there to the peer. *)
Definition send_chunk (bs : list Z) t : rst D * Z :=
  let x := Z.of_nat (length bs) in
  let a := ssgl0_addr (snd t) in
  let left := rs_sbuf_left t in
  if x <=? left then
    let t := stage a bs t in
    let '(t, ret) := rs_write_data dv [sbuf_sge t a x] x 0 t in
    (upd_s (set_ssgl0 (if x <? rs_sbuf_left t then a + x else sbuf (cf t))) t, ret)
  else
    let t := stage a (take (Z.to_nat left) bs) t in
    let t := stage (sbuf (cf t)) (drop (Z.to_nat left) bs) t in
    let '(t, ret) := rs_write_data dv [sbuf_sge t a left; sbuf_sge t (sbuf (cf t)) (x - left)] x 0 t in
    (upd_s (set_ssgl0 (sbuf (cf t) + (x - left))) t, ret).

(** Waiting until something can be sent; [Some ret] leaves the loop. *)
Definition wait_to_send (flags : Z) t : res (rst D * option Z) :=
  if rs_can_send t then Ok (t, None) else
  '(t, ret) ← rs_get_comp (rs_nonblocking t flags) rs_conn_can_send t;
  if negb (ret =? 0) then Ok (t, Some ret)
  else if negb (has (rs_state (ctl t)) rs_writable) then Ok (with_errno ECONNRESET t, Some (-1))
  else Ok (t, None).

(** The bytes of the mapping that [rs_send_iomaps] writes. *)
Definition iomap_bytes (io : rs_iomap_mr) t : list Z :=
  if has (rs_opts (cf t)) RS_OPT_SWAP_SGL
  then le_split 8 (bswap 8 (im_offset io))
         ++ sge_bytes (mkRsSge (bswap 8 (im_addr io)) (bswap 4 (im_rkey io)) (bswap 4 (u32 (im_length io))))
  else le_split 8 (im_offset io) ++ sge_bytes (mkRsSge (im_addr io) (im_rkey io) (u32 (im_length io))).

Definition send_iomap (io : rs_iomap_mr) t : rst D * Z :=
  let bs := iomap_bytes io t in
  let a := ssgl0_addr (snd t) in
  let left := rs_sbuf_left t in
  if sizeof_rs_iomap <=? left then
    let t := stage a bs t in
    let '(t, ret) := rs_write_iomap dv io [sbuf_sge t a sizeof_rs_iomap] 0 t in
    (upd_s (set_ssgl0 (if sizeof_rs_iomap <? rs_sbuf_left t then a + sizeof_rs_iomap else sbuf (cf t))) t, ret)
  else
    let t := stage a (take (Z.to_nat left) bs) t in
    let t := stage (sbuf (cf t)) (drop (Z.to_nat left) bs) t in
    let '(t, ret) := rs_write_iomap dv io
                       [sbuf_sge t a left; sbuf_sge t (sbuf (cf t)) (sizeof_rs_iomap - left)] 0 t in
    (upd_s (set_ssgl0 (sbuf (cf t) + (sizeof_rs_iomap - left))) t, ret).

(** The loop over the queue of mappings, which it empties from the front. *)
Fixpoint iomap_loop (n : nat) (flags ret : Z) t : res (rst D * Z) :=
  match n, iomap_queue (snd t) with
  | _, [] => Ok (t, ret)
  | O, _ => Spin
  | S n', io :: q =>
      '(t, x) ← wait_to_send flags t;
      match x with
      | Some ret => Ok (t, ret)
      | None =>
          let '(t, ret) := send_iomap io t in
          let t := upd_s (fun s => set_iomaps q (iomap_list s ++ [io]) (iomap_pending s) s) t in
          if ret =? 0 then iomap_loop n' flags 0 t else Ok (t, ret)
      end
  end.

(** [ret] is not initialised when the queue is empty: the parameter [junk]. *)
Definition rs_send_iomaps (junk flags : Z) t : res (rst D * Z) :=
  '(t, ret) ← iomap_loop fuel flags junk t;
  let pending := match iomap_queue (snd t) with [] => false | _ => true end in
  Ok (upd_s (fun s => set_iomaps (iomap_queue s) (iomap_list s) pending s) t, ret).

(** The loop of [rsend] with the bytes that remain. *)
Fixpoint send_loop (n : nat) (flags : Z) (rem : list Z) (olen : Z) t : res (rst D * list Z * Z) :=
  match n, rem with
  | _, [] => Ok (t, [], 0)
  | O, _ => Spin
  | S n', _ =>
      '(t, x) ← wait_to_send flags t;
      match x with
      | Some ret => Ok (t, rem, ret)
      | None =>
          let '(xfer, olen) := xfer_of (Z.of_nat (length rem)) olen t in
          let '(t, ret) := send_chunk (take (Z.to_nat xfer) rem) t in
          if ret =? 0 then send_loop n' flags (drop (Z.to_nat xfer) rem) olen t else Ok (t, rem, ret)
      end
  end.

(** [len - left], or the error when nothing was sent *)
Definition transferred (len left : nat) (ret : Z) : Z :=
  if negb (ret =? 0) && Nat.eqb left len then ret else Z.of_nat (len - left).

(** A call on a connected socket with the bytes of its buffer, or those of its vector
    one after the other ([rsendv]). *)
Definition rs_sendb (junk flags : Z) (bytes : list Z) t : res (rst D * Z) :=
  '(t, ret) ← (if iomap_pending (snd t) then rs_send_iomaps junk flags t else Ok (t, 0));
  if negb (ret =? 0) then Ok (t, transferred (length bytes) (length bytes) ret) else
  '(t, rem, ret) ← send_loop fuel flags bytes RS_OLAP_START_SIZE t;
  Ok (t, transferred (length bytes) (length rem) ret).

(** ** Receiving *)

(** A copy of [n] bytes out of the ring to [buf]: in two pieces if it passes the end.
    The new memory and offset. *)
Definition ring_copy (m : mem) (c : rs_conf) (off buf n : Z) : mem * Z :=
  let end_size := u32 (rbuf_size c - off) in
  if end_size <? n then
    (memcpy (memcpy m buf (rbuf c + off) end_size) (buf + end_size) (rbuf c) (n - end_size), n - end_size)
  else (memcpy m buf (rbuf c + off) n, off + n).

(** The message at the head and the bytes of it that are taken. *)
Definition take_msg (left : Z) t : res (rst D * Z) :=
  g ← array_get (rmsg (rcv t)) (rmsg_head (rcv t));
  let r := rcv t in
  if left <? m_data g then
    Ok (upd_r (fun r => mkRsRcv (rseq_no r)
          (<[Z.to_nat (rmsg_head r) := mkRsMsg (m_op g) (u32 (m_data g - left))]> (rmsg r)) (rmsg_head r)
          (rmsg_tail r) (rbuf_bytes_avail r) (rbuf_free_offset r) (rbuf_offset r) (rbuf_msg_index r)) t, left)
  else
    Ok (upd_r (fun r => mkRsRcv (u16 (rseq_no r + 1)) (rmsg r)
          (if rmsg_head r + 1 =? rq_size (cf t) + 1 then 0 else rmsg_head r + 1)
          (rmsg_tail r) (rbuf_bytes_avail r) (rbuf_free_offset r) (rbuf_offset r) (rbuf_msg_index r)) t,
        m_data g).

Definition recv_one (buf left : Z) t : res (rst D * Z) :=
  '(t, rsize) ← take_msg left t;
  let '(m, off) := ring_copy (t_mem t) (cf t) (rbuf_offset (rcv t)) buf rsize in
  Ok (upd_r (fun r => mkRsRcv (rseq_no r) (rmsg r) (rmsg_head r) (rmsg_tail r) (rbuf_bytes_avail r + rsize)
        (rbuf_free_offset r) off (rbuf_msg_index r)) (with_mem m t), rsize).

(** Messages until [left] bytes are there or none is left. *)
Fixpoint recv_loop (n : nat) (buf left : Z) t : res (rst D * Z) :=
  if (left =? 0) || negb (rs_have_rdata t) then Ok (t, left) else
  match n with
  | O => Spin
  | S n' => '(t, rsize) ← recv_one buf left t; recv_loop n' (buf + rsize) (left - rsize) t
  end.

(** [rs_peek]: the same without a change of the socket.  It gives the bytes it copied. *)
Fixpoint peek_loop (n : nat) (buf left head off : Z) t : res (mem * Z) :=
  if (left =? 0) || (head =? rmsg_tail (rcv t)) then Ok (t_mem t, left) else
  match n with
  | O => Spin
  | S n' =>
      g ← array_get (rmsg (rcv t)) head;
      let '(rsize, head) := if left <? m_data g then (left, head)
                            else (m_data g, if head + 1 =? rq_size (cf t) + 1 then 0 else head + 1) in
      let '(m, off) := ring_copy (t_mem t) (cf t) off buf rsize in
      peek_loop n' (buf + rsize) (left - rsize) head off (with_mem m t)
  end.

Definition rs_peek (buf len : Z) t : res (rst D * Z) :=
  '(m, rem) ← peek_loop fuel buf len (rmsg_head (rcv t)) (rbuf_offset (rcv t)) t;
  Ok (with_mem m t, len - rem).

(** The loop of [rrecv]: the bytes that are left, and [ret]. *)
Fixpoint rrecv_loop (n : nat) (flags buf left : Z) t : res (rst D * Z * Z) :=
  match n with
  | O => Spin
  | S n' =>
      '(t, ret) ← (if rs_have_rdata t then Ok (t, 0)
                   else rs_get_comp (rs_nonblocking t flags) rs_conn_have_rdata t);
      if negb (ret =? 0) then Ok (t, left, ret) else
      if has flags MSG_PEEK then '(t, n) ← rs_peek buf left t; Ok (t, left - n, 0) else
      '(t, left') ← recv_loop fuel buf left t;
      if negb (left' =? 0) && has flags MSG_WAITALL && has (rs_state (ctl t)) rs_readable
      then rrecv_loop n' flags (buf + (left - left')) left' t else Ok (t, left', 0)
  end.

Definition rs_recvb (buf len flags : Z) t : res (rst D * Z) :=
  '(t, rem, ret) ← rrecv_loop fuel flags buf len t;
  Ok (t, if negb (ret =? 0) && (rem =? len) then ret else len - rem).

(** ** Closing *)

Definition SHUT_RD : Z := 0.
Definition SHUT_WR : Z := 1.
Definition SHUT_RDWR : Z := 2.

(** The message a shutdown sends, and the state: [None] when none is sent. *)
Definition shut_state (how state : Z) : Z * option Z :=
  if how =? SHUT_RDWR then (Z.land state (Z.lnot (Z.lor rs_readable rs_writable)), Some RS_CTRL_DISCONNECT)
  else if how =? SHUT_WR then
    let s := Z.land state (Z.lnot rs_writable) in
    (s, Some (if has s rs_readable then RS_CTRL_SHUTDOWN else RS_CTRL_DISCONNECT))
  else
    let s := Z.land state (Z.lnot rs_readable) in
    (s, if has s rs_writable then None else Some RS_CTRL_DISCONNECT).

Definition send_ctrl (ctrl : Z) t : rst D * Z :=
  if has (rs_state (ctl t)) rs_connected && rs_ctrl_avail t
  then rs_post_msg dv (rs_msg_set RS_OP_CTRL ctrl) (incr_ctrl t) else (t, 0).

(** The part between the two changes of the blocking mode. *)
Definition shutdown_stream (how : Z) t : res (rst D * Z) :=
  if negb (has (rs_state (ctl t)) rs_connected) then Ok (t, 0) else
  let '(st, ctrl) := shut_state how (rs_state (ctl t)) in
  let t := upd_c (set_state st) t in
  match ctrl with
  | None => Ok (t, 0)
  | Some ctrl =>
      '(t, ret) ← (if rs_ctrl_avail t then Ok (t, 0) else rs_process_cq false rs_conn_can_send_ctrl t);
      if negb (ret =? 0) then Ok (t, ret) else
      let '(t, ret) := send_ctrl ctrl t in
      if has (rs_state (ctl t)) rs_connected then
        '(t, _) ← rs_process_cq false rs_conn_all_sends_done t; Ok (t, ret)
      else Ok (t, ret)
  end.

End Stream.
