(* ===== verification/RsWorld.v ===== *)
(** * Two connected stream sockets

    Both ends of a connection with the queue pairs between them: a reliable connection
    carries out the work requests of a side in the order they were posted.  The steps of
    the two ends are the blocks of rsocket.c that run under one lock: a transfer of
    [rsend], the copying loop of [rrecv], the giving of credits, the handling of
    completions, the message of [rshutdown]. *)

From S2P Require Import Prelude CLayout Wire CmdCtrl Verbs CmTypes CmRoute RsTypes RsPost RsStream.

(** ** The queue pair of a side *)

(** The send queue (posted, not carried out), the requests that were carried out and not
    completed, the completion queue, the receives, and the depth of the send queue. *)
Record port : Type := mkPort {
  p_sq : list app_send_wr;
  p_dq : list app_send_wr;
  p_cq : list rs_wc;
  p_rq : list app_recv_wr;
  p_depth : Z }.

Definition set_sq (l : list app_send_wr) (p : port) : port := mkPort l (p_dq p) (p_cq p) (p_rq p) (p_depth p).
Definition set_dq (l : list app_send_wr) (p : port) : port := mkPort (p_sq p) l (p_cq p) (p_rq p) (p_depth p).
Definition set_cq (l : list rs_wc) (p : port) : port := mkPort (p_sq p) (p_dq p) l (p_rq p) (p_depth p).
Definition set_rq (l : list app_recv_wr) (p : port) : port := mkPort (p_sq p) (p_dq p) (p_cq p) l (p_depth p).

Definition is_sent (w : rs_wc) : bool := negb (rs_wr_is_recv (rw_id w)).

(** The entries of the send queue that are taken: until their completion is polled. *)
Definition p_used (p : port) : Z :=
  Z.of_nat (length (p_sq p) + length (p_dq p) + length (filter (fun w => is_sent w = true) (p_cq p))).

Definition ENOMEM : Z := 12.

(** Every post is taken, also beyond the depth of the queue: that the sockets stay inside
    of it is shown of them, not built into the queue.  Polling takes the oldest completion.
    During a call nothing arrives and no event comes; arrivals are steps of their own. *)
Definition port_dev : rs_dev port := {|
  q_post_send p w := (set_sq (p_sq p ++ [w]) p, 0);
  q_post_recv p w := (set_rq (p_rq p ++ [w]) p, 0);
  q_poll p m := match p_cq p with
                | [] => (p, m, PollNone)
                | w :: l => (set_cq l p, m, PollOne w)
                end;
  q_notify p := p;
  q_event p := (p, EAGAIN);
  q_ack p _ := p;
  q_clock p := (p, 0) |}.

(** ** A side *)

(** [s_sent], [s_got]: the bytes the application gave to [rsend] and got from [rrecv]. *)
Record side : Type := mkSide { s_t : rst port; s_sent : list Z; s_got : list Z }.

Abbreviation s_port x := (t_dev (s_t x)).
Abbreviation s_cf x := (rs_cf (t_rs (s_t x))).
Abbreviation s_mem x := (t_mem (s_t x)).

Definition with_t (t : rst port) (x : side) : side := mkSide t (s_sent x) (s_got x).
Definition with_port (p : port) (x : side) : side := with_t (with_dev p (s_t x)) x.

(** The bytes of a scatter/gather list. *)
Definition gather (m : mem) (sgl : list ibv_sge) : list Z :=
  concat (map (fun s => read_bytes m (sge_addr s) (sge_length s)) sgl).

(** What the peer of [x] sees of the request [w]: the bytes, and for immediate data the
    completion of its oldest receive. *)
Definition arrive (w : app_send_wr) (bytes : list Z) (y : side) : option side :=
  let t := with_mem (write_bytes (s_mem y) (rdma_remote_addr (s_wr (as_wr w))) bytes) (s_t y) in
  if s_opcode (as_wr w) =? IBV_WR_RDMA_WRITE_WITH_IMM then
    match p_rq (s_port y) with
    | [] => None
    | r :: rq =>
        let wc := mkRsWc (v_wr_id (ar_wr r)) true (Some (s_imm_data (as_wr w))) in
        Some (with_port (set_cq (p_cq (s_port y) ++ [wc]) (set_rq rq (s_port y))) (with_t t y))
    end
  else Some (with_t t y).

(** The memory the library uses: the send buffer with its slots for control messages,
    the receive buffer and the two entries for the peer's credits. *)
Definition in_lib (c : rs_conf) (a : Z) : Prop :=
  sbuf c <= a < sbuf c + sbuf_size c + RS_MAX_CTRL_MSG * RS_QP_CTRL_SIZE \/
  rbuf c <= a < rbuf c + rbuf_size c \/
  target_sgl c <= a < target_sgl c + RS_SGL_SIZE * sizeof_rs_sge.

Definition app_buffer (c : rs_conf) (buf n : Z) : Prop := forall a, buf <= a < buf + n -> ~ in_lib c a.

(** ** Steps *)

(** A step of the side [x] with the peer [y]. *)
Inductive side_step : side -> side -> side -> side -> Prop :=
| step_send x y data olen xfer olen' t' ret :
    rs_can_send (s_t x) = true -> data <> [] -> Z.of_nat (length data) < 2 ^ 32 -> 1 <= olen <= RS_MAX_TRANSFER ->
    xfer_of (Z.of_nat (length data)) olen (s_t x) = (xfer, olen') ->
    send_chunk port_dev (take (Z.to_nat xfer) data) (s_t x) = (t', ret) ->
    side_step x y (mkSide t' (s_sent x ++ take (Z.to_nat xfer) data) (s_got x)) y
| step_recv x y n buf len t' rem :
    0 <= len < 2 ^ 32 -> app_buffer (s_cf x) buf len ->
    recv_loop n buf len (s_t x) = Ok (t', rem) ->
    side_step x y (mkSide t' (s_sent x) (s_got x ++ read_bytes (t_mem t') buf (len - rem))) y
| step_credits x y :
    side_step x y (with_t (rs_update_credits port_dev (s_t x)) x) y
| step_poll x y n t' ret :
    rs_poll_cq port_dev n (s_t x) = Ok (t', ret) ->
    side_step x y (with_t t' x) y
| step_shutdown x y how st ctrl t' ret :
    shut_state how (rs_state (rs_c (t_rs (s_t x)))) = (st, Some ctrl) ->
    send_ctrl port_dev ctrl (upd_c (set_state st) (s_t x)) = (t', ret) ->
    side_step x y (with_t t' x) y
| step_deliver x y w l y' :
    p_sq (s_port x) = w :: l -> arrive w (gather (s_mem x) (as_sgl w)) y = Some y' ->
    side_step x y (with_port (set_dq (p_dq (s_port x) ++ [w]) (set_sq l (s_port x))) x) y'
| step_complete x y w l :
    p_dq (s_port x) = w :: l ->
    side_step x y (with_port (set_cq (p_cq (s_port x) ++ [mkRsWc (s_wr_id (as_wr w)) true None])
                                (set_dq l (s_port x))) x) y
| step_app x y m :
    (forall a, in_lib (s_cf x) a -> m a = s_mem x a) ->
    side_step x y (with_t (with_mem m (s_t x)) x) y.

Inductive world_step : side * side -> side * side -> Prop :=
| step_left x y x' y' : side_step x y x' y' -> world_step (x, y) (x', y')
| step_right x y x' y' : side_step y x y' x' -> world_step (x, y) (x', y').
