(* ===== verification/RsInv.v ===== *)
(** * What holds of two connected stream sockets

    The invariant of a connection, in four parts: the queues of a side hold the work
    requests of the messages it sent ([own]); the bytes of a direction are, in order, in
    the application's hands, in the receive buffer, or on the way ([bytes]); the room the
    receiver gave is the room the sender has ([room]); the sequence numbers bound the
    messages that are outstanding ([creds]). *)

From S2P Require Import Prelude CLayout Wire CmdCtrl Verbs CmTypes CmRoute RsTypes RsPost RsStream RsWorld.

Definition zlen {A} (l : list A) : Z := Z.of_nat (length l).

(** ** Messages *)

(** [Data p l]: the bytes [p] to [p + l] of the stream; [Grant k n q]: the [k]-th half of
    the receive buffer with the credit [n], as control message [q]; [Credit n q]: a
    credit alone; [Ctrl b q]: a shutdown of one direction or a disconnect. *)
Inductive item : Type :=
| Data (p l : Z)
| Grant (k n q : Z)
| Credit (n q : Z)
| Ctrl (shut : bool) (q : Z).

Definition datas : list item -> list (Z * Z) :=
  omap (fun i => match i with Data p l => Some (p, l) | _ => None end).
Definition ctrls : list item -> list Z :=
  omap (fun i => match i with Data _ _ => None | Grant _ _ q | Credit _ q | Ctrl _ q => Some q end).
Definition grants : list item -> list Z :=
  omap (fun i => match i with Grant k _ _ => Some k | _ => None end).
Definition credits : list item -> list Z :=
  omap (fun i => match i with Grant _ n _ | Credit n _ => Some n | _ => None end).

(** What is in a completion queue: a message of this side that was carried out, or one
    of the peer that arrived. *)
Inductive citem : Type := Sent (i : item) | Rcvd (i : item).

Definition sents : list citem -> list item :=
  omap (fun c => match c with Sent i => Some i | Rcvd _ => None end).
Definition rcvds : list citem -> list item :=
  omap (fun c => match c with Rcvd i => Some i | Sent _ => None end).

Record qview : Type := mkQv { v_sq : list item; v_dq : list item; v_cq : list citem }.

(** The messages whose completion was not polled. *)
Definition v_out (v : qview) : list item := sents (v_cq v) ++ v_dq v ++ v_sq v.

(** ** Their work requests *)

Definition halfc (c : rs_conf) : Z := Z.shiftr (rbuf_size c) 1.
Definition slot (c : rs_conf) (q : Z) : Z := sbuf c + sbuf_size c + 16 * (q mod 4).
Definition grant_sge (c : rs_conf) (k : Z) : rs_sge :=
  mkRsSge (rbuf c + k mod 2 * halfc c) (rmr_rkey c) (halfc c).

(** [l] bytes from the position [p] of the stream on, in the ring of the send buffer. *)
Definition ring_sgl (c : rs_conf) (p l : Z) : list ibv_sge :=
  let o := p mod sbuf_size c in
  if l <=? sbuf_size c - o then [mkSge (sbuf c + o) l (smr_lkey c)]
  else [mkSge (sbuf c + o) (sbuf_size c - o) (smr_lkey c);
        mkSge (sbuf c) (l - (sbuf_size c - o)) (smr_lkey c)].

Definition credit_of (c : rs_conf) (n : Z) : Z := rs_msg_set RS_OP_SGL (u16 (n - rq_size c) + rq_size c).

Definition ctrl_code (shut : bool) : Z := if shut then RS_CTRL_SHUTDOWN else RS_CTRL_DISCONNECT.

Definition msg_of (c : rs_conf) (i : item) : Z :=
  match i with
  | Data _ l => rs_msg_set RS_OP_DATA l
  | Grant _ n _ | Credit n _ => credit_of c n
  | Ctrl b _ => rs_msg_set RS_OP_CTRL (ctrl_code b)
  end.

(** The request of a side with the configuration [c] to the peer with [c']. *)
Definition wr_of (c c' : rs_conf) (i : item) : app_send_wr :=
  let wr sgl := rs_wr (msg_of c i) sgl IBV_WR_RDMA_WRITE_WITH_IMM 0 (bswap 4 (msg_of c i)) in
  match i with
  | Data p l => wr (ring_sgl c p l) (rbuf c' + p mod rbuf_size c') (rmr_rkey c')
  | Grant k n q => wr [mkSge (slot c q) sizeof_rs_sge (smr_lkey c)]
                     (target_sgl c' + k mod 2 * sizeof_rs_sge) (target_mr_rkey c')
  | Credit _ _ | Ctrl _ _ => wr [] 0 0
  end.

Definition wc_of (c c' : rs_conf) (x : citem) : rs_wc :=
  match x with
  | Sent i => mkRsWc (msg_of c i) true None
  | Rcvd i => mkRsWc (rs_recv_wr_id 0) true (Some (bswap 4 (msg_of c' i)))
  end.

(** ** Configuration *)

Definition apart (a n b k : Z) : Prop := a + n <= b \/ b + k <= a.

Record conf_ok (c : rs_conf) : Prop := {
  k_opts : rs_opts c = 0;
  k_sbuf : 0 <= sbuf c /\ RS_SNDLOWAT <= sbuf_size c < 2 ^ 31 /\ sbuf c + sbuf_size c + 64 <= 2 ^ 64;
  k_rbuf : 0 <= rbuf c /\ 0 < halfc c /\ rbuf_size c = 2 * halfc c /\ rbuf_size c < 2 ^ 31 /\
           rbuf c + rbuf_size c < 2 ^ 64;
  k_target : 0 <= target_sgl c /\ target_sgl c + 32 <= 2 ^ 64;
  k_keys : 0 <= rmr_rkey c < 2 ^ 32;
  k_queues : RS_QP_MIN_SIZE <= rq_size c <= RS_QP_MAX_SIZE /\ RS_QP_MIN_SIZE <= sq_size c <= RS_QP_MAX_SIZE;
  k_sr : apart (sbuf c) (sbuf_size c + 64) (rbuf c) (rbuf_size c);
  k_st : apart (sbuf c) (sbuf_size c + 64) (target_sgl c) 32;
  k_rt : apart (rbuf c) (rbuf_size c) (target_sgl c) 32 }.

(** [c] has what [rs_save_conn_data] saved of the peer with [c']. *)
Record linked (c c' : rs_conf) : Prop := {
  l_ok : conf_ok c;
  l_remote : remote_sgl c = mkRsSge (target_sgl c') (target_mr_rkey c') RS_SGL_SIZE }.

(** ** Runs *)

(** Pieces of the stream one behind the other, from [p] to [p']. *)
Fixpoint run (p : Z) (l : list (Z * Z)) (p' : Z) : Prop :=
  match l with
  | [] => p = p'
  | (a, n) :: l => a = p /\ 0 < n < 2 ^ 29 /\ run (p + n) l p'
  end.

(** From [a] on never down to [b]. *)
Fixpoint climb (a : Z) (l : list Z) (b : Z) : Prop :=
  match l with
  | [] => a = b
  | n :: l => a <= n /\ climb n l b
  end.

(** The entries between [head] and [tail] of a ring of [n] have the keys [rm]. *)
Record ring_of {A B : Type} (key : A -> B) (l : list A) (n head tail : Z) (rm : list B) : Prop := {
  rv_len : Z.of_nat (length l) = n;
  rv_head : 0 <= head < n;
  rv_tail : tail = (head + zlen rm) mod n;
  rv_fit : zlen rm < n;
  rv_at : forall i, 0 <= i < zlen rm ->
    key <$> l !! Z.to_nat ((head + i) mod n) = rm !! Z.to_nat i }.

(** The messages of a ring have the sizes [rm]. *)
Abbreviation ring_view := (ring_of m_data).

(** ** The parts *)

Record own (c c' : rs_conf) (m : mem) (s : rs_snd) (x : rs_ctl) (p : port) (sent : list Z) (v : qview) : Prop := {
  o_sq : p_sq p = map (wr_of c c') (v_sq v);
  o_dq : p_dq p = map (wr_of c c') (v_dq v);
  o_cq : p_cq p = map (wc_of c c') (v_cq v);
  o_rq : Forall (fun r => r = rs_rwr (rs_recv_wr_id 0) []) (p_rq p);
  o_depth : p_depth p = sq_size c;
  o_avail : 0 <= sbuf_bytes_avail s <= sbuf_size c;
  o_start : 0 <= zlen sent - (sbuf_size c - sbuf_bytes_avail s);
  o_run : run (zlen sent - (sbuf_size c - sbuf_bytes_avail s)) (datas (v_out v)) (zlen sent);
  o_addr : ssgl0_addr s = sbuf c + zlen sent mod sbuf_size c;
  o_sqe : sqe_avail s = sq_size c - RS_QP_CTRL_SIZE - zlen (datas (v_out v));
  o_sqe0 : 0 <= sqe_avail s;
  o_ctrl : exists cn oc, 0 <= oc <= RS_QP_CTRL_SIZE /\ ctrls (v_out v) = seqZ (cn - oc + 1) oc /\
    ctrl_seqno x = u32 cn /\ ctrl_max_seqno x = u32 (cn - oc + RS_QP_CTRL_SIZE);
  o_iomaps : iomap_pending s = false;
  o_data : forall d l i, Data d l ∈ v_sq v -> d <= i < d + l ->
    m (sbuf c + i mod sbuf_size c) = nth (Z.to_nat i) sent 0;
  o_slot : forall k n q, Grant k n q ∈ v_sq v -> read_bytes m (slot c q) 16 = sge_bytes (grant_sge c k) }.

(** The receiver has the configuration [c], the memory [m]; [dcq] are the pieces that
    arrived, [dsq] those on the way, [rm] the messages it has not consumed. *)
Record bytes (c : rs_conf) (m : mem) (r : rs_rcv) (sent got : list Z) (dcq dsq : list (Z * Z)) (rm : list Z)
  : Prop := {
  b_got : got `prefix_of` sent;
  b_rm : Forall (fun n => 0 < n < 2 ^ 29) rm;
  b_run : exists d, run (zlen got + sumZ rm) dcq d /\ run d dsq (zlen sent) /\
    forall i, zlen got <= i < d -> m (rbuf c + i mod rbuf_size c) = nth (Z.to_nat i) sent 0;
  b_off : 0 <= rbuf_offset r <= rbuf_size c /\ rbuf_offset r mod rbuf_size c = zlen got mod rbuf_size c;
  b_ring : ring_view (rmsg r) (rq_size c + 1) (rmsg_head r) (rmsg_tail r) rm }.

(** An entry for credits: the bytes from [n] of the [k]-th half on, if it was granted. *)
Definition entry (c' : rs_conf) (m : mem) (a k n : Z) (granted : bool) : Prop :=
  if granted
  then read_sge m a = mkRsSge (rbuf c' + k mod 2 * halfc c' + n) (rmr_rkey c') (halfc c' - n)
  else rg_length (read_sge m a) = 0.

(** The sender has [c], the memory [m] and [tsge]; the receiver [c'], [r] and [rsge].
    [g] halves were granted, [gd] of them reached the sender. *)
Record room (c c' : rs_conf) (m : mem) (tsge : Z) (r : rs_rcv) (rsge s k g gd : Z) (gsq : list Z)
  (dsq : list (Z * Z)) : Prop := {
  r_order : 0 <= k <= s;
  r_gd : 0 <= gd <= g;
  r_avail : rbuf_bytes_avail r = rbuf_size c' - g * halfc c' + k;
  r_avail0 : 0 <= rbuf_bytes_avail r;
  r_free : rbuf_free_offset r = g mod 2 * halfc c';
  r_rsge : rsge = g mod 2;
  r_gsq : gsq = seqZ gd (g - gd);
  r_fit : s <= gd * halfc c';
  r_tsge : tsge = (s / halfc c') mod 2;
  r_this : entry c' m (target_sgl c + (s / halfc c') mod 2 * 16) (s / halfc c') (s mod halfc c')
             (s / halfc c' <? gd);
  r_next : entry c' m (target_sgl c + (s / halfc c' + 1) mod 2 * 16) (s / halfc c' + 1) 0
             (s / halfc c' + 1 <? gd);
  r_pieces : Forall (fun d => 0 <= d.1 /\ d.1 mod halfc c' + d.2 <= halfc c') dsq }.

(** [pending]: the messages of data that were sent and not consumed. *)
Definition creds (c' : rs_conf) (s : rs_snd) (r : rs_rcv) (x' : rs_ctl) (pending : Z) (cl : list Z) : Prop :=
  exists nc c0 top, 0 <= nc /\ nc + pending <= c0 /\ climb c0 cl top /\ top <= nc + rq_size c' /\
    rseq_no r = u16 nc /\ sseq_no s = u16 (nc + pending) /\ sseq_comp s = u16 c0 /\
    rseq_comp x' = u16 (top - rq_size c' + Z.shiftr (rq_size c') 1).

(** One direction: [x] sends, [y] receives. *)
Record direction (x : side) (vx : qview) (y : side) (vy : qview) : Prop := {
  dir_bytes : exists rm,
    bytes (s_cf y) (s_mem y) (rs_r (t_rs (s_t y))) (s_sent x) (s_got y)
      (datas (rcvds (v_cq vy))) (datas (v_sq vx)) rm /\
    creds (s_cf y) (rs_s (t_rs (s_t x))) (rs_r (t_rs (s_t y))) (rs_c (t_rs (s_t y)))
      (zlen rm + zlen (datas (rcvds (v_cq vy))) + zlen (datas (v_sq vx)))
      (credits (rcvds (v_cq vx)) ++ credits (v_sq vy));
  dir_room : exists g gd,
    room (s_cf x) (s_cf y) (s_mem x) (target_sge (rs_s (t_rs (s_t x)))) (rs_r (t_rs (s_t y)))
      (remote_sge (rs_c (t_rs (s_t y)))) (zlen (s_sent x)) (zlen (s_got y)) g gd
      (grants (v_sq vy)) (datas (v_sq vx)) }.

Definition side_own (x y : side) (v : qview) : Prop :=
  own (s_cf x) (s_cf y) (s_mem x) (rs_s (t_rs (s_t x))) (rs_c (t_rs (s_t x))) (s_port x) (s_sent x) v.

(** The invariant. *)
Definition inv (x y : side) : Prop := exists vx vy,
  linked (s_cf x) (s_cf y) /\ linked (s_cf y) (s_cf x) /\
  side_own x y vx /\ side_own y x vy /\ direction x vx y vy /\ direction y vy x vx.

Lemma inv_sym x y : inv x y -> inv y x.
Proof. intros (vx & vy & ? & ? & ? & ? & ? & ?). by exists vy, vx. Qed.
