(* ===== verification/RsRing.v ===== *)
(** * Lemmas on messages, rings and runs *)

From S2P Require Import Prelude CLayout Wire CmdCtrl Verbs CmTypes CmRoute RsTypes RsPost RsStream RsWorld RsInv.

(** ** Messages *)

Lemma msg_set_eq op d : 0 <= op < 8 -> 0 <= d < 2 ^ 29 -> rs_msg_set op d = op * 2 ^ 29 + d.
Proof.
  intros Ho Hd. unfold rs_msg_set. rewrite Z.shiftl_mul_pow2, !u32_small by lia.
  rewrite <- Z.lxor_lor, <- Z.add_nocarry_lxor; [lia|..];
    apply Z.bits_inj'; intros i Hi; rewrite Z.land_spec, Z.bits_0;
    (destruct (Z.lt_ge_cases i 29);
     [rewrite Z.mul_pow2_bits_low by lia; done
     |rewrite andb_comm; replace (Z.testbit d i) with false; [done|];
      symmetry; destruct (Z.eq_dec d 0) as [->|]; [apply Z.bits_0|];
      apply Z.bits_above_log2; [lia|]; assert (Z.log2 d < 29) by (apply Z.log2_lt_pow2; lia); lia]).
Qed.

Lemma msg_op_set op d : 0 <= op < 8 -> 0 <= d < 2 ^ 29 -> rs_msg_op (rs_msg_set op d) = op.
Proof.
  intros. unfold rs_msg_op. rewrite msg_set_eq, Z.shiftr_div_pow2 by lia.
  rewrite Z.div_add_l, Z.div_small by lia. lia.
Qed.

Lemma msg_data_set op d : 0 <= op < 8 -> 0 <= d < 2 ^ 29 -> rs_msg_data (rs_msg_set op d) = d.
Proof.
  intros. unfold rs_msg_data. rewrite msg_set_eq by lia.
  change 536870911 with (Z.ones 29). rewrite Z.land_ones, Z.add_comm, Z.mod_add by lia. apply Z.mod_small. lia.
Qed.

Lemma msg_set_range op d : 0 <= op < 8 -> 0 <= d < 2 ^ 29 -> 0 <= rs_msg_set op d < 2 ^ 32.
Proof. intros. rewrite msg_set_eq by lia. lia. Qed.

Lemma le_split_combine l : Forall (fun b => 0 <= b < 256) l -> le_split (length l) (le_combine l) = l.
Proof.
  induction 1 as [|b l Hb _ IH]; simpl; [done|].
  rewrite (Z.mul_comm 256), Z.mod_add, Z.div_add, Z.mod_small, Z.div_small, Z.add_0_l by lia. by rewrite IH.
Qed.

Lemma le_split_bytes n : forall z, Forall (fun b => 0 <= b < 256) (le_split n z).
Proof. induction n; intros z; simpl; constructor; [apply Z.mod_pos_bound; lia|auto]. Qed.

Lemma bswap_bswap n x : 0 <= x < 2 ^ (8 * Z.of_nat n) -> bswap n (bswap n x) = x.
Proof.
  intros Hx. unfold bswap.
  assert (Hl : length (rev (le_split n x)) = n) by by rewrite length_rev, le_split_length.
  rewrite <- Hl at 1. rewrite le_split_combine by apply Forall_rev, le_split_bytes.
  by rewrite rev_involutive, le_combine_split by lia.
Qed.

Lemma bswap4_bswap4 x : 0 <= x < 2 ^ 32 -> bswap 4 (bswap 4 x) = x.
Proof. apply (bswap_bswap 4). Qed.

Lemma recv_id_is_recv : rs_wr_is_recv (rs_recv_wr_id 0) = true.
Proof. reflexivity. Qed.

Lemma msg_not_recv x : 0 <= x < 2 ^ 32 -> rs_wr_is_recv x = false.
Proof.
  intros Hx. unfold rs_wr_is_recv, has, RS_WR_ID_FLAG_RECV.
  replace (Z.land x (2 ^ 63)) with 0; [done|]. symmetry. apply Z.bits_inj'. intros i Hi.
  rewrite Z.land_spec, Z.bits_0, Z.pow2_bits_eqb by lia. destruct (Z.eqb_spec 63 i) as [<-|]; [|by rewrite andb_false_r].
  rewrite andb_true_r. destruct (Z.eq_dec x 0) as [->|]; [apply Z.bits_0|].
  apply Z.bits_above_log2; [lia|]. assert (Z.log2 x < 32) by (apply Z.log2_lt_pow2; lia). lia.
Qed.

(** ** Runs *)

Lemma run_app p l1 l2 p' : run p (l1 ++ l2) p' <-> exists q, run p l1 q /\ run q l2 p'.
Proof.
  revert p. induction l1 as [|[a n] l1 IH]; intros p; simpl.
  - split; [by exists p|]. by intros (? & -> & ?).
  - rewrite IH. naive_solver.
Qed.

Lemma run_le p l p' : run p l p' -> p <= p'.
Proof. revert p. induction l as [|[a n] l IH]; intros p; simpl; [lia|]. intros (-> & ? & ?%IH). lia. Qed.

Lemma run_elem p l p' a n : run p l p' -> (a, n) ∈ l -> p <= a /\ 0 < n < 2 ^ 29 /\ a + n <= p'.
Proof.
  revert p. induction l as [|[b k] l IH]; intros p; simpl; [set_solver|].
  intros (-> & Hn & Hr) [[= -> ->]|Hin]%elem_of_cons.
  - apply run_le in Hr. lia.
  - specialize (IH _ Hr Hin). lia.
Qed.

Lemma climb_le a l b : climb a l b -> a <= b.
Proof. revert a. induction l as [|n l IH]; intros a; simpl; [lia|]. intros (? & ?%IH). lia. Qed.

Lemma climb_snoc a l b n : climb a l b -> b <= n -> climb a (l ++ [n]) n.
Proof. revert a. induction l as [|k l IH]; intros a; simpl; [lia|]. intros (? & ?). auto. Qed.

Lemma zlen_app {A} (l1 l2 : list A) : zlen (l1 ++ l2) = zlen l1 + zlen l2.
Proof. unfold zlen. rewrite length_app. lia. Qed.
Lemma zlen_cons {A} (x : A) l : zlen (x :: l) = 1 + zlen l.
Proof. unfold zlen. simpl. lia. Qed.
Lemma zlen_nonneg {A} (l : list A) : 0 <= zlen l.
Proof. unfold zlen. lia. Qed.
#[export] Hint Resolve zlen_nonneg : ff.
Create Rewrite HintDb zlen.
Create Rewrite HintDb items.
#[export] Hint Rewrite @zlen_app @zlen_cons @length_app : zlen.

Lemma datas_app l1 l2 : datas (l1 ++ l2) = datas l1 ++ datas l2.
Proof. apply omap_app. Qed.
Lemma ctrls_app l1 l2 : ctrls (l1 ++ l2) = ctrls l1 ++ ctrls l2.
Proof. apply omap_app. Qed.
Lemma grants_app l1 l2 : grants (l1 ++ l2) = grants l1 ++ grants l2.
Proof. apply omap_app. Qed.
Lemma credits_app l1 l2 : credits (l1 ++ l2) = credits l1 ++ credits l2.
Proof. apply omap_app. Qed.
Lemma sents_app l1 l2 : sents (l1 ++ l2) = sents l1 ++ sents l2.
Proof. apply omap_app. Qed.
Lemma rcvds_app l1 l2 : rcvds (l1 ++ l2) = rcvds l1 ++ rcvds l2.
Proof. apply omap_app. Qed.
#[export] Hint Rewrite datas_app ctrls_app grants_app credits_app sents_app rcvds_app : items.

Lemma elem_of_datas p l (its : list item) : (p, l) ∈ datas its <-> Data p l ∈ its.
Proof.
  unfold datas. rewrite list_elem_of_omap. split.
  - intros (i & Hi & Hd). destruct i; by simplify_eq.
  - intros Hi. by exists (Data p l).
Qed.

(** ** Positions in a ring *)

Lemma mod_inj n i j : 0 < n -> i mod n = j mod n -> - n < i - j < n -> i = j.
Proof.
  intros Hn He Hd.
  pose proof (Z.div_mod i n ltac:(lia)). pose proof (Z.div_mod j n ltac:(lia)).
  assert (i - j = n * (i / n - j / n)) by lia. assert (i / n - j / n = 0) by nia. lia.
Qed.

Lemma mod_step n a i : 0 < n -> 0 <= i -> a mod n + i < n -> (a + i) mod n = a mod n + i.
Proof.
  intros Hn Hi Hlt. rewrite <- Z.add_mod_idemp_l by lia. apply Z.mod_small.
  pose proof (Z.mod_pos_bound a n Hn). lia.
Qed.

Lemma mod_wrap n a i : 0 < n -> n <= a mod n + i < 2 * n -> (a + i) mod n = a mod n + i - n.
Proof.
  intros Hn Hi. rewrite <- Z.add_mod_idemp_l by lia. symmetry. apply Z.mod_unique_pos with 1; lia.
Qed.

Lemma land3_mod q : Z.land q 3 = q mod 4.
Proof. change 3 with (Z.ones 2). by rewrite Z.land_ones by lia. Qed.

Lemma u32_mod4 q : u32 q mod 4 = q mod 4.
Proof. unfold u32. change (2 ^ 32) with (4 * 2 ^ 30). rewrite Z.rem_mul_r by lia. rewrite Z.mul_comm, Z.mod_add by lia. apply Z.mod_mod. lia. Qed.

Lemma u16_add_l a b : u16 (u16 a + b) = u16 (a + b).
Proof. apply Z.add_mod_idemp_l. lia. Qed.
Lemma u32_add_l a b : u32 (u32 a + b) = u32 (a + b).
Proof. apply Z.add_mod_idemp_l. lia. Qed.

(** ** Rings of messages *)

Lemma ring_push {A B} (key : A -> B) l n head tail rm g : ring_of key l n head tail rm -> zlen rm + 1 < n ->
  ring_of key (<[Z.to_nat tail := g]> l) n head (if tail + 1 =? n then 0 else tail + 1) (rm ++ [key g]).
Proof.
  intros [Hl Hh Ht Hf Ha] Hr. unfold zlen in *.
  assert (Hn : 0 < n) by lia.
  pose proof (Z.mod_pos_bound (head + Z.of_nat (length rm)) n Hn) as Htb. rewrite <- Ht in Htb.
  split; [by rewrite length_insert|done| | |].
  - autorewrite with zlen. unfold zlen. simpl. replace (head + (Z.of_nat (length rm) + (1 + Z.of_nat 0))) with (head + Z.of_nat (length rm) + 1) by lia.
    rewrite <- Z.add_mod_idemp_l, <- Ht by lia.
    destruct (Z.eqb_spec (tail + 1) n) as [->|]; [by rewrite Z.mod_same by lia|]. symmetry. apply Z.mod_small. lia.
  - unfold zlen. rewrite length_app. simpl. lia.
  - intros i Hi. unfold zlen in Hi. rewrite length_app in Hi. simpl in Hi.
    destruct (Z.eq_dec i (Z.of_nat (length rm))) as [->|].
    + rewrite <- Ht, list_lookup_insert_eq by lia. rewrite Nat2Z.id, lookup_app_r by lia.
      by rewrite Nat.sub_diag.
    + rewrite list_lookup_insert_ne.
      * rewrite lookup_app_l by lia. apply Ha. lia.
      * intros He. apply Z2Nat.inj in He; [|lia|apply Z.mod_pos_bound; lia].
        rewrite Ht in He. apply mod_inj in He; lia.
Qed.

Lemma ring_head {A B} (key : A -> B) l n head tail a rm : ring_of key l n head tail (a :: rm) ->
  exists g, array_get l head = Ok g /\ key g = a /\ head <> tail /\
    ring_of key l n (if head + 1 =? n then 0 else head + 1) tail rm.
Proof.
  intros [Hl Hh Ht Hf Ha]. rewrite zlen_cons in *. pose proof (zlen_nonneg rm).
  pose proof (Ha 0 ltac:(lia)) as H0. rewrite Z.add_0_r, Z.mod_small in H0 by lia. simpl in H0.
  destruct (l !! Z.to_nat head) as [g|] eqn:Eg; [|discriminate H0]. simpl in H0. injection H0 as Hga.
  exists g. unfold array_get. destruct (Z.ltb_spec head 0); [lia|]. rewrite Eg. split; [done|].
  assert (Hh1 : (if head + 1 =? n then 0 else head + 1) = (head + 1) mod n).
  { destruct (Z.eqb_spec (head + 1) n) as [He|]; [by rewrite He, Z.mod_same by lia|]. symmetry. apply Z.mod_small. lia. }
  split; [done|]. split.
  - intros He. rewrite Ht in He. rewrite <- (Z.mod_small head n) in He at 1 by lia. apply mod_inj in He; lia.
  - rewrite Hh1. split; [done|apply Z.mod_pos_bound; lia| |lia|].
    + rewrite Ht, Z.add_mod_idemp_l by lia. f_equal. lia.
    + intros i Hi. specialize (Ha (i + 1) ltac:(lia)). rewrite Z.add_mod_idemp_l by lia.
      replace (head + 1 + i) with (head + (i + 1)) by lia. rewrite Ha.
      by replace (Z.to_nat (i + 1)) with (S (Z.to_nat i)) by lia.
Qed.

Lemma ring_empty {A B} (key : A -> B) l n head tail rm : ring_of key l n head tail rm -> (head =? tail) = true -> rm = [].
Proof.
  intros Hr He. destruct rm as [|a rm]; [done|]. apply ring_head in Hr as (g & _ & _ & Hne & _).
  apply Z.eqb_eq in He. done.
Qed.

(** The first message shrinks. *)
Lemma ring_shrink l n head tail a rm op b : ring_view l n head tail (a :: rm) ->
  ring_view (<[Z.to_nat head := mkRsMsg op b]> l) n head tail (b :: rm).
Proof.
  intros [Hl Hh Ht Hf Ha]. rewrite zlen_cons in *. pose proof (zlen_nonneg rm).
  split; rewrite ?length_insert, ?zlen_cons; try done.
  intros i Hi. destruct (Z.eq_dec i 0) as [->|].
  - rewrite Z.add_0_r, Z.mod_small, list_lookup_insert_eq by lia. done.
  - rewrite list_lookup_insert_ne.
    + rewrite (Ha i Hi). by replace (Z.to_nat i) with (S (Z.to_nat (i - 1))) by lia.
    + intros He. apply Z2Nat.inj in He; [|lia|apply Z.mod_pos_bound; lia].
      rewrite <- (Z.mod_small head n) in He at 1 by lia. apply mod_inj in He; lia.
Qed.
