(* ===== verification/RsBytes.v ===== *)
(** * The bytes of a direction

    How the part [bytes] of the invariant changes: a transfer is appended to the stream,
    a piece arrives in the receive buffer, its message is entered in the ring, and
    [rrecv] copies the bytes out. *)

From S2P Require Import Prelude CLayout Wire CmdCtrl Verbs CmTypes CmRoute RsTypes RsPost RsStream RsWorld RsInv RsRing.

Lemma nth_slice (l : list Z) (a n i : nat) : (i < n)%nat -> nth i (take n (drop a l)) 0 = nth (a + i) l 0.
Proof.
  intros Hi. rewrite !nth_lookup. rewrite lookup_take_lt by done. by rewrite lookup_drop.
Qed.

Lemma length_slice (l : list Z) (p n : Z) : 0 <= p -> 0 <= n -> p + n <= zlen l ->
  Z.of_nat (length (take (Z.to_nat n) (drop (Z.to_nat p) l))) = n.
Proof. unfold zlen. intros. rewrite length_take, length_drop. lia. Qed.

(** A piece of memory that holds a piece of the stream. *)
Lemma read_slice m a n (l : list Z) p : 0 <= p -> 0 <= n -> p + n <= zlen l ->
  (forall i, 0 <= i < n -> m (a + i) = nth (Z.to_nat (p + i)) l 0) ->
  read_bytes m a n = take (Z.to_nat n) (drop (Z.to_nat p) l).
Proof.
  intros Hp Hn Hl E. apply list_eq. intros i.
  destruct (decide (i < Z.to_nat n)%nat) as [Hi|Hi].
  - unfold read_bytes. rewrite list_lookup_fmap, lookup_seqZ_lt by lia. simpl. rewrite E by lia.
    rewrite lookup_take_lt, lookup_drop by lia. replace (Z.to_nat (p + Z.of_nat i)) with (Z.to_nat p + i)%nat by lia.
    unfold zlen in *. destruct (lookup_lt_is_Some_2 l (Z.to_nat p + i)) as [x Hx]; [lia|].
    rewrite Hx. f_equal. by apply nth_lookup_Some.
  - rewrite !lookup_ge_None_2; [done|..]; [rewrite length_take, length_drop; lia|rewrite read_bytes_length; lia].
Qed.

Section Bytes.
Context (c : rs_conf).
Hypothesis Hc : conf_ok c.

Lemma sumZ_pos l : Forall (fun n => 0 < n < 2 ^ 29) l -> 0 <= sumZ l.
Proof. induction 1; simpl; lia. Qed.

Lemma bytes_mem m m' r sent got dcq dsq rm : bytes c m r sent got dcq dsq rm ->
  (forall a, rbuf c <= a < rbuf c + rbuf_size c -> m' a = m a) -> bytes c m' r sent got dcq dsq rm.
Proof.
  intros [Hg Hrm (d & H1 & H2 & Hb) Ho Hr] E. pose proof (k_rbuf c Hc). split; try done.
  exists d. do 2 (split; [done|]). intros i Hi. rewrite E; [auto|].
  pose proof (Z.mod_pos_bound i (rbuf_size c)). lia.
Qed.

Lemma bytes_send m r sent got dcq dsq rm bs : bytes c m r sent got dcq dsq rm ->
  0 < zlen bs < 2 ^ 29 -> bytes c m r (sent ++ bs) got dcq (dsq ++ [(zlen sent, zlen bs)]) rm.
Proof.
  intros [Hg Hrm (d & H1 & H2 & Hb) Ho Hr] Hbs. split; try done; [by apply prefix_app_r|].
  exists d. split; [done|]. split.
  - rewrite run_app. exists (zlen sent). split; [done|]. simpl. rewrite zlen_app. lia.
  - intros i Hi. rewrite Hb by lia. apply run_le in H2. unfold zlen in *. symmetry. apply app_nth1. lia.
Qed.

(** A piece arrives behind those that arrived before it. *)
Lemma bytes_arrive m r sent got dcq dsq rm p l : bytes c m r sent got dcq ((p, l) :: dsq) rm ->
  p mod rbuf_size c + l <= rbuf_size c -> zlen sent <= zlen got + rbuf_size c ->
  bytes c (write_bytes m (rbuf c + p mod rbuf_size c) (take (Z.to_nat l) (drop (Z.to_nat p) sent)))
    r sent got (dcq ++ [(p, l)]) dsq rm.
Proof.
  intros [Hg Hrm (d & H1 & H2 & Hb) Ho Hr] Hw Hroom. simpl in H2. destruct H2 as (-> & Hl & H2).
  pose proof (k_rbuf c Hc) as (_ & Hh & Hsz & _). pose proof (run_le _ _ _ H1). pose proof (run_le _ _ _ H2).
  pose proof (zlen_nonneg got). pose proof (sumZ_pos rm Hrm). assert (Hlen : Z.of_nat (length (take (Z.to_nat l) (drop (Z.to_nat d) sent))) = l).
  { apply length_slice; unfold zlen in *; lia. }
  split; try done. exists (d + l). rewrite run_app. split; [by exists d; simpl|]. split; [done|].
  intros i Hi. destruct (Z.lt_ge_cases i d).
  - rewrite write_bytes_out; [apply Hb; lia|]. rewrite Hlen.
    destruct (Z.lt_ge_cases (i mod rbuf_size c) (d mod rbuf_size c)); [lia|].
    destruct (Z.le_gt_cases (d mod rbuf_size c + l) (i mod rbuf_size c)); [lia|]. exfalso.
    pose proof (mod_step (rbuf_size c) d (i mod rbuf_size c - d mod rbuf_size c) ltac:(lia) ltac:(lia) ltac:(lia)) as E.
    replace (d mod rbuf_size c + (i mod rbuf_size c - d mod rbuf_size c)) with (i mod rbuf_size c) in E by lia.
    apply mod_inj in E; lia.
  - replace (rbuf c + i mod rbuf_size c) with (rbuf c + d mod rbuf_size c + (i - d)).
    + rewrite write_bytes_in by lia. rewrite nth_slice by lia. f_equal. lia.
    + pose proof (mod_step (rbuf_size c) d (i - d) ltac:(lia) ltac:(lia) ltac:(lia)) as E.
      replace (d + (i - d)) with i in E by lia. lia.
Qed.

(** The message of a piece that arrived is entered. *)
Lemma bytes_enter m r sent got p l dcq dsq rm op : bytes c m r sent got ((p, l) :: dcq) dsq rm ->
  zlen rm < rq_size c ->
  bytes c m (set_rmsg (<[Z.to_nat (rmsg_tail r) := mkRsMsg op l]> (rmsg r))
               (if rmsg_tail r + 1 =? rq_size c + 1 then 0 else rmsg_tail r + 1) r)
    sent got dcq dsq (rm ++ [l]).
Proof.
  intros [Hg Hrm (d & H1 & H2 & Hb) Ho Hr] Hfit. simpl in H1. destruct H1 as (-> & Hl & H1).
  split; try done; [by rewrite Forall_app, Forall_singleton| |].
  - exists d. rewrite sumZ_app. simpl. by replace (zlen got + (sumZ rm + (l + 0))) with (zlen got + sumZ rm + l) by lia.
  - apply (ring_push m_data _ _ _ _ _ (mkRsMsg op l)); [done|lia].
Qed.

(** ** Copying out *)

(** The bytes that [ring_copy] takes are those of the stream; the rest of the memory is
    as it was. *)
Lemma ring_copy_spec m sent got off buf n :
  0 <= off <= rbuf_size c -> off mod rbuf_size c = got mod rbuf_size c -> 0 <= got -> 0 < n <= rbuf_size c ->
  (forall a, buf <= a < buf + n -> ~ (rbuf c <= a < rbuf c + rbuf_size c)) -> got + n <= zlen sent ->
  (forall i, got <= i < got + n -> m (rbuf c + i mod rbuf_size c) = nth (Z.to_nat i) sent 0) ->
  exists m' off', ring_copy m c off buf n = (m', off') /\ 0 <= off' <= rbuf_size c /\
    off' mod rbuf_size c = (got + n) mod rbuf_size c /\
    read_bytes m' buf n = take (Z.to_nat n) (drop (Z.to_nat got) sent) /\
    (forall a, ~ (buf <= a < buf + n) -> m' a = m a).
Proof.
  intros Ho Hm Hg Hn Hd Hs Hb. pose proof (k_rbuf c Hc) as (Hr0 & Hh & Hsz & Hr31 & _).
  set (size := rbuf_size c) in *. unfold ring_copy. fold size. rewrite u32_small by lia.
  assert (Hoff : off mod size = off \/ off = size /\ off mod size = 0).
  { destruct (Z.eq_dec off size) as [->|]; [right; split; [done|apply Z.mod_same; lia]|left; apply Z.mod_small; lia]. }
  destruct (Z.ltb_spec (size - off) n) as [Hw|Hw]; do 2 eexists; (split; [reflexivity|]).
  - assert (Hpos : forall i, 0 <= i < n ->
      memcpy (memcpy m buf (rbuf c + off) (size - off)) (buf + (size - off)) (rbuf c) (n - (size - off)) (buf + i)
      = m (rbuf c + (got + i) mod size)).
    { intros i Hi. destruct (Z.lt_ge_cases i (size - off)).
      - rewrite memcpy_out, memcpy_in by lia. f_equal. rewrite mod_step by lia. lia.
      - replace (buf + i) with (buf + (size - off) + (i - (size - off))) by lia. rewrite memcpy_in by lia.
        rewrite memcpy_out by (destruct (Z.lt_ge_cases (rbuf c + (i - (size - off))) buf); [lia|];
          destruct (Z.lt_ge_cases (rbuf c + (i - (size - off))) (buf + n)); [|lia]; exfalso; apply (Hd (rbuf c + (i - (size - off)))); lia).
        f_equal. destruct Hoff as [|[]]; [rewrite mod_wrap by lia|rewrite mod_step by lia]; lia. }
    split; [lia|]. split.
    + rewrite <- (Z.add_mod_idemp_l got), <- Hm, Z.add_mod_idemp_l by lia.
      replace (n - (size - off)) with (off + n + -1 * size) by lia. by rewrite Z.mod_add by lia.
    + split; [apply read_slice; [lia..|]; intros i Hi; rewrite Hpos, Hb by lia; done|].
      intros a Ha. rewrite !memcpy_out by lia. done.
  - assert (Hlt : off mod size = off) by (destruct Hoff as [|[]]; lia).
    split; [lia|]. split.
    + rewrite <- (Z.add_mod_idemp_l off), <- (Z.add_mod_idemp_l got) by lia. by rewrite Hm.
    + split.
      * apply read_slice; [lia..|]. intros i Hi. rewrite memcpy_in by lia. rewrite <- Hb by lia. f_equal.
        rewrite mod_step by lia. lia.
      * intros a Ha. by rewrite memcpy_out by lia.
Qed.

End Bytes.

Lemma prefix_slice (got sent : list Z) n : got `prefix_of` sent -> 0 <= n -> zlen got + n <= zlen sent ->
  got ++ take (Z.to_nat n) (drop (Z.to_nat (zlen got)) sent) `prefix_of` sent.
Proof.
  intros [k ->] Hn Hl. unfold zlen. rewrite Nat2Z.id, drop_app_length. apply prefix_app, prefix_take.
Qed.

Lemma app_buffer_sub c buf n i k : app_buffer c buf n -> 0 <= i -> i + k <= n -> app_buffer c (buf + i) k.
Proof. intros Ha Hi Hk a Hr. apply Ha. lia. Qed.

(** ** A message, or the beginning of one *)

Section Recv.
Context {D : Type}.
Implicit Types t : rst D.

(** What [recv_one] leaves of the message of [a] bytes after [n] of them were taken. *)
Definition rest_of (a n : Z) (rm : list Z) : list Z := if n <? a then (a - n) :: rm else rm.
Definition consumed (a n : Z) : Z := if n <? a then 0 else 1.

Lemma recv_one_spec t buf rem sent got dcq dsq a rm :
  conf_ok (rs_cf (t_rs t)) -> bytes (rs_cf (t_rs t)) (t_mem t) (rs_r (t_rs t)) sent got dcq dsq (a :: rm) ->
  0 < rem < 2 ^ 32 -> app_buffer (rs_cf (t_rs t)) buf rem -> zlen sent <= zlen got + rbuf_size (rs_cf (t_rs t)) ->
  exists n m' r', recv_one buf rem t = Ok (mkRst (set_r r' (t_rs t)) m' (t_dev t) (t_errno t), n) /\
    0 < n <= rem /\ n <= a /\ (forall x, ~ (buf <= x < buf + n) -> m' x = t_mem t x) /\
    bytes (rs_cf (t_rs t)) m' r' sent (got ++ read_bytes m' buf n) dcq dsq (rest_of a n rm) /\
    rbuf_bytes_avail r' = rbuf_bytes_avail (rs_r (t_rs t)) + n /\
    rbuf_free_offset r' = rbuf_free_offset (rs_r (t_rs t)) /\ (n < a -> rseq_no r' = rseq_no (rs_r (t_rs t))) /\
    (n = a -> rseq_no r' = u16 (rseq_no (rs_r (t_rs t)) + 1)).
Proof.
  intros Hc [Hg Hrm (d & H1 & H2 & Hb) [Ho Hom] Hr] Hrem Hbuf Hroom.
  pose proof (ring_head m_data _ _ _ _ _ _ Hr) as (g & Hget & Hga & _ & Hr1).
  apply Forall_cons in Hrm as [Ha Hrm]. pose proof (sumZ_pos rm Hrm). simpl in H1.
  pose proof (run_le _ _ _ H1). pose proof (run_le _ _ _ H2). pose proof (zlen_nonneg got).
  set (n := if rem <? a then rem else a).
  assert (Hn : 0 < n <= rem /\ n <= a) by (subst n; destruct (Z.ltb_spec rem a); lia).
  pose proof (k_rbuf _ Hc) as (_ & Hh & Hsz & _).
  destruct (ring_copy_spec _ Hc (t_mem t) sent (zlen got) (rbuf_offset (rs_r (t_rs t))) buf n)
    as (m' & off' & Hcopy & Ho' & Hom' & Hread & Hout); try lia; [| |].
  { intros x Hx Hin. apply (Hbuf x); [lia|]. right; left. lia. }
  { intros i Hi. apply Hb. lia. }
  exists n, m'. unfold recv_one, take_msg. rewrite Hget. cbn [mbind res_bind]. rewrite Hga.
  assert (Hgot : zlen (got ++ read_bytes m' buf n) = zlen got + n).
  { rewrite zlen_app. unfold zlen. rewrite read_bytes_length. lia. }
  assert (HB : forall r, rbuf_offset r = off' ->
    ring_view (rmsg r) (rq_size (rs_cf (t_rs t)) + 1) (rmsg_head r) (rmsg_tail r) (rest_of a n rm) ->
    bytes (rs_cf (t_rs t)) m' r sent (got ++ read_bytes m' buf n) dcq dsq (rest_of a n rm)).
  { intros r Hoff Hring. split.
    - rewrite Hread. apply prefix_slice; [done|lia..].
    - unfold rest_of. destruct (Z.ltb_spec n a); [|done]. constructor; [lia|done].
    - exists d. rewrite Hgot. replace (zlen got + n + sumZ (rest_of a n rm)) with (zlen got + (a + sumZ rm))
        by (unfold rest_of; destruct (Z.ltb_spec n a); simpl; lia).
      split; [done|]. split; [done|]. intros i Hi. rewrite Hout; [apply Hb; lia|].
      intros Hx. apply (Hbuf (rbuf (rs_cf (t_rs t)) + i mod rbuf_size (rs_cf (t_rs t)))); [lia|]. right; left.
      pose proof (Z.mod_pos_bound i (rbuf_size (rs_cf (t_rs t)))). lia.
    - by rewrite Hoff, Hgot.
    - done. }
  unfold n in *. destruct (Z.ltb_spec rem a) as [Hlt|Hge].
  - cbn -[Z.ltb ring_copy]. rewrite Hcopy. eexists. split; [reflexivity|]. cbn [rbuf_bytes_avail rbuf_free_offset rseq_no].
    do 3 (split; [done || lia|]). split; [|by repeat split; auto; lia].
    apply HB; [done|]. unfold rest_of. destruct (Z.ltb_spec rem a); [|lia]. cbn [rmsg rmsg_head rmsg_tail].
    rewrite u32_small by lia. by eapply ring_shrink.
  - cbn -[Z.ltb ring_copy]. rewrite Hcopy. eexists. split; [reflexivity|]. cbn [rbuf_bytes_avail rbuf_free_offset rseq_no].
    do 3 (split; [done || lia|]). split; [|by repeat split; auto; lia].
    apply HB; [done|]. unfold rest_of. destruct (Z.ltb_spec a a); [lia|]. cbn [rmsg rmsg_head rmsg_tail]. done.
Qed.

End Recv.
