(* ===== verification/RsRoom.v ===== *)
(** * Room and credits of a direction

    How the parts [room] and [creds] of the invariant change: the sender uses the entry
    the receiver wrote, the receiver grants the half it has emptied, and the grant
    arrives; messages are sent, consumed and credited. *)

From S2P Require Import Prelude CLayout Wire CmdCtrl Verbs CmTypes CmRoute RsTypes RsPost RsStream RsWorld RsInv RsRing.

(** ** Entries *)

Lemma sge_bytes_length s : length (sge_bytes s) = 16%nat.
Proof. unfold sge_bytes. by rewrite !length_app, !le_split_length. Qed.

Definition sge_small (s : rs_sge) : Prop :=
  0 <= rg_addr s < 2 ^ 64 /\ 0 <= rg_key s < 2 ^ 32 /\ 0 <= rg_length s < 2 ^ 32.

Lemma read_sge_of m a s : sge_small s -> read_bytes m a 16 = sge_bytes s -> read_sge m a = s.
Proof.
  intros (Ha & Hk & Hl) E. unfold sge_bytes in E.
  change 16 with (8 + (4 + 4)) in E. rewrite !read_bytes_app in E by lia.
  apply app_inj_1 in E as [E1 E]; [|by rewrite read_bytes_length, le_split_length].
  apply app_inj_1 in E as [E2 E3]; [|by rewrite read_bytes_length, le_split_length].
  unfold read_sge. rewrite E1, E2. replace (a + 12) with (a + 8 + 4) by lia. rewrite E3.
  rewrite !le_combine_split by (simpl; lia). by destruct s.
Qed.

Lemma read_sge_ext m m' a : (forall x, a <= x < a + 16 -> m' x = m x) -> read_sge m' a = read_sge m a.
Proof. intros E. unfold read_sge. by rewrite !(read_bytes_ext m' m) by (intros; apply E; lia). Qed.

(** The changes of [rs_write_data] to an entry. *)
Lemma read_sge_used m a addr len :
  0 <= addr < 2 ^ 64 -> 0 <= len < 2 ^ 32 ->
  read_sge (write_bytes (write_bytes m a (le_split 8 addr)) (a + 12) (le_split 4 len)) a
  = mkRsSge addr (rg_key (read_sge m a)) len.
Proof.
  intros Ha Hl. unfold read_sge. cbn [rg_key]. f_equal.
  - rewrite read_write_out by (rewrite le_split_length; lia).
    replace 8 with (Z.of_nat (length (le_split 8 addr))) at 2 by by rewrite le_split_length.
    rewrite read_write. apply le_combine_split. simpl. lia.
  - rewrite !read_write_out by (rewrite le_split_length; lia). done.
  - replace 4 with (Z.of_nat (length (le_split 4 len))) at 2 by by rewrite le_split_length.
    rewrite read_write. apply le_combine_split. simpl. lia.
Qed.

Section Room.
Context (c c' : rs_conf).
Hypothesis Hc : conf_ok c.
Hypothesis Hc' : conf_ok c'.
Abbreviation h := (halfc c').
Abbreviation size := (rbuf_size c').

Lemma pos_in_ring s : s mod size = s / h mod 2 * h + s mod h.
Proof.
  pose proof (k_rbuf c' Hc') as (_ & Hh & -> & _). rewrite (Z.mul_comm 2).
  rewrite Z.rem_mul_r by lia. lia.
Qed.

Lemma mod2 k : k mod 2 = 0 \/ k mod 2 = 1.
Proof. pose proof (Z.mod_pos_bound k 2). lia. Qed.

Lemma mod2_succ k : (k + 1) mod 2 = 1 - k mod 2.
Proof. rewrite <- Z.add_mod_idemp_l by lia. destruct (mod2 k) as [-> | ->]; done. Qed.

Lemma grant_small k : sge_small (grant_sge c' k).
Proof.
  pose proof (k_rbuf c' Hc') as (? & ? & ? & ? & ?). pose proof (k_keys c' Hc'). unfold sge_small. simpl.
  destruct (mod2 k) as [-> | ->]; lia.
Qed.

Lemma room_bound m tsge r rsge s k g gd gsq dsq : room c c' m tsge r rsge s k g gd gsq dsq ->
  s <= k + size /\ g <= s / h + 2.
Proof.
  intros []. pose proof (k_rbuf c' Hc') as (_ & Hh & Hsz & _). split; [nia|].
  assert (g <= (s + 2 * h) / h); [apply Z.div_le_lower_bound; nia|].
  rewrite Z.div_add in * by lia. lia.
Qed.

Lemma room_mem m m' tsge r rsge s k g gd gsq dsq : room c c' m tsge r rsge s k g gd gsq dsq ->
  (forall a, target_sgl c <= a < target_sgl c + 32 -> m' a = m a) -> room c c' m' tsge r rsge s k g gd gsq dsq.
Proof.
  intros [] E. split; try done; unfold entry in *;
    (rewrite (read_sge_ext m m'); [done|]; intros x Hx; apply E;
     match goal with _ : context [?n mod 2 * 16] |- _ => idtac end).
  - destruct (mod2 (s / h)) as [Hm|Hm]; rewrite Hm in Hx; lia.
  - destruct (mod2 (s / h + 1)) as [Hm|Hm]; rewrite Hm in Hx; lia.
Qed.

Lemma room_recv m tsge r r' rsge s k g gd gsq dsq n : room c c' m tsge r rsge s k g gd gsq dsq ->
  rbuf_bytes_avail r' = rbuf_bytes_avail r + n -> rbuf_free_offset r' = rbuf_free_offset r ->
  0 <= n -> k + n <= s -> room c c' m tsge r' rsge s (k + n) g gd gsq dsq.
Proof. intros [] Ha Hf Hn Hk. split; try done; rewrite ?Ha, ?Hf; lia. Qed.

Lemma room_arrive_data m tsge r rsge s k g gd gsq d dsq : room c c' m tsge r rsge s k g gd gsq (d :: dsq) ->
  room c c' m tsge r rsge s k g gd gsq dsq /\ d.1 mod size + d.2 <= size.
Proof.
  intros []. pose proof (k_rbuf c' Hc') as (_ & Hh & Hsz & _).
  apply Forall_cons in r_pieces as [[Hd0 Hd] ?]. split; [by split|].
  rewrite pos_in_ring. destruct (mod2 (d.1 / h)) as [-> | ->]; lia.
Qed.

(** ** The sender *)

Lemma room_target m tsge r rsge s k g gd gsq dsq : room c c' m tsge r rsge s k g gd gsq dsq ->
  rg_length (read_sge m (target_sgl c + tsge * 16)) <> 0 ->
  s / h < gd /\ read_sge m (target_sgl c + tsge * 16) = mkRsSge (rbuf c' + s mod size) (rmr_rkey c') (h - s mod h).
Proof.
  intros [] Hne. subst tsge. unfold entry in r_this. destruct (Z.ltb_spec (s / h) gd); [|done].
  split; [done|]. rewrite r_this, pos_in_ring. f_equal. lia.
Qed.

(** A transfer of [x] bytes takes them from the entry. *)
Lemma room_send m tsge r rsge s k g gd gsq dsq x : room c c' m tsge r rsge s k g gd gsq dsq ->
  s / h < gd -> 0 < x <= h - s mod h ->
  let a := target_sgl c + tsge * 16 in
  let m2 := write_bytes (write_bytes m a (le_split 8 (u64 (rbuf c' + s mod size + x)))) (a + 12)
              (le_split 4 (u32 (h - s mod h - x))) in
  room c c' m2 (if u32 (h - s mod h - x) =? 0 then (if tsge + 1 =? RS_SGL_SIZE then 0 else tsge + 1) else tsge)
    r rsge (s + x) k g gd gsq (dsq ++ [(s, x)]).
Proof.
  intros Hroom Hgd Hx a m2. pose proof (room_bound _ _ _ _ _ _ _ _ _ _ Hroom) as [_ Hg2].
  destruct Hroom. pose proof (k_rbuf c' Hc') as (? & Hh & Hsz & ? & ?). pose proof (k_target c Hc).
  pose proof (Z.mod_pos_bound s h Hh) as Hm. pose proof (Z.div_mod s h ltac:(lia)) as Hdm.
  unfold entry in r_this. destruct (Z.ltb_spec (s / h) gd); [|lia].
  assert (Hthis : read_sge m2 (target_sgl c + s / h mod 2 * 16) = mkRsSge (rbuf c' + s / h mod 2 * h + (s mod h + x)) (rmr_rkey c') (h - s mod h - x)).
  { subst m2. assert (s mod size + x <= size) by (rewrite pos_in_ring; destruct (mod2 (s / h)) as [-> | ->]; lia).
    pose proof (Z.mod_pos_bound s size ltac:(lia)).
    subst a. rewrite r_tsge, u64_small, u32_small, read_sge_used, r_this, pos_in_ring by lia. simpl. f_equal; lia. }
  assert (Hother : read_sge m2 (target_sgl c + (s / h + 1) mod 2 * 16)
                   = read_sge m (target_sgl c + (s / h + 1) mod 2 * 16)).
  { apply read_sge_ext. intros z Hz. rewrite mod2_succ in Hz. subst m2 a. rewrite r_tsge.
    destruct (mod2 (s / h)) as [E|E]; rewrite E in Hz |- *; rewrite !write_bytes_out; rewrite ?le_split_length; done || lia. }
  rewrite u32_small by lia.
  assert (Hpc : Forall (fun d => 0 <= d.1 /\ d.1 mod h + d.2 <= h) (dsq ++ [(s, x)])).
  { apply Forall_app. split; [done|]. apply Forall_singleton. simpl. lia. }
  destruct (Z.eqb_spec (h - s mod h - x) 0) as [Hz|Hz].
  - assert (Hs : s + x = (s / h + 1) * h) by lia.
    assert (Hd : (s + x) / h = s / h + 1) by (rewrite Hs; apply Z.div_mul; lia).
    assert (Hm0 : (s + x) mod h = 0) by (rewrite Hs; apply Z.mod_mul; lia).
    split; try done; try lia; rewrite ?Hd, ?Hm0.
    + nia.
    + rewrite r_tsge, mod2_succ. unfold RS_SGL_SIZE. by destruct (mod2 (s / h)) as [-> | ->].
    + unfold entry. rewrite Hother. exact r_next.
    + replace (s / h + 1 + 1) with (s / h + 1 * 2) by lia. rewrite Z.mod_add by lia.
      unfold entry. destruct (Z.ltb_spec (s / h + 1 * 2) gd); [lia|]. rewrite Hthis. simpl. lia.
  - assert (Hd : (s + x) / h = s / h) by (symmetry; apply Z.div_unique_pos with (s mod h + x); lia).
    assert (Hm0 : (s + x) mod h = s mod h + x) by (symmetry; apply Z.mod_unique_pos with (s / h); lia).
    split; try done; try lia; rewrite ?Hd, ?Hm0.
    + nia.
    + done.
    + unfold entry. destruct (Z.ltb_spec (s / h) gd); [|lia]. rewrite Hthis. f_equal. lia.
    + unfold entry. rewrite Hother. exact r_next.
Qed.

(** A grant arrives in the entry that is used up. *)
Lemma room_arrive_grant m tsge r rsge s k g gd j gsq dsq : room c c' m tsge r rsge s k g gd (j :: gsq) dsq ->
  room c c' (write_bytes m (target_sgl c + j mod 2 * sizeof_rs_sge) (sge_bytes (grant_sge c' j)))
    tsge r rsge s k g (gd + 1) gsq dsq.
Proof.
  intros Hroom. pose proof (room_bound _ _ _ _ _ _ _ _ _ _ Hroom) as [_ Hg2]. destruct Hroom.
  pose proof (k_rbuf c' Hc') as (? & Hh & Hsz & ? & ?). set (m' := write_bytes _ _ _).
  assert (Hlt : gd < g). { destruct (Z.lt_ge_cases gd g); [done|]. rewrite seqZ_nil in r_gsq by lia. discriminate r_gsq. }
  rewrite seqZ_cons in r_gsq by lia. injection r_gsq as -> Hgsq.
  assert (Hr : read_sge m' (target_sgl c + gd mod 2 * 16) = grant_sge c' gd).
  { apply read_sge_of; [apply grant_small|]. subst m'. unfold sizeof_rs_sge.
    change 16 with (Z.of_nat 16) at 3. rewrite <- (sge_bytes_length (grant_sge c' gd)). apply read_write. }
  assert (Hlow : s / h <= gd) by (apply Z.div_le_upper_bound; lia).
  assert (Hother : forall j, j mod 2 <> gd mod 2 -> read_sge m' (target_sgl c + j mod 2 * 16) = read_sge m (target_sgl c + j mod 2 * 16)).
  { intros j Hj. apply read_sge_ext. intros z Hz. subst m'. apply write_bytes_out. rewrite sge_bytes_length.
    unfold sizeof_rs_sge. destruct (mod2 gd) as [E|E], (mod2 j) as [E'|E']; rewrite E, E' in *; lia. }
  assert (Hs : gd = s / h \/ gd = s / h + 1) by lia.
  assert (Hpar : (s / h) mod 2 <> (s / h + 1) mod 2).
  { rewrite mod2_succ. destruct (mod2 (s / h)) as [-> | ->]; done. }
  split; try done; try lia; [replace (g - (gd + 1)) with (Z.pred (g - gd)) by lia; done|..].
  - unfold entry in *. destruct (Z.ltb_spec (s / h) (gd + 1)); [|lia]. destruct Hs as [-> | ->].
    + rewrite Hr. assert (s mod h = 0) as ->; [|by unfold grant_sge; f_equal; lia].
      pose proof (Z.div_mod s h ltac:(lia)). pose proof (Z.mod_pos_bound s h Hh). nia.
    + rewrite Hother by done. by destruct (Z.ltb_spec (s / h) (s / h + 1)); [|lia].
  - unfold entry in *. destruct Hs as [-> | ->].
    + destruct (Z.ltb_spec (s / h + 1) (s / h + 1)); [lia|]. rewrite Hother by done.
      by destruct (Z.ltb_spec (s / h + 1) (s / h)); [lia|].
    + destruct (Z.ltb_spec (s / h + 1) (s / h + 1 + 1)); [|lia]. rewrite Hr. unfold grant_sge. f_equal; lia.
Qed.

(** ** The receiver *)

Lemma room_grant m tsge r rsge s k g gd gsq dsq : room c c' m tsge r rsge s k g gd gsq dsq ->
  h <= rbuf_bytes_avail r ->
  let off := rbuf_free_offset r + h in
  room c c' m tsge (set_free (rbuf_bytes_avail r - h) (if size <=? off then 0 else off) r)
    (if rsge + 1 =? RS_SGL_SIZE then 0 else rsge + 1) s k (g + 1) gd (gsq ++ [g]) dsq.
Proof.
  intros [] Ha off. pose proof (k_rbuf c' Hc') as (? & Hh & Hsz & ? & ?).
  pose proof (mod2_succ g) as Hpar.
  split; try done; cbn [set_free rbuf_bytes_avail rbuf_free_offset]; rewrite ?Hpar; try lia.
  - subst off. rewrite r_free. destruct (mod2 g) as [-> | ->]; [destruct (Z.leb_spec size (0 * h + h))|destruct (Z.leb_spec size (1 * h + h))]; lia.
  - rewrite r_rsge. unfold RS_SGL_SIZE. destruct (mod2 g) as [-> | ->]; done.
  - rewrite r_gsq. replace (g + 1 - gd) with (g - gd + 1) by lia. rewrite seqZ_app by lia.
    f_equal. rewrite seqZ_cons, seqZ_nil by lia. f_equal. lia.
Qed.

End Room.

(** ** Credits *)

Section Creds.
Context (c' : rs_conf).
Hypothesis Hc' : conf_ok c'.

Lemma creds_bound s r x' pending cl : creds c' s r x' pending cl -> pending <= rq_size c'.
Proof. intros (nc & c0 & top & ? & ? & Hc%climb_le & ? & _). lia. Qed.

Lemma creds_send s s2 r x' pending cl : creds c' s r x' pending cl -> sseq_no s <> sseq_comp s ->
  sseq_no s2 = u16 (sseq_no s + 1) -> sseq_comp s2 = sseq_comp s -> creds c' s2 r x' (pending + 1) cl.
Proof.
  intros (nc & c0 & top & H0 & Hp & Hcl & Ht & Hr & Hs & Hsc & Hx) Hne Hs2 Hsc2. exists nc, c0, top.
  assert (nc + pending <> c0) by congruence.
  rewrite Hs2, Hsc2, Hs, u16_add_l. repeat split; try done; [lia|]. f_equal. lia.
Qed.

Lemma creds_consume s r r2 x' pending cl : creds c' s r x' pending cl ->
  rseq_no r2 = u16 (rseq_no r + 1) -> creds c' s r2 x' (pending - 1) cl.
Proof.
  intros (nc & c0 & top & H0 & Hp & Hcl & Ht & Hr & Hs & Hsc & Hx) Hr2. exists (nc + 1), c0, top.
  rewrite Hr2, Hr, u16_add_l. replace (nc + 1 + (pending - 1)) with (nc + pending) by lia.
  repeat split; try done; lia.
Qed.

(** A credit is for the receives from the messages consumed on. *)
Lemma creds_give s r x' x2 pending cl : creds c' s r x' pending cl ->
  rseq_comp x2 = u16 (rseq_no r + Z.shiftr (rq_size c') 1) ->
  exists n, creds c' s r x2 pending (cl ++ [n]) /\ rs_msg_set RS_OP_SGL (rseq_no r + rq_size c') = credit_of c' n.
Proof.
  intros (nc & c0 & top & H0 & Hp & Hcl & Ht & Hr & Hs & Hsc & Hx) Hx2. exists (nc + rq_size c'). split.
  - exists nc, c0, (nc + rq_size c'). rewrite Hx2, Hr, u16_add_l.
    repeat split; try done; [by eapply climb_snoc|]. f_equal. lia.
  - unfold credit_of. rewrite Hr. do 3 f_equal. lia.
Qed.

Lemma creds_take s s2 r x' pending n cl : creds c' s r x' pending (n :: cl) ->
  sseq_no s2 = sseq_no s -> sseq_comp s2 = u16 n -> creds c' s2 r x' pending cl.
Proof.
  intros (nc & c0 & top & H0 & Hp & [Hn Hcl] & Ht & Hr & Hs & Hsc & Hx) Hs2 Hsc2. exists nc, n, top.
  rewrite Hs2, Hsc2. repeat split; try done; lia.
Qed.

End Creds.
