(* ===== verification/RsOwn.v ===== *)
(** * The queues of a side

    How the part [own] of the invariant changes: a transfer or a control message is
    posted, carried out, completed and polled; and that no post meets a full queue. *)

From S2P Require Import Prelude CLayout Wire CmdCtrl Verbs CmTypes CmRoute RsTypes RsPost RsStream RsWorld RsInv RsRing.

(** ** Counting *)

Lemma items_count its : zlen its = zlen (datas its) + zlen (ctrls its).
Proof. unfold zlen. induction its as [|[] its IH]; simpl; lia. Qed.

Definition item_small (i : item) : Prop := match i with Data _ l => 0 < l < 2 ^ 29 | _ => True end.

Lemma credit_range c n : conf_ok c -> 0 <= u16 (n - rq_size c) + rq_size c < 2 ^ 29.
Proof.
  intros Hc. pose proof (k_queues c Hc) as [Hq _]. pose proof (u16_range (n - rq_size c)).
  unfold RS_QP_MIN_SIZE, RS_QP_MAX_SIZE in Hq. lia.
Qed.

Lemma msg_of_range c i : conf_ok c -> item_small i -> 0 <= msg_of c i < 2 ^ 32.
Proof.
  intros Hc Hi. destruct i as [p l|k n q|n q|[] q]; simpl in *; apply msg_set_range; try done; try lia;
    by apply credit_range.
Qed.

Lemma run_small a its b : run a (datas its) b -> Forall item_small its.
Proof.
  revert a. induction its as [|i its IH]; intros a; simpl; [done|].
  destruct i; simpl; intros Hr; constructor; simpl; try done; try (by eapply IH).
  - by destruct Hr as (_ & ? & _).
  - destruct Hr as (_ & _ & Hr). by eapply IH.
Qed.

Section Own.
Context (c c' : rs_conf).
Hypothesis Hc : conf_ok c.

Lemma own_small m s x p sent v : own c c' m s x p sent v -> Forall item_small (v_out v).
Proof. intros []. by eapply run_small. Qed.

Lemma sents_filter l : Forall item_small (sents l) ->
  length (filter (fun w => is_sent w = true) (map (wc_of c c') l)) = length (sents l).
Proof.
  induction l as [|[i|i] l IH]; simpl; [done| |].
  - intros [Hi Hl]%Forall_cons. rewrite filter_cons_True; [simpl; by rewrite IH|].
    unfold is_sent. simpl. by rewrite msg_not_recv by by apply msg_of_range.
  - intros Hl. rewrite filter_cons_False by done. auto.
Qed.

Lemma own_used m s x p sent v : own c c' m s x p sent v -> p_used p = zlen (v_out v).
Proof.
  intros Hown. pose proof (own_small _ _ _ _ _ _ Hown) as Hsm. destruct Hown. unfold p_used, v_out in *.
  apply Forall_app in Hsm as [Hsm _]. rewrite o_sq, o_dq, o_cq, sents_filter by done.
  autorewrite with zlen. unfold zlen. rewrite !length_map. lia.
Qed.

(** ** What it does not depend on *)

Lemma own_mem m m' s x p sent v : own c c' m s x p sent v ->
  (forall a, sbuf c <= a < sbuf c + sbuf_size c + 64 -> m' a = m a) -> own c c' m' s x p sent v.
Proof.
  intros [] E. pose proof (k_sbuf c Hc) as (_ & [Hlow _] & _). unfold RS_SNDLOWAT in Hlow. split; try done.
  - intros d l i Hi Hr. rewrite E; [eauto|]. pose proof (Z.mod_pos_bound i (sbuf_size c)). lia.
  - intros k n q Hi. rewrite <- (o_slot _ _ _ Hi). apply read_bytes_ext. intros a Ha. apply E.
    unfold slot in Ha. pose proof (Z.mod_pos_bound q 4). lia.
Qed.

Lemma own_ext m s s2 x x2 p sent v : own c c' m s x p sent v ->
  sbuf_bytes_avail s2 = sbuf_bytes_avail s -> ssgl0_addr s2 = ssgl0_addr s -> sqe_avail s2 = sqe_avail s ->
  iomap_pending s2 = iomap_pending s -> ctrl_seqno x2 = ctrl_seqno x -> ctrl_max_seqno x2 = ctrl_max_seqno x ->
  own c c' m s2 x2 p sent v.
Proof. intros [] E1 E2 E3 E4 E5 E6. split; rewrite ?E1, ?E2, ?E3, ?E4, ?E5, ?E6; done. Qed.

Lemma own_rq m s x p sent v l : own c c' m s x p sent v ->
  Forall (fun r => r = rs_rwr (rs_recv_wr_id 0) []) l -> own c c' m s x (set_rq l p) sent v.
Proof. intros [] ?. by split. Qed.

(** ** The send queue *)

Definition vsend (i : item) (v : qview) : qview := mkQv (v_sq v ++ [i]) (v_dq v) (v_cq v).
Definition vpost (i : item) (p : port) : port := set_sq (p_sq p ++ [wr_of c c' i]) p.

Lemma v_out_send i v : v_out (vsend i v) = v_out v ++ [i].
Proof. unfold v_out. simpl. by rewrite !app_assoc. Qed.

Lemma own_send m m' s s' x p sent v bs : own c c' m s x p sent v ->
  0 < zlen bs <= sbuf_bytes_avail s -> zlen bs < 2 ^ 29 -> 0 < sqe_avail s ->
  (forall i, zlen sent <= i < zlen sent + zlen bs -> m' (sbuf c + i mod sbuf_size c) = nth (Z.to_nat (i - zlen sent)) bs 0) ->
  (forall i, zlen sent + zlen bs - sbuf_size c <= i < zlen sent -> m' (sbuf c + i mod sbuf_size c) = m (sbuf c + i mod sbuf_size c)) ->
  (forall a, sbuf c + sbuf_size c <= a < sbuf c + sbuf_size c + 64 -> m' a = m a) ->
  sbuf_bytes_avail s' = sbuf_bytes_avail s - zlen bs -> sqe_avail s' = sqe_avail s - 1 ->
  ssgl0_addr s' = sbuf c + (zlen sent + zlen bs) mod sbuf_size c -> iomap_pending s' = false ->
  own c c' m' s' x (vpost (Data (zlen sent) (zlen bs)) p) (sent ++ bs) (vsend (Data (zlen sent) (zlen bs)) v).
Proof.
  intros [] Hb1 Hb2 Hq Hnew Hold Hslots E1 E2 E3 E4.
  split; rewrite ?v_out_send; autorewrite with items zlen; simpl; rewrite ?E1, ?E2, ?E3, ?E4, ?app_nil_r; try done; try lia.
  - rewrite map_app. simpl. by rewrite o_sq.
  - apply run_app. exists (zlen sent). simpl. split; [|lia].
    by replace (zlen sent + zlen bs - (sbuf_size c - (sbuf_bytes_avail s - zlen bs))) with (zlen sent - (sbuf_size c - sbuf_bytes_avail s)) by lia.
  - unfold zlen in *. simpl. lia.
  - intros d l i [Hi|Hi%list_elem_of_singleton]%elem_of_app Hr.
    + assert (Hin : (d, l) ∈ datas (v_out v)).
      { apply elem_of_datas. unfold v_out. set_solver. }
      pose proof (run_elem _ _ _ _ _ o_run Hin) as (Hd & Hl & Hdl).
      rewrite Hold by lia. rewrite (o_data _ _ _ Hi Hr). unfold zlen in *.
      pose proof (k_sbuf c Hc). symmetry. apply app_nth1. lia.
    + injection Hi as -> ->. rewrite Hnew by lia. unfold zlen in *. rewrite app_nth2 by lia. f_equal. lia.
  - intros k n q [Hi|Hi%list_elem_of_singleton]%elem_of_app; [|done]. rewrite <- (o_slot _ _ _ Hi).
    apply read_bytes_ext. intros a Ha. apply Hslots. unfold slot in Ha. pose proof (Z.mod_pos_bound q 4). lia.
Qed.

Lemma slot_apart q q' a : q mod 4 <> q' mod 4 -> slot c q <= a < slot c q + 16 -> ~ (slot c q' <= a < slot c q' + 16).
Proof. unfold slot. lia. Qed.

Lemma slot_in q a : slot c q <= a < slot c q + 16 -> sbuf c + sbuf_size c <= a < sbuf c + sbuf_size c + 64.
Proof. unfold slot. pose proof (Z.mod_pos_bound q 4). lia. Qed.

(** A control message takes the next number; its slot is not that of another one. *)
Lemma own_ctrl m s x x2 p sent v : own c c' m s x p sent v -> ctrl_seqno x <> ctrl_max_seqno x ->
  ctrl_seqno x2 = u32 (ctrl_seqno x + 1) -> ctrl_max_seqno x2 = ctrl_max_seqno x ->
  exists q, slot c q = sbuf c + sbuf_size c + 16 * Z.land (ctrl_seqno x2) 3 /\
    forall i m', datas [i] = [] -> ctrls [i] = [q] ->
      (forall a, sbuf c <= a < sbuf c + sbuf_size c + 64 -> ~ (slot c q <= a < slot c q + 16) -> m' a = m a) ->
      (forall k n q', i = Grant k n q' -> read_bytes m' (slot c q) 16 = sge_bytes (grant_sge c k)) ->
      own c c' m' s x2 (vpost i p) sent (vsend i v).
Proof.
  intros [] Hne E1 E2. destruct o_ctrl as (cn & oc & Hoc & Hq & Hn & Hm). exists (cn + 1).
  assert (Hlt : oc < RS_QP_CTRL_SIZE).
  { assert (oc <> RS_QP_CTRL_SIZE); [|lia]. intros ->. apply Hne. rewrite Hn, Hm. f_equal. lia. }
  assert (Hc1 : ctrl_seqno x2 = u32 (cn + 1)) by by rewrite E1, Hn, u32_add_l.
  split. { unfold slot. by rewrite Hc1, land3_mod, u32_mod4. }
  intros i m' Hd Hi Hold Hnew. pose proof (k_sbuf c Hc) as (_ & [Hlow _] & _). unfold RS_SNDLOWAT in Hlow.
  split; rewrite ?v_out_send; autorewrite with items; rewrite ?Hd, ?app_nil_r; try done.
  - simpl. rewrite map_app. simpl. by rewrite o_sq.
  - exists (cn + 1), (oc + 1). rewrite Hc1, E2, Hm, Hi, Hq. split; [lia|]. split.
    + replace (cn + 1 - (oc + 1) + 1) with (cn - oc + 1) by lia. rewrite seqZ_app by lia. f_equal.
      rewrite seqZ_cons, seqZ_nil by lia. f_equal. lia.
    + split; [done|]. f_equal. lia.
  - intros d l j [Hin|Hin%list_elem_of_singleton]%elem_of_app Hr; [|by subst i].
    rewrite Hold; [eauto|..]; pose proof (Z.mod_pos_bound j (sbuf_size c)); [lia|].
    intros Ha%slot_in. lia.
  - intros k n q [Hin|Hin%list_elem_of_singleton]%elem_of_app; [|subst i; injection Hi as ->; by eapply Hnew].
    rewrite <- (o_slot _ _ _ Hin). apply read_bytes_ext. intros a Ha. pose proof (slot_in _ _ Ha). apply Hold; [lia|].
    assert (Hq2 : q ∈ seqZ (cn - oc + 1) oc).
    { rewrite <- Hq. apply list_elem_of_omap. exists (Grant k n q). split; [unfold v_out; set_solver|done]. }
    apply elem_of_seqZ in Hq2. apply (slot_apart q); [|done].
    intros He%mod_inj; unfold RS_QP_CTRL_SIZE in *; lia.
Qed.

(** The oldest request is carried out, and completed. *)
Lemma own_deliver m s x p sent i sq dq cq : own c c' m s x p sent (mkQv (i :: sq) dq cq) ->
  own c c' m s x (set_dq (p_dq p ++ [wr_of c c' i]) (set_sq (map (wr_of c c') sq) p)) sent (mkQv sq (dq ++ [i]) cq).
Proof.
  assert (Hv : v_out (mkQv sq (dq ++ [i]) cq) = v_out (mkQv (i :: sq) dq cq)).
  { unfold v_out. simpl. by rewrite <- app_assoc. }
  intros []. split; rewrite ?Hv; try done; simpl in *.
  - rewrite map_app. simpl. by rewrite o_dq.
  - intros d l j Hin. apply o_data with (l := l). set_solver.
  - intros k n q Hin. apply o_slot with (n := n). set_solver.
Qed.

Lemma own_complete m s x p sent i sq dq cq : own c c' m s x p sent (mkQv sq (i :: dq) cq) ->
  own c c' m s x (set_cq (p_cq p ++ [mkRsWc (msg_of c i) true None]) (set_dq (map (wr_of c c') dq) p)) sent
    (mkQv sq dq (cq ++ [Sent i])).
Proof.
  assert (Hv : v_out (mkQv sq dq (cq ++ [Sent i])) = v_out (mkQv sq (i :: dq) cq)).
  { unfold v_out. simpl. autorewrite with items. simpl. by rewrite <- app_assoc. }
  intros []. split; rewrite ?Hv; try done; simpl in *.
  rewrite map_app. simpl. by rewrite o_cq.
Qed.

(** A message of the peer arrives. *)
Lemma own_arrive m s x p sent i sq dq cq : own c c' m s x p sent (mkQv sq dq cq) ->
  forall rq, Forall (fun r => r = rs_rwr (rs_recv_wr_id 0) []) rq ->
  own c c' m s x (set_cq (p_cq p ++ [mkRsWc (rs_recv_wr_id 0) true (Some (bswap 4 (msg_of c' i)))]) (set_rq rq p)) sent
    (mkQv sq dq (cq ++ [Rcvd i])).
Proof.
  assert (Hv : v_out (mkQv sq dq (cq ++ [Rcvd i])) = v_out (mkQv sq dq cq)).
  { unfold v_out. simpl. autorewrite with items. simpl. by rewrite app_nil_r. }
  intros [] rq Hrq. split; rewrite ?Hv; try done; simpl in *.
  rewrite map_app. simpl. by rewrite o_cq.
Qed.

(** ** Polling *)

Lemma own_poll_rcvd m s x p sent i sq dq cq : own c c' m s x p sent (mkQv sq dq (Rcvd i :: cq)) ->
  own c c' m s x (set_cq (map (wc_of c c') cq) p) sent (mkQv sq dq cq).
Proof. by intros []. Qed.

Lemma own_poll_data m s s2 x p sent d l sq dq cq : own c c' m s x p sent (mkQv sq dq (Sent (Data d l) :: cq)) ->
  sbuf_bytes_avail s2 = sbuf_bytes_avail s + l -> sqe_avail s2 = sqe_avail s + 1 ->
  ssgl0_addr s2 = ssgl0_addr s -> iomap_pending s2 = iomap_pending s ->
  own c c' m s2 x (set_cq (map (wc_of c c') cq) p) sent (mkQv sq dq cq).
Proof.
  intros [] E1 E2 E3 E4. unfold v_out in *. simpl in *. destruct o_run as (-> & Hl & Hrun).
  pose proof (run_le _ _ _ Hrun). rewrite zlen_cons in o_sqe.
  split; unfold v_out; simpl; rewrite ?E1, ?E2, ?E3, ?E4; try done; try lia.
  by replace (zlen sent - (sbuf_size c - (sbuf_bytes_avail s + l))) with (zlen sent - (sbuf_size c - sbuf_bytes_avail s) + l) by lia.
Qed.

Lemma own_poll_ctrl m s x x2 p sent i q sq dq cq : own c c' m s x p sent (mkQv sq dq (Sent i :: cq)) ->
  datas [i] = [] -> ctrls [i] = [q] -> ctrl_seqno x2 = ctrl_seqno x -> ctrl_max_seqno x2 = u32 (ctrl_max_seqno x + 1) ->
  own c c' m s x2 (set_cq (map (wc_of c c') cq) p) sent (mkQv sq dq cq).
Proof.
  intros [] Hd Hi E1 E2. change (v_out (mkQv sq dq (Sent i :: cq))) with ([i] ++ v_out (mkQv sq dq cq)) in *.
  autorewrite with items in *. rewrite Hd, Hi in *. simpl in *.
  split; try done. destruct o_ctrl as (cn & oc & Hoc & Hq & Hn & Hm). exists cn, (oc - 1).
  assert (0 < oc) by (destruct (Z.lt_ge_cases 0 oc); [done|]; rewrite seqZ_nil in Hq by lia; discriminate Hq).
  rewrite seqZ_cons in Hq by lia. injection Hq as -> Hq. rewrite Hq, E1, E2, Hm, u32_add_l.
  split; [lia|]. split; [f_equal; lia|]. split; [done|]. f_equal. lia.
Qed.

End Own.
