(* ===== verification/RsSend.v ===== *)
(** * A transfer of [rsend]

    What [send_chunk] does on a connection: the bytes go into the ring of the send
    buffer, the entry for credits shrinks, and one request is posted that writes them
    behind all that was sent before. *)

From S2P Require Import Prelude CLayout Wire CmdCtrl Verbs CmTypes CmRoute RsTypes RsPost RsStream RsWorld RsInv RsRing.
From S2P Require Import RsRoom RsOwn.

Implicit Types t : rst port.

Abbreviation cf t := (rs_cf (t_rs t)).
Abbreviation snd t := (rs_s (t_rs t)).
Abbreviation rcv t := (rs_r (t_rs t)).
Abbreviation ctl t := (rs_c (t_rs t)).

(** ** Posting *)

Lemma no_msg_send t : conf_ok (cf t) -> msg_send t = false.
Proof. intros Hc. unfold msg_send. by rewrite (k_opts _ Hc). Qed.

Lemma post_ok w t :
  post_send port_dev w t = (with_dev (set_sq (p_sq (t_dev t) ++ [w]) (t_dev t)) t, 0).
Proof. done. Qed.

Lemma post_write_msg_ok sgl msg addr rkey t : conf_ok (cf t) ->
  rs_post_write_msg port_dev sgl msg 0 addr rkey t
  = (with_dev (set_sq (p_sq (t_dev t) ++ [rs_wr msg sgl IBV_WR_RDMA_WRITE_WITH_IMM 0 (bswap 4 msg) addr rkey]) (t_dev t)) t, 0).
Proof. intros Hc. unfold rs_post_write_msg. rewrite no_msg_send by done. by apply post_ok. Qed.

Lemma post_msg_ok msg t : conf_ok (cf t) ->
  rs_post_msg port_dev msg t
  = (with_dev (set_sq (p_sq (t_dev t) ++ [rs_wr msg [] IBV_WR_RDMA_WRITE_WITH_IMM 0 (bswap 4 msg) 0 0]) (t_dev t)) t, 0).
Proof. intros Hc. unfold rs_post_msg. rewrite no_msg_send by done. by apply post_ok. Qed.

(** ** The ring of the send buffer *)

Definition ring_write (c : rs_conf) (m : mem) (pos : Z) (bs : list Z) : mem :=
  let left := sbuf_size c - pos mod sbuf_size c in
  let a := sbuf c + pos mod sbuf_size c in
  if zlen bs <=? left then write_bytes m a bs
  else write_bytes (write_bytes m a (take (Z.to_nat left) bs)) (sbuf c) (drop (Z.to_nat left) bs).

Lemma ring_write_out c m pos bs a : conf_ok c -> zlen bs <= sbuf_size c ->
  ~ (sbuf c <= a < sbuf c + sbuf_size c) -> ring_write c m pos bs a = m a.
Proof.
  intros Hc Hl Ha. pose proof (k_sbuf c Hc) as (_ & [Hlow _] & _). unfold RS_SNDLOWAT in Hlow.
  pose proof (Z.mod_pos_bound pos (sbuf_size c) ltac:(lia)). unfold ring_write, zlen in *.
  destruct (Z.leb_spec (Z.of_nat (length bs)) (sbuf_size c - pos mod sbuf_size c)).
  - apply write_bytes_out. lia.
  - rewrite !write_bytes_out; [done|rewrite length_take; lia|rewrite length_drop; lia].
Qed.

Lemma ring_write_new c m pos bs i : conf_ok c -> 0 <= pos -> zlen bs <= sbuf_size c -> pos <= i < pos + zlen bs ->
  ring_write c m pos bs (sbuf c + i mod sbuf_size c) = nth (Z.to_nat (i - pos)) bs 0.
Proof.
  intros Hc Hp Hl Hi. pose proof (k_sbuf c Hc) as (_ & [Hlow _] & _). unfold RS_SNDLOWAT in Hlow.
  set (n := sbuf_size c) in *. pose proof (Z.mod_pos_bound pos n ltac:(lia)) as Hm. unfold ring_write. fold n.
  destruct (Z.leb_spec (zlen bs) (n - pos mod n)) as [Hw|Hw]; unfold zlen in *.
  - replace i with (pos + (i - pos)) at 1 by lia. rewrite mod_step by lia. rewrite Z.add_assoc.
    rewrite write_bytes_in by lia. done.
  - destruct (Z.lt_ge_cases (i - pos) (n - pos mod n)).
    + replace i with (pos + (i - pos)) at 1 by lia. rewrite mod_step by lia.
      rewrite write_bytes_out by (rewrite length_drop; lia). rewrite Z.add_assoc.
      rewrite write_bytes_in by (rewrite length_take; lia).
      rewrite !nth_lookup, lookup_take_lt by lia. done.
    + replace i with (pos + (i - pos)) at 1 by lia. rewrite mod_wrap by lia.
      rewrite write_bytes_in by (rewrite length_drop; lia).
      rewrite !nth_lookup, lookup_drop. do 2 f_equal. lia.
Qed.

Lemma ring_write_old c m pos bs i : conf_ok c -> 0 <= pos -> zlen bs <= sbuf_size c ->
  pos + zlen bs - sbuf_size c <= i < pos ->
  ring_write c m pos bs (sbuf c + i mod sbuf_size c) = m (sbuf c + i mod sbuf_size c).
Proof.
  intros Hc Hp Hl Hi. pose proof (k_sbuf c Hc) as (_ & [Hlow _] & _). unfold RS_SNDLOWAT in Hlow.
  set (n := sbuf_size c) in *. pose proof (Z.mod_pos_bound pos n ltac:(lia)) as Hm.
  pose proof (Z.mod_pos_bound i n ltac:(lia)) as Him. unfold ring_write. fold n.
  assert (Hne : forall j, 0 <= j < zlen bs -> i mod n <> (pos + j) mod n).
  { intros j Hj He%mod_inj; lia. }
  destruct (Z.leb_spec (zlen bs) (n - pos mod n)) as [Hw|Hw]; unfold zlen in *.
  - apply write_bytes_out. destruct (Z.lt_ge_cases (i mod n) (pos mod n)); [lia|]. right.
    destruct (Z.lt_ge_cases (i mod n) (pos mod n + Z.of_nat (length bs))); [|lia]. exfalso.
    apply (Hne (i mod n - pos mod n)); [lia|]. rewrite mod_step; lia.
  - rewrite !write_bytes_out; [done|..]; rewrite ?length_take, ?length_drop.
    + destruct (Z.lt_ge_cases (i mod n) (pos mod n)); [lia|]. exfalso.
      apply (Hne (i mod n - pos mod n)); [lia|]. rewrite mod_step; lia.
    + destruct (Z.lt_ge_cases (i mod n) (Z.of_nat (length bs) - (n - pos mod n))); [|lia]. exfalso.
      apply (Hne (i mod n + (n - pos mod n))); [lia|]. rewrite mod_wrap; lia.
Qed.

(** ** The transfer *)

(** The fields of the sender after a transfer of [x] bytes with the entry [g]. *)
Definition sent_snd (s : rs_snd) (g : rs_sge) (x ssgl0 : Z) : rs_snd :=
  mkRsSnd (u16 (sseq_no s + 1)) (sseq_comp s)
    (if u32 (rg_length g - x) =? 0 then (if target_sge s + 1 =? RS_SGL_SIZE then 0 else target_sge s + 1)
     else target_sge s) ssgl0
    (sbuf_bytes_avail s - x) (sqe_avail s - 1) (iomap_queue s) (iomap_list s) (iomap_pending s).

Definition used_entry (m : mem) (a : Z) (g : rs_sge) (x : Z) : mem :=
  write_bytes (write_bytes m a (le_split 8 (u64 (rg_addr g + x)))) (a + 12) (le_split 4 (u32 (rg_length g - x))).

Lemma used_entry_out m a g x b : ~ (a <= b < a + 16) -> used_entry m a g x b = m b.
Proof. intros Hb. unfold used_entry. rewrite !write_bytes_out; rewrite ?le_split_length; done || lia. Qed.

Lemma write_data_ok sgl x t : conf_ok (cf t) ->
  rs_write_data port_dev sgl x 0 t
  = (mkRst (set_s (sent_snd (snd t) (target t) x (ssgl0_addr (snd t))) (t_rs t))
       (used_entry (t_mem t) (target_at t (target_sge (snd t))) (target t) x)
       (set_sq (p_sq (t_dev t) ++ [rs_wr (rs_msg_set RS_OP_DATA x) sgl IBV_WR_RDMA_WRITE_WITH_IMM 0
                  (bswap 4 (rs_msg_set RS_OP_DATA x)) (rg_addr (target t)) (rg_key (target t))]) (t_dev t))
       (t_errno t), 0).
Proof.
  intros Hc. unfold rs_write_data.
  change (target (take_credit x t)) with (target t). cbv zeta.
  destruct (u32 (rg_length (target t) - x) =? 0) eqn:E;
    (rewrite post_write_msg_ok by done; unfold sent_snd, take_credit, next_target; rewrite E, no_msg_send by done;
     reflexivity).
Qed.

(** The two branches of [send_chunk] are one write into the ring. *)
Lemma send_chunk_ok bs t c' m s x p sent v : own (cf t) c' m s x p sent v ->
  t_mem t = m -> snd t = s -> ctl t = x -> t_dev t = p -> conf_ok (cf t) ->
  0 < sqe_avail s -> 0 < zlen bs <= sbuf_bytes_avail s -> 0 <= target_sge s < 2 ->
  let g := target t in
  let m1 := ring_write (cf t) m (zlen sent) bs in
  send_chunk port_dev bs t
  = (mkRst (set_s (sent_snd s g (zlen bs) (sbuf (cf t) + (zlen sent + zlen bs) mod sbuf_size (cf t))) (t_rs t))
       (used_entry m1 (target_at t (target_sge s)) g (zlen bs))
       (set_sq (p_sq p ++ [rs_wr (rs_msg_set RS_OP_DATA (zlen bs)) (ring_sgl (cf t) (zlen sent) (zlen bs))
                  IBV_WR_RDMA_WRITE_WITH_IMM 0 (bswap 4 (rs_msg_set RS_OP_DATA (zlen bs))) (rg_addr g) (rg_key g)]) p)
       (t_errno t), 0).
Proof.
  intros Hown <- <- <- <- Hc Hq Hbs Hts g m1.
  pose proof (k_sbuf _ Hc) as (Hs0 & [Hlow H31] & _). unfold RS_SNDLOWAT in Hlow. destruct Hown.
  set (n := sbuf_size (cf t)) in *. pose proof (Z.mod_pos_bound (zlen sent) n ltac:(lia)) as Hm.
  assert (Hleft : forall a r, ssgl0_addr (snd t) = a -> rs_cf r = cf t -> rs_s r = snd t ->
    u32 (sbuf (rs_cf r) + sbuf_size (rs_cf r) - a) = n - zlen sent mod n).
  { intros a r <- -> _. rewrite o_addr. fold n. rewrite u32_small; lia. }
  assert (Htg : forall t2, t_rs t2 = t_rs t -> t_mem t2 = m1 -> target t2 = g).
  { intros t2 E Em. unfold target, target_at. rewrite E, Em. apply read_sge_ext. intros a Ha.
    apply ring_write_out; [done|unfold n in *; lia|].
    pose proof (k_st _ Hc) as [|]; unfold target_at, sizeof_rs_sge, n in *; lia. }
  unfold send_chunk, rs_sbuf_left. rewrite (Hleft _ (t_rs t)) by done. fold (zlen bs).
  unfold ring_sgl. fold n. subst m1. unfold ring_write in *. fold n in Htg |- *.
  destruct (Z.leb_spec (zlen bs) (n - zlen sent mod n)) as [Hw|Hw].
  - rewrite write_data_ok by done. cbv beta iota. rewrite !Htg by (done || by rewrite <- o_addr).
    unfold upd_s, upd, stage, with_mem, sbuf_sge, target_at.
    cbn [t_rs t_mem t_dev t_errno rs_s rs_cf rs_r rs_c set_s ssgl0_addr sent_snd]. rewrite Hleft, o_addr by done.
    do 2 f_equal. unfold set_s, set_ssgl0, sent_snd. cbn. do 2 f_equal.
    destruct (Z.ltb_spec (zlen bs) (n - zlen sent mod n)).
    + rewrite mod_step by lia. lia.
    + rewrite mod_wrap by lia. lia.
  - rewrite write_data_ok by done. cbv beta iota. rewrite !Htg by (done || by rewrite <- o_addr).
    unfold upd_s, upd, stage, with_mem, sbuf_sge, target_at.
    cbn [t_rs t_mem t_dev t_errno rs_s rs_cf rs_r rs_c set_s ssgl0_addr sent_snd]. rewrite o_addr.
    do 2 f_equal. unfold set_s, set_ssgl0, sent_snd. cbn. do 2 f_equal. rewrite mod_wrap by lia. lia.
Qed.
