(* ===== verification/RsKept.v ===== *)
(** * The invariant of a connection is kept: sending, credits and receiving

    Each block of rsocket.c that runs under a lock keeps [inv]; that posts are not
    refused and array accesses are in range comes with it. *)

From S2P Require Import Prelude CLayout Wire CmdCtrl Verbs CmTypes CmRoute RsTypes RsPost RsStream RsWorld RsInv RsRing.
From S2P Require Import RsBytes RsRoom RsOwn RsSend.

Implicit Types t : rst port.

#[local] Arguments bswap : simpl never.
#[local] Arguments read_sge : simpl never.
#[local] Arguments read_bytes : simpl never.
#[local] Arguments le_combine : simpl never.
#[local] Arguments le_split : simpl never.
#[local] Arguments rs_wr : simpl never.

Abbreviation s_snd x := (rs_s (t_rs (s_t x))).
Abbreviation s_rcv x := (rs_r (t_rs (s_t x))).
Abbreviation s_ctl x := (rs_c (t_rs (s_t x))).

(** ** What a direction depends on *)

Lemma creds_ext c' s s2 r r2 x x2 n cl : creds c' s r x n cl ->
  sseq_no s2 = sseq_no s -> sseq_comp s2 = sseq_comp s -> rseq_no r2 = rseq_no r -> rseq_comp x2 = rseq_comp x ->
  creds c' s2 r2 x2 n cl.
Proof. intros (nc & c0 & top & H) E1 E2 E3 E4. exists nc, c0, top. by rewrite E1, E2, E3, E4. Qed.

Record same_dir (x : side) (v : qview) (y : side) (w : qview) (x2 : side) (v2 : qview) (y2 : side) (w2 : qview)
  : Prop := {
  d_cfx : s_cf x2 = s_cf x;
  d_cfy : s_cf y2 = s_cf y;
  d_sent : s_sent x2 = s_sent x;
  d_got : s_got y2 = s_got y;
  d_no : sseq_no (s_snd x2) = sseq_no (s_snd x);
  d_comp : sseq_comp (s_snd x2) = sseq_comp (s_snd x);
  d_tsge : target_sge (s_snd x2) = target_sge (s_snd x);
  d_rcv : s_rcv y2 = s_rcv y;
  d_rcomp : rseq_comp (s_ctl y2) = rseq_comp (s_ctl y);
  d_rsge : remote_sge (s_ctl y2) = remote_sge (s_ctl y);
  d_memx : forall a, target_sgl (s_cf x) <= a < target_sgl (s_cf x) + 32 -> s_mem x2 a = s_mem x a;
  d_memy : forall a, rbuf (s_cf y) <= a < rbuf (s_cf y) + rbuf_size (s_cf y) -> s_mem y2 a = s_mem y a;
  d_sq : datas (v_sq v2) = datas (v_sq v);
  d_cq : credits (rcvds (v_cq v2)) = credits (rcvds (v_cq v));
  d_grants : grants (v_sq w2) = grants (v_sq w);
  d_credits : credits (v_sq w2) = credits (v_sq w);
  d_datas : datas (rcvds (v_cq w2)) = datas (rcvds (v_cq w)) }.

Lemma direction_ext x v y w x2 v2 y2 w2 : direction x v y w -> conf_ok (s_cf x) -> conf_ok (s_cf y) ->
  same_dir x v y w x2 v2 y2 w2 -> direction x2 v2 y2 w2.
Proof.
  intros [(rm & Hb & Hcr) (g & gd & Hr)] Hcx Hcy [E1 E2 E3 E4 E5 E6 E7 E8 E9 E10 M1 M2 E11 E12 E13 E14 E15]. split.
  - exists rm. rewrite E2, E3, E4, E8, E11, E12, E14, E15. split; [by eapply bytes_mem|].
    by eapply creds_ext.
  - exists g, gd. rewrite E1, E2, E3, E4, E7, E8, E10, E11, E13. by eapply room_mem.
Qed.

(** ** Sending *)

Lemma xfer_bounds n olen t x olen' : xfer_of n olen t = (x, olen') ->
  0 < n < 2 ^ 32 -> 1 <= olen <= RS_MAX_TRANSFER -> 0 < sbuf_bytes_avail (snd t) < 2 ^ 31 ->
  0 < rg_length (target t) ->
  0 < x /\ x <= n /\ x <= RS_MAX_TRANSFER /\ x <= sbuf_bytes_avail (snd t) /\ x <= rg_length (target t).
Proof.
  unfold xfer_of. generalize (rg_length (target t)) as l. intros l E Hn Ho Ha Hl.
  rewrite (u32_small (sbuf_bytes_avail _)), (u32_small n) in E by lia.
  repeat case_match; simplify_eq; rewrite ?Z.ltb_lt, ?Z.ltb_ge in *; lia.
Qed.

(** What [rs_can_send] finds. *)
Lemma can_send_spec x y vx r rsge g gd gsq dsq :
  conf_ok (s_cf x) -> conf_ok (s_cf y) -> side_own x y vx ->
  room (s_cf x) (s_cf y) (s_mem x) (target_sge (s_snd x)) r rsge (zlen (s_sent x)) (zlen (s_got y)) g gd gsq dsq ->
  rs_can_send (s_t x) = true ->
  0 < sqe_avail (s_snd x) /\ RS_SNDLOWAT <= sbuf_bytes_avail (s_snd x) < 2 ^ 31 /\
  sseq_no (s_snd x) <> sseq_comp (s_snd x) /\ zlen (s_sent x) / halfc (s_cf y) < gd /\
  target (s_t x) = mkRsSge (rbuf (s_cf y) + zlen (s_sent x) mod rbuf_size (s_cf y)) (rmr_rkey (s_cf y))
                     (halfc (s_cf y) - zlen (s_sent x) mod halfc (s_cf y)) /\
  0 <= target_sge (s_snd x) < 2.
Proof.
  intros Hcx Hcy Hox Hr Hcan. unfold rs_can_send in Hcan. rewrite no_msg_send in Hcan by done.
  apply andb_prop in Hcan as [[[Hq Ha]%andb_prop Hsq]%andb_prop Htg].
  apply negb_true_iff, Z.eqb_neq in Hq, Hsq, Htg. apply Z.leb_le in Ha.
  pose proof (k_sbuf _ Hcx) as (_ & [_ H31] & _). pose proof (o_avail _ _ _ _ _ _ _ _ Hox).
  pose proof (o_sqe0 _ _ _ _ _ _ _ _ Hox).
  destruct (room_target _ _ Hcy _ _ _ _ _ _ _ _ _ _ Hr Htg) as [Hgd Hent].
  repeat split; try done; try lia; rewrite (r_tsge _ _ _ _ _ _ _ _ _ _ _ _ Hr);
    pose proof (Z.mod_pos_bound (zlen (s_sent x) / halfc (s_cf y)) 2); lia.
Qed.

(** The state after a transfer of [bs]. *)
Lemma inv_sent x y bs t' ret : inv x y -> rs_can_send (s_t x) = true ->
  0 < zlen bs <= RS_MAX_TRANSFER -> zlen bs <= sbuf_bytes_avail (s_snd x) -> zlen bs <= rg_length (target (s_t x)) ->
  send_chunk port_dev bs (s_t x) = (t', ret) ->
  inv (mkSide t' (s_sent x ++ bs) (s_got x)) y /\ ret = 0 /\ p_cq (t_dev t') = p_cq (s_port x).
Proof.
  intros (vx & vy & [Hcx Hlx] & [Hcy Hly] & Hox & Hoy & [(rm & Hb & Hcr) (g & gd & Hr)] & Hd2) Hcan Hl Ha Hg Hsend.
  destruct (can_send_spec _ _ _ _ _ _ _ _ _ Hcx Hcy Hox Hr Hcan) as (Hq & Hav & Hsq & Hgd & Hent & Hts).
  pose proof (k_rbuf _ Hcy) as (_ & Hh & Hsz & H31' & _). pose proof (Z.mod_pos_bound (zlen (s_sent x)) _ Hh).
  pose proof (o_avail _ _ _ _ _ _ _ _ Hox).
  rewrite (send_chunk_ok _ _ _ _ _ _ _ _ _ Hox) in Hsend; try done; [|lia..].
  apply pair_eq in Hsend as [<- <-]. split; [|done]. rewrite Hent in Hg |- *. simpl in Hg. unfold RS_MAX_TRANSFER in Hl.
  set (m1 := ring_write _ _ _ _).
  assert (Hm1 : forall a, ~ (sbuf (s_cf x) <= a < sbuf (s_cf x) + sbuf_size (s_cf x)) -> m1 a = s_mem x a).
  { intros a Ha'. apply ring_write_out; [done|lia|done]. }
  pose proof (k_st _ Hcx) as Hst. pose proof (k_sr _ Hcx) as Hsr. pose proof (k_rt _ Hcx) as Hrt.
  unfold apart in *. pose proof (zlen_nonneg (s_sent x)).
  exists (vsend (Data (zlen (s_sent x)) (zlen bs)) vx), vy. split_and!; try done.
  - unfold side_own. cbn -[used_entry vsend].
    eapply own_mem; [done|eapply (own_send _ _ Hcx _ m1 _ _ _ _ _ _ _ Hox)|]; try done; try lia.
    + intros i Hi. apply ring_write_new; [done|lia..].
    + intros i Hi. apply ring_write_old; [done|lia..].
    + intros a Ha'. apply Hm1. lia.
    + apply (o_iomaps _ _ _ _ _ _ _ _ Hox).
    + intros a Ha'. apply used_entry_out. unfold target_at, sizeof_rs_sge. lia.
  - split; cbn; autorewrite with items; cbn.
    + exists rm. split; [apply bytes_send; [done|lia]|].
      replace (zlen rm + _ + _) with (zlen rm + zlen (datas (rcvds (v_cq vy))) + zlen (datas (v_sq vx)) + 1)
        by (rewrite zlen_app, zlen_cons; change (zlen (@nil (Z * Z))) with 0; lia).
      by eapply creds_send.
    + exists g, gd. rewrite zlen_app. eapply (room_send _ _ Hcx Hcy m1); [|done|lia].
      eapply room_mem; [done|]. intros a Ha'. apply Hm1. lia.
  - eapply direction_ext; [exact Hd2|done|done|]. split; try done; cbn; autorewrite with items; rewrite ?app_nil_r; try done.
    intros a Ha'. rewrite used_entry_out; [apply Hm1; lia|]. unfold target_at, sizeof_rs_sge. lia.
Qed.

Lemma inv_send x y data olen xfer olen' t' ret : inv x y ->
  rs_can_send (s_t x) = true -> data <> [] -> Z.of_nat (length data) < 2 ^ 32 -> 1 <= olen <= RS_MAX_TRANSFER ->
  xfer_of (Z.of_nat (length data)) olen (s_t x) = (xfer, olen') ->
  send_chunk port_dev (take (Z.to_nat xfer) data) (s_t x) = (t', ret) ->
  inv (mkSide t' (s_sent x ++ take (Z.to_nat xfer) data) (s_got x)) y /\ ret = 0 /\
  p_cq (t_dev t') = p_cq (s_port x) /\ 0 < xfer <= Z.of_nat (length data).
Proof.
  intros Hinv Hcan Hne Hdl Ho Hx Hsend. pose proof Hinv as
    (vx & vy & [Hcx _] & [Hcy _] & Hox & _ & [_ (g & gd & Hr)] & _).
  destruct (can_send_spec _ _ _ _ _ _ _ _ _ Hcx Hcy Hox Hr Hcan) as (_ & Hav & _ & _ & Hent & _).
  pose proof (k_rbuf _ Hcy) as (_ & Hh & _). pose proof (Z.mod_pos_bound (zlen (s_sent x)) _ Hh).
  unfold RS_SNDLOWAT in Hav. assert (0 < Z.of_nat (length data)) by (destruct data; [done|simpl; lia]).
  destruct (xfer_bounds _ _ _ _ _ Hx) as (X1 & X2 & X3 & X4 & X5); rewrite ?Hent; simpl; try lia.
  assert (Hbs : zlen (take (Z.to_nat xfer) data) = xfer) by (unfold zlen; rewrite length_take; lia).
  destruct (inv_sent x y (take (Z.to_nat xfer) data) t' ret) as (? & ? & ?); rewrite ?Hbs; try done.
Qed.

(** ** Giving credits *)

(** The fields of [rs_ctl] after a control message. *)
Definition ctl_next (x : rs_ctl) : rs_ctl := set_ctrl (u32 (ctrl_seqno x + 1)) (ctrl_max_seqno x) x.

(** The two branches of [rs_send_credits]. *)
Lemma send_credits_half t : conf_ok (cf t) ->
  half t <= u32 (rbuf_bytes_avail (rcv t)) ->
  let a := sbuf (cf t) + sbuf_size (cf t) + 16 * Z.land (u32 (ctrl_seqno (ctl t) + 1)) 3 in
  let off := rbuf_free_offset (rcv t) + half t in
  let msg := rs_msg_set RS_OP_SGL (rseq_no (rcv t) + rq_size (cf t)) in
  rs_send_credits port_dev t
  = mkRst (mkRs (cf t) (snd t)
             (set_free (rbuf_bytes_avail (rcv t) - half t) (if rbuf_size (cf t) <=? off then 0 else off) (rcv t))
             (set_remote_sge (if remote_sge (ctl t) + 1 =? rg_length (remote_sgl (cf t)) then 0 else remote_sge (ctl t) + 1)
                (set_rseq_comp (u16 (rseq_no (rcv t) + Z.shiftr (rq_size (cf t)) 1)) (ctl_next (ctl t)))))
      (write_bytes (t_mem t) a (sge_bytes (mkRsSge (u64 (rbuf (cf t) + rbuf_free_offset (rcv t))) (rmr_rkey (cf t)) (half t))))
      (set_sq (p_sq (t_dev t) ++ [rs_wr msg [mkSge a sizeof_rs_sge (smr_lkey (cf t))] IBV_WR_RDMA_WRITE_WITH_IMM 0 (bswap 4 msg)
         (u64 (rg_addr (remote_sgl (cf t)) + remote_sge (ctl t) * sizeof_rs_sge)) (rg_key (remote_sgl (cf t)))]) (t_dev t))
      (t_errno t).
Proof.
  intros Hc Hh a off msg. unfold rs_send_credits.
  change (half (upd_c _ _)) with (half t). change (rcv (upd_c _ _)) with (rcv t).
  destruct (Z.leb_spec (half t) (u32 (rbuf_bytes_avail (rcv t)))); [|lia].
  rewrite no_msg_send by done. cbv zeta. rewrite post_write_msg_ok by done. cbv beta iota delta [fst].
  unfold free_half. change (rs_opts _) with (rs_opts (cf t)). rewrite (k_opts _ Hc). reflexivity.
Qed.

Lemma send_credits_msg t : conf_ok (cf t) ->
  u32 (rbuf_bytes_avail (rcv t)) < half t ->
  let msg := rs_msg_set RS_OP_SGL (rseq_no (rcv t) + rq_size (cf t)) in
  rs_send_credits port_dev t
  = mkRst (mkRs (cf t) (snd t) (rcv t)
             (set_rseq_comp (u16 (rseq_no (rcv t) + Z.shiftr (rq_size (cf t)) 1)) (ctl_next (ctl t))))
      (t_mem t) (set_sq (p_sq (t_dev t) ++ [rs_wr msg [] IBV_WR_RDMA_WRITE_WITH_IMM 0 (bswap 4 msg) 0 0]) (t_dev t))
      (t_errno t).
Proof.
  intros Hc Hh msg. unfold rs_send_credits.
  change (half (upd_c _ _)) with (half t). change (rcv (upd_c _ _)) with (rcv t).
  destruct (Z.leb_spec (half t) (u32 (rbuf_bytes_avail (rcv t)))); [lia|].
  rewrite post_msg_ok by done. reflexivity.
Qed.

Lemma half_avail c c' m tsge r rsge s k g gd gsq dsq : conf_ok c' -> room c c' m tsge r rsge s k g gd gsq dsq ->
  u32 (rbuf_bytes_avail r) = rbuf_bytes_avail r.
Proof. intros Hc []. pose proof (k_rbuf c' Hc). apply u32_small. nia. Qed.

(** A half is granted. *)
Lemma inv_grant x y : inv x y -> rs_ctrl_avail (s_t x) = true -> half (s_t x) <= u32 (rbuf_bytes_avail (s_rcv x)) ->
  inv (with_t (rs_send_credits port_dev (s_t x)) x) y.
Proof.
  intros (vx & vy & [Hcx Hlx] & [Hcy Hly] & Hox & Hoy & Hd1 & [(rm & Hb & Hcr) (g & gd & Hr)]) Hav Hh.
  apply negb_true_iff, Z.eqb_neq in Hav.
  rewrite (half_avail _ _ _ _ _ _ _ _ _ _ _ _ Hcx Hr) in Hh.
  rewrite send_credits_half by (try done; by rewrite (half_avail _ _ _ _ _ _ _ _ _ _ _ _ Hcx Hr)).
  set (x2 := set_remote_sge _ _). set (m' := write_bytes _ _ _).
  destruct (own_ctrl _ _ Hcx _ _ _ x2 _ _ _ Hox Hav eq_refl eq_refl) as (q & Hq & Hown).
  destruct (creds_give _ _ _ _ x2 _ _ Hcr eq_refl) as (n & Hcr' & Hn).
  change (ctrl_seqno x2) with (u32 (ctrl_seqno (s_ctl x) + 1)) in Hq. rewrite <- Hq.
  pose proof (room_grant _ _ Hcx _ _ _ _ _ _ _ _ _ _ Hr Hh) as Hr'.
  pose proof (r_free _ _ _ _ _ _ _ _ _ _ _ _ Hr) as Hfo. pose proof (r_rsge _ _ _ _ _ _ _ _ _ _ _ _ Hr) as Hrs.
  pose proof (k_rbuf _ Hcx) as (? & ? & ? & ? & ?). pose proof (k_target _ Hcy).
  assert (Hg2 : g mod 2 = 0 \/ g mod 2 = 1) by apply mod2.
  assert (Hsge : mkRsSge (u64 (rbuf (s_cf x) + rbuf_free_offset (s_rcv x))) (rmr_rkey (s_cf x)) (half (s_t x))
                 = grant_sge (s_cf x) g).
  { rewrite Hfo, u64_small; [done|]. destruct Hg2 as [-> | ->]; lia. }
  assert (Em : m' = write_bytes (s_mem x) (slot (s_cf x) q) (sge_bytes (grant_sge (s_cf x) g))).
  { subst m'. by rewrite Hq, <- Hsge. }
  clearbody m'.
  assert (Haddr : u64 (rg_addr (remote_sgl (s_cf x)) + remote_sge (s_ctl x) * sizeof_rs_sge)
                  = target_sgl (s_cf y) + g mod 2 * sizeof_rs_sge).
  { rewrite Hlx, Hrs. simpl. unfold sizeof_rs_sge. apply u64_small. destruct Hg2 as [-> | ->]; lia. }
  assert (Hm' : forall a, ~ (slot (s_cf x) q <= a < slot (s_cf x) q + 16) -> m' a = s_mem x a).
  { intros a Ha. rewrite Em. apply write_bytes_out. rewrite sge_bytes_length. lia. }
  pose proof (k_st _ Hcx) as Hst. pose proof (k_sr _ Hcx) as Hsr. pose proof (k_sbuf _ Hcx) as (_ & [Hsb _] & _).
  unfold apart, RS_SNDLOWAT in *.
  exists (vsend (Grant g n q) vx), vy. split_and!; try done.
  - unfold side_own. cbn -[x2]. rewrite Haddr, Hn, Hlx. cbn -[x2].
    apply (Hown (Grant g n q) m'); [done|done| |].
    + intros a _ Ha. by apply Hm'.
    + intros ? ? ? [= <- <- <-]. rewrite Em.
      change 16 with (Z.of_nat 16). rewrite <- (sge_bytes_length (grant_sge (s_cf x) g)). apply read_write.
  - eapply direction_ext; [exact Hd1|done|done|]. split; try done; cbn; autorewrite with items; rewrite ?app_nil_r; try done.
    intros a Ha. apply Hm'. intros Hs%slot_in. lia.
  - split; cbn -[x2]; autorewrite with items; cbn -[x2].
    + exists rm. split; [|by rewrite app_assoc].
      apply bytes_mem with (m := s_mem x); [done| |intros a Ha; apply Hm'; intros Hs%slot_in; lia].
      by destruct Hb.
    + exists (g + 1), gd. unfold x2. cbn. rewrite Hlx. exact Hr'.
Qed.

(** A credit alone. *)
Lemma inv_credit x y : inv x y -> rs_ctrl_avail (s_t x) = true -> u32 (rbuf_bytes_avail (s_rcv x)) < half (s_t x) ->
  inv (with_t (rs_send_credits port_dev (s_t x)) x) y.
Proof.
  intros (vx & vy & [Hcx Hlx] & [Hcy Hly] & Hox & Hoy & Hd1 & [(rm & Hb & Hcr) (g & gd & Hr)]) Hav Hh.
  apply negb_true_iff, Z.eqb_neq in Hav.
  rewrite send_credits_msg by done. set (x2 := set_rseq_comp _ _).
  destruct (own_ctrl _ _ Hcx _ _ _ x2 _ _ _ Hox Hav eq_refl eq_refl) as (q & Hq & Hown).
  destruct (creds_give _ _ _ _ x2 _ _ Hcr eq_refl) as (n & Hcr' & Hn).
  exists (vsend (Credit n q) vx), vy. split_and!; try done.
  - unfold side_own. cbn -[x2]. rewrite Hn. by apply (Hown (Credit n q)).
  - eapply direction_ext; [exact Hd1|done|done|]. split; try done; cbn; autorewrite with items; by rewrite ?app_nil_r.
  - split; cbn -[x2]; autorewrite with items; cbn -[x2]; rewrite ?app_nil_r.
    + exists rm. split; [done|]. by rewrite app_assoc.
    + by exists g, gd.
Qed.

Lemma inv_credits x y : inv x y -> inv (with_t (rs_update_credits port_dev (s_t x)) x) y.
Proof.
  intros Hinv. unfold rs_update_credits. destruct (rs_give_credits (s_t x)) eqn:E; [|by destruct x].
  apply andb_prop in E as [[_ E]%andb_prop _].
  assert (Hc : conf_ok (s_cf x)) by by destruct Hinv as (? & ? & [] & _).
  rewrite no_msg_send in E by done.
  destruct (Z.le_gt_cases (half (s_t x)) (u32 (rbuf_bytes_avail (s_rcv x)))); [by apply inv_grant|by apply inv_credit].
Qed.
