(* ===== verification/RsTaken.v ===== *)
(** * The invariant of a connection is kept: receiving, completions and the wire *)

From S2P Require Import Prelude CLayout Wire CmdCtrl Verbs CmTypes CmRoute RsTypes RsPost RsStream RsWorld RsInv RsRing.
From S2P Require Import RsBytes RsRoom RsOwn RsSend RsKept.

Implicit Types t : rst port.
Implicit Types m : mem.

#[local] Arguments bswap : simpl never.
#[local] Arguments read_sge : simpl never.
#[local] Arguments read_bytes : simpl never.
#[local] Arguments le_combine : simpl never.
#[local] Arguments le_split : simpl never.
#[local] Arguments rs_wr : simpl never.
#[local] Arguments rs_msg_set : simpl never.
#[local] Arguments wr_of : simpl never.

(** ** Receiving *)

Lemma ring_nonempty {A B} (key : A -> B) l n head tail rm : ring_of key l n head tail rm -> (head =? tail) = false -> rm <> [].
Proof.
  intros [_ Hh Ht _ _] Hne ->. rewrite Z.add_0_r, Z.mod_small in Ht by done. subst tail. by rewrite Z.eqb_refl in Hne.
Qed.

(** Memory of the application. *)
Lemma app_out c buf n m m' : app_buffer c buf n -> (forall a, ~ (buf <= a < buf + n) -> m' a = m a) ->
  forall a, in_lib c a -> m' a = m a.
Proof. intros Hb Hm a Ha. apply Hm. intros Hr. by apply (Hb a). Qed.

Lemma lib_sbuf c a : sbuf c <= a < sbuf c + sbuf_size c + 64 -> in_lib c a.
Proof. left. unfold RS_MAX_CTRL_MSG, RS_QP_CTRL_SIZE, sizeof_rs_sge. lia. Qed.
Lemma lib_target c a : target_sgl c <= a < target_sgl c + 32 -> in_lib c a.
Proof. right; right. unfold RS_SGL_SIZE, sizeof_rs_sge. lia. Qed.

Lemma own_app c c' m m' s x p sent v : conf_ok c -> own c c' m s x p sent v ->
  (forall a, in_lib c a -> m' a = m a) -> own c c' m' s x p sent v.
Proof. intros Hc Ho Hm. eapply own_mem; [done..|]. intros a Ha. by apply Hm, lib_sbuf. Qed.

Lemma app_buffer_le c buf n k : app_buffer c buf n -> k <= n -> app_buffer c buf k.
Proof. intros Hb Hk a Ha. apply Hb. lia. Qed.

(** One message, or the beginning of one. *)
Lemma inv_recv_one x y buf rem : inv x y -> rs_have_rdata (s_t x) = true ->
  0 < rem < 2 ^ 32 -> app_buffer (s_cf x) buf rem ->
  exists t' n, recv_one buf rem (s_t x) = Ok (t', n) /\ 0 < n <= rem /\ rs_cf (t_rs t') = s_cf x /\
    (forall a, ~ (buf <= a < buf + n) -> t_mem t' a = s_mem x a) /\
    inv (mkSide t' (s_sent x) (s_got x ++ read_bytes (t_mem t') buf n)) y.
Proof.
  intros (vx & vy & [Hcx Hlx] & [Hcy Hly] & Hox & Hoy & Hd1 & [(rm & Hb & Hcr) (g & gd & Hr)]) Hhave Hrem Hbuf.
  destruct rm as [|a rm].
  { apply negb_true_iff in Hhave. by apply (ring_nonempty m_data _ _ _ _ _ (b_ring _ _ _ _ _ _ _ _ Hb)) in Hhave. }
  destruct (room_bound _ _ Hcx _ _ _ _ _ _ _ _ _ _ Hr) as [Hsent _].
  destruct (recv_one_spec (s_t x) buf rem _ _ _ _ _ _ Hcx Hb Hrem Hbuf Hsent)
    as (n & m' & r' & Heq & Hn & Hna & Hm' & Hb' & Hav & Hfo & Hlt & Hall).
  eexists _, n. split; [exact Heq|]. split; [done|]. split; [done|]. split; [done|].
  assert (Hlib : forall b, in_lib (s_cf x) b -> m' b = s_mem x b).
  { eapply app_out; [apply (app_buffer_le _ _ rem n); [done|lia]|done]. }
  exists vx, vy. split_and!; try done.
  - by eapply own_app.
  - eapply direction_ext; [exact Hd1|done|done|]. split; try done. intros b Hb2. by apply Hlib, lib_target.
  - assert (Hgot : zlen (s_got x ++ read_bytes m' buf n) = zlen (s_got x) + n).
    { rewrite zlen_app. unfold zlen. rewrite read_bytes_length. lia. }
    pose proof (b_got _ _ _ _ _ _ _ _ Hb') as Hp%prefix_length.
    split; cbn.
    + exists (rest_of a n rm). split; [done|]. unfold rest_of. destruct (Z.ltb_spec n a).
      * eapply creds_ext; [|done|done|by apply Hlt|done]. by rewrite !zlen_cons in *.
      * rewrite zlen_cons in Hcr.
        replace (zlen rm + _ + _) with (1 + zlen rm + zlen (datas (rcvds (v_cq vx))) + zlen (datas (v_sq vy)) - 1) by lia.
        eapply creds_consume; [done|]. apply Hall. lia.
    + exists g, gd. rewrite Hgot. eapply room_recv; [done..|lia|]. rewrite <- Hgot. unfold zlen. lia.
Qed.

(** The copying loop. *)
Lemma inv_recv n : forall x y buf rem, inv x y -> 0 <= rem < 2 ^ 32 -> app_buffer (s_cf x) buf rem ->
  forall t' rem', recv_loop n buf rem (s_t x) = Ok (t', rem') ->
  0 <= rem' <= rem /\ rs_cf (t_rs t') = s_cf x /\ (forall a, ~ (buf <= a < buf + (rem - rem')) -> t_mem t' a = s_mem x a) /\
  inv (mkSide t' (s_sent x) (s_got x ++ read_bytes (t_mem t') buf (rem - rem'))) y.
Proof.
  induction n as [|n IH]; intros x y buf rem Hinv Hrem Hbuf t' rem' Heq; simpl in Heq;
    destruct ((rem =? 0) || negb (rs_have_rdata (s_t x))) eqn:Estop.
  1, 3: injection Heq as <- <-; rewrite Z.sub_diag; change (read_bytes _ _ 0) with (@nil Z); rewrite app_nil_r; split; [lia|]; split; [done|]; split; [done|by destruct x].
  { discriminate Heq. }
  apply orb_false_iff in Estop as [Hr0%Z.eqb_neq Hh%negb_false_iff].
  destruct (inv_recv_one x y buf rem Hinv Hh ltac:(lia) Hbuf) as (t1 & k & E1 & Hk & Hcf & Hm1 & Hinv1).
  rewrite E1 in Heq. cbn [mbind res_bind] in Heq.
  destruct (IH _ _ (buf + k) (rem - k) Hinv1 ltac:(lia)) with (t' := t') (rem' := rem') as (Hr' & Hcf2 & Hm2 & Hinv2); [|done|].
  { simpl. rewrite Hcf. eapply app_buffer_sub; [done|lia..]. }
  simpl in Hinv2, Hm2, Hcf2. split; [lia|]. split; [by rewrite Hcf2|]. split.
  - intros a Ha. rewrite Hm2 by lia. apply Hm1. lia.
  - assert (E : read_bytes (t_mem t') buf (rem - rem') = read_bytes (t_mem t1) buf k ++ read_bytes (t_mem t') (buf + k) (rem - k - rem')).
    { replace (rem - rem') with (k + (rem - k - rem')) by lia. rewrite read_bytes_app by lia. f_equal.
      apply read_bytes_ext. intros a Ha. apply Hm2. lia. }
    rewrite E. by rewrite <- app_assoc in Hinv2.
Qed.

(** ** Completions *)

Lemma sent_data c c' d l t : 0 < l < 2 ^ 29 ->
  handle_sent (wc_of c c' (Sent (Data d l))) t = upd_s (fun s => set_avail (sbuf_bytes_avail s + l) (sqe_avail s + 1) s) t.
Proof.
  intros Hl. unfold handle_sent. cbn [wc_of rw_id rw_ok msg_of negb andb]. unfold rs_wr_data.
  rewrite u32_small by (apply msg_set_range; done || lia). by rewrite msg_op_set, msg_data_set by (done || lia).
Qed.

(** The completion of a control message; a disconnect ends the connection. *)
Lemma sent_ctrl c c' i q t : conf_ok c -> ctrls [i] = [q] ->
  exists st, handle_sent (wc_of c c' (Sent i)) t
    = upd_c (fun x => set_state st (set_ctrl (ctrl_seqno x) (u32 (ctrl_max_seqno x + 1)) x)) t.
Proof.
  intros Hc Hi. unfold handle_sent. cbn [wc_of rw_id rw_ok negb andb]. unfold rs_wr_data.
  rewrite u32_small by (apply msg_of_range; [done|by destruct i]).
  destruct i as [d l|k n q'|n q'|b q']; [discriminate Hi|..]; cbn [msg_of]; unfold credit_of;
    rewrite ?msg_op_set, ?msg_data_set by (try done; by (apply credit_range || destruct b)).
  1-2: by exists (rs_state (ctl t)).
  destruct b; [by exists (rs_state (ctl t))|by exists rs_disconnected].
Qed.

Lemma wc_msg_rcvd c c' i t : conf_ok c' -> item_small i -> wc_msg (wc_of c c' (Rcvd i)) t = msg_of c' i.
Proof. intros. unfold wc_msg. cbn. by apply bswap4_bswap4, msg_of_range. Qed.

Lemma handle_msg_data c d l t : 0 < l < 2 ^ 29 -> 0 <= rmsg_tail (rcv t) < Z.of_nat (length (rmsg (rcv t))) ->
  handle_msg (msg_of c (Data d l)) t
  = Ok (upd_r (fun r => set_rmsg (<[Z.to_nat (rmsg_tail (rcv t)) := mkRsMsg RS_OP_DATA l]> (rmsg r))
          (if rmsg_tail (rcv t) + 1 =? rq_size (cf t) + 1 then 0 else rmsg_tail (rcv t) + 1) r) t, false).
Proof.
  intros Hl Ht. unfold handle_msg. cbn [msg_of]. rewrite msg_op_set, msg_data_set by (done || lia). simpl.
  destruct (Z.leb_spec 0 (rmsg_tail (rcv t))); [|lia].
  by destruct (Z.ltb_spec (rmsg_tail (rcv t)) (Z.of_nat (length (rmsg (rcv t))))); [|lia].
Qed.

Lemma handle_msg_credit c i n t : conf_ok c -> credits [i] = [n] ->
  handle_msg (msg_of c i) t = Ok (upd_s (set_sseq_comp (u16 n)) t, false).
Proof.
  intros Hc Hi. assert (Hm : msg_of c i = credit_of c n) by (destruct i; try discriminate Hi; by injection Hi as ->).
  rewrite Hm. unfold handle_msg, credit_of. rewrite msg_op_set, msg_data_set by (try done; by apply credit_range).
  simpl. do 4 f_equal. rewrite u16_add_l. f_equal. lia.
Qed.

Lemma handle_msg_ctrl c b q t :
  exists st stop, handle_msg (msg_of c (Ctrl b q)) t = Ok (upd_c (set_state st) t, stop).
Proof.
  unfold handle_msg. cbn [msg_of]. rewrite msg_op_set, msg_data_set by (done || by destruct b). destruct b; simpl.
  - destruct (has (rs_state (ctl t)) rs_writable); eexists _, _; reflexivity.
  - eexists _, _; reflexivity.
Qed.

(** The state in which the oldest completion is handled. *)
Abbreviation pop_cq x l := (with_dev (set_cq l (s_port x)) (s_t x)).

Lemma inv_poll_sent x y vx vy i sq dq cq : vx = mkQv sq dq (Sent i :: cq) ->
  linked (s_cf x) (s_cf y) -> linked (s_cf y) (s_cf x) -> side_own x y vx -> side_own y x vy ->
  direction x vx y vy -> direction y vy x vx ->
  let l := map (wc_of (s_cf x) (s_cf y)) cq in
  let t' := handle_sent (wc_of (s_cf x) (s_cf y) (Sent i)) (pop_cq x l) in
  inv (with_t t' x) y /\ p_cq (t_dev t') = l.
Proof.
  intros -> Hlx Hly Hox Hoy Hd1 Hd2 l t'. pose proof Hlx as [Hcx _]. pose proof Hly as [Hcy _].
  assert (Hctrl : forall q, datas [i] = [] -> ctrls [i] = [q] -> inv (with_t t' x) y /\ p_cq (t_dev t') = l).
  { intros q Hd Hi. destruct (sent_ctrl (s_cf x) (s_cf y) i q (pop_cq x l) Hcx Hi) as [st Est]. subst t'. rewrite Est.
    split; [|done]. exists (mkQv sq dq cq), vy. split_and!; try done.
    - by eapply own_poll_ctrl.
    - eapply direction_ext; [exact Hd1|done|done|by split].
    - eapply direction_ext; [exact Hd2|done|done|by split]. }
  destruct i as [d n|k n q|n q|b q]; [|by apply (Hctrl q)..].
  assert (Hn : 0 < n < 2 ^ 29).
  { pose proof (own_small _ _ _ _ _ _ _ _ Hox) as Hsm. by apply Forall_cons in Hsm as [? _]. }
  subst t'. rewrite sent_data by done. split; [|done]. exists (mkQv sq dq cq), vy. split_and!; try done.
  - by eapply own_poll_data.
  - eapply direction_ext; [exact Hd1|done|done|by split].
  - eapply direction_ext; [exact Hd2|done|done|by split].
Qed.

Lemma inv_rcvd_credit x y vx vy i n sq dq cq : vx = mkQv sq dq (Rcvd i :: cq) ->
  linked (s_cf x) (s_cf y) -> linked (s_cf y) (s_cf x) -> side_own x y vx -> side_own y x vy ->
  direction x vx y vy -> direction y vy x vx -> datas [i] = [] -> credits [i] = [n] ->
  inv (with_t (upd_s (set_sseq_comp (u16 n)) (pop_cq x (map (wc_of (s_cf x) (s_cf y)) cq))) x) y.
Proof.
  intros -> Hlx Hly Hox Hoy [(rm & Hb & Hcr) Hr] Hd2 Hd Hi. pose proof Hlx as [Hcx _]. pose proof Hly as [Hcy _].
  change (rcvds (v_cq (mkQv sq dq (Rcvd i :: cq)))) with ([i] ++ rcvds cq) in Hcr.
  rewrite credits_app, Hi in Hcr. exists (mkQv sq dq cq), vy. split_and!; try done.
  - eapply own_ext; [exact (own_poll_rcvd _ _ _ _ _ _ _ _ _ _ _ Hox)|done..].
  - split; [|done]. exists rm. split; [done|]. eapply (creds_take _ _ _ _ _ _ n); [exact Hcr|done..].
  - eapply direction_ext; [exact Hd2|done|done|]. split; try done.
    change (rcvds (v_cq (mkQv sq dq (Rcvd i :: cq)))) with ([i] ++ rcvds cq). by rewrite datas_app, Hd.
Qed.

Lemma inv_rcvd_data x y vx vy d l sq dq cq : vx = mkQv sq dq (Rcvd (Data d l) :: cq) ->
  linked (s_cf x) (s_cf y) -> linked (s_cf y) (s_cf x) -> side_own x y vx -> side_own y x vy ->
  direction x vx y vy -> direction y vy x vx ->
  let l' := map (wc_of (s_cf x) (s_cf y)) cq in
  exists t', handle_msg (msg_of (s_cf y) (Data d l)) (pop_cq x l') = Ok (t', false) /\ inv (with_t t' x) y /\ p_cq (t_dev t') = l'.
Proof.
  intros -> Hlx Hly Hox Hoy Hd1 [(rm & Hb & Hcr) (g & gd & Hr)] l'. pose proof Hlx as [Hcx _]. pose proof Hly as [Hcy _].
  cbn in Hb, Hcr. change (omap _ cq) with (rcvds cq) in Hb, Hcr. change (omap _ (rcvds cq)) with (datas (rcvds cq)) in Hb, Hcr.
  pose proof (creds_bound _ _ _ _ _ _ Hcr) as Hbound. rewrite zlen_cons in Hbound.
  pose proof (zlen_nonneg (datas (rcvds cq))). pose proof (zlen_nonneg (datas (v_sq vy))). pose proof (zlen_nonneg rm).
  pose proof (b_ring _ _ _ _ _ _ _ _ Hb) as Hring. destruct (b_run _ _ _ _ _ _ _ _ Hb) as (e & [_ [Hl _]] & _).
  assert (Htail : 0 <= rmsg_tail (s_rcv x) < Z.of_nat (length (rmsg (s_rcv x)))).
  { destruct Hring. rewrite rv_tail, rv_len. apply Z.mod_pos_bound. lia. }
  rewrite handle_msg_data by done. eexists. split; [reflexivity|]. split; [|done].
  exists (mkQv sq dq cq), vy. split_and!; try done.
  - by eapply own_poll_rcvd.
  - eapply direction_ext; [exact Hd1|done|done|by split].
  - split; cbn; change (omap _ cq) with (rcvds cq).
    + exists (rm ++ [l]). split; [eapply bytes_enter; [done|lia]|].
      replace (zlen (rm ++ [l]) + zlen (datas (rcvds cq))) with (zlen rm + zlen ((d, l) :: datas (rcvds cq)))
        by (rewrite zlen_app, !zlen_cons; change (zlen (@nil Z)) with 0; lia).
      eapply creds_ext; [done..].
    + exists g, gd. by destruct Hr.
Qed.

Lemma inv_poll_rcvd x y vx vy i sq dq cq : vx = mkQv sq dq (Rcvd i :: cq) ->
  linked (s_cf x) (s_cf y) -> linked (s_cf y) (s_cf x) -> side_own x y vx -> side_own y x vy ->
  direction x vx y vy -> direction y vy x vx ->
  let l := map (wc_of (s_cf x) (s_cf y)) cq in
  exists t' stop, handle_msg (msg_of (s_cf y) i) (pop_cq x l) = Ok (t', stop) /\ inv (with_t t' x) y /\ p_cq (t_dev t') = l.
Proof.
  intros Hv Hlx Hly Hox Hoy Hd1 Hd2 l. pose proof Hlx as [Hcx _]. pose proof Hly as [Hcy _].
  assert (Hcredit : forall n, datas [i] = [] -> credits [i] = [n] ->
    exists t' stop, handle_msg (msg_of (s_cf y) i) (pop_cq x l) = Ok (t', stop) /\ inv (with_t t' x) y /\ p_cq (t_dev t') = l).
  { intros n Hd Hi. rewrite (handle_msg_credit _ _ _ _ Hcy Hi). eexists _, _. split; [done|]. split; [|done].
    by eapply inv_rcvd_credit. }
  destruct i as [d n|k n q|n q|b q]; [|by apply (Hcredit n)..|].
  - destruct (inv_rcvd_data _ _ _ _ _ _ _ _ _ Hv Hlx Hly Hox Hoy Hd1 Hd2) as (t' & ? & ? & ?). by exists t', false.
  - destruct (handle_msg_ctrl (s_cf y) b q (pop_cq x l)) as (st & stop & E). rewrite E. eexists _, _. split; [done|].
    split; [|done]. subst vx. exists (mkQv sq dq cq), vy. split_and!; try done.
    + eapply own_ext; [exact (own_poll_rcvd _ _ _ _ _ _ _ _ _ _ _ Hox)|done..].
    + eapply direction_ext; [exact Hd1|done|done|by split].
    + eapply direction_ext; [exact Hd2|done|done|by split].
Qed.

Lemma rcvd_small x y vx vy i : direction y vy x vx -> i ∈ rcvds (v_cq vx) -> item_small i.
Proof.
  intros [(rm & Hb & _) _] Hi. destruct (b_run _ _ _ _ _ _ _ _ Hb) as (e & Hrun & _).
  apply run_small in Hrun. by eapply Forall_forall in Hrun.
Qed.

(** One completion: handling it meets no array access out of range. *)
Lemma inv_poll_one x y w l rcnt : inv x y -> p_cq (s_port x) = w :: l ->
  exists t' rcnt' stop, handle_wc w rcnt (pop_cq x l) = Ok (t', rcnt', stop) /\ inv (with_t t' x) y /\ p_cq (t_dev t') = l.
Proof.
  intros (vx & vy & Hlx & Hly & Hox & Hoy & Hd1 & Hd2) Hcq. pose proof Hlx as [Hcx _]. pose proof Hly as [Hcy _].
  pose proof (o_cq _ _ _ _ _ _ _ _ Hox) as Hv. rewrite Hcq in Hv.
  pose proof (own_small _ _ _ _ _ _ _ _ Hox) as Hsm. destruct vx as [sq dq [|[i|i] cq]]; [discriminate Hv|..];
    injection Hv as -> ->; unfold handle_wc.
  - apply Forall_cons in Hsm as [Hsm _]. cbn [wc_of rw_id]. rewrite msg_not_recv by by apply msg_of_range.
    destruct (inv_poll_sent _ _ _ _ _ _ _ _ eq_refl Hlx Hly Hox Hoy Hd1 Hd2) as [Hinv Hl].
    eexists _, _, _. split; [reflexivity|]. done.
  - assert (item_small i) by (eapply (rcvd_small x y _ vy); [exact Hd2|set_solver]).
    pose proof (wc_msg_rcvd (s_cf x) (s_cf y) i (pop_cq x (map (wc_of (s_cf x) (s_cf y)) cq)) Hcy ltac:(done)) as Hmsg.
    cbn [wc_of rw_id rw_ok negb] in Hmsg |- *. rewrite Hmsg, recv_id_is_recv.
    destruct (inv_poll_rcvd _ _ _ _ _ _ _ _ eq_refl Hlx Hly Hox Hoy Hd1 Hd2) as (t' & stop & E & ? & ?).
    rewrite E. by eexists t', _, stop.
Qed.

(** ** Polling *)

Lemma inv_rq x y l : inv x y -> Forall (fun r => r = rs_rwr (rs_recv_wr_id 0) []) l ->
  inv (with_t (with_dev (set_rq l (s_port x)) (s_t x)) x) y.
Proof.
  intros (vx & vy & Hlx & Hly & Hox & Hoy & Hd1 & Hd2) Hl. pose proof Hlx as [Hcx _]. pose proof Hly as [Hcy _].
  exists vx, vy. split_and!; try done.
  - by apply own_rq.
  - eapply direction_ext; [exact Hd1|done|done|by split].
  - eapply direction_ext; [exact Hd2|done|done|by split].
Qed.

Lemma inv_ctl x y f : inv x y -> (forall c, ctrl_seqno (f c) = ctrl_seqno c /\ ctrl_max_seqno (f c) = ctrl_max_seqno c /\
  rseq_comp (f c) = rseq_comp c /\ remote_sge (f c) = remote_sge c) -> inv (with_t (upd_c f (s_t x)) x) y.
Proof.
  intros (vx & vy & Hlx & Hly & Hox & Hoy & Hd1 & Hd2) Hf. pose proof Hlx as [Hcx _]. pose proof Hly as [Hcy _].
  destruct (Hf (s_ctl x)) as (? & ? & ? & ?). exists vx, vy. split_and!; try done.
  - by eapply own_ext.
  - eapply direction_ext; [exact Hd1|done|done|by split].
  - eapply direction_ext; [exact Hd2|done|done|by split].
Qed.

(** [errno] is not part of it. *)
Lemma inv_same x y t : inv x y -> t_rs t = t_rs (s_t x) -> t_mem t = s_mem x -> t_dev t = s_port x -> inv (with_t t x) y.
Proof.
  intros (vx & vy & Hlx & Hly & Hox & Hoy & Hd1 & Hd2) E1 E2 E3. pose proof Hlx as [Hcx _]. pose proof Hly as [Hcy _].
  exists vx, vy. unfold side_own in *. simpl. rewrite E1, E2, E3. split_and!; try done.
  - eapply direction_ext; [exact Hd1|done|done|]. split; simpl; by rewrite ?E1, ?E2.
  - eapply direction_ext; [exact Hd2|done|done|]. split; simpl; by rewrite ?E1, ?E2.
Qed.

Lemma inv_conf x y : inv x y -> conf_ok (s_cf x).
Proof. by intros (? & ? & [] & _). Qed.

Lemma repost_ok n : forall x y, inv x y ->
  exists t', repost port_dev n (s_t x) = (t', 0) /\ inv (with_t t' x) y /\ p_cq (t_dev t') = p_cq (s_port x).
Proof.
  induction n as [|n IH]; intros x y Hinv; simpl; [by exists (s_t x); destruct x|].
  unfold rs_post_recv. rewrite no_msg_send by by eapply inv_conf. simpl.
  set (t1 := with_dev _ _). destruct (IH (with_t t1 x) y) as (t' & E & Hinv' & Hcq).
  { apply inv_rq; [done|]. apply Forall_app. split; [|by apply Forall_singleton].
    destruct Hinv as (? & ? & _ & _ & Hox & _). apply Hox. }
  simpl in E. rewrite E. by exists t'.
Qed.

Lemma poll_end_ok x y rcnt : inv x y ->
  exists t', poll_end port_dev 0 rcnt (s_t x) = (t', 0) /\ inv (with_t t' x) y /\ p_cq (t_dev t') = p_cq (s_port x).
Proof.
  intros Hinv. unfold poll_end. destruct (has _ _); [|by exists (s_t x); destruct x]. simpl.
  destruct (repost_ok (Z.to_nat rcnt) x y Hinv) as (t' & E & Hinv' & ?). rewrite E. by exists t'.
Qed.

(** A poll with more fuel than there are completions returns; with less it may give up. *)
Lemma inv_poll n : forall x y rcnt, inv x y ->
  (exists t', rs_poll_loop port_dev n rcnt (s_t x) = Ok (t', 0) /\ inv (with_t t' x) y /\
     (length (p_cq (t_dev t')) <= length (p_cq (s_port x)))%nat) \/
  (rs_poll_loop port_dev n rcnt (s_t x) = Spin /\ (n <= length (p_cq (s_port x)))%nat).
Proof.
  induction n as [|n IH]; intros x y rcnt Hinv; [right; split; [done|lia]|]. simpl.
  destruct (p_cq (s_port x)) as [|w l] eqn:Ecq.
  - left. destruct (poll_end_ok (with_t (with_dev (s_port x) (with_mem (s_mem x) (s_t x))) x) y rcnt) as (t' & E & Hi & Hq).
    { destruct x as [[] ? ?]. exact Hinv. }
    simpl in E, Hq. rewrite E. exists t'. by rewrite Hq, Ecq.
  - destruct (inv_poll_one x y w l rcnt Hinv Ecq) as (t1 & r1 & stop & E & Hi & Hl).
    change (with_dev (set_cq l (s_port x)) (with_mem (s_mem x) (s_t x))) with (pop_cq x l).
    rewrite E. cbn [mbind res_bind]. destruct stop; [left; exists t1; rewrite Hl; simpl; auto|].
    destruct (IH (with_t t1 x) y r1 Hi) as [(t2 & E2 & Hi2 & Hq2)|[E2 Hn]].
    + left. exists t2. simpl in Hq2. rewrite Hl in Hq2. simpl. auto.
    + right. split; [done|]. simpl in Hn. rewrite Hl in Hn. simpl. lia.
Qed.

(** ** Closing *)

Lemma inv_ctrl_msg x y b : inv x y ->
  exists t', send_ctrl port_dev (ctrl_code b) (s_t x) = (t', 0) /\ inv (with_t t' x) y.
Proof.
  intros Hinv. unfold send_ctrl. destruct (has _ _ && rs_ctrl_avail (s_t x)) eqn:E; [|by exists (s_t x); destruct x].
  apply andb_prop in E as [_ Hav%negb_true_iff%Z.eqb_neq].
  destruct Hinv as (vx & vy & Hlx & Hly & Hox & Hoy & Hd1 & Hd2). pose proof Hlx as [Hcx _]. pose proof Hly as [Hcy _].
  rewrite post_msg_ok by done.
  eexists. split; [reflexivity|].
  destruct (own_ctrl _ _ Hcx _ _ _ (ctl_next (s_ctl x)) _ _ _ Hox Hav eq_refl eq_refl) as (q & _ & Hown).
  exists (vsend (Ctrl b q) vx), vy. split_and!; try done.
  - by apply (Hown (Ctrl b q)).
  - eapply direction_ext; [exact Hd1|done|done|]. split; try done; cbn; autorewrite with items; by rewrite ?app_nil_r.
  - eapply direction_ext; [exact Hd2|done|done|]. split; try done; cbn; autorewrite with items; by rewrite ?app_nil_r.
Qed.

Lemma shut_ctrl how state st ctrl : shut_state how state = (st, Some ctrl) -> exists b, ctrl = ctrl_code b.
Proof.
  unfold shut_state. repeat case_match; intros [= <- <-]; first [by exists true|by exists false].
Qed.
