(* ===== verification/RsWire.v ===== *)
(** * Streams arrive as they were sent

    The steps of the wire keep the invariant of a connection, so every step does, and
    what [rrecv] gave to an application is a prefix of what its peer gave to [rsend]. *)

From S2P Require Import Prelude CLayout Wire CmdCtrl Verbs CmTypes CmRoute RsTypes RsPost RsStream RsWorld RsInv RsRing.
From S2P Require Import RsBytes RsRoom RsOwn RsSend RsKept RsTaken.

Implicit Types t : rst port.
Implicit Types m : mem.

#[local] Arguments bswap : simpl never.
#[local] Arguments read_sge : simpl never.
#[local] Arguments read_bytes : simpl never.
#[local] Arguments le_combine : simpl never.
#[local] Arguments le_split : simpl never.
#[local] Arguments rs_msg_set : simpl never.


(** ** The bytes of a request *)

Lemma gather_ring c m sent p l : conf_ok c -> 0 <= p -> 0 < l <= sbuf_size c -> p + l <= zlen sent ->
  (forall i, p <= i < p + l -> m (sbuf c + i mod sbuf_size c) = nth (Z.to_nat i) sent 0) ->
  gather m (ring_sgl c p l) = take (Z.to_nat l) (drop (Z.to_nat p) sent).
Proof.
  intros Hc Hp Hl Hs Hm. pose proof (k_sbuf c Hc) as (_ & [Hlow _] & _). unfold RS_SNDLOWAT in Hlow.
  set (n := sbuf_size c) in *. pose proof (Z.mod_pos_bound p n ltac:(lia)) as Hpm. unfold ring_sgl, gather. fold n.
  destruct (Z.leb_spec l (n - p mod n)) as [Hw|Hw]; cbn [map concat sge_addr sge_length]; rewrite app_nil_r.
  - apply read_slice; [lia..|]. intros i Hi. rewrite <- Hm by lia. rewrite mod_step by lia. f_equal. lia.
  - rewrite (read_slice m _ (n - p mod n) sent p); [|lia..|].
    + rewrite (read_slice m _ (l - (n - p mod n)) sent (p + (n - p mod n))); [|lia..|].
      * replace (Z.to_nat (p + (n - p mod n))) with (Z.to_nat p + Z.to_nat (n - p mod n))%nat by lia.
        rewrite <- drop_drop, take_take_drop. f_equal. lia.
      * intros i Hi. rewrite <- Hm by lia. f_equal.
        replace (p + (n - p mod n) + i) with (p + (n - p mod n + i)) by lia. rewrite mod_wrap by lia. lia.
    + intros i Hi. rewrite <- Hm by lia. rewrite mod_step by lia. f_equal. lia.
Qed.

Lemma own_gather_data c c' m s x p sent d l sq dq cq : conf_ok c -> own c c' m s x p sent (mkQv (Data d l :: sq) dq cq) ->
  gather m (ring_sgl c d l) = take (Z.to_nat l) (drop (Z.to_nat d) sent).
Proof.
  intros Hc []. assert (Hin : (d, l) ∈ datas (v_out (mkQv (Data d l :: sq) dq cq))).
  { apply elem_of_datas. unfold v_out. set_solver. }
  pose proof (run_elem _ _ _ _ _ o_run Hin). apply gather_ring; [done|lia..|].
  intros i Hi. eapply o_data; [|done]. set_solver.
Qed.

(** ** Delivery *)

(** The receiving side after the arrival. *)
Definition arrived (c c' : rs_conf) (i : item) (bytes : list Z) (rq : list app_recv_wr) (y : side) : side :=
  with_port (set_cq (p_cq (s_port y) ++ [mkRsWc (rs_recv_wr_id 0) true (Some (bswap 4 (msg_of c i)))])
               (set_rq rq (s_port y)))
    (with_t (with_mem (write_bytes (s_mem y) (rdma_remote_addr (s_wr (as_wr (wr_of c c' i)))) bytes) (s_t y)) y).

Lemma arrive_eq c c' i bytes x y y' v : side_own y x v -> arrive (wr_of c c' i) bytes y = Some y' ->
  exists rq, Forall (fun r => r = rs_rwr (rs_recv_wr_id 0) []) rq /\ y' = arrived c c' i bytes rq y.
Proof.
  intros Hoy Ha. unfold arrive in Ha. replace (s_opcode (as_wr (wr_of c c' i))) with IBV_WR_RDMA_WRITE_WITH_IMM in Ha
    by by destruct i. rewrite Z.eqb_refl in Ha.
  pose proof (o_rq _ _ _ _ _ _ _ _ Hoy) as Hrq. destruct (p_rq (s_port y)) as [|r rq]; [discriminate Ha|].
  apply Forall_cons in Hrq as [-> Hrq]. exists rq. split; [done|]. injection Ha as <-. unfold arrived. by destruct i.
Qed.

Definition vdeliver (i : item) (sq : list item) (v : qview) : qview := mkQv sq (v_dq v ++ [i]) (v_cq v).
Definition varrive (i : item) (v : qview) : qview := mkQv (v_sq v) (v_dq v) (v_cq v ++ [Rcvd i]).
Definition delivered (w : app_send_wr) (l : list app_send_wr) (x : side) : side :=
  with_port (set_dq (p_dq (s_port x) ++ [w]) (set_sq l (s_port x))) x.

Lemma own_arrived c x y vy i bytes rq : side_own y x vy -> conf_ok (s_cf y) -> c = s_cf x ->
  Forall (fun r => r = rs_rwr (rs_recv_wr_id 0) []) rq ->
  (forall a, sbuf (s_cf y) <= a < sbuf (s_cf y) + sbuf_size (s_cf y) + 64 -> s_mem (arrived c (s_cf y) i bytes rq y) a = s_mem y a) ->
  side_own (arrived c (s_cf y) i bytes rq y) x (varrive i vy).
Proof.
  intros Hoy Hc -> Hrq Hm. unfold side_own. eapply own_mem; [done| |exact Hm].
  destruct vy as [sq dq cq]. by apply own_arrive.
Qed.

Lemma dir_control x y vx vy i sq dq cq bytes rq w l : vx = mkQv (i :: sq) dq cq -> datas [i] = [] ->
  conf_ok (s_cf x) -> conf_ok (s_cf y) ->
  (forall a, rbuf (s_cf y) <= a < rbuf (s_cf y) + rbuf_size (s_cf y) ->
     s_mem (arrived (s_cf x) (s_cf y) i bytes rq y) a = s_mem y a) ->
  direction x vx y vy -> direction (delivered w l x) (vdeliver i sq vx) (arrived (s_cf x) (s_cf y) i bytes rq y) (varrive i vy).
Proof.
  intros -> Hi Hcx Hcy Hm Hd. eapply direction_ext; [exact Hd|done|done|]. split; try done; cbn [vdeliver varrive v_sq v_cq].
  - change (i :: sq) with ([i] ++ sq). by rewrite datas_app, Hi.
  - rewrite rcvds_app, datas_app. change (rcvds [Rcvd i]) with [i]. by rewrite Hi, app_nil_r.
Qed.

Lemma dir_data x y vx vy d l sq dq cq rq w wl : vx = mkQv (Data d l :: sq) dq cq ->
  conf_ok (s_cf x) -> conf_ok (s_cf y) -> direction x vx y vy ->
  direction (delivered w wl x) (vdeliver (Data d l) sq vx)
    (arrived (s_cf x) (s_cf y) (Data d l) (take (Z.to_nat l) (drop (Z.to_nat d) (s_sent x))) rq y) (varrive (Data d l) vy)
  /\ d mod rbuf_size (s_cf y) + l <= rbuf_size (s_cf y).
Proof.
  intros -> Hcx Hcy [(rm & Hb & Hcr) (g & gd & Hr)]. cbn [v_sq] in Hb, Hcr, Hr.
  change (datas (Data d l :: sq)) with ((d, l) :: datas sq) in *.
  destruct (room_bound _ _ Hcy _ _ _ _ _ _ _ _ _ _ Hr) as [Hbound _].
  destruct (room_arrive_data _ _ Hcy _ _ _ _ _ _ _ _ _ _ _ Hr) as [Hr' Hfit]. split; [|done].
  split; cbn [vdeliver varrive v_sq v_cq]; rewrite ?rcvds_app; change (rcvds [Rcvd (Data d l)]) with [Data d l];
    autorewrite with items; change (datas [Data d l]) with [(d, l)]; cbn.
  - exists rm. split; [by apply bytes_arrive|]. rewrite zlen_cons in Hcr. rewrite zlen_app, zlen_cons.
    change (zlen (@nil (Z * Z))) with 0.
    replace (zlen rm + _ + _) with (zlen rm + zlen (datas (rcvds (v_cq vy))) + (1 + zlen (datas sq))) by lia. done.
  - by exists g, gd.
Qed.

(** The direction of the peer: a credit that was on the way is now one that arrived. *)
Lemma dir_back x y vx vy i sq dq cq bytes rq w wl : vx = mkQv (i :: sq) dq cq -> direction y vy x vx ->
  (forall g gd, room (s_cf y) (s_cf x) (s_mem y) (target_sge (s_snd y)) (s_rcv x) (remote_sge (s_ctl x)) (zlen (s_sent y))
     (zlen (s_got x)) g gd (grants (i :: sq)) (datas (v_sq vy)) ->
   exists gd', room (s_cf y) (s_cf x) (s_mem (arrived (s_cf x) (s_cf y) i bytes rq y)) (target_sge (s_snd y)) (s_rcv x)
     (remote_sge (s_ctl x)) (zlen (s_sent y)) (zlen (s_got x)) g gd' (grants sq) (datas (v_sq vy))) ->
  direction (arrived (s_cf x) (s_cf y) i bytes rq y) (varrive i vy) (delivered w wl x) (vdeliver i sq vx).
Proof.
  intros -> [(rm & Hb & Hcr) (g & gd & Hr)] Hroom. split.
  - exists rm. split; [done|]. cbn [vdeliver varrive v_sq v_cq] in *. rewrite rcvds_app, credits_app.
    change (rcvds [Rcvd i]) with [i]. change (credits (i :: sq)) with (credits ([i] ++ sq)) in Hcr.
    rewrite credits_app, app_assoc in Hcr. done.
  - destruct (Hroom g gd Hr) as [gd' Hr']. by exists g, gd'.
Qed.

Section Deliver.
Context (x y : side) (vy : qview) (i : item) (sq dq : list item) (cq : list citem) (rq : list app_recv_wr).
Let vx := mkQv (i :: sq) dq cq.
Hypothesis Hlx : linked (s_cf x) (s_cf y).
Hypothesis Hly : linked (s_cf y) (s_cf x).
Hypothesis Hox : side_own x y vx.
Hypothesis Hoy : side_own y x vy.
Hypothesis Hd1 : direction x vx y vy.
Hypothesis Hd2 : direction y vy x vx.
Hypothesis Hrq : Forall (fun r => r = rs_rwr (rs_recv_wr_id 0) []) rq.
Let w := wr_of (s_cf x) (s_cf y) i.
Let bs := gather (s_mem x) (as_sgl w).
Let x' := delivered w (map (wr_of (s_cf x) (s_cf y)) sq) x.
Let y' := arrived (s_cf x) (s_cf y) i bs rq y.
Let Hcx : conf_ok (s_cf x) := l_ok _ _ Hlx.
Let Hcy : conf_ok (s_cf y) := l_ok _ _ Hly.

Lemma deliver_inv : (forall a, sbuf (s_cf y) <= a < sbuf (s_cf y) + sbuf_size (s_cf y) + 64 -> s_mem y' a = s_mem y a) ->
  direction x' (vdeliver i sq vx) y' (varrive i vy) -> direction y' (varrive i vy) x' (vdeliver i sq vx) -> inv x' y'.
Proof.
  intros Hm D1 D2. exists (vdeliver i sq vx), (varrive i vy). split_and!; try done.
  - by apply own_deliver.
  - by apply own_arrived.
Qed.

Lemma deliver_data d l : i = Data d l -> inv x' y'.
Proof.
  intros Hi. pose proof (k_st _ Hcy) as Hst. pose proof (k_sr _ Hcy) as Hsr. pose proof (k_rt _ Hcy) as Hrt.
  pose proof (k_sbuf _ Hcy) as (_ & [Hsb _] & _). pose proof (k_rbuf _ Hcy) as (_ & Hh & Hrs & _).
  assert (Hbs : bs = take (Z.to_nat l) (drop (Z.to_nat d) (s_sent x))).
  { unfold bs, w. rewrite Hi. eapply own_gather_data; [done|]. rewrite <- Hi. exact Hox. }
  assert (Hvx : vx = mkQv (Data d l :: sq) dq cq) by by rewrite <- Hi.
  destruct (dir_data x y vx vy d l sq dq cq rq w (map (wr_of (s_cf x) (s_cf y)) sq) Hvx Hcx Hcy Hd1) as [D1 Hfit].
  rewrite <- Hi in D1.
  pose proof (Z.mod_pos_bound d (rbuf_size (s_cf y)) ltac:(lia)).
  assert (Hm : forall a, ~ (rbuf (s_cf y) <= a < rbuf (s_cf y) + rbuf_size (s_cf y)) -> s_mem y' a = s_mem y a).
  { intros a Ha. unfold y'. rewrite Hbs, Hi. apply write_bytes_out. rewrite length_take. simpl. lia. }
  unfold apart, RS_SNDLOWAT in *. apply deliver_inv.
  - intros a Ha. apply Hm. lia.
  - unfold y'. by rewrite Hbs.
  - apply (dir_back x y vx vy _ sq dq cq); [done|done|]. intros g gd Hr. exists gd.
    rewrite Hi in Hr. eapply room_mem; [exact Hr|].
    intros a Ha. apply Hm. lia.
Qed.

Lemma deliver_grant k n q : i = Grant k n q -> inv x' y'.
Proof.
  intros Hi. pose proof (k_st _ Hcy) as Hst. pose proof (k_rt _ Hcy) as Hrt. unfold apart in *.
  pose proof (k_sbuf _ Hcy) as (_ & [Hsb _] & _). pose proof (k_rbuf _ Hcy) as (_ & Hh & Hrs & _). unfold RS_SNDLOWAT in *.
  assert (Hbs : bs = sge_bytes (grant_sge (s_cf x) k)).
  { unfold bs, w. rewrite Hi. change (gather _ _) with (read_bytes (s_mem x) (slot (s_cf x) q) 16).
    apply (o_slot _ _ _ _ _ _ _ _ Hox k n q). unfold vx. rewrite Hi. simpl. set_solver. }
  pose proof (mod2 k) as Hk.
  assert (Hm : forall a, ~ (target_sgl (s_cf y) <= a < target_sgl (s_cf y) + 32) -> s_mem y' a = s_mem y a).
  { intros a Ha. unfold y'. rewrite Hbs, Hi. apply write_bytes_out. rewrite sge_bytes_length. simpl.
    unfold sizeof_rs_sge. destruct Hk as [-> | ->]; lia. }
  apply deliver_inv.
  - intros a Ha. apply Hm. lia.
  - eapply (dir_control x y vx vy); try done; [by rewrite Hi|]. intros a Ha. apply Hm. lia.
  - apply (dir_back x y vx vy _ sq dq cq); [done|done|]. intros g gd Hr. exists (gd + 1). unfold y'.
    rewrite Hbs, Hi in *. by apply room_arrive_grant.
Qed.

(** Messages without bytes. *)
Lemma deliver_empty : datas [i] = [] -> grants [i] = [] -> inv x' y'.
Proof.
  intros Hd Hg.
  assert (Hm : forall a, s_mem y' a = s_mem y a).
  { intros a. unfold y', bs, w. apply write_bytes_out. destruct i; try done; simpl; lia. }
  apply deliver_inv; [by intros; apply Hm| |].
  - eapply (dir_control x y vx vy); try done; intros; apply Hm.
  - apply (dir_back x y vx vy _ sq dq cq); [done|done|]. intros g gd Hr. exists gd.
    change (grants (i :: sq)) with (grants ([i] ++ sq)) in Hr. rewrite grants_app, Hg in Hr.
    eapply room_mem; [exact Hr|]. intros; apply Hm.
Qed.

Lemma deliver_any : inv x' y'.
Proof.
  assert (Hi : (exists d l, i = Data d l) \/ (exists k n q, i = Grant k n q) \/ datas [i] = [] /\ grants [i] = []).
  { destruct i; naive_solver. }
  destruct Hi as [(d & l & Hi)|[(k & n & q & Hi)|[]]]; [by eapply deliver_data|by eapply deliver_grant|by apply deliver_empty].
Qed.

End Deliver.

#[local] Arguments wr_of : simpl never.

Lemma inv_deliver x y w l y' : inv x y -> p_sq (s_port x) = w :: l ->
  arrive w (gather (s_mem x) (as_sgl w)) y = Some y' ->
  inv (with_port (set_dq (p_dq (s_port x) ++ [w]) (set_sq l (s_port x))) x) y'.
Proof.
  intros (vx & vy & Hlx & Hly & Hox & Hoy & Hd1 & Hd2) Hsq Ha.
  pose proof (o_sq _ _ _ _ _ _ _ _ Hox) as Hv. rewrite Hsq in Hv. destruct vx as [[|i sq] dq cq]; [discriminate Hv|].
  injection Hv as -> ->. destruct (arrive_eq _ _ _ _ _ _ _ _ Hoy Ha) as (rq & Hrq & ->).
  by eapply deliver_any.
Qed.

Lemma inv_complete x y w l : inv x y -> p_dq (s_port x) = w :: l ->
  inv (with_port (set_cq (p_cq (s_port x) ++ [mkRsWc (s_wr_id (as_wr w)) true None]) (set_dq l (s_port x))) x) y.
Proof.
  intros (vx & vy & Hlx & Hly & Hox & Hoy & Hd1 & Hd2) Hdq. pose proof Hlx as [Hcx _]. pose proof Hly as [Hcy _].
  pose proof (o_dq _ _ _ _ _ _ _ _ Hox) as Hv. rewrite Hdq in Hv. destruct vx as [sq [|i dq] cq]; [discriminate Hv|].
  injection Hv as -> ->. exists (mkQv sq dq (cq ++ [Sent i])), vy. split_and!; try done.
  - replace (s_wr_id (as_wr (wr_of (s_cf x) (s_cf y) i))) with (msg_of (s_cf x) i) by by destruct i. by apply own_complete.
  - eapply direction_ext; [exact Hd1|done|done|]. split; try done. cbn [v_cq]. rewrite rcvds_app. by rewrite app_nil_r.
  - eapply direction_ext; [exact Hd2|done|done|]. split; try done. cbn [v_cq]. rewrite rcvds_app. by rewrite app_nil_r.
Qed.

Lemma inv_app x y m : inv x y -> (forall a, in_lib (s_cf x) a -> m a = s_mem x a) ->
  inv (with_t (with_mem m (s_t x)) x) y.
Proof.
  intros (vx & vy & Hlx & Hly & Hox & Hoy & Hd1 & Hd2) Hm. pose proof Hlx as [Hcx _]. pose proof Hly as [Hcy _].
  exists vx, vy. split_and!; try done.
  - by eapply own_app.
  - eapply direction_ext; [exact Hd1|done|done|]. split; try done. intros a Ha. by apply Hm, lib_target.
  - eapply direction_ext; [exact Hd2|done|done|]. split; try done. intros a Ha. apply Hm. right; left. done.
Qed.

(** ** Every step *)

Lemma side_step_inv x y x' y' : side_step x y x' y' -> inv x y -> inv x' y'.
Proof.
  intros Hstep Hinv. destruct Hstep.
  - by eapply inv_send.
  - eapply (inv_recv n x y buf len); [done..].
  - by apply inv_credits.
  - unfold rs_poll_cq in H. destruct (inv_poll n x y 0 Hinv) as [(t2 & E & Hi & _)|[E _]]; rewrite E in H; by simplify_eq.
  - destruct (shut_ctrl _ _ _ _ H) as [b ->].
    destruct (inv_ctrl_msg (with_t (upd_c (set_state st) (s_t x)) x) y b) as (t2 & E & Hi); [by apply inv_ctl|].
    simpl in E. rewrite E in H0. by simplify_eq.
  - by eapply inv_deliver.
  - by apply inv_complete.
  - by apply inv_app.
Qed.

Definition inv2 (s : side * side) : Prop := inv s.1 s.2.

Lemma world_step_inv s s' : world_step s s' -> inv2 s -> inv2 s'.
Proof.
  destruct 1; unfold inv2; simpl; intros Hi; [by eapply side_step_inv|].
  apply inv_sym. eapply side_step_inv; [done|by apply inv_sym].
Qed.

Lemma world_inv s s' : rtc world_step s s' -> inv2 s -> inv2 s'.
Proof. induction 1; eauto using world_step_inv. Qed.

Lemma inv_prefix x y : inv x y -> s_got y `prefix_of` s_sent x.
Proof. intros (vx & vy & _ & _ & _ & _ & [(rm & Hb & _) _] & _). apply Hb. Qed.
