(* ===== verification/RsOpen.v ===== *)
(** * Stream sockets: making a connection (rsocket.c)

    A socket gets its sizes ([rs_alloc], [rs_set_qp_size]), its buffers ([rs_init_bufs])
    and its queue pair ([rs_create_ep]), and both ends exchange where their buffers are
    ([rs_format_conn_data], [rs_save_conn_data]).  The sockets that come out of this
    satisfy the invariant of a connection. *)

From S2P Require Import Prelude CLayout Wire CmdCtrl Verbs CmTypes CmRoute RsTypes RsPost RsStream RsWorld RsInv RsRing.
From S2P Require Import RsBytes RsRoom.

(** ** Sizes *)

Definition rs_value_to_scale (value bits : Z) : Z :=
  if value <=? Z.shiftl 1 (bits - 1) then value else Z.lor (Z.shiftl 1 (bits - 1)) (Z.shiftr value bits).
Definition rs_scale_to_value (value bits : Z) : Z :=
  if value <=? Z.shiftl 1 (bits - 1) then value
  else Z.shiftl (Z.land value (Z.lnot (Z.shiftl 1 (bits - 1)))) bits.

(** The defaults, and what [rs_configure] reads from its files. *)
Record rs_defs : Type := mkRsDefs {
  def_iomap_size : Z; def_inline : Z; def_sqsize : Z; def_rqsize : Z; def_mem : Z; def_wmem : Z; polling_time : Z }.

Definition builtin_defs : rs_defs := mkRsDefs 0 0 384 384 (Z.shiftl 1 17) (Z.shiftl 1 17) 10.

(** [f name]: the number in the file, if it is there. *)
Definition rs_configure (f : string -> option Z) (d : rs_defs) : rs_defs :=
  let get name w old := match f name with Some z => z mod 2 ^ w | None => old end in
  let pt := get "polling_time"%string 32 (polling_time d) in
  let inl := get "inline_default"%string 16 (def_inline d) in
  let sq := get "sqsize_default"%string 16 (def_sqsize d) in
  let rq := get "rqsize_default"%string 16 (def_rqsize d) in
  let mem := match f "mem_default"%string with
             | Some z => let z := u32 z in if z <? 1 then 1 else z
             | None => def_mem d
             end in
  let wmem := match f "wmem_default"%string with
              | Some z => let z := u32 z in if z <? RS_SNDLOWAT then Z.shiftl RS_SNDLOWAT 1 else z
              | None => def_wmem d
              end in
  let io := match f "iomap_size"%string with
            | Some z => u8 (rs_value_to_scale (u16 (rs_scale_to_value (u16 z) 8)) 8)
            | None => def_iomap_size d
            end in
  mkRsDefs io inl sq rq mem wmem pt.

(** ** A new socket: [calloc], and the sizes of the defaults or of the listener *)

Definition zero_conf (sbuf_size rbuf_size sq_size rq_size iomap_size : Z) : rs_conf :=
  mkRsConf 0 0 0 sbuf_size sq_size 0 0 rbuf_size rq_size 0 0 0 0 iomap_size (mkRsSge 0 0 0) (mkRsSge 0 0 0).

Definition rs_alloc (d : rs_defs) (inherited : option rsocket) : rsocket :=
  let '(c, ctrl_max) :=
    match inherited with
    | Some p => (zero_conf (sbuf_size (rs_cf p)) (rbuf_size (rs_cf p)) (sq_size (rs_cf p)) (rq_size (rs_cf p))
                   (target_iomap_size (rs_cf p)), ctrl_max_seqno (rs_c p))
    | None => (zero_conf (def_wmem d) (def_mem d) (def_sqsize d) (def_rqsize d) (def_iomap_size d), RS_QP_CTRL_SIZE)
    end in
  mkRs c (mkRsSnd 0 0 0 0 0 0 [] [] false) (mkRsRcv 0 [] 0 0 0 0 0 0) (mkRsCtl 0 0 ctrl_max 0 rs_init 0 0 false 0).

Definition set_queues (sq rq : Z) (c : rs_conf) : rs_conf :=
  mkRsConf (rs_opts c) (fd_flags c) (sbuf c) (sbuf_size c) sq (smr_lkey c) (rbuf c) (rbuf_size c) rq
    (rmr_lkey c) (rmr_rkey c) (target_sgl c) (target_mr_rkey c) (target_iomap_size c) (remote_sgl c) (remote_iomap c).
Definition set_opts (o : Z) (c : rs_conf) : rs_conf :=
  mkRsConf o (fd_flags c) (sbuf c) (sbuf_size c) (sq_size c) (smr_lkey c) (rbuf c) (rbuf_size c) (rq_size c)
    (rmr_lkey c) (rmr_rkey c) (target_sgl c) (target_mr_rkey c) (target_iomap_size c) (remote_sgl c) (remote_iomap c).

Definition clamp (max z : Z) : Z := if max <? z then max else if z <? RS_QP_MIN_SIZE then RS_QP_MIN_SIZE else z.

Definition rs_set_qp_size (max_qpsize : Z) (c : rs_conf) : rs_conf :=
  let max := u16 (Z.min max_qpsize RS_QP_MAX_SIZE) in
  set_queues (clamp max (sq_size c)) (clamp max (rq_size c)) c.

(** ** Buffers and the queue pair *)

(** What a registration gives: the address and the keys. *)
Record reg : Type := mkReg { g_addr : Z; g_lkey : Z; g_rkey : Z }.

(** What the device says: the limit of queues, the transport, and how the calls for
    memory, completion channel and queue, the mode of the channel, the queue pair and
    the registrations end. *)
Record ep_env (D : Type) : Type := mkEp {
  e_max_qpsize : Z;
  e_iwarp : bool;
  e_calloc : Z -> bool;
  e_create_channel : bool;
  e_create_cq : Z -> bool;
  e_nonblock : bool;
  e_create_qp : rs_conf -> D * Z;
  e_smr : Z -> option reg;
  e_target_mr : Z -> option reg;
  e_rmr : Z -> option reg }.
Arguments mkEp {D}.
Arguments e_max_qpsize {D}.
Arguments e_iwarp {D}.
Arguments e_calloc {D}.
Arguments e_create_channel {D}.
Arguments e_create_cq {D}.
Arguments e_nonblock {D}.
Arguments e_create_qp {D}.
Arguments e_smr {D}.
Arguments e_target_mr {D}.
Arguments e_rmr {D}.

Definition ENOTSUP : Z := 95.

Section Open.
Context {D : Type} (dv : rs_dev D) (e : ep_env D).
Implicit Types t : rst D.

(** What is made before a step that fails is destroyed again. *)
Definition rs_create_cq t : Z :=
  let c := rs_cf (t_rs t) in
  if negb (e_create_channel e) then -1
  else if negb (e_create_cq e (sq_size c + rq_size c)) then -1
  else if has (fd_flags c) O_NONBLOCK && negb (e_nonblock e) then -1
  else 0.

Definition set_sbuf (s : reg) (c : rs_conf) : rs_conf :=
  mkRsConf (rs_opts c) (fd_flags c) (g_addr s) (sbuf_size c) (sq_size c) (g_lkey s) (rbuf c) (rbuf_size c) (rq_size c)
    (rmr_lkey c) (rmr_rkey c) (target_sgl c) (target_mr_rkey c) (target_iomap_size c) (remote_sgl c) (remote_iomap c).
Definition set_target (g : reg) (c : rs_conf) : rs_conf :=
  mkRsConf (rs_opts c) (fd_flags c) (sbuf c) (sbuf_size c) (sq_size c) (smr_lkey c) (rbuf c) (rbuf_size c) (rq_size c)
    (rmr_lkey c) (rmr_rkey c) (g_addr g) (g_rkey g) (target_iomap_size c) (remote_sgl c) (remote_iomap c).
Definition set_rbuf (r : reg) (c : rs_conf) : rs_conf :=
  mkRsConf (rs_opts c) (fd_flags c) (sbuf c) (sbuf_size c) (sq_size c) (smr_lkey c) (g_addr r) (rbuf_size c) (rq_size c)
    (g_lkey r) (g_rkey r) (target_sgl c) (target_mr_rkey c) (target_iomap_size c) (remote_sgl c) (remote_iomap c).

Definition upd_cf (f : rs_conf -> rs_conf) t : rst D := upd (fun rs => set_cf (f (rs_cf rs)) rs) t.

(** The counters of a socket with its buffers. *)
Definition start_bufs (rs : rsocket) : rsocket :=
  let c := rs_cf rs in
  let s := rs_s rs in
  let r := rs_r rs in
  mkRs c
    (mkRsSnd (sseq_no s) (sseq_comp s) (target_sge s) (sbuf c) (sbuf_size c) (sq_size c - ctrl_max_seqno (rs_c rs))
       (iomap_queue s) (iomap_list s) (iomap_pending s))
    (mkRsRcv (rseq_no r) (rmsg r) (rmsg_head r) (rmsg_tail r) (Z.shiftr (rbuf_size c) 1) (Z.shiftr (rbuf_size c) 1)
       (rbuf_offset r) (rbuf_msg_index r))
    (set_rseq_comp (Z.shiftr (rq_size c) 1) (rs_c rs)).

(** A target list that could not be registered is written all the same. *)
Definition rs_init_bufs t : res (rst D * Z) :=
  let c := rs_cf (t_rs t) in
  if negb (e_calloc e (rq_size c + 1)) then Ok (err ENOMEM t) else
  let t := upd_r (fun r => set_rmsg (replicate (Z.to_nat (rq_size c + 1)) (mkRsMsg 0 0)) (rmsg_tail r) r) t in
  match e_smr e (u32 (sbuf_size c + RS_MAX_CTRL_MSG * RS_QP_CTRL_SIZE)) with
  | None => Ok (t, -1)
  | Some s =>
      let t := upd_cf (set_sbuf s) t in
      let len := sizeof_rs_sge * RS_SGL_SIZE + sizeof_rs_iomap * target_iomap_size c in
      match e_target_mr e len with
      | None => Ub
      | Some g =>
          let t := with_mem (write_bytes (t_mem t) (g_addr g) (replicate (Z.to_nat len) 0)) t in
          let t := upd_cf (set_target g) t in
          match e_rmr e (u32 (rbuf_size c + rq_size c * RS_MSG_SIZE)) with
          | None => Ok (t, -1)
          | Some r => Ok (upd start_bufs (upd_cf (set_rbuf r) t), 0)
          end
      end
  end.

Definition rs_create_ep t : res (rst D * Z) :=
  let t := upd_cf (rs_set_qp_size (e_max_qpsize e)) t in
  let t := if e_iwarp e then upd_cf (fun c => set_opts (Z.lor (rs_opts c) RS_OPT_MSG_SEND) c) t else t in
  let ret := rs_create_cq t in
  if negb (ret =? 0) then Ok (t, ret) else
  let '(d, ret) := e_create_qp e (rs_cf (t_rs t)) in
  let t := with_dev d t in
  if negb (ret =? 0) then Ok (t, ret) else
  let sq_inline := 0 in
  if msg_send t && (sq_inline <? RS_MSG_SIZE) then Ok (err ENOTSUP t) else
  '(t, ret) ← rs_init_bufs t;
  if negb (ret =? 0) then Ok (t, ret)
  else Ok (repost dv (Z.to_nat (rq_size (rs_cf (t_rs t)))) t).

(** ** The private data of a connection *)

Definition RS_CONN_FLAG_NET : Z := 1.
Definition RS_CONN_FLAG_IOMAP : Z := 2.

(** [struct rs_conn_data]; its numbers are in network order. *)
Record rs_conn_data : Type := mkConn {
  cd_version : Z;
  cd_flags : Z;
  cd_credits : Z;
  cd_iomap_size : Z;
  cd_target_sgl : rs_sge;
  cd_data_buf : rs_sge }.

Context (host_is_net : bool).

(** Host order is network order or its reverse. *)
Definition hton (n : nat) (z : Z) : Z := if host_is_net then z else bswap n z.
Definition net_sge (s : rs_sge) : rs_sge := mkRsSge (hton 8 (rg_addr s)) (hton 4 (rg_key s)) (hton 4 (rg_length s)).

Definition rs_format_conn_data t : rs_conn_data :=
  let c := rs_cf (t_rs t) in
  mkConn 1 (Z.lor RS_CONN_FLAG_IOMAP (if host_is_net then RS_CONN_FLAG_NET else 0)) (hton 2 (rq_size c))
    (u8 (rs_value_to_scale (target_iomap_size c) 8))
    (net_sge (mkRsSge (target_sgl c) (target_mr_rkey c) RS_SGL_SIZE))
    (net_sge (mkRsSge (rbuf c) (rmr_rkey c) (Z.shiftr (rbuf_size c) 1))).

Definition save_conf (d : rs_conn_data) (c : rs_conf) : rs_conf :=
  let r := net_sge (cd_target_sgl d) in
  let net := has (cd_flags d) RS_CONN_FLAG_NET in
  let opts := if (host_is_net && negb net) || (negb host_is_net && net) then RS_OPT_SWAP_SGL else rs_opts c in
  let io := if has (cd_flags d) RS_CONN_FLAG_IOMAP
            then mkRsSge (u64 (rg_addr r + sizeof_rs_sge * rg_length r)) (rg_key r) (rs_scale_to_value (cd_iomap_size d) 8)
            else remote_iomap c in
  mkRsConf opts (fd_flags c) (sbuf c) (sbuf_size c) (sq_size c) (smr_lkey c) (rbuf c) (rbuf_size c) (rq_size c)
    (rmr_lkey c) (rmr_rkey c) (target_sgl c) (target_mr_rkey c) (target_iomap_size c) r io.

Definition rs_save_conn_data (d : rs_conn_data) t : rst D :=
  let t := upd (fun rs => set_c (set_remote_sge 1 (rs_c rs)) (set_cf (save_conf d (rs_cf rs)) rs)) t in
  let t := with_mem (write_bytes (t_mem t) (target_sgl (rs_cf (t_rs t))) (sge_bytes (net_sge (cd_data_buf d)))) t in
  upd_s (set_sseq_comp (hton 2 (cd_credits d))) t.

End Open.

(** ** Two ends *)

(** What an end brings: a new socket, its memory, the device's limit and the places of
    its three registrations. *)
Record endpoint : Type := mkEnd {
  n_rs : rsocket; n_mem : mem; n_max : Z; n_s : reg; n_g : reg; n_r : reg }.

Definition port_env (n : endpoint) : ep_env port :=
  mkEp (n_max n) false (fun _ => true) true (fun _ => true) true (fun c => (mkPort [] [] [] [] (sq_size c), 0)) (fun _ => Some (n_s n)) (fun _ => Some (n_g n))
    (fun _ => Some (n_r n)).

Definition open_end (n : endpoint) : res (rst port * Z) :=
  rs_create_ep port_dev (port_env n) (mkRst (n_rs n) (n_mem n) (mkPort [] [] [] [] 0) 0).

(** Both ends after the exchange, in the state [rs_connect_rdwr]. *)
Definition joined (net : bool) (t t' : rst port) : side :=
  mkSide (upd_c (set_state rs_connect_rdwr) (rs_save_conn_data net (rs_format_conn_data net t') t)) [] [].

Definition open_pair (net : bool) (a b : endpoint) : res (side * side) :=
  '(ta, _) ← open_end a; '(tb, _) ← open_end b; Ok (joined net ta tb, joined net tb ta).

(** Sockets of [rs_alloc]; a listener has not sent control messages. *)
Definition fresh (rs : rsocket) : Prop :=
  exists d inh, rs = rs_alloc d inh /\ forall p, inh = Some p -> ctrl_max_seqno (rs_c p) = RS_QP_CTRL_SIZE.

(** The configuration of an end before the exchange. *)
Definition end_conf (n : endpoint) : rs_conf :=
  set_rbuf (n_r n) (set_target (n_g n) (set_sbuf (n_s n) (rs_set_qp_size (n_max n) (rs_cf (n_rs n))))).

Definition fine (n : endpoint) : Prop :=
  fresh (n_rs n) /\ conf_ok (end_conf n) /\ 0 <= target_iomap_size (rs_cf (n_rs n)) /\ 0 <= g_rkey (n_g n) < 2 ^ 32.

Section Ends.
Context (n : endpoint).
Hypothesis Hn : fine n.
Abbreviation c := (end_conf n).

Definition opened : rst port :=
  mkRst (mkRs c (mkRsSnd 0 0 0 (sbuf c) (sbuf_size c) (sq_size c - RS_QP_CTRL_SIZE) [] [] false)
           (mkRsRcv 0 (replicate (Z.to_nat (rq_size c + 1)) (mkRsMsg 0 0)) 0 0 (halfc c) (halfc c) 0 0)
           (mkRsCtl (Z.shiftr (rq_size c) 1) 0 RS_QP_CTRL_SIZE 0 rs_init 0 0 false 0))
    (write_bytes (n_mem n) (target_sgl c) (replicate (Z.to_nat (32 + 24 * target_iomap_size c)) 0))
    (mkPort [] [] [] (replicate (Z.to_nat (rq_size c)) (rs_rwr (rs_recv_wr_id 0) [])) (sq_size c)) 0.

Lemma repost_port k t : rs_opts (rs_cf (t_rs t)) = 0 ->
  repost port_dev k t = (with_dev (set_rq (p_rq (t_dev t) ++ replicate k (rs_rwr (rs_recv_wr_id 0) [])) (t_dev t)) t, 0).
Proof.
  revert t. induction k as [|k IH]; intros t Ho; simpl.
  - rewrite app_nil_r. by destruct t as [? ? [] ?].
  - unfold rs_post_recv, msg_send. rewrite Ho. simpl. rewrite IH by done. simpl. by rewrite <- app_assoc.
Qed.

(** A socket that was not used, after [k] attempts to resolve the address or the route. *)
Definition unused (k : Z) : rst port :=
  mkRst (mkRs (rs_cf (n_rs n)) (mkRsSnd 0 0 0 0 0 0 [] [] false) (mkRsRcv 0 [] 0 0 0 0 0 0)
           (mkRsCtl 0 0 RS_QP_CTRL_SIZE 0 rs_init 0 k false 0)) (n_mem n) (mkPort [] [] [] [] 0) 0.

Lemma unused_eq : mkRst (n_rs n) (n_mem n) (mkPort [] [] [] [] 0) 0 = unused 0.
Proof.
  destruct Hn as ((d & inh & Hrs & Hp) & _). unfold unused. f_equal. rewrite Hrs. unfold rs_alloc.
  destruct inh as [p|]; [|done]. cbn. by rewrite (Hp p eq_refl).
Qed.

(** No step of the opening fails. *)
Lemma create_ep_ok k : rs_create_ep port_dev (port_env n) (unused k) = Ok (upd_c (set_retries k) opened, 0).
Proof.
  destruct Hn as ((d & inh & Hrs & _) & _). unfold rs_create_ep. cbn [port_env e_iwarp e_create_qp].
  assert (Ho : rs_opts (rs_cf (n_rs n)) = 0) by (rewrite Hrs; by destruct inh).
  unfold rs_create_cq, msg_send. cbn. rewrite andb_false_r, Ho. cbn -[repost u32 write_bytes replicate].
  by rewrite repost_port.
Qed.

Lemma open_end_ok : open_end n = Ok (opened, 0).
Proof. unfold open_end. rewrite unused_eq. apply create_ep_ok. Qed.

End Ends.

(** ** The exchange *)

Lemma hton_hton net k z : 0 <= z < 2 ^ (8 * Z.of_nat k) -> hton net k (hton net k z) = z.
Proof. intros Hz. unfold hton. destruct net; [done|]. by apply bswap_bswap. Qed.

Lemma net_sge_net net s : sge_small s -> net_sge net (net_sge net s) = s.
Proof. intros (? & ? & ?). unfold net_sge. simpl. rewrite !hton_hton by (simpl; lia). by destruct s. Qed.

(** The configuration of the end [a] that saved the data of [b]. *)
Definition joined_conf (net : bool) (a b : endpoint) : rs_conf :=
  save_conf net (rs_format_conn_data net (opened b)) (end_conf a).

Lemma joined_linked net a b : fine a -> fine b -> linked (joined_conf net a b) (joined_conf net b a).
Proof.
  intros (_ & Ha & _ & _) (_ & Hb & _ & Hk). unfold joined_conf, save_conf, rs_format_conn_data.
  pose proof (k_target _ Hb) as Ht. cbn -[has net_sge end_conf rs_scale_to_value u64] in *.
  assert (Hopt : forall z, (if (net && negb (has (Z.lor RS_CONN_FLAG_IOMAP (if net then RS_CONN_FLAG_NET else 0)) RS_CONN_FLAG_NET))
    || (negb net && has (Z.lor RS_CONN_FLAG_IOMAP (if net then RS_CONN_FLAG_NET else 0)) RS_CONN_FLAG_NET)
    then RS_OPT_SWAP_SGL else z) = z) by (intros; by destruct net).
  rewrite !Hopt. split.
  - destruct Ha. split; done.
  - cbn -[net_sge end_conf]. rewrite net_sge_net; [done|]. unfold sge_small. cbn in *. unfold RS_SGL_SIZE. lia.
Qed.

Lemma joined_sgl net b : fine b ->
  net_sge net (cd_data_buf (rs_format_conn_data net (opened b))) = grant_sge (end_conf b) 0.
Proof.
  intros (_ & Hb & _ & _). pose proof (grant_small _ Hb 0) as Hs. unfold rs_format_conn_data. cbn [cd_data_buf].
  rewrite net_sge_net.
  - unfold grant_sge. change (0 mod 2) with 0. by rewrite Z.mul_0_l, Z.add_0_r.
  - unfold grant_sge in Hs. change (0 mod 2) with 0 in Hs. rewrite Z.mul_0_l, Z.add_0_r in Hs. exact Hs.
Qed.

(** ** The invariant of a new connection *)

#[local] Arguments le_split : simpl never.
#[local] Arguments le_combine : simpl never.
#[local] Arguments read_bytes : simpl never.
#[local] Arguments write_bytes : simpl never.
#[local] Arguments hton : simpl never.
#[local] Arguments net_sge : simpl never.
#[local] Arguments sge_bytes : simpl never.

Lemma zeros_read m a k d n : 0 <= n -> a <= d -> d + n <= a + Z.of_nat k ->
  read_bytes (write_bytes m a (replicate k 0)) d n = replicate (Z.to_nat n) 0.
Proof.
  intros Hn Ha Hd. apply list_eq. intros i. unfold read_bytes. rewrite list_lookup_fmap.
  destruct (decide (i < Z.to_nat n)%nat) as [Hi|Hi].
  - rewrite lookup_seqZ_lt by lia. simpl. replace (d + Z.of_nat i) with (a + (d - a + Z.of_nat i)) by lia.
    rewrite write_bytes_in by (rewrite length_replicate; lia).
    rewrite nth_lookup, !lookup_replicate_2 by lia. done.
  - rewrite !lookup_ge_None_2; [done|rewrite length_replicate; lia|rewrite length_seqZ; lia].
Qed.

Section Joined.
Context (net : bool) (a b : endpoint).
Hypothesis Ha : fine a.
Hypothesis Hb : fine b.
Let x := joined net (opened a) (opened b).
Let y := joined net (opened b) (opened a).
Let v0 := mkQv [] [] [].

Lemma joined_cf : s_cf x = joined_conf net a b /\ s_cf y = joined_conf net b a.
Proof. done. Qed.

Lemma joined_own : side_own x y v0.
Proof.
  destruct Ha as (_ & Hc & _). pose proof (k_sbuf _ Hc) as (_ & [Hlow _] & _). pose proof (k_queues _ Hc) as [_ Hq].
  unfold RS_SNDLOWAT, RS_QP_MIN_SIZE in *.
  split; try done; cbn -[end_conf halfc]; try set_solver; try (unfold RS_QP_CTRL_SIZE, zlen; simpl in *; lia).
  - apply Forall_forall. intros r [-> _]%elem_of_replicate. done.
  - change (zlen (@nil Z)) with 0. rewrite Z.mod_0_l; lia.
  - by exists 0, 0.
Qed.

(** The two entries that [x] has for credits: the first half, and nothing. *)
Lemma joined_entries :
  read_sge (s_mem x) (target_sgl (s_cf x)) = grant_sge (s_cf y) 0 /\
  rg_length (read_sge (s_mem x) (target_sgl (s_cf x) + 16)) = 0.
Proof.
  destruct Ha as (_ & Hca & Hio & _). pose proof Hb as (_ & Hcb & _).
  split.
  - apply read_sge_of; [by apply (grant_small (end_conf b))|].
    cbn -[end_conf rs_format_conn_data]. rewrite (joined_sgl net b Hb).
    change 16 with (Z.of_nat 16). rewrite <- (sge_bytes_length (grant_sge (end_conf b) 0)). apply read_write.
  - cbn -[end_conf rs_format_conn_data replicate].
    rewrite read_write_out by (rewrite sge_bytes_length; lia).
    change (0 <= target_iomap_size (end_conf a)) in Hio. rewrite (zeros_read _ _ _ _ 4) by lia. done.
Qed.

Lemma joined_direction : direction x v0 y v0.
Proof.
  destruct joined_entries as [He0 He1]. pose proof Hb as (_ & Hcb & _). pose proof (k_rbuf _ Hcb) as (_ & Hh & Hsz & _).
  pose proof (k_queues _ Hcb) as [Hq _]. unfold RS_QP_MIN_SIZE, RS_QP_MAX_SIZE in Hq. split.
  - exists []. split.
    + split; try done; cbn -[end_conf halfc].
      * exists 0. split; [done|]. split; [done|]. intros i Hi. unfold zlen in Hi. simpl in Hi. lia.
      * split; [lia|done].
      * split; cbn -[end_conf Z.add]; change (zlen (@nil Z)) with 0; rewrite ?length_replicate; try lia.
        rewrite Z.mod_0_l; lia.
    + exists 0, (rq_size (end_conf b)), (rq_size (end_conf b)). cbn -[end_conf u16 u32].
      generalize dependent (rq_size (end_conf b)). intros q Hq. rewrite hton_hton, !(u16_small q) by (simpl; lia). repeat split; try done; [unfold zlen; simpl; lia..|].
      rewrite Z.sub_diag, Z.add_0_l, u16_small; [done|]. rewrite Z.shiftr_div_pow2 by lia. split; [apply Z.div_pos; lia|].
      apply Z.div_lt_upper_bound; lia.
  - exists 1, 1. change (zlen (s_sent x)) with 0. change (zlen (s_got y)) with 0.
    assert (Hhy : halfc (s_cf y) = halfc (end_conf b)) by done.
    assert (Hry : rbuf_size (s_cf y) = rbuf_size (end_conf b)) by done.
    assert (E0 : 0 / halfc (end_conf b) = 0) by (apply Z.div_0_l; lia).
    assert (Hav : rbuf_bytes_avail (rs_r (t_rs (s_t y))) = halfc (end_conf b)) by done.
    assert (Hfo : rbuf_free_offset (rs_r (t_rs (s_t y))) = halfc (end_conf b)) by done.
    split; rewrite ?Hhy, ?Hry, ?E0, ?Hav, ?Hfo; try done; try lia; [change (1 mod 2) with 1; lia|].
    unfold entry. change (0 mod 2 * 16) with 0. rewrite Z.add_0_r, (Z.mod_0_l (halfc (end_conf b))) by lia. change (0 <? 1) with true. cbv iota.
    rewrite He0.
    unfold grant_sge. change (0 mod 2) with 0. f_equal; rewrite ?Hhy; lia.
Qed.

End Joined.

Lemma joined_inv net a b : fine a -> fine b ->
  inv (joined net (opened a) (opened b)) (joined net (opened b) (opened a)).
Proof.
  intros Ha Hb. exists (mkQv [] [] []), (mkQv [] [] []). split_and!.
  - by apply joined_linked.
  - by apply joined_linked.
  - by apply joined_own.
  - by apply joined_own.
  - by apply joined_direction.
  - by apply joined_direction.
Qed.

(** Two ends that are set up can be joined, and satisfy the invariant. *)
Lemma open_pair_ok net a b : fine a -> fine b -> exists x y, open_pair net a b = Ok (x, y) /\ inv x y.
Proof.
  intros Ha Hb. exists (joined net (opened a) (opened b)), (joined net (opened b) (opened a)).
  unfold open_pair. rewrite !open_end_ok by done. split; [done|]. by apply joined_inv.
Qed.
