(* ===== verification/RsCalls.v ===== *)
(** * Whole calls on a stream

    [rsend], [rrecv] and [MSG_PEEK] from their entry to their return, on a queue pair to
    which nothing arrives meanwhile: what the result says about the stream, and that a
    call which must not block returns. *)

From S2P Require Import Prelude CLayout Wire CmdCtrl Verbs CmTypes CmRoute RsTypes RsPost RsStream RsWorld RsInv RsRing.
From S2P Require Import RsBytes RsRoom RsOwn RsSend RsKept RsTaken RsWire.

Implicit Types t : rst port.
Implicit Types m : mem.

#[local] Arguments bswap : simpl never.
#[local] Arguments read_sge : simpl never.
#[local] Arguments read_bytes : simpl never.
#[local] Arguments rs_msg_set : simpl never.
#[local] Arguments rs_wr : simpl never.

(** Completions that wait. *)
Definition cqn t : nat := length (p_cq (t_dev t)).

(** [keeps x y t]: [t] is a later state of the side [x] in the middle of a call, which has
    not touched the memory of the application. *)
Definition keeps (x y : side) t : Prop := inv (with_t t x) y /\ (cqn t <= cqn (s_t x))%nat /\ cf t = s_cf x /\
  forall a, ~ in_lib (s_cf x) a -> t_mem t a = s_mem x a.

Lemma call_keeps_refl x y : inv x y -> keeps x y (s_t x).
Proof. intros Hi. split; [by destruct x|done]. Qed.

Lemma keeps_trans x y t t' : keeps x y t -> keeps (with_t t x) y t' -> keeps x y t'.
Proof.
  intros (_ & H1 & H2 & H3) (H4 & H5 & H6 & H7). simpl in *. split; [done|]. split; [lia|]. split; [by rewrite H6|].
  intros a Ha. rewrite H7 by by rewrite H2. by apply H3.
Qed.

(** The same thread up to [errno] and the fields that the invariant does not read. *)
Lemma keeps_as x y t t2 : keeps x y t -> inv (with_t t2 x) y -> cqn t2 = cqn t -> cf t2 = cf t -> t_mem t2 = t_mem t ->
  keeps x y t2.
Proof. intros (_ & H1 & H2 & H3) Hi E1 E2 E3. split; [done|]. by rewrite E1, E2, E3. Qed.

Lemma keeps_errno x y t e : keeps x y t -> keeps x y (with_errno e t).
Proof. intros K. eapply keeps_as; [exact K| |done..]. apply (inv_same (with_t t x)); [apply K|done..]. Qed.

(** ** Credits *)

Lemma can_send_ext t t2 : cf t2 = cf t -> snd t2 = snd t -> target t2 = target t -> rs_can_send t2 = rs_can_send t.
Proof. intros E1 E2 E3. unfold rs_can_send, msg_send. by rewrite E1, E2, E3. Qed.

Lemma credits_frame x y : inv x y ->
  ((cqn (rs_update_credits port_dev (s_t x)) <= cqn (s_t x))%nat /\ cf (rs_update_credits port_dev (s_t x)) = s_cf x /\
   forall a, ~ in_lib (s_cf x) a -> t_mem (rs_update_credits port_dev (s_t x)) a = s_mem x a) /\
  (rs_can_send (s_t x) = true -> rs_can_send (rs_update_credits port_dev (s_t x)) = true) /\
  rs_state (ctl (rs_update_credits port_dev (s_t x))) = rs_state (s_ctl x) /\
  rmsg_head (rcv (rs_update_credits port_dev (s_t x))) = rmsg_head (s_rcv x) /\
  rmsg_tail (rcv (rs_update_credits port_dev (s_t x))) = rmsg_tail (s_rcv x).
Proof.
  intros Hinv. pose proof (inv_conf _ _ Hinv) as Hc.
  unfold rs_update_credits. destruct (rs_give_credits (s_t x)) eqn:E; [|done].
  apply andb_prop in E as [[_ E]%andb_prop _]. rewrite no_msg_send in E by done.
  apply negb_true_iff, Z.eqb_neq in E. pose proof Hinv as (vx & vy & _ & _ & Hox & _).
  destruct (Z.le_gt_cases (half (s_t x)) (u32 (rbuf_bytes_avail (s_rcv x)))).
  - assert (Hm : forall a, ~ (sbuf (s_cf x) <= a < sbuf (s_cf x) + sbuf_size (s_cf x) + 64) ->
      t_mem (rs_send_credits port_dev (s_t x)) a = s_mem x a).
    { intros a Ha. rewrite send_credits_half by done. apply write_bytes_out. rewrite sge_bytes_length, land3_mod.
      pose proof (Z.mod_pos_bound (u32 (ctrl_seqno (s_ctl x) + 1)) 4 ltac:(lia)).
      pose proof (k_sbuf _ Hc) as (_ & [Hsb _] & _). unfold RS_SNDLOWAT in *. lia. }
    rewrite send_credits_half in * by done. split; [split; [done|]; split; [done|]|split; [|done]].
    + intros a Ha. apply Hm. intros Hr. by apply Ha, lib_sbuf.
    + intros <-. apply can_send_ext; [done|done|]. apply read_sge_ext. intros a Ha. apply Hm.
      destruct Hinv as (? & ? & _ & _ & _ & _ & [_ (g & gd & Hr)] & _).
      pose proof (r_tsge _ _ _ _ _ _ _ _ _ _ _ _ Hr) as Hts. unfold target_at, sizeof_rs_sge in Ha. rewrite Hts in Ha.
      match type of Hts with _ = ?k mod 2 => destruct (mod2 k) as [Hk|Hk]; rewrite Hk in Ha end;
      destruct (k_st _ Hc); lia.
  - by rewrite send_credits_msg by done.
Qed.

Lemma keeps_credits x y : inv x y -> keeps x y (rs_update_credits port_dev (s_t x)).
Proof. intros Hi. split; [by apply inv_credits|]. exact (proj1 (credits_frame x y Hi)). Qed.

(** What completions leave alone. *)
Lemma sent_frame w t : cf (handle_sent w t) = cf t /\ t_mem (handle_sent w t) = t_mem t.
Proof. unfold handle_sent. repeat (match goal with |- context [if ?b then _ else _] => destruct b end); done. Qed.

Lemma msg_frame msg t t' b : handle_msg msg t = Ok (t', b) -> cf t' = cf t /\ t_mem t' = t_mem t.
Proof.
  unfold handle_msg. cbv zeta.
  repeat (match goal with |- context [if ?b then _ else _] => destruct b end); intros E; try discriminate E;
    by injection E as <- <-.
Qed.

Lemma handle_frame w rcnt t t' r s : handle_wc w rcnt t = Ok (t', r, s) -> cf t' = cf t /\ t_mem t' = t_mem t.
Proof.
  unfold handle_wc. destruct (rs_wr_is_recv (rw_id w)); [|intros [= <- <- <-]; apply sent_frame].
  destruct (negb (rw_ok w)); [by intros [= <- <- <-]|]. intros ([t1 b] & E & [= <- <- <-])%bind_Ok. by eapply msg_frame.
Qed.

Lemma repost_frame n : forall t t' ret, repost port_dev n t = (t', ret) -> cf t' = cf t /\ t_mem t' = t_mem t.
Proof.
  induction n as [|n IH]; intros t t' ret E; simpl in E; [by simplify_eq|].
  unfold rs_post_recv in E. destruct (msg_send t); simpl in E; apply IH in E; exact E.
Qed.

Lemma poll_frame n : forall rcnt t t' ret, rs_poll_loop port_dev n rcnt t = Ok (t', ret) ->
  cf t' = cf t /\ t_mem t' = t_mem t.
Proof.
  induction n as [|n IH]; intros rcnt t t' ret E; simpl in E; [discriminate E|].
  destruct (p_cq (t_dev t)) as [|w l].
  - injection E as E. unfold poll_end in E. destruct (has _ _); [|by simplify_eq]. simpl in E.
    destruct (repost port_dev (Z.to_nat rcnt) _) as [t2 r] eqn:E2. apply repost_frame in E2 as [H1 H2].
    destruct (r =? 0); injection E as <- <-; done.
  - apply bind_Ok in E as ([[t1 r1] stop] & E1 & E). apply handle_frame in E1 as [H1 H2].
    destruct stop; [by simplify_eq|]. apply IH in E as [H3 H4]. by rewrite H3, H4, H1, H2.
Qed.

(** ** Waiting *)

Lemma keeps_poll n x y t' ret : inv x y -> rs_poll_cq port_dev n (s_t x) = Ok (t', ret) -> keeps x y t' /\ ret = 0.
Proof.
  intros Hi E. unfold rs_poll_cq in E. destruct (inv_poll n x y 0 Hi) as [(t2 & E2 & Hi2 & Hq)|[E2 _]]; rewrite E2 in E;
    [|discriminate E]. apply poll_frame in E2 as [H1 H2]. injection E as <- <-. split; [|done].
  split; [done|]. split; [done|]. by rewrite H1, H2.
Qed.

Section Wait.
Context (fuel : nat) (pt : Z).

(** A test that giving credits does not spoil. *)
Definition stable (y : side) (test : rst port -> bool) : Prop := forall x, inv x y -> test (s_t x) = true ->
  test (rs_update_credits port_dev (s_t x)) = true.

Lemma get_event_keeps x y t' ret : inv x y -> rs_get_cq_event port_dev (s_t x) = (t', ret) ->
  keeps x y t' /\ (ret = 0 \/ ret = -1).
Proof.
  intros Hi E. unfold rs_get_cq_event in E. destruct (negb (cq_armed (s_ctl x))).
  - simplify_eq. split; [by apply call_keeps_refl|by left].
  - simpl in E. simplify_eq. split; [|by right]. apply keeps_errno.
    eapply keeps_as; [by apply call_keeps_refl| |done..]. by apply inv_same.
Qed.

(** One round ends the loop with 0 only when the test holds. *)
Lemma round_keeps nb test x y t' r : inv x y -> process_round port_dev fuel nb test (s_t x) = Ok (t', r) ->
  keeps x y t' /\ match r with Some 0 => test t' = true | Some ret => ret = -1 | None => nb = false end.
Proof.
  intros Hi E. unfold process_round in E. pose proof (keeps_credits _ _ Hi) as K1.
  apply bind_Ok in E as ([t1 ret] & E1 & E).
  destruct (keeps_poll fuel _ y t1 ret (proj1 K1) E1) as [K2 ->]. pose proof (keeps_trans _ _ _ _ K1 K2) as K.
  destruct (test t1) eqn:Et; [by simplify_eq|]. simpl in E. destruct nb; [injection E as <- <-; split; [by apply keeps_errno|done]|].
  destruct (negb (cq_armed (ctl t1))).
  - injection E as <- <-. split; [|done]. eapply keeps_as; [exact K| |done..]. apply (inv_ctl (with_t t1 x)); [apply K|done].
  - pose proof (keeps_credits _ _ (proj1 K)) as K3. simpl in K3.
    destruct (rs_get_cq_event port_dev (rs_update_credits port_dev t1)) as [t2 r2] eqn:E2.
    destruct (get_event_keeps _ y t2 r2 (proj1 K3) E2) as [K4 Hr]. injection E as <- <-.
    split; [eapply keeps_trans; [eapply keeps_trans; [exact K|exact K3]|exact K4]|].
    by destruct Hr as [-> | ->].
Qed.

Lemma loop_keeps nb test y n : stable y test -> forall x t' ret, inv x y ->
  process_loop port_dev fuel n nb test (s_t x) = Ok (t', ret) ->
  keeps x y t' /\ (ret = 0 /\ test t' = true \/ ret = -1).
Proof.
  intros Hst. induction n as [|n IH]; intros x t' ret Hi E; simpl in E; [discriminate E|].
  apply bind_Ok in E as ([t1 r] & E1 & E). destruct (round_keeps _ _ _ _ _ _ Hi E1) as [K Hr].
  destruct r as [r|].
  - injection E as <- <-. pose proof (keeps_credits _ _ (proj1 K)) as K2. split; [by eapply keeps_trans|].
    destruct r as [|p|p]; [left|by right..]. split; [done|]. by apply (Hst (with_t t1 x)); [apply K|].
  - destruct (IH (with_t t1 x) t' ret (proj1 K) E) as [K2 Hret]. split; [by eapply keeps_trans|done].
Qed.

Lemma comp_keeps nb test y n : stable y test -> forall start x t' ret, inv x y ->
  comp_loop port_dev fuel pt n start nb test (s_t x) = Ok (t', ret) ->
  keeps x y t' /\ (ret = 0 /\ test t' = true \/ ret = -1).
Proof.
  intros Hst. induction n as [|n IH]; intros start x t' ret Hi E; simpl in E; [discriminate E|].
  apply bind_Ok in E as ([t1 r] & E1 & E). destruct (loop_keeps _ _ _ _ Hst _ _ _ Hi E1) as [K Hr].
  destruct ((r =? 0) || nb || negb (t_errno t1 =? EWOULDBLOCK)); [by simplify_eq|].
  assert (Hk : forall d, d = t_dev t1 -> inv (with_t (with_dev d t1) x) y).
  { intros d ->. by apply (inv_same (with_t t1 x)); [apply K|..]. }
  assert (Hgo : forall t2 s, (t2 = t1 \/ t2 = with_dev (t_dev t1) t1) ->
    (if u32 (0 - s + 1) <=? pt
     then comp_loop port_dev fuel pt n (if u32 (0 - s + 1) =? 0 then None else Some s) nb test (with_dev (t_dev t2) t2)
     else rs_process_cq port_dev fuel false test (with_dev (t_dev t2) t2)) = Ok (t', ret) ->
    keeps x y t' /\ (ret = 0 /\ test t' = true \/ ret = -1)).
  { intros t2 s Ht2 E2.
    assert (Hi2 : inv (with_t (with_dev (t_dev t1) t1) x) y) by by apply Hk.
    replace (with_dev (t_dev t2) t2) with (with_dev (t_dev t1) t1) in E2 by by destruct Ht2 as [-> | ->].
    assert (K2 : keeps x y (with_dev (t_dev t1) t1)) by (eapply keeps_as; [exact K|done..]).
    destruct (u32 (0 - s + 1) <=? pt).
    - destruct (IH _ (with_t (with_dev (t_dev t1) t1) x) t' ret Hi2 E2) as [K3 ?]. split; [by eapply keeps_trans|done].
    - destruct (loop_keeps _ _ _ _ Hst (with_t (with_dev (t_dev t1) t1) x) t' ret Hi2 E2) as [K3 ?].
      split; [by eapply keeps_trans|done]. }
  destruct start as [s|]; simpl in E; eapply Hgo; [| |by right|exact E]; [|exact E]; by left.
Qed.

Lemma comp_keeps' nb test y x t' ret : stable y test -> inv x y ->
  rs_get_comp port_dev fuel pt nb test (s_t x) = Ok (t', ret) ->
  keeps x y t' /\ (ret = 0 /\ test t' = true \/ ret = -1).
Proof. intros Hst Hi E. by eapply comp_keeps. Qed.

(** A call that must not block looks once. *)
Lemma process_returns test x y : inv x y -> (cqn (s_t x) < fuel)%nat ->
  exists t' ret, rs_process_cq port_dev fuel true test (s_t x) = Ok (t', ret).
Proof.
  intros Hi Hf. destruct fuel as [|f] eqn:Ef; [lia|]. rewrite <- Ef in *.
  assert (Hr : exists t1 r, process_round port_dev fuel true test (s_t x) = Ok (t1, Some r)).
  { unfold process_round. pose proof (keeps_credits _ _ Hi) as [K Kq].
    destruct (inv_poll fuel _ y 0 K) as [(t2 & E2 & _)|[_ Hn]]; [|simpl in Hn; unfold cqn in *; lia].
    unfold rs_poll_cq. simpl in E2. rewrite E2. cbn [mbind res_bind]. destruct (test t2); simpl; by eexists _, _. }
  destruct Hr as (t1 & r & Hr). exists (rs_update_credits port_dev t1), r.
  unfold rs_process_cq. assert (H : process_loop port_dev fuel (S f) true test (s_t x) = Ok (rs_update_credits port_dev t1, r))
      by (simpl; by rewrite Hr). by rewrite <- Ef in H.
Qed.

Lemma nonblocking_returns test x y : inv x y -> (cqn (s_t x) < fuel)%nat ->
  exists t' ret, rs_get_comp port_dev fuel pt true test (s_t x) = Ok (t', ret).
Proof.
  intros Hi Hf. destruct (process_returns test x y Hi Hf) as (t1 & r & Hp).
  destruct fuel as [|f] eqn:Ef; [lia|]. rewrite <- Ef in *.
  assert (Hc : comp_loop port_dev fuel pt (S f) None true test (s_t x) = Ok (t1, r)).
  { simpl. rewrite Hp. cbn [mbind res_bind]. by rewrite orb_true_r. }
  rewrite <- Ef in Hc. by eexists _, _.
Qed.

End Wait.

(** ** Sending *)

Lemma stable_send y : stable y rs_conn_can_send.
Proof.
  intros x Hi Ht. destruct (credits_frame x y Hi) as (_ & Hs & Hst & _). unfold rs_conn_can_send in *. rewrite Hst.
  apply orb_prop in Ht as [Ht| ->]; [by rewrite Hs|apply orb_true_r].
Qed.

Lemma stable_recv y : stable y rs_conn_have_rdata.
Proof.
  intros x Hi Ht. destruct (credits_frame x y Hi) as (_ & _ & Hst & Hh & Hta). unfold rs_conn_have_rdata, rs_have_rdata in *.
  by rewrite Hst, Hh, Hta.
Qed.

(** The steps of the overlap: 2048, doubled up to 65536. *)
Definition olen_ok (o : Z) : Prop := exists k, 0 <= k <= 5 /\ o = RS_OLAP_START_SIZE * 2 ^ k.

Lemma olen_bounds o : olen_ok o -> 1 <= o <= RS_MAX_TRANSFER.
Proof.
  intros (k & Hk & ->). unfold RS_OLAP_START_SIZE, RS_MAX_TRANSFER.
  assert (2 ^ 0 <= 2 ^ k) by (apply Z.pow_le_mono_r; lia). assert (2 ^ k <= 2 ^ 5) by (apply Z.pow_le_mono_r; lia). lia.
Qed.

Lemma olen_next n o t x o' : olen_ok o -> xfer_of n o t = (x, o') -> olen_ok o'.
Proof.
  intros Ho E. pose proof (olen_bounds _ Ho) as Hb. unfold xfer_of in E. unfold RS_MAX_TRANSFER in *.
  destruct (o <? n); [destruct (Z.ltb_spec o 65536)|]; simplify_eq; try done.
  destruct Ho as (k & Hk & ->). unfold RS_OLAP_START_SIZE in *. exists (k + 1).
  assert (k <> 5) by (intros ->; lia). split; [lia|].
  rewrite Z.shiftl_mul_pow2, u32_small by lia. rewrite Z.pow_add_r by lia. unfold RS_OLAP_START_SIZE. lia.
Qed.

Section Send.
Context (fuel : nat) (pt : Z) (flags : Z).

Lemma wait_keeps x y t' r : inv x y -> wait_to_send port_dev fuel pt flags (s_t x) = Ok (t', r) ->
  keeps x y t' /\ match r with None => rs_can_send t' = true | Some ret => ret = -1 end.
Proof.
  intros Hi E. unfold wait_to_send in E. destruct (rs_can_send (s_t x)) eqn:Ec.
  { simplify_eq. split; [by apply call_keeps_refl|done]. }
  apply bind_Ok in E as ([t1 ret] & E1 & E).
  destruct (comp_keeps' _ _ _ _ _ _ _ _ (stable_send y) Hi E1) as [K Hr].
  destruct Hr as [[-> Ht] | ->]; simpl in E; [|by simplify_eq].
  destruct (has (rs_state (ctl t1)) rs_writable) eqn:Ew; simpl in E; simplify_eq.
  - split; [done|]. unfold rs_conn_can_send in Ht. rewrite Ew in Ht. by rewrite orb_false_r in Ht.
  - split; [by apply keeps_errno|done].
Qed.

Lemma send_loop_spec n : forall x y rem olen t' rem' ret, inv x y -> Z.of_nat (length rem) < 2 ^ 32 -> olen_ok olen ->
  send_loop port_dev fuel pt n flags rem olen (s_t x) = Ok (t', rem', ret) ->
  exists k, (k <= length rem)%nat /\ rem' = drop k rem /\ inv (mkSide t' (s_sent x ++ take k rem) (s_got x)) y /\
    (ret = 0 /\ k = length rem \/ ret = -1).
Proof.
  induction n as [|n IH]; intros x y rem olen t' rem' ret Hi Hl Ho E.
  - destruct rem; [|discriminate E]. injection E as <- <- <-. exists 0%nat. simpl. rewrite app_nil_r.
    split; [lia|]. split; [done|]. split; [by destruct x|by left].
  - destruct rem as [|b rem]; [injection E as <- <- <-; exists 0%nat; simpl; rewrite app_nil_r; split; [lia|]; split; [done|];
      split; [by destruct x|by left]|].
    cbn [send_loop] in E. apply bind_Ok in E as ([t1 r] & E1 & E). destruct (wait_keeps _ _ _ _ Hi E1) as [[Hi1 Hq1] Hr].
    destruct r as [r|].
    { injection E as <- <- <-. exists 0%nat. rewrite app_nil_r. split; [lia|]. split; [done|]. split; [done|by right]. }
    destruct (xfer_of (Z.of_nat (length (b :: rem))) olen t1) as [xf ol] eqn:Ex.
    destruct (send_chunk port_dev (take (Z.to_nat xf) (b :: rem)) t1) as [t2 rt] eqn:Es.
    destruct (inv_send (with_t t1 x) y (b :: rem) olen xf ol t2 rt) as (Hi2 & -> & _ & Hxf); try done;
      [by apply olen_bounds|].
    cbn [Z.eqb] in E. destruct (IH _ _ (drop (Z.to_nat xf) (b :: rem)) ol t' rem' ret Hi2)
      as (k & Hk & -> & Hi3 & Hret); [rewrite length_drop; lia|by eapply olen_next|exact E|].
    exists (Z.to_nat xf + k)%nat. rewrite length_drop in Hk, Hret. split; [lia|]. split; [by rewrite drop_drop|].
    split; [|destruct Hret as [[]|]; [left|by right]; split; [done|lia]].
    simpl s_sent in Hi3. rewrite <- app_assoc, take_take_drop in Hi3. exact Hi3.
Qed.

End Send.

Section SendCall.
Context (fuel : nat) (pt : Z) (flags junk : Z).

Lemma sendb_spec x y bytes t' ret : inv x y -> Z.of_nat (length bytes) < 2 ^ 32 ->
  rs_sendb port_dev fuel pt junk flags bytes (s_t x) = Ok (t', ret) ->
  exists k, (k <= length bytes)%nat /\ inv (mkSide t' (s_sent x ++ take k bytes) (s_got x)) y /\
    (ret = Z.of_nat k \/ k = 0%nat /\ ret = -1).
Proof.
  intros Hi Hl E. unfold rs_sendb in E.
  assert (Hp : iomap_pending (s_snd x) = false) by (destruct Hi as (? & ? & _ & _ & Hox & _); apply Hox).
  rewrite Hp in E. cbn [mbind res_bind] in E. apply bind_Ok in E as ([[t1 rem] r] & E1 & E). injection E as <- <-.
  destruct (send_loop_spec _ _ _ _ _ _ _ _ _ _ _ Hi Hl ltac:(by exists 0) E1) as (k & Hk & -> & Hi2 & Hr).
  exists k. split; [done|]. split; [done|]. unfold transferred. rewrite length_drop.
  destruct Hr as [[-> ->] | ->]; cbn [negb andb Z.eqb].
  - left. lia.
  - destruct (Nat.eqb_spec (length bytes - k) (length bytes)); [|left; lia].
    assert (k = 0 \/ length bytes = 0)%nat as [-> | Hb] by lia; [by right|]. right. split; [lia|done].
Qed.

Lemma wait_returns x y : inv x y -> has flags MSG_DONTWAIT = true -> (cqn (s_t x) < fuel)%nat ->
  exists t' r, wait_to_send port_dev fuel pt flags (s_t x) = Ok (t', r).
Proof.
  intros Hi Hf Hq. unfold wait_to_send, rs_nonblocking. destruct (rs_can_send (s_t x)); [by eexists _, _|].
  rewrite Hf, orb_true_r. destruct (nonblocking_returns fuel pt rs_conn_can_send x y Hi Hq) as (t1 & r & E). rewrite E.
  cbn [mbind res_bind]. destruct (negb (r =? 0)); [by eexists _, _|].
  destruct (negb (has (rs_state (ctl t1)) rs_writable)); by eexists _, _.
Qed.

Lemma send_loop_returns n : forall x y rem olen, inv x y -> Z.of_nat (length rem) < 2 ^ 32 -> olen_ok olen ->
  has flags MSG_DONTWAIT = true -> (cqn (s_t x) < fuel)%nat -> (length rem <= n)%nat ->
  exists r, send_loop port_dev fuel pt n flags rem olen (s_t x) = Ok r.
Proof.
  induction n as [|n IH]; intros x y rem olen Hi Hl Ho Hf Hq Hn;
    (destruct rem as [|b rem]; [by eexists|]); [simpl in Hn; lia|].
  cbn [send_loop]. destruct (wait_returns x y Hi Hf Hq) as (t1 & r & E1). rewrite E1. cbn [mbind res_bind].
  destruct (wait_keeps _ _ _ _ _ _ _ Hi E1) as [[Hi1 Hq1] Hr]. destruct r as [r|]; [by eexists|].
  destruct (xfer_of (Z.of_nat (length (b :: rem))) olen t1) as [xf ol] eqn:Ex.
  destruct (send_chunk port_dev (take (Z.to_nat xf) (b :: rem)) t1) as [t2 rt] eqn:Es.
  destruct (inv_send (with_t t1 x) y (b :: rem) olen xf ol t2 rt) as (Hi2 & -> & Hcq & Hxf); try done;
    [by apply olen_bounds|].
  cbn [Z.eqb]. apply (IH _ y _ _ Hi2); try done.
  - rewrite length_drop. lia.
  - by eapply olen_next.
  - unfold cqn in *. simpl in *. rewrite Hcq. lia.
  - rewrite length_drop. simpl length in *. lia.
Qed.

Lemma sendb_returns x y bytes : inv x y -> Z.of_nat (length bytes) < 2 ^ 32 ->
  has flags MSG_DONTWAIT = true -> (cqn (s_t x) < fuel)%nat -> (length bytes <= fuel)%nat ->
  exists t' ret, rs_sendb port_dev fuel pt junk flags bytes (s_t x) = Ok (t', ret).
Proof.
  intros Hi Hl Hf Hq Hn. unfold rs_sendb.
  assert (Hp : iomap_pending (s_snd x) = false) by (destruct Hi as (? & ? & _ & _ & Hox & _); apply Hox).
  rewrite Hp. cbn [mbind res_bind].
  destruct (send_loop_returns fuel x y bytes RS_OLAP_START_SIZE Hi Hl) as [[[t1 rem] r] E]; try done;
    [by exists 0|]. cbn. rewrite E. by eexists _, _.
Qed.

End SendCall.

(** ** Receiving *)

(** [MSG_PEEK] copies what [rrecv] would. *)
Lemma peek_recv n : forall t (tp : rst port) buf left,
  rmsg (rcv tp) = rmsg (rcv t) -> rmsg_tail (rcv tp) = rmsg_tail (rcv t) -> cf tp = cf t -> t_mem tp = t_mem t ->
  peek_loop n buf left (rmsg_head (rcv t)) (rbuf_offset (rcv t)) tp
  = ('(t', rem) ← recv_loop n buf left t; Ok (t_mem t', rem)).
Proof.
  induction n as [|n IH]; intros t tp buf left E1 E2 E3 E4; simpl; rewrite E2; unfold rs_have_rdata; rewrite negb_involutive;
    (destruct ((left =? 0) || (rmsg_head (rcv t) =? rmsg_tail (rcv t))); [cbn [mbind res_bind]; by rewrite E4|]); [done|].
  unfold recv_one, take_msg. rewrite E1. destruct (array_get (rmsg (rcv t)) (rmsg_head (rcv t))) as [g| | |]; try done.
  cbn [mbind res_bind]. rewrite E3, E4. destruct (left <? m_data g) eqn:Elt; cbn [mbind res_bind].
  - cbn -[ring_copy]. destruct (ring_copy (t_mem t) (cf t) (rbuf_offset (rcv t)) buf left) as [m off] eqn:Ec.
    cbn [mbind res_bind]. rewrite Z.sub_diag. by destruct n.
  - cbn -[ring_copy]. destruct (ring_copy (t_mem t) (cf t) (rbuf_offset (rcv t)) buf (m_data g)) as [m off] eqn:Ec.
    cbn [mbind res_bind].
    match goal with |- _ = mbind _ (recv_loop n _ _ ?t1) => rewrite <- (IH t1 (with_mem m tp)) end; try done.
Qed.

Section RecvCall.
Context (fuel : nat) (pt : Z) (flags : Z).

(** Waiting for data. *)
Lemma recv_wait_keeps x y t' ret : inv x y ->
  (if rs_have_rdata (s_t x) then Ok (s_t x, 0)
   else rs_get_comp port_dev fuel pt (rs_nonblocking (s_t x) flags) rs_conn_have_rdata (s_t x)) = Ok (t', ret) ->
  keeps x y t' /\ (ret = 0 \/ ret = -1).
Proof.
  intros Hi E. destruct (rs_have_rdata (s_t x)); [simplify_eq; split; [by apply call_keeps_refl|by left]|].
  destruct (comp_keeps' _ _ _ _ _ _ _ _ (stable_recv y) Hi E) as [K [[-> _] | ->]]; auto.
Qed.

Lemma rrecv_loop_spec n : forall x y buf left t' left' ret, inv x y -> has flags MSG_PEEK = false ->
  0 <= left < 2 ^ 32 -> app_buffer (s_cf x) buf left ->
  rrecv_loop port_dev fuel pt n flags buf left (s_t x) = Ok (t', left', ret) ->
  0 <= left' <= left /\ (ret = 0 \/ ret = -1) /\
  (forall a, ~ in_lib (s_cf x) a -> ~ (buf <= a < buf + (left - left')) -> t_mem t' a = s_mem x a) /\
  inv (mkSide t' (s_sent x) (s_got x ++ read_bytes (t_mem t') buf (left - left'))) y.
Proof.
  induction n as [|n IH]; intros x y buf left t' left' ret Hi Hpk Hl Hb E; simpl in E; [discriminate E|].
  apply bind_Ok in E as ([t1 r] & E1 & E). destruct (recv_wait_keeps _ _ _ _ Hi E1) as [K Hr].
  destruct K as (Hi1 & _ & Hcf & Hm1). destruct (negb (r =? 0)) eqn:Er.
  { injection E as <- <- <-. rewrite Z.sub_diag. change (read_bytes _ _ 0) with (@nil Z). rewrite app_nil_r.
    split; [lia|]. split; [done|]. split; [|done]. intros a Ha _. by apply Hm1. }
  rewrite Hpk in E. apply bind_Ok in E as ([t2 l2] & E2 & E).
  destruct (inv_recv _ (with_t t1 x) y buf left Hi1 Hl ltac:(simpl; by rewrite Hcf) _ _ E2) as (Hl2 & Hcf2 & Hm2 & Hi2).
  simpl in Hcf2, Hm2, Hi2.
  destruct (negb (l2 =? 0) && has flags MSG_WAITALL && has (rs_state (ctl t2)) rs_readable).
  - assert (Hb2 : app_buffer (cf t2) (buf + (left - l2)) l2).
    { rewrite Hcf2, Hcf. eapply app_buffer_sub; [exact Hb|lia..]. }
    destruct (IH _ y (buf + (left - l2)) l2 t' left' ret Hi2 Hpk ltac:(lia) Hb2 E) as (Hl3 & Hr3 & Hm3 & Hi3).
    simpl in Hm3, Hi3. rewrite Hcf2, Hcf in Hm3. split; [lia|]. split; [done|]. split.
    + intros a Ha Hn. rewrite Hm3, Hm2, Hm1 by (done || lia). done.
    + assert (Ebs : read_bytes (t_mem t') buf (left - left')
        = read_bytes (t_mem t2) buf (left - l2) ++ read_bytes (t_mem t') (buf + (left - l2)) (l2 - left')).
      { replace (left - left') with ((left - l2) + (l2 - left')) by lia. rewrite read_bytes_app by lia. f_equal.
        apply read_bytes_ext. intros a Ha. apply Hm3; [|lia]. apply Hb. lia. }
      rewrite Ebs. by rewrite <- app_assoc in Hi3.
  - injection E as <- <- <-. split; [lia|]. split; [by left|]. split; [|done].
    intros a Ha Hn. rewrite Hm2, Hm1 by (done || lia). done.
Qed.

Lemma recvb_spec x y buf len t' ret : inv x y -> has flags MSG_PEEK = false -> 0 <= len < 2 ^ 32 ->
  app_buffer (s_cf x) buf len -> rs_recvb port_dev fuel pt buf len flags (s_t x) = Ok (t', ret) ->
  exists n, 0 <= n <= len /\ inv (mkSide t' (s_sent x) (s_got x ++ read_bytes (t_mem t') buf n)) y /\
    (ret = n \/ n = 0 /\ ret = -1).
Proof.
  intros Hi Hpk Hl Hb E. unfold rs_recvb in E. apply bind_Ok in E as ([[t1 rem] r] & E1 & E). injection E as <- <-.
  destruct (rrecv_loop_spec _ _ _ _ _ _ _ _ Hi Hpk Hl Hb E1) as (Hr & Hret & _ & Hi1). exists (len - rem).
  split; [lia|]. split; [done|]. destruct Hret as [-> | ->]; simpl; [by left|].
  destruct (Z.eqb_spec rem len); [right; lia|by left].
Qed.

(** Enough fuel for the bytes that are asked for is enough. *)
Lemma recv_loop_returns n : forall x y buf rem, inv x y -> 0 <= rem < 2 ^ 32 -> app_buffer (s_cf x) buf rem ->
  (Z.to_nat rem <= n)%nat -> exists r, recv_loop n buf rem (s_t x) = Ok r.
Proof.
  induction n as [|n IH]; intros x y buf rem Hi Hr Hb Hn; simpl;
    (destruct ((rem =? 0) || negb (rs_have_rdata (s_t x))) eqn:E; [by eexists|]);
    apply orb_false_iff in E as [Hr0%Z.eqb_neq Hh%negb_false_iff]; [lia|].
  destruct (inv_recv_one x y buf rem Hi Hh ltac:(lia) Hb) as (t1 & k & E1 & Hk & Hcf & _ & Hi1).
  rewrite E1. cbn [mbind res_bind]. apply (IH _ y _ _ Hi1); [lia| |lia].
  simpl. rewrite Hcf. eapply app_buffer_sub; [done|lia..].
Qed.

Lemma recv_loop_dev n : forall buf left t t' left', recv_loop n buf left t = Ok (t', left') -> t_dev t' = t_dev t.
Proof.
  induction n as [|n IH]; intros buf left t t' left' E; simpl in E;
    (destruct ((left =? 0) || negb (rs_have_rdata t)); [by simplify_eq|]); [done|].
  apply bind_Ok in E as ([t1 k] & E1 & ->%IH). unfold recv_one in E1. apply bind_Ok in E1 as ([t2 r] & E2 & E1).
  destruct (ring_copy _ _ _ _ _) as [m off]. injection E1 as <- _. unfold take_msg in E2.
  apply bind_Ok in E2 as (g & _ & E2). by destruct (left <? m_data g); injection E2 as <- _.
Qed.

(** A round of the loop that goes on has taken something. *)
Lemma recv_loop_takes n x y buf left t' left' : inv x y -> 0 < left < 2 ^ 32 -> app_buffer (s_cf x) buf left ->
  rs_have_rdata (s_t x) = true -> recv_loop n buf left (s_t x) = Ok (t', left') -> left' < left.
Proof.
  intros Hi Hl Hb Hh E. destruct n as [|n]; simpl in E; rewrite Hh, (proj2 (Z.eqb_neq left 0)) in E by lia; [done|].
  simpl in E. destruct (inv_recv_one x y buf left Hi Hh Hl Hb) as (t1 & k & E1 & Hk & Hcf & _ & Hi1).
  rewrite E1 in E. cbn [mbind res_bind] in E.
  destruct (inv_recv n _ y (buf + k) (left - k) Hi1 ltac:(lia) ltac:(simpl; rewrite Hcf; eapply app_buffer_sub; [exact Hb|lia..]) _ _ E) as [? _].
  lia.
Qed.

Lemma recv_loop_idle n buf left t : rs_have_rdata t = false -> recv_loop n buf left t = Ok (t, left).
Proof. intros Hh. by destruct n; simpl; rewrite Hh, orb_true_r. Qed.

Lemma rrecv_loop_returns n : forall x y buf left, inv x y -> has flags MSG_DONTWAIT = true -> has flags MSG_PEEK = false ->
  0 <= left < 2 ^ 32 -> app_buffer (s_cf x) buf left ->
  (cqn (s_t x) < fuel)%nat -> (Z.to_nat left <= fuel)%nat -> (Z.to_nat left < n)%nat ->
  exists r, rrecv_loop port_dev fuel pt n flags buf left (s_t x) = Ok r.
Proof.
  induction n as [|n IH]; intros x y buf left Hi Hf Hpk Hl Hb Hq Hn Hn'; [lia|]. cbn [rrecv_loop].
  assert (Hw : exists t1 r, (if rs_have_rdata (s_t x) then Ok (s_t x, 0)
    else rs_get_comp port_dev fuel pt (rs_nonblocking (s_t x) flags) rs_conn_have_rdata (s_t x)) = Ok (t1, r) /\
    (r = 0 -> rs_conn_have_rdata t1 = true)).
  { destruct (rs_have_rdata (s_t x)) eqn:Eh; [eexists _, _; split; [done|]; intros _; unfold rs_conn_have_rdata; by rewrite Eh|].
    unfold rs_nonblocking. rewrite Hf, orb_true_r. destruct (nonblocking_returns fuel pt rs_conn_have_rdata x y Hi Hq) as (t1 & r & E).
    exists t1, r. split; [done|]. intros ->. by destruct (comp_keeps' _ _ _ _ _ _ _ _ (stable_recv y) Hi E) as [_ [[_ ?]|?]]. }
  destruct Hw as (t1 & r & E1 & Htest). rewrite E1. cbn [mbind res_bind].
  destruct (recv_wait_keeps _ _ _ _ Hi E1) as [(Hi1 & Hq1 & Hcf & _) _].
  destruct (Z.eqb_spec r 0) as [Hr|]; cbn [negb]; [|by eexists]. specialize (Htest Hr). rewrite Hpk.
  assert (Hb1 : app_buffer (s_cf (with_t t1 x)) buf left) by (simpl; by rewrite Hcf).
  destruct (recv_loop_returns fuel _ y buf left Hi1 Hl Hb1 Hn) as [[t2 l2] E2]. simpl in E2. rewrite E2. cbn [mbind res_bind].
  destruct (negb (l2 =? 0) && has flags MSG_WAITALL && has (rs_state (ctl t2)) rs_readable) eqn:Ego; [|by eexists].
  apply andb_prop in Ego as [[Hl2%negb_true_iff%Z.eqb_neq _]%andb_prop Hrd].
  destruct (inv_recv _ _ y buf left Hi1 Hl Hb1 _ _ E2) as (Hl3 & Hcf2 & _ & Hi2).
  assert (l2 < left).
  { destruct (rs_have_rdata t1) eqn:Eh; [by eapply (recv_loop_takes fuel (with_t t1 x) y); [..|exact E2]; try done; lia|].
    rewrite recv_loop_idle in E2 by done. injection E2 as <- <-. unfold rs_conn_have_rdata in Htest. by rewrite Eh, Hrd in Htest. }
  apply (IH _ y (buf + (left - l2)) l2 Hi2); try done; [lia| | |lia..].
  - simpl. rewrite Hcf2. eapply app_buffer_sub; [exact Hb1|lia..].
  - simpl. unfold cqn in *. rewrite (recv_loop_dev _ _ _ _ _ _ E2). lia.
Qed.

Lemma recvb_returns x y buf len : inv x y -> has flags MSG_DONTWAIT = true -> has flags MSG_PEEK = false ->
  0 <= len < 2 ^ 32 -> app_buffer (s_cf x) buf len -> (cqn (s_t x) < fuel)%nat -> (Z.to_nat len < fuel)%nat ->
  exists t' ret, rs_recvb port_dev fuel pt buf len flags (s_t x) = Ok (t', ret).
Proof.
  intros Hi Hf Hpk Hl Hb Hq Hn.
  destruct (rrecv_loop_returns fuel x y buf len Hi Hf Hpk Hl Hb Hq ltac:(lia) Hn) as [[[t2 l2] r2] E2].
  unfold rs_recvb. rewrite E2. by eexists _, _.
Qed.

End RecvCall.
