(* ===== verification/RsConn.v ===== *)
(** * Stream connections

    What two applications that are connected by stream sockets can rely on.  The states
    are those that a connection reaches from its opening by the steps of [world_step]. *)

From S2P Require Import Prelude CLayout Wire CmdCtrl Verbs CmTypes CmRoute RsTypes RsPost RsStream RsWorld RsInv RsRing.
From S2P Require Import RsBytes RsRoom RsOwn RsSend RsKept RsTaken RsWire RsOpen RsCalls.

(** [x] and [y] are the ends of a connection that was opened. *)
Definition connected (x y : side) : Prop := exists net a b x0 y0,
  fine a /\ fine b /\ open_pair net a b = Ok (x0, y0) /\ rtc world_step (x0, y0) (x, y).

Lemma connected_inv x y : connected x y -> inv x y.
Proof.
  intros (net & a & b & x0 & y0 & Ha & Hb & Ho & Hr). apply (world_inv _ _ Hr). unfold inv2. simpl.
  destruct (open_pair_ok net a b Ha Hb) as (x1 & y1 & E & Hi). rewrite E in Ho. by injection Ho as <- <-.
Qed.

Lemma world_step_swap s s' : world_step s s' -> world_step (s.2, s.1) (s'.2, s'.1).
Proof. intros []; simpl; by constructor. Qed.

Lemma connected_sym x y : connected x y -> connected y x.
Proof.
  intros (net & a & b & x0 & y0 & Ha & Hb & Ho & Hr). exists net, b, a, y0, x0. split; [done|]. split; [done|]. split.
  - unfold open_pair in *. rewrite (open_end_ok a Ha), (open_end_ok b Hb) in *. cbn [mbind res_bind] in *. by simplify_eq.
  - apply (rtc_congruence (fun s : side * side => (s.2, s.1)) world_step) in Hr; [done|]. apply world_step_swap.
Qed.

(** ** Where requests write *)

Definition wr_bytes (w : app_send_wr) : Z := sumZ (map sge_length (as_sgl w)).
Definition wr_addr (w : app_send_wr) : Z := rdma_remote_addr (s_wr (as_wr w)).
Definition wr_key (w : app_send_wr) : Z := rdma_rkey (s_wr (as_wr w)).

(** All the bytes are inside of the receive buffer, or of the list for credits, of the
    peer with the configuration [c], and carry the key of that registration. *)
Definition inside (c : rs_conf) (w : app_send_wr) : Prop :=
  wr_bytes w = 0 \/
  rbuf c <= wr_addr w /\ wr_addr w + wr_bytes w <= rbuf c + rbuf_size c /\ wr_key w = rmr_rkey c \/
  target_sgl c <= wr_addr w /\ wr_addr w + wr_bytes w <= target_sgl c + RS_SGL_SIZE * sizeof_rs_sge /\
    wr_key w = target_mr_rkey c.

Lemma ring_sgl_bytes c p l : sumZ (map sge_length (ring_sgl c p l)) = l.
Proof. unfold ring_sgl. destruct (l <=? sbuf_size c - p mod sbuf_size c); simpl; lia. Qed.

Lemma inv_inside x y w : inv x y -> w ∈ p_sq (s_port x) -> inside (s_cf y) w.
Proof.
  intros (vx & vy & [Hcx _] & [Hcy _] & Hox & _ & [_ (g & gd & Hr)] & _) Hw.
  rewrite (o_sq _ _ _ _ _ _ _ _ Hox) in Hw. apply list_elem_of_fmap in Hw as (i & -> & Hi).
  pose proof (k_rbuf _ Hcy) as (_ & Hh & Hsz & _). destruct i as [d l|k n q|n q|b q]; [right; left|right; right|by left..].
  - unfold wr_bytes, wr_addr, wr_key. simpl. rewrite ring_sgl_bytes.
    apply elem_of_datas in Hi. pose proof (r_pieces _ _ _ _ _ _ _ _ _ _ _ _ Hr) as Hp.
    apply Forall_forall with (x := (d, l)) in Hp; [|done]. simpl in Hp.
    pose proof (Z.mod_pos_bound d (rbuf_size (s_cf y)) ltac:(lia)). rewrite (pos_in_ring _ Hcy) in *.
    destruct (mod2 (d / halfc (s_cf y))) as [E|E]; rewrite E in *; lia.
  - unfold wr_bytes, wr_addr, wr_key, sizeof_rs_sge, RS_SGL_SIZE. simpl. unfold sizeof_rs_sge.
    destruct (mod2 k) as [-> | ->]; lia.
Qed.

(** ** Progress *)

Lemma s16_mod x : exists k, s16 x = x + k * 2 ^ 16.
Proof.
  unfold s16, u16. pose proof (Z.div_mod x (2 ^ 16) ltac:(lia)). destruct (_ <? _); [exists (- (x / 2 ^ 16))|exists (- (x / 2 ^ 16) - 1)]; lia.
Qed.

Lemma s16_range x : - 2 ^ 15 <= s16 x < 2 ^ 15.
Proof. unfold s16. pose proof (u16_range x). destruct (Z.ltb_spec (u16 x) (2 ^ 15)); lia. Qed.

(** The difference of two 16-bit sequence numbers that are close. *)
Lemma s16_diff a b : - 2 ^ 15 <= a - b < 2 ^ 15 -> s16 (s16 (u16 a) - s16 (u16 b)) = a - b.
Proof.
  intros Hd. destruct (s16_mod (u16 a)) as [k1 E1], (s16_mod (u16 b)) as [k2 E2], (s16_mod (s16 (u16 a) - s16 (u16 b))) as [k E].
  pose proof (s16_range (s16 (u16 a) - s16 (u16 b))). unfold u16 in *.
  pose proof (Z.div_mod a (2 ^ 16) ltac:(lia)). pose proof (Z.div_mod b (2 ^ 16) ltac:(lia)). lia.
Qed.

(** The receiver owes nothing: then there are credits for messages, *)
Lemma creds_left c s r x' : conf_ok c -> creds c s r x' 0 [] -> (0 <=? s16 (s16 (rseq_no r) - s16 (rseq_comp x'))) = false ->
  sseq_no s <> sseq_comp s.
Proof.
  intros Hc (nc & c0 & top & H0 & Hp & Hcl & Ht & Hr & Hs & Hsc & Hx) Hb. simpl in Hcl. subst top.
  rewrite Hr, Hx in Hb. apply Z.leb_gt in Hb. rewrite Hs, Hsc. pose proof (k_queues c Hc) as [Hq _].
  unfold RS_QP_MIN_SIZE, RS_QP_MAX_SIZE in Hq. set (q := rq_size c) in *. rewrite Z.shiftr_div_pow2 in * by lia.
  change (2 ^ 1) with 2 in *. pose proof (Z.div_mod q 2 ltac:(lia)). pose proof (Z.mod_pos_bound q 2 ltac:(lia)).
  rewrite s16_diff in Hb by lia. unfold u16. intros He%mod_inj; lia.
Qed.

(** and room for bytes. *)
Lemma room_left c c' m tsge r rsge s g gd : conf_ok c' -> room c c' m tsge r rsge s s g gd [] [] ->
  (halfc c' <=? u32 (rbuf_bytes_avail r)) = false -> 0 < rg_length (read_sge m (target_sgl c + tsge * 16)).
Proof.
  intros Hc Hr Ha. rewrite (half_avail _ _ _ _ _ _ _ _ _ _ _ _ Hc Hr) in Ha. apply Z.leb_gt in Ha.
  pose proof (k_rbuf c' Hc) as (_ & Hh & Hsz & _). destruct Hr. rewrite r_tsge.
  assert (g = gd). { destruct (Z.lt_ge_cases gd g); [|lia]. rewrite seqZ_cons in r_gsq by lia. discriminate r_gsq. }
  subst gd. unfold entry in r_this. assert (s / halfc c' < g) by (apply Z.div_lt_upper_bound; nia).
  destruct (Z.ltb_spec (s / halfc c') g); [|lia]. rewrite r_this. simpl. pose proof (Z.mod_pos_bound s (halfc c')). lia.
Qed.

Lemma sum_zero l : Forall (fun n => 0 < n < 2 ^ 29) l -> sumZ l = 0 -> l = [].
Proof. intros Hl Hs. destruct Hl as [|z l Hz Hl]; [done|]. simpl in Hs. pose proof (sumZ_pos l Hl). lia. Qed.

Lemma own_quiet c c' m s x p sent v : own c c' m s x p sent v -> p_sq p = [] -> p_dq p = [] -> p_cq p = [] ->
  v = mkQv [] [] [] /\ sqe_avail s = sq_size c - RS_QP_CTRL_SIZE /\ sbuf_bytes_avail s = sbuf_size c /\
  ctrl_seqno x <> ctrl_max_seqno x.
Proof.
  intros [] E1 E2 E3. rewrite o_sq in E1. rewrite o_dq in E2. rewrite o_cq in E3. destruct v as [sq dq cq]. simpl in *.
  apply map_eq_nil in E1, E2, E3. subst. cbn in *. split; [done|]. change (zlen (@nil (Z * Z))) with 0 in o_sqe.
  split; [lia|]. split; [lia|]. destruct o_ctrl as (cn & oc & Hoc & Hs & -> & ->).
  assert (oc = 0) as ->. { destruct (Z.lt_ge_cases 0 oc); [|lia]. rewrite seqZ_cons in Hs by lia. discriminate Hs. }
  unfold RS_QP_CTRL_SIZE, u32. intros He%mod_inj; lia.
Qed.

Definition quiet (p : port) : Prop := p_sq p = [] /\ p_dq p = [] /\ p_cq p = [].

Lemma inv_drained x y : inv x y -> quiet (s_port x) -> quiet (s_port y) -> s_got y = s_sent x ->
  has (rs_state (s_ctl y)) rs_connected = true -> rs_give_credits (s_t y) = false -> rs_can_send (s_t x) = true.
Proof.
  intros (vx & vy & [Hcx _] & [Hcy _] & Hox & Hoy & [(rm & Hb & Hcr) (g & gd & Hr)] & _) (? & ? & ?) (? & ? & ?) Hg Hst Hgive.
  destruct (own_quiet _ _ _ _ _ _ _ _ Hox) as (-> & Hsqe & Hav & _); try done.
  destruct (own_quiet _ _ _ _ _ _ _ _ Hoy) as (-> & _ & _ & Hct); try done. cbn in Hb, Hcr, Hr.
  assert (rm = []) as ->.
  { destruct (b_run _ _ _ _ _ _ _ _ Hb) as (d & Hd1 & Hd2 & _). simpl in Hd1, Hd2. rewrite Hg in Hd1.
    apply sum_zero; [apply Hb|lia]. }
  unfold rs_give_credits in Hgive. rewrite no_msg_send, Hst, andb_true_r in Hgive by done.
  unfold rs_ctrl_avail in Hgive. apply Z.eqb_neq in Hct. rewrite Hct, andb_true_r in Hgive.
  apply orb_false_iff in Hgive as [Hhalf Hseq]. rewrite <- Hg in Hr.
  pose proof (creds_left _ _ _ _ Hcy Hcr Hseq) as Hc. pose proof (room_left _ _ _ _ _ _ _ _ _ Hcy Hr Hhalf) as Hroom.
  pose proof (k_queues _ Hcx) as [_ Hq]. pose proof (k_sbuf _ Hcx) as (_ & [Hlow _] & _).
  unfold rs_can_send. rewrite no_msg_send, Hsqe, Hav by done. unfold RS_QP_MIN_SIZE, RS_QP_CTRL_SIZE in *.
  change (target (s_t x)) with (read_sge (s_mem x) (target_sgl (s_cf x) + target_sge (s_snd x) * 16)).
  rewrite !andb_true_iff, !negb_true_iff, !Z.eqb_neq, Z.leb_le. repeat split; try done; lia.
Qed.
