(* ===== verification/RsStreams.v ===== *)
(** * The theorems on stream sockets

    The guarantees of a connection, each with a connection on which it can be tried:
    [demo], two sockets with the sizes that the library has built in. *)

From S2P Require Import Prelude CLayout Wire CmdCtrl Verbs CmTypes CmRoute RsTypes RsPost RsStream RsWorld RsInv RsRing.
From S2P Require Import RsBytes RsRoom RsOwn RsSend RsKept RsTaken RsWire RsOpen RsCalls RsConn.

(** ** A connection *)

Definition demo_end : endpoint :=
  mkEnd (rs_alloc builtin_defs None) (fun _ => 0) 4096 (mkReg 1048576 1 2) (mkReg 2097152 3 4) (mkReg 3145728 5 6).

Lemma demo_fine : fine demo_end.
Proof.
  split; [by exists builtin_defs, None|]. split; [|by vm_compute].
  split; vm_compute; intuition discriminate.
Qed.

Definition demo : side := joined false (opened demo_end) (opened demo_end).

Lemma demo_connected x y : rtc world_step (demo, demo) (x, y) -> connected x y.
Proof.
  intros Hr. exists false, demo_end, demo_end, demo, demo. split; [apply demo_fine|]. split; [apply demo_fine|]. split; [|done].
  unfold open_pair. by rewrite !(open_end_ok _ demo_fine).
Qed.

(** *** Steps as functions, to run examples *)

Definition ok_or {A} (d : A) (r : res A) : A := match r with Ok a => a | _ => d end.

Lemma ok_pair {A} (d : A * Z) (r : res (A * Z)) z : is_ok r = true -> (ok_or d r).2 = z -> r = Ok ((ok_or d r).1, z).
Proof. destruct r as [[]| | |]; simpl; [by intros _ <-|done..]. Qed.

Definition after_poll (x : side) : side := with_t (ok_or (s_t x, 0) (rs_poll_cq port_dev 4 (s_t x))).1 x.
Definition carried (x : side) : side :=
  match p_sq (s_port x) with
  | [] => x
  | w :: l => with_port (set_dq (p_dq (s_port x) ++ [w]) (set_sq l (s_port x))) x
  end.
Definition after_arrival (x y : side) : option side :=
  match p_sq (s_port x) with [] => None | w :: _ => arrive w (gather (s_mem x) (as_sgl w)) y end.
Definition completed (x : side) : side :=
  match p_dq (s_port x) with
  | [] => x
  | w :: l => with_port (set_cq (p_cq (s_port x) ++ [mkRsWc (s_wr_id (as_wr w)) true None]) (set_dq l (s_port x))) x
  end.

Lemma poll_step x y : is_ok (rs_poll_cq port_dev 4 (s_t x)) = true -> side_step x y (after_poll x) y.
Proof.
  intros Hok. eapply (step_poll _ _ 4), (ok_pair (s_t x, 0) (rs_poll_cq port_dev 4 (s_t x)) _ Hok). reflexivity.
Qed.

Lemma carry_step x y : (if after_arrival x y then true else false) = true ->
  side_step x y (carried x) (default y (after_arrival x y)).
Proof.
  unfold after_arrival, carried. intros Hok. destruct (p_sq (s_port x)) as [|w l] eqn:E; [discriminate Hok|].
  destruct (arrive w (gather (s_mem x) (as_sgl w)) y) eqn:E2; [|discriminate Hok]. by apply step_deliver.
Qed.

Lemma complete_step x y : side_step x y (completed x) y \/ completed x = x.
Proof. unfold completed. destruct (p_dq (s_port x)) eqn:E; [by right|left]. by apply step_complete. Qed.

(** *** A transfer of three bytes from the left side to the right one *)

Definition hello : list Z := [104; 105; 10].
Definition x1 : side := mkSide (send_chunk port_dev hello (s_t demo)).1 (s_sent demo ++ hello) (s_got demo).
Definition x2 : side := carried x1.
Definition y2 : side := default demo (after_arrival x1 demo).
Definition y3 : side := after_poll y2.
Definition rv : rst port * Z := ok_or (s_t y3, 0) (recv_loop 4 0 16 (s_t y3)).
Definition y4 : side := mkSide rv.1 (s_sent y3) (s_got y3 ++ read_bytes (t_mem rv.1) 0 (16 - rv.2)).

Lemma low_buffer : app_buffer (s_cf y3) 0 16.
Proof.
  assert (E1 : sbuf (s_cf y3) = 1048576) by (vm_compute; reflexivity).
  assert (E2 : rbuf (s_cf y3) = 3145728) by (vm_compute; reflexivity).
  assert (E3 : target_sgl (s_cf y3) = 2097152) by (vm_compute; reflexivity).
  intros a Ha Hl. unfold in_lib in Hl. rewrite E1, E2, E3 in Hl. lia.
Qed.

Lemma demo_sent : world_step (demo, demo) (x1, demo).
Proof.
  apply step_left, (step_send demo demo hello 2048 3 2048 (send_chunk port_dev hello (s_t demo)).1
    (send_chunk port_dev hello (s_t demo)).2); [vm_compute; reflexivity|done|vm_compute; reflexivity|by vm_compute
    |vm_compute; reflexivity|apply surjective_pairing].
Qed.

Lemma demo_arrived : rtc world_step (demo, demo) (x2, y2).
Proof.
  eapply rtc_l; [apply demo_sent|]. apply rtc_once, step_left, carry_step. vm_compute. reflexivity.
Qed.

Lemma demo_polled : rtc world_step (demo, demo) (x2, y3).
Proof. eapply rtc_r; [apply demo_arrived|]. apply step_right, poll_step. vm_compute. reflexivity. Qed.

Lemma demo_run : rtc world_step (demo, demo) (x2, y4).
Proof.
  eapply rtc_r; [apply demo_polled|]. eapply step_right, (step_recv y3 x2 4 0 16 rv.1 rv.2); [lia|apply low_buffer|].
  apply ok_pair; vm_compute; reflexivity.
Qed.

(** ** Integrity *)

(** C5: in every state of a connection, what each application got from [rrecv] is a
    prefix of what its peer gave to [rsend]: no byte is lost, changed, repeated or
    reordered, in both directions and for every interleaving of the two ends with the
    wire. *)
Theorem stream_integrity x y : connected x y ->
  s_got y `prefix_of` s_sent x /\ s_got x `prefix_of` s_sent y.
Proof. intros Hi%connected_inv. split; [by apply inv_prefix|]. by apply inv_prefix, inv_sym. Qed.

Lemma stream_integrity_witness : s_got y4 = hello /\ s_got y4 `prefix_of` s_sent x2.
Proof.
  split; [vm_compute; reflexivity|]. apply (stream_integrity x2 y4). apply demo_connected, demo_run.
Defined.

(** ** Memory and queues *)

Lemma inv_depth x y : inv x y -> p_used (s_port x) <= p_depth (s_port x).
Proof.
  intros (vx & vy & [Hcx _] & _ & Hox & _). rewrite (own_used _ _ Hcx _ _ _ _ _ _ Hox), items_count.
  destruct Hox. destruct o_ctrl as (cn & oc & Hoc & -> & _). rewrite o_depth.
  assert (zlen (seqZ (cn - oc + 1) oc) = oc) as -> by (unfold zlen; rewrite length_seqZ; lia). lia.
Qed.

(** C11: in every state of a connection, whose ends have receive buffers of an even size
    and queues of the sizes [rs_set_qp_size] gives, every request that waits in the send
    queue of one end writes only into the receive buffer or into the list for credits of
    the other end, with the key of that registration; and the requests under way, those
    whose completion was not polled included, never exceed the entries of the send queue,
    although the queue pair would take any number. *)
Theorem requests_stay_inside x y : connected x y ->
  (forall w, w ∈ p_sq (s_port x) -> inside (s_cf y) w) /\ p_used (s_port x) <= p_depth (s_port x).
Proof. intros Hi%connected_inv. split; [intros w; by eapply inv_inside|by eapply inv_depth]. Qed.

Definition w1 : app_send_wr := default (rs_wr 0 [] 0 0 0 0 0) (head (p_sq (s_port x1))).

Lemma requests_stay_inside_witness : wr_bytes w1 = 3 /\ inside (s_cf demo) w1.
Proof.
  assert (E : p_sq (s_port x1) = [w1]) by (vm_compute; reflexivity).
  split; [vm_compute; reflexivity|]. apply (requests_stay_inside x1 demo).
  - apply demo_connected, rtc_once, demo_sent.
  - rewrite E. by apply list_elem_of_singleton.
Defined.

(** ** Completions *)

(** handling the completions of an end comes to its end after at most as many rounds
    as there are completions, without an array access out of range, and leaves a
    connection. *)
Theorem poll_returns x y fuel : connected x y -> (length (p_cq (s_port x)) < fuel)%nat ->
  exists t', rs_poll_cq port_dev fuel (s_t x) = Ok (t', 0) /\ connected (with_t t' x) y.
Proof.
  intros Hc Hf. destruct (inv_poll fuel x y 0 (connected_inv _ _ Hc)) as [(t' & E & _)|[_ Hn]]; [|lia].
  exists t'. split; [done|]. destruct Hc as (net & a & b & x0 & y0 & Ha & Hb & Ho & Hr).
  exists net, a, b, x0, y0. repeat (split; [done|]). eapply rtc_r; [done|]. by apply step_left, step_poll with fuel 0.
Qed.

Lemma poll_returns_witness : length (p_cq (s_port y2)) = 1%nat /\
  exists t', rs_poll_cq port_dev 2 (s_t y2) = Ok (t', 0) /\ connected (with_t t' y2) x2.
Proof.
  assert (E : length (p_cq (s_port y2)) = 1%nat) by (vm_compute; reflexivity). split; [exact E|].
  apply (poll_returns y2 x2 2); [|rewrite E; lia]. apply connected_sym, demo_connected, demo_arrived.
Defined.

(** ** Calls *)

Lemma demo_inv : inv demo demo.
Proof. apply connected_inv, demo_connected, rtc_refl. Qed.

(** C17: a call of [rsend] that must not block returns, when the fuel exceeds the
    completions that wait and covers the bytes of the buffer; if nothing arrives while it
    runs, it returns the number of bytes it took, which are the first of the buffer and
    are appended to the stream, or -1 when it took none, and what it leaves is a connection
    again. *)
Theorem rsend_returns fuel pt junk flags x y bytes : inv x y -> Z.of_nat (length bytes) < 2 ^ 32 ->
  has flags MSG_DONTWAIT = true -> (cqn (s_t x) < fuel)%nat -> (length bytes <= fuel)%nat ->
  exists t' ret, rs_sendb port_dev fuel pt junk flags bytes (s_t x) = Ok (t', ret) /\
    exists k, (k <= length bytes)%nat /\ inv (mkSide t' (s_sent x ++ take k bytes) (s_got x)) y /\
      (ret = Z.of_nat k \/ k = 0%nat /\ ret = -1).
Proof.
  intros Hi Hl Hf Hq Hn.
  destruct (sendb_returns fuel pt flags junk x y bytes Hi Hl Hf Hq Hn) as (t' & ret & E).
  exists t', ret. split; [exact E|]. by eapply sendb_spec.
Qed.

Lemma rsend_returns_witness : exists t' ret, rs_sendb port_dev 8 0 0 MSG_DONTWAIT hello (s_t demo) = Ok (t', ret) /\
  exists k, (k <= 3)%nat /\ inv (mkSide t' (s_sent demo ++ take k hello) (s_got demo)) demo /\
    (ret = Z.of_nat k \/ k = 0%nat /\ ret = -1).
Proof.
  apply (rsend_returns 8 0 0 MSG_DONTWAIT demo demo hello demo_inv); [reflexivity|reflexivity|vm_compute; lia|simpl; lia].
Defined.

(** C16: a call of [rrecv] that must not block, without [MSG_PEEK] and into memory of the
    application, returns, when the fuel exceeds the completions that wait and the bytes
    that are asked for; if nothing arrives while it runs, it returns the number of bytes it
    put into the buffer, which are the next bytes of the peer's stream, or -1 when there
    were none, and what it leaves is a connection again. *)
Theorem rrecv_contract fuel pt flags x y buf len : inv x y -> has flags MSG_DONTWAIT = true -> has flags MSG_PEEK = false ->
  0 <= len < 2 ^ 32 -> app_buffer (s_cf x) buf len -> (cqn (s_t x) < fuel)%nat -> (Z.to_nat len < fuel)%nat ->
  exists t' ret, rs_recvb port_dev fuel pt buf len flags (s_t x) = Ok (t', ret) /\
    exists n, 0 <= n <= len /\ inv (mkSide t' (s_sent x) (s_got x ++ read_bytes (t_mem t') buf n)) y /\
      s_got x ++ read_bytes (t_mem t') buf n `prefix_of` s_sent y /\ (ret = n \/ n = 0 /\ ret = -1).
Proof.
  intros Hi Hf Hp Hl Hb Hq Hn. destruct (recvb_returns fuel pt flags x y buf len Hi Hf Hp Hl Hb Hq Hn) as (t' & ret & E).
  exists t', ret. split; [exact E|]. destruct (recvb_spec _ _ _ _ _ _ _ _ _ Hi Hp Hl Hb E) as (n & Hk & Hi' & Hr).
  exists n. repeat split; try lia; try done. apply (inv_prefix _ _ (inv_sym _ _ Hi')).
Qed.

Definition got_hello := rs_recvb port_dev 17 0 0 16 MSG_DONTWAIT (s_t y3).

Lemma rrecv_contract_witness : exists t', got_hello = Ok (t', 3) /\
  exists n, s_got y3 ++ read_bytes (t_mem t') 0 n `prefix_of` s_sent x2 /\ (3 = n \/ n = 0 /\ 3 = -1).
Proof.
  destruct (rrecv_contract 17 0 MSG_DONTWAIT y3 x2 0 16) as (t' & ret & E & n & _ & _ & Hp & Hr);
    [apply inv_sym, connected_inv, demo_connected, demo_polled|reflexivity|reflexivity|lia|exact low_buffer|vm_compute; lia|vm_compute; lia|].
  assert (Er : match got_hello with Ok (_, r) => r | _ => 0 end = 3) by (vm_compute; reflexivity).
  unfold got_hello in *. rewrite E in Er |- *. subst ret. by exists t'; split; [|exists n].
Defined.

(** C35: with [MSG_PEEK] the same bytes are copied to the same place as without it, and the
    same number is left over, on every socket; only the socket is not changed. *)
Theorem peek_is_recv fuel buf len (t : rst port) :
  rs_peek fuel buf len t = ('(t', rem) ← recv_loop fuel buf len t; Ok (with_mem (t_mem t') t, len - rem)).
Proof.
  unfold rs_peek. rewrite (peek_recv fuel t t) by done. by destruct (recv_loop fuel buf len t) as [[t' rem]| | |].
Qed.

(** ** Progress *)

(** C10: a connection does not lock up.  When nothing is in the queues, the receiver has
    taken all the bytes and owes no credits, the sender has room in its queue, in its
    buffer and at the peer, and a credit for the next message. *)
Theorem drained_can_send x y : connected x y -> quiet (s_port x) -> quiet (s_port y) -> s_got y = s_sent x ->
  has (rs_state (rs_c (t_rs (s_t y)))) rs_connected = true -> rs_give_credits (s_t y) = false ->
  rs_can_send (s_t x) = true.
Proof. intros Hi%connected_inv. by apply inv_drained. Qed.

(** The right side grants its second half, and everything is carried and polled. *)
Definition g1 : side := with_t (rs_update_credits port_dev (s_t demo)) demo.
Definition g2 : side := after_poll (completed (carried g1)).
Definition h2 : side := after_poll (default demo (after_arrival g1 demo)).

Lemma demo_granted : rtc world_step (demo, demo) (h2, g2).
Proof.
  eapply rtc_l; [apply step_right, step_credits|]. fold g1.
  eapply rtc_l; [apply step_right, carry_step; vm_compute; reflexivity|].
  eapply rtc_l; [apply step_left, poll_step; vm_compute; reflexivity|]. fold h2.
  destruct (complete_step (carried g1) h2) as [Hs|E].
  - eapply rtc_l; [by apply step_right|]. apply rtc_once, step_right, poll_step. vm_compute. reflexivity.
  - apply rtc_once. unfold g2. rewrite E. apply step_right, poll_step. vm_compute. reflexivity.
Qed.

Lemma drained_can_send_witness : rs_can_send (s_t h2) = true.
Proof.
  apply (drained_can_send h2 g2).
  - apply demo_connected, demo_granted.
  - vm_compute. repeat split.
  - vm_compute. repeat split.
  - vm_compute. reflexivity.
  - vm_compute. reflexivity.
  - vm_compute. reflexivity.
Defined.
