(* ===== verification/RsConnect.v ===== *)
(** * Stream sockets: connecting and accepting (rsocket.c)

    [rs_do_connect] is a state machine: each call goes on from the state in which the
    last one stopped because the connection manager had to wait.  [raccept] makes the
    socket of the other end.  The connection manager of librdmacm is a record of
    operations; where its calls wait they fail with [EAGAIN]. *)

From S2P Require Import Prelude CLayout Wire CmdCtrl Verbs CmTypes CmRoute RsTypes RsPost RsStream RsWorld RsInv RsRing.
From S2P Require Import RsBytes RsRoom RsOpen.

Definition EINVAL : Z := 22.
Definition ETIMEDOUT : Z := 110.
Definition EINPROGRESS : Z := 115.

(** The calls on the identifier of a socket: the new state, the result and, when it is
    not 0, the error; [m_setfl] sets the flags of the channel's descriptor. *)
Record rs_cm (C : Type) : Type := mkRsCm {
  m_resolve_addr : C -> Z -> C * Z * Z;
  m_complete : C -> C * Z * Z;
  m_set_path : C -> C * Z * Z;
  m_resolve_route : C -> Z -> C * Z * Z;
  m_connect : C -> rs_conn_data -> Z -> C * Z * Z;
  m_accept : C -> rs_conn_data -> C * Z * Z;
  m_setfl : C -> Z -> C;
  m_private : C -> rs_conn_data }.
Arguments m_resolve_addr {C}.
Arguments m_complete {C}.
Arguments m_set_path {C}.
Arguments m_resolve_route {C}.
Arguments m_connect {C}.
Arguments m_accept {C}.
Arguments m_setfl {C}.
Arguments m_private {C}.

Section Connect.
Context {D C : Type} (dv : rs_dev D) (e : ep_env D) (cm : rs_cm C) (net : bool).

(** A thread in [rconnect]; [j_optval]: a path was set with [rsetsockopt]. *)
Record joiner : Type := mkJ { j_t : rst D; j_cm : C; j_optval : bool }.

Abbreviation jctl j := (rs_c (t_rs (j_t j))).

Definition on_t (f : rst D -> rst D) (j : joiner) : joiner := mkJ (f (j_t j)) (j_cm j) (j_optval j).
Definition j_state (s : Z) (j : joiner) : joiner := on_t (upd_c (set_state s)) j.
Definition j_retries (n : Z) (j : joiner) : joiner := on_t (upd_c (set_retries n)) j.

(** A call of the connection manager. *)
Definition cm_call (r : C * Z * Z) (j : joiner) : joiner * Z :=
  let '(c, ret, er) := r in
  (mkJ (if ret =? 0 then j_t j else with_errno er (j_t j)) c (j_optval j), ret).

Definition again (j : joiner) : bool := (t_errno (j_t j) =? EAGAIN) || (t_errno (j_t j) =? EWOULDBLOCK).
Definition wait_in (s : Z) (j : joiner) : joiner := if again j then j_state s j else j.
Definition retry (j : joiner) : bool := (t_errno (j_t j) =? ETIMEDOUT) && (retries (jctl j) <=? RS_CONN_RETRIES).

(** [to = 1000 << rs->retries++] *)
Definition timeout (j : joiner) : Z := Z.shiftl 1000 (retries (jctl j)).
Definition more (j : joiner) : joiner := j_retries (retries (jctl j) + 1) j.

Definition at_connected (j : joiner) : joiner * Z :=
  let cresp := m_private cm (j_cm j) in
  if negb (cd_version cresp =? 1) then (on_t (with_errno ENOTSUP) j, -1)
  else (j_state rs_connect_rdwr (on_t (rs_save_conn_data net cresp) j), 0).

Definition at_do_connect (j : joiner) : res (joiner * Z) :=
  '(t, ret) ← rs_create_ep dv e (j_t j);
  let j := mkJ t (j_cm j) (j_optval j) in
  if negb (ret =? 0) then Ok (j, ret) else
  let creq := rs_format_conn_data net t in
  let depth := if msg_send t then 1 else 0 in
  let j := j_retries 0 j in
  let '(j, ret) := cm_call (m_connect cm (j_cm j) creq depth) j in
  Ok (if ret =? 0 then at_connected j else (wait_in rs_connecting j, ret)).

(** The labels [resolve_route] and [resolving_route]. *)
Fixpoint at_resolve_route (n : nat) (j : joiner) : res (joiner * Z) :=
  match n with
  | O => Spin
  | S n' =>
      let to := timeout j in
      let j := more j in
      if j_optval j then
        let '(j, ret) := cm_call (m_set_path cm (j_cm j)) j in
        let j := mkJ (j_t j) (j_cm j) false in
        if ret =? 0 then
          let j := j_state rs_resolving_route j in
          let '(j, ret) := cm_call (m_complete cm (j_cm j)) j in
          if ret =? 0 then at_do_connect j
          else if retry j then at_resolve_route n' j else Ok (j, ret)
        else Ok (wait_in rs_resolving_route j, ret)
      else
        let '(j, ret) := cm_call (m_resolve_route cm (j_cm j) to) j in
        if ret =? 0 then at_do_connect j else Ok (wait_in rs_resolving_route j, ret)
  end.

Definition at_resolving_route (n : nat) (j : joiner) : res (joiner * Z) :=
  let '(j, ret) := cm_call (m_complete cm (j_cm j)) j in
  if ret =? 0 then at_do_connect j
  else if retry j then at_resolve_route n j else Ok (j, ret).

Definition at_resolve_addr (n : nat) (j : joiner) : res (joiner * Z) :=
  let to := timeout j in
  let j := more j in
  let '(j, ret) := cm_call (m_resolve_addr cm (j_cm j) to) j in
  if ret =? 0 then at_resolve_route n j else Ok (wait_in rs_resolving_addr j, ret).

Definition at_resolving_addr (n : nat) (j : joiner) : res (joiner * Z) :=
  let '(j, ret) := cm_call (m_complete cm (j_cm j)) j in
  if ret =? 0 then at_resolve_route n (j_retries 0 j)
  else if retry j then at_resolve_addr n j else Ok (j, ret).

Definition at_connecting (j : joiner) : joiner * Z :=
  let '(j, ret) := cm_call (m_complete cm (j_cm j)) j in
  if ret =? 0 then at_connected j else (j, ret).

Definition at_accepting (j : joiner) : joiner * Z :=
  let j := if has (fd_flags (rs_cf (t_rs (j_t j)))) O_NONBLOCK then j else mkJ (j_t j) (m_setfl cm (j_cm j) 0) (j_optval j) in
  let '(j, ret) := cm_call (m_complete cm (j_cm j)) j in
  if ret =? 0 then (j_state rs_connect_rdwr j, 0) else (j, ret).

(** The end of the function. *)
Definition connect_end (r : joiner * Z) : joiner * Z :=
  let '(j, ret) := r in
  if ret =? 0 then r
  else if again j then (on_t (with_errno EINPROGRESS) j, ret)
  else (on_t (upd_c (fun c => set_err (t_errno (j_t j)) (set_state rs_connect_error c))) j, ret).

Definition rs_do_connect (n : nat) (j : joiner) : res (joiner * Z) :=
  let s := rs_state (jctl j) in
  r ← (if (s =? rs_init) || (s =? rs_bound) then at_resolve_addr n j
       else if s =? rs_resolving_addr then at_resolving_addr n j
       else if s =? rs_resolving_route then at_resolving_route n j
       else if s =? rs_connecting then Ok (at_connecting j)
       else if s =? rs_accepting then Ok (at_accepting j)
       else Ok (on_t (with_errno EINVAL) j, -1));
  Ok (connect_end r).

(** ** Accepting *)

(** [raccept] behind [rdma_get_request] and [rs_insert]: the new socket, or the error
    for which it is freed.  [lst]: the listener. *)
Definition raccept (d : rs_defs) (lst : rsocket) (c : C) (m : mem) (p : D) (er : Z) : res (joiner * Z) :=
  let j := mkJ (mkRst (rs_alloc d (Some lst)) m p er) c false in
  let creq := m_private cm c in
  if negb (cd_version creq =? 1) then Ok (on_t (with_errno ENOTSUP) j, -1) else
  let c := if has (fd_flags (rs_cf lst)) O_NONBLOCK then m_setfl cm c O_NONBLOCK else c in
  '(t, ret) ← rs_create_ep dv e (j_t j);
  let j := mkJ t c false in
  if negb (ret =? 0) then Ok (j, ret) else
  let j := on_t (rs_save_conn_data net creq) j in
  let cresp := rs_format_conn_data net (j_t j) in
  let '(j, ret) := cm_call (m_accept cm (j_cm j) cresp) j in
  if ret =? 0 then Ok (j_state rs_connect_rdwr j, 0)
  else if again j then Ok (j_state rs_accepting j, 0)
  else Ok (j, ret).

End Connect.
Arguments mkJ {D C}.
Arguments j_t {D C}.
Arguments j_cm {D C}.
Arguments j_optval {D C}.

(** ** How an attempt ends *)

(** The calls of the connection manager that a later call may have to complete. *)
Inductive cm_op : Type := ResolveAddr | SetPath | ResolveRoute | Connect | Complete.

(** [last c]: the last of these calls. *)
Record tracks {C} (cm : rs_cm C) (last : C -> cm_op) : Prop := {
  tr_addr : forall c to, last (m_resolve_addr cm c to).1.1 = ResolveAddr;
  tr_path : forall c, last (m_set_path cm c).1.1 = SetPath;
  tr_route : forall c to, last (m_resolve_route cm c to).1.1 = ResolveRoute;
  tr_connect : forall c creq d, last (m_connect cm c creq d).1.1 = Connect;
  tr_complete : forall c, last (m_complete cm c).1.1 = Complete }.

(** The state [s] in which a socket, whose attempt began in [s0], waits for the call
    [op]: the one from which the next attempt goes on with it. *)
Definition waits (s0 : Z) (op : cm_op) (s : Z) : Prop :=
  match op with
  | ResolveAddr => s = rs_resolving_addr
  | SetPath | ResolveRoute => s = rs_resolving_route
  | Connect => s = rs_connecting
  | Complete => s = rs_resolving_route \/
      s = s0 /\ (s0 = rs_resolving_addr \/ s0 = rs_connecting \/ s0 = rs_accepting)
  end.

Section Outcome.
Context {D C : Type} (dv : rs_dev D) (e : ep_env D) (cm : rs_cm C) (net : bool) (last : C -> cm_op).
Hypothesis Htarget : forall len, e_target_mr e len <> None.
Hypothesis Hlast : tracks cm last.

Abbreviation jctl j := (rs_c (t_rs (j_t j))).

(** The call ended where the queue pair could not be made. *)
Definition no_endpoint (t : rst D) : Prop := exists t0 ret, rs_create_ep dv e t0 = Ok (t, ret) /\ ret <> 0.

(** What a label gives to [connect_end]: 0 in the state of a connection, or an error; if
    it tells to come again, the socket is in the state that waits for the last call. *)
Definition attempt (s0 : Z) (r : res (joiner (D := D) (C := C) * Z)) : Prop :=
  exists j ret, r = Ok (j, ret) /\ (ret = 0 -> rs_state (jctl j) = rs_connect_rdwr) /\
    (ret <> 0 -> again j = true ->
       waits s0 (last (j_cm j)) (rs_state (jctl j)) \/ no_endpoint (j_t j)).

Lemma create_ep_returns t : exists t' ret, rs_create_ep dv e t = Ok (t', ret).
Proof.
  unfold rs_create_ep. set (t1 := if e_iwarp e then _ else _). destruct (negb (rs_create_cq e t1 =? 0)); [by eexists _, _|].
  destruct (e_create_qp e (rs_cf (t_rs t1))) as [d ret]. destruct (negb (ret =? 0)); [by eexists _, _|].
  destruct (msg_send (with_dev d t1) && (0 <? RS_MSG_SIZE)); [by eexists _, _|].
  assert (Hb : exists t2 r2, rs_init_bufs e (with_dev d t1) = Ok (t2, r2)).
  { unfold rs_init_bufs. destruct (negb (e_calloc e _)); [by eexists _, _|]. destruct (e_smr e _); [|by eexists _, _].
    match goal with |- context [e_target_mr e ?l] => pose proof (Htarget l) end.
    destruct (e_target_mr e _); [|done]. destruct (e_rmr e _); by eexists _, _. }
  destruct Hb as (t2 & r2 & E). rewrite E. cbn [mbind res_bind]. destruct (negb (r2 =? 0)); [by eexists _, _|].
  eexists _, _. f_equal. apply surjective_pairing.
Qed.

(** A call keeps the socket, but for [errno], and is the last one. *)
Lemma cm_call_last r (j : joiner (D := D) (C := C)) : let '(j', ret) := cm_call r j in
  jctl j' = jctl j /\ j_cm j' = r.1.1 /\ j_optval j' = j_optval j /\ ret = r.1.2.
Proof. destruct r as [[c ret] er]. simpl. by destruct (ret =? 0). Qed.

Lemma wait_in_state s (j : joiner (D := D) (C := C)) : again j = true -> rs_state (jctl (wait_in s j)) = s /\ j_cm (wait_in s j) = j_cm j.
Proof. unfold wait_in. by intros ->. Qed.

(** A label that ends where [wait_in] is in the state of the call it waits for. *)
Lemma wait_attempt s0 s (j : joiner) ret : ret <> 0 -> waits s0 (last (j_cm j)) s -> attempt s0 (Ok (wait_in s j, ret)).
Proof.
  intros Hr Hw. eexists _, _. split; [done|]. split; [done|]. intros _ Ha.
  assert (again j = true) as Hj by (unfold wait_in in Ha; destruct (again j) eqn:E; [done|by rewrite E in Ha]).
  destruct (wait_in_state s j Hj) as [-> ->]. by left.
Qed.

Lemma stay_attempt s0 (j : joiner) ret : ret <> 0 -> waits s0 (last (j_cm j)) (rs_state (jctl j)) -> attempt s0 (Ok (j, ret)).
Proof. intros Hr Hw. eexists _, _. split; [done|]. split; [done|]. intros _ _. by left. Qed.

Lemma connected_attempt s0 j : attempt s0 (Ok (at_connected cm net j)).
Proof. unfold at_connected. destruct (negb (_ =? 1)); by eexists _, _. Qed.

Lemma do_connect_attempt s0 j : attempt s0 (at_do_connect dv e cm net j).
Proof.
  unfold at_do_connect. destruct (create_ep_returns (j_t j)) as (t & ret & E). rewrite E. cbn [mbind res_bind].
  destruct (ret =? 0) eqn:Er; cbn [negb].
  - set (j1 := j_retries 0 _). pose proof (cm_call_last (m_connect cm (j_cm j1) (rs_format_conn_data net t) (if msg_send t then 1 else 0)) j1) as Hc.
    destruct (cm_call _ j1) as [j2 r2]. destruct Hc as (_ & Hc & _ & _). destruct (Z.eqb_spec r2 0).
    + apply connected_attempt.
    + apply wait_attempt; [done|]. rewrite Hc. by rewrite (tr_connect _ _ Hlast).
  - apply Z.eqb_neq in Er. eexists _, _. split; [done|]. split; [done|]. intros _ _. right. by eexists _, _.
Qed.

(** A second round has no path to set, and does not come back to the label. *)
Lemma route_attempt s0 n j : (j_optval j = true -> (2 <= n)%nat) -> (1 <= n)%nat -> attempt s0 (at_resolve_route dv e cm net n j).
Proof.
  revert j. induction n as [|n IH]; intros j H2 H1; [lia|]. simpl.
  destruct (j_optval j) eqn:Eo.
  - pose proof (cm_call_last (m_set_path cm (j_cm j)) (more j)) as H.
    destruct (cm_call (m_set_path cm (j_cm j)) (more j)) as [j1 r1]. destruct H as (_ & Hc & _ & _). destruct (Z.eqb_spec r1 0).
    + set (jw := j_state rs_resolving_route _). pose proof (cm_call_last (m_complete cm (j_cm j1)) jw) as H.
      destruct (cm_call (m_complete cm (j_cm j1)) jw) as [j2 r2]. destruct H as (Hs & Hc2 & Ho & _).
      destruct (Z.eqb_spec r2 0); [apply do_connect_attempt|]. destruct (retry j2).
      * specialize (H2 eq_refl). apply IH; [by rewrite Ho|lia].
      * apply stay_attempt; [done|]. rewrite Hc2, Hs, (tr_complete _ _ Hlast). by left.
    + apply wait_attempt; [done|]. cbn [j_cm]. by rewrite Hc, (tr_path _ _ Hlast).
  - pose proof (cm_call_last (m_resolve_route cm (j_cm j) (timeout j)) (more j)) as H.
    destruct (cm_call _ (more j)) as [j1 r1]. destruct H as (_ & Hc & _ & _).
    destruct (Z.eqb_spec r1 0); [apply do_connect_attempt|].
    apply wait_attempt; [done|]. by rewrite Hc, (tr_route _ _ Hlast).
Qed.

Lemma addr_attempt s0 j : attempt s0 (at_resolve_addr dv e cm net 2 j).
Proof.
  unfold at_resolve_addr. pose proof (cm_call_last (m_resolve_addr cm (j_cm (more j)) (timeout j)) (more j)) as H.
  destruct (cm_call _ (more j)) as [j1 r1]. destruct H as (_ & Hc & _ & _). destruct (Z.eqb_spec r1 0).
  - by apply route_attempt; lia.
  - apply wait_attempt; [done|]. by rewrite Hc, (tr_addr _ _ Hlast).
Qed.

(** Where [ucma_complete] tells to come again the socket stays in its state. *)
Lemma complete_attempt (j : joiner) :
  let s0 := rs_state (jctl j) in
  s0 = rs_resolving_addr \/ s0 = rs_resolving_route \/ s0 = rs_connecting \/ s0 = rs_accepting ->
  let '(j1, r1) := cm_call (m_complete cm (j_cm j)) j in r1 <> 0 -> attempt s0 (Ok (j1, r1)).
Proof.
  intros s0 Hin. pose proof (cm_call_last (m_complete cm (j_cm j)) j) as H.
  destruct (cm_call _ j) as [j1 r1]. destruct H as (Hs & Hc & _ & _). intros Hr. apply stay_attempt; [done|].
  rewrite Hc, Hs, (tr_complete _ _ Hlast). simpl. fold s0. destruct Hin as [?|[?|[?|?]]]; auto.
Qed.

Lemma state_attempt (j : joiner) :
  attempt (rs_state (jctl j)) (let s := rs_state (jctl j) in
    if (s =? rs_init) || (s =? rs_bound) then at_resolve_addr dv e cm net 2 j
    else if s =? rs_resolving_addr then at_resolving_addr dv e cm net 2 j
    else if s =? rs_resolving_route then at_resolving_route dv e cm net 2 j
    else if s =? rs_connecting then Ok (at_connecting cm net j)
    else if s =? rs_accepting then Ok (at_accepting cm j)
    else Ok (on_t (with_errno EINVAL) j, -1)).
Proof.
  cbv zeta. destruct (_ || _); [apply addr_attempt|].
  unfold at_resolving_addr, at_resolving_route, at_connecting, at_accepting.
  destruct (Z.eqb_spec (rs_state (jctl j)) rs_resolving_addr) as [E|_].
  { pose proof (complete_attempt j) as H. destruct (cm_call _ j) as [j1 r1]. destruct (Z.eqb_spec r1 0).
    - apply route_attempt; lia.
    - destruct (retry j1); [apply addr_attempt|auto]. }
  destruct (Z.eqb_spec (rs_state (jctl j)) rs_resolving_route) as [E|_].
  { pose proof (complete_attempt j) as H. destruct (cm_call _ j) as [j1 r1]. destruct (Z.eqb_spec r1 0).
    - apply do_connect_attempt.
    - destruct (retry j1); [apply route_attempt; lia|auto]. }
  destruct (Z.eqb_spec (rs_state (jctl j)) rs_connecting) as [E|_].
  { pose proof (complete_attempt j) as H. destruct (cm_call _ j) as [j1 r1]. destruct (Z.eqb_spec r1 0); [apply connected_attempt|auto]. }
  destruct (Z.eqb_spec (rs_state (jctl j)) rs_accepting) as [E|_]; [|by eexists _, _].
  set (j0 := if has _ _ then j else _). assert (jctl j0 = jctl j) as Ej by (unfold j0; by destruct (has _ _)).
  pose proof (complete_attempt j0) as H. rewrite Ej in H.
  destruct (cm_call _ j0) as [j1 r1]. destruct (Z.eqb_spec r1 0); [by eexists _, _|auto].
Qed.

End Outcome.
