(* ===== verification/RsJoin.v ===== *)
(** * Connections made by [rconnect] and [raccept]

    How an attempt to connect ends, and that the sockets of the two calls are the ends of
    a connection, so that the theorems on streams are about what applications have. *)

From S2P Require Import Prelude CLayout Wire CmdCtrl Verbs CmTypes CmRoute RsTypes RsPost RsStream RsWorld RsInv RsRing.
From S2P Require Import RsBytes RsRoom RsWire RsOpen RsConn RsStreams RsConnect.

(** ** Attempts *)

(** C27: a call of [rs_do_connect] ends, in whatever state the socket is and however the
    connection manager answers, if the registration of the target buffer does not fail: it
    returns 0 with the socket connected; or an error with [EINPROGRESS] and the socket in
    the state from which the next call goes on with what the connection manager was last
    asked for, unless it was the queue pair that could not be made; or an error after
    which the socket is in the error state and keeps the error. *)
Theorem connect_attempt_outcome {D C} (dv : rs_dev D) (e : ep_env D) (cm : rs_cm C) net last (j : joiner) :
  (forall len, e_target_mr e len <> None) -> tracks cm last ->
  exists j' ret, rs_do_connect dv e cm net 2 j = Ok (j', ret) /\
    (ret = 0 /\ rs_state (rs_c (t_rs (j_t j'))) = rs_connect_rdwr \/
     ret <> 0 /\ t_errno (j_t j') = EINPROGRESS /\
       (waits (rs_state (rs_c (t_rs (j_t j)))) (last (j_cm j')) (rs_state (rs_c (t_rs (j_t j')))) \/
        exists t, no_endpoint dv e t /\ j_t j' = with_errno EINPROGRESS t) \/
     ret <> 0 /\ rs_state (rs_c (t_rs (j_t j'))) = rs_connect_error /\
       rs_err (rs_c (t_rs (j_t j'))) = t_errno (j_t j')).
Proof.
  intros Ht Hl. destruct (state_attempt dv e cm net last Ht Hl j) as (j1 & r1 & E & H0 & H1). unfold rs_do_connect.
  cbv zeta in E |- *. rewrite E. cbn [mbind res_bind]. unfold connect_end. destruct (Z.eqb_spec r1 0) as [->|Hr]; [by eexists _, _; auto|].
  destruct (again j1) eqn:Ha; eexists _, _; (split; [reflexivity|]); [|by auto].
  right; left. split_and!; [done|done|]. destruct (H1 Hr eq_refl) as [Hw|Hn]; [left; exact Hw|right; by eexists].
Qed.

Definition demo_conn : rs_conn_data := rs_format_conn_data false (opened demo_end).

(** A connection manager that keeps its last call, and always lets the caller come again. *)
Definition slow_cm : rs_cm cm_op :=
  mkRsCm _ (fun _ _ => (ResolveAddr, -1, EAGAIN)) (fun _ => (Complete, -1, EAGAIN)) (fun _ => (SetPath, -1, EAGAIN))
    (fun _ _ => (ResolveRoute, -1, EAGAIN)) (fun _ _ _ => (Connect, -1, EAGAIN)) (fun c _ => (c, -1, EAGAIN)) (fun c _ => c) (fun _ => demo_conn).

Lemma connect_attempt_outcome_witness : exists j',
  rs_do_connect port_dev (port_env demo_end) slow_cm false 2 (mkJ (unused demo_end 0) Complete false) = Ok (j', -1) /\
    t_errno (j_t j') = EINPROGRESS /\ rs_state (rs_c (t_rs (j_t j'))) = rs_resolving_addr.
Proof.
  destruct (connect_attempt_outcome port_dev (port_env demo_end) slow_cm false (fun c => c) (mkJ (unused demo_end 0) Complete false))
    as (j' & ret & E & _); [discriminate|done|]. exists j'. vm_compute in E. injection E as <- <-. by vm_compute.
Defined.

(** ** Both calls *)

(** The connection manager of [rconnect] succeeds at once, as it does on a socket that may
    block; [sent] is the private data it was given by [rdma_connect], after which it has
    the data [peer] that the other side answers with. *)
Record connects {C} (cm : rs_cm C) (c : C) (sent : C -> option rs_conn_data) (peer : rs_conn_data) : Prop := {
  q_addr : forall to, exists c1 er, m_resolve_addr cm c to = (c1, 0, er) /\
    forall to', exists c2 er, m_resolve_route cm c1 to' = (c2, 0, er) /\
      forall creq d, exists c3 er, m_connect cm c2 creq d = (c3, 0, er) /\ sent c3 = Some creq /\ m_private cm c3 = peer }.

(** That of [raccept] has the data of the request, and [sent] is what it answers with. *)
Record accepts {C} (cm : rs_cm C) (c : C) (sent : C -> option rs_conn_data) (peer : rs_conn_data) : Prop := {
  q_private : m_private cm c = peer;
  q_accept : forall cresp, exists c1 er, m_accept cm c cresp = (c1, 0, er) /\ sent c1 = Some cresp }.

Section Both.
Context (net : bool) (a b : endpoint).
Hypothesis Ha : fine a.
Hypothesis Hb : fine b.

Abbreviation data_a := (rs_format_conn_data net (opened a)).
Abbreviation data_b := (rs_format_conn_data net (opened b)).

Lemma do_connect_ok {C} (cm : rs_cm C) c k sent :
  (forall creq d, exists c3 er, m_connect cm c creq d = (c3, 0, er) /\ sent c3 = Some creq /\ m_private cm c3 = data_b) ->
  exists c', at_do_connect port_dev (port_env a) cm net (mkJ (unused a k) c false)
    = Ok (mkJ (s_t (joined net (opened a) (opened b))) c' false, 0) /\ sent c' = Some data_a.
Proof.
  intros Hq. unfold at_do_connect. cbn [j_t]. rewrite (create_ep_ok a Ha). cbn [mbind res_bind Z.eqb negb].
  match goal with |- context [m_connect cm ?x ?y ?z] => destruct (Hq y z) as (c3 & er & E & Hs & Hp) end.
  cbn [j_cm j_retries on_t]. rewrite E. exists c3. split; [|exact Hs].
  cbn [cm_call Z.eqb]. unfold at_connected. cbn [j_cm]. by rewrite Hp.
Qed.

Lemma connect_ok {C} (cm : rs_cm C) c sent : connects cm c sent data_b ->
  exists c', rs_do_connect port_dev (port_env a) cm net 2 (mkJ (mkRst (n_rs a) (n_mem a) (mkPort [] [] [] [] 0) 0) c false)
    = Ok (mkJ (s_t (joined net (opened a) (opened b))) c' false, 0) /\ sent c' = Some data_a.
Proof.
  intros [Hq]. rewrite (unused_eq a Ha). destruct (Hq (Z.shiftl 1000 0)) as (c1 & e1 & E1 & Hq1).
  destruct (Hq1 (Z.shiftl 1000 1)) as (c2 & e2 & E2 & Hq2). destruct (do_connect_ok cm c2 2 sent Hq2) as (c3 & E3 & Hs).
  exists c3. split; [|exact Hs].
  assert (Hr : at_resolve_addr port_dev (port_env a) cm net 2 (mkJ (unused a 0) c false)
    = Ok (mkJ (s_t (joined net (opened a) (opened b))) c3 false, 0)).
  { unfold at_resolve_addr. change (timeout _) with (Z.shiftl 1000 0). cbn [j_cm more j_retries on_t]. rewrite E1.
    cbn [cm_call Z.eqb at_resolve_route j_optval more j_retries on_t j_cm]. change (timeout _) with (Z.shiftl 1000 1).
    rewrite E2. cbn [cm_call Z.eqb]. exact E3. }
  unfold rs_do_connect. change (rs_state _) with rs_init. cbn [Z.eqb orb rs_init]. rewrite Hr. reflexivity.
Qed.

Lemma accept_ok {C} (cm : rs_cm C) c sent d lst : n_rs b = rs_alloc d (Some lst) ->
  has (fd_flags (rs_cf lst)) O_NONBLOCK = false -> accepts cm c sent data_a ->
  exists c', raccept port_dev (port_env b) cm net d lst c (n_mem b) (mkPort [] [] [] [] 0) 0
    = Ok (mkJ (s_t (joined net (opened b) (opened a))) c' false, 0) /\ sent c' = Some data_b.
Proof.
  intros Hrs Hf [Hp Hq]. unfold raccept. rewrite Hf, <- Hrs, (unused_eq b Hb), Hp. cbn [cd_version rs_format_conn_data Z.eqb negb j_t].
  rewrite (create_ep_ok b Hb). cbn [mbind res_bind Z.eqb negb].
  match goal with |- context [m_accept cm ?x ?y] => destruct (Hq y) as (c1 & er & E & Hs) end.
  cbn [j_cm on_t]. rewrite E. exists c1. split; [reflexivity|exact Hs].
Qed.

End Both.

(** C9: [rconnect] and [raccept], on a listener that may block, with a connection manager
    whose calls succeed at once and a device that does not fail, meet: when the request
    [raccept] finds is [req] and the answer [rdma_connect] ends with is [rep], then
    [rconnect] has sent just [req] and [raccept] has answered with just [rep], so that each
    call gets what the other one has formatted; both return 0, and the two sockets are the
    ends of a connection. *)
Theorem connect_meets_accept {C C'} (cm : rs_cm C) (cm' : rs_cm C') c c' sent sent' net a b d lst :
  fine a -> fine b -> n_rs b = rs_alloc d (Some lst) -> has (fd_flags (rs_cf lst)) O_NONBLOCK = false ->
  let req := rs_format_conn_data net (opened a) in
  let rep := rs_format_conn_data net (opened b) in
  connects cm c sent rep -> accepts cm' c' sent' req ->
  exists jx jy,
    rs_do_connect port_dev (port_env a) cm net 2 (mkJ (mkRst (n_rs a) (n_mem a) (mkPort [] [] [] [] 0) 0) c false) = Ok (jx, 0) /\
    raccept port_dev (port_env b) cm' net d lst c' (n_mem b) (mkPort [] [] [] [] 0) 0 = Ok (jy, 0) /\
    sent (j_cm jx) = Some req /\ sent' (j_cm jy) = Some rep /\
    connected (mkSide (j_t jx) [] []) (mkSide (j_t jy) [] []).
Proof.
  intros Ha Hb Hrs Hf req rep Hc Hac. destruct (connect_ok net a b Ha cm c sent Hc) as (c1 & E1 & S1).
  destruct (accept_ok net a b Hb cm' c' sent' d lst Hrs Hf Hac) as (c2 & E2 & S2).
  eexists _, _. split_and!; [exact E1|exact E2|exact S1|exact S2|].
  exists net, a, b, (joined net (opened a) (opened b)), (joined net (opened b) (opened a)).
  split; [done|]. split; [done|]. split; [|apply rtc_refl]. unfold open_pair. by rewrite !open_end_ok.
Qed.

Definition demo_listener : rsocket := rs_alloc builtin_defs None.
Definition demo_server : endpoint :=
  mkEnd (rs_alloc builtin_defs (Some demo_listener)) (fun _ => 0) 4096 (mkReg 1048576 7 8) (mkReg 2097152 9 10)
    (mkReg 3145728 11 12).

Lemma demo_server_fine : fine demo_server.
Proof.
  split; [|split; [split; vm_compute; intuition discriminate|by vm_compute]].
  exists builtin_defs, (Some demo_listener). split; [done|]. by intros p [= <-].
Qed.

(** A connection manager that keeps the private data it is given and has [peer]'s. *)
Definition carrying_cm (peer : rs_conn_data) : rs_cm (option rs_conn_data) :=
  mkRsCm _ (fun c _ => (c, 0, 0)) (fun c => (c, 0, 0)) (fun c => (c, 0, 0)) (fun c _ => (c, 0, 0))
    (fun _ creq _ => (Some creq, 0, 0)) (fun _ cresp => (Some cresp, 0, 0)) (fun c _ => c) (fun _ => peer).

Lemma connect_meets_accept_witness :
  let server_conn := rs_format_conn_data false (opened demo_server) in exists jx jy,
  rs_do_connect port_dev (port_env demo_end) (carrying_cm server_conn) false 2
    (mkJ (mkRst (n_rs demo_end) (n_mem demo_end) (mkPort [] [] [] [] 0) 0) None false) = Ok (jx, 0) /\
  raccept port_dev (port_env demo_server) (carrying_cm demo_conn) false builtin_defs demo_listener None
    (n_mem demo_server) (mkPort [] [] [] [] 0) 0 = Ok (jy, 0) /\
  j_cm jx = Some demo_conn /\ j_cm jy = Some server_conn /\
  connected (mkSide (j_t jx) [] []) (mkSide (j_t jy) [] []).
Proof.
  intros server_conn. apply (connect_meets_accept _ _ _ _ (fun c => c) (fun c => c));
    [apply demo_fine|apply demo_server_fine|reflexivity|reflexivity| |].
  - split. intros to. exists None, 0. split; [reflexivity|]. intros to'. exists None, 0. split; [reflexivity|].
    intros creq d. exists (Some creq), 0. split_and!; reflexivity.
  - split; [reflexivity|]. intros cresp. by exists (Some cresp), 0.
Defined.
