(* ===== verification/RsPoll.v ===== *)
(** * Stream sockets: waiting for events (rsocket.c)

    [rpoll] and [rselect] with the functions they use.  The sockets of the process are a
    finite map from descriptors; other descriptors, the clock and the descriptors of the
    channels belong to the system, whose operations are the record [poll_sys].  Every
    socket of the map is a stream. *)

From S2P Require Import Prelude CLayout Wire CmdCtrl Verbs CmTypes CmRoute RsTypes RsPost RsStream RsWorld.
From S2P Require Import RsOpen RsConnect.

Definition POLLIN : Z := 1.
Definition POLLOUT : Z := 4.
Definition POLLERR : Z := 8.
Definition POLLHUP : Z := 16.

Record pollfd : Type := mkPollfd { pf_fd : Z; pf_events : Z; pf_revents : Z }.
Definition set_revents (r : Z) (p : pollfd) : pollfd := mkPollfd (pf_fd p) (pf_events p) r.

(** [poll] on one descriptor without waiting and on many, with what it leaves in
    [revents]; the clock in microseconds; whether memory for the entries is there; and the
    descriptors of an identifier's channels. *)
Record poll_sys (C E : Type) : Type := mkPollSys {
  y_poll1 : E -> pollfd -> E * Z;
  y_poll : E -> list pollfd -> Z -> E * list Z * Z;
  y_clock : E -> E * Z;
  y_alloc : E -> nat -> bool;
  y_cm_fd : C -> Z;
  y_cq_fd : C -> Z }.
Arguments mkPollSys {C E}.
Arguments y_poll1 {C E}.
Arguments y_poll {C E}.
Arguments y_clock {C E}.
Arguments y_alloc {C E}.
Arguments y_cm_fd {C E}.
Arguments y_cq_fd {C E}.

Section Poll.
Context {D C E : Type} (dv : rs_dev D) (ep : ep_env D) (cm : rs_cm C) (net : bool) (sys : poll_sys C E).
Context (fuel : nat) (polling_time : Z).
Implicit Types t : rst D.
Implicit Types j : joiner (D := D) (C := C).

Abbreviation jctl j := (rs_c (t_rs (j_t j))).

Definition rs_poll_all t : bool := true.
Definition rs_is_cq_armed t : bool := cq_armed (rs_c (t_rs t)).

(** ** One socket *)

(** What a socket that is or was connected reports. *)
Definition stream_events (events : Z) t : Z :=
  let st := rs_state (rs_c (t_rs t)) in
  let r := if has events POLLIN && rs_conn_have_rdata t then POLLIN else 0 in
  let r := if has events POLLOUT && rs_can_send t then Z.lor r POLLOUT else r in
  if negb (has st rs_connected) then Z.lor r (if st =? rs_disconnected then POLLHUP else POLLERR) else r.

(** The end of the function, for a socket that is not connected. *)
Definition error_events (events : Z) j : Z :=
  if rs_state (jctl j) =? rs_connect_error then
    let r := if has events POLLOUT then POLLOUT else 0 in
    let r := if has events POLLIN then Z.lor r POLLIN else r in
    Z.lor r POLLERR
  else 0.

(** [n] rounds of [check_cq]. *)
Fixpoint poll_rs (n : nat) (events : Z) (nonblock : bool) (test : rst D -> bool) j (e : E) : res (joiner * E * Z) :=
  match n with
  | O => Spin
  | S n' =>
      let st := rs_state (jctl j) in
      if has st rs_connected || (st =? rs_disconnected) || has st rs_error then
        '(t, _) ← rs_process_cq dv fuel nonblock test (j_t j);
        Ok (mkJ t (j_cm j) (j_optval j), e, stream_events events t)
      else if st =? rs_listening then
        let '(e, r) := y_poll1 sys e (mkPollfd (y_cm_fd sys (j_cm j)) events 0) in
        Ok (j, e, r)
      else if has st rs_opening then
        '(j, ret) ← rs_do_connect dv ep cm net 2 j;
        if negb (ret =? 0) && (t_errno (j_t j) =? EINPROGRESS)
        then let j := on_t (with_errno 0) j in Ok (j, e, error_events events j)
        else poll_rs n' events nonblock test j e
      else Ok (j, e, error_events events j)
  end.

(** A socket leaves the states of opening in the first round, so that two are enough. *)
Definition rs_poll_rs (events : Z) (nonblock : bool) (test : rst D -> bool) j (e : E) : res (joiner * E * Z) :=
  poll_rs 2 events nonblock test j e.

(** ** Many descriptors *)

Record poll_w : Type := mkPollW { w_socks : gmap Z (joiner (D := D) (C := C)); w_env : E }.

(** [fds[i].revents = rs_poll_rs(...)] *)
Definition poll_sock (nonblock : bool) (test : rst D -> bool) (p : pollfd) j (w : poll_w) : res (poll_w * pollfd) :=
  '(j, e, r) ← rs_poll_rs (pf_events p) nonblock test j (w_env w);
  Ok (mkPollW (<[pf_fd p := j]> (w_socks w)) e, set_revents r p).

Definition counts (p : pollfd) : Z := if pf_revents p =? 0 then 0 else 1.

Fixpoint rs_poll_check (w : poll_w) (fds : list pollfd) : res (poll_w * list pollfd * Z) :=
  match fds with
  | [] => Ok (w, [], 0)
  | p :: l =>
      '(w, p) ← match w_socks w !! pf_fd p with
                | Some j => poll_sock true rs_poll_all p j w
                | None => let '(e, r) := y_poll1 sys (w_env w) p in Ok (mkPollW (w_socks w) e, set_revents r p)
                end;
      '(w, l, cnt) ← rs_poll_check w l;
      Ok (w, p :: l, counts p + cnt)
  end.

(** The entry of [rfds] for a socket. *)
Definition sock_fd (w : poll_w) (fd : Z) : Z :=
  match w_socks w !! fd with
  | Some j => if rs_connected <=? rs_state (jctl j) then y_cq_fd sys (j_cm j) else y_cm_fd sys (j_cm j)
  | None => fd
  end.

(** [fds], the entries of [rfds] that are filled, and the result. *)
Fixpoint rs_poll_arm (w : poll_w) (fds : list pollfd) : res (poll_w * list pollfd * list pollfd * Z) :=
  match fds with
  | [] => Ok (w, [], [], 0)
  | p :: l =>
      match w_socks w !! pf_fd p with
      | Some j =>
          '(w, p) ← poll_sock false rs_is_cq_armed p j w;
          if negb (pf_revents p =? 0) then Ok (w, p :: l, [], 1) else
          let rp := mkPollfd (sock_fd w (pf_fd p)) POLLIN 0 in
          '(w, l, rl, ret) ← rs_poll_arm w l; Ok (w, p :: l, rp :: rl, ret)
      | None =>
          let rp := mkPollfd (pf_fd p) (pf_events p) 0 in
          '(w, l, rl, ret) ← rs_poll_arm w l; Ok (w, p :: l, rp :: rl, ret)
      end
  end.

(** [revs]: the [revents] of [rfds] behind [poll]. *)
Fixpoint rs_poll_events (w : poll_w) (revs : list Z) (fds : list pollfd) {struct fds} : res (poll_w * list pollfd * Z) :=
  match fds, revs with
  | p :: l, r :: revs =>
      if r =? 0 then '(w, l, cnt) ← rs_poll_events w revs l; Ok (w, p :: l, cnt) else
      '(w, p) ← match w_socks w !! pf_fd p with
                | Some j =>
                    let t := (rs_get_cq_event dv (j_t j)).1 in
                    poll_sock true rs_poll_all p (mkJ t (j_cm j) (j_optval j)) w
                | None => Ok (w, set_revents r p)
                end;
      '(w, l, cnt) ← rs_poll_events w revs l;
      Ok (w, p :: l, counts p + cnt)
  | [], _ => Ok (w, [], 0)
  | _ :: _, [] => Ub
  end.

(** ** [rpoll] *)

(** Looking at everything until something is there or [polling_time] is over; [Some ret]
    ends the call. *)
Fixpoint check_loop (n : nat) (start : option Z) (timeout : Z) (w : poll_w) (fds : list pollfd)
  : res (poll_w * list pollfd * option Z) :=
  match n with
  | O => Spin
  | S n' =>
      '(w, fds, ret) ← rs_poll_check w fds;
      if negb (ret =? 0) || (timeout =? 0) then Ok (w, fds, Some ret) else
      let '(e, s) := match start with Some s => (w_env w, s) | None => y_clock sys (w_env w) end in
      let '(e, now) := y_clock sys e in
      let w := mkPollW (w_socks w) e in
      let poll_time := u32 (now - s + 1) in
      if poll_time <=? polling_time
      then check_loop n' (if poll_time =? 0 then None else Some s) timeout w fds
      else Ok (w, fds, None)
  end.

Fixpoint wait_loop (n : nat) (timeout : Z) (w : poll_w) (fds : list pollfd) : res (poll_w * list pollfd * Z) :=
  match n with
  | O => Spin
  | S n' =>
      '(w, fds, rfds, ret) ← rs_poll_arm w fds;
      if negb (ret =? 0) then Ok (w, fds, ret) else
      let '(e, revs, ret) := y_poll sys (w_env w) rfds timeout in
      let w := mkPollW (w_socks w) e in
      if ret <=? 0 then Ok (w, fds, ret) else
      '(w, fds, ret) ← rs_poll_events w revs fds;
      if ret =? 0 then wait_loop n' timeout w fds else Ok (w, fds, ret)
  end.

(** [errno] of a call that gets no memory is not part of the state of one socket. *)
Definition rpoll (n : nat) (timeout : Z) (w : poll_w) (fds : list pollfd) : res (poll_w * list pollfd * Z) :=
  '(w, fds, r) ← check_loop n None timeout w fds;
  match r with
  | Some ret => Ok (w, fds, ret)
  | None => if y_alloc sys (w_env w) (length fds) then wait_loop n timeout w fds else Ok (w, fds, -1)
  end.

End Poll.
Arguments mkPollW {D C E}.
Arguments w_socks {D C E}.
Arguments w_env {D C E}.

(** ** [rselect] *)

(** A set of descriptors that may be [NULL]. *)
Definition fd_set : Type := option (gset Z).
Definition FD_ISSET (fd : Z) (s : fd_set) : bool := match s with Some x => bool_decide (fd ∈ x) | None => false end.
Definition FD_SET (fd : Z) (s : fd_set) : fd_set := (fun x => {[fd]} ∪ x) <$> s.
Definition FD_ZERO (s : fd_set) : fd_set := (fun _ => ∅) <$> s.
Definition given (s : fd_set) : bool := match s with Some _ => true | None => false end.

Section Select.
Context (rd wr ex : fd_set).

(** One descriptor: [fds[i]] is [cur], the entries behind it are 0. *)
Definition select_fd (fd : Z) (st : list pollfd * pollfd) : list pollfd * pollfd :=
  let '(done, cur) := st in
  let cur := if FD_ISSET fd rd then mkPollfd fd POLLIN (pf_revents cur) else cur in
  let cur := if FD_ISSET fd wr then mkPollfd fd (Z.lor (pf_events cur) POLLOUT) (pf_revents cur) else cur in
  let cur := if FD_ISSET fd ex then mkPollfd fd (pf_events cur) (pf_revents cur) else cur in
  if negb (pf_fd cur =? 0) then (done ++ [cur], mkPollfd 0 0 0) else (done, cur).

Definition rs_select_to_poll (nfds : Z) : list pollfd :=
  (foldl (fun st fd => select_fd fd st) ([], mkPollfd 0 0 0) (seqZ 0 nfds)).1.
End Select.

Definition to_select (bits : Z) (p : pollfd) (s : fd_set) : fd_set * Z :=
  if given s && has (pf_revents p) bits then (FD_SET (pf_fd p) s, 1) else (s, 0).

Fixpoint rs_poll_to_select (fds : list pollfd) (rd wr ex : fd_set) : fd_set * fd_set * fd_set * Z :=
  match fds with
  | [] => (rd, wr, ex, 0)
  | p :: l =>
      let '(rd, a) := to_select (Z.lor POLLIN POLLHUP) p rd in
      let '(wr, b) := to_select POLLOUT p wr in
      let '(ex, c) := to_select (Z.lnot (Z.lor POLLIN POLLOUT)) p ex in
      let '(rd, wr, ex, cnt) := rs_poll_to_select l rd wr ex in
      (rd, wr, ex, a + b + c + cnt)
  end.

(** [struct timeval] in seconds and microseconds *)
Definition rs_convert_timeout (timeout : option (Z * Z)) : Z :=
  match timeout with None => -1 | Some (sec, usec) => s32 (sec * 1000 + Z.quot usec 1000) end.

(** The sets behind the call and its result; [mem]: the entries could be allocated. *)
Definition rselect {D C E} (dv : rs_dev D) ep (cm : rs_cm C) net (sys : poll_sys C E) fuel polling_time (n : nat) (mem : bool)
  (nfds : Z) (rd wr ex : fd_set) (timeout : option (Z * Z)) (w : poll_w) : res (poll_w * (fd_set * fd_set * fd_set) * Z) :=
  if negb mem then Ok (w, (rd, wr, ex), -1) else
  '(w, fds, ret) ← rpoll dv ep cm net sys fuel polling_time n (rs_convert_timeout timeout) w (rs_select_to_poll rd wr ex nfds);
  if 0 <? ret then
    let '(rd, wr, ex, ret) := rs_poll_to_select fds (FD_ZERO rd) (FD_ZERO wr) (FD_ZERO ex) in Ok (w, (rd, wr, ex), ret)
  else Ok (w, (FD_ZERO rd, FD_ZERO wr, FD_ZERO ex), ret).
