(* ===== verification/RsPolls.v ===== *)
(** * What [rpoll] and [rselect] promise

    A socket that is reported ready lets the next call go on without waiting; the result
    of [rpoll] is the number of descriptors it reports; [rselect] asks about the
    descriptors of its sets and answers with those that are ready. *)

From S2P Require Import Prelude CLayout Wire CmdCtrl Verbs CmTypes CmRoute RsTypes RsPost RsStream RsWorld RsInv RsRing.
From S2P Require Import RsBytes RsRoom RsOwn RsSend RsKept RsTaken RsWire RsOpen RsCalls RsConn RsStreams RsConnect RsPoll.

(** ** One socket *)

Lemma credits_armed t : cq_armed (rs_c (t_rs (rs_update_credits port_dev t))) = cq_armed (rs_c (t_rs t)).
Proof.
  unfold rs_update_credits. destruct (rs_give_credits t); [|done].
  assert (Hm : forall m t1, rs_c (t_rs (rs_post_msg port_dev m t1).1) = rs_c (t_rs t1)).
  { intros m t1. unfold rs_post_msg, post_send. by destruct (negb (msg_send t1)). }
  assert (Hw : forall sgl m f a k t1, rs_c (t_rs (rs_post_write_msg port_dev sgl m f a k t1).1) = rs_c (t_rs t1)).
  { intros sgl m f a k t1. unfold rs_post_write_msg, rs_post_write, post_send.
    by destruct (negb (msg_send t1)). }
  unfold rs_send_credits. destruct (_ <=? _).
  - cbn [upd_c upd_r upd t_rs set_c set_r rs_c set_remote_sge cq_armed]. rewrite Hw. cbn. by destruct (msg_send _).
  - rewrite Hm. done.
Qed.

Lemma stable_all y : stable y rs_poll_all.
Proof. done. Qed.

Lemma stable_armed y : stable y rs_is_cq_armed.
Proof. intros x Hi Ht. unfold rs_is_cq_armed in *. by rewrite credits_armed. Qed.

(** What a report says of the socket. *)
Lemma report_out events (t : rst port) : has (stream_events events t) POLLOUT = true -> rs_can_send t = true.
Proof.
  unfold stream_events. destruct (has events POLLOUT), (rs_can_send t); cbn [andb]; try done;
    destruct (has events POLLIN && rs_conn_have_rdata t), (negb (has (rs_state (rs_c (t_rs t))) rs_connected)),
      (rs_state (rs_c (t_rs t)) =? rs_disconnected); discriminate.
Qed.

Lemma report_in events (t : rst port) : has (stream_events events t) POLLIN = true -> rs_conn_have_rdata t = true.
Proof.
  unfold stream_events. destruct (has events POLLIN), (rs_conn_have_rdata t); cbn [andb]; try done;
    destruct (has events POLLOUT && rs_can_send t), (negb (has (rs_state (rs_c (t_rs t))) rs_connected)),
      (rs_state (rs_c (t_rs t)) =? rs_disconnected); discriminate.
Qed.

(** What completions do to the state: they end the connection or one of its directions. *)
Section States.
Context (P : Z -> Prop).
Hypothesis Hdisc : P rs_disconnected.
Hypothesis Herr : P rs_error.
Hypothesis Hland : forall s, P s -> P (Z.land s (Z.lnot rs_readable)).
Abbreviation state t := (rs_state (rs_c (t_rs t))).

Lemma handled_state w rcnt (t t' : rst port) r b : handle_wc w rcnt t = Ok (t', r, b) -> P (state t) -> P (state t').
Proof using Hdisc Herr Hland.
  unfold handle_wc. destruct (rs_wr_is_recv (rw_id w)).
  - destruct (negb (rw_ok w)); [by intros [= <- <- <-]|]. intros ([t1 b1] & E & [= <- <- <-])%bind_Ok Hs.
    unfold handle_msg in E. cbv zeta in E.
    repeat (match type of E with context [if ?b then _ else _] => destruct b end); simplify_eq; try done; by apply Hland.
  - intros [= <- <- <-] Hs. unfold handle_sent.
    repeat (match goal with |- context [if ?b then _ else _] => destruct b end); done.
Qed.

Lemma repost_ctl k : forall (t t' : rst port) ret, repost port_dev k t = (t', ret) -> rs_c (t_rs t') = rs_c (t_rs t).
Proof using Type.
  induction k as [|k IH]; intros t t' ret E; simpl in E; [by simplify_eq|].
  unfold rs_post_recv in E. destruct (msg_send t); simpl in E; by apply IH in E.
Qed.

Lemma poll_end_state ret rcnt (t t' : rst port) r : poll_end port_dev ret rcnt t = (t', r) -> P (state t) -> P (state t').
Proof using Herr.
  intros E Hs. unfold poll_end in E. destruct (has _ rs_connected); [|by simplify_eq].
  destruct (if ret =? 0 then _ else _) as [t1 r1] eqn:E1. assert (Hc : rs_c (t_rs t1) = rs_c (t_rs t)).
  { destruct (ret =? 0); [by eapply repost_ctl|by simplify_eq]. }
  destruct (r1 =? 0); simplify_eq; [by rewrite Hc|done].
Qed.

Lemma polled_state n : forall rcnt (t t' : rst port) ret, rs_poll_loop port_dev n rcnt t = Ok (t', ret) -> P (state t) -> P (state t').
Proof using Hdisc Herr Hland.
  induction n as [|n IH]; intros rcnt t t' ret E Hs; simpl in E; [discriminate E|].
  destruct (p_cq (t_dev t)) as [|w l].
  - injection E as E. by eapply poll_end_state.
  - apply bind_Ok in E as ([[t1 r1] b] & E1 & E). apply handled_state in E1; [|done].
    destruct b; [by simplify_eq|]. by eapply IH.
Qed.

End States.

(** A socket that does not receive any more does not begin again. *)
Lemma polled_readable n rcnt (t t' : rst port) ret : rs_poll_loop port_dev n rcnt t = Ok (t', ret) ->
  has (rs_state (rs_c (t_rs t))) rs_readable = false -> has (rs_state (rs_c (t_rs t'))) rs_readable = false.
Proof.
  apply (polled_state (fun s => has s rs_readable = false)); try done.
  intros s _. unfold has. by rewrite <- Z.land_assoc, (Z.land_comm (Z.lnot _)), Z.land_lnot_diag, Z.land_0_r.
Qed.

(** A call of [rsend] that need not wait takes something. *)
Lemma send_takes fuel pt flags n x y rem olen t' rem' ret : inv x y -> rs_can_send (s_t x) = true ->
  rem <> [] -> Z.of_nat (length rem) < 2 ^ 32 -> olen_ok olen ->
  send_loop port_dev fuel pt (S n) flags rem olen (s_t x) = Ok (t', rem', ret) -> (length rem' < length rem)%nat.
Proof.
  intros Hi Hc Hne Hl Ho E. destruct rem as [|b rem]; [done|]. cbn [send_loop] in E. unfold wait_to_send in E. rewrite Hc in E.
  cbn [mbind res_bind] in E. destruct (xfer_of (Z.of_nat (length (b :: rem))) olen (s_t x)) as [xf ol] eqn:Ex.
  destruct (send_chunk port_dev (take (Z.to_nat xf) (b :: rem)) (s_t x)) as [t2 rt] eqn:Es.
  destruct (inv_send x y (b :: rem) olen xf ol t2 rt) as (Hi2 & -> & _ & Hxf); try done; [by apply olen_bounds|].
  cbn [Z.eqb] in E. apply (send_loop_spec _ _ _ _ _ _ _ _ _ _ _ Hi2) in E as (k & _ & -> & _);
    [|rewrite length_drop; lia|by eapply olen_next]. rewrite !length_drop. lia.
Qed.

Lemma ready_send fuel pt junk flags x y bytes : inv x y -> rs_can_send (s_t x) = true ->
  bytes <> [] -> Z.of_nat (length bytes) < 2 ^ 32 -> has flags MSG_DONTWAIT = true ->
  (cqn (s_t x) < fuel)%nat -> (length bytes <= fuel)%nat ->
  exists t' k, rs_sendb port_dev fuel pt junk flags bytes (s_t x) = Ok (t', k) /\ 1 <= k.
Proof.
  intros Hi Hc Hne Hl Hf Hq Hn. unfold rs_sendb.
  assert (Hp : iomap_pending (rs_s (t_rs (s_t x))) = false) by (destruct Hi as (? & ? & _ & _ & Hox & _); apply Hox).
  rewrite Hp. cbn [mbind res_bind].
  destruct (send_loop_returns fuel pt flags fuel x y bytes RS_OLAP_START_SIZE Hi Hl) as [[[t1 rem] r] E]; try done; [by exists 0|].
  cbn. rewrite E. cbn. eexists _, _. split; [reflexivity|].
  assert (length rem < length bytes)%nat.
  { destruct fuel as [|f]; [lia|]. eapply send_takes; [exact Hi|done..|by exists 0|exact E]. }
  unfold transferred. destruct (Nat.eqb_spec (length rem) (length bytes)); [lia|]. rewrite andb_false_r. lia.
Qed.

(** A look without waiting whose test holds behind the completions. *)
Lemma process_once fuel test x y : inv x y -> (cqn (s_t x) < fuel)%nat ->
  (forall t2, rs_poll_loop port_dev fuel 0 (rs_update_credits port_dev (s_t x)) = Ok (t2, 0) -> test t2 = true) ->
  exists t2, rs_poll_loop port_dev fuel 0 (rs_update_credits port_dev (s_t x)) = Ok (t2, 0) /\ keeps x y t2 /\
    rs_process_cq port_dev fuel true test (s_t x) = Ok (rs_update_credits port_dev t2, 0).
Proof.
  intros Hi Hq Ht. pose proof (keeps_credits _ _ Hi) as K.
  destruct (inv_poll fuel _ y 0 (proj1 K)) as [(t2 & E2 & _)|[_ Hn]];
    [|destruct K as [_ [Kq _]]; simpl in Hn; unfold cqn in *; lia].
  simpl in E2. exists t2. split; [done|]. split.
  - eapply keeps_trans; [exact K|]. by eapply keeps_poll; [apply K|exact E2].
  - destruct fuel as [|f] eqn:Ef; [lia|]. rewrite <- Ef in *.
    assert (H : process_loop port_dev fuel (S f) true test (s_t x) = Ok (rs_update_credits port_dev t2, 0)).
    { simpl. unfold process_round, rs_poll_cq. rewrite E2. cbn [mbind res_bind]. by rewrite (Ht _ E2). }
    by rewrite <- Ef in H.
Qed.

(** Waiting for data on a socket that has some, or gets no more, is not refused. *)
Lemma ready_wait fuel pt flags x y : inv x y -> rs_conn_have_rdata (s_t x) = true -> has flags MSG_DONTWAIT = true ->
  (cqn (s_t x) < fuel)%nat ->
  exists t1, (if rs_have_rdata (s_t x) then Ok (s_t x, 0)
    else rs_get_comp port_dev fuel pt (rs_nonblocking (s_t x) flags) rs_conn_have_rdata (s_t x)) = Ok (t1, 0).
Proof.
  intros Hi Hh Hf Hq. unfold rs_conn_have_rdata in Hh. destruct (rs_have_rdata (s_t x)); [by eexists|]. simpl in Hh.
  apply negb_true_iff in Hh. unfold rs_nonblocking. rewrite Hf, orb_true_r.
  destruct (credits_frame x y Hi) as (_ & _ & Hst & _).
  destruct (process_once fuel rs_conn_have_rdata x y Hi Hq) as (t2 & _ & _ & Hp).
  { intros t2 E2. unfold rs_conn_have_rdata. apply polled_readable in E2; [by rewrite E2, orb_true_r|by rewrite Hst]. }
  destruct fuel as [|f] eqn:Ef; [lia|]. rewrite <- Ef in *. exists (rs_update_credits port_dev t2).
  assert (H : comp_loop port_dev fuel pt (S f) None true rs_conn_have_rdata (s_t x) = Ok (rs_update_credits port_dev t2, 0)).
  { cbn [comp_loop]. rewrite Hp. done. }
  by rewrite <- Ef in H.
Qed.

Lemma ready_recv fuel pt flags x y buf len : inv x y -> rs_conn_have_rdata (s_t x) = true ->
  has flags MSG_DONTWAIT = true -> has flags MSG_PEEK = false -> has flags MSG_WAITALL = false ->
  0 < len < 2 ^ 32 -> app_buffer (s_cf x) buf len -> (cqn (s_t x) < fuel)%nat -> (Z.to_nat len <= fuel)%nat ->
  exists t' n, rs_recvb port_dev fuel pt buf len flags (s_t x) = Ok (t', n) /\ 0 <= n /\
    (n = 0 -> has (rs_state (rs_c (t_rs (s_t x)))) rs_readable = false).
Proof.
  intros Hi Hh Hf Hpk Hwa Hl Hb Hq Hn. destruct (ready_wait fuel pt flags x y Hi Hh Hf Hq) as [t1 E1].
  destruct (recv_wait_keeps _ _ _ _ _ _ _ Hi E1) as [(Hi1 & _ & Hcf & _) _].
  destruct (recv_loop_returns fuel (with_t t1 x) y buf len Hi1) as [[t2 l2] E2]; [lia|simpl; by rewrite Hcf|done|].
  simpl in E2. destruct (inv_recv _ (with_t t1 x) y buf len Hi1 ltac:(lia) ltac:(simpl; by rewrite Hcf) _ _ E2) as (Hl2 & _).
  assert (Hr : rrecv_loop port_dev fuel pt fuel flags buf len (s_t x) = Ok (t2, l2, 0)).
  { destruct fuel as [|f] eqn:Ef; [lia|]. rewrite <- Ef in *. rewrite Ef at 2. cbn [rrecv_loop]. rewrite E1.
    cbn [mbind res_bind Z.eqb negb]. rewrite Hpk, E2. cbn [mbind res_bind]. by rewrite Hwa, andb_false_r. }
  exists t2, (len - l2). unfold rs_recvb. rewrite Hr. split; [reflexivity|]. split; [lia|].
  intros E0. unfold rs_conn_have_rdata in Hh. destruct (rs_have_rdata (s_t x)) eqn:Ehv; [|by apply negb_true_iff].
  exfalso. injection E1 as <-. destruct fuel as [|f] eqn:Ef; [lia|]. cbn [recv_loop] in E2. rewrite Ehv in E2.
  destruct (Z.eqb_spec len 0); [lia|]. cbn [orb negb] in E2.
  destruct (inv_recv_one x y buf len Hi Ehv ltac:(lia) Hb) as (t3 & k & E3 & Hk & Hcf3 & _ & Hi3). rewrite E3 in E2.
  cbn [mbind res_bind] in E2.
  apply (inv_recv f (mkSide t3 _ _) y (buf + k) (len - k) Hi3 ltac:(lia)) in E2 as (Hl3 & _); [lia|].
  simpl. rewrite Hcf3. eapply app_buffer_sub; [done|lia..].
Qed.

(** ** Reports *)

Section Report.
Context {C E : Type} (ep : ep_env port) (cm : rs_cm C) (net : bool) (sys : poll_sys C E) (fuel : nat).

Abbreviation poll_rs_of x := (fun events nb test c o e =>
  rs_poll_rs port_dev ep cm net sys fuel events nb test (mkJ (s_t x) c o) e).

(** A look at a connected socket takes it to a later state of the call, whose events it
    reports. *)
Lemma poll_rs_connected x y events nb test c o e j' e' rev : inv x y -> stable y test ->
  has (rs_state (rs_c (t_rs (s_t x)))) rs_connected = true ->
  poll_rs_of x events nb test c o e = Ok (j', e', rev) ->
  keeps x y (j_t j') /\ rev = stream_events events (j_t j').
Proof.
  intros Hi Hst Hc Ep. unfold rs_poll_rs in Ep. cbn [poll_rs j_t] in Ep. rewrite Hc in Ep. cbn [orb] in Ep.
  apply bind_Ok in Ep as ([t ret] & Eq & [= <- <- <-]). by destruct (loop_keeps _ _ _ _ _ Hst _ _ _ Hi Eq) as [K _].
Qed.

(** C18: what [rpoll] reports of a connected stream socket holds.  It reports on the way to
    a connection again, of a socket reported for writing [rsend] takes at least one byte
    without waiting, and of one reported for reading [rrecv] returns at least one byte
    without waiting, or 0 when the peer has ended its stream. *)
Theorem poll_report_holds x y events nb test c o e j' e' rev : inv x y ->
  has (rs_state (rs_c (t_rs (s_t x)))) rs_connected = true -> test = rs_poll_all \/ test = rs_is_cq_armed ->
  (cqn (s_t x) < fuel)%nat -> poll_rs_of x events nb test c o e = Ok (j', e', rev) ->
  inv (with_t (j_t j') x) y /\
  (has rev POLLOUT = true -> forall pt junk bytes, bytes <> [] -> Z.of_nat (length bytes) < 2 ^ 32 ->
     (length bytes <= fuel)%nat ->
     exists t' k, rs_sendb port_dev fuel pt junk MSG_DONTWAIT bytes (j_t j') = Ok (t', k) /\ 1 <= k) /\
  (has rev POLLIN = true -> forall pt buf len, 0 < len < 2 ^ 32 -> app_buffer (s_cf x) buf len ->
     (Z.to_nat len <= fuel)%nat ->
     exists t' n, rs_recvb port_dev fuel pt buf len MSG_DONTWAIT (j_t j') = Ok (t', n) /\ 0 <= n /\
       (n = 0 -> has (rs_state (rs_c (t_rs (j_t j')))) rs_readable = false)).
Proof.
  intros Hi Hc Ht Hq Ep. assert (Hst : stable y test) by (destruct Ht as [-> | ->]; [apply stable_all|apply stable_armed]).
  destruct (poll_rs_connected _ _ _ _ _ _ _ _ _ _ _ Hi Hst Hc Ep) as [(Hi' & Hq' & Hcf & _) ->].
  split; [done|]. split.
  - intros Hr pt junk bytes Hb Hl Hf. apply (ready_send fuel pt junk MSG_DONTWAIT (with_t (j_t j') x) y); try done.
    + by apply report_out in Hr.
    + simpl. lia.
  - intros Hr pt buf len Hl Hb Hf. apply (ready_recv fuel pt MSG_DONTWAIT (with_t (j_t j') x) y); try done.
    + by apply report_in in Hr.
    + simpl. by rewrite Hcf.
    + simpl. lia.
Qed.

(** A look that must not wait ends. *)
Lemma poll_rs_ends x y events test c o e : inv x y -> has (rs_state (rs_c (t_rs (s_t x)))) rs_connected = true ->
  (cqn (s_t x) < fuel)%nat -> exists r, poll_rs_of x events true test c o e = Ok r.
Proof.
  intros Hi Hc Hq. destruct (process_returns fuel test x y Hi Hq) as (t' & ret & Ep). unfold rs_poll_rs.
  cbn [poll_rs j_t]. rewrite Hc. cbn [orb]. rewrite Ep. by eexists.
Qed.

End Report.

(** A system without other descriptors. *)
Definition no_sys : poll_sys unit unit :=
  mkPollSys (fun e _ => (e, 0)) (fun e l _ => (e, map (fun _ => 0) l, 0)) (fun e => (e, 0)) (fun _ _ => true)
    (fun _ => 100) (fun _ => 101).
Definition no_cm : rs_cm unit :=
  mkRsCm _ (fun _ _ => (tt, 0, 0)) (fun _ => (tt, 0, 0)) (fun _ => (tt, 0, 0)) (fun _ _ => (tt, 0, 0))
    (fun _ _ _ => (tt, 0, 0)) (fun _ _ => (tt, 0, 0)) (fun _ _ => tt) (fun _ => rs_format_conn_data false (opened demo_end)).

Definition polled_y3 : joiner * unit * Z :=
  ok_or (mkJ (s_t y3) tt false, tt, 0)
    (rs_poll_rs port_dev (port_env demo_end) no_cm false no_sys 32 (Z.lor POLLIN POLLOUT) true rs_poll_all
       (mkJ (s_t y3) tt false) tt).

Lemma polled_y3_ok : rs_poll_rs port_dev (port_env demo_end) no_cm false no_sys 32 (Z.lor POLLIN POLLOUT) true rs_poll_all
  (mkJ (s_t y3) tt false) tt = Ok (polled_y3.1.1, tt, Z.lor POLLIN POLLOUT).
Proof.
  assert (H : forall (r : res (joiner (D := port) (C := unit) * unit * Z)) d, is_ok r = true -> (ok_or d r).2 = Z.lor POLLIN POLLOUT ->
    r = Ok ((ok_or d r).1.1, tt, Z.lor POLLIN POLLOUT)).
  { intros [[[j []] z]| | |] d Hok Hz; try discriminate Hok. simpl in *. by rewrite Hz. }
  apply H; vm_compute; reflexivity.
Qed.

Lemma poll_report_holds_witness :
  (exists t' k, rs_sendb port_dev 32 0 0 MSG_DONTWAIT hello (j_t polled_y3.1.1) = Ok (t', k) /\ 1 <= k) /\
  (exists t' n, rs_recvb port_dev 32 0 0 16 MSG_DONTWAIT (j_t polled_y3.1.1) = Ok (t', n) /\ 0 <= n).
Proof.
  assert (H16 : 0 < 16 < 2 ^ 32 /\ (Z.to_nat 16 <= 32)%nat) by lia. assert (H3 : (length hello <= 32)%nat) by (simpl; lia).
  destruct (poll_report_holds (port_env demo_end) no_cm false no_sys 32 y3 x2 (Z.lor POLLIN POLLOUT) true rs_poll_all tt false tt
    polled_y3.1.1 tt (Z.lor POLLIN POLLOUT)) as (_ & Hout & Hin).
  - apply inv_sym, connected_inv, demo_connected, demo_polled.
  - vm_compute. reflexivity.
  - by left.
  - vm_compute. lia.
  - exact polled_y3_ok.
  - split.
    + apply (Hout eq_refl 0 0 hello); [done|reflexivity|exact H3].
    + destruct (Hin eq_refl 0 0 16 (proj1 H16) low_buffer (proj2 H16)) as (t' & n & H1 & H2 & _). exists t', n. split; [exact H1|exact H2].
Defined.

(** ** [rpoll] *)

Section Count.
Context {D C E : Type} (dv : rs_dev D) (ep : ep_env D) (cm : rs_cm C) (net : bool) (sys : poll_sys C E).
Context (fuel : nat) (pt : Z).
Implicit Types w : poll_w (D := D) (C := C) (E := E).

(** The descriptors that are reported, and what the caller asked. *)
Definition reported (fds : list pollfd) : Z := sumZ (map counts fds).
Definition asked (p : pollfd) : Z * Z := (pf_fd p, pf_events p).
Definition silent (fds : list pollfd) : Prop := Forall (fun p => pf_revents p = 0) fds.

Lemma counts_nonneg p : 0 <= counts p.
Proof. unfold counts. by destruct (_ =? 0). Qed.

Lemma reported_nonneg l : 0 <= reported l.
Proof. induction l as [|p l IH]; [done|]. pose proof (counts_nonneg p). unfold reported in *. simpl. lia. Qed.

Lemma reported_cons p l : reported (p :: l) = counts p + reported l.
Proof. done. Qed.

Lemma counts_zero p : pf_revents p = 0 -> counts p = 0.
Proof. unfold counts. by intros ->. Qed.

Lemma counts_one p : pf_revents p <> 0 -> counts p = 1.
Proof. unfold counts. by intros ->%Z.eqb_neq. Qed.

Lemma silent_reported fds : silent fds <-> reported fds = 0.
Proof.
  induction fds as [|p l IH]; [split; [done|by constructor]|]. unfold silent. rewrite Forall_cons. fold (silent l). rewrite IH.
  rewrite reported_cons. pose proof (reported_nonneg l). destruct (decide (pf_revents p = 0)) as [H0|H0].
  - rewrite counts_zero by done. naive_solver lia.
  - rewrite counts_one by done. split; [by intros []|lia].
Qed.

Lemma poll_sock_asked nb test p j w w' p' : poll_sock dv ep cm net sys fuel nb test p j w = Ok (w', p') -> asked p' = asked p.
Proof. unfold poll_sock. intros ([[j1 e1] r] & _ & [= <- <-])%bind_Ok. done. Qed.

Lemma check_counts fds : forall w w' fds' ret, rs_poll_check dv ep cm net sys fuel w fds = Ok (w', fds', ret) ->
  map asked fds' = map asked fds /\ ret = reported fds'.
Proof.
  induction fds as [|p l IH]; intros w w' fds' ret Ec; simpl in Ec; [by simplify_eq|].
  apply bind_Ok in Ec as ([w1 p1] & E1 & Ec). apply bind_Ok in Ec as ([[w2 l2] cnt] & E2 & [= <- <- <-]).
  apply IH in E2 as [Hl ->]. assert (asked p1 = asked p) as Hp.
  { destruct (w_socks w !! pf_fd p); [by eapply poll_sock_asked|]. destruct (y_poll1 sys (w_env w) p). by simplify_eq. }
  split; [cbn [map]; by rewrite Hp, Hl|done].
Qed.

(** Arming stops at the first descriptor that has something. *)
Lemma arm_counts fds : forall w w' fds' rfds ret, silent fds ->
  rs_poll_arm dv ep cm net sys fuel w fds = Ok (w', fds', rfds, ret) ->
  map asked fds' = map asked fds /\ ret = reported fds' /\ (ret = 0 -> length rfds = length fds').
Proof.
  induction fds as [|p l IH]; intros w w' fds' rfds ret Hs Ea; simpl in Ea; [by simplify_eq|].
  apply Forall_cons in Hs as [Hp0 Hs]. destruct (w_socks w !! pf_fd p).
  - apply bind_Ok in Ea as ([w1 p1] & E1 & Ea). apply poll_sock_asked in E1. destruct (Z.eqb_spec (pf_revents p1) 0) as [H0|H0].
    + cbn [negb] in Ea. apply bind_Ok in Ea as ([[[w2 l2] rl] r] & E2 & [= <- <- <- <-]).
      apply IH in E2 as (Hl & -> & Hr); [|done]. split; [cbn [map]; by rewrite E1, Hl|]. rewrite reported_cons, counts_zero by done.
      split; [done|]. intros Hz. simpl. by rewrite Hr.
    + cbn [negb] in Ea. injection Ea as <- <- <- <-. split; [cbn [map]; by rewrite E1|]. apply silent_reported in Hs.
      rewrite reported_cons, counts_one by done. split; [lia|done].
  - apply bind_Ok in Ea as ([[[w2 l2] rl] r] & E2 & [= <- <- <- <-]). apply IH in E2 as (Hl & -> & Hr); [|done].
    split; [cbn [map]; by rewrite Hl|]. rewrite reported_cons, counts_zero by done. split; [done|].
    intros Hz. simpl. by rewrite Hr.
Qed.

Lemma events_count fds : forall revs w w' fds' ret, silent fds ->
  rs_poll_events dv ep cm net sys fuel w revs fds = Ok (w', fds', ret) ->
  map asked fds' = map asked fds /\ ret = reported fds'.
Proof.
  induction fds as [|p l IH]; intros revs w w' fds' ret Hs Ee; simpl in Ee; [by simplify_eq|].
  apply Forall_cons in Hs as [Hp0 Hs]. destruct revs as [|r revs]; [done|]. destruct (r =? 0).
  - apply bind_Ok in Ee as ([[w2 l2] cnt] & E2 & [= <- <- <-]). apply IH in E2 as [Hl ->]; [|done].
    split; [cbn [map]; by rewrite Hl|]. by rewrite reported_cons, counts_zero.
  - apply bind_Ok in Ee as ([w1 p1] & E1 & Ee). apply bind_Ok in Ee as ([[w2 l2] cnt] & E2 & [= <- <- <-]).
    apply IH in E2 as [Hl ->]; [|done]. assert (asked p1 = asked p) as Hp.
    { destruct (w_socks w !! pf_fd p); [by eapply poll_sock_asked|]. injection E1 as _ <-. done. }
    split; [cbn [map]; by rewrite Hp, Hl|done].
Qed.

Lemma wait_counts timeout n : forall w fds w' fds' ret, silent fds ->
  wait_loop dv ep cm net sys fuel n timeout w fds = Ok (w', fds', ret) ->
  map asked fds' = map asked fds /\ (ret = reported fds' \/ ret < 0).
Proof.
  induction n as [|n IH]; intros w fds w' fds' ret Hs Ew; simpl in Ew; [done|].
  apply bind_Ok in Ew as ([[[w1 f1] rf] r1] & E1 & Ew). apply arm_counts in E1 as (Ha & Hr1 & _); [|done].
  destruct (Z.eqb_spec r1 0) as [H0|H0]; cbn [negb] in Ew; [|simplify_eq; split; [done|by left]].
  assert (Hs1 : silent f1) by (apply silent_reported; lia).
  destruct (y_poll sys (w_env w1) rf timeout) as [[e revs] r2]. destruct (Z.leb_spec r2 0).
  { simplify_eq. split; [done|]. apply silent_reported in Hs1. lia. }
  apply bind_Ok in Ew as ([[w3 f3] r3] & E3 & Ew). apply events_count in E3 as [Ha3 Hr3]; [|done].
  destruct (Z.eqb_spec r3 0); [|simplify_eq; split; [by rewrite Ha3|by left]].
  apply IH in Ew as [Ha' Hr]; [|apply silent_reported; lia]. split; [by rewrite Ha', Ha3|done].
Qed.

Lemma check_loop_counts timeout n : forall start w fds w' fds' r,
  check_loop dv ep cm net sys fuel pt n start timeout w fds = Ok (w', fds', r) ->
  map asked fds' = map asked fds /\ match r with Some ret => ret = reported fds' | None => silent fds' end.
Proof.
  induction n as [|n IH]; intros start w fds w' fds' r Ec; simpl in Ec; [done|].
  apply bind_Ok in Ec as ([[w1 f1] r1] & E1 & Ec). apply check_counts in E1 as [Ha Hr].
  destruct (Z.eqb_spec r1 0) as [H0|H0]; [|simplify_eq/=; done]. cbn [negb orb] in Ec.
  destruct (timeout =? 0); [simplify_eq; done|].
  destruct (match start with Some s => _ | None => _ end) as [e1 s]. destruct (y_clock sys e1) as [e2 now].
  destruct (_ <=? pt); [|simplify_eq; split; [done|by apply silent_reported]].
  apply IH in Ec as [Ha' Hr']. split; [by rewrite Ha', Ha|done].
Qed.

(** [rpoll] returns the number of the descriptors it reports, or an error, whatever the
    sockets, the other descriptors and the clock do; it leaves the questions as they were. *)
Theorem rpoll_counts_reports n timeout w fds w' fds' ret :
  rpoll dv ep cm net sys fuel pt n timeout w fds = Ok (w', fds', ret) ->
  map asked fds' = map asked fds /\ (ret = reported fds' \/ ret < 0).
Proof.
  unfold rpoll. intros ([[w1 f1] r] & E1 & Ep)%bind_Ok. apply check_loop_counts in E1 as [Ha Hr]. destruct r as [ret'|].
  - simplify_eq. split; [done|by left].
  - destruct (y_alloc sys (w_env w1) (length f1)); [|simplify_eq; split; [done|by right]].
    apply wait_counts in Ep as [Ha' Hr']; [|done]. split; [by rewrite Ha', Ha|done].
Qed.

End Count.

(** ** [rpoll] without waiting *)

(** The states in which a look handles completions. *)
Definition pollable (st : Z) : Prop := has st rs_connected || (st =? rs_disconnected) || has st rs_error = true.

Lemma has_without st bit : Z.land bit rs_readable = 0 -> has (Z.land st (Z.lnot rs_readable)) bit = has st bit.
Proof.
  intros Hb. unfold has. do 2 f_equal. rewrite <- Z.land_assoc. f_equal. rewrite Z.land_comm.
  apply Z.bits_inj'. intros i Hi. rewrite Z.land_spec, Z.lnot_spec by done. apply (f_equal (fun z => Z.testbit z i)) in Hb.
  rewrite Z.land_spec, Z.bits_0 in Hb. destruct (Z.testbit bit i), (Z.testbit rs_readable i); done.
Qed.

Lemma pollable_kept st : pollable st -> pollable (Z.land st (Z.lnot rs_readable)).
Proof.
  unfold pollable. rewrite !has_without by done. destruct (Z.eqb_spec st rs_disconnected) as [->|]; [done|].
  rewrite orb_false_r. intros [->| ->]%orb_prop; [done|by rewrite !orb_true_r].
Qed.

Section Returns.
Context {C E : Type} (ep : ep_env port) (cm : rs_cm C) (net : bool) (sys : poll_sys C E) (fuel : nat) (pt : Z).
Implicit Types w : poll_w (D := port) (C := C) (E := E).

(** A socket that is one end of a connection, with fewer completions than [fuel]. *)
Definition attached (j : joiner (D := port) (C := C)) : Prop := exists x y,
  j_t j = s_t x /\ inv x y /\ pollable (rs_state (rs_c (t_rs (s_t x)))) /\ (cqn (s_t x) < fuel)%nat.

Lemma poll_sock_ends p j w : attached j ->
  exists j' r, attached j' /\ poll_sock port_dev ep cm net sys fuel true rs_poll_all p j w
    = Ok (mkPollW (<[pf_fd p := j']> (w_socks w)) (w_env w), set_revents r p).
Proof.
  intros (x & y & Ej & Hi & Hp & Hq). destruct (process_once fuel rs_poll_all x y Hi Hq ltac:(done)) as (t2 & E2 & K & E1).
  exists (mkJ (rs_update_credits port_dev t2) (j_cm j) (j_optval j)). eexists. split.
  - exists (with_t (rs_update_credits port_dev t2) x), y.
    destruct (credits_frame (with_t t2 x) y (proj1 K)) as ((Hq3 & _) & _ & Hs3 & _). simpl in Hq3, Hs3.
    destruct (credits_frame x y Hi) as (_ & _ & Hs1 & _). split; [done|]. split; [apply (inv_credits (with_t t2 x) y), K|].
    simpl. rewrite Hs3. split; [|destruct K as (_ & K & _); lia].
    apply (polled_state pollable ltac:(done) ltac:(done) pollable_kept) in E2; [done|]. by rewrite Hs1.
  - unfold poll_sock, rs_poll_rs. cbn [poll_rs]. rewrite Ej. unfold pollable in Hp. rewrite Hp, E1. reflexivity.
Qed.

(** A socket that no connection is being made for: listening, new or bound, or after an
    attempt that failed. *)
Definition resting (j : joiner (D := port) (C := C)) : Prop :=
  let st := rs_state (rs_c (t_rs (j_t j))) in
  st = rs_init \/ st = rs_bound \/ st = rs_listening \/ st = rs_connect_error.

Lemma resting_ends p j w : resting j ->
  exists e r, poll_sock port_dev ep cm net sys fuel true rs_poll_all p j w
    = Ok (mkPollW (<[pf_fd p := j]> (w_socks w)) e, set_revents r p).
Proof.
  intros Hr. unfold poll_sock, rs_poll_rs. cbn [poll_rs]. destruct Hr as [Hr|[Hr|[Hr|Hr]]]; rewrite Hr; simpl.
  - by eexists _, _.
  - by eexists _, _.
  - destruct (y_poll1 sys _ _) as [e r]. by eexists _, _.
  - by eexists _, _.
Qed.

Definition settled (j : joiner (D := port) (C := C)) : Prop := attached j \/ resting j.

Lemma check_ends fds : forall w, map_Forall (fun _ => settled) (w_socks w) ->
  exists w' fds' ret, rs_poll_check port_dev ep cm net sys fuel w fds = Ok (w', fds', ret).
Proof.
  induction fds as [|p l IH]; intros w Hw; [by eexists _, _, _|]. simpl.
  destruct (w_socks w !! pf_fd p) as [j|] eqn:Ej.
  - assert (exists j' e r, settled j' /\ poll_sock port_dev ep cm net sys fuel true rs_poll_all p j w
      = Ok (mkPollW (<[pf_fd p := j']> (w_socks w)) e, set_revents r p)) as (j' & e & r & Hj' & E1).
    { destruct (Hw _ _ Ej) as [Ha|Hr].
      - destruct (poll_sock_ends p j w Ha) as (j' & r & Hj' & E1). eexists j', _, r. split; [by left|exact E1].
      - destruct (resting_ends p j w Hr) as (e & r & E1). exists j, e, r. split; [by right|exact E1]. }
    rewrite E1. cbn [mbind res_bind].
    destruct (IH (mkPollW (<[pf_fd p := j']> (w_socks w)) e)) as (w2 & l2 & cnt & E2); [by apply map_Forall_insert_2|].
    rewrite E2. by eexists _, _, _.
  - destruct (y_poll1 sys (w_env w) p) as [e r]. cbn [mbind res_bind].
    destruct (IH (mkPollW (w_socks w) e) Hw) as (w2 & l2 & cnt & E2). rewrite E2. by eexists _, _, _.
Qed.

(** C19: with the timeout 0 [rpoll] returns, after one look at each descriptor, on any
    number of descriptors in any order, when each of them is the end of a stream
    connection with fewer completions than the fuel, a stream socket that listens, is not
    yet connected or whose attempt to connect has failed, or no socket of the library. *)
Theorem rpoll_returns n w fds : map_Forall (fun _ => settled) (w_socks w) -> (1 <= n)%nat ->
  exists w' fds' ret, rpoll port_dev ep cm net sys fuel pt n 0 w fds = Ok (w', fds', ret).
Proof.
  intros Hw Hn. destruct n as [|n]; [lia|]. destruct (check_ends fds w Hw) as (w' & fds' & ret & Ec).
  unfold rpoll. cbn [check_loop]. rewrite Ec. cbn [mbind res_bind Z.eqb]. rewrite orb_true_r. by eexists _, _, _.
Qed.

End Returns.

Definition demo_w : poll_w := mkPollW {[5 := mkJ (s_t y3) tt false]} tt.
Definition demo_fds : list pollfd := [mkPollfd 5 POLLIN 0; mkPollfd 7 POLLIN 0].
Abbreviation demo_rpoll := (rpoll port_dev (port_env demo_end) no_cm false no_sys 32 10 4 0 demo_w demo_fds).

Lemma y3_settled : map_Forall (fun _ => settled 32) (w_socks demo_w).
Proof.
  apply map_Forall_singleton. left. exists y3, x2. split; [done|].
  split; [apply inv_sym, connected_inv, demo_connected, demo_polled|]. split; [vm_compute; reflexivity|vm_compute; lia].
Qed.

Lemma rpoll_returns_witness : exists w' fds' ret, demo_rpoll = Ok (w', fds', ret).
Proof. apply rpoll_returns; [apply y3_settled|lia]. Defined.

Definition demo_answer : poll_w * list pollfd * Z := ok_or (demo_w, [], 0) demo_rpoll.

Lemma demo_answer_ok : demo_rpoll = Ok (demo_answer.1.1, [mkPollfd 5 POLLIN POLLIN; mkPollfd 7 POLLIN 0], 1).
Proof.
  assert (H : forall (r : res (poll_w (D := port) (C := unit) (E := unit) * list pollfd * Z)) d l z, is_ok r = true ->
    (ok_or d r).1.2 = l -> (ok_or d r).2 = z -> r = Ok ((ok_or d r).1.1, l, z)).
  { intros [[[a b] z0]| | |] d l z Hok Hl Hz; try discriminate Hok. simpl in *. by subst. }
  apply H; vm_compute; reflexivity.
Qed.

Lemma rpoll_counts_reports_witness : map asked [mkPollfd 5 POLLIN POLLIN; mkPollfd 7 POLLIN 0] = map asked demo_fds /\
  (1 = reported [mkPollfd 5 POLLIN POLLIN; mkPollfd 7 POLLIN 0] \/ 1 < 0).
Proof. eapply rpoll_counts_reports. exact demo_answer_ok. Defined.

(** ** [rselect] *)

Section Select.
Context (rd wr ex : fd_set).

(** The questions of the three sets, in the order of the descriptors. *)
Definition wanted (fd : Z) : Prop := FD_ISSET fd rd || FD_ISSET fd wr || FD_ISSET fd ex = true.
#[global] Instance wanted_dec fd : Decision (wanted fd).
Proof. unfold wanted. apply _. Defined.
Definition question (fd : Z) : pollfd :=
  mkPollfd fd (Z.lor (if FD_ISSET fd rd then POLLIN else 0) (if FD_ISSET fd wr then POLLOUT else 0)) 0.
Definition questions (nfds : Z) : list pollfd := map question (filter wanted (seqZ 0 nfds)).

Lemma select_fd_ok fd done : fd <> 0 ->
  select_fd rd wr ex fd (done, mkPollfd 0 0 0) = (done ++ (if decide (wanted fd) then [question fd] else []), mkPollfd 0 0 0).
Proof.
  intros Hfd. destruct (decide (wanted fd)) as [Hw|Hw]; unfold select_fd, question, wanted in *; apply Z.eqb_neq in Hfd;
    destruct (FD_ISSET fd rd), (FD_ISSET fd wr), (FD_ISSET fd ex); cbn in *; rewrite ?Hfd; cbn; by rewrite ?app_nil_r.
Qed.

Lemma select_fds_ok l : forall done, 0 ∉ l ->
  foldl (fun st fd => select_fd rd wr ex fd st) (done, mkPollfd 0 0 0) l
  = (done ++ map question (filter wanted l), mkPollfd 0 0 0).
Proof.
  induction l as [|fd l IH]; intros done Hl; [by rewrite app_nil_r|]. apply not_elem_of_cons in Hl as [Hfd Hl].
  cbn [foldl]. rewrite select_fd_ok by done. rewrite IH by done. f_equal. rewrite filter_cons, <- app_assoc.
  by destruct (decide (wanted fd)).
Qed.

Lemma select_to_poll_ok nfds : ~ wanted 0 -> rs_select_to_poll rd wr ex nfds = questions nfds.
Proof.
  intros H0. unfold rs_select_to_poll, questions. destruct (Z.le_gt_cases nfds 0) as [Hn|Hn].
  { by replace (seqZ 0 nfds) with (@nil Z) by (symmetry; by apply seqZ_nil). }
  rewrite (seqZ_cons 0) by lia. cbn [foldl]. assert (E : select_fd rd wr ex 0 ([], mkPollfd 0 0 0) = ([], mkPollfd 0 0 0)).
  { unfold select_fd. unfold wanted in H0. destruct (FD_ISSET 0 rd), (FD_ISSET 0 wr), (FD_ISSET 0 ex); cbn in *; try done. }
  rewrite E. rewrite select_fds_ok.
  - rewrite filter_cons, decide_False by done. done.
  - intros H%elem_of_seqZ. lia.
Qed.
End Select.

(** The descriptors of the answer that have one of the bits. *)
Definition ready (bits : Z) (fds : list pollfd) : list Z := map pf_fd (filter (fun p => has (pf_revents p) bits = true) fds).
Definition answer (bits : Z) (fds : list pollfd) (s : fd_set) : fd_set := (fun x => list_to_set (ready bits fds) ∪ x) <$> s.
Definition found (bits : Z) (fds : list pollfd) (s : fd_set) : Z := if given s then Z.of_nat (length (ready bits fds)) else 0.

Lemma to_select_ok bits p l s :
  answer bits l (to_select bits p s).1 = answer bits (p :: l) s /\
  (to_select bits p s).2 + found bits l (to_select bits p s).1 = found bits (p :: l) s.
Proof.
  unfold to_select, answer, found, ready. rewrite !filter_cons. destruct s as [s|]; [|done]. cbn [given andb].
  destruct (decide (has (pf_revents p) bits = true)) as [Hb|Hb%not_true_is_false]; rewrite Hb; cbn -[Z.of_nat]; [|done].
  split; [f_equal; set_solver|lia].
Qed.

Lemma poll_to_select_ok fds : forall rd wr ex,
  rs_poll_to_select fds rd wr ex =
  (answer (Z.lor POLLIN POLLHUP) fds rd, answer POLLOUT fds wr, answer (Z.lnot (Z.lor POLLIN POLLOUT)) fds ex,
   found (Z.lor POLLIN POLLHUP) fds rd + found POLLOUT fds wr + found (Z.lnot (Z.lor POLLIN POLLOUT)) fds ex).
Proof.
  assert (Hnil : forall bits s, answer bits [] s = s /\ found bits [] s = 0).
  { intros bits [s|]; [|done]. split; [|done]. unfold answer. cbn. f_equal. set_solver. }
  induction fds as [|p l IH]; intros rd wr ex.
  - by rewrite !(proj1 (Hnil _ _)), !(proj2 (Hnil _ _)).
  - cbn [rs_poll_to_select]. destruct (to_select_ok (Z.lor POLLIN POLLHUP) p l rd) as [<- <-].
    destruct (to_select_ok POLLOUT p l wr) as [<- <-].
    destruct (to_select_ok (Z.lnot (Z.lor POLLIN POLLOUT)) p l ex) as [<- <-].
    destruct (to_select _ p rd) as [rd1 a], (to_select _ p wr) as [wr1 b], (to_select _ p ex) as [ex1 c].
    rewrite IH. cbn. f_equal. lia.
Qed.

(** C20: [rselect], when descriptor 0 is in none of the sets and memory for the entries is
    there, is [rpoll] on exactly the descriptors that are in a set below [nfds], in their
    order and with the events of their sets.  It ends as [rpoll] does; when [rpoll] reports
    some, each set that is given becomes the descriptors, of whichever set they were, with
    the bits of that set, and the result is how many there are in all of the sets; otherwise
    the sets are emptied and the result is [rpoll]'s. *)
Theorem rselect_answers {D C E} (dv : rs_dev D) ep (cm : rs_cm C) net (sys : poll_sys C E) fuel pt n nfds rd wr ex timeout w :
  ~ wanted rd wr ex 0 ->
  rselect dv ep cm net sys fuel pt n true nfds rd wr ex timeout w
  = ('(w', fds, r) ← rpoll dv ep cm net sys fuel pt n (rs_convert_timeout timeout) w (questions rd wr ex nfds);
     Ok (if 0 <? r then
           (w', (answer (Z.lor POLLIN POLLHUP) fds (FD_ZERO rd), answer POLLOUT fds (FD_ZERO wr),
                 answer (Z.lnot (Z.lor POLLIN POLLOUT)) fds (FD_ZERO ex)),
            found (Z.lor POLLIN POLLHUP) fds rd + found POLLOUT fds wr + found (Z.lnot (Z.lor POLLIN POLLOUT)) fds ex)
         else (w', (FD_ZERO rd, FD_ZERO wr, FD_ZERO ex), r))).
Proof.
  intros H0. unfold rselect. cbn [negb]. rewrite select_to_poll_ok by done.
  destruct (rpoll _ _ _ _ _ _ _ _ _ _ _) as [[[w1 fds] r]| | |]; try done. cbn [mbind res_bind].
  rewrite poll_to_select_ok.
  assert (Hf : forall bits s, found bits fds (FD_ZERO s) = found bits fds s) by (by intros bits []).
  rewrite !Hf. by destruct (0 <? r).
Qed.

Abbreviation demo_rselect := (rselect port_dev (port_env demo_end) no_cm false no_sys 32 10 4 true 8
  (Some {[5; 7]}) None (Some {[5]}) (Some (0, 0)) demo_w).
Lemma demo_no_zero : ~ wanted (Some {[5; 7]}) None (Some {[5]}) 0.
Proof. apply not_true_iff_false. vm_compute. reflexivity. Qed.

Lemma rselect_answers_witness : demo_rselect = Ok (demo_answer.1.1, (Some {[5]}, None, Some ∅), 1).
Proof.
  rewrite (rselect_answers port_dev (port_env demo_end) no_cm false no_sys 32 10 4 8 (Some {[5; 7]}) None (Some {[5]})
    (Some (0, 0)) demo_w demo_no_zero).
  assert (questions (Some {[5; 7]}) None (Some {[5]}) 8 = demo_fds) as -> by by vm_compute.
  change (rs_convert_timeout (Some (0, 0))) with 0. rewrite demo_answer_ok. cbn [mbind res_bind]. generalize (demo_answer.1.1). by vm_compute.
Defined.

(** ** What [rselect] gets wrong *)

(** Descriptor 0 is not asked about, and what it was to be asked about the next one is: 0
    for writing and 5 as an exception becomes 5 for writing. *)
Lemma select_drops_zero : rs_select_to_poll None (Some {[0]}) (Some {[5]}) 6 = [mkPollfd 5 POLLOUT 0].
Proof. by vm_compute. Qed.

(** A report that a descriptor is broken puts it into the set of reads, in which it was not. *)
Lemma select_reports_unasked : rs_select_to_poll (Some ∅) (Some {[5]}) None 6 = [mkPollfd 5 POLLOUT 0] /\
  rs_poll_to_select [mkPollfd 5 POLLOUT POLLHUP] (Some ∅) (Some ∅) None = (Some {[5]}, Some ∅, None, 1).
Proof. by vm_compute. Qed.
