(* ===== verification/RsSvc.v ===== *)
(** * The service thread for keep-alive messages (rsocket.c)

    The table of the service thread and its requests, and a round of its loop.  The arrays
    hold a map from sockets to the times of their next messages; the requests change it as
    a map, and a round sends a message to the sockets that are due. *)

From S2P Require Import Prelude CLayout Verbs Wire CmdCtrl CmTypes CmRoute RsTypes RsPost RsStream RsWorld RsOpen.

Definition EBADF : Z := 9.
Definition RS_CTRL_KEEPALIVE : Z := 1.
Definition RS_OPT_SVC_ACTIVE : Z := 4.

Inductive svc_cmd : Type := RS_SVC_NOOP | RS_SVC_ADD_KEEPALIVE | RS_SVC_REM_KEEPALIVE | RS_SVC_MOD_KEEPALIVE.

(** [rss[i] = x] *)
Definition array_put {A} (l : list A) (i : Z) (x : A) : res (list A) :=
  if (0 <=? i) && (i <? Z.of_nat (length l)) then Ok (<[Z.to_nat i := x]> l) else Ub.

(** ** The table *)

(** [struct rs_svc]; sockets are the addresses of their structs. *)
Record rs_svc : Type := mkSvc { sv_cnt : Z; sv_rss : list Z; sv_contexts : list Z }.
Definition sv_size (s : rs_svc) : Z := Z.of_nat (length (sv_rss s)).
Definition new_svc : rs_svc := mkSvc 0 [] [].

(** A cleared array with the entries that are in use copied. *)
Definition grown (cnt size : Z) (l : list Z) : list Z :=
  let used := if cnt =? 0 then [] else take (Z.to_nat (cnt + 1)) l in
  used ++ replicate (Z.to_nat size - length used) 0.

Definition rs_svc_grow_sets (mem : bool) (grow_size : Z) (s : rs_svc) : rs_svc * Z :=
  if negb mem then (s, ENOMEM) else
  let size := sv_size s + grow_size in
  (mkSvc (sv_cnt s) (grown (sv_cnt s) size (sv_rss s)) (grown (sv_cnt s) size (sv_contexts s)), 0).

Definition rs_svc_add_rs (mem : bool) (rs : Z) (s : rs_svc) : res (rs_svc * Z) :=
  let '(s, ret) := if sv_size s - 1 <=? sv_cnt s then rs_svc_grow_sets mem 4 s else (s, 0) in
  if negb (ret =? 0) then Ok (s, ret) else
  l ← array_put (sv_rss s) (sv_cnt s + 1) rs;
  Ok (mkSvc (sv_cnt s + 1) l (sv_contexts s), 0).

Fixpoint index_loop (k : nat) (i : Z) (rs : Z) (l : list Z) : res Z :=
  match k with
  | O => Ok (-1)
  | S k' => x ← array_get l i; if x =? rs then Ok i else index_loop k' (i + 1) rs l
  end.

Definition rs_svc_index (rs : Z) (s : rs_svc) : res Z := index_loop (Z.to_nat (sv_cnt s)) 1 rs (sv_rss s).

Definition rs_svc_rm_rs (rs : Z) (s : rs_svc) : res (rs_svc * Z) :=
  i ← rs_svc_index rs s;
  if 0 <=? i then
    x ← array_get (sv_rss s) (sv_cnt s);
    l ← array_put (sv_rss s) i x;
    c ← array_get (sv_contexts s) (sv_cnt s);
    cs ← array_put (sv_contexts s) i c;
    Ok (mkSvc (sv_cnt s - 1) l cs, 0)
  else Ok (s, EBADF).

(** ** Requests *)

(** [*active]: the bit [RS_OPT_SVC_ACTIVE] of the socket of the request, of which [time] is
    the [keepalive_time]; [now]: [rs_get_time]. *)
Definition tcp_svc_process_sock (mem : bool) (now : Z) (cmd : svc_cmd) (rs time : Z) (active : bool) (s : rs_svc)
  : res (rs_svc * bool * Z) :=
  match cmd with
  | RS_SVC_ADD_KEEPALIVE =>
      '(s, status) ← rs_svc_add_rs mem rs s;
      if status =? 0 then
        c ← array_put (sv_contexts s) (sv_cnt s) (u32 (now + time));
        Ok (mkSvc (sv_cnt s) (sv_rss s) c, true, 0)
      else Ok (s, active, status)
  | RS_SVC_REM_KEEPALIVE =>
      '(s, status) ← rs_svc_rm_rs rs s;
      Ok (s, if status =? 0 then false else active, status)
  | RS_SVC_MOD_KEEPALIVE =>
      i ← rs_svc_index rs s;
      if 0 <=? i then
        c ← array_put (sv_contexts s) i (u32 (now + time));
        Ok (mkSvc (sv_cnt s) (sv_rss s) c, active, 0)
      else Ok (s, active, EBADF)
  | RS_SVC_NOOP => Ok (s, active, 0)
  end.

(** What the system answers to a request: the results of [socketpair], with its error, and
    of [pthread_create], memory for the first and for later entries, and the time. *)
Record svc_env : Type := mkSvcEnv {
  v_pair : Z * Z; v_thread : Z; v_mem16 : bool; v_mem4 : bool; v_now : Z }.

(** The result with [errno] when it is not 0. *)
Definition status_errno (status : Z) : Z * option Z := if status =? 0 then (0, None) else (-1, Some status).

(** A service without sockets has no thread: one is started, and ends with the request if
    the table is empty behind it. *)
Definition rs_notify_svc (v : svc_env) (cmd : svc_cmd) (rs time : Z) (active : bool) (s : rs_svc)
  : res (rs_svc * bool * (Z * option Z)) :=
  if (sv_cnt s =? 0) && negb ((v_pair v).1 =? 0) then Ok (s, active, ((v_pair v).1, Some (v_pair v).2))
  else if (sv_cnt s =? 0) && negb (v_thread v =? 0) then Ok (s, active, (-1, Some (v_thread v)))
  else
    let '(s, ret) := if sv_cnt s =? 0 then rs_svc_grow_sets (v_mem16 v) 16 s else (s, 0) in
    if negb (ret =? 0) then Ok (s, active, status_errno ret) else
    '(s, active, status) ← tcp_svc_process_sock (v_mem4 v) (v_now v) cmd rs time active s;
    Ok (s, active, status_errno status).

(** ** The round of the thread *)

Section Keepalive.
Context {D : Type} (dv : rs_dev D).

Definition tcp_svc_send_keepalive (t : rst D) : rst D :=
  if rs_ctrl_avail t && has (rs_state (rs_c (t_rs t))) rs_connected
  then (rs_post_write dv [] (rs_msg_set RS_OP_CTRL RS_CTRL_KEEPALIVE) 0 0 0 (incr_ctrl t)).1 else t.

(** A socket of the service with its [keepalive_time]. *)
Record ksock : Type := mkKsock { k_t : rst D; k_time : Z }.

(** The loop over the entries; [next]: the least time so far. *)
Fixpoint svc_loop (k : nat) (i now next : Z) (socks : gmap Z ksock) (s : rs_svc) : res (gmap Z ksock * rs_svc * Z) :=
  match k with
  | O => Ok (socks, s, next)
  | S k' =>
      to ← array_get (sv_contexts s) i;
      '(socks, s) ← (if to <=? now then
                       a ← array_get (sv_rss s) i;
                       match socks !! a with
                       | None => Ub
                       | Some x =>
                           c ← array_put (sv_contexts s) i (u32 (now + k_time x));
                           Ok (<[a := mkKsock (tcp_svc_send_keepalive (k_t x)) (k_time x)]> socks,
                               mkSvc (sv_cnt s) (sv_rss s) c)
                       end
                     else Ok (socks, s));
      to ← array_get (sv_contexts s) i;
      svc_loop k' (i + 1) now (if to <? next then to else next) socks s
  end.

(** The sockets, the table and the seconds to the next round. *)
Definition svc_round (now : Z) (socks : gmap Z ksock) (s : rs_svc) : res (gmap Z ksock * rs_svc * Z) :=
  '(socks, s, next) ← svc_loop (Z.to_nat (sv_cnt s)) 1 now (2 ^ 32 - 1) socks s;
  Ok (socks, s, s32 (u32 (next - now))).

End Keepalive.
Arguments mkKsock {D}.
Arguments k_t {D}.
Arguments k_time {D}.

(** ** Arrays and entries *)

(** The table [s] has the entries [l], from index 1. *)
Record shape (s : rs_svc) (l : list (Z * Z)) : Prop := {
  h_cnt : sv_cnt s = Z.of_nat (length l);
  h_len : length (sv_contexts s) = length (sv_rss s);
  h_room : l <> [] -> (length l < length (sv_rss s))%nat;
  h_entry : forall i p, l !! i = Some p -> sv_rss s !! S i = Some p.1 /\ sv_contexts s !! S i = Some p.2 }.

Definition holds (s : rs_svc) (m : gmap Z Z) : Prop := exists l, shape s l /\ NoDup l.*1 /\ m = list_to_map l.

Lemma new_svc_holds : holds new_svc ∅.
Proof. exists []. split; [split; done|]. split; [constructor|done]. Qed.

Lemma array_get_ok {A} (l : list A) i x : l !! i = Some x -> array_get l (Z.of_nat i) = Ok x.
Proof. intros H. unfold array_get. destruct (Z.ltb_spec (Z.of_nat i) 0); [lia|]. by rewrite Nat2Z.id, H. Qed.

Lemma array_put_ok {A} (l : list A) i x : (i < length l)%nat -> array_put l (Z.of_nat i) x = Ok (<[i := x]> l).
Proof.
  intros H. unfold array_put. destruct (Z.leb_spec 0 (Z.of_nat i)); [|lia].
  destruct (Z.ltb_spec (Z.of_nat i) (Z.of_nat (length l))); [|lia]. by rewrite Nat2Z.id.
Qed.

Lemma grown_length cnt size l : 0 <= cnt -> (cnt = 0 \/ cnt + 1 <= size) -> 0 <= size -> length (grown cnt size l) = Z.to_nat size.
Proof.
  intros H0 H1 H2. unfold grown. rewrite length_app, length_replicate. destruct (Z.eqb_spec cnt 0); simpl; [lia|].
  rewrite length_take. lia.
Qed.

Lemma grown_lookup n size l i x : (0 < n)%nat -> (i <= n)%nat -> l !! i = Some x -> grown (Z.of_nat n) size l !! i = Some x.
Proof.
  intros Hn Hi Hl. unfold grown. destruct (Z.eqb_spec (Z.of_nat n) 0); [lia|]. apply lookup_app_l_Some.
  rewrite lookup_take_Some. split; [done|lia].
Qed.

Lemma grow_shape g s l : 0 < g -> shape s l -> exists s', rs_svc_grow_sets true g s = (s', 0) /\ shape s' l /\
  length (sv_rss s') = Z.to_nat (sv_size s + g).
Proof.
  intros Hg [Hc Hl Hr He]. eexists. split; [reflexivity|]. unfold sv_size in *. cbn.
  assert (Hz : length l = 0%nat \/ (length l < length (sv_rss s))%nat).
  { destruct l as [|q l]; [by left|right]. by apply Hr. }
  assert (Hlen : length (grown (sv_cnt s) (Z.of_nat (length (sv_rss s)) + g) (sv_rss s)) = Z.to_nat (Z.of_nat (length (sv_rss s)) + g))
    by (apply grown_length; lia).
  split; [|done]. split; cbn; rewrite ?Hlen; [done| |lia|].
  - rewrite grown_length by lia. done.
  - intros i p Hi. pose proof (lookup_lt_Some _ _ _ Hi). destruct (He i p Hi) as [H1 H2]. rewrite Hc.
    split; apply grown_lookup; (done || lia).
Qed.

(** ** Looking for a socket *)

Lemma index_loop_ok rs (l : list (Z * Z)) : forall k i arr, (k + i = length l)%nat ->
  (forall j p, l !! j = Some p -> arr !! S j = Some p.1) ->
  (forall j p, (j < i)%nat -> l !! j = Some p -> p.1 <> rs) ->
  exists r, index_loop k (Z.of_nat (S i)) rs arr = Ok r /\
    ((exists j p, r = Z.of_nat (S j) /\ l !! j = Some p /\ p.1 = rs) \/ r = -1 /\ rs ∉ l.*1).
Proof.
  induction k as [|k IH]; intros i arr Hk Harr Hbefore; simpl.
  - exists (-1). split; [done|]. right. split; [done|]. intros (p & -> & (j & Hj)%list_elem_of_lookup)%list_elem_of_fmap.
    pose proof (lookup_lt_Some _ _ _ Hj). by apply (Hbefore j p); [lia| |].
  - destruct (lookup_lt_is_Some_2 l i) as [p Hp]; [lia|]. rewrite (array_get_ok _ (S i) p.1) by by apply Harr.
    cbn [mbind res_bind]. destruct (Z.eqb_spec p.1 rs) as [He|He]; [by exists (Z.of_nat (S i)); split; [|left; exists i, p]|].
    replace (Z.of_nat (S i) + 1) with (Z.of_nat (S (S i))) by lia. apply (IH (S i) arr); [lia|done|].
    intros j q Hj Hq. destruct (decide (j = i)) as [->|]; [by simplify_eq|]. by apply (Hbefore j q); [lia|].
Qed.

Lemma svc_index_ok rs s l : shape s l -> exists r, rs_svc_index rs s = Ok r /\
  ((exists j p, r = Z.of_nat (S j) /\ l !! j = Some p /\ p.1 = rs) \/ r = -1 /\ rs ∉ l.*1).
Proof.
  intros [Hc _ _ He]. unfold rs_svc_index. rewrite Hc, Nat2Z.id. apply (index_loop_ok rs l _ 0); [lia| |lia].
  intros j p Hj. by apply He.
Qed.

(** ** Requests *)

(** Storing at the end, and the time of an entry. *)
Lemma add_shape mem rs s l : shape s l -> sv_rss s <> [] ->
  exists s' r, rs_svc_add_rs mem rs s = Ok (s', r) /\
    (r <> 0 /\ s' = s /\ mem = false \/
     r = 0 /\ forall t, exists c, array_put (sv_contexts s') (sv_cnt s') t = Ok c /\
       shape (mkSvc (sv_cnt s') (sv_rss s') c) (l ++ [(rs, t)])).
Proof.
  intros Hs Hne. unfold rs_svc_add_rs.
  assert (Hg : exists s1 r, (if sv_size s - 1 <=? sv_cnt s then rs_svc_grow_sets mem 4 s else (s, 0)) = (s1, r) /\
    (r <> 0 /\ s1 = s /\ mem = false \/ r = 0 /\ shape s1 l /\ (S (length l) < length (sv_rss s1))%nat)).
  { destruct (Z.leb_spec (sv_size s - 1) (sv_cnt s)) as [Hle|Hle].
    - destruct mem; [|eexists _, _; split; [reflexivity|by left]].
      destruct (grow_shape 4 s l) as (s1 & E1 & Hs1 & Hl1); [lia|done|]. exists s1, 0. split; [done|]. right.
      split; [done|]. split; [done|]. rewrite Hl1. unfold sv_size. destruct Hs as [Hc _ Hr _].
      assert (length (sv_rss s) <> 0)%nat by (by destruct (sv_rss s)). destruct l as [|q l]; [simpl; lia|].
      specialize (Hr ltac:(done)). lia.
    - exists s, 0. split; [done|]. right. split; [done|]. split; [done|]. unfold sv_size in Hle. destruct Hs as [Hc _ _ _]. lia. }
  destruct Hg as (s1 & r & E1 & Hr). rewrite E1. destruct Hr as [(Hr & -> & Hm)|(-> & [Hc Hl _ He] & Hroom)].
  { apply Z.eqb_neq in Hr as Hb. rewrite Hb. cbn [negb]. exists s, r. split; [done|by left]. }
  cbn [Z.eqb negb]. rewrite Hc. replace (Z.of_nat (length l) + 1) with (Z.of_nat (S (length l))) by lia.
  rewrite array_put_ok by done. cbn [mbind res_bind]. eexists _, 0. split; [reflexivity|]. right. split; [done|].
  intros t. cbn [sv_contexts sv_cnt sv_rss]. rewrite array_put_ok by lia. eexists. split; [reflexivity|].
  split; cbn; rewrite ?length_insert, ?length_app; simpl; [lia|lia|lia|].
  intros i p Hi. apply lookup_app_Some in Hi as [Hi|[Hi1 Hi2]].
  - pose proof (lookup_lt_Some _ _ _ Hi). rewrite !list_lookup_insert_ne by lia. by apply He.
  - apply list_lookup_singleton_Some in Hi2 as [Hi2 <-]. assert (i = length l) as -> by lia.
    by rewrite !list_lookup_insert_eq by lia.
Qed.

(** The last entry takes the place of the one that goes. *)
Definition moved_up (j : nat) (l : list (Z * Z)) : list (Z * Z) :=
  match last l with Some z => take (pred (length l)) (<[j := z]> l) | None => [] end.

Lemma moved_up_perm j p l : l !! j = Some p -> l ≡ₚ p :: moved_up j l.
Proof.
  intros Hj. destruct l as [|z l _] using rev_ind; [done|]. unfold moved_up. rewrite last_snoc, length_app. simpl.
  replace (pred (length l + 1)) with (length l) by lia. destruct (decide (j = length l)) as [->|Hne].
  - rewrite lookup_app_r, Nat.sub_diag in Hj by lia. injection Hj as ->.
    rewrite insert_app_r_alt, take_app_length' by (by rewrite ?Nat.sub_diag). by rewrite Permutation_app_comm.
  - pose proof (lookup_lt_Some _ _ _ Hj) as Hl. rewrite length_app in Hl. simpl in Hl. rewrite lookup_app_l in Hj by lia.
    rewrite insert_app_l, take_app_length' by (rewrite ?length_insert; lia).
    rewrite insert_take_drop by lia. rewrite <- (take_drop_middle l j p Hj) at 1.
    rewrite Permutation_middle. rewrite <- app_assoc. cbn. rewrite (Permutation_app_comm (drop (S j) l)). cbn.
    rewrite <- Permutation_middle. f_equiv.
Qed.

Lemma moved_up_length j p l : l !! j = Some p -> length (moved_up j l) = pred (length l).
Proof. intros H%moved_up_perm%Permutation_length. simpl in H. lia. Qed.

Lemma rm_shape rs s l j p : shape s l -> rs_svc_index rs s = Ok (Z.of_nat (S j)) -> l !! j = Some p ->
  exists s', rs_svc_rm_rs rs s = Ok (s', 0) /\ shape s' (moved_up j l).
Proof.
  intros [Hc Hl Hr He] Hi Hj. unfold rs_svc_rm_rs. rewrite Hi. cbn [mbind res_bind].
  pose proof (lookup_lt_Some _ _ _ Hj) as Hjl. pose proof (Hr ltac:(by destruct l)) as Hroom.
  destruct (last l) as [z|] eqn:Hz; [|by apply last_None in Hz as ->].
  assert (Hlast : l !! pred (length l) = Some z) by (by rewrite <- last_lookup).
  destruct (He _ _ Hlast) as [H1 H2]. replace (S (pred (length l))) with (length l) in * by lia.
  destruct (Z.leb_spec 0 (Z.of_nat (S j))); [|lia]. rewrite Hc. rewrite (array_get_ok _ _ _ H1). cbn [mbind res_bind].
  rewrite array_put_ok by lia. cbn [mbind res_bind]. rewrite (array_get_ok _ _ _ H2). cbn [mbind res_bind].
  rewrite array_put_ok by lia. cbn [mbind res_bind]. eexists. split; [reflexivity|].
  pose proof (moved_up_length _ _ _ Hj) as Hm. split; cbn; rewrite ?length_insert, ?Hm; [lia|lia|lia|].
  intros i q Hq. unfold moved_up in Hq. rewrite Hz in Hq. apply lookup_take_Some in Hq as [Hq Hil].
  destruct (decide (i = j)) as [->|Hne].
  - rewrite list_lookup_insert_eq in Hq by lia. injection Hq as <-. by rewrite !list_lookup_insert_eq by lia.
  - rewrite list_lookup_insert_ne in Hq by done. rewrite !list_lookup_insert_ne by lia. by apply He.
Qed.

Lemma mod_shape s l j p t : shape s l -> l !! j = Some p ->
  exists c, array_put (sv_contexts s) (Z.of_nat (S j)) t = Ok c /\
    shape (mkSvc (sv_cnt s) (sv_rss s) c) (<[j := (p.1, t)]> l).
Proof.
  intros [Hc Hl Hr He] Hj. pose proof (lookup_lt_Some _ _ _ Hj) as Hjl. pose proof (Hr ltac:(by destruct l)) as Hroom.
  rewrite array_put_ok by lia. eexists. split; [reflexivity|]. split; cbn; rewrite ?length_insert; [done|done|lia|].
  intros i q Hq. destruct (decide (i = j)) as [->|Hne].
  - rewrite list_lookup_insert_eq in Hq by lia. injection Hq as <-. split; [exact (proj1 (He j p Hj))|].
    by rewrite list_lookup_insert_eq by lia.
  - rewrite list_lookup_insert_ne in Hq by done. rewrite list_lookup_insert_ne by lia. by apply He.
Qed.

Lemma list_to_map_update (l : list (Z * Z)) j p t : NoDup l.*1 -> l !! j = Some p ->
  <[p.1 := t]> (list_to_map l : gmap Z Z) = list_to_map (<[j := (p.1, t)]> l).
Proof.
  intros Hnd Hj. pose proof (lookup_lt_Some _ _ _ Hj) as Hjl. rewrite insert_take_drop by done.
  assert (Hp : l ≡ₚ p :: take j l ++ drop (S j) l) by (rewrite <- (take_drop_middle l j p Hj) at 1; by rewrite Permutation_middle).
  assert (Hnd2 : NoDup ((p :: take j l ++ drop (S j) l).*1)) by (by rewrite <- Hp).
  rewrite (list_to_map_proper l _ Hnd Hp). cbn. rewrite insert_insert_eq.
  change (<[p.1 := t]> (list_to_map (take j l ++ drop (S j) l) : gmap Z Z))
    with (list_to_map ((p.1, t) :: take j l ++ drop (S j) l) : gmap Z Z).
  apply list_to_map_proper; [exact Hnd2|]. by rewrite Permutation_middle.
Qed.

(** *** The specification: a map, and the status of a request *)

Definition svc_spec (cmd : svc_cmd) (rs t : Z) (m : gmap Z Z) : gmap Z Z * Z :=
  match cmd with
  | RS_SVC_ADD_KEEPALIVE => (<[rs := t]> m, 0)
  | RS_SVC_REM_KEEPALIVE => if m !! rs is Some _ then (delete rs m, 0) else (m, EBADF)
  | RS_SVC_MOD_KEEPALIVE => if m !! rs is Some _ then (<[rs := t]> m, 0) else (m, EBADF)
  | RS_SVC_NOOP => (m, 0)
  end.

(** Whether the socket has keep-alive messages behind the request. *)
Definition active_spec (cmd : svc_cmd) (status : Z) (active : bool) : bool :=
  match cmd with
  | RS_SVC_ADD_KEEPALIVE => (status =? 0) || active
  | RS_SVC_REM_KEEPALIVE => negb (status =? 0) && active
  | _ => active
  end.

Lemma process_refines mem now cmd rs time active s m : holds s m -> sv_rss s <> [] ->
  (cmd = RS_SVC_ADD_KEEPALIVE -> m !! rs = None) ->
  exists s' act r, tcp_svc_process_sock mem now cmd rs time active s = Ok (s', act, r) /\
    (holds s' (svc_spec cmd rs (u32 (now + time)) m).1 /\ r = (svc_spec cmd rs (u32 (now + time)) m).2 /\ act = active_spec cmd r active \/
     holds s' m /\ r <> 0 /\ act = active /\ mem = false).
Proof.
  intros (l & Hs & Hnd & ->) Hne Hadd. destruct cmd; cbn [tcp_svc_process_sock svc_spec active_spec].
  - eexists _, _, _. split; [reflexivity|]. left. split; [by exists l|done].
  - specialize (Hadd eq_refl). destruct (add_shape mem rs s l Hs Hne) as (s1 & r & E1 & Hr). rewrite E1. cbn [mbind res_bind].
    destruct Hr as [(Hr & -> & Hm)|[-> Hput]].
    + apply Z.eqb_neq in Hr as Hb. rewrite Hb. eexists _, _, _. split; [reflexivity|]. right. split; [by exists l|done].
    + destruct (Hput (u32 (now + time))) as (c & Ec & Hs1). cbn [Z.eqb]. rewrite Ec. cbn [mbind res_bind].
      eexists _, _, _. split; [reflexivity|]. left. split; [|done]. exists (l ++ [(rs, u32 (now + time))]). split; [done|].
      apply not_elem_of_list_to_map in Hadd. rewrite fmap_app. split.
      * apply NoDup_app. split; [done|]. split; [|apply NoDup_singleton]. intros z Hz ->%list_elem_of_singleton. done.
      * rewrite list_to_map_snoc; done.
  - destruct (svc_index_ok rs s l Hs) as (r & Ei & [(j & p & -> & Hj & <-)|[-> Hn]]).
    + destruct (rm_shape p.1 s l j p Hs Ei Hj) as (s1 & E1 & Hs1). rewrite E1. cbn [mbind res_bind].
      pose proof (moved_up_perm j p l Hj) as Hp.
      assert (Hnd2 : NoDup ((p :: moved_up j l).*1)) by (by rewrite <- Hp).
      assert (Hm : list_to_map l = <[p.1 := p.2]> (list_to_map (moved_up j l) : gmap Z Z)).
      { rewrite <- list_to_map_cons. destruct p. by apply list_to_map_proper. }
      cbn in Hnd2. apply NoDup_cons in Hnd2 as [Hpn Hnd2].
      rewrite Hm, lookup_insert_eq. eexists _, _, _. split; [reflexivity|]. left. split; [|done].
      exists (moved_up j l). split; [done|]. split; [done|]. cbn. rewrite delete_insert_id; [done|].
      by apply not_elem_of_list_to_map.
    + unfold rs_svc_rm_rs. rewrite Ei. cbn [mbind res_bind Z.leb]. eexists _, _, _. split; [reflexivity|].
      apply not_elem_of_list_to_map in Hn as ->. left. split; [|done]. by exists l.
  - destruct (svc_index_ok rs s l Hs) as (r & Ei & [(j & p & -> & Hj & <-)|[-> Hn]]); rewrite Ei; cbn [mbind res_bind].
    + destruct (mod_shape s l j p (u32 (now + time)) Hs Hj) as (c & Ec & Hs1).
      destruct (Z.leb_spec 0 (Z.of_nat (S j))); [|lia]. rewrite Ec. cbn [mbind res_bind].
      assert (Hin : (list_to_map l : gmap Z Z) !! p.1 = Some p.2).
      { apply elem_of_list_to_map; [done|]. apply list_elem_of_lookup. exists j. by destruct p. }
      rewrite Hin. eexists _, _, _. split; [reflexivity|]. left. split; [|done]. eexists. split; [exact Hs1|].
      rewrite list_fmap_insert. cbn. rewrite list_insert_id by (by rewrite list_lookup_fmap, Hj). split; [done|].
      by apply list_to_map_update.
    + eexists _, _, _. split; [reflexivity|]. apply not_elem_of_list_to_map in Hn as ->. left. split; [|done]. by exists l.
Qed.

(** The system gives what a request needs. *)
Definition grants (v : svc_env) : Prop := (v_pair v).1 = 0 /\ v_thread v = 0 /\ v_mem16 v = true /\ v_mem4 v = true.

(** C21: a request to the service of keep-alive messages is carried out on the table as on a
    map from sockets to times, without an access outside of its arrays; the answer is the
    map's; only when the system refuses memory, a thread or a pair of sockets the request
    fails, and then the table has the same sockets as before. *)
Theorem keepalive_requests_refine_map v cmd rs time active s m : holds s m -> (cmd = RS_SVC_ADD_KEEPALIVE -> m !! rs = None) ->
  exists s' act r, rs_notify_svc v cmd rs time active s = Ok (s', act, r) /\
    (holds s' (svc_spec cmd rs (u32 (v_now v + time)) m).1 /\
     r = status_errno (svc_spec cmd rs (u32 (v_now v + time)) m).2 /\
     act = active_spec cmd (svc_spec cmd rs (u32 (v_now v + time)) m).2 active \/
     holds s' m /\ r.1 <> 0 /\ act = active /\ ~ grants v).
Proof.
  intros Hm Hadd. unfold rs_notify_svc, grants.
  destruct ((sv_cnt s =? 0) && negb ((v_pair v).1 =? 0)) eqn:E1.
  { apply andb_prop in E1 as [_ E1%negb_true_iff%Z.eqb_neq]. eexists _, _, _. split; [reflexivity|]. right. naive_solver. }
  destruct ((sv_cnt s =? 0) && negb (v_thread v =? 0)) eqn:E2.
  { apply andb_prop in E2 as [_ E2%negb_true_iff%Z.eqb_neq]. eexists _, _, _. split; [reflexivity|]. right. naive_solver. }
  assert (Hg : exists s1 r, (if sv_cnt s =? 0 then rs_svc_grow_sets (v_mem16 v) 16 s else (s, 0)) = (s1, r) /\ holds s1 m /\
    (r = ENOMEM /\ v_mem16 v = false \/ r = 0 /\ sv_rss s1 <> [])).
  { destruct Hm as (l & Hs & Hnd & ->). destruct (Z.eqb_spec (sv_cnt s) 0) as [H0|H0].
    - destruct (v_mem16 v); [|eexists _, _; split; [reflexivity|]; split; [by exists l|by left]].
      destruct (grow_shape 16 s l) as (s1 & Eg & Hs1 & Hl1); [lia|done|]. exists s1, 0. split; [done|]. split; [by exists l|].
      right. split; [done|]. intros Hnil. rewrite Hnil in Hl1. unfold sv_size in Hl1. simpl in Hl1. lia.
    - exists s, 0. split; [done|]. split; [by exists l|]. right. split; [done|]. intros Hnil. destruct Hs as [Hc _ Hr _].
      rewrite Hnil in Hr. destruct l; [simpl in Hc; lia|]. specialize (Hr ltac:(done)). simpl in Hr. lia. }
  destruct Hg as (s1 & r & -> & Hm1 & [[-> Hmem]|[-> Hne]]).
  { eexists _, _, _. split; [reflexivity|]. right. repeat split; try done. intros (_ & _ & H & _). congruence. }
  cbn [Z.eqb negb]. destruct (process_refines (v_mem4 v) (v_now v) cmd rs time active s1 m Hm1 Hne Hadd) as (s2 & act & r & -> & Hr).
  cbn [mbind res_bind]. eexists _, _, _. split; [reflexivity|]. destruct Hr as [(H1 & -> & ->)|(H1 & H2 & -> & H3)]; [by left|right].
  split; [done|]. unfold status_errno. apply Z.eqb_neq in H2. rewrite H2. split; [done|]. split; [done|]. intros (_ & _ & _ & H). congruence.
Qed.

Definition all_granted : svc_env := mkSvcEnv (0, 0) 0 true true 1000.

Lemma keepalive_requests_refine_map_witness : exists s' act r,
  rs_notify_svc all_granted RS_SVC_ADD_KEEPALIVE 4096 7200 false new_svc = Ok (s', act, r) /\
  (holds s' {[4096 := 8200]} /\ r = (0, None) /\ act = true \/ holds s' ∅ /\ r.1 <> 0 /\ act = false /\ ~ grants all_granted).
Proof.
  apply (keepalive_requests_refine_map all_granted RS_SVC_ADD_KEEPALIVE 4096 7200 false new_svc ∅); [apply new_svc_holds|done].
Defined.

(** ** A round of the thread *)

Section Round.
Context {D : Type} (dv : rs_dev D) (now : Z) (tm : Z -> Z).
Implicit Types socks : gmap Z (ksock (D := D)).

Definition due (to : Z) : bool := to <=? now.
Definition next_time (p : Z * Z) : Z * Z := (p.1, if due p.2 then u32 (now + tm p.1) else p.2).
Definition alive (x : ksock (D := D)) : ksock := mkKsock (tcp_svc_send_keepalive dv (k_t x)) (k_time x).
Definition fired (p : Z * Z) socks : gmap Z ksock := if due p.2 then alter alive p.1 socks else socks.
Definition least (n to : Z) : Z := if to <? n then to else n.

(** All sockets of the table exist, with their times. *)
Definition known (l : list (Z * Z)) socks : Prop := forall a, a ∈ l.*1 -> exists x, socks !! a = Some x /\ k_time x = tm a.

Lemma known_fired p l socks : known l socks -> known l (fired p socks).
Proof.
  intros Hk a Ha. destruct (Hk a Ha) as (x & Hx & Ht). unfold fired. destruct (due p.2); [|by exists x].
  destruct (decide (a = p.1)) as [->|]; [|exists x; by rewrite lookup_alter_ne]. exists (alive x). by rewrite lookup_alter_eq, Hx.
Qed.

Lemma svc_step_ok i p l socks s : shape s l -> l !! i = Some p -> known l socks ->
  exists s', (if p.2 <=? now then
       a ← array_get (sv_rss s) (Z.of_nat (S i));
       match socks !! a with
       | None => Ub
       | Some x =>
           c ← array_put (sv_contexts s) (Z.of_nat (S i)) (u32 (now + k_time x));
           Ok (<[a := mkKsock (tcp_svc_send_keepalive dv (k_t x)) (k_time x)]> socks, mkSvc (sv_cnt s) (sv_rss s) c)
       end
     else Ok (socks, s)) = Ok (fired p socks, s') /\ shape s' (<[i := next_time p]> l) /\ sv_cnt s' = sv_cnt s.
Proof.
  intros Hs Hi Hk. unfold fired, next_time, due. destruct (p.2 <=? now) eqn:Ed.
  - destruct (h_entry _ _ Hs _ _ Hi) as [H1 _]. rewrite (array_get_ok _ _ _ H1). cbn [mbind res_bind].
    destruct (Hk p.1) as (x & Hx & Ht); [apply list_elem_of_fmap; exists p; split; [done|by eapply list_elem_of_lookup_2]|].
    rewrite Hx. destruct (mod_shape s l i p (u32 (now + k_time x)) Hs Hi) as (c & Ec & Hs1). rewrite Ec. cbn [mbind res_bind].
    eexists. split; [f_equal; f_equal|by rewrite <- Ht]. apply map_eq. intros a. destruct (decide (a = p.1)) as [->|].
    + by rewrite lookup_insert_eq, lookup_alter_eq, Hx.
    + by rewrite lookup_insert_ne, lookup_alter_ne.
  - exists s. split; [done|]. destruct p as [a t]. by rewrite list_insert_id.
Qed.

Lemma svc_loop_ok k : forall i l socks s next, shape s l -> known l socks -> (k + i = length l)%nat ->
  exists s', svc_loop dv k (Z.of_nat (S i)) now next socks s
    = Ok (foldl (fun m p => fired p m) socks (drop i l), s', foldl least next (map next_time (drop i l)).*2) /\
    shape s' (take i l ++ map next_time (drop i l)) /\ sv_cnt s' = sv_cnt s.
Proof.
  induction k as [|k IH]; intros i l socks s next Hs Hk Hl.
  - rewrite drop_ge by lia. rewrite take_ge by lia. exists s. cbn. rewrite app_nil_r. done.
  - destruct (lookup_lt_is_Some_2 l i) as [p Hp]; [lia|]. pose proof (lookup_lt_Some _ _ _ Hp) as Hil. cbn [svc_loop].
    destruct (h_entry _ _ Hs _ _ Hp) as [_ H2]. rewrite (array_get_ok _ _ _ H2). cbn [mbind res_bind].
    destruct (svc_step_ok i p l socks s Hs Hp Hk) as (s1 & E1 & Hs1 & Hc1). rewrite E1. cbn [mbind res_bind].
    assert (Hp1 : <[i := next_time p]> l !! i = Some (next_time p)) by by apply list_lookup_insert_eq.
    destruct (h_entry _ _ Hs1 _ _ Hp1) as [_ H3]. rewrite (array_get_ok _ _ _ H3). cbn [mbind res_bind].
    replace (Z.of_nat (S i) + 1) with (Z.of_nat (S (S i))) by lia.
    destruct (IH (S i) (<[i := next_time p]> l) (fired p socks) s1 (least next (next_time p).2) Hs1) as (s2 & E2 & Hs2 & Hc2).
    + apply known_fired. intros a. rewrite list_fmap_insert. cbn. rewrite list_insert_id by (by rewrite list_lookup_fmap, Hp). apply Hk.
    + rewrite length_insert. lia.
    + exists s2. rewrite (drop_insert_lt l (S i) i) in * by lia. rewrite (drop_S l p i Hp). cbn. split; [exact E2|].
      split; [|by rewrite Hc2]. rewrite (take_S_r (<[i := next_time p]> l) i (next_time p)) in Hs2 by done.
      rewrite take_insert_ge in Hs2 by lia. rewrite <- app_assoc in Hs2. exact Hs2.
Qed.

Lemma fired_lookup l : forall socks a, NoDup l.*1 ->
  foldl (fun m p => fired p m) socks l !! a
  = match (list_to_map l : gmap Z Z) !! a with
    | Some to => if due to then alive <$> socks !! a else socks !! a
    | None => socks !! a
    end.
Proof.
  induction l as [|[b to] l IH]; intros socks a Hnd; [done|]. cbn in Hnd. apply NoDup_cons in Hnd as [Hb Hnd]. cbn [foldl].
  rewrite IH by done. cbn [list_to_map foldr]. cbn. apply not_elem_of_list_to_map in Hb. destruct (decide (a = b)) as [->|Hne].
  - rewrite lookup_insert_eq, Hb. unfold fired. cbn. destruct (due to); [by rewrite lookup_alter_eq|done].
  - rewrite lookup_insert_ne by done. assert (Hf : fired (b, to) socks !! a = socks !! a).
    { unfold fired. destruct (due _); [|done]. by rewrite lookup_alter_ne. }
    by rewrite Hf.
Qed.

(** The map behind the round. *)
Definition next_times (m : gmap Z Z) : gmap Z Z := map_imap (fun a to => Some (next_time (a, to)).2) m.

Lemma next_map l : list_to_map (map next_time l) = next_times (list_to_map l).
Proof.
  induction l as [|[a to] l IH]; cbn; unfold next_times in *; [by rewrite map_imap_empty|].
  rewrite map_imap_insert. cbn. f_equal. exact IH.
Qed.

Lemma least_bound l : forall n, foldl least n l <= n /\ Forall (fun to => foldl least n l <= to) l.
Proof.
  induction l as [|to l IH]; intros n; [split; [done|constructor]|]. cbn [foldl]. destruct (IH (least n to)) as [H1 H2].
  assert (least n to <= n /\ least n to <= to) by (unfold least; destruct (Z.ltb_spec to n); lia).
  split; [lia|]. constructor; [lia|done].
Qed.

(** a round of the thread sends one keep-alive message to every socket whose time has
    come and none to the others, sets the next times of those, and sleeps until the least
    of all times; it reads and writes no entry outside of the arrays. *)
Theorem keepalive_round s m socks : holds s m -> (forall a, a ∈ dom m -> exists x, socks !! a = Some x /\ k_time x = tm a) ->
  exists socks' s' next, svc_round dv now socks s = Ok (socks', s', s32 (u32 (next - now))) /\
    holds s' (next_times m) /\
    (forall a, socks' !! a = match m !! a with
                            | Some to => if due to then alive <$> socks !! a else socks !! a
                            | None => socks !! a
                            end) /\
    (forall a to, next_times m !! a = Some to -> next <= to) /\ next <= 2 ^ 32 - 1.
Proof.
  intros (l & Hs & Hnd & ->) Hk. assert (Hk' : known l socks).
  { intros a Ha. apply Hk. rewrite dom_list_to_map_L. by apply elem_of_list_to_set. }
  destruct (svc_loop_ok (length l) 0 l socks s (2 ^ 32 - 1) Hs Hk') as (s' & E & Hs' & _); [lia|].
  assert (Hnd' : NoDup (map next_time l).*1).
  { replace ((map next_time l).*1) with l.*1; [done|]. clear. induction l as [|[] l IH]; [done|]. cbn. by rewrite IH. }
  pose proof (least_bound (map next_time l).*2 (2 ^ 32 - 1)) as [Hb1 Hb2]. cbn [take drop app] in *.
  eexists _, s', _. split; [unfold svc_round; rewrite (h_cnt _ _ Hs), Nat2Z.id; change 1 with (Z.of_nat 1) at 1; rewrite E; reflexivity|]. split; [|split; [|split]].
  - exists (map next_time l). split; [done|]. split; [done|]. symmetry. apply next_map.
  - intros a. by apply fired_lookup.
  - intros a to Ha. rewrite <- next_map in Ha. apply elem_of_list_to_map in Ha; [|done].
    rewrite Forall_forall in Hb2. apply Hb2, list_elem_of_fmap. by exists (a, to).
  - done.
Qed.

End Round.

(** A socket at 4096 whose message is due, and one at 8192 with time left. *)
Definition two_socks : gmap Z (ksock (D := port)) :=
  let t := mkRst (rs_alloc builtin_defs None) (fun _ => 0) (mkPort [] [] [] [] 4) 0 in
  <[4096 := mkKsock (upd_c (set_state rs_connect_rdwr) t) 60]> {[8192 := mkKsock t 60]}.
Definition two_entries : rs_svc := mkSvc 2 [0; 4096; 8192; 0] [0; 900; 2000; 0].

Lemma two_entries_hold : holds two_entries {[4096 := 900; 8192 := 2000]}.
Proof.
  exists [(4096, 900); (8192, 2000)]. split; [|split].
  - split; [done|done|simpl; lia|]. intros [|[|i]] p Hp; cbn in Hp; by simplify_eq.
  - apply NoDup_cons. split; [|apply NoDup_singleton]. cbn. intros ?%list_elem_of_singleton. lia.
  - vm_compute. reflexivity.
Qed.

Lemma keepalive_round_witness : exists socks' s' next,
  svc_round port_dev 1000 two_socks two_entries = Ok (socks', s', s32 (u32 (next - 1000))) /\
  holds s' (next_times 1000 (fun _ => 60) {[4096 := 900; 8192 := 2000]}) /\
  socks' !! 4096 = alive port_dev <$> two_socks !! 4096.
Proof.
  destruct (keepalive_round port_dev 1000 (fun _ => 60) two_entries {[4096 := 900; 8192 := 2000]} two_socks) as (s1 & s2 & n & E & Hh & Hl & _).
  - apply two_entries_hold.
  - intros a Ha. rewrite dom_insert_L, dom_singleton_L in Ha. apply elem_of_union in Ha as [->%elem_of_singleton| ->%elem_of_singleton];
      eexists; split; reflexivity.
  - exists s1, s2, n. split; [exact E|]. split; [exact Hh|]. rewrite (Hl 4096). reflexivity.
Defined.
