(* ===== verification/RsOptions.v ===== *)
(** * Options of stream sockets (rsocket.c)

    [rsetsockopt], [rgetsockopt] and [rfcntl], with [rs_set_keepalive], which asks the
    service thread.  An option value is the list of its bytes.  An option that was set reads
    as what was set, in the form the socket keeps it, and setting one does not change what
    others read. *)

From S2P Require Import Prelude CLayout FfTypes Verbs Wire CmdCtrl Marshall Bitmap CmTypes CmRoute RsTypes RsPost.
From S2P Require Import RsStream RsWorld RsRing RsOpen RsConnect RsSvc.

(** ** Levels and names *)

Definition SOL_SOCKET : Z := 1.
Definition SO_REUSEADDR : Z := 2.
Definition SO_ERROR : Z := 4.
Definition SO_SNDBUF : Z := 7.
Definition SO_RCVBUF : Z := 8.
Definition SO_KEEPALIVE : Z := 9.
Definition SO_OOBINLINE : Z := 10.
Definition SO_LINGER : Z := 13.
Definition IPPROTO_TCP : Z := 6.
Definition TCP_NODELAY : Z := 1.
Definition TCP_MAXSEG : Z := 2.
Definition TCP_KEEPIDLE : Z := 4.
Definition TCP_KEEPINTVL : Z := 5.
Definition TCP_KEEPCNT : Z := 6.
Definition IPPROTO_IPV6 : Z := 41.
Definition IPV6_V6ONLY : Z := 26.
Definition SOL_RDMA : Z := 65536.
Definition RDMA_SQSIZE : Z := 0.
Definition RDMA_RQSIZE : Z := 1.
Definition RDMA_INLINE : Z := 2.
Definition RDMA_IOMAPSIZE : Z := 3.
Definition RDMA_ROUTE : Z := 4.
Definition RDMA_OPTION_ID : Z := 0.
Definition RDMA_OPTION_ID_REUSEADDR : Z := 1.
Definition RDMA_OPTION_ID_AFONLY : Z := 2.
Definition ENOSYS : Z := 38.
Definition F_GETFL : Z := 3.
Definition F_SETFL : Z := 4.

(** ** The socket with its options *)

Record osock : Type := mkOs {
  o_rs : rsocket; o_so : Z; o_tcp : Z; o_ipv6 : Z; o_keepalive : Z; o_inline : Z; o_optval : option (list Z) }.

Definition upd_rs (f : rsocket -> rsocket) (o : osock) : osock :=
  mkOs (f (o_rs o)) (o_so o) (o_tcp o) (o_ipv6 o) (o_keepalive o) (o_inline o) (o_optval o).
Definition set_so (z : Z) (o : osock) : osock :=
  mkOs (o_rs o) z (o_tcp o) (o_ipv6 o) (o_keepalive o) (o_inline o) (o_optval o).
Definition set_tcp (z : Z) (o : osock) : osock :=
  mkOs (o_rs o) (o_so o) z (o_ipv6 o) (o_keepalive o) (o_inline o) (o_optval o).
Definition set_ipv6 (z : Z) (o : osock) : osock :=
  mkOs (o_rs o) (o_so o) (o_tcp o) z (o_keepalive o) (o_inline o) (o_optval o).
Definition set_keepalive_time (z : Z) (o : osock) : osock :=
  mkOs (o_rs o) (o_so o) (o_tcp o) (o_ipv6 o) z (o_inline o) (o_optval o).
Definition set_inline (z : Z) (o : osock) : osock :=
  mkOs (o_rs o) (o_so o) (o_tcp o) (o_ipv6 o) (o_keepalive o) z (o_optval o).
Definition set_optval (x : option (list Z)) (o : osock) : osock :=
  mkOs (o_rs o) (o_so o) (o_tcp o) (o_ipv6 o) (o_keepalive o) (o_inline o) x.

Definition upd_conf (f : rs_conf -> rs_conf) (o : osock) : osock := upd_rs (fun rs => set_cf (f (rs_cf rs)) rs) o.
Definition set_sizes (sb rb io : Z) (c : rs_conf) : rs_conf :=
  mkRsConf (rs_opts c) (fd_flags c) (sbuf c) sb (sq_size c) (smr_lkey c) (rbuf c) rb (rq_size c)
    (rmr_lkey c) (rmr_rkey c) (target_sgl c) (target_mr_rkey c) io (remote_sgl c) (remote_iomap c).
Definition set_fd_flags (z : Z) (c : rs_conf) : rs_conf :=
  mkRsConf (rs_opts c) z (sbuf c) (sbuf_size c) (sq_size c) (smr_lkey c) (rbuf c) (rbuf_size c) (rq_size c)
    (rmr_lkey c) (rmr_rkey c) (target_sgl c) (target_mr_rkey c) (target_iomap_size c) (remote_sgl c) (remote_iomap c).

(** A thread in one of the calls: the socket, the service and [errno]. *)
Record othread : Type := mkOt { ot_sock : osock; ot_svc : rs_svc; ot_errno : Z }.
Definition on_sock (f : osock -> osock) (w : othread) : othread := mkOt (f (ot_sock w)) (ot_svc w) (ot_errno w).
Definition ot_err (e : Z) (w : othread) : othread := mkOt (ot_sock w) (ot_svc w) e.

(** What the calls need of the system: the address of the socket, the answers to requests
    of the service, [rdma_set_option] with the error it gives, whether the identifier has a
    context on an InfiniBand device, the number in tcp_keepalive_time, memory, and the
    paths of the route. *)
Record opt_env : Type := mkOptEnv {
  v_self : Z;
  v_svc : svc_env;
  v_set_option : Z -> Z -> list Z -> Z * Z;
  v_ib : bool;
  v_proc : option Z;
  v_malloc : bool;
  v_paths : list path_rec }.

Section Options.
Context (v : opt_env).

Definition conf_of (w : othread) : rs_conf := rs_cf (o_rs (ot_sock w)).
Definition state_of (w : othread) : Z := rs_state (rs_c (o_rs (ot_sock w))).
Definition svc_active (w : othread) : bool := has (rs_opts (conf_of w)) RS_OPT_SVC_ACTIVE.

Definition as_int (bs : list Z) : Z := s32 (le_combine (take 4 bs)).
Definition as_u32 (bs : list Z) : Z := le_combine (take 4 bs).

(** [rs_notify_svc] for this socket *)
Definition ask_service (cmd : svc_cmd) (w : othread) : res (othread * Z) :=
  '(s, act, (ret, er)) ← rs_notify_svc (v_svc v) cmd (v_self v) (o_keepalive (ot_sock w)) (svc_active w) (ot_svc w);
  let opts c := if act : bool then Z.lor (rs_opts c) RS_OPT_SVC_ACTIVE else Z.land (rs_opts c) (Z.lnot RS_OPT_SVC_ACTIVE) in
  Ok (mkOt (upd_conf (fun c => set_opts (opts c) c) (ot_sock w)) s (default (ot_errno w) er), ret).

Definition rs_set_keepalive (on : bool) (w : othread) : res (othread * Z) :=
  if Bool.eqb on (svc_active w) then Ok (w, 0)
  else if on then
    let time := if o_keepalive (ot_sock w) =? 0 then default 7200 (v_proc v) else o_keepalive (ot_sock w) in
    ask_service RS_SVC_ADD_KEEPALIVE (on_sock (set_keepalive_time time) w)
  else ask_service RS_SVC_REM_KEEPALIVE w.

(** ** Setting *)

(** The words of options; [None]: [opts] is [NULL]. *)
Inductive opts_word : Type := SoOpts | TcpOpts | Ipv6Opts.

(** What a case of the switch leaves: the thread, [ret] and [opt_on]. *)
Definition set_result : Type := othread * Z * bool.

Definition cm_option (level name : Z) (optval : list Z) (w : othread) : othread * Z :=
  let '(ret, er) := v_set_option v level name optval in
  (if ret =? 0 then w else ot_err er w, ret).

Definition set_sol_socket (optname : Z) (optval : list Z) (w : othread) : res set_result :=
  if optname =? SO_REUSEADDR then
    let '(w, ret) := cm_option RDMA_OPTION_ID RDMA_OPTION_ID_REUSEADDR optval w in
    let ret := if negb (ret =? 0) && ((ot_errno w =? ENOSYS) || (negb (state_of w =? rs_init) && v_ib v)) then 0 else ret in
    Ok (w, ret, negb (as_int optval =? 0))
  else if optname =? SO_RCVBUF then
    let set c := if rbuf c =? 0 then set_sizes (sbuf_size c) (u32 (Z.shiftl (as_u32 optval) 1)) (target_iomap_size c) c else c in
    Ok (on_sock (upd_conf set) w, 0, false)
  else if optname =? SO_SNDBUF then
    let set c :=
      let c := if sbuf c =? 0 then set_sizes (u32 (Z.shiftl (as_u32 optval) 1)) (rbuf_size c) (target_iomap_size c) c else c in
      if sbuf_size c <? RS_SNDLOWAT then set_sizes (Z.shiftl RS_SNDLOWAT 1) (rbuf_size c) (target_iomap_size c) c else c in
    Ok (on_sock (upd_conf set) w, 0, false)
  else if optname =? SO_LINGER then Ok (w, 0, as_int optval =? 0)
  else if optname =? SO_KEEPALIVE then
    '(w, ret) ← rs_set_keepalive (negb (as_int optval =? 0)) w; Ok (w, ret, svc_active w)
  else if optname =? SO_OOBINLINE then Ok (w, 0, negb (as_int optval =? 0))
  else Ok (w, -1, false).

Definition set_tcp_option (optname : Z) (optval : list Z) (w : othread) : res set_result :=
  if (optname =? TCP_KEEPCNT) || (optname =? TCP_KEEPINTVL) then Ok (w, 0, false)
  else if optname =? TCP_KEEPIDLE then
    if as_int optval <=? 0 then Ok (ot_err EINVAL w, -1, false) else
    let w := on_sock (set_keepalive_time (u32 (as_int optval))) w in
    '(w, ret) ← (if svc_active w then ask_service RS_SVC_MOD_KEEPALIVE w else Ok (w, 0)); Ok (w, ret, false)
  else if optname =? TCP_NODELAY then Ok (w, 0, negb (as_int optval =? 0))
  else if optname =? TCP_MAXSEG then Ok (w, 0, false)
  else Ok (w, -1, false).

Definition set_ipv6_option (optname : Z) (optval : list Z) (w : othread) : set_result :=
  if optname =? IPV6_V6ONLY then
    let '(w, ret) := cm_option RDMA_OPTION_ID RDMA_OPTION_ID_AFONLY optval w in (w, ret, negb (as_int optval =? 0))
  else (w, -1, false).

Definition set_rdma_option (optname : Z) (optval : list Z) (w : othread) : set_result :=
  if rs_opening <=? state_of w then (ot_err EINVAL w, -1, false)
  else if optname =? RDMA_SQSIZE then
    (on_sock (upd_conf (fun c => set_queues (Z.min (as_u32 optval) RS_QP_MAX_SIZE) (rq_size c) c)) w, 0, false)
  else if optname =? RDMA_RQSIZE then
    (on_sock (upd_conf (fun c => set_queues (sq_size c) (Z.min (as_u32 optval) RS_QP_MAX_SIZE) c)) w, 0, false)
  else if optname =? RDMA_INLINE then (on_sock (set_inline 0) w, 0, false)
  else if optname =? RDMA_IOMAPSIZE then
    let n := u16 (rs_scale_to_value (u8 (rs_value_to_scale (as_int optval) 8)) 8) in
    (on_sock (upd_conf (fun c => set_sizes (sbuf_size c) (rbuf_size c) n c)) w, 0, false)
  else if optname =? RDMA_ROUTE then
    if v_malloc v then (on_sock (set_optval (Some optval)) w, 0, false) else (ot_err ENOMEM (on_sock (set_optval None) w), -1, false)
  else (w, -1, false).

(** [*opts |= (1 << optname)] and its opposite *)
Definition set_bit (on : bool) (optname opts : Z) : Z :=
  if on then Z.lor opts (Z.shiftl 1 optname) else Z.land opts (Z.lnot (Z.shiftl 1 optname)).

Definition store_bit (word : opts_word) (on : bool) (optname : Z) (o : osock) : osock :=
  match word with
  | SoOpts => set_so (set_bit on optname (o_so o)) o
  | TcpOpts => set_tcp (set_bit on optname (o_tcp o)) o
  | Ipv6Opts => set_ipv6 (set_bit on optname (o_ipv6 o)) o
  end.

Definition rsetsockopt (level optname : Z) (optval : list Z) (w : othread) : res (othread * Z) :=
  let w := ot_err ENOTSUP w in
  '((w, ret, opt_on), word) ←
    (if level =? SOL_SOCKET then r ← set_sol_socket optname optval w; Ok (r, Some SoOpts)
     else if level =? IPPROTO_TCP then r ← set_tcp_option optname optval w; Ok (r, Some TcpOpts)
     else if level =? IPPROTO_IPV6 then Ok (set_ipv6_option optname optval w, Some Ipv6Opts)
     else if level =? SOL_RDMA then Ok (set_rdma_option optname optval w, None)
     else Ok ((w, -1, false), None));
  match word with
  | Some word => Ok (if ret =? 0 then on_sock (store_bit word opt_on optname) w else w, ret)
  | None => Ok (w, ret)
  end.

(** ** Getting *)

(** [struct ibv_path_data] of a path record *)
Definition rs_convert_sa_path (p : path_rec) : cval :=
  let fl_hop := u32 (Z.shiftl (bswap 4 (flow_label p)) 8) in
  VS [VI (preference p); VI 0;
      VS [VI 0; VB (dgid p); VB (sgid p); VI (dlid p); VI (slid p); VI (Z.lor (bswap 4 fl_hop) (hop_limit p));
          VI (traffic_class p); VI (u8 (Z.lor (Z.shiftl (reversible p) 7) 1)); VI (pkey p); VI (sl p);
          VI (Z.lor (mtu p) 128); VI (Z.lor (rate p) 128); VI (Z.lor (packet_life_time p) 128); VI 0; VB (replicate 6 0)]].

(** What a call gives: the bytes it puts at [optval], the new [*optlen], and the result. *)
Record got : Type := mkGot { got_bytes : list Z; got_len : Z; got_ret : Z }.

Definition int_bytes (z : Z) : list Z := le_split 4 (u32 z).
Definition got_int (z : Z) : got := mkGot (int_bytes z) 4 0.
Definition bit_of (optname opts : Z) : Z := if has opts (Z.shiftl 1 optname) then 1 else 0.

(** [optval]: what the caller's buffer holds, [optlen] bytes. *)
Definition rgetsockopt (level optname : Z) (optval : list Z) (optlen : Z) (w : othread) : othread * got :=
  let o := ot_sock w in
  let c := conf_of w in
  let bad e := (ot_err e w, mkGot [] optlen (-1)) in
  let int z := (w, got_int z) in
  if level =? SOL_SOCKET then
    if (optname =? SO_REUSEADDR) || (optname =? SO_KEEPALIVE) || (optname =? SO_OOBINLINE) then int (bit_of optname (o_so o))
    else if optname =? SO_RCVBUF then int (rbuf_size c)
    else if optname =? SO_SNDBUF then int (sbuf_size c)
    else if optname =? SO_LINGER then (w, mkGot (int_bytes (1 - bit_of optname (o_so o)) ++ int_bytes 0) 8 0)
    else if optname =? SO_ERROR then
      (on_sock (upd_rs (fun rs => set_c (set_err 0 (rs_c rs)) rs)) w, got_int (rs_err (rs_c (o_rs o))))
    else bad ENOTSUP
  else if level =? IPPROTO_TCP then
    if (optname =? TCP_KEEPCNT) || (optname =? TCP_KEEPINTVL) then (w, mkGot (int_bytes 1) optlen 0)
    else if optname =? TCP_KEEPIDLE then int (o_keepalive o)
    else if optname =? TCP_NODELAY then int (bit_of optname (o_tcp o))
    else if optname =? TCP_MAXSEG then
      int (match v_paths v with p :: _ => Z.shiftl 1 (7 + mtu p) | [] => 2048 end)
    else bad ENOTSUP
  else if level =? IPPROTO_IPV6 then
    if optname =? IPV6_V6ONLY then int (bit_of optname (o_ipv6 o)) else bad ENOTSUP
  else if level =? SOL_RDMA then
    if optname =? RDMA_SQSIZE then int (sq_size c)
    else if optname =? RDMA_RQSIZE then int (rq_size c)
    else if optname =? RDMA_INLINE then int (o_inline o)
    else if optname =? RDMA_IOMAPSIZE then int (target_iomap_size c)
    else if optname =? RDMA_ROUTE then
      match o_optval o with
      | Some own =>
          let len := Z.of_nat (length own) in
          if optlen <? len then bad EINVAL
          else (on_sock (set_optval (Some (take (length own) optval))) w, mkGot [] len 0)
      | None =>
          let size := sizeof t_ibv_path_data in
          if optlen <? size then bad EINVAL
          else let ps := take (Z.to_nat (optlen / size)) (v_paths v) in
               (w, mkGot (concat (map (fun p => encode 0 t_ibv_path_data (rs_convert_sa_path p)) ps))
                     (size * Z.of_nat (length ps)) 0)
      end
    else bad ENOTSUP
  else bad ENOTSUP.

(** ** Descriptor flags *)

(** The results of [fcntl] on the channel of completions, if there is one, and on the
    channel of the identifier, with their errors. *)
Definition rs_set_nonblocking (cq : option (Z * Z)) (cm : Z * Z) (w : othread) : othread * Z :=
  let '(w, ret) := match cq with Some (r, e) => (if r =? 0 then w else ot_err e w, r) | None => (w, 0) end in
  if (ret =? 0) && (state_of w <? rs_connected) then (if cm.1 =? 0 then w else ot_err cm.2 w, cm.1) else (w, ret).

Definition rfcntl (cq : option (Z * Z)) (cm : Z * Z) (cmd param : Z) (w : othread) : othread * Z :=
  if cmd =? F_GETFL then (w, fd_flags (conf_of w))
  else if cmd =? F_SETFL then
    let '(w, ret) := if Z.land (fd_flags (conf_of w)) O_NONBLOCK =? Z.land param O_NONBLOCK then (w, 0)
                     else rs_set_nonblocking cq cm w in
    (if ret =? 0 then on_sock (upd_conf (set_fd_flags param)) w else w, ret)
  else (ot_err ENOTSUP w, -1).

End Options.

(** ** Bits *)

Lemma has_bit n z : 0 <= n -> has z (Z.shiftl 1 n) = Z.testbit z n.
Proof. apply land_pow2. Qed.

Lemma bit_set on n m z : 0 <= n -> 0 <= m ->
  bit_of m (set_bit on n z) = if m =? n then Z.b2z on else bit_of m z.
Proof.
  intros Hn Hm. unfold bit_of. rewrite !has_bit by done. unfold set_bit. rewrite Z.shiftl_1_l.
  destruct (Z.eqb_spec m n) as [->|Hne]; destruct on;
    rewrite ?Z.lor_spec, ?Z.land_spec, ?Z.lnot_spec, ?Z.pow2_bits_true, ?Z.pow2_bits_false by lia;
    by rewrite ?orb_true_r, ?andb_false_r, ?orb_false_r, ?andb_true_r.
Qed.

(** ** Options of one word *)

Inductive word_option : Type :=
  | Reuseaddr | Rcvbuf | Sndbuf | Keepalive | Oobinline | Keepidle | Nodelay | V6only | Sqsize | Rqsize | Inline | Iomapsize.

#[export] Instance word_option_eq : EqDecision word_option.
Proof. solve_decision. Defined.

Definition level_of (o : word_option) : Z :=
  match o with
  | Reuseaddr | Rcvbuf | Sndbuf | Keepalive | Oobinline => SOL_SOCKET
  | Keepidle | Nodelay => IPPROTO_TCP
  | V6only => IPPROTO_IPV6
  | Sqsize | Rqsize | Inline | Iomapsize => SOL_RDMA
  end.

Definition name_of (o : word_option) : Z :=
  match o with
  | Reuseaddr => SO_REUSEADDR | Rcvbuf => SO_RCVBUF | Sndbuf => SO_SNDBUF | Keepalive => SO_KEEPALIVE
  | Oobinline => SO_OOBINLINE | Keepidle => TCP_KEEPIDLE | Nodelay => TCP_NODELAY | V6only => IPV6_V6ONLY
  | Sqsize => RDMA_SQSIZE | Rqsize => RDMA_RQSIZE | Inline => RDMA_INLINE | Iomapsize => RDMA_IOMAPSIZE
  end.

(** The value the socket has for an option. *)
Definition value_of (o : word_option) (w : othread) : Z :=
  match o with
  | Reuseaddr | Keepalive | Oobinline => bit_of (name_of o) (o_so (ot_sock w))
  | Rcvbuf => rbuf_size (conf_of w)
  | Sndbuf => sbuf_size (conf_of w)
  | Keepidle => o_keepalive (ot_sock w)
  | Nodelay => bit_of (name_of o) (o_tcp (ot_sock w))
  | V6only => bit_of (name_of o) (o_ipv6 (ot_sock w))
  | Sqsize => sq_size (conf_of w)
  | Rqsize => rq_size (conf_of w)
  | Inline => o_inline (ot_sock w)
  | Iomapsize => target_iomap_size (conf_of w)
  end.

Lemma get_value v o optval optlen w : rgetsockopt v (level_of o) (name_of o) optval optlen w = (w, got_int (value_of o w)).
Proof. by destruct o. Qed.

(** What a socket with the settings [c] keeps of [val]. *)
Definition kept_as (o : word_option) (c : rs_conf) (val : Z) : Z :=
  match o with
  | Reuseaddr | Keepalive | Oobinline | Nodelay | V6only => Z.b2z (negb (val =? 0))
  | Rcvbuf => if rbuf c =? 0 then u32 (2 * u32 val) else rbuf_size c
  | Sndbuf => let n := if sbuf c =? 0 then u32 (2 * u32 val) else sbuf_size c in
              if n <? RS_SNDLOWAT then 2 * RS_SNDLOWAT else n
  | Keepidle => val
  | Sqsize | Rqsize => Z.min (u32 val) RS_QP_MAX_SIZE
  | Inline => 0
  | Iomapsize => u16 (rs_scale_to_value (u8 (rs_value_to_scale val 8)) 8)
  end.

(** The options whose value the setting of [o] may change. *)
Definition touches (o o' : word_option) : bool := bool_decide (o' = o) || bool_decide (o = Keepalive /\ o' = Keepidle).

Lemma int_bytes_u32 val : as_u32 (int_bytes val) = u32 val.
Proof.
  unfold as_u32, int_bytes. rewrite take_ge by by rewrite le_split_length. apply le_combine_split. apply u32_range.
Qed.

Lemma int_bytes_int val : - 2 ^ 31 <= val < 2 ^ 31 -> as_int (int_bytes val) = val.
Proof. intros H. unfold as_int. change (le_combine _) with (as_u32 (int_bytes val)). by rewrite int_bytes_u32, s32_u32. Qed.

(** ** The service *)

Lemma notify_active v cmd rs time active s s' act er : rs_notify_svc v cmd rs time active s = Ok (s', act, (0, er)) ->
  act = match cmd with RS_SVC_ADD_KEEPALIVE => true | RS_SVC_REM_KEEPALIVE => false | _ => active end.
Proof.
  unfold rs_notify_svc. destruct ((sv_cnt s =? 0) && negb ((v_pair v).1 =? 0)) eqn:Hp.
  { intros [= _ _ Hz _]. by rewrite Hz, andb_false_r in Hp. }
  destruct ((sv_cnt s =? 0) && negb (v_thread v =? 0)); [done|]. destruct (if sv_cnt s =? 0 then _ else _) as [s1 ret].
  unfold status_errno. destruct (Z.eqb_spec ret 0) as [->|Hr]; cbn [Z.eqb negb]; intros H; inv_ok; [|done].
  destruct a as [[s2 act'] status]. destruct (status =? 0) eqn:Hs; inv_ok; [|done]. simplify_eq.
  apply Z.eqb_eq in Hs as ->. unfold tcp_svc_process_sock in E.
  destruct cmd; inv_ok; repeat first [progress inv_ok | progress simplify_eq | case_match]; try done.
Qed.

(** What asking the service changes of a socket. *)
Lemma asked_values v cmd w w' : ask_service v cmd w = Ok (w', 0) ->
  (forall o, value_of o w' = value_of o w) /\
  svc_active w' = match cmd with RS_SVC_ADD_KEEPALIVE => true | RS_SVC_REM_KEEPALIVE => false | _ => svc_active w end.
Proof.
  unfold ask_service. intros H. inv_ok. destruct a as [[s act] [ret er]]. inv_ok. split; [by intros []|].
  apply notify_active in E as <-. unfold svc_active, conf_of. cbn -[Z.land Z.lor Z.lnot]. change RS_OPT_SVC_ACTIVE with (Z.shiftl 1 2).
  rewrite has_bit by done. destruct act; rewrite ?Z.lor_spec, ?Z.land_spec, ?Z.lnot_spec by done; cbn.
  - by rewrite orb_true_r.
  - by rewrite andb_false_r.
Qed.

Lemma set_keepalive_values v on w w' : rs_set_keepalive v on w = Ok (w', 0) ->
  (forall o, o <> Keepidle -> value_of o w' = value_of o w) /\ svc_active w' = on.
Proof.
  unfold rs_set_keepalive. intros H. destruct (Bool.eqb on (svc_active w)) eqn:Heq.
  { inv_ok. split; [done|]. symmetry. by apply eqb_prop. }
  destruct on; apply asked_values in H as [Hv ->]; (split; [|done]); intros o Ho; rewrite Hv; by destruct o.
Qed.

(** ** Setting *)

(** The word of an option that is one bit. *)
Definition word_of (o : word_option) : option opts_word :=
  match o with
  | Reuseaddr | Keepalive | Oobinline => Some SoOpts
  | Nodelay => Some TcpOpts
  | V6only => Some Ipv6Opts
  | _ => None
  end.

#[export] Instance opts_word_eq : EqDecision opts_word.
Proof. solve_decision. Defined.

Lemma stored_value word on n o w : 0 <= n ->
  value_of o (on_sock (store_bit word on n) w) =
  if bool_decide (word_of o = Some word) && (name_of o =? n) then Z.b2z on else value_of o w.
Proof. intros Hn. destruct o, word; try done; apply bit_set; done. Qed.

(** The settings of a socket after [rsetsockopt] changed them with [f]. *)
Lemma conf_value f o w : value_of o (on_sock (upd_conf f) w) =
  match o with
  | Rcvbuf => rbuf_size (f (conf_of w))
  | Sndbuf => sbuf_size (f (conf_of w))
  | Sqsize => sq_size (f (conf_of w))
  | Rqsize => rq_size (f (conf_of w))
  | Iomapsize => target_iomap_size (f (conf_of w))
  | _ => value_of o w
  end.
Proof. by destruct o. Qed.

Lemma cm_option_values v level name bs w w' ret : cm_option v level name bs w = (w', ret) -> forall o, value_of o w' = value_of o w.
Proof. unfold cm_option. intros H o. repeat case_match; simplify_eq; by destruct o. Qed.

(** The options a call does not set keep the value they have by [Hv]. *)
Ltac other_options Hv :=
  let o := fresh "o" in
  intros o Ho; specialize (Hv o); rewrite ?stored_value by done; destruct o; done.

(** What a call that succeeds leaves. *)
Definition set_to (o : word_option) (val : Z) (w w' : othread) : Prop :=
  value_of o w' = kept_as o (conf_of w) val /\ forall o', touches o o' = false -> value_of o' w' = value_of o' w.

Lemma set_bits v o val bs w w' : as_int bs = val -> o ∈ [Reuseaddr; Oobinline; Nodelay; V6only] ->
  rsetsockopt v (level_of o) (name_of o) bs w = Ok (w', 0) -> set_to o val w w'.
Proof.
  intros Hi Ho H. unfold rsetsockopt in H. set_unfold in Ho. destruct Ho as [->|[->|[->|[->|[]]]]]; cbn in H; rewrite ?Hi in H.
  - destruct (cm_option _ _ _ _ _) as [w1 r] eqn:E. pose proof (cm_option_values _ _ _ _ _ _ _ E) as Hv. cbn in H. inv_ok. simplify_eq.
    rewrite H0. cbn [Z.eqb]. split; [by rewrite stored_value|]. other_options Hv.
  - inv_ok. simplify_eq. split; [by rewrite stored_value|]. pose proof (fun o => eq_refl (value_of o w)) as Hv. other_options Hv.
  - inv_ok. simplify_eq. split; [by rewrite stored_value|]. pose proof (fun o => eq_refl (value_of o w)) as Hv. other_options Hv.
  - destruct (cm_option _ _ _ _ _) as [w1 r] eqn:E. pose proof (cm_option_values _ _ _ _ _ _ _ E) as Hv. cbn in H. inv_ok. simplify_eq.
    cbn [Z.eqb]. split; [by rewrite stored_value|]. other_options Hv.
Qed.

Lemma set_buffers v o val bs w w' : as_u32 bs = u32 val -> o ∈ [Rcvbuf; Sndbuf] ->
  rsetsockopt v (level_of o) (name_of o) bs w = Ok (w', 0) -> set_to o val w w'.
Proof.
  intros Hu Ho H. unfold rsetsockopt in H. set_unfold in Ho. destruct Ho as [->|[->|[]]]; cbn -[Z.shiftl] in H; rewrite Hu in H.
  all: inv_ok; simplify_eq; split; [|intros o' Ho']; rewrite stored_value, conf_value by done.
  - cbn -[Z.shiftl]. change (conf_of (ot_err ENOTSUP w)) with (conf_of w). rewrite Z.shiftl_mul_pow2, Z.mul_comm by done.
    by destruct (rbuf _ =? 0).
  - destruct o'; cbn -[Z.shiftl]; try done; by destruct (rbuf _ =? 0).
  - cbn -[Z.shiftl]. change (conf_of (ot_err ENOTSUP w)) with (conf_of w). rewrite (Z.shiftl_mul_pow2 (u32 val)), (Z.mul_comm (u32 val)) by done.
    destruct (sbuf _ =? 0); cbn -[Z.ltb]; by destruct (_ <? _).
  - destruct o'; cbn -[Z.shiftl]; try done; destruct (sbuf _ =? 0); cbn -[Z.ltb Z.shiftl]; by destruct (_ <? _).
Qed.

Lemma set_keepalives v o val bs w w' : as_int bs = val -> - 2 ^ 31 <= val < 2 ^ 31 -> o ∈ [Keepalive; Keepidle] ->
  rsetsockopt v (level_of o) (name_of o) bs w = Ok (w', 0) -> set_to o val w w'.
Proof.
  intros Hi Hval Ho H. unfold rsetsockopt in H. set_unfold in Ho. destruct Ho as [->|[->|[]]]; cbn in H; rewrite Hi in H.
  - inv_ok. destruct a1 as [w1 ret]. inv_ok. simplify_eq. apply set_keepalive_values in E1 as [Hv Ha]. cbn [Z.eqb].
    rewrite Ha. split; [by rewrite stored_value|]. intros o Ho. specialize (Hv o). rewrite stored_value by done.
    destruct o; try done; by apply Hv.
  - destruct (Z.leb_spec val 0); [done|]. inv_ok. destruct a1 as [w1 ret]. inv_ok. simplify_eq. cbn [Z.eqb].
    assert (Hv : forall o, value_of o w1 = value_of o (on_sock (set_keepalive_time (u32 (as_int bs))) w)).
    { revert E1. destruct (svc_active _); intros E1; inv_ok; simplify_eq; [|by intros []].
      apply asked_values in E1 as [Hv _]. intros o. rewrite Hv. by destruct o. }
    split; [rewrite stored_value, Hv by done; cbn; apply u32_small; lia|].
    other_options Hv.
Qed.

Lemma set_rdma v o val bs w w' : as_u32 bs = u32 val -> as_int bs = val -> o ∈ [Sqsize; Rqsize; Inline; Iomapsize] ->
  rsetsockopt v (level_of o) (name_of o) bs w = Ok (w', 0) -> set_to o val w w'.
Proof.
  intros Hu Hi Ho H. unfold rsetsockopt in H.
  set_unfold in Ho. destruct Ho as [->|[->|[->|[->|[]]]]]; cbn in H; unfold set_rdma_option in H; (destruct (rs_opening <=? _); [done|]); cbn in H;
    inv_ok; simplify_eq; split; try (intros o'; by destruct o'); rewrite ?conf_value; cbn; by rewrite ?Hu.
Qed.

Lemma set_values v o val w w' : - 2 ^ 31 <= val < 2 ^ 31 ->
  rsetsockopt v (level_of o) (name_of o) (int_bytes val) w = Ok (w', 0) -> set_to o val w w'.
Proof.
  intros Hval H. pose proof (int_bytes_int val Hval) as Hi. pose proof (int_bytes_u32 val) as Hu.
  destruct o;
    first [ eapply set_bits; [done|by eapply bool_decide_unpack|done] | eapply set_buffers; [done|by eapply bool_decide_unpack|done]
          | eapply set_keepalives; [done|done|by eapply bool_decide_unpack|done] | eapply set_rdma; [done|done|by eapply bool_decide_unpack|done] ].
Qed.

(** C22: An option of one word that a successful call of rsetsockopt sets reads back, with
    rgetsockopt, as the value given in the form the socket keeps: 1 or 0 for an option that
    is on or off, twice the size for the buffers that are not allocated yet (at least twice
    RS_SNDLOWAT for sends), the time of the keep-alive messages, the sizes of the queues
    below their maximum, 0 for inline data; and every other option of one word reads as
    before, save that turning keep-alive on may give TCP_KEEPIDLE the system's time. *)
Theorem option_reads_back v o val w w' : - 2 ^ 31 <= val < 2 ^ 31 ->
  rsetsockopt v (level_of o) (name_of o) (int_bytes val) w = Ok (w', 0) ->
  forall optval optlen,
    rgetsockopt v (level_of o) (name_of o) optval optlen w' = (w', got_int (kept_as o (conf_of w) val)) /\
    forall o', touches o o' = false ->
      (rgetsockopt v (level_of o') (name_of o') optval optlen w').2 = (rgetsockopt v (level_of o') (name_of o') optval optlen w).2.
Proof.
  intros Hval H optval optlen. apply set_values in H as [Hk Ho]; [|done]. rewrite get_value, Hk. split; [done|].
  intros o' Ht. by rewrite !get_value, Ho.
Qed.

Definition sample_env : opt_env :=
  mkOptEnv 4096 (mkSvcEnv (0, 0) 0 true true 100) (fun _ _ _ => (0, 0)) true (Some 7200) true [].
Definition sample_thread : othread := mkOt (mkOs (rs_alloc builtin_defs None) 0 0 0 0 0 None) new_svc 0.

Lemma option_reads_back_witness : exists w',
  rsetsockopt sample_env SOL_SOCKET SO_KEEPALIVE (int_bytes 5) sample_thread = Ok (w', 0) /\
  rgetsockopt sample_env SOL_SOCKET SO_KEEPALIVE [] 4 w' = (w', got_int 1) /\
  (rgetsockopt sample_env SOL_SOCKET SO_RCVBUF [] 4 w').2 = (rgetsockopt sample_env SOL_SOCKET SO_RCVBUF [] 4 sample_thread).2.
Proof.
  eexists. split; [vm_compute; reflexivity|]. edestruct (option_reads_back sample_env Keepalive 5 sample_thread) as [H1 H2];
    [lia|vm_compute; reflexivity|]. split; [exact H1|]. exact (H2 Rcvbuf eq_refl).
Defined.

(** ** Options that do not read back *)

(** Reading [RDMA_ROUTE] copies the caller's buffer over the socket's route, and leaves the
    buffer as it was. *)
Lemma route_is_overwritten v own optval w : o_optval (ot_sock w) = Some own -> length optval = length own ->
  rgetsockopt v SOL_RDMA RDMA_ROUTE optval (Z.of_nat (length own)) w =
  (on_sock (set_optval (Some optval)) w, mkGot [] (Z.of_nat (length own)) 0).
Proof.
  intros Ho Hl. unfold rgetsockopt. cbn -[Z.ltb sizeof]. rewrite Ho, Z.ltb_irrefl, <- Hl, take_ge by done. done.
Qed.

(** A path that [rgetsockopt] gives and [rsetsockopt] takes back has another hop limit and
    service level. *)
Definition sample_path : path_rec :=
  mkPath (replicate 16 1) (replicate 16 2) 256 512 0 7 64 0 1 65535 1 3 2 5 2 7 2 14 0.

Lemma path_read_back_differs : let p := ucma_convert_path (rs_convert_sa_path sample_path) in
  (hop_limit sample_path, sl sample_path) = (64, 3) /\ (hop_limit p, sl p) = (0, 0) /\
  (dlid p, slid p, mtu p, rate p, pkey p) = (dlid sample_path, slid sample_path, mtu sample_path, rate sample_path, pkey sample_path).
Proof. by vm_compute. Qed.

(** A receive buffer of size 0 is taken. *)
Lemma empty_buffer_is_set : exists w',
  rsetsockopt sample_env SOL_SOCKET SO_RCVBUF (int_bytes 0) sample_thread = Ok (w', 0) /\ rbuf_size (conf_of w') = 0.
Proof. eexists. by vm_compute. Qed.
