(* ===== verification/RsIomap.v ===== *)
(** * Mapped memory (rsocket.c)

    [riomap] and [riounmap] keep the mappings of a socket and their places in the peer's
    table: a place is used by one mapping at most, and free when none does.  [riowrite]
    writes into memory that the peer mapped: it finds the mapping of an offset in this
    side's table and takes the bytes through the send buffer to their place, not past the
    end of the mapping. *)

From S2P Require Import Prelude CLayout Verbs Wire CmdCtrl CmTypes CmRoute RsTypes RsPost RsStream RsWorld RsInv RsRing.
From S2P Require Import RsBytes RsSend RsWire RsConnect.

Definition PROT_WRITE : Z := 2.

(** ** The mappings of a socket *)

(** [remote_iomappings], by whether the entries have a region, [None] before it is
    allocated; with the two lists and [iomap_pending] in the socket.  An entry is on one of
    the lists while it has a region, and its [refcnt] is 1 then. *)
Record mappings : Type := mkMappings { m_slots : option (list bool); m_snd : rs_snd }.

Definition with_lists (q l : list rs_iomap_mr) (pending : bool) (m : mappings) : mappings :=
  mkMappings (m_slots m) (set_iomaps q l pending (m_snd m)).
Definition set_slot (i : Z) (b : bool) (m : mappings) : mappings :=
  mkMappings (match m_slots m with Some l => Some (<[Z.to_nat i := b]> l) | None => None end) (m_snd m).

(** The index of the first entry without a region. *)
Fixpoint free_slot (l : list bool) (i : Z) : option Z :=
  match l with
  | [] => None
  | used :: l => if used then free_slot l (i + 1) else Some i
  end.

Definition rs_get_iomap_mr (mem : bool) (c : rs_conf) (m : mappings) : mappings * option Z :=
  match m_slots m with
  | Some l => (m, free_slot l 0)
  | None =>
      if mem then
        let l := replicate (Z.to_nat (rg_length (remote_iomap c))) false in
        (mkMappings (Some l) (m_snd m), free_slot l 0)
      else (m, None)
  end.

(** [pd]: the identifier has a protection domain; [mem]: [calloc] succeeds; [mr]: the key of
    the region or the error of the registration.  The result is the offset, or -1 with an
    error. *)
Definition riomap (c : rs_conf) (pd mem : bool) (mr : Z + Z) (buf len prot offset : Z) (m : mappings)
  : res (mappings * (Z * option Z)) :=
  if negb pd || negb (Z.land prot (Z.lnot PROT_WRITE) =? 0) then Ok (m, (-1, Some EINVAL)) else
  '(m, iomr) ← (if has prot PROT_WRITE then Ok (rs_get_iomap_mr mem c m)
                else if mem then Ok (m, Some (-1)) else Ub);
  match iomr with
  | None => Ok (m, (-1, Some ENOMEM))
  | Some index =>
      match mr with
      | inr e => Ok (m, (-1, Some e))
      | inl rkey =>
          let offset := if offset =? -1 then buf else offset in
          let io := mkIomr (u64 offset) buf len rkey index in
          let s := m_snd m in
          Ok (if 0 <=? index then set_slot index true (with_lists (iomap_queue s ++ [io]) (iomap_list s) true m)
              else with_lists (iomap_queue s) (iomap_list s ++ [io]) (iomap_pending s) m, (offset, None))
      end
  end.

(** The first entry with the region of [buf], and the list without it. *)
Fixpoint take_region (buf len : Z) (l : list rs_iomap_mr) : option (rs_iomap_mr * list rs_iomap_mr) :=
  match l with
  | [] => None
  | io :: l =>
      if (im_addr io =? buf) && (im_length io =? len) then Some (io, l)
      else match take_region buf len l with Some (x, l') => Some (x, io :: l') | None => None end
  end.

(** [rs_release_iomap_mr] of an entry that [q] and [l] are the lists without. *)
Definition rs_release_iomap_mr (io : rs_iomap_mr) (q l : list rs_iomap_mr) (m : mappings) : mappings :=
  let m := with_lists q l (iomap_pending (m_snd m)) m in
  if 0 <=? im_index io then set_slot (im_index io) false m else m.

Definition riounmap (buf len : Z) (m : mappings) : mappings * (Z * option Z) :=
  let s := m_snd m in
  match take_region buf len (iomap_list s) with
  | Some (io, l) => (rs_release_iomap_mr io (iomap_queue s) l m, (0, None))
  | None =>
      match take_region buf len (iomap_queue s) with
      | Some (io, q) => (rs_release_iomap_mr io q (iomap_list s) m, (0, None))
      | None => (m, (-1, Some EINVAL))
      end
  end.

(** [rs_free_iomappings]: [riounmap] of the first entry until there is none. *)
Fixpoint free_loop (n : nat) (m : mappings) : res mappings :=
  match n, iomap_list (m_snd m) ++ iomap_queue (m_snd m) with
  | _, [] => Ok m
  | O, _ => Spin
  | S n', io :: _ => free_loop n' (riounmap (im_addr io) (im_length io) m).1
  end.

(** ** Writing into mapped memory *)

Section Write.
Context {D : Type} (dv : rs_dev D) (fuel : nat) (polling_time sq_inline : Z).
Implicit Types t : rst D.

Abbreviation cf t := (rs_cf (t_rs t)).
Abbreviation snd t := (rs_s (t_rs t)).

(** [&rs->target_iomap[i]] and an entry of the table: its offset and its region. *)
Definition iomap_at t (i : Z) : Z := target_sgl (cf t) + RS_SGL_SIZE * sizeof_rs_sge + i * sizeof_rs_iomap.
Definition read_iomap (m : mem) (a : Z) : Z * rs_sge := (le_combine (read_bytes m a 8), read_sge m (a + 8)).

(** [iom->offset + iom->sge.length] *)
Definition iomap_end (io : Z * rs_sge) : Z := u64 (io.1 + rg_length io.2).

Fixpoint find_loop (n : nat) (i offset : Z) t : option Z :=
  match n with
  | O => None
  | S n' =>
      let io := read_iomap (t_mem t) (iomap_at t i) in
      if (io.1 <=? offset) && (offset <? iomap_end io) then Some (iomap_at t i) else find_loop n' (i + 1) offset t
  end.

Definition rs_find_iomap (offset : Z) t : option Z := find_loop (Z.to_nat (target_iomap_size (cf t))) 0 offset t.

(** The size of a transfer, and the step after it. *)
Definition io_xfer (io : Z * rs_sge) (offset left olen : Z) t : Z * Z :=
  let '(x, olen') := if olen <? left then (olen, if olen <? RS_MAX_TRANSFER then u32 (Z.shiftl olen 1) else olen)
                     else (u32 left, olen) in
  let x := if u32 (sbuf_bytes_avail (snd t)) <? x then u32 (sbuf_bytes_avail (snd t)) else x in
  let x := if u64 (iomap_end io - offset) <? x then u32 (iomap_end io - offset) else x in
  (x, olen').

(** One transfer of the bytes [bs] at [buf]: from there if they are sent inline, or through
    the send buffer. *)
Definition io_chunk (io : Z * rs_sge) (offset buf : Z) (bs : list Z) t : rst D * Z :=
  let x := Z.of_nat (length bs) in
  let a := ssgl0_addr (snd t) in
  let left := rs_sbuf_left t in
  if x <=? sq_inline then rs_write_direct dv io offset [mkSge buf x 0] x IBV_SEND_INLINE t
  else if x <=? left then
    let t := stage a bs t in
    let '(t, ret) := rs_write_direct dv io offset [sbuf_sge t a x] x 0 t in
    (upd_s (set_ssgl0 (if x <? rs_sbuf_left t then a + x else sbuf (cf t))) t, ret)
  else
    let t := stage a (take (Z.to_nat left) bs) t in
    let t := stage (sbuf (cf t)) (drop (Z.to_nat left) bs) t in
    let '(t, ret) := rs_write_direct dv io offset [sbuf_sge t a left; sbuf_sge t (sbuf (cf t)) (x - left)] x 0 t in
    (upd_s (set_ssgl0 (sbuf (cf t) + (x - left))) t, ret).

(** The entry for [offset]: the one of the transfer before, unless [offset] is past it. *)
Definition entry_for (iom : option Z) (offset : Z) t : option Z :=
  match iom with
  | Some a => if iomap_end (read_iomap (t_mem t) a) <? offset then rs_find_iomap offset t else Some a
  | None => rs_find_iomap offset t
  end.

(** The loop with the bytes that remain, at [buf], and where they go. *)
Fixpoint write_loop (n : nat) (flags : Z) (iom : option Z) (buf offset : Z) (rem : list Z) (olen : Z) t
  : res (rst D * list Z * Z) :=
  match n, rem with
  | _, [] => Ok (t, [], 0)
  | O, _ => Spin
  | S n', _ =>
      match entry_for iom offset t with
      | None => Ok (t, rem, 0)
      | Some a =>
          '(t, x) ← wait_to_send dv fuel polling_time flags t;
          match x with
          | Some ret => Ok (t, rem, ret)
          | None =>
              let io := read_iomap (t_mem t) a in
              let '(xfer, olen) := io_xfer io offset (Z.of_nat (length rem)) olen t in
              let '(t, ret) := io_chunk io offset buf (take (Z.to_nat xfer) rem) t in
              if ret =? 0 then write_loop n' flags (Some a) (buf + xfer) (u64 (offset + xfer)) (drop (Z.to_nat xfer) rem) olen t
              else Ok (t, rem, ret)
          end
      end
  end.

Definition riowrite (junk flags buf offset : Z) (bytes : list Z) t : res (rst D * Z) :=
  '(t, ret) ← (if iomap_pending (snd t) then rs_send_iomaps dv fuel polling_time junk flags t else Ok (t, 0));
  if negb (ret =? 0) then Ok (t, transferred (length bytes) (length bytes) ret) else
  '(t, rem, ret) ← write_loop fuel flags None buf (u64 offset) bytes RS_OLAP_START_SIZE t;
  Ok (t, transferred (length bytes) (length rem) ret).

End Write.

(** ** Places of the table *)

Definition entries (m : mappings) : list rs_iomap_mr := iomap_queue (m_snd m) ++ iomap_list (m_snd m).

(** The places of mappings in the peer's table; mappings for this side only have none. *)
Definition places (l : list rs_iomap_mr) : list Z := filter (fun i => 0 <= i) (im_index <$> l).

(** The place [i] is in use. *)
Definition taken (m : mappings) (i : Z) : Prop :=
  0 <= i /\ match m_slots m with Some l => l !! Z.to_nat i = Some true | None => False end.

Record owned (c : rs_conf) (m : mappings) : Prop := {
  w_once : NoDup (places (entries m));
  w_size : forall l, m_slots m = Some l -> length l = Z.to_nat (rg_length (remote_iomap c));
  w_taken : forall i, taken m i <-> i ∈ places (entries m) }.

Lemma places_app l l' : places (l ++ l') = places l ++ places l'.
Proof. unfold places. by rewrite fmap_app, filter_app. Qed.

Lemma places_cons io l : places (io :: l) = if 0 <=? im_index io then im_index io :: places l else places l.
Proof. unfold places. simpl. rewrite filter_cons. destruct (Z.leb_spec 0 (im_index io)); case_decide; (done || lia). Qed.

#[export] Instance places_perm : Proper ((≡ₚ) ==> (≡ₚ)) places.
Proof. intros l l' H. unfold places. by rewrite H. Qed.

Lemma free_slot_spec l : forall i, match free_slot l i with
  | Some j => i <= j /\ l !! Z.to_nat (j - i) = Some false
  | None => Forall (fun b => b = true) l
  end.
Proof.
  induction l as [|[] l IH]; intros i; simpl; [done| |].
  - specialize (IH (i + 1)). destruct (free_slot l (i + 1)) as [j|]; [|by constructor]. destruct IH as [Hj Hl].
    split; [lia|]. replace (Z.to_nat (j - i)) with (S (Z.to_nat (j - (i + 1)))) by lia. done.
  - split; [lia|]. by rewrite Z.sub_diag.
Qed.

Lemma taken_set_slot i j b m l : m_slots m = Some l -> 0 <= j -> (Z.to_nat j < length l)%nat ->
  taken (set_slot j b m) i <-> if decide (i = j) then b = true else taken m i.
Proof.
  intros Hl Hj Hlt. unfold taken, set_slot. rewrite Hl. cbn. destruct (decide (i = j)) as [->|Hne].
  - rewrite list_lookup_insert_eq by done. naive_solver.
  - destruct (decide (0 <= i)); [|naive_solver]. rewrite list_lookup_insert_ne by lia. done.
Qed.

(** One entry more, at a free place or at none. *)
Lemma owned_add c m m' io : owned c m -> entries m' ≡ₚ io :: entries m ->
  (forall l, m_slots m' = Some l -> length l = Z.to_nat (rg_length (remote_iomap c))) ->
  ~ taken m (im_index io) -> (forall i, taken m' i <-> taken m i \/ 0 <= i /\ i = im_index io) -> owned c m'.
Proof.
  intros [Hn _ Ht] Hp Hs Hf Ht'. split; [|done|].
  - rewrite Hp, places_cons. case_match; [|done]. constructor; [|done]. by rewrite <- Ht.
  - intros i. rewrite Ht', Ht, Hp, places_cons. destruct (Z.leb_spec 0 (im_index io)); rewrite ?elem_of_cons; naive_solver lia.
Qed.

(** One entry less. *)
Lemma owned_remove c m m' io : owned c m -> entries m ≡ₚ io :: entries m' ->
  (forall l, m_slots m' = Some l -> length l = Z.to_nat (rg_length (remote_iomap c))) ->
  (forall i, taken m' i <-> taken m i /\ i <> im_index io) -> owned c m'.
Proof.
  intros [Hn _ Ht] Hp Hs Ht'. rewrite Hp, places_cons in Hn. split; [by case_match; [inversion Hn|]|done|].
  intros i. rewrite Ht', Ht, Hp, places_cons. destruct (Z.leb_spec 0 (im_index io)); rewrite ?elem_of_cons.
  - apply NoDup_cons in Hn as [Hn _]. naive_solver.
  - split; [naive_solver|]. intros Hi. split; [done|]. unfold places in Hi. apply list_elem_of_filter in Hi. lia.
Qed.

(** ** Mapping *)

Lemma full_taken c l m : m_slots m = Some l -> length l = Z.to_nat (rg_length (remote_iomap c)) -> Forall (fun b => b = true) l ->
  forall i, 0 <= i < rg_length (remote_iomap c) -> taken m i.
Proof.
  intros Hl Hlen Hall i Hi. split; [lia|]. rewrite Hl. destruct (lookup_lt_is_Some_2 l (Z.to_nat i)) as [b Hb]; [lia|].
  rewrite Hb. by rewrite (Forall_lookup_1 _ _ _ _ Hall Hb).
Qed.

Lemma empty_table_owned c m : owned c m -> m_slots m = None ->
  owned c (mkMappings (Some (replicate (Z.to_nat (rg_length (remote_iomap c))) false)) (m_snd m)).
Proof.
  intros [Hn _ Ht] Hm. split; cbn; [done| |].
  - intros l [= <-]. apply length_replicate.
  - intros i. rewrite <- Ht. unfold taken. cbn. rewrite Hm. split; [|naive_solver]. intros [_ [[=] _]%lookup_replicate].
Qed.

Lemma get_iomap_owned mem c m m' x : owned c m -> rs_get_iomap_mr mem c m = (m', x) ->
  owned c m' /\ m_snd m' = m_snd m /\
  match x with
  | Some i => 0 <= i /\ exists l, m_slots m' = Some l /\ l !! Z.to_nat i = Some false
  | None => mem = false \/ forall i, 0 <= i < rg_length (remote_iomap c) -> taken m' i
  end.
Proof.
  intros Ho. unfold rs_get_iomap_mr.
  assert (Hfree : forall l m0, owned c m0 -> m_slots m0 = Some l -> match free_slot l 0 with
    | Some i => 0 <= i /\ exists l, m_slots m0 = Some l /\ l !! Z.to_nat i = Some false
    | None => mem = false \/ forall i, 0 <= i < rg_length (remote_iomap c) -> taken m0 i end).
  { intros l m0 Hm0 Hl. pose proof (free_slot_spec l 0) as Hf. destruct (free_slot l 0) as [i|].
    - rewrite Z.sub_0_r in Hf. destruct Hf as [Hi Hf]. eauto.
    - right. eapply full_taken; [done|by apply (w_size _ _ Hm0)|done]. }
  destruct (m_slots m) as [l|] eqn:Hl.
  - intros [= <- <-]. split; [done|]. split; [done|]. by apply Hfree.
  - destruct mem; intros [= <- <-]; [|by eauto]. pose proof (empty_table_owned c m Ho Hl) as Ho'.
    split; [done|]. split; [done|]. by apply Hfree.
Qed.

(** What a call of [riomap] did: a new mapping at a free place, or none. *)
Definition mapped (c : rs_conf) (buf len prot ret : Z) (e : option Z) (m m' : mappings) : Prop :=
  match e with
  | None => exists io, entries m' ≡ₚ io :: entries m /\ im_addr io = buf /\ im_length io = len /\ im_offset io = u64 ret /\
              if has prot PROT_WRITE
              then 0 <= im_index io < rg_length (remote_iomap c) /\ ~ taken m (im_index io) /\ iomap_pending (m_snd m') = true
              else im_index io = -1
  | Some _ => ret = -1 /\ entries m' = entries m
  end.

Lemma lookup_in_table c (l : list bool) i b : length l = Z.to_nat (rg_length (remote_iomap c)) -> 0 <= i -> l !! Z.to_nat i = Some b ->
  i < rg_length (remote_iomap c).
Proof. intros Hl Hi Hb%lookup_lt_Some. lia. Qed.

Lemma riomap_keeps c pd mem mr buf len prot offset m m' ret e : owned c m ->
  riomap c pd mem mr buf len prot offset m = Ok (m', (ret, e)) -> owned c m' /\ mapped c buf len prot ret e m m'.
Proof.
  intros Ho. unfold riomap. destruct (negb pd || _); [by intros [= <- <- <-]|].
  destruct (has prot PROT_WRITE) eqn:Hw; cbn [mbind res_bind].
  - destruct (rs_get_iomap_mr mem c m) as [m1 x] eqn:Eg. apply get_iomap_owned in Eg as (Ho1 & Hs1 & Hx); [|done].
    assert (He1 : entries m1 = entries m) by (unfold entries; by rewrite Hs1).
    destruct x as [i|]; [|by intros [= <- <- <-]]. destruct Hx as (Hi & l & Hl & Hf).
    destruct mr as [rkey|er]; [|by intros [= <- <- <-]]. apply Z.leb_le in Hi as Hi'. rewrite Hi'. intros [= <- <- <-].
    set (io := mkIomr _ _ _ _ _). assert (Hnt : ~ taken m1 i) by (intros [_ H]; rewrite Hl in H; congruence).
    assert (Hp : entries (set_slot i true (with_lists (iomap_queue (m_snd m1) ++ [io]) (iomap_list (m_snd m1)) true m1)) ≡ₚ io :: entries m1).
    { unfold entries. cbn. rewrite <- app_assoc. symmetry. apply Permutation_middle. }
    pose proof (lookup_lt_Some _ _ _ Hf) as Hlt. pose proof (w_size _ _ Ho1 l Hl) as Hlen. split.
    + apply (owned_add c m1 _ io); [done|done| |done|].
      * cbn. rewrite Hl. intros ? [= <-]. by rewrite length_insert.
      * intros k. rewrite (taken_set_slot k i true _ l) by done. destruct (decide (k = i)) as [->|]; cbn; [naive_solver|].
        change (taken (with_lists _ _ _ m1) k) with (taken m1 k). naive_solver.
    + exists io. rewrite <- He1, Hw. repeat split; try done; [by eapply lookup_in_table|].
      rewrite (w_taken _ _ Ho), <- He1, <- (w_taken _ _ Ho1). done.
  - destruct mem; [|done]. cbn. destruct mr as [rkey|er]; [|by intros [= <- <- <-]]. intros [= <- <- <-].
    set (io := mkIomr _ _ _ _ _).
    assert (Hp : entries (with_lists (iomap_queue (m_snd m)) (iomap_list (m_snd m) ++ [io]) (iomap_pending (m_snd m)) m) ≡ₚ io :: entries m).
    { unfold entries. cbn. rewrite app_assoc. symmetry. apply Permutation_cons_append. }
    split; [|exists io; by rewrite Hw]. apply (owned_add c m _ io); [done|done|apply (w_size _ _ Ho)|by intros [? _]|].
    intros i. change (taken (with_lists _ _ _ m) i) with (taken m i). cbn. naive_solver lia.
Qed.

Lemma riomap_returns c pd mem mr buf len prot offset m : (has prot PROT_WRITE = false -> mem = true) ->
  exists r, riomap c pd mem mr buf len prot offset m = Ok r.
Proof.
  intros Hm. unfold riomap. destruct (negb pd || _); [by eauto|]. destruct (has prot PROT_WRITE); [|rewrite Hm by done]; cbn.
  - destruct (rs_get_iomap_mr mem c m) as [m1 [i|]]; [destruct mr|]; eauto.
  - destruct mr; eauto.
Qed.

(** ** Unmapping *)

Lemma take_region_spec buf len l : match take_region buf len l with
  | Some (io, l') => l ≡ₚ io :: l' /\ im_addr io = buf /\ im_length io = len
  | None => Forall (fun io => ~ (im_addr io = buf /\ im_length io = len)) l
  end.
Proof.
  induction l as [|io l IH]; simpl; [done|]. destruct (Z.eqb_spec (im_addr io) buf); destruct (Z.eqb_spec (im_length io) len); cbn; try done.
  all: destruct (take_region buf len l) as [[x l']|]; [|constructor; [naive_solver|done]]; destruct IH as (-> & ? & ?);
    split; [constructor|done].
Qed.

Lemma release_owned c io q l m : owned c m -> entries m ≡ₚ io :: q ++ l -> owned c (rs_release_iomap_mr io q l m).
Proof.
  intros Ho Hp. pose proof (w_taken _ _ Ho (im_index io)) as Hio. rewrite Hp, places_cons in Hio. unfold rs_release_iomap_mr.
  destruct (Z.leb_spec 0 (im_index io)) as [Hi|Hi].
  - assert (Htk : taken m (im_index io)) by (apply Hio; constructor). pose proof Htk as [_ Hl].
    destruct (m_slots m) as [sl|] eqn:Hsl; [|done]. apply lookup_lt_Some in Hl as Hlt.
    apply (owned_remove c m _ io); [done|done| |].
    + cbn. rewrite Hsl. intros ? [= <-]. rewrite length_insert. by apply (w_size _ _ Ho).
    + intros i. rewrite (taken_set_slot i _ false _ sl) by done. change (taken (with_lists _ _ _ m) i) with (taken m i).
      destruct (decide (i = im_index io)); naive_solver.
  - apply (owned_remove c m _ io); [done|done|apply (w_size _ _ Ho)|]. intros i. change (taken (with_lists _ _ _ m) i) with (taken m i).
    split; [|naive_solver]. intros Ht. split; [done|]. destruct Ht. lia.
Qed.

Lemma riounmap_error buf len m m' e : riounmap buf len m = (m', (0, e)) -> e = None.
Proof. unfold riounmap. intros H. repeat case_match; by simplify_eq. Qed.

(** What a call of [riounmap] did. *)
Definition unmapped (buf len ret : Z) (m m' : mappings) : Prop :=
  ret = 0 /\ (exists io, entries m ≡ₚ io :: entries m' /\ im_addr io = buf /\ im_length io = len) \/
  ret = -1 /\ m' = m /\ Forall (fun io => ~ (im_addr io = buf /\ im_length io = len)) (entries m).

Lemma released_entries io q l m : entries (rs_release_iomap_mr io q l m) = q ++ l.
Proof. unfold rs_release_iomap_mr. by case_match. Qed.

Lemma riounmap_keeps c buf len m m' r : owned c m -> riounmap buf len m = (m', r) -> owned c m' /\ unmapped buf len r.1 m m'.
Proof.
  intros Ho. unfold riounmap. pose proof (take_region_spec buf len (iomap_list (m_snd m))) as Hl.
  pose proof (take_region_spec buf len (iomap_queue (m_snd m))) as Hq.
  destruct (take_region buf len (iomap_list (m_snd m))) as [[io l]|]; [|destruct (take_region buf len (iomap_queue (m_snd m))) as [[io q]|]].
  - destruct Hl as (Hp & Ha & Hlen). assert (He : entries m ≡ₚ io :: iomap_queue (m_snd m) ++ l)
      by (unfold entries; rewrite Hp; symmetry; apply Permutation_middle).
    intros [= <- <-]. split; [by apply release_owned|]. left. split; [done|]. exists io. by rewrite released_entries.
  - destruct Hq as (Hp & Ha & Hlen). assert (He : entries m ≡ₚ io :: q ++ iomap_list (m_snd m)) by (unfold entries; by rewrite Hp).
    intros [= <- <-]. split; [by apply release_owned|]. left. split; [done|]. exists io. by rewrite released_entries.
  - intros [= <- <-]. split; [done|]. right. split; [done|]. split; [done|]. by apply Forall_app.
Qed.

(** ** Calls *)

Inductive map_call : Type :=
  | Map (pd mem : bool) (mr : Z + Z) (buf len prot offset : Z)
  | Unmap (buf len : Z).

Definition map_step (c : rs_conf) (x : map_call) (m : mappings) : res (mappings * (Z * option Z)) :=
  match x with
  | Map pd mem mr buf len prot offset => riomap c pd mem mr buf len prot offset m
  | Unmap buf len => Ok (riounmap buf len m)
  end.

(** A mapping for this side only needs memory for its entry. *)
Definition has_memory (x : map_call) : Prop :=
  match x with Map _ mem _ _ _ prot _ => has prot PROT_WRITE = false -> mem = true | Unmap _ _ => True end.

Definition map_did (c : rs_conf) (x : map_call) (ret : Z) (e : option Z) (m m' : mappings) : Prop :=
  match x with
  | Map _ _ _ buf len prot _ => mapped c buf len prot ret e m m'
  | Unmap buf len => unmapped buf len ret m m'
  end.

(** C25: riomap and riounmap keep every place of the peer's table with one mapping at most,
    and in use exactly while a mapping has it.  riomap for writing by the peer takes a free
    place and leaves the mapping to be announced, riomap without takes none, and neither
    changes the mappings when it fails; riounmap removes a mapping of the region, and
    fails only if there is none. *)
Theorem mapping_calls_own_places c x m : owned c m -> has_memory x ->
  exists m' ret e, map_step c x m = Ok (m', (ret, e)) /\ owned c m' /\ map_did c x ret e m m'.
Proof.
  intros Ho Hm. destruct x as [pd mem mr buf len prot offset|buf len]; cbn in *.
  - destruct (riomap_returns c pd mem mr buf len prot offset m Hm) as ([m' [ret e]] & E).
    exists m', ret, e. split; [done|]. by apply riomap_keeps in E.
  - destruct (riounmap buf len m) as [m' [ret e]] eqn:E. exists m', ret, e. split; [done|]. by apply (riounmap_keeps c) in E.
Qed.

Lemma one_region (l : list rs_iomap_mr) io io' l' : io :: l ≡ₚ io' :: l' ->
  Forall (fun x => ~ (im_addr x = im_addr io' /\ im_length x = im_length io')) l -> l ≡ₚ l'.
Proof.
  intros Hp Hf. assert (Hin : io' ∈ io :: l) by (rewrite Hp; constructor). apply elem_of_cons in Hin as [<-|Hin].
  - by eapply Permutation_cons_inv.
  - rewrite Forall_forall in Hf. by destruct (Hf io' Hin).
Qed.

(** A region that is mapped once and unmapped again leaves the mappings that were there
    and the places of the peer's table as they were. *)
Theorem map_then_unmap c pd mem mr buf len prot offset m m' ret : owned c m ->
  Forall (fun io => ~ (im_addr io = buf /\ im_length io = len)) (entries m) ->
  riomap c pd mem mr buf len prot offset m = Ok (m', (ret, None)) ->
  exists m'', riounmap buf len m' = (m'', (0, None)) /\ entries m'' ≡ₚ entries m /\ forall i, taken m'' i <-> taken m i.
Proof.
  intros Ho Hf E. apply riomap_keeps in E as (Ho' & io & Hp & Ha & Hl & _); [|done].
  destruct (riounmap buf len m') as [m'' [r e]] eqn:Eu. apply (riounmap_keeps c) in Eu as Hk; [|done].
  destruct Hk as [Ho'' [(Hr & io' & Hp' & Ha' & Hl')|(_ & _ & Hno)]]; cbn in *.
  - assert (Hperm : entries m'' ≡ₚ entries m).
    { symmetry. eapply (one_region _ io io'); [by rewrite <- Hp, <- Hp'|]. by rewrite Ha', Hl'. }
    exists m''. subst r. apply riounmap_error in Eu as He. subst e. split; [done|]. split; [done|]. intros i. by rewrite (w_taken _ _ Ho''), (w_taken _ _ Ho), Hperm.
  - rewrite Hp in Hno. inversion Hno. naive_solver.
Qed.

Definition no_mappings : mappings := mkMappings None (mkRsSnd 0 0 0 0 0 0 [] [] false).
Definition two_places : rs_conf :=
  mkRsConf 0 0 0 0 0 0 0 0 0 0 0 0 0 0 (mkRsSge 0 0 0) (mkRsSge 65536 7 2).

Lemma no_mappings_owned : owned two_places no_mappings.
Proof. split; [constructor|done|]. intros i. split; [by intros []|by intros ?%elem_of_nil]. Qed.

Lemma mapping_calls_own_places_witness : exists m' ret e,
  map_step two_places (Map true true (inl 9) 4096 100 PROT_WRITE (-1)) no_mappings = Ok (m', (ret, e)) /\
  owned two_places m' /\ map_did two_places (Map true true (inl 9) 4096 100 PROT_WRITE (-1)) ret e no_mappings m'.
Proof. apply mapping_calls_own_places; [exact no_mappings_owned|done]. Defined.

Lemma map_then_unmap_witness : exists m' m'',
  riomap two_places true true (inl 9) 4096 100 PROT_WRITE (-1) no_mappings = Ok (m', (4096, None)) /\
  riounmap 4096 100 m' = (m'', (0, None)) /\ entries m'' ≡ₚ [] /\ forall i, taken m'' i <-> taken no_mappings i.
Proof.
  destruct (map_then_unmap two_places true true (inl 9) 4096 100 PROT_WRITE (-1) no_mappings _ 4096 no_mappings_owned
    ltac:(constructor) eq_refl) as (m'' & H1 & H2 & H3).
  eexists _, m''. split; [reflexivity|]. done.
Defined.

(** A region mapped for the peer and unmapped before it was announced: the socket still has
    mappings to announce, and none is in the queue. *)
Lemma unmapped_still_pending : exists m',
  riomap two_places true true (inl 9) 4096 100 PROT_WRITE (-1) no_mappings = Ok (m', (4096, None)) /\
  let m'' := (riounmap 4096 100 m').1 in iomap_queue (m_snd m'') = [] /\ iomap_pending (m_snd m'') = true.
Proof. eexists. split; [reflexivity|]. by vm_compute. Qed.

(** [offset] lies in the entry [io] of the table. *)
Definition covers (io : Z * rs_sge) (offset : Z) : bool := (io.1 <=? offset) && (offset <? iomap_end io).

Lemma find_loop_spec {D} (t : rst D) offset n : forall i, match find_loop n i offset t with
  | Some a => exists j, i <= j < i + Z.of_nat n /\ a = iomap_at t j /\ covers (read_iomap (t_mem t) a) offset = true
  | None => forall j, i <= j < i + Z.of_nat n -> covers (read_iomap (t_mem t) (iomap_at t j)) offset = false
  end.
Proof.
  induction n as [|n IH]; intros i; [intros j; lia|]. cbn [find_loop].
  change ((_ <=? offset) && _) with (covers (read_iomap (t_mem t) (iomap_at t i)) offset).
  destruct (covers (read_iomap (t_mem t) (iomap_at t i)) offset) eqn:E; [exists i; split; [lia|done]|]. specialize (IH (i + 1)).
  destruct (find_loop n (i + 1) offset t); [destruct IH as (j & Hj & H); exists j; split; [lia|done]|].
  intros j Hj. destruct (decide (j = i)) as [->|]; [done|]. apply IH. lia.
Qed.

Section Transfer.
Context {D : Type} (dv : rs_dev D).
Implicit Types t : rst D.

Abbreviation cf t := (rs_cf (t_rs t)).
Abbreviation snd t := (rs_s (t_rs t)).

(** The place of the next byte in the send buffer. *)
Definition send_pos t : Z := ssgl0_addr (snd t) - sbuf (cf t).

(** The request of a transfer of [n] bytes. *)
Definition direct_wr (io : Z * rs_sge) (offset n : Z) (sgl : list ibv_sge) : app_send_wr :=
  rs_wr (rs_msg_set RS_OP_WRITE n) sgl IBV_WR_RDMA_WRITE 0 0 (u64 (rg_addr io.2 + offset - io.1)) (rg_key io.2).

Lemma write_direct_ok io offset sgl n t : (q_post_send dv (t_dev t) (direct_wr io offset n sgl)).2 = 0 ->
  rs_write_direct dv io offset sgl n 0 t =
  (with_dev (q_post_send dv (t_dev t) (direct_wr io offset n sgl)).1
     (upd_s (fun s => set_avail (sbuf_bytes_avail s - n) (sqe_avail s - 1) s) t), 0).
Proof.
  intros Hp. unfold rs_write_direct, rs_post_write, post_send. cbn [t_dev upd_s upd]. change (rs_wr (rs_send_wr_id _) _ _ _ _ _ _) with (direct_wr io offset n sgl).
  destruct (q_post_send dv (t_dev t) (direct_wr io offset n sgl)) as [d r] eqn:E.
  cbn in Hp. by subst r.
Qed.

Lemma chunk_ok io offset buf bs t : conf_ok (cf t) -> 0 <= send_pos t < sbuf_size (cf t) -> 0 < zlen bs <= sbuf_size (cf t) ->
  (forall w, (q_post_send dv (t_dev t) w).2 = 0) ->
  exists t', io_chunk dv 0 io offset buf bs t = (t', 0) /\ cf t' = cf t /\
    t_dev t' = (q_post_send dv (t_dev t) (direct_wr io offset (zlen bs) (ring_sgl (cf t) (send_pos t) (zlen bs)))).1 /\
    t_mem t' = ring_write (cf t) (t_mem t) (send_pos t) bs.
Proof.
  intros Hc Hs Hl Hp. pose proof (k_sbuf _ Hc) as (H0 & [Hlow H31] & H64). unfold send_pos in *.
  assert (Hleft : rs_sbuf_left t = sbuf_size (cf t) - (ssgl0_addr (snd t) - sbuf (cf t))).
  { unfold rs_sbuf_left. rewrite u32_small; lia. }
  unfold io_chunk, ring_sgl, ring_write. rewrite Hleft, Z.mod_small by done. fold (zlen bs).
  destruct (Z.leb_spec (zlen bs) 0); [lia|].
  destruct (Z.leb_spec (zlen bs) (sbuf_size (cf t) - (ssgl0_addr (snd t) - sbuf (cf t)))) as [Hw|Hw].
  all: rewrite write_direct_ok by apply Hp.
  all: eexists; (split; [reflexivity|]); cbn; (split; [done|]); split.
  all: by rewrite Zplus_minus.
Qed.

Lemma gather_written c m p bs : conf_ok c -> 0 <= p < sbuf_size c -> 0 < zlen bs <= sbuf_size c ->
  gather (ring_write c m p bs) (ring_sgl c p (zlen bs)) = bs.
Proof.
  intros Hc Hp Hl. rewrite (gather_ring c _ (replicate (Z.to_nat p) 0 ++ bs) p (zlen bs)); [|done|lia|lia| |].
  - rewrite drop_app_length' by by rewrite length_replicate. apply take_ge. unfold zlen. lia.
  - rewrite zlen_app. unfold zlen at 2. rewrite length_replicate. lia.
  - intros i Hi. rewrite ring_write_new by (done || lia). rewrite app_nth2; rewrite length_replicate; [|lia]. f_equal. lia.
Qed.

(** The size of a transfer. *)
Lemma xfer_clamped io offset left olen t : 0 <= offset < iomap_end io -> 0 < left -> 1 <= olen <= RS_MAX_TRANSFER ->
  0 < sbuf_bytes_avail (snd t) < 2 ^ 31 ->
  (io_xfer io offset left olen t).1 = Z.min (Z.min olen left) (Z.min (sbuf_bytes_avail (snd t)) (iomap_end io - offset)).
Proof.
  unfold RS_MAX_TRANSFER. intros Ho Hl Hol Hav. unfold io_xfer.
  pose proof (Z.mod_pos_bound (io.1 + rg_length io.2) (2 ^ 64) eq_refl) as Hend. fold (u64 (io.1 + rg_length io.2)) (iomap_end io) in Hend.
  destruct (if olen <? left then _ else _) as [x o] eqn:E.
  assert (x = Z.min olen left) as ->.
  { destruct (Z.ltb_spec olen left); injection E as <- _; [lia|]. rewrite u32_small; lia. }
  cbn [fst]. rewrite (u32_small (sbuf_bytes_avail _)) by lia. unfold u64. rewrite (Z.mod_small (iomap_end io - offset)) by lia.
  destruct (Z.ltb_spec (sbuf_bytes_avail (snd t)) (Z.min olen left)); match goal with |- (if ?c then _ else _) = _ => destruct c eqn:Ec end;
    try apply Z.ltb_lt in Ec; try apply Z.ltb_ge in Ec; try rewrite u32_small; lia.
Qed.

Context (fuel : nat) (polling_time : Z).

(** A socket that can send, with a device that takes requests. *)
Record ready t : Prop := {
  y_conf : conf_ok (cf t);
  y_pending : iomap_pending (snd t) = false;
  y_can : rs_can_send t = true;
  y_pos : 0 <= send_pos t < sbuf_size (cf t);
  y_room : sbuf_bytes_avail (snd t) <= sbuf_size (cf t);
  y_post : forall w, (q_post_send dv (t_dev t) w).2 = 0 }.

(** C26: a transfer of riowrite, the first one or a later one of a call with any amount of
    data, from an offset that lies inside of a mapping of the peer.  On a socket that can
    send without waiting, has no mappings to announce and sends nothing inline, with a
    device that accepts: the transfer takes [k] bytes, at least one, the least of what is left,
    the step, the room of the send buffer and what is left of the mapping; it posts one
    write of exactly these bytes, to the address of the offset in the peer's memory with the
    key of the mapping; what is written lies inside of the memory that the peer mapped, so
    that the next offset is at most the mapping's end; this side changes nothing but
    its send buffer, and the loop goes on behind these bytes. *)
Theorem riowrite_stays_mapped n flags iom buf offset rem olen t a : ready t -> 0 <= offset ->
  entry_for iom offset t = Some a ->
  let io := read_iomap (t_mem t) a in
  io.1 <= offset < iomap_end io ->
  0 <= rg_addr io.2 -> rg_addr io.2 + rg_length io.2 < 2 ^ 64 -> 0 <= io.1 + rg_length io.2 < 2 ^ 64 ->
  rem <> [] -> 1 <= olen <= RS_MAX_TRANSFER ->
  let k := Z.min (Z.min olen (zlen rem)) (Z.min (sbuf_bytes_avail (snd t)) (iomap_end io - offset)) in
  let addr := rg_addr io.2 + (offset - io.1) in
  0 < k <= zlen rem /\ rg_addr io.2 <= addr /\ addr + k <= rg_addr io.2 + rg_length io.2 /\ offset + k <= iomap_end io /\
  exists t' olen' sgl,
    write_loop dv fuel polling_time 0 (S n) flags iom buf offset rem olen t
    = write_loop dv fuel polling_time 0 n flags (Some a) (buf + k) (offset + k) (drop (Z.to_nat k) rem) olen' t' /\
    t_dev t' = (q_post_send dv (t_dev t) (rs_wr (rs_msg_set RS_OP_WRITE k) sgl IBV_WR_RDMA_WRITE 0 0 addr (rg_key io.2))).1 /\
    gather (t_mem t') sgl = take (Z.to_nat k) rem /\
    forall x, ~ (sbuf (cf t) <= x < sbuf (cf t) + sbuf_size (cf t)) -> t_mem t' x = t_mem t x.
Proof.
  intros [Hc _ Hcan Hpos Hroom Hpost] Hoff Hentry io Hcov Ha0 Ha1 Ho1 Hne Holen k addr.
  pose proof (k_sbuf _ Hc) as (_ & [_ H31] & _).
  assert (Hend : iomap_end io = io.1 + rg_length io.2) by (unfold iomap_end, u64; apply Z.mod_small; lia).
  assert (Hav : 0 < sbuf_bytes_avail (snd t)).
  { unfold rs_can_send in Hcan. apply andb_prop in Hcan as [[[_ H]%andb_prop _]%andb_prop _]. apply Z.leb_le in H. unfold RS_SNDLOWAT in H. lia. }
  assert (Hr : 0 < zlen rem) by (destruct rem; [done|]; rewrite zlen_cons; pose proof (zlen_nonneg rem); lia).
  assert (Hk : 0 < k <= zlen rem) by lia. split; [done|]. split; [lia|]. split; [lia|]. split; [lia|].
  assert (Ht : zlen (take (Z.to_nat k) rem) = k) by (unfold zlen in *; rewrite length_take; lia).
  destruct (chunk_ok io offset buf (take (Z.to_nat k) rem) t Hc Hpos ltac:(lia) Hpost) as (t' & Echunk & _ & Hdev & Hmem).
  rewrite Ht in Hdev. pose proof (xfer_clamped io offset (zlen rem) olen t ltac:(lia) Hr Holen ltac:(lia)) as Hx. fold k in Hx.
  destruct (io_xfer io offset (zlen rem) olen t) as [x olen'] eqn:Ex. cbn in Hx. subst x.
  exists t', olen', (ring_sgl (cf t) (send_pos t) k). split; [|split; [|split]].
  - destruct rem as [|b bytes]; [done|]. set (bs := b :: bytes) in *. cbn [write_loop]. rewrite Hentry.
    unfold wait_to_send. rewrite Hcan. cbn [mbind res_bind]. fold io. change (Z.of_nat (length bs)) with (zlen bs).
    rewrite Ex, Echunk. cbn [Z.eqb]. unfold u64. by rewrite Z.mod_small by lia.
  - rewrite Hdev. unfold direct_wr. replace (u64 _) with addr; [done|]. unfold addr, u64. rewrite Z.mod_small; lia.
  - rewrite Hmem. pose proof (gather_written (cf t) (t_mem t) (send_pos t) (take (Z.to_nat k) rem) Hc Hpos ltac:(lia)) as Hg.
    by rewrite Ht in Hg.
  - intros x Hx. rewrite Hmem. apply ring_write_out; (done || lia).
Qed.

(** The entry of a first transfer covers its offset. *)
Lemma first_entry offset t a : rs_find_iomap offset t = Some a ->
  entry_for None offset t = Some a /\ let io := read_iomap (t_mem t) a in io.1 <= offset < iomap_end io.
Proof.
  intros H. split; [exact H|]. pose proof (find_loop_spec t offset (Z.to_nat (target_iomap_size (cf t))) 0) as Hf.
  unfold rs_find_iomap in H. rewrite H in Hf. destruct Hf as (j & _ & _ & Hcov).
  apply andb_prop in Hcov as [H1%Z.leb_le H2%Z.ltb_lt]. done.
Qed.

(** At the end of a mapping the entry is kept, and a transfer takes no byte: the data does
    not go on into a mapping that begins there. *)
Lemma end_of_mapping_transfers_nothing a left olen t : let io := read_iomap (t_mem t) a in
  0 < left -> 0 < olen ->
  entry_for (Some a) (iomap_end io) t = Some a /\ (io_xfer io (iomap_end io) left olen t).1 = 0.
Proof.
  intros io Hl Ho. split; [cbn [entry_for]; fold io; by rewrite Z.ltb_irrefl|].
  unfold io_xfer. destruct (if olen <? left then _ else _) as [x o] eqn:E. rewrite Z.sub_diag.
  assert (Hx : 0 <= x) by (pose proof (u32_range left); destruct (olen <? left); injection E as <- _; lia).
  pose proof (u32_range (sbuf_bytes_avail (snd t))) as Ha. change (u64 0) with 0. change (u32 0) with 0. cbn [fst].
  set (y := if _ <? x then _ else x). assert (0 <= y) by (unfold y; destruct (_ <? x); lia). destruct (Z.ltb_spec 0 y); lia.
Qed.

End Transfer.

Definition table_conf : rs_conf :=
  mkRsConf 0 0 4096 4096 16 1 16384 4096 16 2 3 32768 4 1 (mkRsSge 65536 7 2) (mkRsSge 65568 7 1).
Definition table_mem : mem :=
  write_bytes (fun _ => 0) 32768 (sge_bytes (mkRsSge 70000 9 100) ++ sge_bytes (mkRsSge 0 0 0) ++
    le_split 8 500 ++ sge_bytes (mkRsSge 90000 11 64)).
Definition table_thread : rst port :=
  mkRst (mkRs table_conf (mkRsSnd 1 9 0 4100 4096 10 [] [] false) (mkRsRcv 0 [] 0 0 0 0 0 0) (mkRsCtl 0 0 4 0 rs_connect_rdwr 0 0 false 0))
    table_mem (mkPort [] [] [] [] 16) 0.

Lemma table_thread_ready : ready port_dev table_thread.
Proof.
  split; [split|..]; try (by vm_compute); cbn; try lia; unfold apart; lia.
Qed.

(** Of 50 bytes at the offset 520 the mapping, which ends at 564, takes 44. *)
Lemma riowrite_stays_mapped_witness : exists t' olen' sgl,
  write_loop port_dev 5 10 0 2 0 None 0 520 (replicate 50 7) 2048 table_thread
  = write_loop port_dev 5 10 0 1 0 (Some 32800) 44 564 (replicate 6 7) olen' t' /\
  t_dev t' = (q_post_send port_dev (t_dev table_thread) (rs_wr (rs_msg_set RS_OP_WRITE 44) sgl IBV_WR_RDMA_WRITE 0 0 90020 11)).1 /\
  gather (t_mem t') sgl = replicate 44 7.
Proof.
  assert (Eio : read_iomap (t_mem table_thread) 32800 = (500, mkRsSge 90000 11 64)) by (vm_compute; reflexivity).
  assert (Eav : sbuf_bytes_avail (rs_s (t_rs table_thread)) = 4096) by reflexivity.
  pose proof (riowrite_stays_mapped port_dev 5 10 1 0 None 0 520 (replicate 50 7) 2048 table_thread 32800 table_thread_ready) as H.
  cbv zeta in H. rewrite Eio, Eav in H. change (zlen (replicate 50 7)) with 50 in H. change (iomap_end (500, mkRsSge 90000 11 64)) with 564 in H.
  cbn [fst Datatypes.snd rg_addr rg_length rg_key] in H. change (Z.min (Z.min 2048 50) (Z.min 4096 (564 - 520))) with 44 in H.
  destruct H as (_ & _ & _ & _ & t' & olen' & sgl & H1 & H2 & H3 & _); [lia|vm_compute; reflexivity|lia|lia|lia|lia|done|unfold RS_MAX_TRANSFER; lia|].
  exists t', olen', sgl. split; [|split]; [exact H1|exact H2|exact H3].
Defined.
