(* ===== verification/RsDgram.v ===== *)
(** * Datagram sockets (rsocket.c)

    Sending and receiving of datagrams, from [ds_format_hdr] to [dsend] and [ds_recvfrom],
    and the part of the service thread that forwards datagrams.  The buffers for sending are
    slots of [RS_SNDLOWAT] bytes, the free ones linked through their first words; those for
    receiving are slots of a buffer per queue pair, and a ring lists the ones with data.
    Addresses and headers are their bytes. *)

From S2P Require Import Prelude CLayout Wire CmdCtrl Verbs CmTypes CmRoute CmQp RsTypes RsPost RsStream RsWorld RsInv RsRing.
From S2P Require Import RsConnect RsSvc.

Definition DS_IPV4_HDR_LEN : Z := 8.
Definition DS_IPV6_HDR_LEN : Z := 24.
Definition DS_UDP_TAG : Z := 1431655765.
Definition DS_UDP_IPV4_HDR_LEN : Z := 16.
Definition DS_UDP_IPV6_HDR_LEN : Z := 28.
Definition sizeof_ibv_grh : Z := 40.

(** ** Addresses and headers *)

(** A [union socket_addr] has 28 bytes: the family, the port, the address or the flow, and
    for IPv6 the address and the scope. *)
Definition sa_family (a : list Z) : Z := le_combine (slice 0 2 a).

Fixpoint memcmp (a b : list Z) : Z :=
  match a, b with
  | x :: a, y :: b => if x =? y then memcmp a b else x - y
  | _, _ => 0
  end.

Definition ds_compare_addr (a b : list Z) : Z :=
  let n := if (sa_family a =? AF_INET6) && (sa_family b =? AF_INET6) then 28%nat else 16%nat in
  memcmp (take n a) (take n b).

(** The [length] bytes of a [struct ds_header]. *)
Definition ds_format_hdr (a : list Z) : list Z :=
  if sa_family a =? AF_INET then [4; DS_IPV4_HDR_LEN] ++ slice 2 2 a ++ slice 4 4 a
  else [6; DS_IPV6_HDR_LEN] ++ slice 2 2 a ++ slice 4 4 a ++ slice 8 16 a.

Definition hdr_version (h : list Z) : Z := nth 0 h 0.
Definition hdr_length (h : list Z) : Z := nth 1 h 0.

(** The bytes for [addr] of the header at [h], and the new [*addrlen]. *)
Definition ds_set_src (m : mem) (h addrlen : Z) : list Z * Z :=
  let '(sa, size) :=
    if m h =? 4 then ([2; 0] ++ read_bytes m (h + 2) 2 ++ read_bytes m (h + 4) 4 ++ replicate 20 0, 16)
    else ([10; 0] ++ read_bytes m (h + 2) 2 ++ read_bytes m (h + 4) 4 ++ read_bytes m (h + 8) 16 ++ replicate 4 0, 28) in
  let n := if size <? addrlen then size else addrlen in
  (take (Z.to_nat n) sa, n).

(** ** The socket *)

(** A queue pair with what does not change once it is made. *)
Record ds_qp : Type := mkDsQp {
  q_id : Z; q_num : Z; q_hdr : list Z; q_rbuf : Z; q_smr_lkey : Z; q_rmr_lkey : Z }.

Record ds_dest : Type := mkDest { de_addr : list Z; de_qp : ds_qp; de_ah : option Z; de_qpn : Z }.

Record ds_rmsg : Type := mkRmsg { dm_qp : ds_qp; dm_offset : Z; dm_length : Z }.

Record ds_conf : Type := mkDsConf {
  dc_sbuf : Z; dc_sbuf_size : Z; dc_sq_size : Z; dc_sq_inline : Z; dc_rbuf_size : Z; dc_rq_size : Z; dc_fd_flags : Z }.

(** [d_qps]: the queue pairs with their [cq_armed], from [qp_list] around the ring;
    [d_smsg_free]: the first free slot, 0 for none. *)
Record dsock : Type := mkDs {
  d_conf : ds_conf;
  d_qps : list (ds_qp * bool);
  d_state : Z;
  d_cq_armed : bool;
  d_sqe_avail : Z;
  d_smsg_free : Z;
  d_rqe_avail : Z;
  d_dmsg : list ds_rmsg;
  d_rmsg_head : Z;
  d_rmsg_tail : Z }.

Definition set_qps (l : list (ds_qp * bool)) (s : dsock) : dsock :=
  mkDs (d_conf s) l (d_state s) (d_cq_armed s) (d_sqe_avail s) (d_smsg_free s) (d_rqe_avail s) (d_dmsg s)
    (d_rmsg_head s) (d_rmsg_tail s).
Definition set_ds_armed (b : bool) (s : dsock) : dsock :=
  mkDs (d_conf s) (d_qps s) (d_state s) b (d_sqe_avail s) (d_smsg_free s) (d_rqe_avail s) (d_dmsg s)
    (d_rmsg_head s) (d_rmsg_tail s).
Definition set_slots (avail free : Z) (s : dsock) : dsock :=
  mkDs (d_conf s) (d_qps s) (d_state s) (d_cq_armed s) avail free (d_rqe_avail s) (d_dmsg s)
    (d_rmsg_head s) (d_rmsg_tail s).
Definition set_ring (avail : Z) (l : list ds_rmsg) (head tail : Z) (s : dsock) : dsock :=
  mkDs (d_conf s) (d_qps s) (d_state s) (d_cq_armed s) (d_sqe_avail s) (d_smsg_free s) avail l head tail.

(** [dlist_insert_head] behind the first, then [qp_list = qp] *)
Definition ds_insert_qp (q : ds_qp * bool) (l : list (ds_qp * bool)) : list (ds_qp * bool) :=
  match l with [] => [q] | h :: l => q :: l ++ [h] end.

(** The ring from the one behind the queue pair that goes. *)
Fixpoint ds_remove_qp (id : Z) (before l : list (ds_qp * bool)) : list (ds_qp * bool) :=
  match l with
  | [] => before
  | q :: l => if q_id q.1 =? id then l ++ before else ds_remove_qp id (before ++ [q]) l
  end.

Definition ds_set_qp_size (max_qpsize : Z) (c : ds_conf) : ds_conf :=
  let max := u16 (Z.min max_qpsize RS_QP_MAX_SIZE) in
  let sq := if max <? dc_sq_size c then max else dc_sq_size c in
  let rq := if max <? dc_rq_size c then max else dc_rq_size c in
  let '(rq, rbuf_size) := if dc_rbuf_size c / RS_SNDLOWAT <? rq then (u16 (dc_rbuf_size c / RS_SNDLOWAT), dc_rbuf_size c)
                          else (rq, rq * RS_SNDLOWAT) in
  let '(sq, sbuf_size) := if dc_sbuf_size c / RS_SNDLOWAT <? sq then (u16 (dc_sbuf_size c / RS_SNDLOWAT), dc_sbuf_size c)
                          else (sq, sq * RS_SNDLOWAT) in
  mkDsConf (dc_sbuf c) sbuf_size sq (dc_sq_inline c) rbuf_size rq (dc_fd_flags c).

(** ** The device *)

Record ds_wc : Type := mkDsWc { dw_id : Z; dw_ok : bool; dw_byte_len : Z }.

(** Operations on the queue pair with an identifier; [dq_epoll] gives the result of
    [epoll_wait] with the queue pair of the event, or with the error. *)
Record ds_dev (D : Type) : Type := mkDsDev {
  dq_post_send : D -> Z -> app_send_wr -> D * Z;
  dq_post_recv : D -> Z -> app_recv_wr -> D * Z;
  dq_poll : D -> mem -> Z -> D * mem * option ds_wc;
  dq_notify : D -> Z -> D;
  dq_epoll : D -> D * Z * Z;
  dq_event : D -> Z -> D * Z;
  dq_ack : D -> Z -> D;
  dq_sendmsg : D -> list Z -> list Z -> Z -> D * Z * Z;
  dq_clock : D -> D * Z }.
Arguments dq_post_send {D}.
Arguments dq_post_recv {D}.
Arguments dq_poll {D}.
Arguments dq_notify {D}.
Arguments dq_epoll {D}.
Arguments dq_event {D}.
Arguments dq_ack {D}.
Arguments dq_sendmsg {D}.
Arguments dq_clock {D}.

(** A thread in a call. *)
Record dst (D : Type) : Type := mkDst { x_s : dsock; x_mem : mem; x_dev : D; x_errno : Z }.
Arguments mkDst {D}.
Arguments x_s {D}.
Arguments x_mem {D}.
Arguments x_dev {D}.
Arguments x_errno {D}.

Section Datagrams.
Context {D : Type} (dv : ds_dev D) (fuel : nat) (polling_time : Z).
Implicit Types t : dst D.

Definition on_ds (f : dsock -> dsock) t : dst D := mkDst (f (x_s t)) (x_mem t) (x_dev t) (x_errno t).
Definition ds_mem (m : mem) t : dst D := mkDst (x_s t) m (x_dev t) (x_errno t).
Definition ds_at (d : D) t : dst D := mkDst (x_s t) (x_mem t) d (x_errno t).
Definition ds_errno (e : Z) t : dst D := mkDst (x_s t) (x_mem t) (x_dev t) e.

(** [rdma_seterrno] *)
Definition ds_seterrno (r : dst D * Z) : dst D * Z :=
  let '(t, ret) := r in if ret =? 0 then (t, 0) else (ds_errno ret t, -1).

(** ** Posting *)

(** The request of [ds_post_recv]: the header of the network goes behind the slots. *)
Definition ds_rwr (c : ds_conf) (q : ds_qp) (offset : Z) : app_recv_wr :=
  rs_rwr (rs_recv_wr_id offset)
    [mkSge (u64 (q_rbuf q + dc_rbuf_size c)) sizeof_ibv_grh (q_rmr_lkey q);
     mkSge (u64 (q_rbuf q + offset)) RS_SNDLOWAT (q_rmr_lkey q)].

Definition ds_post_recv (q : ds_qp) (offset : Z) t : dst D * Z :=
  let '(d, ret) := dq_post_recv dv (x_dev t) (q_id q) (ds_rwr (d_conf (x_s t)) q offset) in ds_seterrno (ds_at d t, ret).

(** The request of [ds_post_send]. *)
Definition ds_wr (dest : ds_dest) (sge : ibv_sge) (wr_data inline : Z) : app_send_wr :=
  mkAppSend (mkSendWr (rs_send_wr_id wr_data) PNull (PAddr 0) 1 IBV_WR_SEND
               (if sge_length sge <=? inline then IBV_SEND_INLINE else 0) 0
               (mkUnion 0 (de_qpn dest) RDMA_UDP_QKEY 0 0) []) [sge] (de_ah dest).

Definition ds_post_send (dest : ds_dest) (sge : ibv_sge) (wr_data : Z) t : dst D * Z :=
  let '(d, ret) := dq_post_send dv (x_dev t) (q_id (de_qp dest)) (ds_wr dest sge wr_data (dc_sq_inline (d_conf (x_s t)))) in
  ds_seterrno (ds_at d t, ret).

(** ** Completions *)

Definition ds_valid_recv (q : ds_qp) (w : ds_wc) (m : mem) : bool :=
  let h := q_rbuf q + rs_wr_data (dw_id w) in
  (sizeof_ibv_grh + DS_IPV4_HDR_LEN <=? dw_byte_len w)
  && ((m h =? 4) && (m (h + 1) =? DS_IPV4_HDR_LEN) || (m h =? 6) && (m (h + 1) =? DS_IPV6_HDR_LEN)).

(** A completion: data goes to the ring if there is room, or its slot back to the device; a
    slot that was sent becomes the first of the free ones. *)
Definition ds_handle (q : ds_qp) (w : ds_wc) t : res (dst D) :=
  let s := x_s t in
  let off := rs_wr_data (dw_id w) in
  if rs_wr_is_recv (dw_id w) then
    if negb (d_rqe_avail s =? 0) && dw_ok w && ds_valid_recv q w (x_mem t) then
      l ← array_put (d_dmsg s) (d_rmsg_tail s) (mkRmsg q off (u32 (dw_byte_len w - sizeof_ibv_grh)));
      let tail := if d_rmsg_tail s + 1 =? dc_rq_size (d_conf s) + 1 then 0 else d_rmsg_tail s + 1 in
      Ok (on_ds (set_ring (d_rqe_avail s - 1) l (d_rmsg_head s) tail) t)
    else Ok (ds_post_recv q off t).1
  else
    let a := dc_sbuf (d_conf s) + off in
    Ok (on_ds (set_slots (d_sqe_avail s + 1) a) (ds_mem (write_bytes (x_mem t) a (le_split 8 (d_smsg_free s))) t)).

(** The inner loop over the queue pairs behind [before]; the number of completions, and
    whether the function returns. *)
Fixpoint poll_pass (before l : list (ds_qp * bool)) (cnt : nat) t : res (dst D * nat * bool) :=
  match l with
  | [] => Ok (t, cnt, false)
  | q :: l =>
      let '(d, m, x) := dq_poll dv (x_dev t) (x_mem t) (q_id q.1) in
      let t := ds_mem m (ds_at d t) in
      match x with
      | None => poll_pass (before ++ [q]) l cnt t
      | Some w =>
          t ← ds_handle q.1 w t;
          if (d_rqe_avail (x_s t) =? 0) && negb (d_sqe_avail (x_s t) =? 0)
          then Ok (on_ds (set_qps (l ++ before ++ [q])) t, cnt, true)
          else poll_pass (before ++ [q]) l (S cnt) t
      end
  end.

Fixpoint poll_passes (n : nat) t : res (dst D) :=
  match n with
  | O => Spin
  | S n' =>
      '(t, cnt, ret) ← poll_pass [] (d_qps (x_s t)) 0 t;
      if ret || Nat.eqb cnt 0 then Ok t else poll_passes n' t
  end.

Definition ds_poll_cqs t : res (dst D) :=
  match d_qps (x_s t) with [] => Ok t | _ => poll_passes fuel t end.

(** ** Waiting *)

Definition notify_one (t : dst D) (q : ds_qp * bool) : dst D :=
  if q.2 then t else ds_at (dq_notify dv (x_dev t) (q_id q.1)) t.

Definition ds_req_notify_cqs t : dst D :=
  let l := d_qps (x_s t) in
  on_ds (set_qps (map (fun q => (q.1, true)) l)) (foldl notify_one t l).

Definition ds_get_cq_event t : dst D * Z :=
  if negb (d_cq_armed (x_s t)) then (t, 0) else
  let '(d, ret, x) := dq_epoll dv (x_dev t) in
  let t := ds_at d t in
  if ret <=? 0 then (if ret =? 0 then t else ds_errno x t, ret) else
  let '(d, ret) := dq_event dv (x_dev t) x in
  let t := ds_at d t in
  if ret =? 0 then
    let disarm (q : ds_qp * bool) := if q_id q.1 =? x then (q.1, false) else q in
    (on_ds (fun s => set_ds_armed false (set_qps (map disarm (d_qps s)) s)) (ds_at (dq_ack dv (x_dev t) x) t), 0)
  else (t, ret).

Fixpoint ds_process_cqs (n : nat) (nonblock : bool) (test : dsock -> bool) t : res (dst D * Z) :=
  match n with
  | O => Spin
  | S n' =>
      t ← ds_poll_cqs t;
      if test (x_s t) then Ok (t, 0)
      else if nonblock then Ok (ds_errno EWOULDBLOCK t, -1)
      else if negb (d_cq_armed (x_s t)) then ds_process_cqs n' nonblock test (on_ds (set_ds_armed true) (ds_req_notify_cqs t))
      else
        let '(t, ret) := ds_get_cq_event t in
        if ret =? 0 then ds_process_cqs n' nonblock test t else Ok (t, ret)
  end.

Fixpoint ds_comp_loop (n : nat) (start : option Z) (nonblock : bool) (test : dsock -> bool) t : res (dst D * Z) :=
  match n with
  | O => Spin
  | S n' =>
      '(t, ret) ← ds_process_cqs fuel true test t;
      if (ret =? 0) || nonblock || negb (x_errno t =? EWOULDBLOCK) then Ok (t, ret) else
      let '(t, s) := match start with
                     | Some s => (t, s)
                     | None => let '(d, now) := dq_clock dv (x_dev t) in (ds_at d t, now)
                     end in
      let '(d, e) := dq_clock dv (x_dev t) in
      let t := ds_at d t in
      let poll_time := u32 (e - s + 1) in
      if poll_time <=? polling_time
      then ds_comp_loop n' (if poll_time =? 0 then None else Some s) nonblock test t
      else ds_process_cqs fuel false test t
  end.

Definition ds_get_comp (nonblock : bool) (test : dsock -> bool) t : res (dst D * Z) := ds_comp_loop fuel None nonblock test t.

Definition ds_can_send (s : dsock) : bool := negb (d_sqe_avail s =? 0).
Definition ds_all_sends_done (s : dsock) : bool := d_sqe_avail s =? dc_sq_size (d_conf s).
Definition ds_have_rdata (s : dsock) : bool := negb (d_rmsg_head s =? d_rmsg_tail s).
Definition ds_nonblocking t (flags : Z) : bool := has (dc_fd_flags (d_conf (x_s t))) O_NONBLOCK || has flags MSG_DONTWAIT.

(** ** Receiving *)

(** [addrlen]: [*addrlen], if it is given.  The result is the length with the bytes of the
    source and their number. *)
Definition ds_recvfrom (buf len flags : Z) (addrlen : option Z) t : res (dst D * Z * option (list Z * Z)) :=
  if negb (has (d_state (x_s t)) rs_readable) then Ok (ds_errno EINVAL t, -1, None) else
  '(t, ret) ← (if ds_have_rdata (x_s t) then Ok (t, 0) else ds_get_comp (ds_nonblocking t flags) ds_have_rdata t);
  if negb (ret =? 0) then Ok (t, ret, None) else
  let s := x_s t in
  g ← array_get (d_dmsg s) (d_rmsg_head s);
  let h := q_rbuf (dm_qp g) + dm_offset g in
  let hl := x_mem t (h + 1) in
  let max := u32 (dm_length g - hl) in
  let len := if max <? len then max else len in
  let m := memcpy (x_mem t) buf (h + hl) len in
  let t := ds_mem m t in
  let src := ds_set_src m h <$> addrlen in
  let t := if has flags MSG_PEEK then t else
    let '(t, _) := ds_post_recv (dm_qp g) (dm_offset g) t in
    let head := if d_rmsg_head s + 1 =? dc_rq_size (d_conf s) + 1 then 0 else d_rmsg_head s + 1 in
    on_ds (fun s => set_ring (d_rqe_avail s + 1) (d_dmsg s) head (d_rmsg_tail s) s) t in
  Ok (t, len, src).

(** ** Sending *)

(** The header for the service thread of the peer. *)
Definition udp_header (q : ds_qp) (op : Z) : list Z :=
  let v4 := hdr_version (q_hdr q) =? 4 in
  le_split 4 (bswap 4 DS_UDP_TAG) ++ [hdr_version (q_hdr q); op; if v4 then DS_UDP_IPV4_HDR_LEN else DS_UDP_IPV6_HDR_LEN; 0]
    ++ le_split 4 (bswap 4 (Z.land (q_num q) 16777215))
    ++ (if v4 then slice 4 4 (q_hdr q) else slice 4 16 (q_hdr q)).

Definition ds_send_udp (dest : ds_dest) (bytes : list Z) (flags op : Z) t : dst D * Z :=
  let hdr := udp_header (de_qp dest) op in
  let '(d, ret, e) := dq_sendmsg dv (x_dev t) (de_addr dest) (hdr ++ bytes) flags in
  let t := ds_at d t in
  (if ret <? 0 then ds_errno e t else t, if 0 <? ret then ret - Z.of_nat (length hdr) else ret).

(** The first free slot is filled with a header and data, and posted. *)
Definition send_slot (dest : ds_dest) (hdr bytes : list Z) t : res (dst D * Z) :=
  let a := d_smsg_free (x_s t) in
  if a =? 0 then Ub else
  let next := le_combine (read_bytes (x_mem t) a 8) in
  let t := on_ds (fun s => set_slots (d_sqe_avail s - 1) next s) t in
  let m := write_bytes (x_mem t) a hdr in
  let t := ds_mem (write_bytes m (a + Z.of_nat (length hdr)) bytes) t in
  let sge := mkSge a (u32 (Z.of_nat (length hdr + length bytes))) (q_smr_lkey (de_qp dest)) in
  Ok (ds_post_send dest sge (u32 (a - dc_sbuf (d_conf (x_s t)))) t).

Definition dsend (dest : ds_dest) (bytes : list Z) (flags : Z) t : res (dst D * Z) :=
  match de_ah dest with
  | None => Ok (ds_send_udp dest bytes flags RS_OP_DATA t)
  | Some _ =>
      '(t, ret) ← (if ds_can_send (x_s t) then Ok (t, 0) else ds_get_comp (ds_nonblocking t flags) ds_can_send t);
      if negb (ret =? 0) then Ok (t, ret) else
      '(t, ret) ← send_slot dest (q_hdr (de_qp dest)) bytes t;
      Ok (t, if ret =? 0 then Z.of_nat (length bytes) else ret)
  end.

(** ** The service thread *)

Definition udp_svc_valid_udp_hdr (h addr : list Z) : bool :=
  (le_combine (slice 0 4 h) =? bswap 4 DS_UDP_TAG)
  && ((nth 4 h 0 =? 4) && (sa_family addr =? AF_INET) && (nth 6 h 0 =? DS_UDP_IPV4_HDR_LEN)
      || (nth 4 h 0 =? 6) && (sa_family addr =? AF_INET6) && (nth 6 h 0 =? DS_UDP_IPV6_HDR_LEN)).

(** A datagram that came over UDP from [src] goes to the queue pair of the socket itself. *)
Definition udp_svc_forward (dest : ds_dest) (bytes src : list Z) t : res (dst D) :=
  '(t, ret) ← (if ds_can_send (x_s t) then Ok (t, 0) else ds_get_comp false ds_can_send t);
  if negb (ret =? 0) then Ok t else
  '(t, _) ← send_slot dest (ds_format_hdr src) bytes t; Ok t.

(** ** The slots of a new socket *)

Fixpoint link_slots (n : nat) (a : Z) (m : mem) : mem :=
  match n with
  | O => write_bytes m a (le_split 8 0)
  | S n' => link_slots n' (a + RS_SNDLOWAT) (write_bytes m a (le_split 8 (a + RS_SNDLOWAT)))
  end.

(** The part of [ds_init_ep] behind the allocations, with the result of asking the service. *)
Definition ds_init_ep (svc : Z) (dmsg : list ds_rmsg) t : dst D * Z :=
  let c := d_conf (x_s t) in
  let m := link_slots (Z.to_nat (dc_sq_size c - 1)) (dc_sbuf c) (x_mem t) in
  let t := ds_mem m (on_ds (fun s => set_ring (dc_rq_size c) dmsg (d_rmsg_head s) (d_rmsg_tail s)
                                       (set_slots (dc_sq_size c) (dc_sbuf c) s)) t) in
  if negb (svc =? 0) then (t, svc) else
  (on_ds (fun s => mkDs (d_conf s) (d_qps s) (Z.lor rs_readable rs_writable) (d_cq_armed s) (d_sqe_avail s) (d_smsg_free s)
            (d_rqe_avail s) (d_dmsg s) (d_rmsg_head s) (d_rmsg_tail s)) t, 0).

End Datagrams.

(** ** Slots of the send buffer *)

(** The free slots from [p] on, linked through their first words. *)
Fixpoint chain (m : mem) (p : Z) (l : list Z) : Prop :=
  match l with
  | [] => p = 0
  | a :: l => p = a /\ chain m (le_combine (read_bytes m a 8)) l
  end.

Definition all_slots (c : ds_conf) : list Z := (fun i => dc_sbuf c + i * RS_SNDLOWAT) <$> seqZ 0 (dc_sq_size c).

(** The slots are the free ones and those that are being sent, [out]. *)
Record slots_ok (s : dsock) (m : mem) (free out : list Z) : Prop := {
  sl_buf : 0 < dc_sbuf (d_conf s) /\ dc_sbuf (d_conf s) + dc_sq_size (d_conf s) * RS_SNDLOWAT < 2 ^ 64 /\
    0 <= dc_sq_size (d_conf s) <= RS_QP_MAX_SIZE;
  sl_chain : chain m (d_smsg_free s) free;
  sl_avail : d_sqe_avail s = zlen free;
  sl_all : free ++ out ≡ₚ all_slots (d_conf s) }.

Lemma in_all_slots c a : a ∈ all_slots c <-> exists i, a = dc_sbuf c + i * RS_SNDLOWAT /\ 0 <= i < dc_sq_size c.
Proof. unfold all_slots. rewrite list_elem_of_fmap. setoid_rewrite elem_of_seqZ. naive_solver lia. Qed.

Lemma slots_once c : NoDup (all_slots c).
Proof. apply NoDup_fmap; [|apply NoDup_seqZ]. intros i j. unfold RS_SNDLOWAT. lia. Qed.

Lemma slots_apart c a b : a ∈ all_slots c -> b ∈ all_slots c -> a <> b -> a + RS_SNDLOWAT <= b \/ b + RS_SNDLOWAT <= a.
Proof. unfold RS_SNDLOWAT. intros (i & -> & _)%in_all_slots (j & -> & _)%in_all_slots Hne. unfold RS_SNDLOWAT in *. lia. Qed.

(** What is written into other slots does not change the chain. *)
Lemma chain_write c m m' a l : forall p, chain m p l -> a ∈ all_slots c -> a ∉ l -> (forall b, b ∈ l -> b ∈ all_slots c) ->
  (forall x, x < a \/ a + RS_SNDLOWAT <= x -> m' x = m x) -> chain m' p l.
Proof.
  induction l as [|b l IH]; intros p Hc Ha Hn Hl Hm; [done|]. destruct Hc as [-> Hc]. rewrite not_elem_of_cons in Hn.
  destruct Hn as [Hne Hn]. split; [done|].
  replace (read_bytes m' b 8) with (read_bytes m b 8).
  - apply IH; [done|done|done| |done]. intros x Hx. apply Hl. by right.
  - apply read_bytes_ext. intros i Hi. symmetry. apply Hm.
    destruct (slots_apart c a b) as [H|H]; [done|apply Hl; by left|done| |]; unfold RS_SNDLOWAT in *; lia.
Qed.

Lemma slots_in s m free out : slots_ok s m free out -> forall a, a ∈ free \/ a ∈ out <-> a ∈ all_slots (d_conf s).
Proof. intros Ho a. by rewrite <- (sl_all _ _ _ _ Ho), elem_of_app. Qed.

Lemma slots_nodup s m free out : slots_ok s m free out -> NoDup (free ++ out).
Proof. intros Ho. rewrite (sl_all _ _ _ _ Ho). apply slots_once. Qed.

Lemma slot_pos s m free out a : slots_ok s m free out -> a ∈ all_slots (d_conf s) ->
  0 < a /\ dc_sbuf (d_conf s) <= a /\ a + RS_SNDLOWAT < 2 ^ 64 /\ 0 <= a - dc_sbuf (d_conf s) < 2 ^ 32.
Proof.
  intros [(H1 & H2 & H3) _ _ _] (i & -> & Hi)%in_all_slots. unfold RS_SNDLOWAT, RS_QP_MAX_SIZE in *. nia.
Qed.

(** The bytes of a header and of data behind it. *)
Lemma read_two m a h bs : read_bytes (write_bytes (write_bytes m a h) (a + zlen h) bs) a (zlen h + zlen bs) = h ++ bs.
Proof.
  rewrite read_bytes_app by apply zlen_nonneg. f_equal; [|apply read_write].
  rewrite read_write_out by (unfold zlen; lia). apply read_write.
Qed.

Lemma write_two_out m a h bs x : x < a \/ a + (zlen h + zlen bs) <= x ->
  write_bytes (write_bytes m a h) (a + zlen h) bs x = m x.
Proof. unfold zlen. intros Hx. rewrite !write_bytes_out by lia. done. Qed.

Lemma word_read m a z : 0 <= z < 2 ^ 64 -> le_combine (read_bytes (write_bytes m a (le_split 8 z)) a 8) = z.
Proof.
  intros Hz. pose proof (read_write m a (le_split 8 z)) as E. rewrite le_split_length in E. change (Z.of_nat 8) with 8 in E.
  by rewrite E, le_combine_split.
Qed.

Section Slots.
Context {D : Type} (dv : ds_dev D).
Implicit Types t : dst D.

Lemma post_send_keeps dest sge n t t' ret : ds_post_send dv dest sge n t = (t', ret) ->
  x_s t' = x_s t /\ x_mem t' = x_mem t /\
  x_dev t' = (dq_post_send dv (x_dev t) (q_id (de_qp dest)) (ds_wr dest sge n (dc_sq_inline (d_conf (x_s t))))).1.
Proof. unfold ds_post_send, ds_seterrno. intros H. by repeat case_match; simplify_eq. Qed.

(** A message takes the first free slot. *)
Lemma send_slot_ok dest hdr bytes t a free out : slots_ok (x_s t) (x_mem t) (a :: free) out ->
  zlen hdr + zlen bytes <= RS_SNDLOWAT ->
  let n := zlen hdr + zlen bytes in
  let c := d_conf (x_s t) in
  exists t' ret, send_slot dv dest hdr bytes t = Ok (t', ret) /\ d_conf (x_s t') = c /\
    x_dev t' = (dq_post_send dv (x_dev t) (q_id (de_qp dest))
                  (ds_wr dest (mkSge a n (q_smr_lkey (de_qp dest))) (a - dc_sbuf c) (dc_sq_inline c))).1 /\
    read_bytes (x_mem t') a n = hdr ++ bytes /\
    (forall x, x < a \/ a + n <= x -> x_mem t' x = x_mem t x) /\
    slots_ok (x_s t') (x_mem t') free (a :: out).
Proof.
  intros Ho Hl n c. pose proof (zlen_nonneg hdr). pose proof (zlen_nonneg bytes).
  assert (Ha : a ∈ all_slots c) by (apply (slots_in _ _ _ _ Ho); left; left).
  destruct (slot_pos _ _ _ _ _ Ho Ha) as (Hp & _ & _ & Hoff).
  destruct (sl_chain _ _ _ _ Ho) as [Hf Hc]. unfold send_slot. rewrite Hf. destruct (Z.eqb_spec a 0); [lia|].
  set (next := le_combine _) in *. replace (u32 (Z.of_nat (length hdr + length bytes))) with n;
    [|rewrite u32_small; unfold n, zlen, RS_SNDLOWAT in *; lia].
  cbn [x_s on_ds ds_mem d_conf set_slots x_mem]. rewrite u32_small by done. fold (zlen hdr).
  set (m' := write_bytes _ _ bytes). destruct (ds_post_send _ _ _ _ _) as [t' ret] eqn:E.
  apply post_send_keeps in E as (Hs & Hm & Hd). cbn in Hs, Hm. exists t', ret. split; [done|]. rewrite Hs, Hm.
  split; [done|]. split; [exact Hd|]. split; [apply read_two|]. split; [intros x Hx; by apply write_two_out|].
  pose proof (slots_nodup _ _ _ _ Ho) as Hn. simpl in Hn. apply NoDup_cons in Hn as [Hna _]. split.
  - apply (sl_buf _ _ _ _ Ho).
  - apply (chain_write c (x_mem t) _ a); [done|done|by intros ?; apply Hna, elem_of_app; left| |].
    + intros b Hb. apply (slots_in _ _ _ _ Ho). left. by right.
    + intros x Hx. apply write_two_out. unfold n in *. lia.
  - cbn. rewrite (sl_avail _ _ _ _ Ho), zlen_cons. lia.
  - cbn. rewrite <- (sl_all _ _ _ _ Ho). simpl. symmetry. apply Permutation_middle.
Qed.

(** The completion of a slot gives it back. *)
Lemma sent_slot_ok q ok n t a free out : slots_ok (x_s t) (x_mem t) free out -> a ∈ out ->
  exists t' out', ds_handle dv q (mkDsWc (rs_send_wr_id (a - dc_sbuf (d_conf (x_s t)))) ok n) t = Ok t' /\
    out ≡ₚ a :: out' /\ d_conf (x_s t') = d_conf (x_s t) /\ slots_ok (x_s t') (x_mem t') (a :: free) out'.
Proof.
  intros Ho Hin. assert (Ha : a ∈ all_slots (d_conf (x_s t))) by (apply (slots_in _ _ _ _ Ho); by right).
  destruct (slot_pos _ _ _ _ _ Ho Ha) as (Hp & Hb & H64 & Hoff).
  apply elem_of_Permutation in Hin as [out' Hout]. pose proof (slots_nodup _ _ _ _ Ho) as Hn.
  unfold ds_handle, rs_send_wr_id. cbn [dw_id]. rewrite msg_not_recv by done. unfold rs_wr_data. rewrite u32_small by done.
  replace (dc_sbuf (d_conf (x_s t)) + (a - dc_sbuf (d_conf (x_s t)))) with a by lia.
  eexists _, out'. split; [reflexivity|]. split; [done|]. split; [done|]. rewrite Hout in Hn. split; cbn -[le_split].
  - apply (sl_buf _ _ _ _ Ho).
  - assert (Hfree : 0 <= d_smsg_free (x_s t) < 2 ^ 64).
    { pose proof (sl_chain _ _ _ _ Ho) as Hc. destruct free as [|b free]; [cbn in Hc; lia|]. destruct Hc as [-> _].
      destruct (slot_pos _ _ _ _ b Ho) as (? & _ & ? & _); [apply (slots_in _ _ _ _ Ho); left; left|]. unfold RS_SNDLOWAT in *. lia. }
    split; [done|]. rewrite word_read by done.
    apply (chain_write (d_conf (x_s t)) (x_mem t) _ a); [apply (sl_chain _ _ _ _ Ho)|done| | |].
    + apply NoDup_app in Hn as (_ & Hn & _). intros Hf. apply (Hn a Hf). left.
    + intros b Hb'. apply (slots_in _ _ _ _ Ho). by left.
    + intros x Hx. apply write_bytes_out. rewrite le_split_length. unfold RS_SNDLOWAT in *. lia.
  - rewrite (sl_avail _ _ _ _ Ho), zlen_cons. lia.
  - rewrite <- (sl_all _ _ _ _ Ho), Hout. apply Permutation_middle.
Qed.

(** ** A new socket *)

Lemma link_slots_out n : forall a m x, 0 <= x < a -> link_slots n a m x = m x.
Proof.
  induction n as [|n IH]; intros a m x Hx; cbn [link_slots].
  - apply write_bytes_out. lia.
  - rewrite IH by (unfold RS_SNDLOWAT; lia). apply write_bytes_out. lia.
Qed.

Fixpoint slots_from (n : nat) (a : Z) : list Z :=
  match n with O => [a] | S n' => a :: slots_from n' (a + RS_SNDLOWAT) end.

Lemma slots_from_all n : forall a, slots_from n a = (fun i => a + i * RS_SNDLOWAT) <$> seqZ 0 (Z.of_nat n + 1).
Proof.
  induction n as [|n IH]; intros a.
  - unfold seqZ. simpl. by rewrite Z.add_0_r.
  - cbn [slots_from]. rewrite IH, (seqZ_cons 0 (Z.of_nat (S n) + 1)) by lia. cbn [fmap list_fmap]. rewrite Z.mul_0_l, Z.add_0_r. f_equal.
    replace (Z.pred (Z.of_nat (S n) + 1)) with (Z.of_nat n + 1) by lia. change (Z.succ 0) with (1 + 0).
    rewrite <- fmap_add_seqZ, <- list_fmap_compose. apply list_fmap_ext. intros ? x _. cbn [compose]. lia.
Qed.

Lemma link_slots_chain n : forall a m, 0 < a -> a + (Z.of_nat n + 1) * RS_SNDLOWAT < 2 ^ 64 ->
  chain (link_slots n a m) a (slots_from n a).
Proof.
  induction n as [|n IH]; intros a m Ha Hl; cbn [link_slots slots_from chain]; split; try done.
  - by apply word_read.
  - erewrite (read_bytes_ext _ (write_bytes m a (le_split 8 (a + RS_SNDLOWAT)))).
    + rewrite word_read by (unfold RS_SNDLOWAT in *; lia). apply IH; unfold RS_SNDLOWAT in *; lia.
    + intros x Hx. apply link_slots_out. unfold RS_SNDLOWAT. lia.
Qed.

Lemma init_slots dmsg t : let c := d_conf (x_s t) in 0 < dc_sbuf c -> 0 < dc_sq_size c <= RS_QP_MAX_SIZE ->
  dc_sbuf c + dc_sq_size c * RS_SNDLOWAT < 2 ^ 64 ->
  let t' := (ds_init_ep 0 dmsg t).1 in slots_ok (x_s t') (x_mem t') (all_slots c) [].
Proof.
  intros c Hb Hq Hl. cbn. split; cbn; fold c.
  - unfold RS_QP_MAX_SIZE in *. lia.
  - unfold all_slots. replace (dc_sq_size c) with (Z.of_nat (Z.to_nat (dc_sq_size c - 1)) + 1) at 2 by lia.
    rewrite <- slots_from_all. apply link_slots_chain; [done|]. unfold RS_SNDLOWAT in *. lia.
  - unfold zlen, all_slots. rewrite length_fmap, length_seqZ. lia.
  - by rewrite app_nil_r.
Qed.

(** ** The states of the send buffer *)

(** A socket after messages that fitted their slots and completions of slots that are out:
    those of [out] now. *)
Inductive sending (c : ds_conf) : dst D -> list Z -> Prop :=
  | sending_init dmsg t : d_conf (x_s t) = c -> sending c (ds_init_ep 0 dmsg t).1 []
  | sending_send t out dest hdr bytes t' ret : sending c t out -> ds_can_send (x_s t) = true ->
      zlen hdr + zlen bytes <= RS_SNDLOWAT -> send_slot dv dest hdr bytes t = Ok (t', ret) ->
      sending c t' (d_smsg_free (x_s t) :: out)
  | sending_sent t out out' q ok n a t' : sending c t out -> out ≡ₚ a :: out' ->
      ds_handle dv q (mkDsWc (rs_send_wr_id (a - dc_sbuf c)) ok n) t = Ok t' -> sending c t' out'.

(** A send buffer at its place. *)
Definition sendable (c : ds_conf) : Prop :=
  0 < dc_sbuf c /\ 0 < dc_sq_size c <= RS_QP_MAX_SIZE /\ dc_sbuf c + dc_sq_size c * RS_SNDLOWAT < 2 ^ 64.

Lemma can_send_free t free out : slots_ok (x_s t) (x_mem t) free out -> ds_can_send (x_s t) = true ->
  exists free', free = d_smsg_free (x_s t) :: free'.
Proof.
  intros Ho Hc. unfold ds_can_send in Hc. rewrite (sl_avail _ _ _ _ Ho) in Hc. pose proof (sl_chain _ _ _ _ Ho) as Hch.
  destruct free as [|a free]; [done|]. destruct Hch as [-> _]. by exists free.
Qed.

Lemma sending_ok c t out : sendable c -> sending c t out -> d_conf (x_s t) = c /\ exists free, slots_ok (x_s t) (x_mem t) free out.
Proof.
  intros (H1 & H2 & H3) Hs. induction Hs as [dmsg t Hc|t out dest hdr bytes t' ret _ [Hc [free IH]] Hcan Hl E|t out out' q ok n a t' _ [Hc [free IH]] Hp E].
  - split; [done|]. exists (all_slots c). subst c. by apply init_slots.
  - destruct (can_send_free _ _ _ IH Hcan) as [free' ->]. subst c.
    destruct (send_slot_ok dest hdr bytes _ _ _ _ IH Hl) as (t2 & ret2 & E2 & Hc2 & _ & _ & _ & Ho).
    rewrite E2 in E. injection E as -> ->. eauto.
  - subst c. destruct (sent_slot_ok q ok n t a free out IH) as (t2 & out2 & E2 & Hp2 & Hc2 & Ho2); [rewrite Hp; left|].
    rewrite E in E2. injection E2 as <-. assert (Ho' : out2 ≡ₚ out') by (eapply Permutation_cons_inv; by rewrite <- Hp2).
    split; [done|]. exists (a :: free). destruct Ho2. split; try done. by rewrite <- Ho'.
Qed.

(** C23: As long as every message that was sent fitted a slot with its header, which is not
    checked, the messages under way have different slots of the send buffer, and the count
    of free ones is right; a message the device refused counts as under way.  A message that
    is sent then, if it fits as well, goes into a slot that is free: what is posted are its
    header and its data, and no message under way is changed. *)
Theorem datagram_slots_exclusive c t out : sendable c -> sending c t out ->
  NoDup out /\ Forall (fun a => a ∈ all_slots c) out /\ d_sqe_avail (x_s t) = dc_sq_size c - zlen out /\
  (ds_can_send (x_s t) = true -> forall dest hdr bytes, zlen hdr + zlen bytes <= RS_SNDLOWAT ->
     exists t' ret a, send_slot dv dest hdr bytes t = Ok (t', ret) /\ a ∈ all_slots c /\ ~ (a ∈ out) /\
       let sge := mkSge a (zlen hdr + zlen bytes) (q_smr_lkey (de_qp dest)) in
       x_dev t' = (dq_post_send dv (x_dev t) (q_id (de_qp dest)) (ds_wr dest sge (a - dc_sbuf c) (dc_sq_inline c))).1 /\
       gather (x_mem t') [sge] = hdr ++ bytes /\
       forall b, b ∈ out -> read_bytes (x_mem t') b RS_SNDLOWAT = read_bytes (x_mem t) b RS_SNDLOWAT).
Proof.
  intros Hc Hs. destruct (sending_ok c t out Hc Hs) as (Hconf & free & Ho). pose proof (slots_nodup _ _ _ _ Ho) as Hn.
  pose proof Hn as (_ & Hd & Hout)%NoDup_app. split; [done|]. subst c. split; [|split].
  - apply Forall_forall. intros a Ha. apply (slots_in _ _ _ _ Ho). by right.
  - pose proof (Permutation_length (sl_all _ _ _ _ Ho)) as Hl. rewrite length_app in Hl. unfold all_slots in Hl.
    rewrite length_fmap, length_seqZ in Hl. rewrite (sl_avail _ _ _ _ Ho). destruct Hc as (_ & ? & _). unfold zlen. lia.
  - intros Hcan dest hdr bytes Hl. destruct (can_send_free _ _ _ Ho Hcan) as [free' Hf]. rewrite Hf in Ho, Hd.
    destruct (send_slot_ok dest hdr bytes _ _ _ _ Ho Hl) as (t' & ret & E & _ & Hdev & Hr & Hm & _).
    exists t', ret, (d_smsg_free (x_s t)). split; [done|].
    assert (Ha : d_smsg_free (x_s t) ∈ all_slots (d_conf (x_s t))) by (apply (slots_in _ _ _ _ Ho); left; left).
    assert (Hna : d_smsg_free (x_s t) ∉ out) by (apply Hd; left). split; [done|]. split; [done|]. split; [done|].
    split; [unfold gather; cbn; by rewrite app_nil_r|]. intros b Hb. apply read_bytes_ext. intros x Hx. apply Hm.
    destruct (slots_apart (d_conf (x_s t)) (d_smsg_free (x_s t)) b); [done|apply (slots_in _ _ _ _ Ho); by right|by intros <-| |]; lia.
Qed.
End Slots.

(** ** Addresses through headers *)

Inductive ip_addr : Type :=
  | V4 (port ip : list Z)
  | V6 (port flow ip : list Z).

Definition ip_ok (a : ip_addr) : Prop :=
  match a with
  | V4 port ip => length port = 2%nat /\ length ip = 4%nat
  | V6 port flow ip => length port = 2%nat /\ length flow = 4%nat /\ length ip = 16%nat
  end.

(** The socket address; [scope] is the padding, or the scope of IPv6. *)
Definition sockaddr_in_scope (a : ip_addr) (scope : list Z) : list Z :=
  match a with
  | V4 port ip => [2; 0] ++ port ++ ip ++ scope
  | V6 port flow ip => [10; 0] ++ port ++ flow ++ ip ++ scope
  end.

(** The one with scope 0. *)
Definition sockaddr (a : ip_addr) : list Z :=
  sockaddr_in_scope a (replicate (match a with V4 _ _ => 20 | V6 _ _ _ => 4 end) 0).

Definition sockaddr_len (a : ip_addr) : Z := match a with V4 _ _ => 16 | V6 _ _ _ => 28 end.

(** The header of a message from [a]. *)
Definition header (a : ip_addr) : list Z :=
  match a with
  | V4 port ip => [4; DS_IPV4_HDR_LEN] ++ port ++ ip
  | V6 port flow ip => [6; DS_IPV6_HDR_LEN] ++ port ++ flow ++ ip
  end.

Lemma format_header a scope : ip_ok a -> ds_format_hdr (sockaddr_in_scope a scope) = header a.
Proof.
  destruct a as [port ip|port flow ip]; cbn [ip_ok].
  - intros [Hp Hi]. do 3 (destruct port as [|? port]; try done). by do 5 (destruct ip as [|? ip]; try done).
  - intros (Hp & Hf & Hi). do 3 (destruct port as [|? port]; try done). do 5 (destruct flow as [|? flow]; try done).
    by do 17 (destruct ip as [|? ip]; try done).
Qed.

Definition header_len (a : ip_addr) : Z := match a with V4 _ _ => 8 | V6 _ _ _ => 24 end.

Lemma header_length a : ip_ok a -> zlen (header a) = header_len a.
Proof. destruct a; cbn [ip_ok header]; unfold zlen; rewrite !length_app; simpl; lia. Qed.

Lemma min_if size n : (if size <? n then size else n) = Z.min n size.
Proof. destruct (Z.ltb_spec size n); lia. Qed.

(** A header in memory. *)
Lemma header_at m h a : ip_ok a -> read_bytes m h (header_len a) = header a ->
  m h = hdr_version (header a) /\ m (h + 1) = header_len a /\
  forall addrlen, 0 <= addrlen -> ds_set_src m h addrlen = (take (Z.to_nat (Z.min addrlen (sockaddr_len a))) (sockaddr a), Z.min addrlen (sockaddr_len a)).
Proof.
  intros Ha Hm.
  assert (Hs : forall o n, 0 <= o -> 0 <= n -> o + n <= header_len a -> read_bytes m (h + o) n = slice o n (header a)).
  { intros o n H0 H1 H2. by rewrite <- Hm, slice_read. }
  assert (Hb : forall o, 0 <= o < header_len a -> [m (h + o)] = slice o 1 (header a)).
  { intros o Hoo. rewrite <- Hs by lia. unfold read_bytes, seqZ. simpl. by rewrite Z.add_0_l. }
  assert (H8 : 8 <= header_len a) by (destruct a; simpl; lia).
  pose proof (Hb 0 ltac:(lia)) as H0. pose proof (Hb 1 ltac:(lia)) as H1. rewrite Z.add_0_r in H0.
  pose proof (Hs 2 2 ltac:(lia) ltac:(lia) ltac:(lia)) as Hport. pose proof (Hs 4 4 ltac:(lia) ltac:(lia) ltac:(lia)) as Hnext.
  destruct a as [port ip|port flow ip]; cbn in Ha, H0, H1; injection H0 as H0; injection H1 as H1.
  - split; [done|]. split; [done|]. intros addrlen Hl. unfold ds_set_src. rewrite H0, Hport, Hnext. cbn [Z.eqb Pos.eqb sockaddr_len].
    rewrite min_if. replace (slice 2 2 _) with port; [replace (slice 4 4 _) with ip; [done|]|].
    all: destruct Ha; do 3 (destruct port as [|? port]; try done); by do 5 (destruct ip as [|? ip]; try done).
  - split; [done|]. split; [done|]. intros addrlen Hl. unfold ds_set_src. rewrite H0, Hport, Hnext, (Hs 8 16) by (simpl; lia).
    cbn [Z.eqb Pos.eqb sockaddr_len]. rewrite min_if.
    replace (slice 2 2 _) with port; [replace (slice 4 4 _) with flow; [replace (slice 8 16 _) with ip; [done|]|]|].
    all: destruct Ha as (? & ? & ?); do 3 (destruct port as [|? port]; try done); do 5 (destruct flow as [|? flow]; try done);
      by do 17 (destruct ip as [|? ip]; try done).
Qed.

Lemma recv_id off : 0 <= off < 2 ^ 32 -> rs_wr_is_recv (rs_recv_wr_id off) = true /\ rs_wr_data (rs_recv_wr_id off) = off.
Proof.
  intros Ho. unfold rs_wr_is_recv, rs_recv_wr_id, rs_wr_data, has, RS_WR_ID_FLAG_RECV, u32. split.
  - apply negb_true_iff, Z.eqb_neq. rewrite Z.land_lor_distr_l, Z.land_diag. intros [H _]%Z.lor_eq_0_iff. done.
  - rewrite <- Z.land_ones, Z.land_lor_distr_l by done. change (Z.land (2 ^ 63) (Z.ones 32)) with 0. rewrite Z.lor_0_l.
    rewrite Z.land_ones by done. by apply Z.mod_small.
Qed.

(** ** The ring of messages that came *)

Record ds_ring (s : dsock) (rm : list ds_rmsg) : Prop := {
  dr_ring : ring_of id (d_dmsg s) (dc_rq_size (d_conf s) + 1) (d_rmsg_head s) (d_rmsg_tail s) rm;
  dr_avail : d_rqe_avail s = dc_rq_size (d_conf s) - zlen rm }.

Lemma ring_tail {A B} (key : A -> B) l n head tail rm : ring_of key l n head tail rm ->
  exists i, tail = Z.of_nat i /\ (i < length l)%nat.
Proof.
  intros [Hl Hh Ht Hf _]. pose proof (Z.mod_pos_bound (head + zlen rm) n ltac:(lia)). exists (Z.to_nat tail). lia.
Qed.

Section Polls.
Context {D : Type} (dv : ds_dev D).
Implicit Types t : dst D.

Lemma post_recv_keeps q off t : let t' := (ds_post_recv dv q off t).1 in
  x_s t' = x_s t /\ x_mem t' = x_mem t /\ x_dev t' = (dq_post_recv dv (x_dev t) (q_id q) (ds_rwr (d_conf (x_s t)) q off)).1.
Proof. unfold ds_post_recv, ds_seterrno. destruct (dq_post_recv _ _ _ _) as [d ret]. cbn. by destruct (ret =? 0). Qed.

(** A message that is stored. *)
Lemma store_ring t rm g : ds_ring (x_s t) rm -> d_rqe_avail (x_s t) <> 0 ->
  exists l, array_put (d_dmsg (x_s t)) (d_rmsg_tail (x_s t)) g = Ok l /\
    ds_ring (set_ring (d_rqe_avail (x_s t) - 1) l (d_rmsg_head (x_s t))
      (if d_rmsg_tail (x_s t) + 1 =? dc_rq_size (d_conf (x_s t)) + 1 then 0 else d_rmsg_tail (x_s t) + 1) (x_s t)) (rm ++ [g]).
Proof.
  intros [Hr Ha] Hne. destruct (ring_tail _ _ _ _ _ _ Hr) as (i & Hi & Hlt). rewrite Hi, array_put_ok by done.
  eexists. split; [reflexivity|]. pose proof (rv_fit _ _ _ _ _ _ Hr). split; cbn.
  - rewrite Hi in Hr. pose proof (ring_push id _ _ _ _ _ g Hr ltac:(lia)) as Hp. by rewrite Nat2Z.id in Hp.
  - rewrite zlen_app. unfold zlen at 2. simpl. lia.
Qed.

Lemma handle_ring q w t rm : ds_ring (x_s t) rm ->
  exists t' new, ds_handle dv q w t = Ok t' /\ ds_ring (x_s t') (rm ++ new) /\ d_qps (x_s t') = d_qps (x_s t) /\
    (x_dev t' = x_dev t \/ exists r, x_dev t' = (dq_post_recv dv (x_dev t) (q_id q) r).1).
Proof.
  intros Hr. unfold ds_handle. destruct (rs_wr_is_recv (dw_id w)).
  - destruct (negb (d_rqe_avail (x_s t) =? 0) && dw_ok w && ds_valid_recv q w (x_mem t)) eqn:E.
    + apply andb_prop in E as [[Hz _]%andb_prop _]. apply negb_true_iff, Z.eqb_neq in Hz.
      destruct (store_ring t rm (mkRmsg q (rs_wr_data (dw_id w)) (u32 (dw_byte_len w - sizeof_ibv_grh))) Hr Hz) as (l & El & Hr').
      rewrite El. eexists _, [_]. split; [reflexivity|]. split; [exact Hr'|]. split; [done|]. by left.
    + destruct (post_recv_keeps q (rs_wr_data (dw_id w)) t) as (Hs & _ & Hd). eexists _, []. split; [reflexivity|].
      rewrite Hs, app_nil_r. split; [done|]. split; [done|]. right. eauto.
  - eexists _, []. split; [reflexivity|]. rewrite app_nil_r. split; [by destruct Hr|]. split; [done|]. by left.
Qed.

(** The device has [pending] completions at most. *)
Context (pending : D -> nat).
Hypothesis poll_takes : forall d m q, match dq_poll dv d m q with
  | (d', _, Some _) => (pending d' < pending d)%nat
  | (d', _, None) => (pending d' <= pending d)%nat
  end.
Hypothesis post_adds_none : forall d q w, (pending (dq_post_recv dv d q w).1 <= pending d)%nat.

Lemma pass_ends l : forall before cnt t rm, ds_ring (x_s t) rm ->
  exists t' cnt' r new, poll_pass dv before l cnt t = Ok (t', cnt', r) /\ ds_ring (x_s t') (rm ++ new) /\
    (pending (x_dev t') + cnt' <= pending (x_dev t) + cnt)%nat /\
    (if r : bool then exists l1 l2, l = l1 ++ l2 /\ d_qps (x_s t') = l2 ++ before ++ l1 else d_qps (x_s t') = d_qps (x_s t)).
Proof.
  induction l as [|q l IH]; intros before cnt t rm Hr; cbn [poll_pass].
  - exists t, cnt, false, []. rewrite app_nil_r. done.
  - pose proof (poll_takes (x_dev t) (x_mem t) (q_id q.1)) as Hp.
    destruct (dq_poll dv (x_dev t) (x_mem t) (q_id q.1)) as [[d m] [w|]].
    + destruct (handle_ring q.1 w (ds_mem m (ds_at d t)) rm Hr) as (t1 & new & E & Hr1 & Hq & Hd). rewrite E. cbn [mbind res_bind].
      assert (Hd1 : (pending (x_dev t1) < pending (x_dev t))%nat).
      { destruct Hd as [->|[w' ->]]; cbn; [done|]. pose proof (post_adds_none d (q_id q.1) w'). lia. }
      destruct ((d_rqe_avail (x_s t1) =? 0) && negb (d_sqe_avail (x_s t1) =? 0)).
      * eexists _, cnt, true, new. split; [reflexivity|]. split; [by destruct Hr1|]. split; [cbn; lia|]. exists [q], l. done.
      * destruct (IH (before ++ [q]) (S cnt) t1 (rm ++ new) Hr1) as (t' & cnt' & r & new' & E' & Hr' & Hd' & Hq').
        exists t', cnt', r, (new ++ new'). rewrite app_assoc. split; [done|]. split; [done|]. split; [lia|].
        destruct r; [|by rewrite Hq', Hq]. destruct Hq' as (l1 & l2 & -> & ->). exists (q :: l1), l2. split; [done|].
        by rewrite <- app_assoc.
    + destruct (IH (before ++ [q]) cnt (ds_mem m (ds_at d t)) rm Hr) as (t' & cnt' & r & new & E' & Hr' & Hd' & Hq').
      exists t', cnt', r, new. split; [done|]. split; [done|]. cbn in Hd'. split; [lia|].
      destruct r; [|done]. destruct Hq' as (l1 & l2 & -> & ->). exists (q :: l1), l2. split; [done|]. by rewrite <- app_assoc.
Qed.

Lemma passes_end n : forall t rm, ds_ring (x_s t) rm -> (pending (x_dev t) < n)%nat ->
  exists t' new, poll_passes dv n t = Ok t' /\ ds_ring (x_s t') (rm ++ new) /\
    exists l1 l2, d_qps (x_s t) = l1 ++ l2 /\ d_qps (x_s t') = l2 ++ l1.
Proof.
  induction n as [|n IH]; intros t rm Hr Hn; [lia|]. cbn [poll_passes].
  destruct (pass_ends (d_qps (x_s t)) [] 0 t rm Hr) as (t1 & cnt & r & new & E & Hr1 & Hd & Hq). rewrite E. cbn [mbind res_bind].
  destruct r; cbn [orb].
  - destruct Hq as (l1 & l2 & H1 & H2). exists t1, new. split; [done|]. split; [done|]. by exists l1, l2.
  - destruct (Nat.eqb_spec cnt 0).
    + exists t1, new. split; [done|]. split; [done|]. exists [], (d_qps (x_s t)). by rewrite app_nil_r.
    + destruct (IH t1 (rm ++ new) Hr1) as (t' & new' & E' & Hr' & l1 & l2 & H1 & H2); [lia|].
      exists t', (new ++ new'). rewrite app_assoc. split; [done|]. split; [done|]. exists l1, l2. by rewrite <- Hq.
Qed.

(** C40: Polling the completion queues of a datagram socket ends after at most as many rounds
    as there are completions, without an access out of range: the messages that wait in the
    ring stay in their order, those that came are behind them, the count of free entries is
    right, and the queue pairs are the same around the ring. *)
Theorem ds_poll_ends fuel t rm : ds_ring (x_s t) rm -> (pending (x_dev t) < fuel)%nat ->
  exists t' new, ds_poll_cqs dv fuel t = Ok t' /\ ds_ring (x_s t') (rm ++ new) /\
    exists l1 l2, d_qps (x_s t) = l1 ++ l2 /\ d_qps (x_s t') = l2 ++ l1.
Proof.
  intros Hr Hf. unfold ds_poll_cqs. destruct (d_qps (x_s t)) eqn:E.
  - exists t, []. rewrite app_nil_r. split; [done|]. split; [done|]. exists [], []. by rewrite E.
  - rewrite <- E. by apply passes_end.
Qed.

End Polls.

(** ** From the wire to the application *)

Section Arrival.
Context {D : Type} (dv : ds_dev D) (fuel : nat) (polling_time : Z).
Implicit Types t : dst D.

(** The completion of a receive of the slot [off] with the bytes [frame]. *)
Definition arrival (off : Z) (frame : list Z) : ds_wc := mkDsWc (rs_recv_wr_id off) true (sizeof_ibv_grh + zlen frame).

(** The header and the data of a frame in memory. *)
Lemma frame_at m h a bytes : ip_ok a -> read_bytes m h (zlen (header a ++ bytes)) = header a ++ bytes ->
  read_bytes m h (header_len a) = header a /\ read_bytes m (h + header_len a) (zlen bytes) = bytes.
Proof.
  intros Ha Hm. assert (Hn : 0 <= header_len a) by (destruct a; simpl; lia). pose proof (zlen_nonneg bytes).
  rewrite zlen_app, (header_length a Ha), read_bytes_app in Hm by done. apply app_inj_1 in Hm; [done|].
  rewrite read_bytes_length, <- (header_length a Ha). unfold zlen. lia.
Qed.

Lemma valid_frame q off a bytes m : ip_ok a -> 0 <= off < 2 ^ 32 ->
  read_bytes m (q_rbuf q + off) (zlen (header a ++ bytes)) = header a ++ bytes ->
  ds_valid_recv q (arrival off (header a ++ bytes)) m = true.
Proof.
  intros Ha Ho Hm. unfold ds_valid_recv, arrival. cbn [dw_id dw_byte_len]. destruct (recv_id off Ho) as [_ ->].
  apply frame_at in Hm as [Hh _]; [|done]. destruct (header_at m _ a Ha Hh) as (-> & -> & _).
  rewrite zlen_app, (header_length a Ha). pose proof (zlen_nonneg bytes).
  rewrite (proj2 (Z.leb_le _ _)) by (unfold sizeof_ibv_grh, DS_IPV4_HDR_LEN; destruct a; simpl; lia). by destruct a.
Qed.

(** A datagram: the queue pair and the slot it came into, its sender and its data. *)
Record datagram : Type := mkDatagram { g_qp : ds_qp; g_off : Z; g_from : ip_addr; g_data : list Z }.

Definition g_frame (g : datagram) : list Z := header (g_from g) ++ g_data g.
Definition g_slot (g : datagram) : Z := q_rbuf (g_qp g) + g_off g.
Definition g_rmsg (g : datagram) : ds_rmsg := mkRmsg (g_qp g) (g_off g) (zlen (g_frame g)).

(** Its header and its data are in its slot. *)
Record in_slot (m : mem) (g : datagram) : Prop := {
  is_ip : ip_ok (g_from g);
  is_off : 0 <= g_off g < 2 ^ 32;
  is_size : zlen (g_frame g) <= RS_SNDLOWAT;
  is_bytes : read_bytes m (g_slot g) (zlen (g_frame g)) = g_frame g }.

(** The datagrams that wait in the socket, oldest first. *)
Record waiting (t : dst D) (l : list datagram) : Prop := {
  wt_ring : ds_ring (x_s t) (map g_rmsg l);
  wt_slots : Forall (in_slot (x_mem t)) l }.

Lemma in_slot_ext m m' g : in_slot m g -> (forall x, g_slot g <= x < g_slot g + RS_SNDLOWAT -> m' x = m x) -> in_slot m' g.
Proof.
  intros [Hi Ho Hs Hb] Hm. split; try done. rewrite <- Hb at 2. apply read_bytes_ext. intros x Hx. apply Hm. lia.
Qed.

(** A completion of a frame, on a socket with room for it. *)
Lemma arrival_stored t l g : waiting t l -> zlen l < dc_rq_size (d_conf (x_s t)) -> in_slot (x_mem t) g ->
  exists t', ds_handle dv (g_qp g) (arrival (g_off g) (g_frame g)) t = Ok t' /\ waiting t' (l ++ [g]) /\
    x_mem t' = x_mem t /\ x_dev t' = x_dev t.
Proof.
  intros [Hr Hl] Hroom Hg. destruct Hg as [Ha Hoff Hsz Hm] eqn:Eg. pose proof (zlen_nonneg (g_frame g)) as Hn.
  destruct (recv_id _ Hoff) as [Hid Hdata]. 
  pose proof (valid_frame (g_qp g) _ _ (g_data g) _ Ha Hoff Hm : ds_valid_recv _ (arrival _ (g_frame g)) _ = true) as Hv.
  assert (Hav : d_rqe_avail (x_s t) <> 0) by (rewrite (dr_avail _ _ Hr); unfold zlen in *; rewrite length_map; lia).
  destruct (store_ring t _ (g_rmsg g) Hr Hav) as (l' & El & Hr').
  unfold ds_handle. rewrite Hv. cbn [dw_id dw_ok arrival dw_byte_len]. rewrite Hid, Hdata.
  apply Z.eqb_neq in Hav. rewrite Hav. cbn [negb andb].
  replace (u32 (sizeof_ibv_grh + zlen (g_frame g) - sizeof_ibv_grh)) with (zlen (g_frame g))
    by (rewrite u32_small; unfold RS_SNDLOWAT in *; lia).
  fold (g_rmsg g). rewrite El. eexists. split; [reflexivity|]. split; [|done]. split; cbn.
  - by rewrite map_app.
  - apply Forall_app. split; [done|]. by constructor.
Qed.

Lemma ring_data s g rm : ds_ring s (g :: rm) -> ds_have_rdata s = true.
Proof.
  intros [Hr _]. apply ring_head in Hr as (? & _ & _ & Hne & _). unfold ds_have_rdata. apply negb_true_iff. by apply Z.eqb_neq.
Qed.

Lemma read_memcpy m dst src n k : 0 <= k <= n -> read_bytes (memcpy m dst src n) dst k = read_bytes m src k.
Proof.
  intros Hk. unfold read_bytes. apply list_eq. intros i. rewrite !list_lookup_fmap.
  destruct (decide (i < Z.to_nat k)%nat); [|by rewrite !lookup_seqZ_ge by lia]. rewrite !lookup_seqZ_lt by lia. cbn. f_equal.
  unfold memcpy. rewrite (proj2 (Z.leb_le _ _)), (proj2 (Z.ltb_lt _ _)) by lia. cbn. f_equal. lia.
Qed.

(** The oldest datagram is taken. *)
Lemma recvfrom_takes t g l buf len flags addrlen : waiting t (g :: l) ->
  has (d_state (x_s t)) rs_readable = true -> has flags MSG_PEEK = false -> 0 <= len -> 0 <= addrlen ->
  Forall (fun g => buf + len <= g_slot g \/ g_slot g + RS_SNDLOWAT <= buf) (g :: l) ->
  let k := Z.min len (zlen (g_data g)) in
  let n := Z.min addrlen (sockaddr_len (g_from g)) in
  exists t', ds_recvfrom dv fuel polling_time buf len flags (Some addrlen) t
      = Ok (t', k, Some (take (Z.to_nat n) (sockaddr (g_from g)), n)) /\
    read_bytes (x_mem t') buf k = take (Z.to_nat k) (g_data g) /\
    (forall x, x < buf \/ buf + k <= x -> x_mem t' x = x_mem t x) /\
    waiting t' l /\
    x_dev t' = (dq_post_recv dv (x_dev t) (q_id (g_qp g)) (ds_rwr (d_conf (x_s t)) (g_qp g) (g_off g))).1.
Proof.
  intros [Hr Hs] Hst Hpk Hlen Hal Hbuf k n. pose proof (zlen_nonneg (g_data g)) as Hnb.
  apply Forall_cons in Hs as [[Ha Hoff Hsz Hm] Hs]. apply Forall_cons in Hbuf as [Hg Hbuf].
  set (a := g_from g) in *. set (m := x_mem t) in *. set (h := g_slot g) in *.
  destruct (frame_at m h a (g_data g) Ha Hm) as [Hh Hb]. destruct (header_at m h a Ha Hh) as (_ & Hhl & _).
  unfold g_frame in Hsz. fold a in Hsz. rewrite zlen_app, (header_length a Ha) in Hsz.
  assert (H8 : 0 <= header_len a) by (destruct a; simpl; lia).
  unfold ds_recvfrom. rewrite Hst, (ring_data _ _ _ Hr). cbn [negb mbind res_bind Z.eqb].
  destruct (ring_head _ _ _ _ _ _ _ (dr_ring _ _ Hr)) as (g' & Eg & Hg' & _ & Hr2). cbn in Hg'. subst g'.
  rewrite Eg. cbn [mbind res_bind dm_qp dm_offset dm_length g_rmsg]. change (q_rbuf (g_qp g) + g_off g) with h.
  fold m. rewrite Hhl. replace (u32 (zlen (g_frame g) - header_len a)) with (zlen (g_data g))
    by (unfold g_frame; fold a; rewrite zlen_app, (header_length a Ha), u32_small; unfold RS_SNDLOWAT in *; lia).
  rewrite min_if. fold k. rewrite Hpk. set (m2 := memcpy m buf _ k).
  assert (Hout : forall x, x < buf \/ buf + k <= x -> m2 x = m x) by (intros x Hx; apply memcpy_out; lia).
  assert (Hh2 : read_bytes m2 h (header_len a) = header a).
  { rewrite <- Hh. apply read_bytes_ext. intros x Hx. apply Hout. lia. }
  destruct (header_at m2 h a Ha Hh2) as (_ & _ & Hsrc). cbn [fmap option_fmap option_map]. rewrite (Hsrc addrlen Hal). fold n.
  pose proof (post_recv_keeps dv (g_qp g) (g_off g) (ds_mem m2 t)) as (Hps & Hpm & Hpd).
  destruct (ds_post_recv dv (g_qp g) (g_off g) (ds_mem m2 t)) as [t2 r]. cbn in Hps, Hpm, Hpd.
  eexists. split; [reflexivity|]. cbn. rewrite Hpm. split_and!; [|exact Hout| |exact Hpd].
  - unfold m2. rewrite read_memcpy by lia. by rewrite <- Hb, take_read by lia.
  - split; cbn; rewrite ?Hps, ?Hpm.
    + split; cbn; [exact Hr2|]. rewrite (dr_avail _ _ Hr). cbn [map]. rewrite zlen_cons. lia.
    + apply Forall_forall. intros g' Hin. rewrite Forall_forall in Hs, Hbuf. eapply in_slot_ext; [by apply Hs|].
      intros x Hx. apply Hout. specialize (Hbuf g' Hin). lia.
Qed.

(** C24: Datagrams go through the ring of a socket in order, with their senders.  (1) The
    completion, on any queue pair, of a frame that is the header ds_format_hdr makes of the
    sender's address, whatever its scope, and data, is put behind the datagrams that wait,
    if the ring has room.  (2) ds_recvfrom without MSG_PEEK on a readable socket with
    datagrams waiting gives the oldest: it returns the length of the data or of the buffer,
    whichever is less, puts these bytes of the data into the buffer and changes no other
    byte, and gives the address of the sender with scope 0; the slot goes back to the device
    and the others still wait, in their order, if the buffer overlaps none of their slots. *)
Theorem datagram_arrives t l g :
  (forall scope, waiting t l -> zlen l < dc_rq_size (d_conf (x_s t)) -> in_slot (x_mem t) g ->
   exists t', ds_handle dv (g_qp g)
       (arrival (g_off g) (ds_format_hdr (sockaddr_in_scope (g_from g) scope) ++ g_data g)) t = Ok t' /\
     waiting t' (l ++ [g]) /\ x_mem t' = x_mem t /\ x_dev t' = x_dev t) /\
  (forall buf len flags addrlen, waiting t (g :: l) ->
   has (d_state (x_s t)) rs_readable = true -> has flags MSG_PEEK = false -> 0 <= len -> 0 <= addrlen ->
   Forall (fun g => buf + len <= g_slot g \/ g_slot g + RS_SNDLOWAT <= buf) (g :: l) ->
   let k := Z.min len (zlen (g_data g)) in
   let n := Z.min addrlen (sockaddr_len (g_from g)) in
   exists t', ds_recvfrom dv fuel polling_time buf len flags (Some addrlen) t
       = Ok (t', k, Some (take (Z.to_nat n) (sockaddr (g_from g)), n)) /\
     read_bytes (x_mem t') buf k = take (Z.to_nat k) (g_data g) /\
     (forall x, x < buf \/ buf + k <= x -> x_mem t' x = x_mem t x) /\
     waiting t' l /\
     x_dev t' = (dq_post_recv dv (x_dev t) (q_id (g_qp g)) (ds_rwr (d_conf (x_s t)) (g_qp g) (g_off g))).1).
Proof.
  split; [|by apply recvfrom_takes]. intros scope Hw Hroom Hg. rewrite format_header by apply Hg. by apply arrival_stored.
Qed.
End Arrival.

(** ** Examples *)

(** A device that has completions and takes every request. *)
Definition list_dev (ret : Z) : ds_dev (list ds_wc) := {|
  dq_post_send d _ _ := (d, ret);
  dq_post_recv d _ _ := (d, 0);
  dq_poll d m _ := match d with [] => (d, m, None) | w :: d => (d, m, Some w) end;
  dq_notify d _ := d;
  dq_epoll d := (d, -1, EWOULDBLOCK);
  dq_event d _ := (d, -1);
  dq_ack d _ := d;
  dq_sendmsg d _ bs _ := (d, Z.of_nat (length bs), 0);
  dq_clock d := (d, 0) |}.

Definition small_conf : ds_conf := mkDsConf 4096 8192 4 0 8192 4 0.
Definition home : ip_addr := V4 [31; 144] [10; 0; 0; 7].
Definition one_qp : ds_qp := mkDsQp 1 17 (header home) 65536 5 6.
Definition other : ds_dest := mkDest (sockaddr (V4 [31; 145] [10; 0; 0; 8])) one_qp (Some 3) 18.
Definition no_msg : ds_rmsg := mkRmsg one_qp 0 0.

(** A socket with a message of three bytes that came into its second slot. *)
Definition frame_in : list Z := ds_format_hdr (sockaddr home) ++ [1; 2; 3].
Definition new_sock : dst (list ds_wc) :=
  mkDst (mkDs small_conf [(one_qp, false)] rs_init false 0 0 0 [] 0 0)
    (write_bytes (fun _ => 0) (65536 + 2048) frame_in) [arrival 2048 frame_in] 0.
Definition ready_sock : dst (list ds_wc) := (ds_init_ep 0 (replicate 5 no_msg) new_sock).1.

Lemma small_sendable : sendable small_conf.
Proof. unfold sendable, RS_QP_MAX_SIZE, RS_SNDLOWAT. cbn. lia. Qed.

Lemma ready_sending : sending (list_dev 0) small_conf ready_sock [].
Proof. by apply sending_init. Qed.

Lemma datagram_slots_exclusive_witness : exists t' ret a,
  send_slot (list_dev 0) other (header home) [1; 2; 3] ready_sock = Ok (t', ret) /\ a ∈ all_slots small_conf /\
  gather (x_mem t') [mkSge a 11 5] = header home ++ [1; 2; 3].
Proof.
  destruct (datagram_slots_exclusive (list_dev 0) small_conf ready_sock [] small_sendable ready_sending) as (_ & _ & _ & H).
  destruct (H eq_refl other (header home) [1; 2; 3] ltac:(by vm_compute)) as (t' & ret & a & H1 & H2 & _ & _ & H3 & _).
  by exists t', ret, a.
Defined.

Lemma ready_ring : ds_ring (x_s ready_sock) [].
Proof. split; [|done]. split; try (by vm_compute); cbn; try lia. unfold zlen. cbn. lia. Qed.

Lemma ds_poll_ends_witness : exists t' new, ds_poll_cqs (list_dev 0) 3 ready_sock = Ok t' /\ ds_ring (x_s t') ([] ++ new).
Proof.
  destruct (ds_poll_ends (list_dev 0) length ltac:(by intros [|w d] m q; cbn; lia) ltac:(done) 3 ready_sock [] ready_ring ltac:(cbn; lia))
    as (t' & new & H1 & H2 & _).
  by exists t', new.
Defined.

Definition first_datagram : datagram := mkDatagram one_qp 2048 home [1; 2; 3].

Lemma datagram_arrives_witness : exists t1 t2,
  ds_handle (list_dev 0) one_qp (arrival 2048 frame_in) ready_sock = Ok t1 /\
  ds_recvfrom (list_dev 0) 4 10 200000 2 0 (Some 16) t1 = Ok (t2, 2, Some (take 16 (sockaddr home), 16)) /\
  read_bytes (x_mem t2) 200000 2 = [1; 2].
Proof.
  destruct (proj1 (datagram_arrives (list_dev 0) 4 10 ready_sock [] first_datagram) (replicate 20 0)) as (t1 & E1 & Hw & _).
  - split; [exact ready_ring|constructor].
  - by vm_compute.
  - split; [split; reflexivity|cbn; lia|by vm_compute|by vm_compute].
  - destruct (proj2 (datagram_arrives (list_dev 0) 4 10 t1 [] first_datagram) 200000 2 0 16 Hw) as (t2 & E2 & Hb & _);
      [|reflexivity|lia|lia| |].
    + assert (H : match ds_handle (list_dev 0) one_qp (arrival 2048 frame_in) ready_sock with
        | Ok t => has (d_state (x_s t)) rs_readable | _ => false end = true) by (vm_compute; reflexivity).
      change (ds_handle (list_dev 0) one_qp (arrival 2048 frame_in) ready_sock = Ok t1) in E1. by rewrite E1 in H.
    + constructor; [|constructor]. right. by vm_compute.
    + by exists t1, t2.
Defined.

(** ** Messages that do not fit *)

(** The length of a message is not looked at: one that is longer than its slot overwrites
    the link of the next, so that the message after the next goes where the data says. *)
Lemma long_message_breaks_slots : exists t', send_slot (list_dev 0) other (header home) (replicate 2048 7) ready_sock = Ok (t', 0) /\
  d_smsg_free (x_s t') = 6144 /\ le_combine (read_bytes (x_mem t') 6144 8) = 506381209866536711.
Proof. eexists. split; [reflexivity|]. by vm_compute. Qed.

(** A post that the device refuses takes a slot for ever. *)
Lemma refused_message_keeps_slot : exists t', send_slot (list_dev ENOMEM) other (header home) [1] ready_sock = Ok (t', -1) /\
  d_sqe_avail (x_s t') = 3 /\ x_dev t' = x_dev ready_sock.
Proof. eexists. split; [reflexivity|]. by vm_compute. Qed.

(** A message of 8 bytes that says it is IPv6 is taken for one with a header of 24, and the
    call gives as many bytes behind it as the buffer holds. *)
Lemma short_message_reads_beyond :
  let m := write_bytes (fun _ => 0) (65536 + 2048) [6; 24; 0; 0; 0; 0; 0; 0] in
  let t := ds_mem m (ds_at [mkDsWc (rs_recv_wr_id 2048) true 48] ready_sock) in
  match ds_recvfrom (list_dev 0) 4 10 200000 5000 MSG_DONTWAIT None t with Ok (_, len, _) => len = 5000 | _ => False end.
Proof. vm_compute. reflexivity. Qed.

(** For IPv6 the header to the service carries the flow and three words of the address. *)
Lemma udp_header_cuts_address port flow ip num : length port = 2%nat -> length flow = 4%nat -> length ip = 16%nat ->
  drop 12 (udp_header (mkDsQp 1 num (header (V6 port flow ip)) 0 0 0) RS_OP_DATA) = flow ++ take 12 ip.
Proof.
  intros Hp Hf Hi. do 3 (destruct port as [|? port]; try done). by do 5 (destruct flow as [|? flow]; try done).
Qed.
