(* ===== verification/RsFaults.v ===== *)
(** * Faults of the stream sockets

    What the code of rsocket.c does outside of the conditions under which a connection
    works. *)

From S2P Require Import Prelude CLayout Wire CmdCtrl Verbs CmTypes CmRoute RsTypes RsPost RsStream RsWorld RsInv RsRing.
From S2P Require Import RsOpen RsConn RsStreams.

Lemma has_lor x b : 0 < b -> has (Z.lor x b) b = true.
Proof.
  intros Hb. unfold has. apply negb_true_iff, Z.eqb_neq. rewrite Z.land_lor_distr_l, Z.land_diag.
  intros [_ ->]%Z.lor_eq_0_iff. lia.
Qed.

(** ** Opening *)

Section Open.
Context {D : Type} (dv : rs_dev D) (e : ep_env D).
Implicit Types t : rst D.

(** [sq_inline] is set to 0 behind the creation of the queue pair, so that the test for
    transports that need messages inline never passes: no stream socket opens there. *)
Lemma iwarp_never_opens t d : e_iwarp e = true -> (forall t, rs_create_cq e t = 0) ->
  (forall c, e_create_qp e c = (d, 0)) -> exists t', rs_create_ep dv e t = Ok (t', -1) /\ t_errno t' = ENOTSUP.
Proof.
  intros Hw Hcq Hqp. unfold rs_create_ep. rewrite Hw, Hcq. cbn [Z.eqb negb]. rewrite Hqp. cbn [Z.eqb negb].
  replace (msg_send _) with true; [by eexists|]. symmetry. unfold msg_send. by apply has_lor.
Qed.

(** The list for the peer's credits is cleared also when it could not be registered. *)
Lemma unregistered_target_is_written t s :
  e_calloc e (rq_size (rs_cf (t_rs t)) + 1) = true -> e_smr e (u32 (sbuf_size (rs_cf (t_rs t)) + RS_MAX_CTRL_MSG * RS_QP_CTRL_SIZE)) = Some s ->
  (forall len, e_target_mr e len = None) -> rs_init_bufs e t = Ub.
Proof. intros Hc Hs Ht. unfold rs_init_bufs. by rewrite Hc, Hs, Ht. Qed.

(** With no mapping in the queue the result of [rs_send_iomaps] is whatever [ret] was. *)
Lemma empty_iomaps_give_junk fuel pt junk flags t : iomap_queue (rs_s (t_rs t)) = [] ->
  exists t', rs_send_iomaps dv fuel pt junk flags t = Ok (t', junk).
Proof.
  intros Hq. unfold rs_send_iomaps. replace (iomap_loop dv fuel pt fuel flags junk t) with (Ok (t, junk) : res (rst D * Z)).
  - by eexists.
  - symmetry. destruct fuel; simpl; by rewrite Hq.
Qed.

End Open.

(** ** Buffers of odd size *)

(** An end whose receive buffer has 4097 bytes, as the file mem_default can ask for. *)
Definition odd_end : endpoint :=
  mkEnd (rs_alloc (rs_configure (fun f => if String.eqb f "mem_default" then Some 4097 else None) builtin_defs) None)
    (fun _ => 0) 4096 (mkReg 1048576 1 2) (mkReg 2097152 3 4) (mkReg 3145728 5 6).

Definition odd_opened : rst port := (ok_or (mkRst (n_rs odd_end) (fun _ => 0) (mkPort [] [] [] [] 0) 0, 0) (open_end odd_end)).1.

(** Twice a half is not the whole, so that the offset of the next half does not go back to
    0: the third half that is granted ends behind the buffer. *)
Lemma odd_buffer_grants_beyond :
  let t := rs_send_credits port_dev (s_t (joined false odd_opened odd_opened)) in
  rg_addr (free_half t) + rg_length (free_half t) = rbuf (rs_cf (t_rs t)) + rbuf_size (rs_cf (t_rs t)) + 2047.
Proof. vm_compute. reflexivity. Qed.
